(* ===== verification/_CoqProject ===== *)
-Q . S2P
Prelude.v
GoStrings.v
GoStringsFacts.v
GoHttp.v
GoHttpFacts.v
OsioRequest.v
Json.v
Base64.v
OsioClient.v
OsioServices.v
OsioJwt.v
Sha256.v
OsioCache.v
OsioAuth.v
OsioServicesFacts.v
OsioAuthFacts.v
OsioIsolation.v
GoStrconv.v
Types.v
TypesFacts.v
Domains.v
OsioProvider.v
OsioProviderFacts.v
GoNet.v
Whitelist.v
Rules.v
Middlewares.v
Routing.v
Retry.v
LabelNames.v
Label.v
LabelSegment.v
EntryPoints.v
Reload.v
Wiring.v
Redirect.v
Pool.v
Certs.v
GlobalConfig.v
Anonymize.v
Cookie.v
ErrorPages.v
Authenticator.v
Balancer.v
HealthCheck.v
AccessLog.v
Metrics.v
Handlers.v
LoadConfig.v
LoadConfigFacts.v
Api.v
Kv.v
KvFacts.v
KvStores.v
ProviderBase.v
FileProvider.v
ConsulCatalog.v
ConsulFacts.v
ConsulWatch.v
Docker.v
Marathon.v
Mesos.v
Rancher.v
Ecs.v
PollingProviders.v
Kubernetes.v
AcmeDomains.v
AcmeStore.v
AcmeProvider.v
AcmeFacts.v
Datastore.v
Leadership.v
AcmeAccount.v
AcmeCluster.v
AcmeConvert.v
ServerSetup.v
ServerFacts.v
Lifecycle.v
Commands.v
EndToEnd.v
