(* ===== verification/Prelude.v ===== *)
(** * Verification of the OSO proxy (fabric8-oso-proxy, a fork of Traefik)

    The proxy authenticates a user's request with an OpenShift.io token, finds
    the user's tenant and cluster, exchanges the token for one of the cluster,
    and forwards the request to the cluster's API server.  The forwarding is
    Traefik's: providers publish frontends and backends, the server installs
    them and wires each frontend's rules to handlers.  This library models that
    path, and the parts around it, in Go's terms and proves what each promises.
    File names without a directory are those of this library; the others are
    under [src/].

    ** The parts and how they interact

    - A request enters the OSIO request middleware ([OsioRequest],
      [middlewares/osio/osio_request.go]), which moves an [access_token]
      parameter into the [Authorization] header, then, past Traefik's own
      middlewares, the OSIO authentication middleware ([OsioAuth],
      [middlewares/osio/osio.go]).
    - [OsioAuth] classifies the path, takes the token, asks the token type
      locator ([OsioJwt], [jwt_token.go]) whose token it is, and resolves a
      namespace and a cluster token through the cache ([OsioCache],
      [cache.go]) and the services ([OsioServices], [tenant.go], [token.go],
      [secret.go]).  It answers 401, a redirection, or calls the next handler
      with the [Target] header set to the cluster's address.
    - The OSIO provider ([OsioProvider], [OsioClient], [provider/osio/]) polls
      the cluster service and sends a configuration ([Types],
      [types/types.go]) with a frontend [Headers:Target,<address>] for each
      address.  [Routing] connects the two ends.
    - The other providers make configurations of what they watch: ingresses
      ([Kubernetes]), the keys of a store ([Kv], with the four stores in
      [KvStores]), files ([FileProvider]), the services of Consul
      ([ConsulCatalog], [ConsulWatch]), containers ([Docker]), the applications
      and tasks of [Marathon], [Mesos], [Rancher] and [Ecs], of Eureka and the
      items of DynamoDB ([PollingProviders]); each is the directory of its name
      under [provider/].  [ProviderBase] ([provider/provider.go]) has the names
      and the tables of the templates they share, [Label] and [LabelSegment]
      ([provider/label/]) the labels they read, [Domains] the filter by
      constraints.
    - The server ([server/server.go]) throttles the configurations it receives,
      fills in their defaults and installs them ([Reload], [Wiring]).
      [LoadConfig] turns the installed configurations into a router for every
      entry point: a route for every frontend, whose rule [Rules]
      ([rules/rules.go]) parses, to a chain of handlers for its backend.  The
      chains are values of [Handlers]; their middlewares are the path handlers
      ([Middlewares]), the white list ([Whitelist], [whitelist/ip.go]), retries
      ([Retry]), redirections ([Redirect]), error pages ([ErrorPages]),
      authentication ([Authenticator]), the access log ([AccessLog]), the
      counting of requests ([Metrics], with [metrics/]), all of
      [middlewares/], and last the load balancer ([Balancer]), from which the
      health checks ([HealthCheck]) remove servers.  The sticky cookies are
      named by [Cookie].
    - [ServerSetup] builds what outlives configurations: the server of an entry
      point with its TLS ([Certs], [tls/]) and its own chain, the OSIO
      middlewares among it; the internal routes ([Api], [api/]); the transport
      to the backends; and swaps new routers in.  Its goroutines belong to
      [Pool] ([safe/routine.go]).  [Lifecycle] ends the process and rotates its
      logs.
    - Certificates come from ACME: of a single node from the provider
      ([AcmeDomains], [AcmeStore], [AcmeProvider], [provider/acme/]), which is
      also a provider of configurations; of a cluster from the account its nodes
      share ([AcmeAccount], [AcmeCluster], [acme/]), a transaction on an object
      of the key-value store ([Datastore], [cluster/datastore.go]) made by the
      leader ([Leadership], [cluster/leadership.go]).  [AcmeConvert] moves an
      account between the two.
    - The static configuration is read from flags ([EntryPoints],
      [configuration/entrypoints.go]) and made effective ([GlobalConfig],
      [configuration/configuration.go]); [Commands] ([cmd/]) reads the settings
      of the log, asks for the proxy's health, and stores the configuration;
      [Anonymize] ([anonymize/], [collector/]) reports it.
    - [EndToEnd] follows a client's request through all of these.

    Where a part is long its properties are in a file of their own ([X] and
    [XFacts]) or in a section of the file, under the title Facts.

    ** Conventions

    A Go function is a function of the same name, a method [T.m] is [T_m] or
    [m]; a pointer is an option, a struct a record, a map a [gmap].  A Go
    [error] is its message; [(T, error)] is [result T].  Code that calls
    services runs in the state monad [M W], whose outcomes are a value, a
    panic, or a crash of the process ([go] turns a panic inside a goroutine
    into a crash).  Loops over Go maps take the order as a parameter
    ([MapOrder]), of which only being a permutation is known.  Goroutines and
    channels are step relations with arbitrary interleaving
    ([OsioCache.step], [Reload.step], [Pool.step], [Datastore.step],
    [ConsulWatch.step], [Lifecycle.Rotation.step],
    [Lifecycle.Shutdown.shutdown_step]);
    the other loops that watch are functions of the list of events they see.
    Integers are [Z] with the wrap-around written out where the code can reach
    it ([Label.wrap64], [GoStrconv], [Sha256.w32]).

    What is not the program's own code is a parameter: the HTTP client
    ([Network]), JWT verification ([JwtLib], [JwtLaws]), OpenPGP ([OpenPGP]), the mux
    library's templates and the sorting of prefixes ([Mux], [MuxLaws]),
    regular expressions ([RegexpLib]), URL parsing and text templates
    ([UrlLib], [TemplateLib]), the certificate files and the names in a
    certificate ([TLSFiles], [Leaf]), the parsing of durations ([TimeLib]) and
    of times ([Rfc3339]), the users of basic and digest authentication
    ([GoAuth]), the handlers of the oxy library ([Oxy]), the order of routes
    ([RouteSort]), the interface of the balancer ([LoadBalancer], which
    [Balancer] implements), letters outside ASCII ([UnicodeLib]), copies and
    masks of the anonymizer ([AnonymizeLib]).  Of the providers: the clients
    (Kubernetes' [Client], [AwsClient], [DynamoLib], [TaskIP], [KVStore],
    [KvSource], [StoreLib], or functions that give their answers), the engine
    that executes a template and decodes its text ([TemplateEngine],
    [RuleTemplate] with the definitions a parsed text leaves in it,
    [FileDecoder], [Yaml]).  Of ACME: the library and its
    clients ([AcmeLib], [LegoLib]), X.509 and TLS ([X509], [TlsLib]), the
    encoders of what is stored ([StoredJson], [OldJson], [AccountStore],
    [ObjectJson]).  The parts of the program a component calls through an
    interface are classes too: [ServerHandlers] for what the chains run,
    [ServerEnv] for what the server is started with, [Store] for what the ACME
    provider keeps.  Go's standard library, as far as it is used, is modelled:
    strings ([GoStrings]), URLs, headers and queries ([GoHttp]), JSON decoding
    ([Json]), Base64 ([Base64]), SHA-256 ([Sha256]), numbers ([GoStrconv]),
    addresses ([GoNet]), SHA-1 ([Cookie]), the permissions of reflection
    ([Anonymize]).

    ** What is shown

    - End to end ([EndToEnd]): with the configuration of the OSIO provider
      installed, a request that reaches a backend is the client's as the
      middlewares before the OSIO one left it, and goes to the server of the
      cluster resolved for it, with the cluster's token, or, an OPTIONS, to the
      provider's default address.
    - Authentication ([OsioAuthFacts]): a forwarded request carries exactly the
      resolved token and target; a service account's loses [Impersonate-User]
      and, unless its first value is empty, [Impersonate-Group]; a request that
      cannot be resolved is answered 401 and never forwarded; the path is
      stripped as its kind asks.
    - Isolation ([OsioIsolation]): every request is served with a result its
      own token, user and namespace resolved to, given that the hash separates
      the keys in use, and keeps the cache such that the next one is, whatever
      its own outcome; when keys are separated is characterised.
    - The cache ([OsioCache]): at most one successful resolution per key under
      any interleaving, every answer is a resolution's, failures are not
      remembered; the sequential code is a schedule of the protocol.
    - The services ([OsioServicesFacts]): exactly when a resolution succeeds
      and with which calls and replies; the crash on an unreachable service; the
      memory of the service-account token.  A token is accepted only when signed
      with a key of the auth service, and by its claims is a user's or the che
      account's ([OsioJwt]).
    - The OSIO provider ([OsioProviderFacts]): the configuration made of a list
      of clusters, address by address; the calls polling makes over any number of
      attempts, in a client that records them, and that what it sends is made of
      their replies.  [Routing]: the forwarded request reaches the frontend of the
      user's cluster and no other; an OPTIONS request, which is not
      authenticated, the default backend.
    - The other providers: every frontend comes from an ingress and points to
      its backend ([Kubernetes]); the configuration is the one the keys describe,
      for every store, that of etcd with its keys read as it names them
      ([KvFacts]); what runs and passes the filter is a server of its backend,
      and nothing else is ([Docker], [Marathon], [Mesos], [Rancher], [Ecs],
      [ConsulFacts]), as far as names of servers and services do not collide;
      the configuration does not depend on the order in which Go enumerates maps
      nor, when no rule is blank or calls a template of another, on earlier ones
      ([ConsulFacts]), and is the union of the files of a directory
      ([FileProvider]); what a change is and which changes are lost
      ([ConsulWatch], [Rancher], [PollingProviders]); which inputs panic.
    - Reloading ([Reload], [Wiring]): configurations are published in order, at
      most one per period, and the last one is never lost between acceptance and
      publication, but can be dropped before acceptance; the defaults; rules and
      path handlers end to end.
    - The routers ([LoadConfigFacts]): unless a rule makes the parser panic,
      [loadConfig] returns a router for every entry point, whatever else is
      wrong with a frontend, and its only error is a certificate's; an invariant
      of its state relates every chain to the frontend and backend it was made
      of.
    - The servers ([ServerFacts]): the very request that reaches a backend passed
      the guards of its entry point, was handled by the OSIO middlewares and
      passed the guards of a frontend that matched it; the one that reaches an
      internal route passed the entry point's internal guards; a reload swaps
      all routers or none; the TLS configuration of an entry point.
    - The process: [Stop] of a pool returns only when every goroutine has ended,
      can always return when they heed their signals, and never does after one
      of them panicked ([Pool]); the process ends only when every request was
      answered or had its grace time, connections taken over from the servers
      apart, can always end, and may do so before it has closed what it should;
      rotating logs loses no line, unless they are at
      the standard output ([Lifecycle]).
    - The handlers: what a forward authentication lets through
      ([Authenticator]); the response with error pages ([ErrorPages]); the
      fields and counts of the access log ([AccessLog]); no series of an
      outdated configuration is shown ([Metrics]); no server is lost or invented
      by the health checks ([HealthCheck]); what the API shows ([Api]).
    - ACME: the domains asked for cover what is configured ([AcmeDomains]); a
      domain is asked for once, renewals keep what is good ([AcmeFacts]); the
      certificate served is one for the name, the same on all nodes
      ([AcmeCluster]); an account survives the conversion and back, unless it is
      one of ACME v1, which is dropped with its certificates kept ([AcmeConvert]).  The cluster: transactions are serial ([Datastore]); the
      reports of the election and what the node makes of them ([Leadership]).
    - The static configuration: after [SetEffectiveConfiguration] what the
      server dereferences is there, and says what the given configuration said,
      deprecated options translated ([GlobalConfig]); the certificates of an
      entry point ([Certs]); cookie names are tokens ([Cookie]); what is told of
      a configuration is what is tagged for it ([Anonymize]); the health command
      asks where ping is served, what is stored is complete or in error
      ([Commands]).
    - Matching and parsing: rules ([Rules]), white list ([Whitelist]), globs,
      constraints, status ranges and client TLS ([TypesFacts]), wildcards
      ([Domains]), labels ([Label], [LabelSegment]), flags ([EntryPoints]),
      prefixes and custom headers ([Middlewares]), retries ([Retry]),
      redirections ([Redirect]).

    ** Fuel and bounds

    Recursion is structural wherever the code's is.  [Domains.reverse_loop],
    [Retry.retry_loop], [Ecs.chunks_from] and [AcmeAccount.delete_duplicates]
    have fuel: the length of the slice, the number of attempts, that of the
    tasks and that of the certificates, each shown to be enough by the theorems
    about the function that runs them; [Datastore.watch_retry] has one round
    more than there are events, each of which uses one up; [Docker.find_address] follows a container to
    another's network as often as its depth says, where the code would follow a
    cycle for ever; the eight steps of [GoNet.ipv6_go] and the four of
    [GoNet.hex_go] are the bounds of Go's own loops.  Polling loops and retries
    run over a finite list of events and attempts, of any length.

    ** What is not modelled

    Log calls, tracing spans, the timeouts of calls; the instruments of the
    metrics libraries and their start.  Letters outside ASCII keep their case.
    A JSON body is the tree it spells, or its syntax error.  A configuration's
    nested nil and empty slices are not told apart when configurations are
    compared.  The balancer's choice of the next server; the way of a response
    back through the chain, except for the handlers that have a file of their
    own; what goes over a hijacked connection (that shutting down does not wait
    for one is in [Lifecycle]).  Of the providers: the creation of the clients of
    AWS and Rancher, the long polling of Rancher's library, the informers behind
    the Kubernetes client, and the deprecated templates of version 1 with their
    functions ([deprecated_*.go]), which [templateVersion = 1] alone chooses.
    Of the command line: the defaults of the flags, the report of a bug, the
    version and its check.  Generated code ([autogen/]), mocks, test helpers,
    the web interface and the vendored libraries are no part of the program's
    own logic.

    ** This file

    Results, effects, the order of map iteration, and the lemmas every part
    uses. *)
From stdpp Require Export base tactics list gmap strings pretty relations sorting.
From Stdlib Require Export ZArith Lia.

#[export] Set Default Proof Using "Type".

(** ** Errors

    A Go [error] is represented by its message; a Go result [(T, error)] by
    [result T]: the code under [src/] reads the value only after testing the
    error, the one exception (the promise of the token cache, which stores
    both) keeps the two fields apart. *)
Abbreviation error := string (only parsing).

Inductive result (A : Type) : Type :=
  | Ok (a : A)
  | Err (e : error).
Arguments Ok {A} a.
Arguments Err {A} e.

#[global] Instance result_ret : MRet result := fun A a => Ok a.
#[global] Instance result_bind : MBind result := fun A B f m =>
  match m with Ok a => f a | Err e => Err e end.

Definition is_ok {A} (r : result A) : bool :=
  match r with Ok _ => true | Err _ => false end.

#[global] Instance result_eq_dec {A} `{EqDecision A} : EqDecision (result A).
Proof. solve_decision. Defined.

(** ** Effects

    A computation over a world [W] ends in a value, in a panic that the
    goroutine's caller may recover, or in a crash of the whole process (a
    panic that leaves a goroutine nobody recovers in). *)
Inductive outcome (A : Type) : Type :=
  | Ret (a : A)
  | Panic (msg : string)
  | Crash (msg : string).
Arguments Ret {A} a.
Arguments Panic {A} msg.
Arguments Crash {A} msg.

#[global] Instance outcome_ret : MRet outcome := fun A a => Ret a.
#[global] Instance outcome_bind : MBind outcome := fun A B f m =>
  match m with Ret a => f a | Panic e => Panic e | Crash e => Crash e end.

Definition M (W A : Type) : Type := W -> outcome A * W.

#[global] Instance M_ret W : MRet (M W) := fun A a w => (Ret a, w).
#[global] Instance M_bind W : MBind (M W) := fun A B f m w =>
  match m w with
  | (Ret a, w') => f a w'
  | (Panic e, w') => (Panic e, w')
  | (Crash e, w') => (Crash e, w')
  end.

Definition get_state {W} : M W W := fun w => (Ret w, w).
Definition modify_state {W} (f : W -> W) : M W unit := fun w => (Ret tt, f w).

Definition panic {W A} (msg : string) : M W A := fun w => (Panic msg, w).

(** [go f] waits for a goroutine running [f]: a panic inside it cannot be
    recovered by the waiter and takes the process down. *)
Definition go {W A} (m : M W A) : M W A := fun w =>
  match m w with
  | (Panic e, w') => (Crash e, w')
  | r => r
  end.

(** [if err != nil { return ..., err }] after a call returning [(T, error)]. *)
Definition bind_ok {W A B} (m : M W (result A)) (k : A -> M W (result B)) : M W (result B) :=
  r ← m; match r with Ok a => k a | Err e => mret (Err e) end.

Declare Scope go_scope.
Delimit Scope go_scope with go.
Notation "x <-? m ;; k" := (bind_ok m (fun x => k))
  (at level 100, m at next level, right associativity) : go_scope.

(** Run a computation on one component of a larger state. *)
Definition zoom {W V A} (get : W -> V) (set : V -> W -> W) (m : M V A) : M W A := fun w =>
  match m (get w) with (o, v) => (o, set v w) end.

(** ** Generic lemmas *)

Lemma bind_ret {W A B} (a : A) (f : A -> M W B) w : (mret a ≫= f) w = f a w.
Proof. reflexivity. Qed.

Lemma bind_assoc {W A B C} (m : M W A) (f : A -> M W B) (g : B -> M W C) w :
  ((m ≫= f) ≫= g) w = (m ≫= fun a => f a ≫= g) w.
Proof. unfold mbind, M_bind. by destruct (m w) as [[] ?]. Qed.

(** Inverting a computation that returned. *)
Lemma bind_Ret_inv {W A B} (m : M W A) (f : A -> M W B) w b w' :
  (m ≫= f) w = (Ret b, w') -> exists a w1, m w = (Ret a, w1) /\ f a w1 = (Ret b, w').
Proof. unfold mbind, M_bind. destruct (m w) as [[] ?]; intros; simplify_eq; eauto. Qed.

Lemma mret_Ret_inv {W A} (a b : A) (w w' : W) : mret (M := M W) a w = (Ret b, w') -> b = a /\ w' = w.
Proof. unfold mret, M_ret. by intros [= -> ->]. Qed.

Lemma outcome_bind_inv {A B} (m : outcome A) (f : A -> outcome B) b : (m ≫= f) = Ret b -> exists a, m = Ret a /\ f a = Ret b.
Proof. destruct m; [|done|done]. eauto. Qed.
Lemma result_bind_inv {A B} (r : result A) (f : A -> result B) b : (r ≫= f) = Ok b -> exists a, r = Ok a /\ f a = Ok b.
Proof. destruct r; [|done]. eauto. Qed.

Lemma bind_ok_Ret_inv {W A B} (m : M W (result A)) (k : A -> M W (result B)) w b w' :
  bind_ok m k w = (Ret (Ok b), w') -> exists a w1, m w = (Ret (Ok a), w1) /\ k a w1 = (Ret (Ok b), w').
Proof.
  unfold bind_ok. intros (r & w1 & Hm & Hk)%bind_Ret_inv. destruct r; [eauto|].
  by apply mret_Ret_inv in Hk as [[=] _].
Qed.

Lemma zoom_Ret {W V A} get (set : V -> W -> W) (m : M V A) w o v :
  m (get w) = (o, v) -> zoom get set m w = (o, set v w).
Proof. unfold zoom. by intros ->. Qed.

Lemma go_ret {W A} (m : M W A) w a w' : m w = (Ret a, w') -> go m w = (Ret a, w').
Proof. unfold go. by intros ->. Qed.

Lemma go_panic {W A} (m : M W A) w e w' : m w = (Panic e, w') -> go m w = (Crash e, w').
Proof. unfold go. by intros ->. Qed.

(** A left fold whose steps commute does not depend on the order of the list:
    what makes a loop over a Go map deterministic. *)
Lemma foldl_permutation {A B} `{!EqDecision A} (f : B -> A -> B) (l1 l2 : list A) (b : B) :
  l1 ≡ₚ l2 ->
  (forall x y b, x ∈ l1 -> y ∈ l1 -> x <> y -> f (f b x) y = f (f b y) x) ->
  foldl f b l1 = foldl f b l2.
Proof.
  intros HP. revert b. induction HP as [|x l1 l2 HP IH|x y l|l1 l2 l3 H1 IH1 H2 IH2];
    intros b Hc; simpl.
  - done.
  - apply IH. intros; apply Hc; set_solver.
  - destruct (decide (x = y)) as [->|]; [done|]. f_equal. apply Hc; set_solver.
  - rewrite IH1 by done. apply IH2. intros; apply Hc; try done; by rewrite H1.
Qed.

(** In a strongly sorted list what comes first is related to what comes later. *)
Lemma StronglySorted_lookup {A} (R : A -> A -> Prop) (l : list A) i j x y :
  StronglySorted R l -> i < j -> l !! i = Some x -> l !! j = Some y -> R x y.
Proof.
  intros Hs. revert i j. induction Hs as [|a l Hs IH Hall]; intros [|i] [|j] Hij Hi Hj; try done; try lia.
  - injection Hi as <-. rewrite Forall_lookup in Hall. eauto.
  - apply (IH i j); [lia|done|done].
Qed.

(** Two lists of related elements, element by element. *)
Lemma Forall2_in_r {A B} (R : A -> B -> Prop) l k y : Forall2 R l k -> y ∈ k -> exists x, x ∈ l /\ R x y.
Proof. intros Hl (i & Hi)%list_elem_of_lookup. destruct (Forall2_lookup_r _ _ _ _ _ Hl Hi) as (x & Hx & ?). exists x. split; [by eapply list_elem_of_lookup_2|done]. Qed.
Lemma Forall2_in_l {A B} (R : A -> B -> Prop) l k x : Forall2 R l k -> x ∈ l -> exists y, y ∈ k /\ R x y.
Proof. intros Hl (i & Hi)%list_elem_of_lookup. destruct (Forall2_lookup_l _ _ _ _ _ Hl Hi) as (y & Hy & ?). exists y. split; [by eapply list_elem_of_lookup_2|done]. Qed.

(** Keys without duplicates identify their elements. *)
Lemma NoDup_map_inj {A B} (f : A -> B) (l : list A) x y :
  NoDup (map f l) -> x ∈ l -> y ∈ l -> f x = f y -> x = y.
Proof.
  induction l as [|a l IH]; simpl; [by intros _ ?%elem_of_nil|].
  intros [Hn Hnd]%NoDup_cons Hx Hy Hf.
  assert (forall z, z ∈ l -> f a = f z -> False) as Ha.
  { intros z Hz Hfz. apply Hn. apply list_elem_of_fmap. eauto. }
  apply elem_of_cons in Hx as [->|Hx], Hy as [->|Hy]; [done| | |by apply IH]; exfalso; eauto.
Qed.

(** ** Ranging over a map

    A Go [range] over a map visits every entry once, in an order that is not
    specified: [range m] is that order.  Whatever a loop computes must be shown
    for every instance. *)
Class MapOrder := { range : forall {A : Type}, gmap string A -> list (string * A) }.
Class MapOrderLaws (order : MapOrder) := { range_perm {A} (m : gmap string A) : range m ≡ₚ map_to_list m }.

(** The order stdpp enumerates in, and its reverse. *)
Definition forward_order : MapOrder := {| range A m := map_to_list m |}.
Definition backward_order : MapOrder := {| range A m := reverse (map_to_list m) |}.
#[export] Instance forward_order_laws : MapOrderLaws forward_order.
Proof. split. done. Qed.
#[export] Instance backward_order_laws : MapOrderLaws backward_order.
Proof. split. intros A m. apply reverse_Permutation. Qed.

Lemma range_lookup `{order : MapOrder} {laws : MapOrderLaws order} {A} (m : gmap string A) k v :
  (k, v) ∈ range m <-> m !! k = Some v.
Proof. by rewrite range_perm, (elem_of_map_to_list m). Qed.

Lemma range_NoDup `{order : MapOrder} {laws : MapOrderLaws order} {A} (m : gmap string A) : NoDup (range m).*1.
Proof. rewrite range_perm. apply NoDup_fst_map_to_list. Qed.

Lemma range_keys `{order : MapOrder} {laws : MapOrderLaws order} {A} (m : gmap string A) k :
  k ∈ (range m).*1 <-> is_Some (m !! k).
Proof.
  rewrite list_elem_of_fmap. split.
  - intros ([k' v] & -> & Hin). apply range_lookup in Hin. by exists v.
  - intros [v Hv]. exists (k, v). split; [done|]. by apply range_lookup.
Qed.

Lemma range_singleton `{order : MapOrder} {laws : MapOrderLaws order} {A} k (v : A) : range {[k := v]} = [(k, v)].
Proof. apply Permutation_singleton_r. by rewrite range_perm, map_to_list_singleton. Qed.

Create HintDb proxy.

(** Case analysis on every [match] of the goal and of the hypotheses. *)
Ltac break_match :=
  repeat match goal with
  | |- context [match ?x with _ => _ end] => destruct x eqn:?
  | H : context [match ?x with _ => _ end] |- _ => destruct x eqn:?
  end.

(** Turn boolean hypotheses into propositions. *)
Ltac bool_simpl :=
  repeat match goal with
  | H : _ && _ = true |- _ => apply andb_true_iff in H as [? ?]
  | H : _ || _ = false |- _ => apply orb_false_iff in H as [? ?]
  | H : negb _ = true |- _ => apply negb_true_iff in H
  | H : negb _ = false |- _ => apply negb_false_iff in H
  | H : bool_decide _ = true |- _ => apply bool_decide_eq_true in H
  | H : bool_decide _ = false |- _ => apply bool_decide_eq_false in H
  | H : Is_true _ |- _ => apply Is_true_true in H
  end.
