(* ===== verification/GoStrings.v ===== *)
(** * Go's [strings] package on byte strings

    A Go string is its sequence of bytes, here Rocq's [string] of 8-bit
    [ascii] characters.  The functions are those the source calls, with Go's
    treatment of empty and missing separators.  Case mapping ([to_lower],
    [equal_fold]) is modelled on the ASCII letters: other bytes are unchanged.
    White space is the full Unicode set of [unicode.IsSpace], matched on its
    UTF-8 encodings. *)
From Stdlib Require Export Ascii.
From S2P Require Import Prelude.

(** ** Bytes and predicates on every byte *)

Definition byte_of (c : ascii) : Z := Z.of_N (N_of_ascii c).
Definition of_byte (z : Z) : ascii := ascii_of_N (Z.to_N z).

Fixpoint str_forall (P : ascii -> bool) (s : string) : bool :=
  match s with
  | "" => true
  | String c s' => P c && str_forall P s'
  end.

(** [free c s]: the byte [c] does not occur in [s]. *)
Definition free (c : ascii) (s : string) : bool :=
  str_forall (fun x => negb (Ascii.eqb x c)) s.

Fixpoint str_map (f : ascii -> ascii) (s : string) : string :=
  match s with
  | "" => ""
  | String c s' => String (f c) (str_map f s')
  end.

(** ** Prefixes and suffixes *)

Fixpoint strip_prefix (p s : string) : option string :=
  match p, s with
  | "", _ => Some s
  | String a p', String b s' => if Ascii.eqb a b then strip_prefix p' s' else None
  | String _ _, "" => None
  end.

(** [strings.HasPrefix(s, p)] *)
Definition has_prefix (s p : string) : bool :=
  match strip_prefix p s with Some _ => true | None => false end.

(** [strings.TrimPrefix(s, p)] *)
Definition trim_prefix (s p : string) : string :=
  match strip_prefix p s with Some r => r | None => s end.

Fixpoint strip_suffix (suf s : string) : option string :=
  if bool_decide (s = suf) then Some "" else
  match s with
  | "" => None
  | String c s' => match strip_suffix suf s' with Some r => Some (String c r) | None => None end
  end.

(** [strings.HasSuffix(s, suf)] *)
Definition has_suffix (s suf : string) : bool :=
  match strip_suffix suf s with Some _ => true | None => false end.

(** [strings.TrimSuffix(s, suf)] *)
Definition trim_suffix (s suf : string) : string :=
  match strip_suffix suf s with Some r => r | None => s end.

(** ** Searching and splitting *)

(** The text before and after the first occurrence of [sep] in [s]. *)
Fixpoint cut (s sep : string) : option (string * string) :=
  match strip_prefix sep s with
  | Some r => Some ("", r)
  | None =>
      match s with
      | "" => None
      | String c s' => match cut s' sep with Some (a, b) => Some (String c a, b) | None => None end
      end
  end.

(** [strings.Contains(s, sub)] *)
Definition contains (s sub : string) : bool :=
  match cut s sub with Some _ => true | None => false end.

(** [strings.Split(s, sep)] for a non-empty [sep]: the first piece and the
    rest; [skip] counts the bytes of a separator still to be passed over. *)
Fixpoint split_go (sep s : string) (skip : nat) : string * list string :=
  match s with
  | "" => ("", [])
  | String c s' =>
      match skip with
      | S k => split_go sep s' k
      | O =>
          if has_prefix s sep
          then let '(h, t) := split_go sep s' (String.length sep - 1) in ("", h :: t)
          else let '(h, t) := split_go sep s' 0 in (String c h, t)
      end
  end.

Definition split (s sep : string) : list string :=
  let '(h, t) := split_go sep s 0 in h :: t.

(** [strings.SplitN(s, sep, 2)] *)
Definition split2 (s sep : string) : list string :=
  match cut s sep with Some (a, b) => [a; b] | None => [s] end.

(** [strings.FieldsFunc(s, f)] for a predicate on ASCII characters: the
    maximal non-empty runs of bytes outside [f]. *)
Fixpoint fields_go (f : ascii -> bool) (s : string) : string * list string :=
  match s with
  | "" => ("", [])
  | String c s' =>
      let '(h, t) := fields_go f s' in
      if f c then ("", if bool_decide (h = "") then t else h :: t) else (String c h, t)
  end.

Definition fields_func (f : ascii -> bool) (s : string) : list string :=
  let '(h, t) := fields_go f s in if bool_decide (h = "") then t else h :: t.

(** [strings.Join(l, sep)] *)
Fixpoint join (l : list string) (sep : string) : string :=
  match l with
  | [] => ""
  | [s] => s
  | s :: l' => s +:+ sep +:+ join l' sep
  end.

(** [strings.Replace(s, old, new, -1)] for a non-empty [old]. *)
Definition replace_all (s old new : string) : string := join (split s old) new.

(** ** White space and case *)

Definition is_ascii_space (c : ascii) : bool :=
  match c with
  | "009" | "010" | "011" | "012" | "013" | " " => true
  | _ => false
  end%char.

Definition byte_in (c : ascii) (l : list Z) : bool := existsb (Z.eqb (byte_of c)) l.

(** The two- and three-byte encodings of the white space outside ASCII:
    U+0085, U+00A0, U+1680, U+2000 to U+200A, U+2028, U+2029, U+202F, U+205F
    and U+3000. *)
Definition is_space2 (a b : ascii) : bool :=
  (byte_of a =? 0xC2)%Z && byte_in b [0x85; 0xA0]%Z.
Definition is_space3 (a b c : ascii) : bool :=
  match byte_of a, byte_of b with
  | 0xE1, 0x9A => byte_in c [0x80]
  | 0xE2, 0x80 => ((0x80 <=? byte_of c) && (byte_of c <=? 0x8A)) || byte_in c [0xA8; 0xA9; 0xAF]
  | 0xE2, 0x81 => byte_in c [0x9F]
  | 0xE3, 0x80 => byte_in c [0x80]
  | _, _ => false
  end%Z.

Fixpoint trim_left (s : string) : string :=
  match s with
  | String a s1 =>
      if is_ascii_space a then trim_left s1 else
      match s1 with
      | String b s2 =>
          if is_space2 a b then trim_left s2 else
          match s2 with
          | String c s3 => if is_space3 a b c then trim_left s3 else s
          | "" => s
          end
      | "" => s
      end
  | "" => ""
  end.

(** The same from the end of the string, on the reversed bytes. *)
Fixpoint trim_left_rev (s : string) : string :=
  match s with
  | String a s1 =>
      if is_ascii_space a then trim_left_rev s1 else
      match s1 with
      | String b s2 =>
          if is_space2 b a then trim_left_rev s2 else
          match s2 with
          | String c s3 => if is_space3 c b a then trim_left_rev s3 else s
          | "" => s
          end
      | "" => s
      end
  | "" => ""
  end.

(** [strings.TrimSpace(s)] *)
Definition trim_space (s : string) : string :=
  String.rev (trim_left_rev (String.rev (trim_left s))).

Definition in_range (lo hi : Z) (c : ascii) : bool := ((lo <=? byte_of c) && (byte_of c <=? hi))%Z.
Definition is_upper (c : ascii) : bool := in_range 65 90 c.
Definition is_lower (c : ascii) : bool := in_range 97 122 c.
Definition is_digit (c : ascii) : bool := in_range 48 57 c.

Definition lower (c : ascii) : ascii := if is_upper c then of_byte (byte_of c + 32) else c.
Definition upper (c : ascii) : ascii := if is_lower c then of_byte (byte_of c - 32) else c.

(** [strings.ToLower(s)] *)
Definition to_lower (s : string) : string := str_map lower s.

(** [strings.ToUpper(s)] *)
Definition to_upper (s : string) : string := str_map upper s.

(** [strings.EqualFold(s, t)] *)
Definition equal_fold (s t : string) : bool := bool_decide (to_lower s = to_lower t).

(** ** Order

    Go's [<] on strings, byte by byte, and what [sort.Strings] sorts by. *)
Definition string_lt (a b : string) : bool := match String.compare a b with Lt => true | _ => false end.
Definition string_le (a b : string) : Prop := string_lt b a = false.
#[export] Instance string_le_dec a b : Decision (string_le a b). Proof. unfold string_le. apply _. Defined.

(** [net.JoinHostPort] *)
Definition JoinHostPort (host port : string) : string :=
  if contains host ":" then "[" +:+ host +:+ "]:" +:+ port else host +:+ ":" +:+ port.
