(* ===== verification/GoStringsFacts.v ===== *)
(** * Lemmas on the string functions of [GoStrings] *)
From S2P Require Import Prelude GoStrings.

Create Rewrite HintDb str.

(** ** Concatenation *)

Lemma app_nil_str s : "" +:+ s = s.
Proof. reflexivity. Qed.

Lemma app_cons_str c a b : String c a +:+ b = String c (a +:+ b).
Proof. reflexivity. Qed.

#[export] Hint Rewrite app_nil_str app_cons_str : str.

Ltac str_simpl := repeat progress (autorewrite with str in *; simpl in *).

Lemma app_nil_r_str s : s +:+ "" = s.
Proof. induction s as [|c s IH]; str_simpl; [done|]. by rewrite IH. Qed.

Lemma app_assoc_str a b c : (a +:+ b) +:+ c = a +:+ b +:+ c.
Proof. induction a as [|x a IH]; str_simpl; [done|]. by rewrite IH. Qed.

#[export] Hint Rewrite app_nil_r_str app_assoc_str : str.

Lemma length_app_str a b : String.length (a +:+ b) = String.length a + String.length b.
Proof. induction a as [|c a IH]; str_simpl; [done|]. by rewrite IH. Qed.

Lemma app_inv_l a b c : a +:+ b = a +:+ c -> b = c.
Proof. apply String.app_inj. Qed.

Lemma app_inv_r a b c : a +:+ c = b +:+ c -> a = b.
Proof.
  revert b. induction a as [|x a IH]; intros [|y b] H; str_simpl; [done| | |].
  - apply (f_equal String.length) in H. simpl in H. rewrite length_app_str in H. lia.
  - apply (f_equal String.length) in H. simpl in H. rewrite length_app_str in H. lia.
  - injection H as -> H. f_equal. by apply IH.
Qed.

(** ** [str_forall] and [free] *)

#[global] Arguments free : simpl never.

Lemma str_forall_app P a b : str_forall P (a +:+ b) = str_forall P a && str_forall P b.
Proof. induction a as [|c a IH]; str_simpl; [done|]. by rewrite IH, andb_assoc. Qed.

Lemma str_forall_impl P Q s :
  (forall c, P c = true -> Q c = true) -> str_forall P s = true -> str_forall Q s = true.
Proof. intros H. induction s; simpl; intros; bool_simpl; [done|]. apply andb_true_iff; auto. Qed.

Lemma free_app c a b : free c (a +:+ b) = free c a && free c b.
Proof. apply str_forall_app. Qed.

Lemma free_cons c x s : free c (String x s) = negb (Ascii.eqb x c) && free c s.
Proof. done. Qed.

Lemma eqb_refl_ascii c : Ascii.eqb c c = true.
Proof. by apply Ascii.eqb_eq. Qed.

Lemma eqb_ascii_false a b : Ascii.eqb a b = false <-> a <> b.
Proof. apply Ascii.eqb_neq. Qed.

#[export] Hint Rewrite str_forall_app free_app eqb_refl_ascii length_app_str : str.

(** Two splittings of one string at a byte free in both prefixes agree. *)
Lemma app_sep_inj c a1 a2 b1 b2 :
  free c a1 = true -> free c a2 = true ->
  a1 +:+ String c b1 = a2 +:+ String c b2 -> a1 = a2 /\ b1 = b2.
Proof.
  revert a2. induction a1 as [|x a1 IH]; intros [|y a2] H1 H2 H; str_simpl.
  - by injection H.
  - injection H as -> _. by rewrite free_cons, eqb_refl_ascii in H2.
  - injection H as -> _. by rewrite free_cons, eqb_refl_ascii in H1.
  - injection H as -> H. rewrite free_cons in H1, H2. bool_simpl.
    by destruct (IH a2) as [-> ->].
Qed.

(** The same from the right. *)
Lemma app_sep_inj_r c a1 a2 b1 b2 :
  free c b1 = true -> free c b2 = true ->
  a1 +:+ String c b1 = a2 +:+ String c b2 -> a1 = a2 /\ b1 = b2.
Proof.
  revert a2. induction a1 as [|x a1 IH]; intros [|y a2] H1 H2 H; str_simpl.
  - by injection H.
  - injection H as -> ->. rewrite free_app, free_cons, eqb_refl_ascii in H1. simpl in H1.
    by rewrite andb_false_r in H1.
  - injection H as -> <-. rewrite free_app, free_cons, eqb_refl_ascii in H2. simpl in H2.
    by rewrite andb_false_r in H2.
  - injection H as -> H. by destruct (IH a2) as [-> ->].
Qed.

(** ** Prefixes and suffixes *)

Lemma strip_prefix_Some p s r : strip_prefix p s = Some r <-> s = p +:+ r.
Proof.
  revert s. induction p as [|a p IH]; intros s; str_simpl.
  - split; [by intros [= ->]|by intros ->].
  - destruct s as [|b s]; [split; [done|by str_simpl]|].
    destruct (Ascii.eqb a b) eqn:E.
    + apply Ascii.eqb_eq in E as ->. rewrite IH. split; [by intros ->|by intros [= ->]].
    + apply eqb_ascii_false in E. split; [done|by intros [= ->]].
Qed.

Lemma strip_prefix_app p r : strip_prefix p (p +:+ r) = Some r.
Proof. by apply strip_prefix_Some. Qed.

Lemma has_prefix_spec s p : has_prefix s p = true <-> exists r, s = p +:+ r.
Proof.
  unfold has_prefix. destruct (strip_prefix p s) eqn:E.
  - apply strip_prefix_Some in E. split; [eauto|done].
  - split; [done|]. intros [r ->]. by rewrite strip_prefix_app in E.
Qed.

Lemma has_prefix_app p r : has_prefix (p +:+ r) p = true.
Proof. apply has_prefix_spec; eauto. Qed.

Lemma trim_prefix_app p r : trim_prefix (p +:+ r) p = r.
Proof. unfold trim_prefix. by rewrite strip_prefix_app. Qed.

Lemma trim_prefix_none s p : has_prefix s p = false -> trim_prefix s p = s.
Proof. unfold has_prefix, trim_prefix. by destruct (strip_prefix p s). Qed.

Lemma has_prefix_refl_nil s : has_prefix s "" = true.
Proof. done. Qed.

Lemma has_prefix_trans s p q : has_prefix s p = true -> has_prefix p q = true -> has_prefix s q = true.
Proof.
  intros [r ->]%has_prefix_spec [r' ->]%has_prefix_spec. apply has_prefix_spec.
  rewrite app_assoc_str. eauto.
Qed.

(** Of two prefixes of one string the shorter is a prefix of the longer. *)
Lemma prefixes_comparable s p q :
  has_prefix s p = true -> has_prefix s q = true ->
  String.length p <= String.length q -> has_prefix q p = true.
Proof.
  intros [r ->]%has_prefix_spec [r' H]%has_prefix_spec. revert q H.
  induction p as [|a p IH]; intros [|b q] H Hl; str_simpl; try done; try lia.
  injection H as -> H. apply has_prefix_spec.
  assert (has_prefix q p = true) as [x ->]%has_prefix_spec by (apply IH; [done|lia]).
  exists x. done.
Qed.

Lemma has_prefix_same_length p q :
  has_prefix q p = true -> String.length p = String.length q -> p = q.
Proof.
  intros [r ->]%has_prefix_spec. rewrite length_app_str. intros.
  destruct r; simpl in *; [by rewrite app_nil_r_str|lia].
Qed.

Lemma strip_suffix_Some suf s r : strip_suffix suf s = Some r <-> s = r +:+ suf.
Proof.
  revert r. induction s as [|c s IH]; intros r; simpl.
  - case_bool_decide as E; subst; (split; [intros [= <-]; done|]).
    + destruct r; str_simpl; [done|by intros].
    + destruct r; str_simpl; [by intros <-|done].
  - case_bool_decide as E; subst.
    + split; [intros [= <-]; done|]. intros H.
      assert (String.length r = 0) as Hr.
      { apply (f_equal String.length) in H. rewrite length_app_str in H. simpl in H. lia. }
      by destruct r.
    + destruct (strip_suffix suf s) as [x|] eqn:Es.
      * pose proof (proj1 (IH x) eq_refl) as ->. split; [by intros [= <-]|].
        intros H. f_equal. destruct r as [|b r]; str_simpl; [by subst|].
        injection H as -> H. f_equal. by apply app_inv_r in H.
      * split; [done|]. destruct r as [|b r]; str_simpl; [by intros <-|].
        intros [= -> Hs]. apply IH in Hs. congruence.
Qed.

Lemma trim_suffix_app r suf : trim_suffix (r +:+ suf) suf = r.
Proof. unfold trim_suffix. by rewrite (proj2 (strip_suffix_Some _ _ _) eq_refl). Qed.

Lemma has_suffix_spec s suf : has_suffix s suf = true <-> exists r, s = r +:+ suf.
Proof.
  unfold has_suffix. destruct (strip_suffix suf s) eqn:E.
  - apply strip_suffix_Some in E. split; [eauto|done].
  - split; [done|]. intros [r H%strip_suffix_Some]. congruence.
Qed.

Lemma trim_suffix_cases s suf :
  (exists r, s = r +:+ suf /\ trim_suffix s suf = r) \/
  (has_suffix s suf = false /\ trim_suffix s suf = s).
Proof.
  unfold trim_suffix, has_suffix. destruct (strip_suffix suf s) eqn:E; [left|by right].
  apply strip_suffix_Some in E. eauto.
Qed.

#[export] Hint Rewrite strip_prefix_app has_prefix_app trim_prefix_app trim_suffix_app : str.

(** ** [cut] and [split] *)

Lemma cut_Some s sep a b : cut s sep = Some (a, b) -> s = a +:+ sep +:+ b.
Proof.
  revert a b. induction s as [|c s IH]; intros a b; cbn [cut]; destruct (strip_prefix sep _) eqn:E.
  - intros [= <- <-]. by apply strip_prefix_Some in E.
  - done.
  - intros [= <- <-]. by apply strip_prefix_Some in E.
  - destruct (cut s sep) as [[a' b']|]; [|done]. intros [= <- <-].
    rewrite app_cons_str. f_equal. by apply IH.
Qed.

Lemma cut_None s c : cut s (String c "") = None <-> free c s = true.
Proof.
  induction s as [|x s IH]; cbn [cut]; [done|]. simpl. rewrite free_cons.
  destruct (Ascii.eqb c x) eqn:E.
  - apply Ascii.eqb_eq in E as ->. by rewrite eqb_refl_ascii.
  - apply eqb_ascii_false in E. rewrite (proj2 (eqb_ascii_false x c)) by done. simpl.
    rewrite <-IH. by destruct (cut s (String c "")) as [[]|].
Qed.

Lemma cut_free c a b : free c a = true -> cut (a +:+ String c b) (String c "") = Some (a, b).
Proof.
  induction a as [|x a IH]; intros H.
  - rewrite app_nil_str. cbn [cut strip_prefix]. by rewrite eqb_refl_ascii.
  - rewrite free_cons in H. bool_simpl. apply eqb_ascii_false in H.
    rewrite app_cons_str. cbn [cut strip_prefix].
    rewrite (proj2 (eqb_ascii_false c x)) by done. by rewrite IH.
Qed.

Lemma cut_Some_free s c a b :
  cut s (String c "") = Some (a, b) -> s = a +:+ String c b /\ free c a = true.
Proof.
  intros H. split; [by apply cut_Some in H|]. revert a b H.
  induction s as [|x s IH]; intros a b; cbn [cut strip_prefix]; [done|].
  destruct (Ascii.eqb c x) eqn:E; [by intros [= <- <-]|].
  destruct (cut s _) as [[a' b']|] eqn:Ec; [|done]. intros [= <- <-].
  rewrite free_cons. apply eqb_ascii_false in E.
  rewrite (proj2 (eqb_ascii_false x c)) by done. simpl. by eapply IH.
Qed.

(** Searching for a longer separator: [p] holds no earlier occurrence when
    [p] followed by all of the separator but its last byte holds none. *)
Lemma strip_prefix_None s p : strip_prefix p s = None <-> has_prefix s p = false.
Proof. unfold has_prefix. by destruct (strip_prefix p s). Qed.

Lemma contains_cons x s sep :
  contains (String x s) sep = has_prefix (String x s) sep || contains s sep.
Proof.
  unfold contains, has_prefix. cbn [cut]. destruct (strip_prefix sep (String x s)); [done|].
  by destruct (cut s sep) as [[]|].
Qed.

Lemma has_prefix_app_length s t p :
  has_prefix (s +:+ t) p = true -> String.length p <= String.length s -> has_prefix s p = true.
Proof.
  revert s. induction p as [|a p IH]; intros [|b s] H Hl; str_simpl; try done; try lia.
  unfold has_prefix in *. simpl in *. destruct (Ascii.eqb a b); [|done].
  apply IH; [done|lia].
Qed.

Lemma cut_first p sep0 c b :
  contains (p +:+ sep0) (sep0 +:+ String c "") = false ->
  cut (p +:+ (sep0 +:+ String c "") +:+ b) (sep0 +:+ String c "") = Some (p, b).
Proof.
  set (sep := sep0 +:+ String c ""). intros H. induction p as [|x p IH].
  - rewrite app_nil_str. destruct (sep +:+ b) eqn:E; cbn [cut]; rewrite <-E, strip_prefix_app; done.
  - rewrite app_cons_str in *. rewrite contains_cons in H. bool_simpl. cbn [cut].
    rewrite (proj2 (strip_prefix_None _ _)); [by rewrite IH|].
    destruct (has_prefix (String x (p +:+ sep +:+ b)) sep) eqn:E; [|done].
    assert (String x (p +:+ sep +:+ b) = String x (p +:+ sep0) +:+ String c b) as Heq.
    { unfold sep. by str_simpl. }
    rewrite Heq in E. apply has_prefix_app_length in E; [congruence|].
    unfold sep. rewrite length_app_str. simpl. rewrite length_app_str. lia.
Qed.

Lemma split_free c s : free c s = true -> split s (String c "") = [s].
Proof.
  unfold split. induction s as [|x s IH]; intros H; [done|].
  rewrite free_cons in H. bool_simpl. apply eqb_ascii_false in H. simpl. unfold has_prefix. simpl.
  rewrite (proj2 (eqb_ascii_false c x)) by done.
  destruct (split_go _ s 0) as [h t]. specialize (IH H0). by injection IH as -> ->.
Qed.

Lemma split_sep c a b :
  free c a = true -> split (a +:+ String c b) (String c "") = a :: split b (String c "").
Proof.
  unfold split. induction a as [|x a IH]; intros H.
  - rewrite app_nil_str. simpl. unfold has_prefix. simpl. rewrite eqb_refl_ascii.
    by destruct (split_go _ b 0).
  - rewrite app_cons_str. rewrite free_cons in H. bool_simpl. apply eqb_ascii_false in H.
    simpl. unfold has_prefix. simpl. rewrite (proj2 (eqb_ascii_false c x)) by done.
    specialize (IH H0). destruct (split_go _ (a +:+ _) 0) as [h t], (split_go _ b 0) as [h' t'].
    by injection IH as -> ->.
Qed.

(** The case analysis used for [split] at a one-byte separator. *)
Lemma split_cases c s :
  (free c s = true /\ split s (String c "") = [s]) \/
  (exists a b, s = a +:+ String c b /\ free c a = true /\
     split s (String c "") = a :: split b (String c "")).
Proof.
  destruct (cut s (String c "")) as [[a b]|] eqn:E.
  - right. apply cut_Some_free in E as [-> ?]. exists a, b. by rewrite split_sep.
  - left. apply cut_None in E. by rewrite split_free.
Qed.

Lemma split_nonempty s sep : split s sep <> [].
Proof. unfold split. by destruct (split_go sep s 0). Qed.

Lemma split2_sep c a b : free c a = true -> split2 (a +:+ String c b) (String c "") = [a; b].
Proof. intros. unfold split2. by rewrite cut_free. Qed.

Lemma join_cons s l sep : l <> [] -> join (s :: l) sep = s +:+ sep +:+ join l sep.
Proof. by destruct l. Qed.

Lemma string_length_ind (P : string -> Prop) :
  (forall s, (forall t, String.length t < String.length s -> P t) -> P s) -> forall s, P s.
Proof. intros H s. induction (well_founded_ltof _ String.length s) as [s _ IH]. apply H, IH. Qed.

Lemma join_split c s : join (split s (String c "")) (String c "") = s.
Proof.
  induction s as [s IH] using string_length_ind.
  destruct (split_cases c s) as [[_ ->]|(a & b & -> & _ & ->)]; [done|].
  rewrite join_cons by apply split_nonempty. rewrite IH; [by str_simpl|].
  rewrite length_app_str. simpl. lia.
Qed.

Lemma split_join c l :
  l <> [] -> Forall (fun s => free c s = true) l ->
  split (join l (String c "")) (String c "") = l.
Proof.
  intros Hne H. induction H as [|s l Hs Hl IH]; [done|].
  destruct l as [|s' l]; [simpl; by apply split_free|].
  rewrite join_cons by done. rewrite app_cons_str, app_nil_str, split_sep by done. by rewrite IH.
Qed.

Lemma split_all_free c s : Forall (fun x => free c x = true) (split s (String c "")).
Proof.
  induction s as [s IH] using string_length_ind.
  destruct (split_cases c s) as [[? ->]|(a & b & -> & ? & ->)]; [by repeat constructor|].
  constructor; [done|]. apply IH. rewrite length_app_str. simpl. lia.
Qed.

(** ** [fields_func] *)

Lemma fields_go_clean f a b :
  str_forall (fun c => negb (f c)) a = true ->
  fields_go f (a +:+ b) = let '(h, t) := fields_go f b in (a +:+ h, t).
Proof.
  induction a as [|x a IH]; intros H.
  - rewrite app_nil_str. by destruct (fields_go f b).
  - rewrite app_cons_str. simpl in *. apply andb_true_iff in H as [H%negb_true_iff ?]. rewrite IH by done. destruct (fields_go f b).
    rewrite H. done.
Qed.

Lemma fields_func_one f a :
  a <> "" -> str_forall (fun c => negb (f c)) a = true -> fields_func f a = [a].
Proof.
  intros Hne H. unfold fields_func. rewrite <-(app_nil_r_str a), fields_go_clean by done.
  simpl. rewrite app_nil_r_str. by case_bool_decide.
Qed.

Lemma fields_func_sep f a c b :
  a <> "" -> str_forall (fun c => negb (f c)) a = true -> f c = true ->
  fields_func f (a +:+ String c b) = a :: fields_func f b.
Proof.
  intros Hne H Hc. unfold fields_func. rewrite fields_go_clean by done. simpl.
  destruct (fields_go f b) as [h t]. rewrite Hc, app_nil_r_str.
  repeat case_bool_decide; done.
Qed.

Lemma fields_func_drop f c b : f c = true -> fields_func f (String c b) = fields_func f b.
Proof.
  intros Hc. unfold fields_func. simpl. destruct (fields_go f b) as [h t]. by rewrite Hc.
Qed.

Lemma fields_func_cases f s :
  (exists a, s = a /\ a <> "" /\ str_forall (fun c => negb (f c)) a = true) \/
  s = "" \/ (exists a c b, s = a +:+ String c b /\ f c = true /\ str_forall (fun c => negb (f c)) a = true).
Proof.
  induction s as [|x s IH]; [by right; left|]. destruct (f x) eqn:E.
  - right; right. exists "", x, s. done.
  - destruct IH as [(a & -> & ? & Ha)|[->|(a & c & b & -> & Hc & Ha)]].
    + left. exists (String x a). simpl. by rewrite E.
    + left. exists (String x ""). simpl. by rewrite E.
    + right; right. exists (String x a), c, b. simpl. by rewrite E.
Qed.

(** Every field is a non-empty run without a separator. *)
Lemma fields_func_spec f s :
  Forall (fun a => a <> "" /\ str_forall (fun c => negb (f c)) a = true) (fields_func f s).
Proof.
  induction s as [s IH] using string_length_ind.
  destruct (fields_func_cases f s) as [(a & -> & ? & Ha)|[->|(a & c & b & -> & Hc & Ha)]].
  - rewrite fields_func_one by done. by repeat constructor.
  - constructor.
  - assert (Forall (fun a => a <> "" /\ str_forall (fun c => negb (f c)) a = true) (fields_func f b)).
    { apply IH. rewrite length_app_str. simpl. lia. }
    destruct (decide (a = "")) as [->|].
    + rewrite app_nil_str. by rewrite fields_func_drop.
    + rewrite fields_func_sep by done. by constructor.
Qed.

(** ** Reversal *)

Lemma rev_app_spec s t : String.rev_app s t = String.rev s +:+ t.
Proof.
  unfold String.rev. revert t. induction s as [|c s IH]; intros t; [done|].
  simpl. rewrite (IH (String c t)), (IH (String c "")). by str_simpl.
Qed.

Lemma rev_cons_str c s : String.rev (String c s) = String.rev s +:+ String c "".
Proof. unfold String.rev at 1. simpl. apply rev_app_spec. Qed.

Lemma rev_app_str a b : String.rev (a +:+ b) = String.rev b +:+ String.rev a.
Proof.
  induction a as [|c a IH].
  - rewrite app_nil_str. change (String.rev "") with "". by str_simpl.
  - rewrite app_cons_str, !rev_cons_str, IH. by rewrite app_assoc_str.
Qed.

Lemma rev_involutive_str s : String.rev (String.rev s) = s.
Proof. induction s as [|c s IH]; [done|]. by rewrite rev_cons_str, rev_app_str, IH. Qed.

Lemma str_forall_rev P s : str_forall P (String.rev s) = str_forall P s.
Proof.
  induction s as [|c s IH]; [done|]. rewrite rev_cons_str. str_simpl. rewrite IH.
  by rewrite andb_true_r, andb_comm.
Qed.

(** ** [trim_space] *)

(** White space at the head of a string, forwards and backwards. *)
Definition starts_space (s : string) : bool :=
  match s with
  | "" => false
  | String a "" => is_ascii_space a
  | String a (String b "") => is_ascii_space a || is_space2 a b
  | String a (String b (String c _)) => is_ascii_space a || is_space2 a b || is_space3 a b c
  end.

Definition starts_space_rev (s : string) : bool :=
  match s with
  | "" => false
  | String a "" => is_ascii_space a
  | String a (String b "") => is_ascii_space a || is_space2 b a
  | String a (String b (String c _)) => is_ascii_space a || is_space2 b a || is_space3 c b a
  end.

Lemma trim_left_id s : starts_space s = false -> trim_left s = s.
Proof.
  destruct s as [|a [|b [|c s]]]; intros H; cbn [starts_space] in H; cbn [trim_left]; bool_simpl;
    repeat match goal with H : _ = false |- _ => rewrite H; clear H end; done.
Qed.

Lemma trim_left_rev_id s : starts_space_rev s = false -> trim_left_rev s = s.
Proof.
  destruct s as [|a [|b [|c s]]]; intros H; cbn [starts_space_rev] in H; cbn [trim_left_rev]; bool_simpl;
    repeat match goal with H : _ = false |- _ => rewrite H; clear H end; done.
Qed.

Lemma trim_left_spec s : starts_space (trim_left s) = false /\ exists p, s = p +:+ trim_left s.
Proof.
  induction s as [s IH] using string_length_ind.
  assert (forall p t, s = p +:+ t -> p <> "" -> trim_left s = trim_left t ->
    starts_space (trim_left s) = false /\ exists p, s = p +:+ trim_left s) as step.
  { intros p t -> Hp ->. destruct (IH t) as [? [q Hq]].
    { rewrite length_app_str. destruct p; [done|simpl; lia]. }
    split; [done|]. exists (p +:+ q). rewrite app_assoc_str. by rewrite <-Hq. }
  destruct s as [|a s1]; [by split; [|exists ""]|].
  destruct (is_ascii_space a) eqn:Ea.
  { apply (step (String a "") s1); [done|done|]. cbn [trim_left]. by rewrite Ea. }
  destruct s1 as [|b s2].
  { rewrite trim_left_id by done. split; [done|by exists ""]. }
  destruct (is_space2 a b) eqn:Eb.
  { apply (step (String a (String b "")) s2); [done|done|]. cbn [trim_left]. by rewrite Ea, Eb. }
  destruct s2 as [|c s3].
  { rewrite trim_left_id; simpl; rewrite Ea, Eb; split; [done|by exists ""]. }
  destruct (is_space3 a b c) eqn:Ec.
  { apply (step (String a (String b (String c ""))) s3); [done|done|]. cbn [trim_left]. by rewrite Ea, Eb, Ec. }
  rewrite trim_left_id; cbn [starts_space]; rewrite Ea, Eb, Ec; split; [done|by exists ""].
Qed.

Lemma trim_left_rev_spec s :
  starts_space_rev (trim_left_rev s) = false /\ exists p, s = p +:+ trim_left_rev s.
Proof.
  induction s as [s IH] using string_length_ind.
  assert (forall p t, s = p +:+ t -> p <> "" -> trim_left_rev s = trim_left_rev t ->
    starts_space_rev (trim_left_rev s) = false /\ exists p, s = p +:+ trim_left_rev s) as step.
  { intros p t -> Hp ->. destruct (IH t) as [? [q Hq]].
    { rewrite length_app_str. destruct p; [done|simpl; lia]. }
    split; [done|]. exists (p +:+ q). rewrite app_assoc_str. by rewrite <-Hq. }
  destruct s as [|a s1]; [by split; [|exists ""]|].
  destruct (is_ascii_space a) eqn:Ea.
  { apply (step (String a "") s1); [done|done|]. cbn [trim_left_rev]. by rewrite Ea. }
  destruct s1 as [|b s2].
  { rewrite trim_left_rev_id by done. split; [done|by exists ""]. }
  destruct (is_space2 b a) eqn:Eb.
  { apply (step (String a (String b "")) s2); [done|done|]. cbn [trim_left_rev]. by rewrite Ea, Eb. }
  destruct s2 as [|c s3].
  { rewrite trim_left_rev_id; simpl; rewrite Ea, Eb; split; [done|by exists ""]. }
  destruct (is_space3 c b a) eqn:Ec.
  { apply (step (String a (String b (String c ""))) s3); [done|done|]. cbn [trim_left_rev]. by rewrite Ea, Eb, Ec. }
  rewrite trim_left_rev_id; cbn [starts_space_rev]; rewrite Ea, Eb, Ec; split; [done|by exists ""].
Qed.

(** A prefix of a string that does not start with white space does not either. *)
Lemma starts_space_prefix p q : starts_space (p +:+ q) = false -> starts_space p = false.
Proof.
  destruct p as [|a [|b [|c p]]]; intros H; [done| | |done];
    destruct q as [|x [|y q]]; str_simpl; bool_simpl; try done;
    repeat (apply orb_false_iff; split); done.
Qed.

Lemma trim_space_spec s :
  starts_space (trim_space s) = false /\ starts_space_rev (String.rev (trim_space s)) = false.
Proof.
  unfold trim_space. rewrite rev_involutive_str.
  destruct (trim_left_rev_spec (String.rev (trim_left s))) as [H [p Hp]]. split; [|done].
  apply (f_equal String.rev) in Hp. rewrite rev_involutive_str, rev_app_str in Hp.
  eapply starts_space_prefix. rewrite <-Hp. apply trim_left_spec.
Qed.

Lemma trim_space_id s :
  starts_space s = false -> starts_space_rev (String.rev s) = false -> trim_space s = s.
Proof.
  intros H1 H2. unfold trim_space. rewrite trim_left_id, trim_left_rev_id by done.
  apply rev_involutive_str.
Qed.

Lemma trim_space_idemp s : trim_space (trim_space s) = trim_space s.
Proof. apply trim_space_id; apply trim_space_spec. Qed.

(** Printable ASCII other than the space. *)
Definition visible (c : ascii) : bool := in_range 33 126 c.

Lemma visible_not_space c : visible c = true -> is_ascii_space c = false.
Proof.
  intros H. destruct (is_ascii_space c) eqn:E; [|done]. exfalso.
  destruct c as [[] [] [] [] [] [] [] []]; simpl in E; try discriminate E; by vm_compute in H.
Qed.

Lemma visible_small c : visible c = true -> (byte_of c < 127)%Z.
Proof. unfold visible, in_range. intros; bool_simpl. lia. Qed.

Lemma byte_in_small c l :
  (byte_of c < 127)%Z -> Forall (fun z => 127 <= z)%Z l -> byte_in c l = false.
Proof.
  intros Hc H. unfold byte_in. induction H as [|z l Hz Hl IH]; simpl; [done|].
  apply orb_false_iff. split; [apply Z.eqb_neq; lia|done].
Qed.

Lemma visible_trim s : str_forall visible s = true -> trim_space s = s.
Proof.
  intros H. apply trim_space_id.
  - destruct s as [|a s]; [done|]. simpl in H. bool_simpl.
    pose proof (visible_not_space a H) as Ha. pose proof (visible_small a H).
    unfold starts_space, is_space2, is_space3. rewrite Ha.
    rewrite (proj2 (Z.eqb_neq (byte_of a) 0xC2)) by lia.
    destruct s as [|b [|c s]]; simpl; try done.
    destruct (byte_of a) as [|pa|pa] eqn:E; try done. do 8 (destruct pa; try done).
  - rewrite <-str_forall_rev in H. destruct (String.rev s) as [|a t]; [done|]. simpl in H. bool_simpl.
    pose proof (visible_not_space a H) as Ha. pose proof (visible_small a H).
    unfold starts_space_rev, is_space2, is_space3. rewrite Ha.
    rewrite !byte_in_small by (done || by repeat constructor).
    destruct t as [|b [|c t]]; simpl; rewrite ?andb_false_r; try done.
    rewrite (proj2 (Z.leb_gt 128 (byte_of a))) by lia. simpl. by repeat case_match.
Qed.

(** ** Case *)

Lemma to_lower_idem s : to_lower (to_lower s) = to_lower s.
Proof.
  unfold to_lower. induction s as [|c s IH]; [done|]. simpl. rewrite IH.
  f_equal. destruct c as [[] [] [] [] [] [] [] []]; by vm_compute.
Qed.

(** ** Order *)

Lemma string_le_spec a b : string_le a b <-> String.le a b.
Proof.
  unfold string_le, string_lt, String.le, String.leb. rewrite (String.compare_antisym a b).
  by destruct (b ?= a)%string.
Qed.

#[export] Instance string_le_trans : Transitive string_le.
Proof. intros a b c. rewrite !string_le_spec. apply String.le_po. Qed.

Lemma string_le_antisymm a b : string_le a b -> string_le b a -> a = b.
Proof. rewrite !string_le_spec. apply String.le_po. Qed.

Lemma string_lt_le a b : string_lt a b = true -> string_le a b.
Proof.
  rewrite string_le_spec. unfold string_lt, String.le, String.leb. by destruct (a ?= b)%string.
Qed.
