(* ===== verification/GoHttp.v ===== *)
(** * The parts of [net/http], [net/textproto] and [net/url] the source uses

    Headers are maps from canonical keys to value lists; a request is the
    record of the fields the middlewares read or write.  Query strings are
    parsed, escaped and encoded byte by byte, as Go 1.10 (the version of
    [build.Dockerfile]) does. *)
From S2P Require Import Prelude GoStrings GoStringsFacts.

(** ** Canonical header keys *)

Definition is_alnum (c : ascii) : bool := is_upper c || is_lower c || is_digit c.

(** [textproto.validHeaderFieldByte]: the token characters of RFC 7230. *)
Definition valid_header_byte (c : ascii) : bool :=
  is_alnum c ||
  match c with
  | "!" | "#" | "$" | "%" | "&" | "'" | "*" | "+" | "-" | "." | "^" | "_" | "`" | "|" | "~" => true
  | _ => false
  end%char.

Fixpoint canonical_go (up : bool) (s : string) : string :=
  match s with
  | "" => ""
  | String c s' =>
      let c' := if up then upper c else lower c in
      String c' (canonical_go (Ascii.eqb c' "-") s')
  end.

(** [http.CanonicalHeaderKey(s)] *)
Definition canonical_key (s : string) : string :=
  if str_forall valid_header_byte s then canonical_go true s else s.

(** ** [http.Header] *)

Abbreviation Header := (gmap string (list string)) (only parsing).

Definition header_values (h : Header) (k : string) : list string := default [] (h !! k).
Definition header_get (h : Header) (k : string) : string :=
  match header_values h (canonical_key k) with v :: _ => v | [] => "" end.
Definition header_set (h : Header) (k v : string) : Header := <[canonical_key k := [v]]> h.
Definition header_add (h : Header) (k v : string) : Header :=
  <[canonical_key k := header_values h (canonical_key k) ++ [v]]> h.
Definition header_del (h : Header) (k : string) : Header := delete (canonical_key k) h.

(** ** Escaping *)

Inductive escape_mode := encodePath | encodeQueryComponent.

(** [url.shouldEscape] in the two modes the source reaches. *)
Definition should_escape (m : escape_mode) (c : ascii) : bool :=
  if is_alnum c then false else
  match c with
  | "-" | "_" | "." | "~" => false
  | "$" | "&" | "+" | "," | "/" | ":" | ";" | "=" | "?" | "@" =>
      match m with encodePath => Ascii.eqb c "?" | encodeQueryComponent => true end
  | _ => true
  end%char.

Definition hex_digit (n : Z) : ascii := of_byte (if (n <? 10)%Z then 48 + n else 55 + n).
Definition unhex (c : ascii) : option Z :=
  if is_digit c then Some (byte_of c - 48)%Z
  else if in_range 97 102 c then Some (byte_of c - 87)%Z
  else if in_range 65 70 c then Some (byte_of c - 55)%Z
  else None.

Fixpoint escape (m : escape_mode) (s : string) : string :=
  match s with
  | "" => ""
  | String c s' =>
      if match m with encodeQueryComponent => Ascii.eqb c " " | _ => false end
      then String "+" (escape m s')
      else if should_escape m c
      then String "%" (String (hex_digit (byte_of c / 16)) (String (hex_digit (byte_of c mod 16)) (escape m s')))
      else String c (escape m s')
  end.

(** [url.unescape]: [None] is the [EscapeError]. *)
Fixpoint unescape (m : escape_mode) (s : string) : option string :=
  match s with
  | "" => Some ""
  | String c s1 =>
      if Ascii.eqb c "%" then
        match s1 with
        | String a (String b s3) =>
            match unhex a, unhex b, unescape m s3 with
            | Some x, Some y, Some r => Some (String (of_byte (16 * x + y)) r)
            | _, _, _ => None
            end
        | _ => None
        end
      else
        let c' := match m with
                  | encodeQueryComponent => if Ascii.eqb c "+" then " "%char else c
                  | encodePath => c
                  end in
        match unescape m s1 with Some r => Some (String c' r) | None => None end
  end.

Definition query_escape : string -> string := escape encodeQueryComponent.
Definition query_unescape : string -> option string := unescape encodeQueryComponent.

(** ** Query strings *)

Abbreviation Values := (gmap string (list string)) (only parsing).

Definition values_add (m : Values) (kv : string * string) : Values :=
  <[kv.1 := header_values m kv.1 ++ [kv.2]]> m.

Definition parse_pair (piece : string) : option (string * string) :=
  let '(k, v) := match cut piece "=" with Some (k, v) => (k, v) | None => (piece, "") end in
  match query_unescape k, query_unescape v with
  | Some k', Some v' => Some (k', v')
  | _, _ => None
  end.

Definition is_query_sep (c : ascii) : bool := Ascii.eqb c "&" || Ascii.eqb c ";".

(** [u.Query()]: malformed pairs are dropped. *)
Definition parse_query (q : string) : Values :=
  foldl values_add ∅ (omap parse_pair (fields_func is_query_sep q)).

Definition values_get (m : Values) (k : string) : string :=
  match header_values m k with v :: _ => v | [] => "" end.

Definition encode_pair (kv : string * string) : string := query_escape kv.1 +:+ "=" +:+ query_escape kv.2.

(** The pairs of a [Values] in the order of their sorted keys. *)
Definition values_pairs (m : Values) : list (string * string) :=
  k ← merge_sort String.le (elements (dom m)); v ← header_values m k; mret (k, v).

(** [v.Encode()] *)
Definition values_encode (m : Values) : string := join (map encode_pair (values_pairs m)) "&".

(** ** [url.URL] *)

Record URL := mkURL {
  Scheme : string;
  Opaque : string;
  URLHost : string;
  Path : string;
  RawPath : string;
  ForceQuery : bool;
  RawQuery : string;
}.

Definition set_Path (p : string) (u : URL) : URL :=
  mkURL (Scheme u) (Opaque u) (URLHost u) p (RawPath u) (ForceQuery u) (RawQuery u).
Definition set_RawPath (p : string) (u : URL) : URL :=
  mkURL (Scheme u) (Opaque u) (URLHost u) (Path u) p (ForceQuery u) (RawQuery u).
Definition set_RawQuery (q : string) (u : URL) : URL :=
  mkURL (Scheme u) (Opaque u) (URLHost u) (Path u) (RawPath u) (ForceQuery u) q.

Definition valid_encoded_byte (c : ascii) : bool :=
  match c with
  | "!" | "$" | "&" | "'" | "(" | ")" | "*" | "+" | "," | ";" | "=" | ":" | "@" | "[" | "]" | "%" => true
  | _ => negb (should_escape encodePath c)
  end%char.

(** [u.EscapedPath()] *)
Definition escaped_path (u : URL) : string :=
  if negb (bool_decide (RawPath u = "")) && str_forall valid_encoded_byte (RawPath u)
     && bool_decide (unescape encodePath (RawPath u) = Some (Path u))
  then RawPath u
  else if bool_decide (Path u = "*") then "*"
  else escape encodePath (Path u).

(** [u.RequestURI()] *)
Definition request_uri (u : URL) : string :=
  let result :=
    if bool_decide (Opaque u = "")
    then let p := escaped_path u in if bool_decide (p = "") then "/" else p
    else if has_prefix (Opaque u) "//" then Scheme u +:+ ":" +:+ Opaque u else Opaque u in
  if ForceQuery u || negb (bool_decide (RawQuery u = ""))
  then result +:+ "?" +:+ RawQuery u
  else result.

(** ** [http.Request] *)

Record Request := mkRequest {
  Method : string;
  ReqURL : URL;
  ReqHeader : Header;
  Host : string;
  RequestURI : string;
  RemoteAddr : string;
  TLS : bool;
}.

Definition set_URL (u : URL) (r : Request) : Request :=
  mkRequest (Method r) u (ReqHeader r) (Host r) (RequestURI r) (RemoteAddr r) (TLS r).
Definition set_Header (h : Header) (r : Request) : Request :=
  mkRequest (Method r) (ReqURL r) h (Host r) (RequestURI r) (RemoteAddr r) (TLS r).
Definition set_RequestURI (s : string) (r : Request) : Request :=
  mkRequest (Method r) (ReqURL r) (ReqHeader r) (Host r) s (RemoteAddr r) (TLS r).

(** [r.RequestURI = r.URL.RequestURI()] *)
Definition sync_RequestURI (r : Request) : Request := set_RequestURI (request_uri (ReqURL r)) r.

Definition req_path (r : Request) : string := Path (ReqURL r).
Definition req_header (r : Request) (k : string) : string := header_get (ReqHeader r) k.

(** ** What a handler does with a request

    A middleware answers the request itself, by writing a status or through
    [http.Redirect] or [http.NotFound], or calls the next handler with the
    (mutated) request. *)
Inductive handled :=
  | WriteHeader (code : Z)
  | Redirect (url : string) (code : Z)
  | NotFound
  | CallNext (r : Request).

(** ** Header laws *)

Section Facts.

Lemma header_get_set_eq h k v : header_get (header_set h k v) k = v.
Proof. unfold header_get, header_set, header_values. by rewrite lookup_insert_eq. Qed.

Lemma header_get_set_ne h k k' v :
  canonical_key k <> canonical_key k' -> header_get (header_set h k v) k' = header_get h k'.
Proof. intros. unfold header_get, header_set, header_values. by rewrite lookup_insert_ne. Qed.

Lemma header_get_del_eq h k : header_get (header_del h k) k = "".
Proof. unfold header_get, header_del, header_values. by rewrite lookup_delete_eq. Qed.

Lemma header_get_del_ne h k k' :
  canonical_key k <> canonical_key k' -> header_get (header_del h k) k' = header_get h k'.
Proof. intros. unfold header_get, header_del, header_values. by rewrite lookup_delete_ne. Qed.

End Facts.
#[export] Hint Rewrite header_get_set_eq header_get_del_eq : str.
