(* ===== verification/GoHttpFacts.v ===== *)
(** * Laws of the query-string and header functions

    Escaping is invertible, and parsing inverts encoding: what makes the
    rewriting of a query string by [OSIORequest] lossless. *)
From S2P Require Import Prelude GoStrings GoStringsFacts GoHttp.

(** ** Escaping *)

Ltac each_byte c :=
  destruct c as [[] [] [] [] [] [] [] []].

Lemma unescape_escape_cons m c s :
  unescape m (escape m (String c s)) =
  match unescape m (escape m s) with Some r => Some (String c r) | None => None end.
Proof.
  destruct m; cbn [escape]; each_byte c; vm_compute should_escape; cbn [Ascii.eqb Bool.eqb];
    cbv iota; cbn [unescape]; try reflexivity.
  all: try (by destruct (unescape _ (escape _ s))).
Qed.

Lemma unescape_escape m s : unescape m (escape m s) = Some s.
Proof. induction s as [|c s IH]; [done|]. by rewrite unescape_escape_cons, IH. Qed.

Lemma escape_query_free d s :
  d = "="%char \/ d = "&"%char \/ d = ";"%char -> free d (query_escape s) = true.
Proof.
  intros H. unfold query_escape. induction s as [|c s IH]; [done|].
  destruct H as [->|[->| ->]]; cbn [escape]; each_byte c; exact IH.
Qed.

Lemma query_unescape_escape s : query_unescape (query_escape s) = Some s.
Proof. apply unescape_escape. Qed.

(** ** Pairs and lists of pairs *)

Lemma parse_encode_pair kv : parse_pair (encode_pair kv) = Some kv.
Proof.
  destruct kv as [k v]. unfold parse_pair, encode_pair. cbn [fst snd].
  rewrite app_cons_str, app_nil_str, cut_free by (apply escape_query_free; tauto).
  by rewrite !query_unescape_escape.
Qed.

Lemma free_forall_sep s :
  free "&"%char s = true -> free ";"%char s = true ->
  str_forall (fun c => negb (is_query_sep c)) s = true.
Proof.
  induction s as [|c s IH]; [done|]. rewrite !free_cons. intros; bool_simpl. simpl.
  unfold is_query_sep at 1. rewrite H, H0. simpl. auto.
Qed.

Lemma encode_pair_clean kv :
  encode_pair kv <> "" /\ str_forall (fun c => negb (is_query_sep c)) (encode_pair kv) = true.
Proof.
  unfold encode_pair. split.
  - intros H. apply (f_equal String.length) in H. revert H. str_simpl. lia.
  - apply free_forall_sep; str_simpl; rewrite !escape_query_free by tauto; done.
Qed.

Lemma fields_encode_pairs l :
  fields_func is_query_sep (join (map encode_pair l) "&") = map encode_pair l.
Proof.
  induction l as [|kv l IH]; [done|]. destruct (encode_pair_clean kv).
  destruct l as [|kv' l]; [by apply fields_func_one|].
  change (map encode_pair (kv :: kv' :: l)) with (encode_pair kv :: map encode_pair (kv' :: l)).
  rewrite join_cons by done. rewrite app_cons_str, app_nil_str, fields_func_sep by done.
  by rewrite IH.
Qed.

Lemma omap_parse_encode l : omap parse_pair (map encode_pair l) = l.
Proof. induction l as [|kv l IH]; simpl; [done|]. rewrite parse_encode_pair. f_equal. apply IH. Qed.

(** ** Rebuilding a [Values] from its pairs *)

Definition pairs_of (k : string) (l : list (string * string)) : list string :=
  (filter (fun kv => kv.1 = k) l).*2.

Lemma values_add_lookup m l k :
  foldl values_add m l !! k =
  match pairs_of k l with [] => m !! k | vs => Some (header_values m k ++ vs) end.
Proof.
  revert m. induction l as [|[k' v] l IH]; intros m; [done|]. cbn [foldl]. rewrite IH.
  unfold pairs_of, values_add, header_values. cbn [fst snd]. rewrite filter_cons. cbn [fst snd].
  case_decide as E; subst.
  - rewrite lookup_insert_eq. simpl. destruct (filter _ l) as [|[] ?]; simpl; [done|].
    f_equal. by rewrite <-app_assoc.
  - by rewrite lookup_insert_ne.
Qed.

Definition no_empty_values (m : Values) : Prop := forall k, m !! k <> Some [].

Lemma pairs_of_app k l1 l2 : pairs_of k (l1 ++ l2) = pairs_of k l1 ++ pairs_of k l2.
Proof. unfold pairs_of. by rewrite filter_app, fmap_app. Qed.

Lemma pairs_of_key m k k' :
  pairs_of k (v ← header_values m k'; mret (k', v)) = if decide (k = k') then header_values m k' else [].
Proof.
  unfold pairs_of. generalize (header_values m k'). intros vs.
  case_decide as E; subst; induction vs as [|v vs IH]; [done| |done|];
    rewrite bind_cons; cbn [mret list_ret app]; rewrite filter_cons; cbn [fst].
  - rewrite decide_True by done. cbn. f_equal. apply IH.
  - rewrite decide_False by done. apply IH.
Qed.

Lemma pairs_of_keys m k ks :
  NoDup ks ->
  pairs_of k (k' ← ks; v ← header_values m k'; mret (k', v)) =
  if decide (k ∈ ks) then header_values m k else [].
Proof.
  induction 1 as [|k' ks Hk Hks IH]; [done|]. rewrite bind_cons, pairs_of_app, IH, pairs_of_key.
  destruct (decide (k = k')) as [->|Hne].
  - rewrite decide_False, decide_True by (done || by apply elem_of_cons; left). apply app_nil_r.
  - simpl. apply decide_ext. rewrite elem_of_cons. naive_solver.
Qed.

Lemma values_pairs_lookup m k : pairs_of k (values_pairs m) = header_values m k.
Proof.
  unfold values_pairs. rewrite pairs_of_keys.
  - case_decide as E; [done|]. rewrite merge_sort_Permutation, elem_of_elements in E. apply not_elem_of_dom in E. unfold header_values. by rewrite E.
  - rewrite merge_sort_Permutation. apply NoDup_elements.
Qed.

Lemma foldl_values_pairs m : no_empty_values m -> foldl values_add ∅ (values_pairs m) = m.
Proof.
  intros H. apply map_eq. intros k. rewrite values_add_lookup, values_pairs_lookup.
  specialize (H k). unfold header_values. rewrite lookup_empty. simpl.
  by destruct (m !! k) as [[|]|].
Qed.

Lemma foldl_values_no_empty m l : no_empty_values m -> no_empty_values (foldl values_add m l).
Proof.
  intros H k. rewrite values_add_lookup. destruct (pairs_of k l); [apply H|].
  intros [= E]. by destruct (header_values m k).
Qed.

Lemma parse_query_no_empty q : no_empty_values (parse_query q).
Proof. apply foldl_values_no_empty. intros k. by rewrite lookup_empty. Qed.

(** Parsing inverts encoding. *)
Lemma parse_encode_values m : no_empty_values m -> parse_query (values_encode m) = m.
Proof.
  intros H. unfold parse_query, values_encode.
  rewrite fields_encode_pairs, omap_parse_encode. by apply foldl_values_pairs.
Qed.

(** ** Canonical keys *)

Lemma canonical_go_valid up s : str_forall valid_header_byte s = true ->
  str_forall valid_header_byte (canonical_go up s) = true.
Proof.
  revert up. induction s as [|c s IH]; intros up; simpl; [done|]. intros; bool_simpl.
  rewrite IH by done. rewrite andb_true_r. revert H. destruct up; each_byte c; done.
Qed.

Lemma canonical_go_idemp up s : canonical_go up (canonical_go up s) = canonical_go up s.
Proof.
  revert up. induction s as [|c s IH]; intros up; simpl; [done|].
  assert ((if up then upper (if up then upper c else lower c) else lower (if up then upper c else lower c))
          = (if up then upper c else lower c)) as -> by (destruct up; each_byte c; done).
  by rewrite IH.
Qed.

Lemma canonical_key_idemp s : canonical_key (canonical_key s) = canonical_key s.
Proof.
  unfold canonical_key. destruct (str_forall valid_header_byte s) eqn:E.
  - rewrite canonical_go_valid by done. apply canonical_go_idemp.
  - by rewrite E.
Qed.
