(* ===== verification/OsioRequest.v ===== *)
(** * [middlewares/osio/osio_request.go]: the access-token query parameter

    [OSIORequest] moves the [access_token] query parameter of a request into
    its [Authorization] header, so that later middlewares find every token in
    the same place. *)
From S2P Require Import Prelude GoStrings GoStringsFacts GoHttp GoHttpFacts.

(** ** The middleware *)

Definition addAuthHeader (r : Request) (accessToken : string) : Request :=
  set_Header (header_set (ReqHeader r) "Authorization" ("Bearer " +:+ accessToken)) r.

Definition removeAuthParam (r : Request) : Request :=
  let q := parse_query (RawQuery (ReqURL r)) in
  let q := delete "access_token" q in
  sync_RequestURI (set_URL (set_RawQuery (values_encode q) (ReqURL r)) r).

Definition processAuthParam (r : Request) : Request :=
  let accessToken := values_get (parse_query (RawQuery (ReqURL r))) "access_token" in
  if bool_decide (accessToken = "") then r else removeAuthParam (addAuthHeader r accessToken).

Definition OSIORequest_ServeHTTP (r : Request) : handled :=
  CallNext (if bool_decide (Method r = "OPTIONS") then r else processAuthParam r).

(** ** What the rest of the chain sees *)

(** The query parameters of a request. *)
Definition params (r : Request) : gmap string (list string) := parse_query (RawQuery (ReqURL r)).

Lemma no_empty_values_delete m k : no_empty_values m -> no_empty_values (delete k m).
Proof.
  intros H k'. destruct (decide (k = k')) as [->|]; [by rewrite lookup_delete_eq|].
  rewrite lookup_delete_ne by done. apply H.
Qed.

Lemma params_removeAuthParam r : params (removeAuthParam r) = delete "access_token" (params r).
Proof.
  unfold params, removeAuthParam. simpl.
  apply parse_encode_values, no_empty_values_delete, parse_query_no_empty.
Qed.

(** A request other than OPTIONS that carries a non-empty [access_token]
    query parameter reaches the next handler with that token, and only it, as
    its bearer authorization, with the parameter gone from the query, every
    other parameter unchanged, and a request URI in step with its URL. *)
Theorem access_token_moved (r : Request) :
  Method r <> "OPTIONS" ->
  values_get (params r) "access_token" <> "" ->
  exists r', OSIORequest_ServeHTTP r = CallNext r' /\
    req_header r' "Authorization" = "Bearer " +:+ values_get (params r) "access_token" /\
    params r' = delete "access_token" (params r) /\
    req_path r' = req_path r /\
    RequestURI r' = request_uri (ReqURL r').
Proof.
  intros HM Ht. unfold OSIORequest_ServeHTTP. rewrite bool_decide_eq_false_2 by done.
  unfold processAuthParam. fold (params r). rewrite bool_decide_eq_false_2 by done.
  eexists. split; [done|]. split; [|split; [|done]].
  - unfold req_header. simpl. apply header_get_set_eq.
  - rewrite params_removeAuthParam. done.
Qed.

Definition sample_request : Request :=
  mkRequest "GET" (mkURL "" "" "" "/api/x" "" false "watch=true&access_token=tok%2B1&b=2") ∅
    "proxy" "/api/x?watch=true&access_token=tok%2B1&b=2" "10.0.0.1:99" false.

Lemma access_token_moved_witness :
  exists r', OSIORequest_ServeHTTP sample_request = CallNext r' /\
    req_header r' "Authorization" = "Bearer tok+1" /\
    params r' = delete "access_token" (params sample_request) /\
    req_path r' = req_path sample_request /\
    RequestURI r' = request_uri (ReqURL r').
Proof.
  apply (access_token_moved sample_request).
  - discriminate.
  - vm_compute. discriminate.
Defined.

(** The middleware is idempotent: the request it hands on has no token left in
    its query, so a second pass changes nothing. *)
Lemma values_get_delete m k : values_get (delete k m) k = "".
Proof. unfold values_get, header_values. by rewrite lookup_delete_eq. Qed.

Lemma processAuthParam_eq r :
  processAuthParam r =
  if bool_decide (values_get (params r) "access_token" = "") then r
  else removeAuthParam (addAuthHeader r (values_get (params r) "access_token")).
Proof. done. Qed.

Lemma processAuthParam_idemp r : processAuthParam (processAuthParam r) = processAuthParam r.
Proof.
  rewrite (processAuthParam_eq r). case_bool_decide as Ht; rewrite processAuthParam_eq.
  - by rewrite bool_decide_eq_true_2.
  - by rewrite params_removeAuthParam, values_get_delete.
Qed.

Lemma Method_processAuthParam r : Method (processAuthParam r) = Method r.
Proof. rewrite processAuthParam_eq. by case_bool_decide. Qed.

(** Running the middleware again on the request it hands on changes
    nothing. *)
Theorem OSIORequest_idempotent (r r' : Request) :
  OSIORequest_ServeHTTP r = CallNext r' -> OSIORequest_ServeHTTP r' = CallNext r'.
Proof.
  unfold OSIORequest_ServeHTTP. intros [= <-].
  destruct (decide (Method r = "OPTIONS")) as [HM|HM].
  - by rewrite !(bool_decide_eq_true_2 _ HM).
  - rewrite !(bool_decide_eq_false_2 _ HM), Method_processAuthParam, bool_decide_eq_false_2 by done.
    by rewrite processAuthParam_idemp.
Qed.

Lemma OSIORequest_idempotent_witness :
  exists r', OSIORequest_ServeHTTP sample_request = CallNext r' /\ OSIORequest_ServeHTTP r' = CallNext r'.
Proof.
  eexists. split; [reflexivity|]. apply (OSIORequest_idempotent sample_request). reflexivity.
Defined.
