(* ===== verification/Json.v ===== *)
(** * Decoding JSON values into Go structs

    A response body is represented by the JSON value it spells (or by the
    error of reading it); decoding follows [encoding/json]: a member is
    matched to the field with its exact name, else to the first whose name
    folds to it; [null] leaves a target as it was; a value of another kind is
    an [UnmarshalTypeError]; unknown members are ignored and of repeated
    members the last wins. *)
From S2P Require Import Prelude GoStrings.

#[warnings="-register-all"]
Inductive json :=
  | JNull
  | JBool (b : bool)
  | JNum (raw : string)
  | JStr (s : string)
  | JArr (l : list json)
  | JObj (l : list (string * json)).

(** Decode a value into a target that already holds something. *)
Definition decoder (A : Type) : Type := json -> A -> result A.

Definition dec_string : decoder string := fun j old =>
  match j with
  | JStr s => Ok s
  | JNull => Ok old
  | _ => Err "json: cannot unmarshal into Go value of type string"
  end.

(** Into an [interface{}]: the value itself. *)
Definition dec_any : decoder json := fun j _ => Ok j.

Fixpoint dec_elems {A} (d : decoder A) (zero : A) (l : list json) (old : list A) : result (list A) :=
  match l with
  | [] => Ok []
  | j :: l' =>
      let '(o, old') := match old with o :: old' => (o, old') | [] => (zero, []) end in
      x ← d j o; xs ← dec_elems d zero l' old'; mret (x :: xs)
  end.

Definition dec_slice {A} (d : decoder A) (zero : A) : decoder (list A) := fun j old =>
  match j with
  | JArr l => dec_elems d zero l old
  | JNull => Ok []
  | _ => Err "json: cannot unmarshal into Go value of slice type"
  end.

(** The field a member name selects. *)
Definition find_field {A} (fields : list (string * decoder A)) (name : string) : option (decoder A) :=
  match list_find (fun f => f.1 = name) fields with
  | Some (_, f) => Some f.2
  | None =>
      match list_find (fun f => equal_fold f.1 name = true) fields with
      | Some (_, f) => Some f.2
      | None => None
      end
  end.

Fixpoint dec_members {A} (fields : list (string * decoder A)) (l : list (string * json)) (a : A) : result A :=
  match l with
  | [] => Ok a
  | (k, j) :: l' =>
      match find_field fields k with
      | Some d => a' ← d j a; dec_members fields l' a'
      | None => dec_members fields l' a
      end
  end.

Definition dec_struct {A} (fields : list (string * decoder A)) : decoder A := fun j old =>
  match j with
  | JObj l => dec_members fields l old
  | JNull => Ok old
  | _ => Err "json: cannot unmarshal into Go value of struct type"
  end.

(** A field of a struct, from its getter and setter. *)
Definition dec_field {A B} (name : string) (get : A -> B) (set : B -> A -> A) (d : decoder B) :
    string * decoder A :=
  (name, fun j a => b ← d j (get a); mret (set b a)).

(** Through a pointer: [null] sets it to nil, anything else decodes into the
    pointee, allocated when the pointer was nil. *)
Definition dec_ptr {A} (d : decoder A) (zero : A) : decoder (option A) := fun j old =>
  match j with
  | JNull => Ok None
  | _ => x ← d j (default zero old); mret (Some x)
  end.
