(* ===== verification/Base64.v ===== *)
(** * [base64.StdEncoding]

    Decoding as [DecodeString] does it: line breaks are skipped, groups of
    four characters give three bytes, the last group may be padded, and
    anything else is a corrupt input.  The encoder is the specification's
    side of the round trip. *)
From S2P Require Import Prelude GoStrings GoStringsFacts.

Definition b64_char (n : Z) : ascii :=
  of_byte (if n <? 26 then 65 + n else if n <? 52 then 71 + n else if n <? 62 then n - 4
           else if n =? 62 then 43 else 47)%Z.

Definition b64_value (c : ascii) : option Z :=
  (let z := byte_of c in
  if is_upper c then Some (z - 65)
  else if is_lower c then Some (z - 71)
  else if is_digit c then Some (z + 4)
  else if z =? 43 then Some 62
  else if z =? 47 then Some 63
  else None)%Z.

Fixpoint b64_encode (s : string) : string :=
  match s with
  | "" => ""
  | String a "" =>
      let x := byte_of a in
      String (b64_char (x / 4)) (String (b64_char (x mod 4 * 16)) "==")
  | String a (String b "") =>
      let x := byte_of a in let y := byte_of b in
      String (b64_char (x / 4)) (String (b64_char (x mod 4 * 16 + y / 16))
        (String (b64_char (y mod 16 * 4)) "="))
  | String a (String b (String c s')) =>
      let x := byte_of a in let y := byte_of b in let z := byte_of c in
      String (b64_char (x / 4)) (String (b64_char (x mod 4 * 16 + y / 16))
        (String (b64_char (y mod 16 * 4 + z / 64)) (String (b64_char (z mod 64)) (b64_encode s'))))
  end%Z.

Definition is_newline (c : ascii) : bool := Ascii.eqb c "010" || Ascii.eqb c "013".

Fixpoint drop_newlines (s : string) : string :=
  match s with
  | "" => ""
  | String c s' => if is_newline c then drop_newlines s' else String c (drop_newlines s')
  end.

Definition is_pad (c : ascii) : bool := Ascii.eqb c "=".

Fixpoint b64_groups (s : string) : option string :=
  match s with
  | "" => Some ""
  | String a (String b (String c (String d s'))) =>
      match b64_value a, b64_value b with
      | Some x, Some y =>
          match b64_value c, b64_value d with
          | Some z, Some w =>
              match b64_groups s' with
              | Some r => Some (String (of_byte (x * 4 + y / 16)) (String (of_byte (y mod 16 * 16 + z / 4))
                                 (String (of_byte (z mod 4 * 64 + w)) r)))
              | None => None
              end
          | Some z, None =>
              if is_pad d && bool_decide (s' = "")
              then Some (String (of_byte (x * 4 + y / 16)) (String (of_byte (y mod 16 * 16 + z / 4)) ""))
              else None
          | None, _ =>
              if is_pad c && is_pad d && bool_decide (s' = "")
              then Some (String (of_byte (x * 4 + y / 16)) "")
              else None
          end
      | _, _ => None
      end
  | _ => None
  end%Z.

(** [base64.StdEncoding.DecodeString(s)] *)
Definition b64_decode (s : string) : result string :=
  match b64_groups (drop_newlines s) with
  | Some r => Ok r
  | None => Err "illegal base64 data"
  end.

(** ** Decoding inverts encoding *)

Lemma byte_of_bounds c : (0 <= byte_of c < 256)%Z.
Proof. unfold byte_of. pose proof (N_ascii_bounded c). lia. Qed.

Lemma of_byte_of c : of_byte (byte_of c) = c.
Proof. unfold of_byte, byte_of. rewrite N2Z.id. apply ascii_N_embedding. Qed.

Definition sextets : list Z := map Z.of_nat (seq 0 64).

Lemma sextet_in n : (0 <= n < 64)%Z -> n ∈ sextets.
Proof.
  intros. unfold sextets. apply list_elem_of_In, in_map_iff. exists (Z.to_nat n).
  split; [lia|]. apply in_seq. lia.
Qed.

Lemma b64_char_spec n :
  (0 <= n < 64)%Z -> b64_value (b64_char n) = Some n /\ is_newline (b64_char n) = false.
Proof.
  intros Hn%sextet_in. revert n Hn. apply Forall_forall. unfold sextets. simpl.
  repeat (constructor; [by vm_compute|]). constructor.
Qed.

Lemma b64_value_char n : (0 <= n < 64)%Z -> b64_value (b64_char n) = Some n.
Proof. apply b64_char_spec. Qed.

Lemma b64_char_newline n : (0 <= n < 64)%Z -> is_newline (b64_char n) = false.
Proof. apply b64_char_spec. Qed.

Lemma string_ind3 (P : string -> Prop) :
  P "" -> (forall a, P (String a "")) -> (forall a b, P (String a (String b ""))) ->
  (forall a b c s, P s -> P (String a (String b (String c s)))) -> forall s, P s.
Proof.
  intros H0 H1 H2 H3 s. induction s as [s IH] using string_length_ind.
  destruct s as [|a [|b [|c s]]]; auto. apply H3, IH. simpl. lia.
Qed.

Lemma b64_bounds x y z :
  (0 <= x < 256)%Z -> (0 <= y < 256)%Z -> (0 <= z < 256)%Z ->
  (0 <= x / 4 < 64 /\ 0 <= x mod 4 * 16 < 64 /\ 0 <= x mod 4 * 16 + y / 16 < 64 /\
   0 <= y mod 16 * 4 < 64 /\ 0 <= y mod 16 * 4 + z / 64 < 64 /\ 0 <= z mod 64 < 64)%Z.
Proof. intros. repeat split; Z.to_euclidean_division_equations; lia. Qed.

Lemma b64_bytes x y z :
  (0 <= x < 256)%Z -> (0 <= y < 256)%Z -> (0 <= z < 256)%Z ->
  (x / 4 * 4 + (x mod 4 * 16) / 16 = x /\
   x / 4 * 4 + (x mod 4 * 16 + y / 16) / 16 = x /\
   (x mod 4 * 16 + y / 16) mod 16 * 16 + (y mod 16 * 4) / 4 = y /\
   (x mod 4 * 16 + y / 16) mod 16 * 16 + (y mod 16 * 4 + z / 64) / 4 = y /\
   (y mod 16 * 4 + z / 64) mod 4 * 64 + z mod 64 = z)%Z.
Proof. intros. repeat split; Z.to_euclidean_division_equations; lia. Qed.

Lemma drop_newlines_encode s : drop_newlines (b64_encode s) = b64_encode s.
Proof.
  induction s as [|a|a b|a b c s IH] using string_ind3; [done|..];
    cbn [b64_encode drop_newlines];
    pose proof (byte_of_bounds a) as Ha; try pose proof (byte_of_bounds b) as Hb;
    try pose proof (byte_of_bounds c) as Hc.
  - destruct (b64_bounds _ _ _ Ha Ha Ha) as (?&?&?&?&?&?). by rewrite !b64_char_newline.
  - destruct (b64_bounds _ _ _ Ha Hb Hb) as (?&?&?&?&?&?). by rewrite !b64_char_newline.
  - destruct (b64_bounds _ _ _ Ha Hb Hc) as (?&?&?&?&?&?). by rewrite !b64_char_newline, IH.
Qed.

Lemma b64_groups_encode s : b64_groups (b64_encode s) = Some s.
Proof.
  induction s as [|a|a b|a b c s IH] using string_ind3; [done|..];
    cbn [b64_encode b64_groups];
    pose proof (byte_of_bounds a) as Ha; try pose proof (byte_of_bounds b) as Hb;
    try pose proof (byte_of_bounds c) as Hc.
  - destruct (b64_bounds _ _ _ Ha Ha Ha) as (?&?&?&?&?&?), (b64_bytes _ _ _ Ha Ha Ha) as (E1&E2&E3&E4&E5).
    rewrite !b64_value_char by done. cbn -[Z.mul Z.div Z.modulo Z.add of_byte byte_of].
    by rewrite E1, of_byte_of.
  - destruct (b64_bounds _ _ _ Ha Hb Hb) as (?&?&?&?&?&?), (b64_bytes _ _ _ Ha Hb Hb) as (E1&E2&E3&E4&E5).
    rewrite !b64_value_char by done. cbn -[Z.mul Z.div Z.modulo Z.add of_byte byte_of].
    by rewrite E2, E3, !of_byte_of.
  - destruct (b64_bounds _ _ _ Ha Hb Hc) as (?&?&?&?&?&?), (b64_bytes _ _ _ Ha Hb Hc) as (E1&E2&E3&E4&E5).
    rewrite !b64_value_char by done. rewrite IH.
    by rewrite E2, E4, E5, !of_byte_of.
Qed.

Lemma b64_decode_encode s : b64_decode (b64_encode s) = Ok s.
Proof. unfold b64_decode. by rewrite drop_newlines_encode, b64_groups_encode. Qed.
