(* ===== verification/OsioClient.v ===== *)
(** * [provider/osio/client.go]: calls to the auth and cluster services

    The network is an interface: [new_request] is the verdict of
    [http.NewRequest] on a URL, [client_do] what [http.Client.Do] returns, a
    response and an error that are both optional.  The state of the remote
    services is the type [W] the interface is over. *)
From S2P Require Import Prelude GoStrings Json.

(** ** The network *)

Record HttpCall := mkCall {
  call_method : string;
  call_url : string;
  call_auth : option string;
  call_body : option json;
}.

(** [ReadErr] is the error of reading the body, if any; [Body] the JSON value
    it spells, or its syntax error. *)
Record HttpResponse := mkResponse {
  StatusCode : Z;
  Status : string;
  ReadErr : option error;
  Body : result json;
}.

(** What a JSON decoder reading the body gets. *)
Definition read_json (resp : HttpResponse) : result json :=
  match ReadErr resp with Some err => Err err | None => Body resp end.

Class Network (W : Type) := {
  new_request : string -> option error;
  client_do : HttpCall -> M W (option HttpResponse * option error);
}.

Definition nil_dereference : string := "runtime error: invalid memory address or nil pointer dereference".

(** ** Requests and responses *)

Record TokenRequest := mkTokenRequest {
  GrantType : string;
  ClientID : string;
  ClientSecret : string;
}.

Record TokenResponse := mkTokenResponse {
  AccessToken : string;
  TokenType : string;
}.

Record clusterData := mkCluster {
  APIURL : string;
  AppDNS : string;
  ConsoleURL : string;
  LoggingURL : string;
  MetricsURL : string;
  Name : string;
}.

Record clusterResponse := mkClusters { Clusters : list clusterData }.

Definition encode_TokenRequest (r : TokenRequest) : json :=
  JObj [("grant_type", JStr (GrantType r)); ("client_id", JStr (ClientID r)); ("client_secret", JStr (ClientSecret r))].

Definition dec_TokenResponse : decoder TokenResponse := dec_struct
  [dec_field "access_token" AccessToken (fun s r => mkTokenResponse s (TokenType r)) dec_string;
   dec_field "token_type" TokenType (fun s r => mkTokenResponse (AccessToken r) s) dec_string].

Definition dec_clusterData : decoder clusterData := dec_struct
  [dec_field "api-url" APIURL (fun s c => mkCluster s (AppDNS c) (ConsoleURL c) (LoggingURL c) (MetricsURL c) (Name c)) dec_string;
   dec_field "app-dns" AppDNS (fun s c => mkCluster (APIURL c) s (ConsoleURL c) (LoggingURL c) (MetricsURL c) (Name c)) dec_string;
   dec_field "console-url" ConsoleURL (fun s c => mkCluster (APIURL c) (AppDNS c) s (LoggingURL c) (MetricsURL c) (Name c)) dec_string;
   dec_field "logging-url" LoggingURL (fun s c => mkCluster (APIURL c) (AppDNS c) (ConsoleURL c) s (MetricsURL c) (Name c)) dec_string;
   dec_field "metrics-url" MetricsURL (fun s c => mkCluster (APIURL c) (AppDNS c) (ConsoleURL c) (LoggingURL c) s (Name c)) dec_string;
   dec_field "name" Name (fun s c => mkCluster (APIURL c) (AppDNS c) (ConsoleURL c) (LoggingURL c) (MetricsURL c) s) dec_string].

Definition zero_cluster : clusterData := mkCluster "" "" "" "" "" "".

Definition dec_clusterResponse : decoder clusterResponse := dec_struct
  [dec_field "data" Clusters (fun l _ => mkClusters l) (dec_slice dec_clusterData zero_cluster)].

(** ** The client *)

(** The [Client] interface: pointers are options. *)
Record Client (W : Type) := mkClient {
  client_GetToken : string -> TokenRequest -> M W (result (option TokenResponse));
  client_GetClusters : string -> option TokenResponse -> M W (result (option clusterResponse));
}.
Arguments client_GetToken {W}.
Arguments client_GetClusters {W}.

Section AuthClient.
Context {W : Type} `{!Network W}.

Definition GetToken (tokenAPI : string) (tokenReq : TokenRequest) : M W (result (option TokenResponse)) :=
  let reqBody := encode_TokenRequest tokenReq in
  match new_request tokenAPI with
  | Some err => mret (Err err)
  | None =>
      r ← client_do (mkCall "POST" tokenAPI None (Some reqBody));
      match r with
      | (_, Some err) => mret (Err err)
      | (None, None) => panic nil_dereference
      | (Some resp, None) =>
          if negb (StatusCode resp =? 200)%Z
          then mret (Err ("Failed to get Token, code:" +:+ pretty (StatusCode resp) +:+ ", error:" +:+ Status resp))
          else mret (body ← read_json resp; dec_ptr dec_TokenResponse (mkTokenResponse "" "") body None)
      end
  end.

Definition GetClusters (clustersURL : string) (tokenResp : option TokenResponse) :
    M W (result (option clusterResponse)) :=
  match new_request clustersURL with
  | Some err => mret (Err err)
  | None =>
      match tokenResp with
      | None => panic nil_dereference
      | Some t =>
          r ← client_do (mkCall "GET" clustersURL (Some (TokenType t +:+ " " +:+ AccessToken t)) None);
          match r with
          | (_, Some err) => mret (Err err)
          | (None, None) => panic nil_dereference
          | (Some resp, None) =>
              if negb (StatusCode resp =? 200)%Z
              then mret (Err ("Failed to get Clusters details, code:" +:+ pretty (StatusCode resp) +:+ ", error:" +:+ Status resp))
              else mret (body ← read_json resp; dec_ptr dec_clusterResponse (mkClusters []) body (Some (mkClusters [])))
          end
      end
  end.

Definition NewClient : Client W := {| client_GetToken := GetToken; client_GetClusters := GetClusters |}.

End AuthClient.
