(* ===== verification/OsioServices.v ===== *)
(** * The services behind the OSIO middleware

    [middlewares/osio/tenant.go], [token.go], [secret.go] and [jwt_token.go]:
    locating the tenant of a user, exchanging tokens, reading a secret of the
    cluster and classifying a token.  Each [Section] is a file; the two
    closures with memory (the service-account token and the public keys) keep
    it in the [Services] record. *)
From S2P Require Import Prelude GoStrings GoStringsFacts Json Base64 OsioClient.

Definition Authorization : string := "Authorization".

Abbreviation TokenKind := string (only parsing).
Definition CheToken : TokenKind := "che".
Definition UserToken : TokenKind := "user".

Definition TokenTypeMap : gmap string TokenKind := {[ "rh-che" := CheToken ]}.

(** [middlewares/osio/osio.go], [normalizeURL] *)
Definition normalizeURL (url : string) : string := trim_suffix url "/".

Definition status_error (url : string) (resp : HttpResponse) : error :=
  "Call to '" +:+ url +:+ "' failed with status '" +:+ Status resp +:+ "'".

(** The state of the service layer: the memory of the two closures, and the
    remote services. *)
Record Services (Key W : Type) := mkServices {
  saToken : string;
  publicKeysMap : option (gmap string Key);
  remote : W;
}.
Arguments saToken {Key W}.
Arguments publicKeysMap {Key W}.
Arguments remote {Key W}.
Arguments mkServices {Key W}.

Definition on_remote {Key W A} (m : M W A) : M (Services Key W) A :=
  zoom remote (fun v s => mkServices (saToken s) (publicKeysMap s) v) m.

(** ** tenant.go *)

Record namespace := mkNamespace {
  ns_Name : string;
  ns_Type : string;
  ClusterURL : string;
  ClusterMetricsURL : string;
  ClusterConsoleURL : string;
  ClusterLoggingURL : string;
}.
Definition zero_namespace : namespace := mkNamespace "" "" "" "" "" "".

Record attributes := mkAttributes { Namespaces : list namespace }.
Record data := mkData { Attributes : attributes }.
Record response := mkResponseData { Data : data }.

Definition dec_namespace : decoder namespace := dec_struct
  [dec_field "name" ns_Name (fun s n => mkNamespace s (ns_Type n) (ClusterURL n) (ClusterMetricsURL n) (ClusterConsoleURL n) (ClusterLoggingURL n)) dec_string;
   dec_field "type" ns_Type (fun s n => mkNamespace (ns_Name n) s (ClusterURL n) (ClusterMetricsURL n) (ClusterConsoleURL n) (ClusterLoggingURL n)) dec_string;
   dec_field "cluster-url" ClusterURL (fun s n => mkNamespace (ns_Name n) (ns_Type n) s (ClusterMetricsURL n) (ClusterConsoleURL n) (ClusterLoggingURL n)) dec_string;
   dec_field "cluster-metrics-url" ClusterMetricsURL (fun s n => mkNamespace (ns_Name n) (ns_Type n) (ClusterURL n) s (ClusterConsoleURL n) (ClusterLoggingURL n)) dec_string;
   dec_field "cluster-console-url" ClusterConsoleURL (fun s n => mkNamespace (ns_Name n) (ns_Type n) (ClusterURL n) (ClusterMetricsURL n) s (ClusterLoggingURL n)) dec_string;
   dec_field "cluster-logging-url" ClusterLoggingURL (fun s n => mkNamespace (ns_Name n) (ns_Type n) (ClusterURL n) (ClusterMetricsURL n) (ClusterConsoleURL n) s) dec_string].

Definition dec_response : decoder response := dec_struct
  [dec_field "data" Data (fun d _ => mkResponseData d) (dec_struct
    [dec_field "attributes" Attributes (fun a _ => mkData a) (dec_struct
      [dec_field "namespaces" Namespaces (fun l _ => mkAttributes l) (dec_slice dec_namespace zero_namespace)])])].

Definition zero_response : response := mkResponseData (mkData (mkAttributes [])).

Definition getNamespace (resp : response) (tokenType : TokenKind) : result namespace :=
  let namespaces := Namespaces (Attributes (Data resp)) in
  if bool_decide (length namespaces = 0) then Err "no namespace found" else
  match list_find (fun ns => ns_Type ns = tokenType) namespaces with
  | Some (_, ns) => Ok ns
  | None => Err "no namespace matched"
  end.

(** A GET with a bearer token, the response checked for its status before the
    error of the call: [resp.StatusCode] with a nil response panics. *)
Definition bearer_get {W} `{!Network W} (url token : string) : M W (result (result json)) :=
  match new_request url with
  | Some err => mret (Err err)
  | None =>
      r ← client_do (mkCall "GET" url (Some ("Bearer " +:+ token)) None);
      match r.1 with
      | None => panic nil_dereference
      | Some resp =>
          if negb (StatusCode resp =? 200)%Z then mret (Err (status_error url resp))
          else mret (Ok (read_json resp))
      end
  end.

Section Tenant.
Context {W : Type} `{!Network W}.

Definition locateTenant (url token : string) (tokenType : TokenKind) : M W (result namespace) :=
  r ← bearer_get url token;
  mret (b ← r; body ← b; resp ← dec_response body zero_response; getNamespace resp tokenType).

Definition GetTenant (tenantURL token : string) (tokenType : TokenKind) : M W (result namespace) :=
  locateTenant (tenantURL +:+ "/tenant") token tokenType.

Definition GetTenantById (tenantURL token : string) (tokenType : TokenKind) (userID : string) :
    M W (result namespace) :=
  locateTenant (tenantURL +:+ "/tenants/" +:+ userID) token tokenType.

End Tenant.

(** ** token.go *)

Record tokenResponse := mkToken { tr_AccessToken : string; tr_Scope : string; tr_Type : string }.

Definition dec_tokenResponse : decoder tokenResponse := dec_struct
  [dec_field "access_token" tr_AccessToken (fun s r => mkToken s (tr_Scope r) (tr_Type r)) dec_string;
   dec_field "scope" tr_Scope (fun s r => mkToken (tr_AccessToken r) s (tr_Type r)) dec_string;
   dec_field "token_type" tr_Type (fun s r => mkToken (tr_AccessToken r) (tr_Scope r) s) dec_string].

(** [openpgp.ReadMessage] and reading its unverified body: a third-party
    library, given the prompt function as the answers to its successive
    calls. *)
Class OpenPGP := openpgp_read : string -> (nat -> result string) -> result string.

Section Token.
Context {Key W : Type} `{!Network W} `{!OpenPGP}.

Definition locateToken (authBaseURL token location : string) : M W (result string) :=
  let url := authBaseURL +:+ "/token?for=" +:+ location in
  r ← bearer_get url token;
  mret (b ← r; body ← b; t ← dec_tokenResponse body (mkToken "" "" ""); mret (tr_AccessToken t)).

Definition gpg_prompt (passphrase : string) (call : nat) : result string :=
  match call with
  | O => Ok passphrase
  | S _ => Err "unable to decrypt token with given key"
  end.

Definition gpgDecyptToken (base64Body passphrase : string) : result string :=
  decodedEnc ← b64_decode base64Body;
  openpgp_read decodedEnc (gpg_prompt passphrase).

Definition GetTokenWithUserToken (authBaseURL userToken location : string) : M W (result string) :=
  locateToken authBaseURL userToken location.

(** [passphrase] is the environment's [AUTH_TOKEN_KEY]. *)
Definition GetTokenWithSAToken (passphrase authBaseURL sa location : string) : M W (result string) :=
  r ← locateToken authBaseURL sa location;
  mret (encryptedClusterToken ← r; gpgDecyptToken encryptedClusterToken passphrase).

(** The closure [CreateSrvAccTokenLocator] returns: a non-empty token is kept
    for ever. *)
Definition SrvAccTokenLocator (authBaseURL srvAccID srvAccSecret : string) : M (Services Key W) (result string) :=
  let tokenReq := mkTokenRequest "client_credentials" srvAccID srvAccSecret in
  s ← get_state;
  if negb (bool_decide (saToken s = "")) then mret (Ok (saToken s)) else
  res ← on_remote (GetToken (authBaseURL +:+ "/token") tokenReq);
  match res with
  | Err err => mret (Err err)
  | Ok None => panic nil_dereference
  | Ok (Some t) =>
      _ ← modify_state (fun s => mkServices (AccessToken t) (publicKeysMap s) (remote s));
      mret (Ok (AccessToken t))
  end.

End Token.

(** ** secret.go *)

Record secretName := mkSecretName { sn_Name : string }.
Record secretNameResponse := mkSecretNames { SecretNames : list secretName }.
Record secretData := mkSecretData { sd_Token : string }.
Record secretResponse := mkSecret { SecretData : secretData }.

Definition dec_secretNameResponse : decoder secretNameResponse := dec_struct
  [dec_field "secrets" SecretNames (fun l _ => mkSecretNames l)
     (dec_slice (dec_struct [dec_field "name" sn_Name (fun s _ => mkSecretName s) dec_string]) (mkSecretName ""))].

Definition dec_secretResponse : decoder secretResponse := dec_struct
  [dec_field "data" SecretData (fun d _ => mkSecret d)
     (dec_struct [dec_field "token" sd_Token (fun s _ => mkSecretData s) dec_string])].

Definition getSecretName (resp : secretNameResponse) : result string :=
  match list_find (fun n => has_prefix (sn_Name n) "che-token" = true) (SecretNames resp) with
  | Some (_, n) => Ok (sn_Name n)
  | None => Err "unable to locate secret name"
  end.

Definition getSecret (resp : secretResponse) : result string :=
  if bool_decide (sd_Token (SecretData resp) = "") then Err "unable to locate secret"
  else b64_decode (sd_Token (SecretData resp)).

Section Secret.
Context {W : Type} `{!Network W}.

Definition GetName (clusterURL clusterToken nsName nsType : string) : M W (result string) :=
  let clusterURL := normalizeURL clusterURL in
  let url := clusterURL +:+ "/api/v1/namespaces/" +:+ nsName +:+ "/serviceaccounts/" +:+ nsType in
  r ← bearer_get url clusterToken;
  mret (b ← r; body ← b; resp ← dec_secretNameResponse body (mkSecretNames []); getSecretName resp).

Definition GetSecret (clusterURL clusterToken nsName secretName : string) : M W (result string) :=
  let clusterURL := normalizeURL clusterURL in
  let url := clusterURL +:+ "/api/v1/namespaces/" +:+ nsName +:+ "/secrets/" +:+ secretName in
  r ← bearer_get url clusterToken;
  mret (b ← r; body ← b; resp ← dec_secretResponse body (mkSecret (mkSecretData "")); getSecret resp).

End Secret.
