(* ===== verification/OsioJwt.v ===== *)
(** * [middlewares/osio/jwt_token.go]: what kind of token a request carries

    The locator fetches the public keys of the auth service once, verifies the
    token with them and classifies it by its claims.  The JWT and JOSE
    libraries are parameters: [jwt_parse] verifies a token with the key
    function and gives its claims, [jose_key] reads one JSON web key. *)
From S2P Require Import Prelude GoStrings Json OsioClient OsioServices.

Class JwtLib (Key : Type) := {
  (** [jwt.Parse(token, keyFunc)] with [keyFunc] as a function of the header
      field [kid]; the claims of the parsed token. *)
  jwt_parse : string -> (option json -> result Key) -> result (gmap string json);
  (** [key.UnmarshalJSON(data)]: the key's id, and the key when it is RSA. *)
  jose_key : json -> result (string * option Key);
  (** [fmt.Sprintf("%s", kid)] of a [kid] that is not a string. *)
  sprint_other : json -> string;
}.

(** What verifying a token means: the key is the one the key function gives for
    the [kid] of the token's header, and the signature is checked with it. *)
Class JwtLaws (Key : Type) `{!JwtLib Key} := {
  jwt_kid : string -> option json;
  (** The token is signed with the key, and carries the claims. *)
  jwt_signed : string -> Key -> gmap string json -> Prop;
  jwt_parse_signed token keyFunc claims :
    jwt_parse token keyFunc = Ok claims ->
    exists key, keyFunc (jwt_kid token) = Ok key /\ jwt_signed token key claims;
}.

Record PublicKey (Key : Type) := mkPublicKey { KeyID : string; PKey : Key }.
Arguments mkPublicKey {Key}.
Arguments KeyID {Key}.
Arguments PKey {Key}.

Record JSONKeys := mkJSONKeys { Keys : list json }.
Definition dec_JSONKeys : decoder JSONKeys := dec_struct
  [dec_field "keys" Keys (fun l _ => mkJSONKeys l) (dec_slice dec_any JNull)].

Section Jwt.
Context {Key W : Type} `{!JwtLib Key} `{!Network W}.

Definition unmarshalKey (j : json) : result (PublicKey Key) :=
  k ← jose_key j;
  match k with
  | (_, None) => Err "Key is not an *rsa.PublicKey"
  | (kid, Some rsaKey) => Ok (mkPublicKey kid rsaKey)
  end.

Fixpoint unmarshalKeyList (l : list json) : result (list (PublicKey Key)) :=
  match l with
  | [] => Ok []
  | j :: l' => k ← unmarshalKey j; ks ← unmarshalKeyList l'; mret (k :: ks)
  end.

Definition unmarshalKeys (jsonData : result json) : result (list (PublicKey Key)) :=
  j ← jsonData; raw ← dec_JSONKeys j (mkJSONKeys []); unmarshalKeyList (Keys raw).

Definition fetchKeys (authURL : string) : M W (result (list (PublicKey Key))) :=
  let keysEndpointURL := authURL +:+ "/token/keys" in
  match new_request keysEndpointURL with
  | Some err => mret (Err err)
  | None =>
      r ← client_do (mkCall "GET" keysEndpointURL None None);
      match r with
      | (_, Some err) => mret (Err err)
      | (None, None) => panic nil_dereference
      | (Some res, None) =>
          if bool_decide (is_Some (ReadErr res)) then mret (Err (default "" (ReadErr res)))
          else if negb (StatusCode res =? 200)%Z
          then mret (Err ("Failed to obtain public keys from remote service, call to '" +:+ keysEndpointURL +:+ "' failed with status '" +:+ Status res +:+ "'"))
          else mret (unmarshalKeys (Body res))
      end
  end.

Definition sprint_kid (kid : json) : string :=
  match kid with JStr s => s | _ => sprint_other kid end.

Definition keyFunc (keys : gmap string Key) (kid : option json) : result Key :=
  match kid with
  | None | Some JNull => Err "There is no 'kid' header in the token"
  | Some kid =>
      match keys !! sprint_kid kid with
      | None => Err ("There is no public key with such ID: " +:+ sprint_kid kid)
      | Some key => Ok key
      end
  end.

Definition key_map (l : list (PublicKey Key)) : gmap string Key :=
  foldl (fun m k => <[KeyID k := PKey k]> m) ∅ l.

(** The claims of a verified token: a service account named in
    [TokenTypeMap], or a user with a string subject. *)
Definition classify (claims : gmap string json) : result TokenKind :=
  match claims !! "service_accountname" with
  | None | Some JNull =>
      match claims !! "sub" with
      | Some (JStr _) => Ok UserToken
      | _ => Err "Not valid JWT token"
      end
  | Some (JStr accNameStr) =>
      match TokenTypeMap !! accNameStr with
      | Some tokenType => Ok tokenType
      | None => Err ("service_accountname '" +:+ accNameStr +:+ "' not supported")
      end
  | Some _ => Err "Not valid JWT token"
  end.

(** The closure [CreateTokenTypeLocator] returns. *)
Definition TokenTypeLocator (authURL token : string) : M (Services Key W) (result TokenKind) :=
  (s ← get_state;
   match publicKeysMap s with
   | Some _ => mret (Ok tt)
   | None =>
       remoteKeys ← on_remote (fetchKeys authURL);
       match remoteKeys with
       | Err err => mret (Err err)
       | Ok keys =>
           _ ← modify_state (fun s => mkServices (saToken s) (Some (key_map keys)) (remote s));
           mret (Ok tt)
       end
   end) ≫= fun fetched =>
  match fetched with
  | Err err => mret (Err err)
  | Ok _ =>
      s ← get_state;
      mret (claims ← jwt_parse token (keyFunc (default ∅ (publicKeysMap s))); classify claims)
  end.

(** ** Classification *)

(** A token is never taken for a user's and a service account's at once: a
    service-account claim, well formed or not, excludes [UserToken]. *)
Lemma classify_user claims :
  classify claims = Ok UserToken <->
  (claims !! "service_accountname" = None \/ claims !! "service_accountname" = Some JNull) /\
  exists s, claims !! "sub" = Some (JStr s).
Proof.
  unfold classify, TokenTypeMap. split.
  - destruct (claims !! "service_accountname") as [[| | |n| |]|]; try discriminate.
    + destruct (claims !! "sub") as [[]|]; try discriminate. eauto.
    + destruct (decide ("rh-che" = n)) as [<-|]; [rewrite lookup_singleton_eq; discriminate|].
      by rewrite lookup_singleton_ne.
    + destruct (claims !! "sub") as [[]|]; try discriminate. eauto.
  - intros [[->| ->] [s ->]]; done.
Qed.

Lemma classify_service claims kind :
  classify claims = Ok kind -> kind <> UserToken ->
  kind = CheToken /\ claims !! "service_accountname" = Some (JStr "rh-che").
Proof.
  unfold classify, TokenTypeMap.
  destruct (claims !! "service_accountname") as [[| | |n| |]|]; try discriminate.
  - destruct (claims !! "sub") as [[]|]; try discriminate. intros [= <-]. done.
  - destruct (decide ("rh-che" = n)) as [<-|].
    + rewrite lookup_singleton_eq. by intros [= <-].
    + by rewrite lookup_singleton_ne.
  - destruct (claims !! "sub") as [[]|]; try discriminate. intros [= <-]. done.
Qed.

Lemma classify_kinds claims kind :
  classify claims = Ok kind ->
  (kind = UserToken <->
    (claims !! "service_accountname" = None \/ claims !! "service_accountname" = Some JNull) /\
    exists sub, claims !! "sub" = Some (JStr sub)) /\
  (kind = CheToken <-> claims !! "service_accountname" = Some (JStr "rh-che")) /\
  (kind = UserToken \/ kind = CheToken).
Proof.
  intros Hc. rewrite <-classify_user, Hc. destruct (decide (kind = UserToken)) as [->|Hk].
  - pose proof (proj1 (classify_user claims) Hc) as [Hs _]. split; [done|]. split; [|by left].
    split; [done|]. intros E. rewrite E in Hs. destruct Hs; done.
  - apply classify_service in Hc as [-> Hs]; [|done]. split; [done|]. split; [done|by right].
Qed.

(** Once the keys are there the network is not asked again. *)
Lemma TokenTypeLocator_known authURL token s keys :
  publicKeysMap s = Some keys ->
  TokenTypeLocator authURL token s =
  (Ret (claims ← jwt_parse token (keyFunc keys); classify claims), s).
Proof.
  intros H. unfold TokenTypeLocator, mbind, M_bind, get_state, mret, M_ret. rewrite H. simpl.
  by rewrite H.
Qed.

(** The auth service answered with a list of keys, all RSA. *)
Definition keys_reply (authURL : string) (w : W) (l : list (PublicKey Key)) (w' : W) : Prop :=
  new_request (authURL +:+ "/token/keys") = None /\
  exists resp j raw, client_do (mkCall "GET" (authURL +:+ "/token/keys") None None) w = (Ret (Some resp, None), w') /\
    StatusCode resp = 200%Z /\ read_json resp = Ok j /\ dec_JSONKeys j (mkJSONKeys []) = Ok raw /\
    Forall2 (fun j k => jose_key j = Ok (KeyID k, Some (PKey k))) (Keys raw) l.

Lemma unmarshalKey_Ok j k : unmarshalKey j = Ok k <-> jose_key j = Ok (KeyID k, Some (PKey k)).
Proof. unfold unmarshalKey. destruct k, (jose_key j) as [[kid [key|]]|]; simpl; naive_solver. Qed.

Lemma unmarshalKeyList_Ok js l :
  unmarshalKeyList js = Ok l <-> Forall2 (fun j k => jose_key j = Ok (KeyID k, Some (PKey k))) js l.
Proof.
  revert l. induction js as [|j js IH]; intros l; simpl.
  - split; [by intros [= <-]|by inversion 1].
  - split.
    + destruct (unmarshalKey j) as [k|] eqn:E; simpl; [|done].
      destruct (unmarshalKeyList js) as [ks|] eqn:E'; simpl; [|done]. intros [= <-].
      constructor; [by apply unmarshalKey_Ok|by apply IH].
    + inversion 1 as [|? k ? ks Hk Hks]; subst. apply unmarshalKey_Ok in Hk as ->. by apply IH in Hks as ->.
Qed.

Lemma fetchKeys_Ok authURL w l w' : fetchKeys authURL w = (Ret (Ok l), w') -> keys_reply authURL w l w'.
Proof.
  unfold fetchKeys, keys_reply, mbind, M_bind, mret, M_ret, panic. cbv zeta.
  destruct (new_request _); [done|].
  destruct (client_do _ w) as [[[[resp|] [err|]]|?|?] w1]; simpl; try done.
  unfold read_json. case_bool_decide as Hr; [done|]. destruct (ReadErr resp) as [e|] eqn:Er; [destruct Hr; eauto|].
  destruct (Z.eqb_spec (StatusCode resp) 200); simpl; [|done]. unfold unmarshalKeys.
  destruct (Body resp) as [j|] eqn:Ej; simpl; [|done].
  destruct (dec_JSONKeys j (mkJSONKeys [])) as [raw|] eqn:Ed; simpl; [|done].
  intros [= Hl <-]. apply unmarshalKeyList_Ok in Hl. split; [done|]. exists resp, j, raw. by rewrite Er, Ej.
Qed.

(** Whatever the locator answers, keys once known stay, and the network is left
    alone; keys not known yet are asked for, and kept when they come. *)
Lemma TokenTypeLocator_keys authURL token s o s' :
  TokenTypeLocator authURL token s = (o, s') ->
  match publicKeysMap s with
  | Some keys => s' = s
  | None => saToken s' = saToken s /\
      (publicKeysMap s' = None \/
       exists l, keys_reply authURL (remote s) l (remote s') /\ publicKeysMap s' = Some (key_map l))
  end.
Proof.
  destruct (publicKeysMap s) as [keys|] eqn:Ek.
  - rewrite (TokenTypeLocator_known _ _ _ _ Ek). by intros [= _ <-].
  - unfold TokenTypeLocator, mbind, M_bind, get_state, mret, M_ret, on_remote, zoom. rewrite Ek.
    destruct (fetchKeys authURL (remote s)) as [[[l|e]|e|e] w] eqn:Ef; simpl.
    all: intros [= _ <-]; simpl; split; [done|]; auto.
    right. exists l. split; [by apply fetchKeys_Ok|done].
Qed.

(** An accepted token was verified with the keys then known. *)
Lemma TokenTypeLocator_accepts authURL token s kind s' :
  TokenTypeLocator authURL token s = (Ret (Ok kind), s') ->
  exists keys claims, publicKeysMap s' = Some keys /\ jwt_parse token (keyFunc keys) = Ok claims /\ classify claims = Ok kind.
Proof.
  destruct (publicKeysMap s) as [keys|] eqn:Ek.
  - rewrite (TokenTypeLocator_known _ _ _ _ Ek).
    destruct (jwt_parse token (keyFunc keys)) as [claims|] eqn:Ep; [|done]. intros [= Hc <-]. eauto.
  - unfold TokenTypeLocator, mbind, M_bind, get_state, mret, M_ret. rewrite Ek.
    destruct (on_remote (fetchKeys authURL) s) as [[[l|e]|e|e] s1]; try done.
    simpl. destruct (jwt_parse token (keyFunc (key_map l))) as [claims|] eqn:Ep; [|done].
    intros [= Hc <-]. exists (key_map l), claims. done.
Qed.

Lemma keyFunc_Ok keys kid key :
  keyFunc keys kid = Ok key <-> exists k, kid = Some k /\ k <> JNull /\ keys !! sprint_kid k = Some key.
Proof.
  unfold keyFunc. destruct kid as [k|]; [|split; [done|naive_solver]].
  destruct k; simpl; try (destruct (keys !! _) eqn:E); naive_solver.
Qed.

Section Verified.
Context `{!JwtLaws Key}.

(** C34: every token the locator accepts has a [kid] in its header, and is
    signed with the key of that id among those the locator holds.  By the claims
    signed it is a user's token, exactly when they name no service account and a
    subject that is a string, or else the che account's, exactly when they name
    the service account [rh-che].  The keys are fetched at most once: whatever
    the outcome of a call, keys that were known are kept and no service is
    called; when none were known those kept afterwards are what the auth service
    answered.  That parsing a token verifies its signature with the key the key
    function gives for its [kid] is the JWT library's contract. *)
Theorem TokenTypeLocator_spec authURL token s o s' :
  TokenTypeLocator authURL token s = (o, s') ->
  match publicKeysMap s with
  | Some keys => s' = s
  | None => saToken s' = saToken s /\
      (publicKeysMap s' = None \/
       exists l, keys_reply authURL (remote s) l (remote s') /\ publicKeysMap s' = Some (key_map l))
  end /\
  forall kind, o = Ret (Ok kind) ->
    exists keys kid key claims,
      publicKeysMap s' = Some keys /\
      jwt_kid token = Some kid /\ kid <> JNull /\ keys !! sprint_kid kid = Some key /\
      jwt_signed token key claims /\ jwt_parse token (keyFunc keys) = Ok claims /\
      (kind = UserToken <->
        (claims !! "service_accountname" = None \/ claims !! "service_accountname" = Some JNull) /\
        exists sub, claims !! "sub" = Some (JStr sub)) /\
      (kind = CheToken <-> claims !! "service_accountname" = Some (JStr "rh-che")) /\
      (kind = UserToken \/ kind = CheToken).
Proof.
  intros H. split; [by eapply TokenTypeLocator_keys|]. intros kind ->.
  apply TokenTypeLocator_accepts in H as (keys & claims & Hk & Hp & Hc).
  destruct (jwt_parse_signed _ _ _ Hp) as (key & (kid & Hkid & Hnull & Hkey)%keyFunc_Ok & Hsig).
  exists keys, kid, key, claims. do 6 (split; [done|]). by apply classify_kinds.
Qed.

End Verified.

End Jwt.
