(* ===== verification/Sha256.v ===== *)
(** * [crypto/sha256] and [hex.EncodeToString]

    FIPS 180-4 on 32-bit words kept as [Z] below [2^32]: the hash the token
    cache keys are made with.  Executable, and checked on the standard's test
    vectors. *)
From S2P Require Import Prelude GoStrings GoStringsFacts GoHttp.

Local Open Scope Z_scope.

Definition w32 (x : Z) : Z := x mod 2 ^ 32.
Definition rotr (n x : Z) : Z := Z.lor (Z.shiftr x n) (w32 (Z.shiftl x (32 - n))).

(** The constants of the standard: the first 32 bits of the fractional parts of
    the cube roots of the first 64 primes, and of the square roots of the first
    eight. *)
Definition is_prime (n : Z) : bool :=
  forallb (fun d => negb (n mod d =? 0)) (map Z.of_nat (seq 2 (Z.to_nat n - 2))).
Definition primes : list Z := Eval vm_compute in List.filter is_prime (map Z.of_nat (seq 2 310)).

(** The greatest [r] below [lo + 2^bits] with [r^3 <= n], bit by bit. *)
Fixpoint cube_root (bits : nat) (lo n : Z) : Z :=
  match bits with
  | O => lo
  | S b => let r := lo + 2 ^ Z.of_nat b in cube_root b (if r ^ 3 <=? n then r else lo) n
  end.

Definition sha_K : list Z := Eval vm_compute in map (fun p => w32 (cube_root 36 0 (p * 2 ^ 96))) (take 64 primes).
Definition sha_H0 : list Z := Eval vm_compute in map (fun p => w32 (Z.sqrt (p * 2 ^ 64))) (take 8 primes).

Definition bytes_of (s : string) : list Z := map byte_of (String.list_ascii_of_string s).

(** Padding: a one bit, zeros, and the length in bits as a 64-bit word. *)
Definition be_bytes (n : nat) (x : Z) : list Z :=
  map (fun i => Z.shiftr x (8 * Z.of_nat i) mod 256) (reverse (seq 0 n)).

Definition sha_pad (m : list Z) : list Z :=
  let len := Z.of_nat (length m) in
  let zeros := Z.to_nat ((55 - len) mod 64) in
  m ++ [0x80] ++ replicate zeros 0 ++ be_bytes 8 (8 * len).

Fixpoint words (l : list Z) : list Z :=
  match l with
  | a :: b :: c :: d :: l' => (((a * 256 + b) * 256 + c) * 256 + d) :: words l'
  | _ => []
  end.

Definition small_sigma0 x := Z.lxor (Z.lxor (rotr 7 x) (rotr 18 x)) (Z.shiftr x 3).
Definition small_sigma1 x := Z.lxor (Z.lxor (rotr 17 x) (rotr 19 x)) (Z.shiftr x 10).
Definition big_sigma0 x := Z.lxor (Z.lxor (rotr 2 x) (rotr 13 x)) (rotr 22 x).
Definition big_sigma1 x := Z.lxor (Z.lxor (rotr 6 x) (rotr 11 x)) (rotr 25 x).

(** The message schedule: [w] holds the last sixteen words, oldest first. *)
Fixpoint schedule (n : nat) (w : list Z) : list Z :=
  match n with
  | O => w
  | S n' =>
      match w with
      | w0 :: w' =>
          let next := w32 (small_sigma1 (nth 13 w' 0) + nth 8 w' 0 + small_sigma0 (nth 0 w' 0) + w0) in
          w0 :: schedule n' (w' ++ [next])
      | [] => []
      end
  end.

Definition sha_round (st : list Z) (kw : Z * Z) : list Z :=
  match st with
  | [a; b; c; d; e; f; g; h] =>
      let ch := Z.lxor (Z.land e f) (Z.land (Z.lxor e 0xffffffff) g) in
      let t1 := h + big_sigma1 e + ch + kw.1 + kw.2 in
      let maj := Z.lxor (Z.lxor (Z.land a b) (Z.land a c)) (Z.land b c) in
      let t2 := big_sigma0 a + maj in
      [w32 (t1 + t2); a; b; c; w32 (d + t1); e; f; g]
  | _ => st
  end.

Definition sha_block (h : list Z) (block : list Z) : list Z :=
  let st := foldl sha_round h (zip sha_K (schedule 48 block)) in
  zip_with (fun x y => w32 (x + y)) h st.

Fixpoint blocks (n : nat) (l : list Z) : list (list Z) :=
  match n with
  | O => []
  | S n' => take 16 l :: blocks n' (drop 16 l)
  end.

Definition sha256 (s : string) : list Z :=
  let w := words (sha_pad (bytes_of s)) in
  mjoin (map (be_bytes 4) (foldl sha_block sha_H0 (blocks (length w / 16) w))).

(** [hex.EncodeToString] *)
Definition hex_lower (n : Z) : ascii := of_byte (if n <? 10 then 48 + n else 87 + n).
Fixpoint hex_encode (l : list Z) : string :=
  match l with
  | [] => ""
  | b :: l' => String (hex_lower (b / 16)) (String (hex_lower (b mod 16)) (hex_encode l'))
  end.

Definition sha256_hex (s : string) : string := hex_encode (sha256 s).

Example sha256_abc :
  sha256_hex "abc" = "ba7816bf8f01cfea414140de5dae2223b00361a396177a9cb410ff61f20015ad".
Proof. vm_compute. reflexivity. Qed.

Example sha256_empty :
  sha256_hex "" = "e3b0c44298fc1c149afbf4c8996fb92427ae41e4649b934ca495991b7852b855".
Proof. vm_compute. reflexivity. Qed.

Example sha256_two_blocks :
  sha256_hex "abcdbcdecdefdefgefghfghighijhijkijkljklmklmnlmnomnopnopq" =
  "248d6a61d20638b8e5c026930c3e6039a33ce45964ff2167f6ecedd419db06c1".
Proof. vm_compute. reflexivity. Qed.

(** Proofs treat the hash as a black box; [vm_compute] still evaluates it. *)
#[global] Opaque sha256 sha256_hex.
