(* ===== verification/OsioCache.v ===== *)
(** * [middlewares/osio/cache.go]: the token cache

    A cache maps a key to a promise; a promise runs its resolver until it
    succeeds once and then answers from memory.  [Sequential] is the code as
    one goroutine runs it, over a state that holds the map and the services
    the resolvers call.  [Concurrent] is the protocol of its two mutexes as a
    step relation on any number of goroutines, in which a resolver's result is
    arbitrary. *)
From S2P Require Import Prelude GoStrings.

(** ** One goroutine *)

Section Sequential.
Context {S V : Type} (zero : V).

Definition Resolver : Type := M S (result V).

Record ResolverPromise := mkPromise {
  resolver : Resolver;
  resolved : bool;
  value : option V;
  perr : option error;
}.

Record CacheState := mkCacheState {
  cache : gmap string ResolverPromise;
  svc : S;
}.

Definition on_svc {A} (m : M S A) : M CacheState A :=
  zoom svc (fun v st => mkCacheState (cache st) v) m.

(** [c.Get(key, resolver)]: the promise under [key], created when there is
    none.  A promise is only ever reached through its key, which stands for
    the pointer. *)
Definition Cache_Get (key : string) (r : Resolver) : M CacheState string :=
  st ← get_state;
  match cache st !! key with
  | Some _ => mret key
  | None =>
      _ ← modify_state (fun st => mkCacheState (<[key := mkPromise r false None None]> (cache st)) (svc st));
      mret key
  end.

(** What the resolver's goroutine stores in [r.value, r.err]: the resolvers
    return a zero value with an error. *)
Definition promise_result (r : result V) : option V * option error :=
  match r with Ok v => (Some v, None) | Err e => (Some zero, Some e) end.

(** [promise.Get()] *)
Definition Promise_Get (key : string) : M CacheState (option V * option error) :=
  st ← get_state;
  match cache st !! key with
  | None => panic "nil promise"
  | Some p =>
      if resolved p then mret (value p, perr p) else
      r ← on_svc (go (resolver p));
      let '(v, e) := promise_result r in
      _ ← modify_state (fun st => mkCacheState
            (<[key := mkPromise (resolver p) (bool_decide (e = None)) v e]> (cache st)) (svc st));
      mret (v, e)
  end.

(** [a.cache.Get(key, resolver).Get()] *)
Definition cached (key : string) (r : Resolver) : M CacheState (option V * option error) :=
  k ← Cache_Get key r; Promise_Get k.

(** Looking up a key twice, the second time with any resolver: the promise
    that answers is the first caller's. *)
Lemma cached_hit key r p st :
  cache st !! key = Some p -> resolved p = true -> cached key r st = (Ret (value p, perr p), st).
Proof.
  intros Hp Hr. unfold cached, Cache_Get, Promise_Get, mbind, M_bind, get_state, mret, M_ret.
  rewrite Hp, Hp, Hr. done.
Qed.

Lemma cached_miss key r st :
  (forall p, cache st !! key = Some p -> resolved p = false) ->
  let res := match cache st !! key with Some p => resolver p | None => r end in
  cached key r st =
  match res (svc st) with
  | (Ret x, s') =>
      (Ret (promise_result x),
       mkCacheState (<[key := mkPromise res (is_ok x) (promise_result x).1 (promise_result x).2]> (cache st)) s')
  | (Panic e, s') | (Crash e, s') =>
      (Crash e, mkCacheState (match cache st !! key with
                 Some _ => cache st | None => <[key := mkPromise r false None None]> (cache st) end) s')
  end.
Proof.
  intros Hp. unfold cached, Cache_Get, Promise_Get, mbind, M_bind, get_state, mret, M_ret, modify_state.
  destruct (cache st !! key) as [p|] eqn:E; simpl.
  - rewrite E, (Hp p) by done. unfold on_svc, zoom, go. destruct (resolver p (svc st)) as [[[v|e]|e|e] s'];
      simpl; done.
  - rewrite lookup_insert_eq. simpl. unfold on_svc, zoom, go. simpl.
    destruct (r (svc st)) as [[[v|e]|e|e] s']; simpl; try done; by rewrite insert_insert_eq.
Qed.

End Sequential.
Arguments mkPromise {S V}.
Arguments resolver {S V}.
Arguments resolved {S V}.
Arguments value {S V}.
Arguments perr {S V}.
Arguments mkCacheState {S V}.
Arguments cache {S V}.
Arguments svc {S V}.
Arguments Cache_Get {S V}.
Arguments CacheState : clear implicits.
Arguments ResolverPromise : clear implicits.

(** ** Any number of goroutines *)

Section Concurrent.
Context {V : Type} (zero : V).

(** A promise with the goroutine that holds its mutex. *)
Record pstate := mkPstate {
  lock : option nat;
  p_resolved : bool;
  p_value : option V;
  p_err : option error;
}.

(** Where a goroutine stands in [a.cache.Get(k, r).Get()]. *)
Inductive tstate :=
  | Start (k : string)
  | Waiting (k : string)
  | Running (k : string)
  | Done (k : string) (v : option V) (e : option error).

Record conf := mkConf {
  promises : gmap string pstate;
  threads : gmap nat tstate;
  runs : list (string * result V);
}.

Definition initial : conf := mkConf ∅ ∅ [].

Inductive step (c : conf) : conf -> Prop :=
  | step_spawn t k :
      threads c !! t = None ->
      step c (mkConf (promises c) (<[t := Start k]> (threads c)) (runs c))
  | step_get_new t k :
      threads c !! t = Some (Start k) -> promises c !! k = None ->
      step c (mkConf (<[k := mkPstate None false None None]> (promises c)) (<[t := Waiting k]> (threads c)) (runs c))
  | step_get_old t k p :
      threads c !! t = Some (Start k) -> promises c !! k = Some p ->
      step c (mkConf (promises c) (<[t := Waiting k]> (threads c)) (runs c))
  | step_answer t k p :
      threads c !! t = Some (Waiting k) -> promises c !! k = Some p ->
      lock p = None -> p_resolved p = true ->
      step c (mkConf (promises c) (<[t := Done k (p_value p) (p_err p)]> (threads c)) (runs c))
  | step_lock t k p :
      threads c !! t = Some (Waiting k) -> promises c !! k = Some p ->
      lock p = None -> p_resolved p = false ->
      step c (mkConf (<[k := mkPstate (Some t) false (p_value p) (p_err p)]> (promises c))
                     (<[t := Running k]> (threads c)) (runs c))
  | step_finish t k r :
      threads c !! t = Some (Running k) ->
      step c (mkConf (<[k := mkPstate None (is_ok r) (promise_result zero r).1 (promise_result zero r).2]> (promises c))
                     (<[t := Done k (promise_result zero r).1 (promise_result zero r).2]> (threads c))
                     (runs c ++ [(k, r)])).

Definition reachable (c : conf) : Prop := rtc step initial c.

(** The results the resolvers of one key have had, in order. *)
Definition runs_of (k : string) (c : conf) : list (result V) := (filter (fun x => x.1 = k) (runs c)).*2.

(** Every run but the last failed, and the promise remembers the last one. *)
Definition promise_ok (k : string) (c : conf) (p : pstate) : Prop :=
  if p_resolved p then
    exists v l, runs_of k c = l ++ [Ok v] /\ Forall (fun r => is_ok r = false) l /\
                p_value p = Some v /\ p_err p = None /\ lock p = None
  else Forall (fun r => is_ok r = false) (runs_of k c).

Record inv (c : conf) : Prop := {
  inv_promise k p : promises c !! k = Some p -> promise_ok k c p;
  inv_none k : promises c !! k = None -> runs_of k c = [];
  inv_lock k p t : promises c !! k = Some p -> lock p = Some t -> threads c !! t = Some (Running k);
  inv_running k t : threads c !! t = Some (Running k) -> exists p, promises c !! k = Some p /\ lock p = Some t;
  inv_done k t v : threads c !! t = Some (Done k v None) ->
    exists p, promises c !! k = Some p /\ p_resolved p = true /\ p_value p = v;
}.

Lemma runs_of_snoc k c c' k' r :
  runs c' = runs c ++ [(k', r)] -> runs_of k c' = runs_of k c ++ (if decide (k' = k) then [r] else []).
Proof.
  unfold runs_of. intros ->. rewrite filter_app, fmap_app. f_equal. rewrite filter_cons. simpl.
  by case_decide.
Qed.

(** A step that leaves the log alone keeps what [promise_ok] says. *)
Lemma promise_ok_runs k c c' p : runs c' = runs c -> promise_ok k c p -> promise_ok k c' p.
Proof. unfold promise_ok, runs_of. by intros ->. Qed.

Lemma inv_initial : inv initial.
Proof. split; unfold initial; simpl; intros *; rewrite ?lookup_empty; done. Qed.

Lemma inv_spawn c t k : inv c -> threads c !! t = None ->
  inv (mkConf (promises c) (<[t := Start k]> (threads c)) (runs c)).
Proof.
  intros [Hp Hn Hl Hr Hd] Ht. split; simpl; intros *; rewrite ?lookup_insert_Some; naive_solver.
Qed.

Lemma inv_get_new c t k : inv c -> threads c !! t = Some (Start k) -> promises c !! k = None ->
  inv (mkConf (<[k := mkPstate None false None None]> (promises c)) (<[t := Waiting k]> (threads c)) (runs c)).
Proof.
  intros [Hp Hn Hl Hr Hd] Ht Hk. split; simpl; intros *.
  - rewrite lookup_insert_Some. intros [[<- <-]|[? ?]].
    + unfold promise_ok. simpl. unfold runs_of. simpl. fold (runs_of k c). by rewrite (Hn _ Hk).
    + by apply (promise_ok_runs _ c); [|apply Hp].
  - rewrite lookup_insert_None. intros [? _]. by apply Hn.
  - rewrite !lookup_insert_Some. intros [[<- <-]|[? H]] Hlk; [done|].
    specialize (Hl _ _ _ H Hlk). right. split; [congruence|done].
  - rewrite !lookup_insert_Some. intros [[]|[? H]]; [done|].
    destruct (Hr _ _ H) as (p & ? & ?). exists p. split; [|done].
    rewrite lookup_insert_ne; [done|]. congruence.
  - rewrite !lookup_insert_Some. intros [[]|[? H]]; [done|].
    destruct (Hd _ _ _ H) as (p & ? & ?). exists p. split; [|done].
    rewrite lookup_insert_ne; [done|]. congruence.
Qed.

Lemma inv_thread c t k x : inv c -> threads c !! t = Some x ->
  (forall k', x <> Running k') ->
  inv (mkConf (promises c) (<[t := Waiting k]> (threads c)) (runs c)).
Proof.
  intros [Hp Hn Hl Hr Hd] Ht Hx. split; simpl; intros *; rewrite ?lookup_insert_Some; naive_solver.
Qed.

Lemma inv_answer c t k p : inv c -> threads c !! t = Some (Waiting k) -> promises c !! k = Some p ->
  p_resolved p = true ->
  inv (mkConf (promises c) (<[t := Done k (p_value p) (p_err p)]> (threads c)) (runs c)).
Proof.
  intros [Hp Hn Hl Hr Hd] Ht Hk Hres. split; simpl; intros *; rewrite ?lookup_insert_Some; naive_solver.
Qed.

Lemma inv_lock_step c t k p : inv c -> threads c !! t = Some (Waiting k) -> promises c !! k = Some p ->
  lock p = None -> p_resolved p = false ->
  inv (mkConf (<[k := mkPstate (Some t) false (p_value p) (p_err p)]> (promises c))
              (<[t := Running k]> (threads c)) (runs c)).
Proof.
  intros [Hp Hn Hl Hr Hd] Ht Hk Hlk Hres. split; simpl; intros *.
  - rewrite lookup_insert_Some. intros [[<- <-]|[? ?]].
    + pose proof (Hp _ _ Hk) as H. unfold promise_ok in *. rewrite Hres in H. done.
    + by apply (promise_ok_runs _ c); [|apply Hp].
  - rewrite lookup_insert_None. intros [? _]. by apply Hn.
  - rewrite !lookup_insert_Some. intros [[<- <-]|[? H]] Hlk'.
    + simpl in Hlk'. injection Hlk' as ->. by left.
    + specialize (Hl _ _ _ H Hlk'). right. split; [congruence|done].
  - rewrite !lookup_insert_Some. intros [[<- [= <-]]|[? H]].
    + exists (mkPstate (Some t) false (p_value p) (p_err p)). split; [apply lookup_insert_eq|done].
    + destruct (Hr _ _ H) as (p' & Hp' & Hl'). exists p'. split; [|done].
      rewrite lookup_insert_ne; [done|]. intros ->. congruence.
  - rewrite !lookup_insert_Some. intros [[]|[? H]]; [done|].
    destruct (Hd _ _ _ H) as (p' & Hp' & ? & ?). exists p'. split; [|done].
    rewrite lookup_insert_ne; [done|]. intros ->. congruence.
Qed.

Lemma inv_finish c t k r : inv c -> threads c !! t = Some (Running k) ->
  inv (mkConf (<[k := mkPstate None (is_ok r) (promise_result zero r).1 (promise_result zero r).2]> (promises c))
              (<[t := Done k (promise_result zero r).1 (promise_result zero r).2]> (threads c))
              (runs c ++ [(k, r)])).
Proof.
  intros [Hp Hn Hl Hr Hd] Ht. destruct (Hr _ _ Ht) as (p & Hk & Hlk).
  pose proof (Hp _ _ Hk) as Hpk. unfold promise_ok in Hpk.
  destruct (p_resolved p) eqn:Hres.
  { destruct Hpk as (?&?&?&?&?&?&?). congruence. }
  split; simpl; intros *.
  - rewrite lookup_insert_Some. unfold promise_ok. intros [[<- <-]|[? Hk']].
    + erewrite runs_of_snoc by done. rewrite decide_True by done. simpl.
      destruct r as [v|e]; simpl.
      * exists v, (runs_of k c). done.
      * apply Forall_app. split; [done|by repeat constructor].
    + erewrite runs_of_snoc by done. rewrite decide_False by done. rewrite app_nil_r. by apply Hp.
  - rewrite lookup_insert_None. intros [? ?]. erewrite runs_of_snoc by done.
    rewrite decide_False by done. rewrite app_nil_r. by apply Hn.
  - rewrite !lookup_insert_Some. intros [[<- <-]|[? H]] Hlk'; [done|].
    specialize (Hl _ _ _ H Hlk'). right. split; [|done]. intros ->. congruence.
  - rewrite !lookup_insert_Some. intros [[]|[? H]]; [done|].
    destruct (Hr _ _ H) as (p' & Hp' & Hl'). exists p'. split; [|done].
    rewrite lookup_insert_ne; [done|]. intros ->. congruence.
  - rewrite !lookup_insert_Some. intros [[<- Heq]|[? H]].
    + injection Heq as -> Hv He. eexists. split; [apply lookup_insert_eq|]. simpl.
      destruct r; simpl in *; [done|discriminate].
    + destruct (Hd _ _ _ H) as (p' & Hp' & ? & ?).
      exists p'. split; [|done]. rewrite lookup_insert_ne; [done|]. intros ->. congruence.
Qed.

Lemma inv_step c c' : inv c -> step c c' -> inv c'.
Proof.
  intros Hi Hs. destruct Hs.
  - by apply inv_spawn.
  - by apply inv_get_new.
  - by eapply inv_thread.
  - by eapply inv_answer.
  - by apply inv_lock_step.
  - by apply inv_finish.
Qed.

Lemma inv_reachable c : reachable c -> inv c.
Proof. apply (rtc_ind_r inv initial); [apply inv_initial|]. intros c1 c2 _ ? ?. by eapply inv_step. Qed.

Lemma filter_ok_failed (l : list (result V)) :
  Forall (fun r => is_ok r = false) l -> filter (fun r => is_ok r = true) l = [].
Proof. induction 1 as [|r l Hr Hl IH]; [done|]. rewrite filter_cons, decide_False; congruence. Qed.

End Concurrent.

(** C9: however the goroutines interleave, at most one runs the resolver of a
    key at any time, the resolver of a key succeeds at most once and is never
    run again after that, and every goroutine that gets an answer without an
    error gets the value of that one success. *)
Theorem cache_single_flight {V} (zero : V) (c : conf) (k : string) :
  reachable zero c ->
  (forall t1 t2, threads c !! t1 = Some (Running k) -> threads c !! t2 = Some (Running k) -> t1 = t2) /\
  length (filter (fun r => is_ok r = true) (runs_of k c)) <= 1 /\
  (forall t v, threads c !! t = Some (Done k v None) -> exists x, v = Some x /\ last (runs_of k c) = Some (Ok x)).
Proof.
  intros [Hp Hn Hl Hr Hd]%inv_reachable. split_and!.
  - intros t1 t2 H1 H2. destruct (Hr _ _ H1) as (p1 & ? & ?), (Hr _ _ H2) as (p2 & ? & ?). congruence.
  - destruct (promises c !! k) as [p|] eqn:Hk; [|rewrite (Hn _ Hk); simpl; lia].
    specialize (Hp _ _ Hk). unfold promise_ok in Hp. destruct (p_resolved p).
    + destruct Hp as (v & l & -> & Hf & _). rewrite filter_app, filter_ok_failed by done. simpl. lia.
    + rewrite filter_ok_failed by done. simpl. lia.
  - intros t v Ht. destruct (Hd _ _ _ Ht) as (p & Hk & Hres & <-).
    specialize (Hp _ _ Hk). unfold promise_ok in Hp. rewrite Hres in Hp.
    destruct Hp as (x & l & -> & _ & -> & _). exists x. by rewrite last_snoc.
Qed.

(** A schedule of two goroutines that race for one key. *)
Definition race : conf (V := string) :=
  mkConf {["k" := mkPstate None true (Some "token") None]}
         {[1 := Done "k" (Some "token") None; 2 := Done "k" (Some "token") None]} [("k", Ok "token")].

Lemma race_reachable : reachable "" race.
Proof.
  unfold reachable.
  eapply rtc_l; [by apply (step_spawn _ _ 1 "k")|].
  eapply rtc_l; [by apply (step_spawn _ _ 2 "k")|].
  eapply rtc_l; [by apply (step_get_new _ _ 1 "k")|].
  eapply rtc_l; [by eapply (step_get_old _ _ 2 "k")|].
  eapply rtc_l; [by eapply (step_lock _ _ 1 "k")|].
  eapply rtc_l; [by apply (step_finish _ _ 1 "k" (Ok "token"))|].
  eapply rtc_l; [by eapply (step_answer _ _ 2 "k")|].
  match goal with |- rtc _ ?x ?y => replace x with y by (by vm_compute) end. apply rtc_refl.
Qed.

Lemma cache_single_flight_witness :
  (forall t1 t2, threads race !! t1 = Some (Running "k") -> threads race !! t2 = Some (Running "k") -> t1 = t2) /\
  length (filter (fun r => is_ok r = true) (runs_of "k" race)) <= 1 /\
  (forall t v, threads race !! t = Some (Done "k" v None) -> exists x, v = Some x /\ last (runs_of "k" race) = Some (Ok x)).
Proof. apply (cache_single_flight "" race "k"), race_reachable. Defined.

(** ** The code of one goroutine is a schedule of the protocol *)

Section Refinement.
Context {S V : Type} (zero : V).

(** The protocol state of a cache no goroutine is inside of. *)
Definition abs_promise (p : ResolverPromise S V) : pstate (V := V) :=
  mkPstate None (resolved p) (value p) (perr p).
Definition abs_cache (st : CacheState S V) : gmap string pstate := abs_promise <$> cache st.

(** Entering with a promise in place, and running its resolver to an end. *)
Lemma enter_schedule m (thr : gmap nat tstate) log t key p :
  thr !! t = None -> m !! key = Some p ->
  rtc (step (V := V) zero) (mkConf m thr log) (mkConf m (<[t := Waiting key]> thr) log).
Proof.
  intros Ht Hp.
  eapply rtc_l; [by apply (step_spawn _ _ t key)|]. simpl.
  eapply rtc_l; [eapply (step_get_old _ _ t key p); simpl; [apply lookup_insert_eq|done]|].
  simpl. rewrite insert_insert_eq. apply rtc_refl.
Qed.

Lemma enter_new_schedule m (thr : gmap nat tstate) log t key :
  thr !! t = None -> m !! key = None ->
  rtc (step (V := V) zero) (mkConf m thr log)
    (mkConf (<[key := mkPstate None false None None]> m) (<[t := Waiting key]> thr) log).
Proof.
  intros Ht Hp.
  eapply rtc_l; [by apply (step_spawn _ _ t key)|]. simpl.
  eapply rtc_l; [eapply (step_get_new _ _ t key); simpl; [apply lookup_insert_eq|done]|].
  simpl. rewrite insert_insert_eq. apply rtc_refl.
Qed.

Lemma run_schedule m (thr : gmap nat tstate) log t key p r :
  thr !! t = Some (Waiting key) -> m !! key = Some p -> lock p = None -> p_resolved p = false ->
  rtc (step (V := V) zero) (mkConf m thr log)
    (mkConf (<[key := mkPstate None (is_ok r) (promise_result zero r).1 (promise_result zero r).2]> m)
            (<[t := Done key (promise_result zero r).1 (promise_result zero r).2]> thr) (log ++ [(key, r)])).
Proof.
  intros Ht Hp Hl Hr.
  eapply rtc_l; [by eapply (step_lock _ _ t key p)|]. simpl.
  eapply rtc_l; [apply (step_finish _ _ t key r); simpl; apply lookup_insert_eq|].
  simpl. rewrite !insert_insert_eq. apply rtc_refl.
Qed.

Lemma abs_cache_insert (m : gmap string (ResolverPromise S V)) key (p : ResolverPromise S V) :
  abs_promise <$> <[key := p]> m = <[key := abs_promise p]> (abs_promise <$> m).
Proof. apply fmap_insert. Qed.

(** C10: whenever [a.cache.Get(key, resolver).Get()] returns, the protocol has a
    schedule in which one fresh goroutine makes the same change to the promises
    and ends with the same answer. *)
Theorem cached_refines_protocol key r (st st' : CacheState S V) v e t thr log :
  cached zero key r st = (Ret (v, e), st') -> thr !! t = None ->
  exists log', rtc (step zero) (mkConf (abs_cache st) thr log)
                               (mkConf (abs_cache st') (<[t := Done key v e]> thr) log').
Proof.
  intros Hc Ht. unfold abs_cache. destruct (cache st !! key) as [p|] eqn:Ek; [destruct (resolved p) eqn:Er|].
  - rewrite (cached_hit zero key r p st Ek Er) in Hc. injection Hc as <- <- <-. exists log.
    assert ((abs_promise <$> cache st) !! key = Some (abs_promise p)) as Hp by (by rewrite lookup_fmap, Ek).
    etrans; [by eapply enter_schedule|].
    eapply rtc_l; [eapply (step_answer _ _ t key (abs_promise p)); simpl; try done; apply lookup_insert_eq|].
    simpl. rewrite insert_insert_eq. apply rtc_refl.
  - rewrite cached_miss, Ek in Hc by congruence. cbv zeta in Hc.
    destruct (resolver p (svc st)) as [[x|?|?] s']; try done.
    injection Hc as Hv <-. simpl. rewrite abs_cache_insert. exists (log ++ [(key, x)]).
    replace v with (promise_result zero x).1 by (by rewrite Hv).
    replace e with (promise_result zero x).2 by (by rewrite Hv).
    assert ((abs_promise <$> cache st) !! key = Some (abs_promise p)) as Hp by (by rewrite lookup_fmap, Ek).
    etrans; [by eapply enter_schedule|].
    etrans; [apply (run_schedule _ _ _ t key (abs_promise p) x); simpl; try done; apply lookup_insert_eq|].
    rewrite insert_insert_eq. apply rtc_refl.
  - rewrite cached_miss, Ek in Hc by congruence. cbv zeta in Hc.
    destruct (r (svc st)) as [[x|?|?] s']; try done.
    injection Hc as Hv <-. simpl. rewrite abs_cache_insert. exists (log ++ [(key, x)]).
    replace v with (promise_result zero x).1 by (by rewrite Hv).
    replace e with (promise_result zero x).2 by (by rewrite Hv).
    etrans; [eapply enter_new_schedule; [done|by rewrite lookup_fmap, Ek]|].
    etrans; [apply (run_schedule _ _ _ t key (mkPstate None false None None) x); simpl; try done; apply lookup_insert_eq|].
    rewrite !insert_insert_eq. apply rtc_refl.
Qed.

End Refinement.

Lemma cached_refines_protocol_witness :
  exists st', cached (S := unit) "" "k" (mret (Ok "token")) (mkCacheState ∅ tt) = (Ret (Some "token", None), st') /\
  exists log', rtc (step (V := string) "") (mkConf (abs_cache (S := unit) (mkCacheState ∅ tt)) ∅ [])
    (mkConf (abs_cache st') (<[1 := Done "k" (Some "token") None]> ∅) log').
Proof.
  eexists. split; [reflexivity|]. apply (cached_refines_protocol "" "k" (mret (Ok "token"))); reflexivity.
Defined.
