(* ===== verification/OsioAuth.v ===== *)
(** * [middlewares/osio/osio.go]: the authentication and routing middleware

    [OSIOAuth] replaces the token of a request by the token of the user's
    cluster and labels the request with the cluster it is for, or redirects
    it.  The locators are interfaces (records of operations over a service
    state [S]); [OsioServices] and [OsioJwt] implement them. *)
From S2P Require Import Prelude GoStrings GoStringsFacts GoHttp Sha256 OsioClient OsioServices OsioJwt OsioCache.

Definition ImpersonateGroupHeader : string := "Impersonate-Group".
Definition UserIDHeader : string := "Impersonate-User".

(** ** Request types *)

Inductive RequestType := api | metrics | console | logs | undefine.

#[global] Instance RequestType_eq_dec : EqDecision RequestType.
Proof. solve_decision. Defined.

Definition RequestType_string (r : RequestType) : string :=
  match r with
  | api => "api" | metrics => "metrics" | console => "console" | logs => "logs" | undefine => ""
  end.

Definition path (r : RequestType) : string := "/" +:+ RequestType_string r.

Definition apiPrefix : string := path api +:+ path api.
Definition oapiPrefix : string := path api +:+ "/oapi".

Definition getRequestType (req : Request) : RequestType :=
  let reqPath := req_path req in
  if has_prefix reqPath (path api +:+ "/") then api
  else if has_prefix reqPath (path metrics) then metrics
  else if has_prefix reqPath (path console) then console
  else if has_prefix reqPath (path logs) then logs
  else undefine.

Definition getTargetURL (r : RequestType) (ns : namespace) : string :=
  match r with
  | api => ClusterURL ns
  | metrics => ClusterMetricsURL ns
  | console => ClusterConsoleURL ns
  | logs => ClusterLoggingURL ns
  | undefine => ClusterURL ns
  end.

Definition isRedirectRequest (r : RequestType) : bool :=
  bool_decide (r = console) || bool_decide (r = logs).

(** ** Paths *)

Definition ensureLeadingSlash (str : string) : string := "/" +:+ trim_prefix str "/".
Definition stripPrefix (s prefix : string) : string := ensureLeadingSlash (trim_prefix s prefix).

Definition stripRequestPathPrefix (req : Request) (pathPrefix stripPath : string) : Request :=
  if has_prefix (req_path req) pathPrefix
  then sync_RequestURI (set_URL (set_Path (stripPrefix (req_path req) stripPath) (ReqURL req)) req)
  else req.

Definition stripPathPrefix (r : RequestType) (req : Request) : Request :=
  match r with
  | api =>
      let pathPrefix := if has_prefix (req_path req) oapiPrefix then oapiPrefix else apiPrefix in
      stripRequestPathPrefix req pathPrefix (path r)
  | metrics | console | logs => stripRequestPathPrefix req (path r) (path r)
  | undefine => req
  end.

Definition getRedirectURL (r : RequestType) (targetURL : string) (req : Request) : string :=
  let redirectURL := targetURL +:+ req_path req in
  if bool_decide (r = logs) && negb (bool_decide (RawQuery (ReqURL req) = ""))
  then join [redirectURL; "?"; RawQuery (ReqURL req)] ""
  else redirectURL.

(** ** Reading the request *)

Definition extractToken (auth : string) : result string :=
  match last (split auth " ") with
  | None => Err "Invalid auth"
  | Some t => Ok t
  end.

Definition getToken (r : Request) : result string :=
  t ← extractToken (req_header r Authorization);
  if bool_decide (t = "") then Err "Missing auth" else Ok t.

Definition getNamespaceName (p : string) : string :=
  if bool_decide (p = "") then "" else
  match cut p "/namespaces/" with
  | None => ""
  | Some (_, rest) => match cut rest "/" with Some (ns, _) => ns | None => rest end
  end.

Definition extractUserID (req : Request) : string := req_header req UserIDHeader.

Definition removeUserID (req : Request) : Request :=
  let req := if bool_decide (req_header req UserIDHeader = "") then req
             else set_Header (header_del (ReqHeader req) UserIDHeader) req in
  if bool_decide (req_header req ImpersonateGroupHeader = "") then req
  else set_Header (header_del (ReqHeader req) ImpersonateGroupHeader) req.

Definition cacheKey (plainKey : string) : string := sha256_hex plainKey.

(** ** Resolving the cluster and the token of a user *)

Record cacheData := mkCacheData { Token : string; Namespace : namespace }.
Definition zero_cacheData : cacheData := mkCacheData "" zero_namespace.

Record TenantLocator (S : Type) := mkTenantLocator {
  tl_GetTenant : string -> TokenKind -> M S (result namespace);
  tl_GetTenantById : string -> TokenKind -> string -> M S (result namespace);
}.
Arguments tl_GetTenant {S}.
Arguments tl_GetTenantById {S}.

Record TenantTokenLocator (S : Type) := mkTenantTokenLocator {
  ttl_GetTokenWithUserToken : string -> string -> M S (result string);
  ttl_GetTokenWithSAToken : string -> string -> M S (result string);
}.
Arguments ttl_GetTokenWithUserToken {S}.
Arguments ttl_GetTokenWithSAToken {S}.

Record SecretLocator (S : Type) := mkSecretLocator {
  sl_GetName : string -> string -> string -> string -> M S (result string);
  sl_GetSecret : string -> string -> string -> string -> M S (result string);
}.
Arguments sl_GetName {S}.
Arguments sl_GetSecret {S}.

Record OSIOAuth (S : Type) := mkOSIOAuth {
  RequestTenantLocation : option (TenantLocator S);
  RequestTenantToken : TenantTokenLocator S;
  RequestSrvAccToken : M S (result string);
  RequestSecretLocation : SecretLocator S;
  RequestTokenType : string -> M S (result TokenKind);
}.
Arguments RequestTenantLocation {S}.
Arguments RequestTenantToken {S}.
Arguments RequestSrvAccToken {S}.
Arguments RequestSecretLocation {S}.
Arguments RequestTokenType {S}.

Section Auth.
Context {S : Type} (a : OSIOAuth S).
Local Open Scope go_scope.

Abbreviation State := (CacheState S cacheData).

Definition tenant_location {A} (f : TenantLocator S -> M S A) : M S A :=
  match RequestTenantLocation a with Some l => f l | None => panic nil_dereference end.

(** The assignment to the captured [namespaceName] is not kept between runs:
    only a resolver made for an empty name is affected by it, and such a
    resolver is run once ([resolveByIDWithoutCache]). *)
Definition cacheResolverByID (token : string) (tokenType : TokenKind) (userID namespaceName : string) :
    Resolver (S := S) (V := cacheData) :=
  namespace <-? tenant_location (fun l => tl_GetTenantById l token tokenType userID) ;;
  let namespaceName := if bool_decide (namespaceName = "") then ns_Name namespace else namespaceName in
  osoProxySAToken <-? RequestSrvAccToken a ;;
  clusterToken <-? ttl_GetTokenWithSAToken (RequestTenantToken a) osoProxySAToken (ClusterURL namespace) ;;
  secretName <-? sl_GetName (RequestSecretLocation a) (ClusterURL namespace) clusterToken namespaceName (ns_Type namespace) ;;
  osoToken <-? sl_GetSecret (RequestSecretLocation a) (ClusterURL namespace) clusterToken namespaceName secretName ;;
  mret (Ok (mkCacheData osoToken namespace)).

Definition cacheResolverByToken (token : string) (tokenType : TokenKind) : Resolver (S := S) (V := cacheData) :=
  namespace <-? tenant_location (fun l => tl_GetTenant l token tokenType) ;;
  osoToken <-? ttl_GetTokenWithUserToken (RequestTenantToken a) token (ClusterURL namespace) ;;
  mret (Ok (mkCacheData osoToken namespace)).

(** [if data, ok := val.(cacheData); ok { return data, err }], as a result. *)
Definition cache_result (r : option cacheData * option error) : result cacheData :=
  match r with
  | (_, Some err) => Err err
  | (Some data, None) => Ok data
  | (None, None) => Ok zero_cacheData
  end.

Definition resolveByToken (token : string) (tokenType : TokenKind) : M State (result cacheData) :=
  let key := cacheKey token in
  r ← cached zero_cacheData key (cacheResolverByToken token tokenType);
  mret (cache_result r).

Definition plainKeyByID (token userID namespaceName : string) : string :=
  token +:+ "_" +:+ userID +:+ "_" +:+ namespaceName.

Definition resolveByID (userID token : string) (tokenType : TokenKind) (namespaceName : string) :
    M State (result cacheData) :=
  let key := cacheKey (plainKeyByID token userID namespaceName) in
  r ← cached zero_cacheData key (cacheResolverByID token tokenType userID namespaceName);
  mret (cache_result r).

Definition resolveByIDWithoutCache (userID token : string) (tokenType : TokenKind) (namespaceName : string) :
    M State (result cacheData) :=
  on_svc (cacheResolverByID token tokenType userID namespaceName).

(** ** The handler *)

Definition StatusUnauthorized : Z := 401.
Definition StatusTemporaryRedirect : Z := 307.

(** "retrieve cache data": [None] when the user identity is missing. *)
Definition retrieve (r : Request) (token : string) (tokenType : TokenKind) : M State (option (result cacheData)) :=
  if negb (bool_decide (tokenType = UserToken)) then
    let userID := extractUserID r in
    if bool_decide (userID = "") then mret None else
    let namespaceName := getNamespaceName (req_path r) in
    if bool_decide (namespaceName = "")
    then x ← resolveByIDWithoutCache userID token tokenType namespaceName; mret (Some x)
    else x ← resolveByID userID token tokenType namespaceName; mret (Some x)
  else x ← resolveByToken token tokenType; mret (Some x).

(** "routing or redirect" *)
Definition route (r : Request) (tokenType : TokenKind) (cached : cacheData) : handled :=
  let reqType := getRequestType r in
  let r := stripPathPrefix reqType r in
  let targetURL := normalizeURL (getTargetURL reqType (Namespace cached)) in
  if isRedirectRequest reqType
  then Redirect (getRedirectURL reqType targetURL r) StatusTemporaryRedirect
  else
    let r := set_Header (header_set (ReqHeader r) "Target" targetURL) r in
    let r := set_Header (header_set (ReqHeader r) "Authorization" ("Bearer " +:+ Token cached)) r in
    CallNext (if negb (bool_decide (tokenType = UserToken)) then removeUserID r else r).

Definition OSIOAuth_ServeHTTP (r : Request) : M State handled :=
  match RequestTenantLocation a with
  | None => mret (CallNext r)
  | Some _ =>
      if bool_decide (Method r = "OPTIONS")
      then mret (CallNext (set_Header (header_set (ReqHeader r) "Target" "default") r)) else
      match getToken r with
      | Err _ => mret (WriteHeader StatusUnauthorized)
      | Ok token =>
          tt' ← on_svc (RequestTokenType a token);
          match tt' with
          | Err _ => mret (WriteHeader StatusUnauthorized)
          | Ok tokenType =>
              c ← retrieve r token tokenType;
              match c with
              | None | Some (Err _) => mret (WriteHeader StatusUnauthorized)
              | Some (Ok cached) => mret (route r tokenType cached)
              end
          end
      end
  end.

End Auth.

(** ** The production wiring *)

Section Wiring.
Context {Key W : Type} `{!Network W} `{!OpenPGP} `{!JwtLib Key}.

(** [NewOSIOAuth]: the locators of [OsioServices] and [OsioJwt] behind the
    interfaces; [getenv] is [os.Getenv]. *)
Definition NewOSIOAuth (getenv : string -> string) (tenantURL authURL srvAccID srvAccSecret : string) :
    OSIOAuth (Services Key W) :=
  {| RequestTenantLocation := Some
       {| tl_GetTenant := fun token kind => on_remote (GetTenant tenantURL token kind);
          tl_GetTenantById := fun token kind id => on_remote (GetTenantById tenantURL token kind id) |};
     RequestTenantToken :=
       {| ttl_GetTokenWithUserToken := fun token location => on_remote (GetTokenWithUserToken authURL token location);
          ttl_GetTokenWithSAToken := fun sa location =>
            on_remote (GetTokenWithSAToken (getenv "AUTH_TOKEN_KEY") authURL sa location) |};
     RequestSrvAccToken := SrvAccTokenLocator authURL srvAccID srvAccSecret;
     RequestSecretLocation :=
       {| sl_GetName := fun url token ns ty => on_remote (GetName url token ns ty);
          sl_GetSecret := fun url token ns name => on_remote (GetSecret url token ns name) |};
     RequestTokenType := TokenTypeLocator authURL |}.

Definition require_env (getenv : string -> string) (name : string) : outcome string :=
  if bool_decide (getenv name = "") then Panic ("Missing " +:+ name) else Ret (getenv name).

Definition NewPreConfiguredOSIOAuth (getenv : string -> string) : outcome (OSIOAuth (Services Key W)) :=
  _ ← require_env getenv "AUTH_TOKEN_KEY";
  tenantURL ← require_env getenv "TENANT_URL";
  authURL ← require_env getenv "AUTH_URL";
  srvAccID ← require_env getenv "SERVICE_ACCOUNT_ID";
  srvAccSecret ← require_env getenv "SERVICE_ACCOUNT_SECRET";
  mret (NewOSIOAuth getenv tenantURL authURL srvAccID srvAccSecret).

End Wiring.
