(* ===== verification/OsioServicesFacts.v ===== *)
(** * What the OSIO services resolve, and how they fail

    The calls a resolution makes and what it takes from their replies, for a
    user's own token and for a service account acting for a user; what happens
    when a service cannot be reached; and the configuration the middleware
    insists on. *)
From S2P Require Import Prelude GoStrings GoStringsFacts GoHttp Json Base64.
From S2P Require Import OsioClient OsioServices OsioJwt OsioCache OsioAuth.

(** ** One call *)

Section Calls.
Context {W : Type} `{!Network W}.

(** A GET of [url] with a bearer token took the services from [w] to [w'] and
    was answered 200 with the JSON value [j]. *)
Definition replied (url token : string) (w : W) (j : json) (w' : W) : Prop :=
  new_request url = None /\
  exists resp err, client_do (mkCall "GET" url (Some ("Bearer " +:+ token)) None) w = (Ret (Some resp, err), w') /\
    StatusCode resp = 200%Z /\ read_json resp = Ok j.

Lemma bearer_get_Ok url token w j w' :
  bearer_get url token w = (Ret (Ok (Ok j)), w') <-> replied url token w j w'.
Proof.
  unfold bearer_get, replied, mbind, M_bind, mret, M_ret, panic.
  destruct (new_request url); [split; naive_solver|].
  destruct (client_do _ w) as [[[[resp|] err]|?|?] w1]; simpl.
  2-4: split; naive_solver.
  destruct (Z.eqb_spec (StatusCode resp) 200); simpl; split.
  - intros [= H ->]. eauto 10.
  - intros (_ & r & e1 & [= <- <- <-] & _ & ->). done.
  - done.
  - naive_solver.
Qed.

(** The shape of every service call: a GET, then a pure reading of the body. *)
Lemma call_Ok {A} url token (k : json -> result A) (w w' : W) x :
  (bearer_get url token ≫= fun r => mret (b ← r; body ← b; k body)) w = (Ret (Ok x), w') <->
  exists j, replied url token w j w' /\ k j = Ok x.
Proof.
  setoid_rewrite <- bearer_get_Ok. unfold mbind at 1, M_bind.
  destruct (bearer_get url token w) as [[[[j|e]|e]|?|?] w1]; unfold mret, M_ret; simpl.
  all: split; [intros H; try discriminate H|intros (j' & Hj & Hk); try discriminate Hj].
  - injection H as H ->. eauto.
  - injection Hj as -> ->. by rewrite <-Hk.
Qed.

Lemma call_nil url token w err w' :
  new_request url = None -> client_do (mkCall "GET" url (Some ("Bearer " +:+ token)) None) w = (Ret (None, err), w') ->
  bearer_get url token w = (Panic nil_dereference, w').
Proof. intros Hn Hc. unfold bearer_get, mbind, M_bind. by rewrite Hn, Hc. Qed.

End Calls.

(** [ns] is the first namespace of the reply that has the wanted type. *)
Definition first_namespace (resp : response) (kind : TokenKind) (ns : namespace) : Prop :=
  exists i, Namespaces (Attributes (Data resp)) !! i = Some ns /\ ns_Type ns = kind /\
    forall j ns', (j < i)%nat -> Namespaces (Attributes (Data resp)) !! j = Some ns' -> ns_Type ns' <> kind.

Lemma getNamespace_Ok resp kind ns : getNamespace resp kind = Ok ns <-> first_namespace resp kind ns.
Proof.
  unfold getNamespace, first_namespace. cbv zeta.
  case_bool_decide as Hl.
  - apply length_zero_iff_nil in Hl as ->. split; [done|]. intros (i & H & _). by rewrite lookup_nil in H.
  - destruct (list_find _ _) as [[i n]|] eqn:E.
    + apply list_find_Some in E as (Hi & Hty & Hj). split; [intros [= <-]; eauto 10|].
      intros (i' & Hi' & Hty' & Hj'). f_equal. destruct (Nat.lt_trichotomy i i') as [?|[<-|?]].
      * by destruct (Hj' i n).
      * congruence.
      * by destruct (Hj i' ns).
    + apply list_find_None in E. split; [done|]. intros (i & Hi & Hty & _).
      rewrite Forall_lookup in E. by destruct (E i ns).
Qed.

(** The name of the first secret of the service account that is a che token. *)
Definition first_che_token (resp : secretNameResponse) (name : string) : Prop :=
  exists i, sn_Name <$> SecretNames resp !! i = Some name /\ has_prefix name "che-token" = true /\
    forall j n, (j < i)%nat -> SecretNames resp !! j = Some n -> has_prefix (sn_Name n) "che-token" = false.

Lemma getSecretName_Ok resp name : getSecretName resp = Ok name <-> first_che_token resp name.
Proof.
  unfold getSecretName, first_che_token. destruct (list_find _ _) as [[i n]|] eqn:E.
  - apply list_find_Some in E as (Hi & Hp & Hj). split.
    + intros [= <-]. exists i. rewrite Hi. split_and!; [done..|].
      intros j n' Hlt Hn. apply not_true_iff_false. eauto.
    + intros (i' & Hi' & Hp' & Hj'). destruct (SecretNames resp !! i') as [n'|] eqn:Ei'; [|done].
      injection Hi' as <-. do 2 f_equal. destruct (Nat.lt_trichotomy i i') as [?|[<-|?]].
      * apply Hj' in Hi; [congruence|done].
      * congruence.
      * by destruct (Hj i' n').
  - apply list_find_None in E. split; [done|]. intros (i & Hi & Hp & _).
    destruct (SecretNames resp !! i) as [n|] eqn:Ei; [|done]. injection Hi as <-.
    rewrite Forall_lookup in E. by destruct (E i n).
Qed.

Lemma getSecret_encoded s : s <> "" -> getSecret (mkSecret (mkSecretData (b64_encode s))) = Ok s.
Proof.
  intros H. unfold getSecret. simpl. rewrite bool_decide_eq_false_2; [apply b64_decode_encode|].
  intros He. apply H. assert (b64_decode (b64_encode s) = b64_decode (b64_encode "")) as Hd by (by rewrite He).
  rewrite !b64_decode_encode in Hd. congruence.
Qed.

(** ** The wired middleware *)

Section Wired.
Context {Key W : Type} `{!Network W} `{!OpenPGP} `{!JwtLib Key}.
Abbreviation S := (Services Key W).

Definition with_remote (s : S) (w : W) : S := mkServices (saToken s) (publicKeysMap s) w.

Lemma on_remote_eq {A} (m : M W A) (s : S) : on_remote m s = ((m (remote s)).1, with_remote s (m (remote s)).2).
Proof. unfold on_remote, zoom, with_remote. by destruct (m (remote s)). Qed.

Lemma on_remote_Ret {A} (m : M W A) (s s' : S) x :
  on_remote m s = (Ret x, s') <-> exists w', m (remote s) = (Ret x, w') /\ s' = with_remote s w'.
Proof.
  rewrite on_remote_eq. destruct (m (remote s)) as [o w']; simpl.
  split; [intros [= -> <-]; eauto|by intros (? & [= -> ->] & ->)].
Qed.

Lemma bind_ok_Ok {V A B} (m : M V (result A)) (k : A -> M V (result B)) v b v' :
  bind_ok m k v = (Ret (Ok b), v') <-> exists a v1, m v = (Ret (Ok a), v1) /\ k a v1 = (Ret (Ok b), v').
Proof.
  split; [apply bind_ok_Ret_inv|]. intros (x & v1 & H1 & H2). unfold bind_ok, mbind, M_bind. by rewrite H1.
Qed.

Lemma result_bind_Ok {A B} (r : result A) (k : A -> result B) b :
  (r ≫= k) = Ok b <-> exists a, r = Ok a /\ k a = Ok b.
Proof. destruct r; simpl; split; naive_solver. Qed.

(** The tenant service named a namespace for the token. *)
Definition tenant_reply (url token : string) (kind : TokenKind) (w : W) (ns : namespace) (w' : W) : Prop :=
  exists j resp, replied url token w j w' /\ dec_response j zero_response = Ok resp /\ first_namespace resp kind ns.

(** The auth service exchanged a token for one of the cluster at [location]. *)
Definition token_reply (authURL token location : string) (w : W) (t : string) (w' : W) : Prop :=
  exists j r, replied (authURL +:+ "/token?for=" +:+ location) token w j w' /\
    dec_tokenResponse j (mkToken "" "" "") = Ok r /\ tr_AccessToken r = t.

Lemma locateTenant_Ok url token kind w ns w' :
  locateTenant url token kind w = (Ret (Ok ns), w') <-> tenant_reply url token kind w ns w'.
Proof.
  unfold locateTenant, tenant_reply. rewrite call_Ok. setoid_rewrite result_bind_Ok.
  setoid_rewrite getNamespace_Ok. naive_solver.
Qed.

Lemma locateToken_Ok authURL token location w t w' :
  locateToken authURL token location w = (Ret (Ok t), w') <-> token_reply authURL token location w t w'.
Proof.
  unfold locateToken, token_reply. cbv zeta. rewrite call_Ok. setoid_rewrite result_bind_Ok.
  unfold mret, result_ret. naive_solver.
Qed.

(** The cluster named the secret of a service account, and gave its token. *)
Definition service_path (clusterURL nsName : string) : string :=
  normalizeURL clusterURL +:+ "/api/v1/namespaces/" +:+ nsName.

Definition secret_name_reply (clusterURL clusterToken nsName nsType : string) (w : W) (name : string) (w' : W) : Prop :=
  exists j resp, replied (service_path clusterURL nsName +:+ "/serviceaccounts/" +:+ nsType) clusterToken w j w' /\
    dec_secretNameResponse j (mkSecretNames []) = Ok resp /\ first_che_token resp name.

Definition secret_reply (clusterURL clusterToken nsName name : string) (w : W) (t : string) (w' : W) : Prop :=
  exists j resp, replied (service_path clusterURL nsName +:+ "/secrets/" +:+ name) clusterToken w j w' /\
    dec_secretResponse j (mkSecret (mkSecretData "")) = Ok resp /\
    sd_Token (SecretData resp) <> "" /\ b64_decode (sd_Token (SecretData resp)) = Ok t.

(** The auth service gave the proxy, for its own credentials, a token. *)
Definition srvacc_reply (authURL srvAccID srvAccSecret : string) (w : W) (t : string) (w' : W) : Prop :=
  let url := authURL +:+ "/token" in
  let credentials := encode_TokenRequest (mkTokenRequest "client_credentials" srvAccID srvAccSecret) in
  new_request url = None /\
  exists resp j r, client_do (mkCall "POST" url None (Some credentials)) w = (Ret (Some resp, None), w') /\
    StatusCode resp = 200%Z /\ read_json resp = Ok j /\ j <> JNull /\
    dec_TokenResponse j (mkTokenResponse "" "") = Ok r /\ AccessToken r = t.

Lemma getSecret_Ok resp t :
  getSecret resp = Ok t <-> sd_Token (SecretData resp) <> "" /\ b64_decode (sd_Token (SecretData resp)) = Ok t.
Proof. unfold getSecret. case_bool_decide; naive_solver. Qed.

Lemma GetName_Ok url token ns ty w name w' :
  GetName url token ns ty w = (Ret (Ok name), w') <-> secret_name_reply url token ns ty w name w'.
Proof.
  unfold GetName, secret_name_reply, service_path. cbv zeta. rewrite call_Ok, !app_assoc_str.
  setoid_rewrite result_bind_Ok. setoid_rewrite getSecretName_Ok. naive_solver.
Qed.

Lemma GetSecret_Ok url token ns name w t w' :
  GetSecret url token ns name w = (Ret (Ok t), w') <-> secret_reply url token ns name w t w'.
Proof.
  unfold GetSecret, secret_reply, service_path. cbv zeta. rewrite call_Ok, !app_assoc_str.
  setoid_rewrite result_bind_Ok. setoid_rewrite getSecret_Ok. naive_solver.
Qed.

Lemma dec_ptr_Some {A} (d : decoder A) zero j x :
  dec_ptr d zero j None = Ok (Some x) <-> j <> JNull /\ d j zero = Ok x.
Proof.
  assert (forall r : result A, (x ← r; mret (Some x)) = Ok (Some x) <-> r = Ok x) as Hr.
  { intros r. rewrite result_bind_Ok. unfold mret, result_ret. split; [intros (? & -> & [= ->])|intros ->]; eauto. }
  destruct j; simpl; rewrite ?Hr; naive_solver.
Qed.

Lemma read_token_Ok resp r :
  (body ← read_json resp; dec_ptr dec_TokenResponse (mkTokenResponse "" "") body None) = Ok (Some r) <->
  exists j, read_json resp = Ok j /\ j <> JNull /\ dec_TokenResponse j (mkTokenResponse "" "") = Ok r.
Proof. rewrite result_bind_Ok. by setoid_rewrite dec_ptr_Some. Qed.

Lemma GetToken_Ok url req w r w' :
  GetToken url req w = (Ret (Ok (Some r)), w') <->
  new_request url = None /\
  exists resp j, client_do (mkCall "POST" url None (Some (encode_TokenRequest req))) w = (Ret (Some resp, None), w') /\
    StatusCode resp = 200%Z /\ read_json resp = Ok j /\ j <> JNull /\ dec_TokenResponse j (mkTokenResponse "" "") = Ok r.
Proof.
  unfold GetToken, mbind, M_bind, mret, M_ret, panic.
  destruct (new_request url); [split; naive_solver|].
  destruct (client_do _ w) as [[[[resp|] [err|]]|?|?] w1]; simpl; try (split; naive_solver).
  destruct (Z.eqb_spec (StatusCode resp) 200); simpl; [|split; naive_solver].
  pose proof (read_token_Ok resp r) as Hr. split.
  - intros [= Hb <-]. apply Hr in Hb as (j & ?). naive_solver.
  - intros (_ & resp' & j & [= <- <-] & _ & Hj). do 3 f_equal. apply Hr. naive_solver.
Qed.

Lemma GetTokenWithSAToken_Ok pass authURL sa location w t w' :
  GetTokenWithSAToken pass authURL sa location w = (Ret (Ok t), w') <->
  exists enc, token_reply authURL sa location w enc w' /\ gpgDecyptToken enc pass = Ok t.
Proof.
  setoid_rewrite <- locateToken_Ok. unfold GetTokenWithSAToken, mbind at 1, M_bind, mret, M_ret.
  destruct (locateToken authURL sa location w) as [[[enc|e]|e|e] w1]; simpl; split.
  all: try (intros Hg; discriminate Hg); try (intros (? & Hg & _); discriminate Hg).
  - intros [= Hg ->]. eauto.
  - intros (? & [= <- ->] & ->). done.
Qed.

(** The service-account token: the one kept, or else a new one, which is kept. *)
Lemma SrvAccTokenLocator_Ok authURL srvAccID srvAccSecret (s s' : S) (sa : string) :
  SrvAccTokenLocator authURL srvAccID srvAccSecret s = (Ret (Ok sa), s') <->
  exists w, s' = mkServices sa (publicKeysMap s) w /\
    if bool_decide (saToken s = "") then srvacc_reply authURL srvAccID srvAccSecret (remote s) sa w
    else sa = saToken s /\ w = remote s.
Proof.
  unfold SrvAccTokenLocator, mbind, M_bind, get_state, mret, M_ret, modify_state. cbv zeta.
  case_bool_decide; simpl.
  - rewrite on_remote_eq. unfold srvacc_reply. cbv zeta. simpl.
    split.
    + destruct (GetToken _ _ (remote s)) as [[[[r|]|e]|e|e] w] eqn:E; simpl; try done.
      intros [= <- <-]. apply GetToken_Ok in E as (? & resp & j & ?). exists w. naive_solver.
    + intros (w & -> & Hn & resp & j & r & Hj & Hc & Hb & Hz & Hd & <-).
      erewrite (proj2 (GetToken_Ok _ _ _ r w)) by eauto 10. done.
  - split; [intros [= <- <-]|intros (w & -> & -> & ->)]; [|by destruct s].
    exists (remote s). by destruct s.
Qed.

Context (getenv : string -> string) (tenantURL authURL srvAccID srvAccSecret : string).

Abbreviation proxy := (NewOSIOAuth (Key := Key) getenv tenantURL authURL srvAccID srvAccSecret).

(** C32: resolving a user's token takes exactly two calls, both authenticated
    with that token: the tenant service names the user's namespace, the first
    of its type, and the auth service exchanges the token for one of that
    namespace's cluster.  It succeeds exactly when both reply well. *)
Theorem user_resolution (token : string) (kind : TokenKind) (s s' : S) (data : cacheData) :
  cacheResolverByToken proxy token kind s = (Ret (Ok data), s') <->
  exists w1 w2,
    tenant_reply (tenantURL +:+ "/tenant") token kind (remote s) (Namespace data) w1 /\
    token_reply authURL token (ClusterURL (Namespace data)) w1 (Token data) w2 /\
    s' = with_remote s w2.
Proof.
  unfold cacheResolverByToken, tenant_location. simpl.
  rewrite bind_ok_Ok. split.
  - intros (ns & s1 & (w1 & H1 & ->)%on_remote_Ret & H2).
    apply bind_ok_Ok in H2 as (t & s2 & (w2 & H2 & ->)%on_remote_Ret & [= <- <-]).
    exists w1, w2. by rewrite <-locateTenant_Ok, <-locateToken_Ok.
  - intros (w1 & w2 & H1 & H2 & ->). destruct data as [t ns]. simpl in *.
    exists ns, (with_remote s w1). rewrite on_remote_Ret. split; [exists w1; by rewrite <-locateTenant_Ok in H1|].
    apply bind_ok_Ok. exists t, (with_remote s w2). rewrite on_remote_Ret. split; [|done].
    exists w2. by rewrite <-locateToken_Ok in H2.
Qed.

(** C33: resolving for a service account succeeds exactly when: the tenant
    service names the namespace of the user named in the request; the proxy has
    kept a token of its own or, when it has none, the auth service gives it one
    for its credentials; with that token the auth service gives the cluster's
    administrator token, which decodes and decrypts with the configured
    passphrase, tried once; and with the administrator token the cluster names
    the first che secret of the target namespace, which is the request's or,
    when the request names none, the user's own, and gives its value, which
    decodes to the token served.  The proxy's own token is kept afterwards, and
    nothing else changes but the services called. *)
Theorem service_resolution (token userID nsName : string) (kind : TokenKind) (s s' : S) (data : cacheData) :
  let ns := Namespace data in
  let target := if bool_decide (nsName = "") then ns_Name ns else nsName in
  cacheResolverByID proxy token kind userID nsName s = (Ret (Ok data), s') <->
  exists w1 sa w2 enc cipher w3 admin name w4 w5,
    tenant_reply (tenantURL +:+ "/tenants/" +:+ userID) token kind (remote s) ns w1 /\
    (if bool_decide (saToken s = "") then srvacc_reply authURL srvAccID srvAccSecret w1 sa w2
     else sa = saToken s /\ w2 = w1) /\
    token_reply authURL sa (ClusterURL ns) w2 enc w3 /\
    b64_decode enc = Ok cipher /\
    openpgp_read cipher (fun call => match call with
                                     | O => Ok (getenv "AUTH_TOKEN_KEY")
                                     | _ => Err "unable to decrypt token with given key" end) = Ok admin /\
    secret_name_reply (ClusterURL ns) admin target (ns_Type ns) w3 name w4 /\
    secret_reply (ClusterURL ns) admin target name w4 (Token data) w5 /\
    s' = mkServices sa (publicKeysMap s) w5.
Proof.
  cbv zeta. unfold cacheResolverByID, tenant_location. simpl. split.
  - intros (ns & s1 & (w1 & H1 & ->)%on_remote_Ret & Hk)%bind_ok_Ok.
    apply bind_ok_Ok in Hk as (sa & s2 & (w2 & -> & H2)%SrvAccTokenLocator_Ok & Hk).
    apply bind_ok_Ok in Hk as (admin & s3 & (w3 & H3 & ->)%on_remote_Ret & Hk).
    apply bind_ok_Ok in Hk as (name & s4 & (w4 & H4 & ->)%on_remote_Ret & Hk).
    apply bind_ok_Ok in Hk as (t & s5 & (w5 & H5 & ->)%on_remote_Ret & [= <- <-]).
    apply GetTokenWithSAToken_Ok in H3 as (enc & H3 & (cipher & Hb & Hd)%result_bind_Ok). simpl.
    exists w1, sa, w2, enc, cipher, w3, admin, name, w4, w5.
    rewrite <-GetName_Ok, <-GetSecret_Ok, <-locateTenant_Ok. auto 10.
  - destruct data as [t ns]. simpl.
    intros (w1 & sa & w2 & enc & cipher & w3 & admin & name & w4 & w5 & H1 & H2 & H3 & Hb & Hd & H4 & H5 & ->).
    rewrite <-GetName_Ok in H4. rewrite <-GetSecret_Ok in H5. rewrite <-locateTenant_Ok in H1.
    apply bind_ok_Ok. exists ns, (with_remote s w1). split; [apply on_remote_Ret; eauto|].
    apply bind_ok_Ok. exists sa, (mkServices sa (publicKeysMap s) w2). split; [apply SrvAccTokenLocator_Ok; eauto|].
    apply bind_ok_Ok. exists admin, (mkServices sa (publicKeysMap s) w3). split.
    { apply on_remote_Ret. exists w3. rewrite GetTokenWithSAToken_Ok. split; [|done]. exists enc. split; [done|].
      apply result_bind_Ok. eauto. }
    apply bind_ok_Ok. exists name, (mkServices sa (publicKeysMap s) w4). split; [apply on_remote_Ret; eauto|].
    apply bind_ok_Ok. exists t, (mkServices sa (publicKeysMap s) w5). split; [apply on_remote_Ret; eauto|]. done.
Qed.

(** The service-account token is asked for once: after a call that
    returned a non-empty token every later call returns the same token and
    leaves the services alone, whatever became of it. *)
Theorem SrvAccTokenLocator_sticky (s s1 s2 : S) (t : string) :
  SrvAccTokenLocator authURL srvAccID srvAccSecret s = (Ret (Ok t), s1) -> t <> "" ->
  saToken s2 = saToken s1 ->
  SrvAccTokenLocator authURL srvAccID srvAccSecret s2 = (Ret (Ok t), s2).
Proof.
  intros (w & -> & _)%SrvAccTokenLocator_Ok Ht Heq. simpl in Heq. apply SrvAccTokenLocator_Ok.
  exists (remote s2). rewrite <-Heq. split; [by destruct s2|]. by rewrite bool_decide_eq_false_2 by congruence.
Qed.

(** An unreachable tenant service kills the proxy.  The HTTP client
    reports a failed connection as a nil response and an error; the code reads
    the response's status first, in the goroutine of the cache's promise, where
    no one recovers the panic, so that the first request of a user whose token
    is not cached takes the whole process down. *)
Theorem tenant_outage_crashes (r : Request) (st : CacheState S cacheData) token s1 err w :
  Method r <> "OPTIONS" -> getToken r = Ok token ->
  TokenTypeLocator authURL token (svc st) = (Ret (Ok UserToken), s1) ->
  cache st !! cacheKey token = None ->
  new_request (tenantURL +:+ "/tenant") = None ->
  client_do (mkCall "GET" (tenantURL +:+ "/tenant") (Some ("Bearer " +:+ token)) None) (remote s1) = (Ret (None, err), w) ->
  (OSIOAuth_ServeHTTP proxy r st).1 = Crash nil_dereference.
Proof.
  intros Hm Ht Hk Hc Hn Hdo.
  assert (cacheResolverByToken proxy token UserToken s1 = (Panic nil_dereference, with_remote s1 w)) as Hpanic.
  { unfold cacheResolverByToken, tenant_location, bind_ok, mbind, M_bind. simpl. rewrite on_remote_eq.
    unfold GetTenant, locateTenant, mbind, M_bind. by rewrite (call_nil _ _ _ err w). }
  unfold OSIOAuth_ServeHTTP. simpl. rewrite bool_decide_eq_false_2, Ht by done.
  unfold mbind at 1, M_bind. unfold on_svc at 1, zoom. rewrite Hk.
  unfold retrieve, resolveByToken. rewrite bool_decide_eq_true_2 by done. simpl.
  unfold mbind, M_bind. rewrite cached_miss by (simpl; congruence). simpl. by rewrite Hc, Hpanic.
Qed.

End Wired.

(** ** The configuration of the middleware *)

Definition required_env : list string :=
  ["AUTH_TOKEN_KEY"; "TENANT_URL"; "AUTH_URL"; "SERVICE_ACCOUNT_ID"; "SERVICE_ACCOUNT_SECRET"].

(** The middleware is built exactly when the five variables it needs are
    set, with the locators wired to their values; otherwise it panics, naming
    the first that is missing. *)
Theorem NewPreConfiguredOSIOAuth_spec {Key W} `{!Network W} `{!OpenPGP} `{!JwtLib Key} (getenv : string -> string) :
  NewPreConfiguredOSIOAuth (Key := Key) getenv =
  match list_find (fun v => getenv v = "") required_env with
  | Some (_, v) => Panic ("Missing " +:+ v)
  | None => Ret (NewOSIOAuth getenv (getenv "TENANT_URL") (getenv "AUTH_URL")
                   (getenv "SERVICE_ACCOUNT_ID") (getenv "SERVICE_ACCOUNT_SECRET"))
  end.
Proof.
  unfold NewPreConfiguredOSIOAuth, require_env, required_env. simpl.
  repeat (case_decide; case_bool_decide; try done; simpl).
Qed.


(** ** Sample services

    The world is the log of calls; the auth service answers, the tenant
    service is down. *)
Definition json_reply (j : json) : option HttpResponse * option error := (Some (mkResponse 200 "200 OK" None (Ok j)), None).

Definition sample_service (url : string) : option HttpResponse * option error :=
  if bool_decide (url = "https://auth/token") then json_reply (JObj [("access_token", JStr "sa-token")])
  else if bool_decide (url = "https://auth/token/keys") then json_reply (JObj [("keys", JArr [JStr "k1"])])
  else (None, Some "connection refused").

#[local] Instance sample_network : Network (list HttpCall) := {|
  new_request := fun _ => None;
  client_do := fun c log => (Ret (sample_service (call_url c)), log ++ [c]) |}.

#[local] Instance sample_pgp : OpenPGP := fun s prompt => prompt 0.

(** A token is its key id, the claims those of a user. *)
#[local] Instance sample_jwt : JwtLib unit := {|
  jwt_parse := fun t key => _ ← key (Some (JStr t)); Ok {["sub" := JStr "u1"]};
  jose_key := fun j => match j with JStr s => Ok (s, Some tt) | _ => Err "bad key" end;
  sprint_other := fun _ => "" |}.

#[local] Instance sample_jwt_laws : JwtLaws unit.
Proof.
  refine {| jwt_kid := fun t => Some (JStr t); jwt_signed := fun _ _ claims => claims = {["sub" := JStr "u1"]} |}.
  intros t f claims. simpl. destruct (f (Some (JStr t))) as [key|]; simpl; [|done]. intros [= <-]. by exists key.
Defined.

Definition sample_services : Services unit (list HttpCall) := mkServices "" None [].

Definition sa_after : Services unit (list HttpCall) :=
  (SrvAccTokenLocator (Key := unit) "https://auth" "id" "secret" sample_services).2.

Lemma SrvAccTokenLocator_sticky_witness :
  SrvAccTokenLocator (Key := unit) "https://auth" "id" "secret" sa_after = (Ret (Ok "sa-token"), sa_after).
Proof.
  apply (SrvAccTokenLocator_sticky "https://auth" "id" "secret" sample_services sa_after sa_after).
  - vm_compute. reflexivity.
  - discriminate.
  - reflexivity.
Defined.

Lemma TokenTypeLocator_spec_witness :
  exists keys, publicKeysMap (TokenTypeLocator "https://auth" "k1" sample_services).2 = Some keys /\ keys !! "k1" = Some tt /\
    exists claims, jwt_parse "k1" (keyFunc keys) = Ok claims /\ exists sub, claims !! "sub" = Some (JStr sub).
Proof.
  destruct (TokenTypeLocator_spec "https://auth" "k1" sample_services (Ret (Ok UserToken))
              (TokenTypeLocator "https://auth" "k1" sample_services).2) as [_ Hacc].
  - vm_compute. reflexivity.
  - destruct (Hacc UserToken eq_refl) as (keys & kid & key & claims & Hk & Hkid & _ & Hkey & _ & Hp & Hu & _).
    exists keys. split; [exact Hk|]. injection Hkid as <-. split; [destruct key; exact Hkey|].
    exists claims. split; [exact Hp|]. apply Hu. reflexivity.
Defined.

Definition user_request : Request :=
  mkRequest "GET" (mkURL "" "" "" "/api/api/v1/pods" "" false "") {["Authorization" := ["Bearer k1"]]}
    "proxy" "/api/api/v1/pods" "10.0.0.1:99" false.

Lemma tenant_outage_crashes_witness :
  (OSIOAuth_ServeHTTP (NewOSIOAuth (fun _ => "x") "https://tenant" "https://auth" "id" "secret") user_request
     (mkCacheState ∅ sample_services)).1 = Crash nil_dereference.
Proof.
  apply (tenant_outage_crashes (fun _ => "x") "https://tenant" "https://auth" "id" "secret" user_request
    (mkCacheState ∅ sample_services) "k1" (TokenTypeLocator "https://auth" "k1" sample_services).2
    (Some "connection refused")
    (remote (TokenTypeLocator "https://auth" "k1" sample_services).2 ++
      [mkCall "GET" "https://tenant/tenant" (Some "Bearer k1") None])).
  - discriminate.
  - vm_compute. reflexivity.
  - vm_compute. reflexivity.
  - simpl. apply lookup_empty.
  - reflexivity.
  - vm_compute. reflexivity.
Defined.
