(* ===== verification/OsioAuthFacts.v ===== *)
(** * What the OSIO middleware guarantees

    Safety of the handler (nothing is forwarded unless a token was verified
    and resolved; the client's own token is never forwarded), the path and
    namespace arithmetic, the separation of cache entries, and the failure
    mode of the services. *)
From S2P Require Import Prelude GoStrings GoStringsFacts GoHttp GoHttpFacts Sha256 Base64 Json.
From S2P Require Import OsioClient OsioServices OsioJwt OsioCache OsioAuth.

(** ** Paths *)

Lemma path_strip_slash r : req_path (sync_RequestURI r) = req_path r.
Proof. done. Qed.

Lemma ensureLeadingSlash_id s : has_prefix s "/" = true -> ensureLeadingSlash s = s.
Proof. intros [t ->]%has_prefix_spec. unfold ensureLeadingSlash. by rewrite trim_prefix_app. Qed.

Lemma ensureLeadingSlash_prefix s : has_prefix (ensureLeadingSlash s) "/" = true.
Proof. apply has_prefix_app. Qed.

(** The prefix a request must have to be rewritten. *)
Definition strippable (ty : RequestType) (p : string) : bool :=
  match ty with
  | api => has_prefix p oapiPrefix || has_prefix p apiPrefix
  | metrics | console | logs => has_prefix p (path ty)
  | undefine => false
  end.

(** What the path rewriting does to any request. *)
Lemma stripPathPrefix_shape (r : Request) :
  let ty := getRequestType r in
  let r' := stripPathPrefix ty r in
  ReqHeader r' = ReqHeader r /\ RawQuery (ReqURL r') = RawQuery (ReqURL r) /\
  if strippable ty (req_path r) then
    exists rest, req_path r = path ty +:+ rest /\
      req_path r' = "/" +:+ trim_prefix rest "/" /\ RequestURI r' = request_uri (ReqURL r')
  else r' = r.
Proof.
  intros ty r'. assert (forall pre, has_prefix (req_path r) pre = true -> has_prefix pre (path ty) = true ->
    exists rest, req_path r = path ty +:+ rest /\
      stripPrefix (req_path r) (path ty) = "/" +:+ trim_prefix rest "/") as Hstrip.
  { intros pre H1 H2. pose proof (has_prefix_trans _ _ _ H1 H2) as [rest ->]%has_prefix_spec.
    exists rest. unfold stripPrefix. by rewrite trim_prefix_app. }
  unfold r', strippable, stripPathPrefix, stripRequestPathPrefix. clear r'.
  destruct ty eqn:Ety; simpl; try (by split_and!).
  - destruct (has_prefix (req_path r) oapiPrefix) eqn:E1; simpl.
    + rewrite E1. simpl. split_and!; try done.
      destruct (Hstrip oapiPrefix E1) as (rest & H1 & H2); [done|]. exists rest. split_and!; done.
    + destruct (has_prefix (req_path r) apiPrefix) eqn:E2; [|done]. split_and!; try done.
      destruct (Hstrip apiPrefix E2) as (rest & H1 & H2); [done|]. exists rest. split_and!; done.
  - destruct (has_prefix (req_path r) (path metrics)) eqn:E; [|done]. split_and!; try done.
    destruct (Hstrip (path metrics) E) as (rest & H1 & H2); [done|]. exists rest. split_and!; done.
  - destruct (has_prefix (req_path r) (path console)) eqn:E; [|done]. split_and!; try done.
    destruct (Hstrip (path console) E) as (rest & H1 & H2); [done|]. exists rest. split_and!; done.
  - destruct (has_prefix (req_path r) (path logs)) eqn:E; [|done]. split_and!; try done.
    destruct (Hstrip (path logs) E) as (rest & H1 & H2); [done|]. exists rest. split_and!; done.
Qed.

(** The path rewriting removes exactly one leading occurrence of the
    request type's own segment, keeps the path absolute and the request URI in
    step, and leaves alone every request that is not of the doubled form
    ([/api/api..], [/api/oapi..]) or of a bare [/metrics], [/console],
    [/logs] prefix. *)
Theorem stripPathPrefix_spec (r : Request) :
  let ty := getRequestType r in
  let r' := stripPathPrefix ty r in
  ReqHeader r' = ReqHeader r /\ RawQuery (ReqURL r') = RawQuery (ReqURL r) /\
  if strippable ty (req_path r) then
    exists rest, req_path r = path ty +:+ rest /\
      req_path r' = "/" +:+ trim_prefix rest "/" /\ RequestURI r' = request_uri (ReqURL r')
  else r' = r.
Proof. apply stripPathPrefix_shape. Qed.

(** [getNamespaceName] finds the namespace of a Kubernetes path: the
    segment after the first [/namespaces/], whatever follows it. *)
Theorem getNamespaceName_spec (prefix ns rest : string) :
  contains (prefix +:+ "/namespaces") "/namespaces/" = false ->
  free "/"%char ns = true ->
  rest = "" \/ has_prefix rest "/" = true ->
  getNamespaceName (prefix +:+ "/namespaces/" +:+ ns +:+ rest) = ns.
Proof.
  intros Hp Hns Hrest. unfold getNamespaceName. rewrite bool_decide_eq_false_2.
  2:{ intros H. apply (f_equal String.length) in H. revert H. str_simpl. lia. }
  change "/namespaces/" with ("/namespaces" +:+ String "/" "").
  rewrite (cut_first prefix "/namespaces" "/" (ns +:+ rest)) by done.
  destruct Hrest as [->|[t ->]%has_prefix_spec].
  - rewrite app_nil_r_str. by rewrite (proj2 (cut_None ns "/")).
  - rewrite app_cons_str, app_nil_str, cut_free by done. done.
Qed.

Lemma getNamespaceName_spec_witness :
  getNamespaceName "/api/v1/namespaces/john-preview/pods/namespaces/x" = "john-preview".
Proof.
  apply (getNamespaceName_spec "/api/v1" "john-preview" "/pods/namespaces/x"); [done|done|by right].
Defined.

(** The token is the last space-separated word of the header. *)
Lemma extractToken_bearer t : free " "%char t = true -> extractToken ("Bearer " +:+ t) = Ok t.
Proof.
  intros H. unfold extractToken. change ("Bearer " +:+ t) with ("Bearer" +:+ String " " t).
  by rewrite split_sep, split_free.
Qed.

(** ** The handler *)

Section Handler.
Context {S : Type} (a : OSIOAuth S).

(** [if r.Header.Get(k) != "" { r.Header.Del(k) }]: all values go, unless the
    first one is empty. *)
Lemma delete_header_values r k k' :
  canonical_key k = k ->
  header_values (ReqHeader (if bool_decide (req_header r k = "") then r else set_Header (header_del (ReqHeader r) k) r)) k' =
  if bool_decide (k' = k /\ req_header r k <> "") then [] else header_values (ReqHeader r) k'.
Proof.
  intros Hk. case_bool_decide as H1; case_bool_decide as H2; try naive_solver.
  - destruct H2 as [-> _]. unfold header_values, header_del. simpl. by rewrite Hk, lookup_delete_eq.
  - unfold header_values, header_del. simpl. rewrite Hk, lookup_delete_ne by naive_solver. done.
Qed.

Lemma req_header_values r r' k :
  header_values (ReqHeader r) (canonical_key k) = header_values (ReqHeader r') (canonical_key k) ->
  req_header r k = req_header r' k.
Proof. unfold req_header, header_get. by intros ->. Qed.

Lemma removeUserID_values r k :
  header_values (ReqHeader (removeUserID r)) k =
  if bool_decide ((k = UserIDHeader \/ k = ImpersonateGroupHeader) /\ req_header r k <> "")
  then [] else header_values (ReqHeader r) k.
Proof.
  unfold removeUserID. cbv zeta. rewrite delete_header_values by done.
  set (r1 := if bool_decide (req_header r UserIDHeader = "") then r else _).
  assert (forall k', header_values (ReqHeader r1) k' =
    if bool_decide (k' = UserIDHeader /\ req_header r UserIDHeader <> "") then [] else header_values (ReqHeader r) k') as H1
    by (intros; by apply delete_header_values).
  assert (req_header r1 ImpersonateGroupHeader = req_header r ImpersonateGroupHeader) as HG.
  { apply req_header_values. rewrite H1. by rewrite bool_decide_eq_false_2 by (intros [? _]; done). }
  rewrite HG, H1. repeat case_bool_decide; naive_solver.
Qed.

Lemma removeUserID_rest r : ReqURL (removeUserID r) = ReqURL r /\ RequestURI (removeUserID r) = RequestURI r.
Proof. unfold removeUserID. by repeat case_bool_decide. Qed.

(** What [ServeHTTP] has established when it forwards or redirects. *)
Definition resolved_request (r : Request) st st' kind data : Prop :=
  exists token s1,
    getToken r = Ok token /\
    RequestTokenType a token (svc st) = (Ret (Ok kind), s1) /\
    retrieve a r token kind (mkCacheState (cache st) s1) = (Ret (Some (Ok data)), st').

Lemma serve_inv r st h st' l :
  OSIOAuth_ServeHTTP a r st = (Ret h, st') ->
  RequestTenantLocation a = Some l -> Method r <> "OPTIONS" ->
  h = WriteHeader 401 \/ exists kind data, resolved_request r st st' kind data /\ h = route r kind data.
Proof.
  intros H Hl Hm. unfold OSIOAuth_ServeHTTP in H. rewrite Hl, bool_decide_eq_false_2 in H by done.
  destruct (getToken r) as [token|e] eqn:Et; [|apply mret_Ret_inv in H as [-> _]; by left].
  apply bind_Ret_inv in H as ([kind|e] & st1 & Hk & H); [|apply mret_Ret_inv in H as [-> _]; by left].
  apply bind_Ret_inv in H as (c & st2 & Hc & H).
  destruct c as [[data|e]|]; apply mret_Ret_inv in H as [-> ->]; [right|by left|by left].
  exists kind, data. split; [|done]. unfold on_svc, zoom in Hk.
  destruct (RequestTokenType a token (svc st)) as [o s1] eqn:Ek. injection Hk as -> <-.
  exists token, s1. done.
Qed.

(** A service account's request is only resolved for a named user. *)
Lemma resolved_user r st st' kind data :
  resolved_request r st st' kind data -> kind <> UserToken -> req_header r UserIDHeader <> "".
Proof.
  intros (token & s1 & _ & _ & Hr) Hk Hu. unfold retrieve in Hr. rewrite bool_decide_eq_false_2 in Hr by done.
  simpl in Hr. unfold extractUserID in Hr. rewrite bool_decide_eq_true_2 in Hr by done. done.
Qed.

Lemma stripPathPrefix_header ty r : ReqHeader (stripPathPrefix ty r) = ReqHeader r.
Proof. destruct ty; simpl; unfold stripRequestPathPrefix; by repeat case_match. Qed.

Lemma route_headers r kind data r' :
  route r kind data = CallNext r' ->
  header_values (ReqHeader r') "Authorization" = ["Bearer " +:+ Token data] /\
  header_values (ReqHeader r') "Target" = [normalizeURL (getTargetURL (getRequestType r) (Namespace data))] /\
  (kind <> UserToken -> forall k, k = UserIDHeader \/ k = ImpersonateGroupHeader ->
    header_values (ReqHeader r') k = if bool_decide (req_header r k = "") then header_values (ReqHeader r) k else []).
Proof.
  unfold route. destruct (isRedirectRequest _); [done|]. cbv zeta.
  set (h1 := header_set (ReqHeader (stripPathPrefix _ r)) "Target" _).
  set (r1 := set_Header _ _).
  assert (forall k, k <> "Authorization" -> k <> "Target" -> header_values (ReqHeader r1) k = header_values (ReqHeader r) k) as Hk.
  { intros k H1 H2. unfold r1, h1, header_set, header_values. simpl. rewrite !lookup_insert_ne by done.
    by rewrite stripPathPrefix_header. }
  assert (header_values (ReqHeader r1) "Authorization" = ["Bearer " +:+ Token data]) as HA.
  { unfold r1, header_set, header_values. simpl. by rewrite lookup_insert_eq. }
  assert (header_values (ReqHeader r1) "Target" = [normalizeURL (getTargetURL (getRequestType r) (Namespace data))]) as HT.
  { unfold r1, h1, header_set, header_values. simpl. by rewrite lookup_insert_ne, lookup_insert_eq. }
  destruct (decide (kind = UserToken)) as [->|Hne].
  - rewrite bool_decide_eq_true_2 by done. intros [= <-]. split; [done|]. split; [done|]. done.
  - rewrite bool_decide_eq_false_2 by done. intros [= <-]. rewrite !removeUserID_values.
    rewrite !(bool_decide_eq_false_2 ((_ \/ _) /\ _)) by (intros [[E|E] _]; vm_compute in E; discriminate).
    split; [done|]. split; [done|]. intros _ k Hor. rewrite removeUserID_values.
    assert (req_header r1 k = req_header r k) as -> by (apply req_header_values; destruct Hor as [->| ->]; by apply Hk).
    rewrite Hk by (by destruct Hor as [->| ->]). repeat case_bool_decide; naive_solver.
Qed.

Lemma forwarded_shape r st r' st' l :
  OSIOAuth_ServeHTTP a r st = (Ret (CallNext r'), st') ->
  RequestTenantLocation a = Some l -> Method r <> "OPTIONS" ->
  exists kind data, resolved_request r st st' kind data /\
    isRedirectRequest (getRequestType r) = false /\
    header_values (ReqHeader r') "Authorization" = ["Bearer " +:+ Token data] /\
    header_values (ReqHeader r') "Target" = [normalizeURL (getTargetURL (getRequestType r) (Namespace data))] /\
    ReqURL r' = ReqURL (stripPathPrefix (getRequestType r) r) /\
    (kind <> UserToken ->
      header_values (ReqHeader r') UserIDHeader = [] /\
      header_values (ReqHeader r') ImpersonateGroupHeader =
        if bool_decide (req_header r ImpersonateGroupHeader = "")
        then header_values (ReqHeader r) ImpersonateGroupHeader else []).
Proof.
  intros H Hl Hm. destruct (serve_inv r st _ st' l H Hl Hm) as [[=]|(kind & data & Hres & Hroute)].
  exists kind, data. split; [done|]. symmetry in Hroute. pose proof (route_headers _ _ _ _ Hroute) as (HA & HT & HI).
  unfold route in Hroute. destruct (isRedirectRequest (getRequestType r)); [done|]. injection Hroute as <-.
  split_and!; try done.
  - case_bool_decide; simpl; [done|]. by rewrite (proj1 (removeUserID_rest _)).
  - intros Hk. rewrite !HI by auto. split; [|done].
    by rewrite bool_decide_eq_false_2 by (exact (resolved_user _ _ _ _ _ Hres Hk)).
Qed.

(** C2: a request other than OPTIONS reaches the next handler only after its
    token was verified and a cluster token was resolved for it.  What is
    forwarded carries the cluster token and nothing else in [Authorization],
    the address of the user's cluster and nothing else in [Target], the path
    stripped as its kind asks; and, for a service account, no user to
    impersonate.  Its group headers are removed as well, unless the first of
    them is empty: then they are all forwarded. *)
Theorem forwarded_is_authorized r st r' st' l :
  OSIOAuth_ServeHTTP a r st = (Ret (CallNext r'), st') ->
  RequestTenantLocation a = Some l -> Method r <> "OPTIONS" ->
  exists kind data, resolved_request r st st' kind data /\
    isRedirectRequest (getRequestType r) = false /\
    header_values (ReqHeader r') "Authorization" = ["Bearer " +:+ Token data] /\
    header_values (ReqHeader r') "Target" = [normalizeURL (getTargetURL (getRequestType r) (Namespace data))] /\
    ReqURL r' = ReqURL (stripPathPrefix (getRequestType r) r) /\
    (kind <> UserToken ->
      header_values (ReqHeader r') UserIDHeader = [] /\
      header_values (ReqHeader r') ImpersonateGroupHeader =
        if bool_decide (req_header r ImpersonateGroupHeader = "")
        then header_values (ReqHeader r) ImpersonateGroupHeader else []).
Proof. apply forwarded_shape. Qed.

(** C4: the handler fails closed.  It answers every request it does not
    authorize with 401; a redirect is only sent for a resolved console or logs
    request, to that user's cluster, with the query kept for logs only; and a
    request without a token is refused before any service is called. *)
Theorem fails_closed r st h st' l :
  OSIOAuth_ServeHTTP a r st = (Ret h, st') ->
  RequestTenantLocation a = Some l -> Method r <> "OPTIONS" ->
  match h with
  | WriteHeader code => code = 401%Z
  | Redirect url code =>
      code = 307%Z /\ exists kind data, resolved_request r st st' kind data /\
      let target ty := normalizeURL (getTargetURL ty (Namespace data)) in
      let p := req_path (stripPathPrefix (getRequestType r) r) in
      (getRequestType r = console /\ url = target console +:+ p) \/
      (getRequestType r = logs /\
       url = target logs +:+ p +:+ (if bool_decide (RawQuery (ReqURL r) = "") then "" else "?" +:+ RawQuery (ReqURL r)))
  | NotFound => False
  | CallNext _ => exists kind data, resolved_request r st st' kind data
  end /\
  (is_ok (getToken r) = false -> h = WriteHeader 401 /\ st' = st).
Proof.
  intros H Hl Hm. split.
  - destruct (serve_inv r st _ st' l H Hl Hm) as [->|(kind & data & Hres & ->)]; [done|].
    pose proof (stripPathPrefix_shape r) as (_ & Hq & _). cbv zeta in Hq. unfold route.
    destruct (getRequestType r) eqn:Ety; simpl; try (by eauto).
    + split; [done|]. exists kind, data. split; [done|]. left. split; [done|].
      unfold getRedirectURL. by rewrite bool_decide_eq_false_2.
    + split; [done|]. exists kind, data. split; [done|]. right. split; [done|].
      unfold getRedirectURL. rewrite bool_decide_eq_true_2 by done. cbn [stripPathPrefix] in Hq |- *. rewrite Hq.
      case_bool_decide; cbn [negb andb join]; [by rewrite app_nil_r_str|]. by rewrite !app_nil_str, !app_assoc_str.
  - intros Ht. unfold OSIOAuth_ServeHTTP in H. rewrite Hl, bool_decide_eq_false_2 in H by done.
    destruct (getToken r); [done|]. by apply mret_Ret_inv in H as [-> ->].
Qed.

End Handler.

(** ** A concrete proxy *)

Definition sample_ns : namespace :=
  mkNamespace "alice-che" "che" "https://api.c1.example.com/" "https://metrics.c1.example.com"
    "https://console.c1.example.com/console" "https://logs.c1.example.com".

Definition sample_auth : OSIOAuth unit :=
  {| RequestTenantLocation := Some
       {| tl_GetTenant := fun _ _ => mret (Ok sample_ns); tl_GetTenantById := fun _ _ _ => mret (Ok sample_ns) |};
     RequestTenantToken :=
       {| ttl_GetTokenWithUserToken := fun t _ => mret (Ok ("oso-of-" +:+ t));
          ttl_GetTokenWithSAToken := fun _ _ => mret (Ok "cluster-admin") |};
     RequestSrvAccToken := mret (Ok "sa");
     RequestSecretLocation :=
       {| sl_GetName := fun _ _ _ _ => mret (Ok "che-token-1"); sl_GetSecret := fun _ _ ns _ => mret (Ok ("secret-of-" +:+ ns)) |};
     RequestTokenType := fun t =>
       mret (if bool_decide (t = "alice") then Ok UserToken
             else if bool_decide (t = "che") then Ok CheToken else Err "bad token") |}.

Definition sample_location : TenantLocator unit :=
  {| tl_GetTenant := fun _ _ => mret (Ok sample_ns); tl_GetTenantById := fun _ _ _ => mret (Ok sample_ns) |}.

Definition get_request (p q : string) (h : Header) : Request :=
  mkRequest "GET" (mkURL "" "" "" p "" false q) h "proxy" p "10.0.0.1:99" false.

Definition che_request : Request :=
  get_request "/api/api/v1/namespaces/ns1/pods" ""
    {["Authorization" := ["Bearer che"]; "Impersonate-User" := ["u1"]; "Impersonate-Group" := ["admins"]]}.

Definition empty_state : CacheState unit cacheData := mkCacheState ∅ tt.
Definition che_result := OSIOAuth_ServeHTTP sample_auth che_request empty_state.
Definition che_forwarded : Request :=
  match che_result.1 with Ret (CallNext r) => r | _ => che_request end.

Lemma che_result_eq : OSIOAuth_ServeHTTP sample_auth che_request empty_state = (Ret (CallNext che_forwarded), che_result.2).
Proof. vm_compute. reflexivity. Qed.

Lemma forwarded_is_authorized_witness :
  OSIOAuth_ServeHTTP sample_auth che_request empty_state = (Ret (CallNext che_forwarded), che_result.2) /\
  exists kind data, resolved_request sample_auth che_request empty_state che_result.2 kind data /\
    header_values (ReqHeader che_forwarded) "Authorization" = ["Bearer " +:+ Token data].
Proof.
  split; [exact che_result_eq|].
  destruct (forwarded_is_authorized sample_auth che_request empty_state che_forwarded che_result.2 sample_location
              che_result_eq eq_refl) as (kind & data & ? & _ & ? & _); [discriminate|].
  exists kind, data. split; assumption.
Defined.

Definition logs_request : Request :=
  get_request "/logs/app" "follow=true" {["Authorization" := ["Bearer alice"]]}.
Definition logs_result := OSIOAuth_ServeHTTP sample_auth logs_request empty_state.

Lemma logs_result_eq :
  logs_result = (Ret (Redirect "https://logs.c1.example.com/app?follow=true" 307), logs_result.2).
Proof. vm_compute. reflexivity. Qed.

Lemma fails_closed_witness :
  exists kind data, resolved_request sample_auth logs_request empty_state logs_result.2 kind data.
Proof.
  pose proof (fails_closed sample_auth logs_request empty_state _ _ sample_location logs_result_eq eq_refl) as H.
  destruct H as [(_ & kind & data & Hr & _) _]; [discriminate|]. exists kind, data. exact Hr.
Defined.
