(* ===== verification/OsioIsolation.v ===== *)
(** * Isolation of users in the token cache

    Cache keys are hashes of plain keys, so two requests can only share an
    entry when their plain keys coincide or the hash collides.  Over any set of
    requests on which neither happens, every request is served with the result
    of its own resolver. *)
From S2P Require Import Prelude GoStrings GoStringsFacts GoHttp Sha256.
From S2P Require Import OsioServices OsioCache OsioAuth OsioAuthFacts.

(** ** Cache entries *)

(** What a request is cached under: a user token, or a service account's
    token with the user and the namespace it acts for. *)
Inductive entry :=
  | ByToken (token : string)
  | ByID (token userID namespaceName : string).

Definition plain (e : entry) : string :=
  match e with ByToken t => t | ByID t u n => plainKeyByID t u n end.

Definition entry_key (e : entry) : string := cacheKey (plain e).

(** The entries of [E] are told apart by their keys. *)
Definition separated (E : entry -> Prop) : Prop :=
  forall e1 e2, E e1 -> E e2 -> entry_key e1 = entry_key e2 -> e1 = e2.

(** Plain keys of service-account requests determine the request when users
    and namespaces contain no underscore, as UUIDs and Kubernetes names do. *)
Lemma plainKeyByID_inj t1 u1 n1 t2 u2 n2 :
  free "_"%char u1 = true -> free "_"%char n1 = true ->
  free "_"%char u2 = true -> free "_"%char n2 = true ->
  plainKeyByID t1 u1 n1 = plainKeyByID t2 u2 n2 -> t1 = t2 /\ u1 = u2 /\ n1 = n2.
Proof.
  unfold plainKeyByID. intros Hu1 Hn1 Hu2 Hn2 H.
  rewrite !app_cons_str, !app_nil_str in H.
  assert (forall t u n, t +:+ String "_" (u +:+ String "_" n) = (t +:+ String "_" u) +:+ String "_" n) as Ha.
  { intros. by rewrite app_assoc_str, app_cons_str. }
  rewrite !Ha in H. apply app_sep_inj_r in H as [H ->]; [|done|done].
  by apply app_sep_inj_r in H as [-> ->].
Qed.

(** The underscore is a separator that may also occur in the parts it
    separates: without the condition two requests can share a plain key. *)
Example plainKeyByID_ambiguous : plainKeyByID "tok" "u_x" "n" = plainKeyByID "tok" "u" "x_n".
Proof. reflexivity. Qed.

(** On requests whose user IDs and namespaces contain no underscore, whose
    plain keys do not collide under SHA-256 and where no user token spells
    another request's plain key, different requests have different cache
    keys. *)
Theorem cache_keys_separate (E : entry -> Prop) :
  (forall t u n, E (ByID t u n) -> free "_"%char u = true /\ free "_"%char n = true) ->
  (forall e1 e2, E e1 -> E e2 -> cacheKey (plain e1) = cacheKey (plain e2) -> plain e1 = plain e2) ->
  (forall t t' u n, E (ByToken t) -> E (ByID t' u n) -> t <> plainKeyByID t' u n) ->
  separated E.
Proof.
  intros Hfree Hsha Htok e1 e2 H1 H2 Hk. pose proof (Hsha _ _ H1 H2 Hk) as Hp.
  destruct e1 as [t1|t1 u1 n1], e2 as [t2|t2 u2 n2]; simpl in Hp.
  - congruence.
  - by destruct (Htok _ _ _ _ H1 H2).
  - by destruct (Htok _ _ _ _ H2 H1).
  - destruct (Hfree _ _ _ H1), (Hfree _ _ _ H2).
    by destruct (plainKeyByID_inj t1 u1 n1 t2 u2 n2) as (-> & -> & ->).
Qed.

Definition sample_entries (e : entry) : Prop :=
  e = ByToken "alice.jwt" \/ e = ByToken "bob.jwt" \/ e = ByID "che.jwt" "u1" "ns1" \/ e = ByID "che.jwt" "u1" "ns2".

Lemma cache_keys_separate_witness : separated sample_entries.
Proof.
  apply cache_keys_separate.
  - intros t u n [|[|[|]]]; simplify_eq; done.
  - intros e1 e2 [->|[->|[->| ->]]] [->|[->|[->| ->]]]; try (intros; reflexivity);
      intros H; vm_compute in H; discriminate H.
  - intros t t' u n [|[|[|]]] [|[|[|]]]; simplify_eq; discriminate.
Defined.

(** ** The invariant of the cache *)

Section Isolation.
Context {S : Type} (a : OSIOAuth S).

Abbreviation State := (CacheState S cacheData).

Definition entry_resolver (e : entry) (res : Resolver (S := S) (V := cacheData)) : Prop :=
  match e with
  | ByToken t => res = cacheResolverByToken a t UserToken
  | ByID t u n => exists kind, kind <> UserToken /\ res = cacheResolverByID a t kind u n
  end.

(** [data] is a result of the resolver of [e], at some state of the services. *)
Definition produced (e : entry) (data : cacheData) : Prop :=
  exists res s s', entry_resolver e res /\ res s = (Ret (Ok data), s').

Definition cache_wf (E : entry -> Prop) (st : State) : Prop :=
  forall k p, cache st !! k = Some p ->
    exists e, E e /\ k = entry_key e /\ entry_resolver e (resolver p) /\
      (resolved p = true -> exists data, value p = Some data /\ perr p = None /\ produced e data).

Lemma cache_wf_empty E s : cache_wf E (mkCacheState ∅ s).
Proof. intros k p. simpl. by rewrite lookup_empty. Qed.

Lemma cache_wf_svc E st s : cache_wf E st -> cache_wf E (mkCacheState (cache st) s).
Proof. done. Qed.

Lemma cache_wf_insert E m s e p :
  cache_wf E (mkCacheState m s) -> E e -> entry_resolver e (resolver p) ->
  (resolved p = true -> exists data, value p = Some data /\ perr p = None /\ produced e data) ->
  cache_wf E (mkCacheState (<[entry_key e := p]> m) s).
Proof.
  intros Hwf He Hres Hv k p'. simpl. rewrite lookup_insert_Some. intros [[<- <-]|[? H]].
  - exists e. done.
  - by apply Hwf.
Qed.

(** Looking an entry up keeps the cache well-formed, also when the resolver
    fails or brings the process down. *)
Lemma cached_wf E st e res :
  separated E -> cache_wf E st -> E e -> entry_resolver e res -> cache_wf E (cached zero_cacheData (entry_key e) res st).2.
Proof.
  intros Hsep Hwf He Hres. destruct (cache st !! entry_key e) as [p|] eqn:Ek.
  - destruct (Hwf _ _ Ek) as (e' & He' & Hkey & Hres' & Hv). apply Hsep in Hkey as <-; try done.
    destruct (resolved p) eqn:Er; [by rewrite (cached_hit _ _ _ p)|].
    rewrite cached_miss, Ek by congruence. cbv zeta.
    destruct (resolver p (svc st)) as [[x|?|?] s'] eqn:Ex; simpl; [|by apply cache_wf_svc..].
    apply cache_wf_insert; [done..|]. simpl. destruct x as [data|]; [|done]. intros _. exists data. split_and!; [done..|]. unfold produced. eauto.
  - rewrite cached_miss, Ek by congruence. cbv zeta.
    destruct (res (svc st)) as [[x|?|?] s'] eqn:Ex; simpl; apply cache_wf_insert; try done.
    simpl. destruct x as [data|]; [|done]. intros _. exists data. split_and!; [done..|]. unfold produced. eauto.
Qed.

(** The heart of isolation: an answer from the cache is the entry's own. *)
Lemma cached_own E st st' e res v :
  separated E -> cache_wf E st -> E e -> entry_resolver e res ->
  cached zero_cacheData (entry_key e) res st = (Ret (v, None), st') -> exists data, v = Some data /\ produced e data.
Proof.
  intros Hsep Hwf He Hres Hc. destruct (cache st !! entry_key e) as [p|] eqn:Ek.
  - destruct (Hwf _ _ Ek) as (e' & He' & Hkey & Hres' & Hv). apply Hsep in Hkey as <-; try done.
    destruct (resolved p) eqn:Er.
    + rewrite (cached_hit _ _ _ p) in Hc by done. injection Hc as <- _ _. destruct Hv as (data & ? & _ & ?); eauto.
    + rewrite cached_miss, Ek in Hc by congruence. cbv zeta in Hc.
      destruct (resolver p (svc st)) as [[[data|]|?|?] s'] eqn:Ex; simpl in Hc; try done; injection Hc as <- _;
        exists data; (split; [done|]); unfold produced; eauto.
  - rewrite cached_miss, Ek in Hc by congruence. cbv zeta in Hc.
    destruct (res (svc st)) as [[[data|]|?|?] s'] eqn:Ex; simpl in Hc; try done; injection Hc as <- _;
      exists data; (split; [done|]); unfold produced; eauto.
Qed.

(** The entry a request is served from; [None] when it is not cached. *)
Definition request_entry (r : Request) (token : string) (kind : TokenKind) : entry :=
  if bool_decide (kind = UserToken) then ByToken token
  else ByID token (extractUserID r) (getNamespaceName (req_path r)).

Lemma cache_result_Ok v err data :
  cache_result (v, err) = Ok data -> (forall d, v = Some d -> d = data) /\ err = None.
Proof. destruct v, err; simpl; try done; intros [= <-]; split; congruence. Qed.

(** However a computation ends, the cache is well-formed after it. *)
Definition keeps_wf (E : entry -> Prop) {A} (m : M State A) : Prop := forall st, cache_wf E st -> cache_wf E (m st).2.

Lemma keeps_wf_ret E {A} (x : A) : keeps_wf E (mret x).
Proof. by intros st. Qed.
Lemma keeps_wf_svc E {A} (m : M S A) : keeps_wf E (on_svc m).
Proof. intros st H. unfold on_svc, zoom. destruct (m (svc st)) as [o s']. by apply cache_wf_svc. Qed.
Lemma keeps_wf_bind E {A B} (m : M State A) (f : A -> M State B) st :
  cache_wf E (m st).2 -> (forall x st', m st = (Ret x, st') -> cache_wf E st' -> cache_wf E (f x st').2) -> cache_wf E ((m ≫= f) st).2.
Proof. unfold mbind, M_bind. destruct (m st) as [[x|?|?] st'] eqn:Em; simpl; eauto. Qed.

Lemma retrieve_wf E st r token kind :
  separated E -> cache_wf E st -> E (request_entry r token kind) -> cache_wf E (retrieve a r token kind st).2.
Proof.
  intros Hsep Hwf He. unfold retrieve. unfold request_entry in He. destruct (bool_decide (kind = UserToken)) eqn:Ek; simpl.
  - apply bool_decide_eq_true in Ek as ->. do 2 (apply keeps_wf_bind; [|intros; by apply keeps_wf_ret]).
    by apply (cached_wf E st (ByToken token)).
  - apply bool_decide_eq_false in Ek. case_bool_decide; [done|]. case_bool_decide.
    + apply keeps_wf_bind; [by apply keeps_wf_svc|]. intros. by apply keeps_wf_ret.
    + do 2 (apply keeps_wf_bind; [|intros; by apply keeps_wf_ret]).
      apply (cached_wf E st (ByID token (extractUserID r) (getNamespaceName (req_path r)))); [done..|by exists kind].
Qed.

Lemma retrieve_own E st st' r token kind data :
  separated E -> cache_wf E st -> E (request_entry r token kind) ->
  retrieve a r token kind st = (Ret (Some (Ok data)), st') -> produced (request_entry r token kind) data.
Proof.
  intros Hsep Hwf He H. unfold retrieve in H. unfold request_entry in *.
  destruct (bool_decide (kind = UserToken)) eqn:Ek; simpl in H.
  - apply bool_decide_eq_true in Ek as ->.
    apply bind_Ret_inv in H as (x & st1 & H & [[= <-] ->]%mret_Ret_inv).
    apply bind_Ret_inv in H as ([v err] & st2 & H & [Hd ->]%mret_Ret_inv).
    symmetry in Hd. apply cache_result_Ok in Hd as [Hd ->].
    eapply (cached_own E st st2 (ByToken token)) in H as (d & -> & Hp); [|done..]. by rewrite <-(Hd d).
  - apply bool_decide_eq_false in Ek.
    case_bool_decide as Eu; [by apply mret_Ret_inv in H as [[=] _]|].
    case_bool_decide as En; apply bind_Ret_inv in H as (x & st1 & H & [[= <-] ->]%mret_Ret_inv).
    + unfold resolveByIDWithoutCache, on_svc, zoom in H.
      destruct (cacheResolverByID a token kind (extractUserID r) _ (svc st)) as [o s'] eqn:Er. injection H as -> <-.
      exists (cacheResolverByID a token kind (extractUserID r) (getNamespaceName (req_path r))), (svc st), s'.
      split; [|done]. exists kind. done.
    + apply bind_Ret_inv in H as ([v err] & st2 & H & [Hd ->]%mret_Ret_inv).
      symmetry in Hd. apply cache_result_Ok in Hd as [Hd ->].
      eapply (cached_own E st st2 (ByID token (extractUserID r) (getNamespaceName (req_path r)))) in H as (d & -> & Hp);
        [|done..|by exists kind]. by rewrite <-(Hd d).
Qed.

(** C5: isolation.  Over separated entries, the handler keeps the cache
    well-formed however it ends: with an answer, forwarding, or in a crash.
    What it forwards or redirects, other than an OPTIONS, is routed by the
    result of the resolver of the request's own entry: its own token, and for a
    service account its own user and namespace; a forwarded request carries the
    cluster token of that result. *)
Theorem served_with_own_data (E : entry -> Prop) r st o st' :
  separated E -> cache_wf E st ->
  (forall token kind s1, getToken r = Ok token -> RequestTokenType a token (svc st) = (Ret (Ok kind), s1) ->
       E (request_entry r token kind)) ->
  OSIOAuth_ServeHTTP a r st = (o, st') ->
  cache_wf E st' /\
  forall l h, RequestTenantLocation a = Some l -> Method r <> "OPTIONS" -> o = Ret h ->
    h = WriteHeader 401 \/
    exists token kind s1 data, getToken r = Ok token /\ RequestTokenType a token (svc st) = (Ret (Ok kind), s1) /\
      produced (request_entry r token kind) data /\ h = route r kind data /\
      forall r', h = CallNext r' -> header_values (ReqHeader r') "Authorization" = ["Bearer " +:+ Token data].
Proof.
  intros Hsep Hwf HE H. split.
  - replace st' with (OSIOAuth_ServeHTTP a r st).2 by (by rewrite H). unfold OSIOAuth_ServeHTTP.
    destruct (RequestTenantLocation a); [|done]. case_bool_decide; [done|].
    destruct (getToken r) as [token|] eqn:Et; [|done]. apply keeps_wf_bind; [by apply keeps_wf_svc|].
    intros [kind|] st1 Hk Hwf1; [|done]. apply keeps_wf_bind; [|intros [[]|] ? ? ?; by apply keeps_wf_ret].
    apply retrieve_wf; [done..|]. unfold on_svc, zoom in Hk. destruct (RequestTokenType a token (svc st)) as [o1 s1] eqn:Ek.
    injection Hk as -> _. eauto.
  - intros l h Hl Hm ->. destruct (serve_inv a r st h st' l H Hl Hm) as [->|(kind & data & (token & s1 & Ht & Hk & Hret) & ->)]; [by left|right].
    exists token, kind, s1, data. split_and!; try done.
    + eapply (retrieve_own E); [done| |by eauto|exact Hret]. by apply cache_wf_svc.
    + intros r' Hr. by apply route_headers in Hr as [? _].
Qed.

End Isolation.

Definition che_entries (e : entry) : Prop := e = ByID "che" "u1" "ns1".

Lemma served_with_own_data_witness :
  cache_wf sample_auth che_entries che_result.2 /\
  exists token kind data, getToken che_request = Ok token /\
    produced sample_auth (request_entry che_request token kind) data /\
    header_values (ReqHeader che_forwarded) "Authorization" = ["Bearer " +:+ Token data].
Proof.
  destruct (served_with_own_data sample_auth che_entries che_request empty_state (Ret (CallNext che_forwarded)) che_result.2) as [Hwf H].
  - intros e1 e2 -> -> _. reflexivity.
  - apply cache_wf_empty.
  - intros token kind s1 Ht Hk. vm_compute in Ht. injection Ht as <-. vm_compute in Hk. injection Hk as <- _.
    vm_compute. reflexivity.
  - exact che_result_eq.
  - split; [exact Hwf|]. destruct (H sample_location (CallNext che_forwarded)) as [[=]|(token & kind & s1 & data & Ht & _ & Hp & _ & Hh)];
      [reflexivity|discriminate|reflexivity|]. exists token, kind, data. split; [exact Ht|]. split; [exact Hp|by apply Hh].
Defined.
