(* ===== verification/GoStrconv.v ===== *)
(** * Go's [strconv]: numbers and booleans in text

    [Atoi], [ParseInt(s, 10, 64)], [ParseUint(s, 10, 64)] and [ParseBool].  An
    [int] is a 64-bit two's complement integer.  The message of a parse error
    names the function and the kind of error; the quoted input is left out. *)
From S2P Require Import Prelude GoStrings GoStringsFacts.
Local Open Scope Z_scope.

Definition max_uint64 : Z := 2 ^ 64 - 1.
Definition min_int64 : Z := - 2 ^ 63.
Definition max_int64 : Z := 2 ^ 63 - 1.
Definition in_int64 (n : Z) : bool := (min_int64 <=? n) && (n <=? max_int64).

Definition ErrSyntax : error := "invalid syntax".
Definition ErrRange : error := "value out of range".

Definition digit_value (c : ascii) : Z := byte_of c - 48.

(** The loop of [ParseUint], in base 10: a digit that overflows ends it. *)
Fixpoint parse_uint_loop (s : string) (n : Z) : result Z :=
  match s with
  | "" => Ok n
  | String c s' =>
      if negb (is_digit c) then Err ErrSyntax else
      if n >=? max_uint64 / 10 + 1 then Err ErrRange else
      let n1 := n * 10 + digit_value c in
      if n1 >? max_uint64 then Err ErrRange else parse_uint_loop s' n1
  end.

Definition ParseUint (s : string) : result Z :=
  if bool_decide (s = "") then Err ErrSyntax else parse_uint_loop s 0.

Definition unsign (s : string) : bool * string :=
  match s with
  | String "+" s' => (false, s')
  | String "-" s' => (true, s')
  | _ => (false, s)
  end%char.

Definition ParseInt (s : string) : result Z :=
  if bool_decide (s = "") then Err ErrSyntax else
  let '(neg, digits) := unsign s in
  un ← ParseUint digits;
  if negb neg && (un >=? 2 ^ 63) then Err ErrRange else
  if neg && (un >? 2 ^ 63) then Err ErrRange else
  mret (if neg then - un else un).

(** [strconv.Atoi]: [ParseInt] in the width of [int]. *)
Definition Atoi (s : string) : result Z := ParseInt s.

Definition ParseBool (s : string) : result bool :=
  if bool_decide (s ∈ ["1"; "t"; "T"; "TRUE"; "true"; "True"]) then Ok true
  else if bool_decide (s ∈ ["0"; "f"; "F"; "FALSE"; "false"; "False"]) then Ok false
  else Err ErrSyntax.

(** ** Facts *)

Lemma parse_uint_loop_bounds s n m :
  0 <= n <= max_uint64 -> parse_uint_loop s n = Ok m -> 0 <= m <= max_uint64.
Proof.
  revert n. induction s as [|c s IH]; intros n Hn; simpl; [by intros [= <-]|].
  destruct (is_digit c) eqn:Hd; [|done]. destruct (_ >=? _); [done|].
  destruct (n * 10 + digit_value c >? max_uint64) eqn:Hgt; [done|]. apply IH.
  unfold is_digit, in_range in Hd. unfold digit_value in *. lia.
Qed.

(** What [ParseInt] accepts is an [int64]. *)
Lemma ParseInt_bounds s n : ParseInt s = Ok n -> in_int64 n = true.
Proof.
  unfold ParseInt, in_int64, min_int64, max_int64. case_bool_decide; [done|].
  destruct (unsign s) as [neg d]. destruct (ParseUint d) as [un|] eqn:Hu; [|done]. simpl.
  assert (0 <= un <= max_uint64) as Hb.
  { unfold ParseUint in Hu. case_bool_decide; [done|].
    eapply parse_uint_loop_bounds, Hu. unfold max_uint64. lia. }
  destruct neg; simpl; [destruct (un >? 2 ^ 63) eqn:E|destruct (un >=? 2 ^ 63) eqn:E]; try done;
    intros [= <-]; lia.
Qed.

Lemma ParseInt_samples :
  ParseInt "9223372036854775807" = Ok max_int64 /\ ParseInt "9223372036854775808" = Err ErrRange /\
  ParseInt "-9223372036854775808" = Ok min_int64 /\ ParseInt "+7" = Ok 7 /\ ParseInt "-" = Err ErrSyntax /\
  ParseInt "99999999999999999999x" = Err ErrRange /\ ParseInt "9x" = Err ErrSyntax.
Proof. vm_compute. split_and!; reflexivity. Qed.

(** A run of digits, most significant first. *)
Fixpoint decimal_value (s : string) (n : Z) : Z :=
  match s with "" => n | String c s' => decimal_value s' (n * 10 + digit_value c) end.

Lemma decimal_value_mono s n : str_forall is_digit s = true -> 0 <= n -> n <= decimal_value s n.
Proof.
  revert n. induction s as [|c s IH]; intros n Hs Hn; simpl in *; [lia|].
  apply andb_true_iff in Hs as [Hd Hs]. unfold is_digit, in_range in Hd. unfold digit_value.
  specialize (IH (n * 10 + (byte_of c - 48)) Hs). lia.
Qed.

Lemma parse_uint_loop_digits s n :
  str_forall is_digit s = true -> 0 <= n -> decimal_value s n <= max_uint64 ->
  parse_uint_loop s n = Ok (decimal_value s n).
Proof.
  revert n. induction s as [|c s IH]; intros n Hs Hn Hmax; simpl in *; [done|].
  apply andb_true_iff in Hs as [Hd Hs]. rewrite Hd. simpl.
  pose proof Hd as Hd'. unfold is_digit, in_range in Hd'.
  assert (0 <= digit_value c <= 9) by (unfold digit_value; lia).
  pose proof (decimal_value_mono s (n * 10 + digit_value c) Hs ltac:(lia)).
  unfold max_uint64 in *. change ((2 ^ 64 - 1) / 10 + 1) with 1844674407370955162; destruct (n >=? _) eqn:E1; [lia|]. destruct (_ >? _) eqn:E2; [lia|].
  apply IH; auto; lia.
Qed.

(** A number spelled in decimal is read back. *)
Lemma ParseInt_digits s :
  str_forall is_digit s = true -> s <> "" -> decimal_value s 0 <= max_int64 ->
  ParseInt s = Ok (decimal_value s 0).
Proof.
  intros Hs Hne Hmax. unfold ParseInt. rewrite bool_decide_eq_false_2 by done.
  assert (unsign s = (false, s)) as ->.
  { destruct s as [|c s]; [done|]. simpl in Hs. apply andb_true_iff in Hs as [Hd _]. simpl.
    destruct c as [[] [] [] [] [] [] [] []]; try done; discriminate Hd. }
  unfold ParseUint. rewrite bool_decide_eq_false_2 by done. unfold max_int64 in Hmax.
  rewrite parse_uint_loop_digits by (try done; unfold max_uint64; lia). simpl.
  destruct (_ >=? _) eqn:E; [lia|]. done.
Qed.
