(* ===== verification/Types.v ===== *)
(** * [types/types.go]: the dynamic configuration and its parsers

    A configuration maps frontend names to frontends and backend names to
    backends; a frontend's routes carry rules, its [Backend] names one of the
    backends.  Pointers of the source are options.  With the data come the
    small parsers of the package: constraints, HTTP code ranges, the
    load-balancer method and the client side of TLS. *)
From S2P Require Import Prelude GoStrings GoStringsFacts GoStrconv.

(** ** Backends *)

Record MaxConn := mkMaxConn { Amount : Z; mc_ExtractorFunc : string }.
Record Stickiness := mkStickiness { CookieName : string }.
Record LoadBalancer := mkLoadBalancer {
  lb_Method : string;
  Sticky : bool;
  lb_Stickiness : option Stickiness;
}.
Record CircuitBreaker := mkCircuitBreaker { Expression : string }.
Record Buffering := mkBuffering {
  MaxRequestBodyBytes : Z;
  MemRequestBodyBytes : Z;
  MaxResponseBodyBytes : Z;
  MemResponseBodyBytes : Z;
  RetryExpression : string;
}.
Record HealthCheck := mkHealthCheck { hc_Path : string; hc_Port : Z; Interval : string }.
Record Server := mkServer { URL : string; Weight : Z }.
Record Backend := mkBackend {
  Servers : gmap string Server;
  be_CircuitBreaker : option CircuitBreaker;
  be_LoadBalancer : option LoadBalancer;
  be_MaxConn : option MaxConn;
  be_HealthCheck : option HealthCheck;
  be_Buffering : option Buffering;
}.

(** ** Frontends *)

Record WhiteList := mkWhiteList { SourceRange : list string; UseXForwardedFor : bool }.
Record Route := mkRoute { Rule : string }.
Record ErrorPage := mkErrorPage { ep_Status : list string; ep_Backend : string; ep_Query : string }.
(** A period is a number of nanoseconds. *)
Record Rate := mkRate { Period : Z; Average : Z; Burst : Z }.
Record RateLimit := mkRateLimit { RateSet : gmap string Rate; rl_ExtractorFunc : string }.
Record Redirect := mkRedirect {
  rd_EntryPoint : string;
  rd_Regex : string;
  Replacement : string;
  Permanent : bool;
}.
Record Headers := mkHeaders {
  CustomRequestHeaders : gmap string string;
  CustomResponseHeaders : gmap string string;
  AllowedHosts : list string;
  HostsProxyHeaders : list string;
  SSLRedirect : bool;
  SSLTemporaryRedirect : bool;
  SSLHost : string;
  SSLProxyHeaders : gmap string string;
  STSSeconds : Z;
  STSIncludeSubdomains : bool;
  STSPreload : bool;
  ForceSTSHeader : bool;
  FrameDeny : bool;
  CustomFrameOptionsValue : string;
  ContentTypeNosniff : bool;
  BrowserXSSFilter : bool;
  CustomBrowserXSSValue : string;
  ContentSecurityPolicy : string;
  h_PublicKey : string;
  ReferrerPolicy : string;
  IsDevelopment : bool;
}.
Record Frontend := mkFrontend {
  EntryPoints : list string;
  fe_Backend : string;
  Routes : gmap string Route;
  PassHostHeader : bool;
  PassTLSCert : bool;
  Priority : Z;
  BasicAuth : list string;
  WhitelistSourceRange : list string;
  fe_WhiteList : option WhiteList;
  fe_Headers : option Headers;
  Errors : gmap string ErrorPage;
  fe_RateLimit : option RateLimit;
  fe_Redirect : option Redirect;
}.

(** [&types.Frontend{Backend: b, Routes: r}] and [&types.Backend{Servers: s}] *)
Definition frontend_of (b : string) (r : gmap string Route) : Frontend :=
  mkFrontend [] b r false false 0 [] [] None None ∅ None None.
Definition backend_of (s : gmap string Server) : Backend := mkBackend s None None None None None.

(** A configuration; a TLS certificate of it is the path or content of a pair
    and the entry points it is for ([tls.Configuration]). *)
Record TLSConfiguration := mkTLSConfiguration {
  tls_EntryPoints : list string;
  tls_Certificate : option (string * string);
}.
Record Configuration := mkConfiguration {
  Backends : gmap string Backend;
  Frontends : gmap string Frontend;
  TLSConfigs : list TLSConfiguration;
}.
Definition Configurations : Type := gmap string Configuration.

Record ConfigMessage := mkConfigMessage { ProviderName : string; msg_Configuration : option Configuration }.

Definition HasCustomHeadersDefined (h : option Headers) : bool :=
  match h with
  | None => false
  | Some h =>
      negb (bool_decide (size (CustomResponseHeaders h) = 0)) ||
      negb (bool_decide (size (CustomRequestHeaders h) = 0))
  end.

Definition nonempty (s : string) : bool := negb (bool_decide (s = "")).

Definition HasSecureHeadersDefined (h : option Headers) : bool :=
  match h with
  | None => false
  | Some h =>
      negb (bool_decide (length (AllowedHosts h) = 0)) ||
      negb (bool_decide (length (HostsProxyHeaders h) = 0)) ||
      SSLRedirect h || SSLTemporaryRedirect h || nonempty (SSLHost h) ||
      negb (bool_decide (size (SSLProxyHeaders h) = 0)) ||
      negb (STSSeconds h =? 0)%Z || STSIncludeSubdomains h || STSPreload h || ForceSTSHeader h ||
      FrameDeny h || nonempty (CustomFrameOptionsValue h) || ContentTypeNosniff h ||
      BrowserXSSFilter h || nonempty (CustomBrowserXSSValue h) || nonempty (ContentSecurityPolicy h) ||
      nonempty (h_PublicKey h) || nonempty (ReferrerPolicy h) || IsDevelopment h
  end.

(** ** The load-balancer method *)

Inductive LoadBalancerMethod := Wrr | Drr.

Definition loadBalancerMethodNames : list (string * LoadBalancerMethod) := [("Wrr", Wrr); ("Drr", Drr)].

(** The method is usable whatever the error says. *)
Definition NewLoadBalancerMethod (lb : option LoadBalancer) : LoadBalancerMethod * option error :=
  match lb with
  | None => (Wrr, Some "no load-balancer defined, fallback to 'wrr' method")
  | Some lb =>
      if bool_decide (lb_Method lb = "") then (Wrr, Some "no load-balancing method defined, fallback to 'wrr' method") else
      match list_find (fun m => equal_fold m.1 (lb_Method lb) = true) loadBalancerMethodNames with
      | Some (_, m) => (m.2, None)
      | None => (Wrr, Some "invalid load-balancing method, fallback to 'wrr' method")
      end
  end.

(** ** Constraints *)

Record Constraint := mkConstraint { Key : string; MustMatch : bool; Regex : string }.

Definition NewConstraint (exp : string) : result Constraint :=
  sm ← (if contains exp "==" then Ok ("==", true)
        else if contains exp "!=" then Ok ("!=", false)
        else Err "constraint expression missing valid operator: '==' or '!='");
  let '(sep, must) := sm in
  match split2 exp sep with
  | [k; v] =>
      if negb (bool_decide (k = "tag")) then Err "constraint must be tag-based. Syntax: tag==us-*"
      else Ok (mkConstraint k must v)
  | _ => Err ("incorrect constraint expression: " +:+ exp)
  end.

Definition Constraint_String (c : Constraint) : string :=
  if MustMatch c then Key c +:+ "==" +:+ Regex c else Key c +:+ "!=" +:+ Regex c.

Definition MarshalText (c : Constraint) : result string := Ok (Constraint_String c).
Definition UnmarshalText (c : Constraint) (text : string) : result Constraint :=
  constraint ← NewConstraint text; mret (mkConstraint (Key constraint) (MustMatch constraint) (Regex constraint)).

(** [cs.Set(str)]: the constraints before a bad one are kept. *)
Fixpoint Set_loop (exps : list string) (cs : list Constraint) : list Constraint * option error :=
  match exps with
  | [] => (cs, None)
  | exp :: exps' =>
      match NewConstraint exp with
      | Err err => (cs, Some err)
      | Ok c => Set_loop exps' (cs ++ [c])
      end
  end.
Definition Constraints_Set (cs : list Constraint) (str : string) : list Constraint * option error :=
  Set_loop (split str ",") cs.

(** ** Globs

    [vendor/github.com/ryanuber/go-glob], the matcher of the constraints. *)

(** The loop over the parts but the last: the part is searched from the left,
    the first one at the start unless the pattern starts with a star. *)
Fixpoint glob_loop (leadingGlob first : bool) (parts : list string) (subj : string) : option (string * string) :=
  match parts with
  | [] => None
  | [part] => Some (subj, part)
  | part :: parts' =>
      match cut subj part with
      | None => None
      | Some (before, after) =>
          if first && negb leadingGlob && negb (bool_decide (before = "")) then None
          else glob_loop leadingGlob false parts' after
      end
  end.

Definition Glob (pattern subj : string) : bool :=
  if bool_decide (pattern = "") then bool_decide (subj = pattern) else
  if bool_decide (pattern = "*") then true else
  let parts := split pattern "*" in
  if bool_decide (length parts = 1) then bool_decide (subj = pattern) else
  let leadingGlob := has_prefix pattern "*" in
  let trailingGlob := has_suffix pattern "*" in
  match glob_loop leadingGlob true parts subj with
  | None => false
  | Some (subj, part) => trailingGlob || has_suffix subj part
  end.

Definition MatchConstraintWithAtLeastOneTag (c : Constraint) (tags : list string) : bool :=
  existsb (fun tag => Glob (Regex c) tag) tags.

(** ** HTTP code ranges *)

Definition HTTPCodeRanges : Type := list (Z * Z).

Definition code_range (block : string) : result (Z * Z) :=
  let codes := split block "-" in
  let codes := if bool_decide (length codes = 1) then codes ++ [hd "" codes] else codes in
  lowCode ← Atoi (codes !!! 0);
  highCode ← Atoi (codes !!! 1);
  mret (lowCode, highCode).

Fixpoint NewHTTPCodeRanges (strBlocks : list string) : result HTTPCodeRanges :=
  match strBlocks with
  | [] => Ok []
  | block :: strBlocks' => b ← code_range block; bs ← NewHTTPCodeRanges strBlocks'; mret (b :: bs)
  end.

Definition HTTPCodeRanges_Contains (h : HTTPCodeRanges) (statusCode : Z) : bool :=
  existsb (fun block => (statusCode >=? block.1)%Z && (statusCode <=? block.2)%Z) h.

(** ** Authentication data *)

Record ClientTLS := mkClientTLS {
  CA : string;
  CAOptional : bool;
  Cert : string;
  TLSKey : string;
  InsecureSkipVerify : bool;
}.
Record UsersAuth := mkUsersAuth { Users : list string; UsersFile : string }.
Record Forward := mkForward { Address : string; fwd_TLS : option ClientTLS; TrustForwardHeader : bool }.
Record Auth := mkAuth {
  Basic : option UsersAuth;
  Digest : option UsersAuth;
  au_Forward : option Forward;
  HeaderField : string;
}.

Definition CanonicalDomain (domain : string) : string := to_lower (trim_space domain).

(** ** The client side of TLS

    The file system and the X.509 library are parameters. *)
Class TLSFiles (Certificate : Type) := {
  file_exists : string -> bool;
  ReadFile : string -> result string;
  LoadX509KeyPair : string -> string -> result Certificate;
  X509KeyPair : string -> string -> result Certificate;
}.

Inductive ClientAuthType := NoClientCert | VerifyClientCertIfGiven | RequireAndVerifyClientCert.

(** A pool is the PEM data appended to it; [Certificates] holds one
    certificate, empty when none was loaded. *)
Record TLSConfig (Certificate : Type) := mkTLSConfig {
  Certificates : option Certificate;
  RootCAs : list string;
  cfg_InsecureSkipVerify : bool;
  ClientAuth : ClientAuthType;
}.
Arguments mkTLSConfig {Certificate}.
Arguments Certificates {Certificate}.
Arguments RootCAs {Certificate}.
Arguments cfg_InsecureSkipVerify {Certificate}.
Arguments ClientAuth {Certificate}.

Section CreateTLSConfig.
Context {Certificate : Type} `{!TLSFiles Certificate}.

Definition load_ca (c : ClientTLS) : result (list string * ClientAuthType) :=
  if bool_decide (CA c = "") then Ok ([], NoClientCert) else
  ca ← (if file_exists (CA c)
        then match ReadFile (CA c) with Err err => Err ("failed to read CA. " +:+ err) | r => r end
        else Ok (CA c));
  mret ([ca], if CAOptional c then VerifyClientCertIfGiven else RequireAndVerifyClientCert).

Definition keypair_error (r : result Certificate) : result (option Certificate) :=
  match r with Ok cert => Ok (Some cert) | Err err => Err ("failed to load TLS keypair: " +:+ err) end.

Definition load_cert (c : ClientTLS) : result (option Certificate) :=
  if nonempty (Cert c) && nonempty (TLSKey c) then
    if file_exists (Cert c) then
      if file_exists (TLSKey c) then keypair_error (LoadX509KeyPair (Cert c) (TLSKey c))
      else Err "tls cert is a file, but tls key is not"
    else
      if file_exists (TLSKey c) then Err "TLS key is a file, but tls cert is not"
      else keypair_error (X509KeyPair (Cert c) (TLSKey c))
  else Ok None.

(** A nil [clientTLS] gives a nil configuration and no error. *)
Definition CreateTLSConfig (clientTLS : option ClientTLS) : result (option (TLSConfig Certificate)) :=
  match clientTLS with
  | None => Ok None
  | Some c =>
      ca ← load_ca c;
      if negb (InsecureSkipVerify c) && (negb (nonempty (Cert c)) || negb (nonempty (TLSKey c)))
      then Err "TLS Certificate or Key file must be set when TLS configuration is created" else
      cert ← load_cert c;
      mret (Some (mkTLSConfig cert ca.1 (InsecureSkipVerify c) ca.2))
  end.

End CreateTLSConfig.
