(* ===== verification/TypesFacts.v ===== *)
(** * Properties of the parsers of [types]

    Constraints print to the text they were read from; the glob matcher is the
    declarative one; the HTTP code ranges contain what their text says; the
    TLS client configuration is refused exactly when its parts do not fit. *)
From S2P Require Import Prelude GoStrings GoStringsFacts GoStrconv Types.

(** ** Constraints *)

Lemma contains_app_l a b sep : contains b sep = true -> contains (a +:+ b) sep = true.
Proof.
  intros H. induction a as [|c a IH]; [done|]. rewrite app_cons_str, contains_cons. by rewrite IH, orb_true_r.
Qed.

Lemma split2_cut s sep : split2 s sep = match cut s sep with Some (a, b) => [a; b] | None => [s] end.
Proof. done. Qed.

Lemma NewConstraint_print exp c : NewConstraint exp = Ok c -> Key c = "tag" /\ Constraint_String c = exp.
Proof.
  unfold NewConstraint. destruct (contains exp "==") eqn:E1; simpl.
  2: destruct (contains exp "!=") eqn:E2; simpl; [|done].
  all: rewrite split2_cut; destruct (cut exp _) as [[k v]|] eqn:E; [|done];
    case_bool_decide as Hk; [|done]; intros [= <-]; subst k; apply cut_Some in E as ->; done.
Qed.

Lemma NewConstraint_equal v : NewConstraint ("tag==" +:+ v) = Ok (mkConstraint "tag" true v).
Proof. done. Qed.

Lemma contains_ne_eq v : contains ("tag!=" +:+ v) "==" = contains ("=" +:+ v) "==".
Proof.
  change ("tag!=" +:+ v) with (String "t" (String "a" (String "g" (String "!" ("=" +:+ v))))).
  by rewrite !contains_cons.
Qed.

Lemma NewConstraint_unequal v :
  contains ("=" +:+ v) "==" = false -> NewConstraint ("tag!=" +:+ v) = Ok (mkConstraint "tag" false v).
Proof. intros H. unfold NewConstraint. by rewrite contains_ne_eq, H. Qed.

(** Reading a constraint loses nothing: printing it gives back the text it
    was read from, so that marshalling and unmarshalling are inverse on
    constraints that were read; and a constraint made by hand survives the
    round trip exactly when it is tag-based and, if it is a [!=] one, its
    printed form does not contain [==]. *)
Theorem constraint_roundtrip :
  (forall exp c, NewConstraint exp = Ok c ->
     MarshalText c = Ok exp /\ forall c0, UnmarshalText c0 exp = Ok c) /\
  (forall c, NewConstraint (Constraint_String c) = Ok c <->
     Key c = "tag" /\ (MustMatch c = true \/ contains ("=" +:+ Regex c) "==" = false)).
Proof.
  split.
  - intros exp c H. unfold MarshalText, UnmarshalText. rewrite H.
    apply NewConstraint_print in H as [_ ->]. split; [done|]. by destruct c.
  - intros [k m v]. unfold Constraint_String. cbn [Key MustMatch Regex]. split.
    + intros H. pose proof (NewConstraint_print _ _ H) as [Hk _]. simpl in Hk. subst k. split; [done|].
      destruct m; [by left|right]. destruct (contains ("=" +:+ v) "==") eqn:E; [|done].
      exfalso. revert H. unfold NewConstraint. rewrite (contains_ne_eq v : contains ("tag" +:+ "!=" +:+ v) "==" = _), E.
      simpl. rewrite split2_cut. destruct (cut _ _) as [[k' v']|]; [|done]. by case_bool_decide.
    + intros [-> [->|Hc]]; [apply NewConstraint_equal|].
      destruct m; [apply NewConstraint_equal|by apply NewConstraint_unequal].
Qed.

(** ** Globs *)

(** The text is the pieces in order, the first at its start, the last at its
    end, with any text in the gaps. *)
Fixpoint pieces_match (parts : list string) (s : string) : Prop :=
  match parts with
  | [] => False
  | [p] => s = p
  | p :: parts' => exists x y, s = p +:+ x +:+ y /\ pieces_match parts' y
  end.

(** The pieces, the first of them anywhere. *)
Definition floating (parts : list string) (s : string) : Prop :=
  exists x y, s = x +:+ y /\ pieces_match parts y.

Lemma floating_app parts x s : floating parts s -> floating parts (x +:+ s).
Proof. intros (x' & y & -> & H). exists (x +:+ x'), y. by rewrite app_assoc_str. Qed.

Lemma pieces_cons p parts s :
  parts <> [] -> pieces_match (p :: parts) s <-> exists r, s = p +:+ r /\ floating parts r.
Proof.
  intros Hne. destruct parts as [|q parts]; [done|]. cbn [pieces_match]. unfold floating.
  split; [intros (x & y & -> & H)|intros (r & -> & x & y & -> & H)]; eauto 10.
Qed.

Lemma floating_last p s : floating [p] s <-> has_suffix s p = true.
Proof.
  unfold floating. simpl. rewrite has_suffix_spec. split; [intros (x & y & -> & ->)|intros [x ->]]; eauto.
Qed.

(** The first occurrence leaves the longest rest. *)
Lemma cut_leftmost s p x r :
  s = x +:+ p +:+ r -> exists a b z, cut s p = Some (a, b) /\ b = z +:+ r.
Proof.
  revert s. induction x as [|c x IH]; intros s ->.
  - exists "", r, "". rewrite app_nil_str.
    assert (cut (p +:+ r) p = Some ("", r)) as ->; [|done].
    destruct (p +:+ r) as [|c s] eqn:E; cbn [cut]; by rewrite <-E, strip_prefix_app.
  - rewrite app_cons_str. cbn [cut]. destruct (strip_prefix p (String c _)) as [b|] eqn:E.
    + apply strip_prefix_Some in E. destruct (IH _ eq_refl) as (a & b' & z & Hcut & Hz).
      exists "", b. assert (exists z, b = z +:+ r) as [z' ->]; [|eauto].
      clear -E. assert (exists u, String c (x +:+ p +:+ r) = u +:+ r /\ String.length p <= String.length u) as (u & Hu & Hlen).
      { exists (String c (x +:+ p)). split; [by rewrite app_cons_str, app_assoc_str|].
        simpl. rewrite length_app_str. lia. }
      rewrite Hu in E. assert (has_prefix u p = true) as [z ->]%has_prefix_spec.
      { eapply has_prefix_app_length; [|done]. rewrite E. apply has_prefix_app. }
      rewrite app_assoc_str in E. apply app_inv_l in E. by exists z.
    + destruct (IH _ eq_refl) as (a & b & z & -> & ->). exists (String c a), (z +:+ r), z. done.
Qed.

Lemma floating_cons p parts s :
  parts <> [] ->
  floating (p :: parts) s <-> exists a b, cut s p = Some (a, b) /\ floating parts b.
Proof.
  intros Hne. split.
  - intros (x & y & -> & (r & -> & Hr)%pieces_cons); [|done].
    destruct (cut_leftmost (x +:+ p +:+ r) p x r eq_refl) as (a & b & z & -> & ->).
    exists a, (z +:+ r). split; [done|by apply floating_app].
  - intros (a & b & Hcut%cut_Some & Hb). rewrite Hcut. apply floating_app. exists "", (p +:+ b).
    split; [done|]. apply pieces_cons; eauto.
Qed.

Lemma glob_loop_cons lead first p parts s :
  parts <> [] ->
  glob_loop lead first (p :: parts) s =
  match cut s p with
  | None => None
  | Some (before, after) =>
      if first && negb lead && negb (bool_decide (before = "")) then None else glob_loop lead false parts after
  end.
Proof. by destruct parts. Qed.

Lemma glob_loop_floating lead parts s :
  parts <> [] ->
  (exists subj p, glob_loop lead false parts s = Some (subj, p) /\ has_suffix subj p = true) <-> floating parts s.
Proof.
  revert s. induction parts as [|p [|q parts] IH]; intros s Hne; [done| |].
  - rewrite floating_last. simpl. split; [intros (? & ? & [= <- <-] & ?); done|eauto].
  - rewrite floating_cons by done. rewrite glob_loop_cons by done. destruct (cut s p) as [[a b]|].
    + rewrite andb_false_l. rewrite IH by done. split; [eauto|by intros (? & ? & [= <- <-] & ?)].
    + split; [by intros (? & ? & ? & ?)|by intros (? & ? & ? & ?)].
Qed.

Lemma glob_loop_last lead first parts s subj p :
  glob_loop lead first parts s = Some (subj, p) -> list.last parts = Some p.
Proof.
  revert first s. induction parts as [|q [|r parts] IH]; intros first s; cbn [glob_loop]; [done|by intros [= _ <-]|].
  destruct (cut s q) as [[a b]|]; [|done]. destruct (_ && _); [done|]. intros H. by apply IH in H.
Qed.

Lemma split_star_suffix s : list.last (split (s +:+ "*") "*") = Some "".
Proof.
  induction s as [s IH] using string_length_ind.
  destruct (split_cases "*" s) as [[Hf _]|(a & b & -> & Hf & _)].
  - rewrite (split_sep "*" s "") by done. done.
  - rewrite app_assoc_str, app_cons_str, split_sep by done.
    rewrite last_cons. rewrite IH; [done|]. str_simpl. simpl. lia.
Qed.

Lemma cut_prefix p r : cut (p +:+ r) p = Some ("", r).
Proof. destruct (p +:+ r) as [|c s] eqn:E; cbn [cut]; by rewrite <-E, strip_prefix_app. Qed.

(** The first piece: anchored, or empty when the pattern starts with a star. *)
Lemma glob_loop_first lead p parts s :
  parts <> [] -> (lead = true -> p = "") ->
  (exists subj q, glob_loop lead true (p :: parts) s = Some (subj, q) /\ has_suffix subj q = true) <->
  pieces_match (p :: parts) s.
Proof.
  intros Hne Hlead. rewrite glob_loop_cons, pieces_cons by done.
  destruct (has_prefix s p) eqn:Ep.
  - apply has_prefix_spec in Ep as [r ->]. rewrite cut_prefix, bool_decide_eq_true_2 by done.
    rewrite andb_false_r, glob_loop_floating by done.
    split; [eauto|]. intros (r' & Hr & ?). by apply app_inv_l in Hr as ->.
  - assert (~ exists r, s = p +:+ r /\ floating parts r) as Hno.
    { intros (r & -> & _). by rewrite has_prefix_app in Ep. }
    split; [|done]. intros (subj & q & Hl & _). destruct (cut s p) as [[x y]|] eqn:Ecut; [|done].
    apply cut_Some in Ecut as ->. destruct lead; [by rewrite Hlead in Ep by done|].
    case_bool_decide; [|done]. subst. by rewrite app_nil_str, has_prefix_app in Ep.
Qed.

Lemma trailing_last pattern subj p :
  list.last (split pattern "*") = Some p ->
  has_suffix pattern "*" || has_suffix subj p = has_suffix subj p.
Proof.
  intros Hl. destruct (has_suffix pattern "*") eqn:Esuf; [|done].
  apply has_suffix_spec in Esuf as [r ->]. rewrite split_star_suffix in Hl. injection Hl as <-.
  symmetry. apply has_suffix_spec. exists subj. by rewrite app_nil_r_str.
Qed.

Lemma leading_first a b : has_prefix (a +:+ "*" +:+ b) "*" = true -> free "*"%char a = true -> a = "".
Proof.
  intros [r Hr]%has_prefix_spec Hf. destruct a as [|c a]; [done|]. rewrite app_cons_str in Hr.
  injection Hr as -> _. simpl in Hf. done.
Qed.

(** The glob matcher, which searches each piece from the left and never
    goes back, decides the declarative meaning of a pattern: the pieces
    between its stars occur in order in the text, the first at its start and
    the last at its end. *)
Theorem Glob_spec (pattern subj : string) :
  Glob pattern subj = true <-> pieces_match (split pattern "*") subj.
Proof.
  unfold Glob. cbv zeta. case_bool_decide as He; [subst; simpl; apply bool_decide_eq_true|].
  case_bool_decide as Hs.
  { subst. simpl. split; [|done]. intros _. exists subj, "". by rewrite app_nil_r_str. }
  destruct (split_cases "*" pattern) as [[Hf Hsp]|(a & b & Hp & Hf & Hsp)].
  { rewrite Hsp. simpl. apply bool_decide_eq_true. }
  assert (split b "*" <> []) as Hne by apply split_nonempty.
  pose proof (fun t p => trailing_last pattern t p) as Htrail. rewrite Hsp in *.
  rewrite bool_decide_eq_false_2 by (simpl; destruct (split b "*"); [done|simpl; lia]).
  rewrite <-(glob_loop_first (has_prefix pattern "*")) by
    (try done; intros Hl; rewrite Hp in Hl; by apply leading_first in Hl).
  destruct (glob_loop _ true _ subj) as [[u p]|] eqn:El.
  - rewrite Htrail by (by eapply glob_loop_last). split; [eauto|by intros (? & ? & [= <- <-] & ?)].
  - split; [done|by intros (? & ? & ? & ?)].
Qed.

(** ** HTTP code ranges *)

(** The codes a block of text stands for: one code, or the range of its first
    two numbers (anything after a second dash is ignored). *)
Definition block_covers (block : string) (c : Z) : Prop :=
  (free "-"%char block = true /\ Atoi block = Ok c) \/
  exists a b rest lo hi, split block "-" = a :: b :: rest /\ Atoi a = Ok lo /\ Atoi b = Ok hi /\ (lo <= c <= hi)%Z.

Definition block_reads (block : string) : bool :=
  match split block "-" with
  | [a] => is_ok (Atoi a)
  | a :: b :: _ => is_ok (Atoi a) && is_ok (Atoi b)
  | [] => false
  end.

Lemma code_range_covers block lo hi c :
  code_range block = Ok (lo, hi) -> (lo <= c <= hi)%Z <-> block_covers block c.
Proof.
  unfold code_range, block_covers. destruct (split_cases "-" block) as [[Hf ->]|(a & b & -> & Hf & ->)]; simpl.
  - destruct (Atoi block) as [n|]; simpl; [|done]. intros [= <- <-]. split.
    + intros. left. split; [done|]. f_equal. lia.
    + intros [[_ [= ->]]|(? & ? & ? & ? & ? & [=] & _)]. lia.
  - destruct (split b "-") as [|b0 rest] eqn:Eb; [by destruct (split_nonempty b "-")|].
    rewrite bool_decide_eq_false_2 by (simpl; lia). simpl.
    destruct (Atoi a) as [n|] eqn:Ea; simpl; [|done]. destruct (Atoi b0) as [m|] eqn:Em; simpl; [|done].
    intros [= <- <-]. split; [intros; right; eauto 10|].
    intros [[Hf' _]|(a1 & b1 & r1 & lo1 & hi1 & Hsp & Ha1 & Hb1 & ?)].
    + rewrite free_app, free_cons, andb_false_r in Hf'. done.
    + injection Hsp as <- <- <-. rewrite Ea in Ha1. rewrite Em in Hb1. injection Ha1 as ->. injection Hb1 as ->. done.
Qed.

Lemma code_range_reads block : is_ok (code_range block) = block_reads block.
Proof.
  unfold code_range, block_reads. destruct (split block "-") as [|a [|b rest]] eqn:E; simpl.
  - by destruct (split_nonempty block "-").
  - by destruct (Atoi a).
  - try rewrite bool_decide_eq_false_2 by lia; simpl. by destruct (Atoi a), (Atoi b).
Qed.

(** The ranges of an error page or a retry policy are read exactly when
    every block is a number or a pair of numbers, and they contain exactly the
    codes the blocks stand for. *)
Theorem HTTPCodeRanges_spec (l : list string) :
  match NewHTTPCodeRanges l with
  | Ok h => Forall (fun b => block_reads b = true) l /\
      forall c, HTTPCodeRanges_Contains h c = true <-> Exists (fun b => block_covers b c) l
  | Err _ => Exists (fun b => block_reads b = false) l
  end.
Proof.
  induction l as [|block l IH]; simpl.
  - split; [done|]. intros c. rewrite Exists_nil. done.
  - pose proof (code_range_reads block) as Hr. destruct (code_range block) as [[lo hi]|e] eqn:E; simpl in *; [|by left].
    destruct (NewHTTPCodeRanges l) as [h|e]; simpl; [|by right]. destruct IH as [Hl Hc].
    split; [by constructor|]. intros c. rewrite Exists_cons, <-Hc, <-(code_range_covers _ _ _ _ E).
    unfold HTTPCodeRanges_Contains. simpl. rewrite orb_true_iff, andb_true_iff, Z.geb_le, Z.leb_le. naive_solver lia.
Qed.

(** ** TLS clients *)

Section TLS.
Context {Certificate : Type} `{!TLSFiles Certificate}.

(** Certificate and key are both present and both files, or both content. *)
Definition consistent_pair (c : ClientTLS) : bool :=
  nonempty (Cert c) && nonempty (TLSKey c) && Bool.eqb (file_exists (Cert c)) (file_exists (TLSKey c)).

Definition no_pair (c : ClientTLS) : bool := negb (nonempty (Cert c) && nonempty (TLSKey c)).

Definition load_pair (c : ClientTLS) : result Certificate :=
  if file_exists (Cert c) then LoadX509KeyPair (Cert c) (TLSKey c) else X509KeyPair (Cert c) (TLSKey c).

(** A TLS client configuration is built exactly when its CA can be read,
    and it has either a certificate pair that is of one kind and loads, or none
    at all and verification turned off; it then demands a client certificate
    exactly when a CA is given and not optional. *)
Theorem CreateTLSConfig_spec (c : ClientTLS) :
  match CreateTLSConfig (Some c) with
  | Ok None => False
  | Ok (Some cfg) =>
      (CA c <> "" -> file_exists (CA c) = true -> is_ok (ReadFile (CA c)) = true) /\
      match Certificates cfg with
      | Some cert => consistent_pair c = true /\ load_pair c = Ok cert
      | None => no_pair c = true /\ InsecureSkipVerify c = true
      end /\
      cfg_InsecureSkipVerify cfg = InsecureSkipVerify c /\
      (RootCAs cfg = [] <-> CA c = "") /\
      ClientAuth cfg = (if bool_decide (CA c = "") then NoClientCert
                        else if CAOptional c then VerifyClientCertIfGiven else RequireAndVerifyClientCert)
  | Err _ =>
      (CA c <> "" /\ file_exists (CA c) = true /\ is_ok (ReadFile (CA c)) = false) \/
      (no_pair c = true /\ InsecureSkipVerify c = false) \/
      (no_pair c = false /\ (consistent_pair c = false \/ is_ok (load_pair c) = false))
  end.
Proof.
  unfold CreateTLSConfig, load_ca, load_cert, consistent_pair, no_pair, load_pair, keypair_error.
  case_bool_decide as Hca; simpl; [|destruct (file_exists (CA c)) eqn:Ef; simpl;
    [destruct (ReadFile (CA c)) as [ca|e]; simpl; [|by left]|]].
  all: destruct (nonempty (Cert c)), (nonempty (TLSKey c)), (InsecureSkipVerify c) eqn:Ei; simpl; try by auto.
  all: try (destruct (file_exists (Cert c)), (file_exists (TLSKey c)); simpl; try by auto).
  all: try (destruct (LoadX509KeyPair _ _); simpl; try by auto).
  all: try (destruct (X509KeyPair _ _); simpl; try by auto).
  all: by rewrite Ei.
Qed.

End TLS.
