(* ===== verification/Domains.v ===== *)
(** * [types/domains.go] and [provider/provider.go]: domains and filters

    Domain lists, the match of a host against a certificate's wildcard, the
    reversal of a slice in place and the
    constraint filter every provider applies to its services. *)
From S2P Require Import Prelude GoStrings GoStringsFacts Types.

(** ** Domains *)

Record Domain := mkDomain { Main : string; SANs : list string }.

Definition ToStrArray (d : Domain) : list string :=
  (if nonempty (Main d) then [Main d] else []) ++ SANs d.

Definition Domain_Set (d : Domain) (domains : list string) : Domain :=
  match domains with main :: sans => mkDomain main sans | [] => d end.

Definition is_separator (c : ascii) : bool := Ascii.eqb c "," || Ascii.eqb c ";".

Definition Domains_Set (ds : list Domain) (str : string) : result (list Domain) :=
  match fields_func is_separator str with
  | [] => Err ("parse error ACME.Domain. Unable to parse " +:+ str)
  | main :: sans => Ok (ds ++ [mkDomain main sans])
  end.

(** The trailing dots of a certificate's name. *)
Definition trim_dots (s : string) : string :=
  String.rev ((fix go (s : string) : string :=
    match s with String "." s' => go s' | _ => s end) (String.rev s)).

(** The labels are replaced one after the other, and stay replaced. *)
Fixpoint wildcard_loop (n i : nat) (labels : list string) (certDomain : string) : bool :=
  match n with
  | O => false
  | S n' =>
      let labels := <[i := "*"]> labels in
      if bool_decide (certDomain = join labels ".") then true
      else wildcard_loop n' (S i) labels certDomain
  end.

Definition MatchDomain (domain certDomain : string) : bool :=
  if bool_decide (domain = certDomain) then true else
  let certDomain := trim_dots certDomain in
  let labels := split domain "." in
  wildcard_loop (length labels) 0 labels certDomain.

(** ** Constraints of a provider *)

Fixpoint match_constraints (constraints : list Constraint) (tags : list string) : bool * option Constraint :=
  match constraints with
  | [] => (true, None)
  | c :: cs =>
      if negb (Bool.eqb (MatchConstraintWithAtLeastOneTag c tags) (MustMatch c))
      then (false, Some c) else match_constraints cs tags
  end.

Definition MatchConstraints (constraints : list Constraint) (tags : list string) : bool * option Constraint :=
  if bool_decide (length tags = 0) && bool_decide (length constraints = 0) then (true, None)
  else match_constraints constraints tags.

(** ** Slices *)

(** [ReverseStringSlice]: the two indices move towards each other. *)
Fixpoint reverse_loop (fuel i j : nat) (slice : list string) : list string :=
  match fuel with
  | O => slice
  | S fuel' =>
      if bool_decide (i < j)%nat then
        reverse_loop fuel' (i + 1) (j - 1) (<[i := slice !!! j]> (<[j := slice !!! i]> slice))
      else slice
  end.
Definition ReverseStringSlice (slice : list string) : list string :=
  reverse_loop (length slice) 0 (length slice - 1) slice.

(** ** Facts *)

(** [labels] after its first [i] entries were replaced. *)
Definition starred (i : nat) (labels : list string) : list string := replicate i "*" ++ drop i labels.

Lemma starred_insert i labels :
  (i < length labels)%nat -> <[i := "*"]> (starred i labels) = starred (S i) labels.
Proof.
  intros Hi. unfold starred. destruct (lookup_lt_is_Some_2 labels i Hi) as [x Hx].
  rewrite (drop_S _ _ _ Hx), insert_app_r_alt by (rewrite length_replicate; lia).
  rewrite length_replicate, Nat.sub_diag, replicate_S_end, <-app_assoc. done.
Qed.

Lemma wildcard_loop_spec n i labels cert :
  (i + n)%nat = length labels ->
  wildcard_loop n i (starred i labels) cert = true <->
  exists k, (i < k <= i + n)%nat /\ cert = join (starred k labels) ".".
Proof.
  revert i. induction n as [|n IH]; intros i Hlen; cbn [wildcard_loop].
  - split; [done|]. intros (k & Hk & _). lia.
  - rewrite starred_insert by lia. case_bool_decide as Hc.
    + split; [|done]. intros _. exists (S i). split; [lia|done].
    + rewrite IH by lia. split; intros (k & Hk & Hj); exists k; (split; [|done]); [lia|].
      destruct (decide (k = S i)) as [->|]; [done|lia].
Qed.

(** A host matches a certificate's name when they are equal, or when the
    name, without its trailing dots, is the host with its first [k] labels
    replaced by stars, for some [k] from one to all of them. *)
Theorem MatchDomain_spec (domain certDomain : string) :
  MatchDomain domain certDomain = true <->
  domain = certDomain \/
  exists k, (1 <= k <= length (split domain "."))%nat /\
    trim_dots certDomain = join (replicate k "*" ++ drop k (split domain ".")) ".".
Proof.
  unfold MatchDomain. case_bool_decide as Heq; [tauto|]. cbv zeta.
  change (split domain ".") with (starred 0 (split domain ".")) at 2.
  rewrite wildcard_loop_spec by done. unfold starred.
  split; [intros (k & Hk & ->)|intros [?|(k & Hk & ->)]]; [right| done|]; exists k; (split; [lia|done]).
Qed.

Lemma match_constraints_spec constraints tags :
  match match_constraints constraints tags with
  | (true, c) => c = None /\ Forall (fun c => MatchConstraintWithAtLeastOneTag c tags = MustMatch c) constraints
  | (false, c) => exists i bad, c = Some bad /\ constraints !! i = Some bad /\
      MatchConstraintWithAtLeastOneTag bad tags <> MustMatch bad /\
      Forall (fun c => MatchConstraintWithAtLeastOneTag c tags = MustMatch c) (take i constraints)
  end.
Proof.
  induction constraints as [|c cs IH]; simpl; [by split|].
  destruct (Bool.eqb _ _) eqn:E; simpl.
  - apply eqb_prop in E. destruct (match_constraints cs tags) as [[] o].
    + destruct IH as [-> IH]. split; [done|]. by constructor.
    + destruct IH as (i & bad & -> & Hi & Hbad & Hpre). exists (S i), bad. split_and!; try done.
      simpl. by constructor.
  - exists 0%nat, c. split_and!; try done. intros H. rewrite H, eqb_reflx in E. done.
Qed.

(** The tag filter of the providers accepts a service exactly when each
    positive constraint matches one of its tags and each negative constraint
    matches none, and otherwise reports the first constraint that fails. *)
Theorem MatchConstraints_spec (constraints : list Constraint) (tags : list string) :
  let ok c := (exists tag, tag ∈ tags /\ Glob (Regex c) tag = true) <-> MustMatch c = true in
  match MatchConstraints constraints tags with
  | (true, c) => c = None /\ Forall ok constraints
  | (false, c) => exists i bad, c = Some bad /\ constraints !! i = Some bad /\ ~ ok bad /\ Forall ok (take i constraints)
  end.
Proof.
  intros ok.
  assert (forall c, MatchConstraintWithAtLeastOneTag c tags = MustMatch c <-> ok c) as Hok.
  { intros c. unfold MatchConstraintWithAtLeastOneTag, ok.
    rewrite (eq_iff_eq_true (existsb _ _)), existsb_exists. setoid_rewrite list_elem_of_In. done. }
  assert (match match_constraints constraints tags with
    | (true, c) => c = None /\ Forall ok constraints
    | (false, c) => exists i bad, c = Some bad /\ constraints !! i = Some bad /\ ~ ok bad /\ Forall ok (take i constraints)
    end) as Hm.
  { pose proof (match_constraints_spec constraints tags) as H.
    destruct (match_constraints constraints tags) as [[] o].
    - destruct H as [-> H]. split; [done|]. eapply Forall_impl; [exact H|]. intros c. apply Hok.
    - destruct H as (i & bad & -> & Hi & Hbad & Hpre). exists i, bad. rewrite <-Hok. split_and!; try done.
      eapply Forall_impl; [exact Hpre|]. intros c. apply Hok. }
  unfold MatchConstraints. case_bool_decide as Ht; [|done]. case_bool_decide as Hc; [|done].
  apply length_zero_iff_nil in Hc as ->. done.
Qed.

(** ** Reversing in place *)

(** The slice after [k] swaps: its ends are already those of the reversal. *)
Definition half_reversed (k : nat) (l s : list string) : Prop :=
  length s = length l /\
  forall x, (x < length l)%nat ->
    s !! x = if bool_decide (k <= x /\ x < length l - k)%nat then l !! x else l !! (length l - 1 - x)%nat.

Lemma half_reversed_0 l : half_reversed 0 l l.
Proof. split; [done|]. intros x Hx. by rewrite bool_decide_eq_true_2 by lia. Qed.

Lemma half_reversed_step k l s :
  half_reversed k l s -> (k < length l - 1 - k)%nat ->
  half_reversed (k + 1) l (<[k := s !!! (length l - 1 - k)%nat]> (<[(length l - 1 - k)%nat := s !!! k]> s)).
Proof.
  intros [Hlen H] Hk. split; [by rewrite !length_insert|]. intros x Hx.
  assert (s !! k = l !! k) as Hsk by (rewrite H by lia; by rewrite bool_decide_eq_true_2 by lia).
  assert (s !! (length l - 1 - k)%nat = l !! (length l - 1 - k)%nat) as Hsj
    by (rewrite H by lia; by rewrite bool_decide_eq_true_2 by lia).
  destruct (decide (x = k)) as [->|Hxk].
  - rewrite list_lookup_insert_eq by (rewrite length_insert; lia). rewrite bool_decide_eq_false_2 by lia.
    destruct (lookup_lt_is_Some_2 l (length l - 1 - k)) as [y Hy]; [lia|].
    by rewrite (list_lookup_total_correct _ _ y) by (by rewrite Hsj).
  - rewrite list_lookup_insert_ne by done. destruct (decide (x = length l - 1 - k)%nat) as [->|Hxj].
    + rewrite list_lookup_insert_eq by lia. rewrite bool_decide_eq_false_2 by lia.
      destruct (lookup_lt_is_Some_2 l k) as [y Hy]; [lia|].
      rewrite (list_lookup_total_correct _ _ y) by (by rewrite Hsk). rewrite <-Hy. f_equal. lia.
    + rewrite list_lookup_insert_ne by done. rewrite H by done.
      destruct (decide (k <= x /\ x < length l - k)%nat).
      * rewrite !bool_decide_eq_true_2 by lia. done.
      * rewrite !bool_decide_eq_false_2 by lia. done.
Qed.

Lemma reverse_loop_spec fuel k l s :
  half_reversed k l s -> (length l <= 2 * k + 1 + fuel)%nat ->
  exists k', half_reversed k' l (reverse_loop fuel k (length l - 1 - k) s) /\ (length l <= 2 * k' + 1)%nat.
Proof.
  revert k s. induction fuel as [|fuel IH]; intros k s Hs Hf; cbn [reverse_loop]; [exists k; split; [done|lia]|].
  case_bool_decide as Hk; [|exists k; split; [done|lia]].
  replace (length l - 1 - k - 1)%nat with (length l - 1 - (k + 1))%nat by lia.
  apply IH; [by apply half_reversed_step|lia].
Qed.

(** Swapping the ends of a slice until the indices meet reverses it. *)
Theorem ReverseStringSlice_spec (slice : list string) : ReverseStringSlice slice = reverse slice.
Proof.
  unfold ReverseStringSlice.
  destruct (reverse_loop_spec (length slice) 0 slice slice) as (k & [Hlen Hk] & Hbig); [apply half_reversed_0|lia|].
  rewrite Nat.sub_0_r in *. apply list_eq. intros x. destruct (decide (x < length slice)%nat) as [Hx|Hx].
  - rewrite Hk by done. rewrite reverse_lookup by done. case_bool_decide; f_equal; lia.
  - rewrite !lookup_ge_None_2; [done|rewrite length_reverse; lia|lia].
Qed.
