(* ===== verification/OsioProvider.v ===== *)
(** * [provider/osio/osio.go]: the configuration provider of the clusters

    The provider polls the cluster service and turns its list of clusters into
    frontends and backends: one pair per API and metrics address, and a default
    pair that sticks to the cluster it was first made for.  The polling loop
    runs over the events of its select statement; each configuration it sends
    is appended to [sent].  [safe.OperationWithRecover] and
    [backoff.RetryNotify] wrap the loop. *)
From S2P Require Import Prelude GoStrings GoStringsFacts OsioClient Types.

Definition providerName : string := "osio".

Record Provider := mkProvider {
  RefreshSeconds : Z;
  TokenURL : string;
  ClustersURL : string;
  serviceAccountID : string;
  serviceAccountSecret : string;
  tokenResp : option TokenResponse;
  defaultBackendURL : string;
}.

Definition set_serviceAccountID (saID : string) (p : Provider) : Provider :=
  mkProvider (RefreshSeconds p) (TokenURL p) (ClustersURL p) saID (serviceAccountSecret p) (tokenResp p) (defaultBackendURL p).
Definition set_serviceAccountSecret (saSecret : string) (p : Provider) : Provider :=
  mkProvider (RefreshSeconds p) (TokenURL p) (ClustersURL p) (serviceAccountID p) saSecret (tokenResp p) (defaultBackendURL p).
Definition set_tokenResp (t : option TokenResponse) (p : Provider) : Provider :=
  mkProvider (RefreshSeconds p) (TokenURL p) (ClustersURL p) (serviceAccountID p) (serviceAccountSecret p) t (defaultBackendURL p).
Definition set_defaultBackendURL (u : string) (p : Provider) : Provider :=
  mkProvider (RefreshSeconds p) (TokenURL p) (ClustersURL p) (serviceAccountID p) (serviceAccountSecret p) (tokenResp p) u.

(** ** From clusters to a configuration *)

Definition normalizeURL (url : string) : string := trim_suffix url "/".
Definition getDefaultURL (cluster : clusterData) : string := APIURL cluster.

Definition createFrontend (clusterURL backend : string) : Frontend :=
  let clusterURL := normalizeURL clusterURL in
  frontend_of backend {["test_1" := mkRoute ("Headers:Target," +:+ clusterURL)]}.

Definition createBackend (clusterURL : string) : Backend :=
  let clusterURL := normalizeURL clusterURL in
  backend_of {["server1" := mkServer clusterURL 0]}.

(** One assignment to both maps of the configuration. *)
Definition add_pair (name frontURL backURL : string) (config : Configuration) : Configuration :=
  mkConfiguration (<[name := createBackend backURL]> (Backends config))
    (<[name := createFrontend frontURL name]> (Frontends config)) (TLSConfigs config).

Definition add_cluster (ind : nat) (cluster : clusterData) (config : Configuration) : Configuration :=
  let configInd := pretty (ind + 1)%nat in
  let config := if nonempty (APIURL cluster)
    then add_pair ("api" +:+ configInd) (APIURL cluster) (APIURL cluster) config else config in
  if nonempty (MetricsURL cluster)
  then add_pair ("metrics" +:+ configInd) (MetricsURL cluster) (MetricsURL cluster) config else config.

Fixpoint load_loop (def : string) (ind : nat) (clusters : list clusterData) (config : Configuration) (exist : bool) :
    Configuration * bool :=
  match clusters with
  | [] => (config, exist)
  | cluster :: clusters' =>
      let exist := exist || (nonempty def && bool_decide (def = getDefaultURL cluster)) in
      load_loop def (ind + 1) clusters' (add_cluster ind cluster config) exist
  end.

Definition loadRules (resp : clusterResponse) (p : Provider) : Configuration * Provider :=
  let config := mkConfiguration ∅ ∅ [] in
  match Clusters resp with
  | [] => (config, p)
  | first :: _ =>
      let '(config, defaultBackendExist) := load_loop (defaultBackendURL p) 0 (Clusters resp) config false in
      let p := if defaultBackendExist then p else set_defaultBackendURL (getDefaultURL first) p in
      (if nonempty (defaultBackendURL p) then add_pair "default" "default" (defaultBackendURL p) config else config, p)
  end.

(** ** Polling *)

(** What the loop's select sees: a tick of the reload timer, or the end of the
    context. *)
Inductive event := Tick | CtxDone.

Section Polling.
Context {W : Type} (client : Client W).

Record PState := mkPState {
  prov : Provider;
  world : W;
  sent : list ConfigMessage;
}.

Definition on_world {A} (m : M W A) : M PState A :=
  zoom world (fun w s => mkPState (prov s) w (sent s)) m.
Definition modify_prov (f : Provider -> Provider) : M PState unit :=
  modify_state (fun s => mkPState (f (prov s)) (world s) (sent s)).
Definition send (m : ConfigMessage) : M PState unit :=
  modify_state (fun s => mkPState (prov s) (world s) (sent s ++ [m])).

(** [p.init]: the client is the [authClient] of [OsioClient]. *)
Definition init (p : Provider) : Provider :=
  if (RefreshSeconds p <=? 0)%Z
  then mkProvider 60 (TokenURL p) (ClustersURL p) (serviceAccountID p) (serviceAccountSecret p) (tokenResp p) (defaultBackendURL p)
  else p.

Definition fetchToken : M PState (option error) :=
  s ← get_state;
  match tokenResp (prov s) with
  | Some _ => mret None
  | None =>
      let tokenReq := mkTokenRequest "client_credentials" (serviceAccountID (prov s)) (serviceAccountSecret (prov s)) in
      r ← on_world (client_GetToken client (TokenURL (prov s)) tokenReq);
      match r with
      | Err err => mret (Some err)
      | Ok t => _ ← modify_prov (set_tokenResp t); mret None
      end
  end.

Definition loadConfig : M PState (result Configuration) :=
  s ← get_state;
  r ← on_world (client_GetClusters client (ClustersURL (prov s)) (tokenResp (prov s)));
  match r with
  | Err err => mret (Err err)
  | Ok None => panic nil_dereference
  | Ok (Some resp) =>
      s ← get_state;
      let '(config, p) := loadRules resp (prov s) in
      _ ← modify_prov (fun _ => p);
      mret (Ok config)
  end.

Definition load_and_send : M PState (option error) :=
  r ← loadConfig;
  match r with
  | Err err => mret (Some err)
  | Ok config => _ ← send (mkConfigMessage providerName (Some config)); mret None
  end.

(** [None] when the events end while the loop is waiting; [Some e] when it
    returned [e].  The context is cancelled only by the event [CtxDone]. *)
Fixpoint reload_loop (events : list event) : M PState (option (option error)) :=
  match events with
  | [] => mret None
  | CtxDone :: _ => mret (Some None)
  | Tick :: events' =>
      err ← load_and_send;
      match err with
      | Some err => mret (Some (Some err))
      | None => reload_loop events'
      end
  end.

Definition operation (events : list event) : M PState (option (option error)) :=
  err ← fetchToken;
  match err with
  | Some err => mret (Some (Some err))
  | None =>
      err ← load_and_send;
      match err with
      | Some err => mret (Some (Some err))
      | None => reload_loop events
      end
  end.

(** [safe.OperationWithRecover]: the error it makes of a panic formats the
    (nil) error of the operation, not what was recovered. *)
Definition panic_error : error := "Panic in operation: %!s(<nil>)".
Definition OperationWithRecover {S} (op : M S (option (option error))) : M S (option (option error)) := fun s =>
  match op s with
  | (Panic _, s') => (Ret (Some (Some panic_error)), s')
  | r => r
  end.

(** [backoff.RetryNotify] with a policy that never stops: a failed attempt is
    followed by another, on the provider's state as it was left.  Each attempt
    has its own events. *)
Fixpoint retry (attempts : list (list event)) : M PState (option (option error)) :=
  match attempts with
  | [] => mret None
  | events :: attempts' =>
      r ← OperationWithRecover (operation events);
      match r with
      | Some (Some _) => retry attempts'
      | r => mret r
      end
  end.

End Polling.
Arguments mkPState {W}.
Arguments prov {W}.
Arguments world {W}.
Arguments sent {W}.
Arguments PState : clear implicits.
