(* ===== verification/OsioProviderFacts.v ===== *)
(** * The configurations of the OSIO provider

    Every configuration pairs each frontend with its backend, one pair per
    address of a cluster; the default backend sticks; and the polling loop
    sends one configuration per successful reply and keeps its token across
    failures. *)
From S2P Require Import Prelude GoStrings GoStringsFacts OsioClient Types OsioProvider.

(** ** Names *)

Definition api_name (i : nat) : string := "api" +:+ pretty (i + 1)%nat.
Definition metrics_name (i : nat) : string := "metrics" +:+ pretty (i + 1)%nat.

Lemma api_name_inj i j : api_name i = api_name j -> i = j.
Proof. unfold api_name. intros H%app_inv_l. apply (inj pretty) in H. lia. Qed.
Lemma metrics_name_inj i j : metrics_name i = metrics_name j -> i = j.
Proof. unfold metrics_name. intros H%app_inv_l. apply (inj pretty) in H. lia. Qed.
Lemma api_metrics i j : api_name i <> metrics_name j.
Proof. done. Qed.
Lemma api_default i : api_name i <> "default".
Proof. done. Qed.
Lemma metrics_default i : metrics_name i <> "default".
Proof. done. Qed.

(** ** The loop as a list of pairs *)

(** What a name and an address contribute to a configuration. *)
Definition pair_at (name frontURL backURL : string) (config : Configuration) : Prop :=
  Frontends config !! name = Some (createFrontend frontURL name) /\
  Backends config !! name = Some (createBackend backURL).

Definition absent_at (name : string) (config : Configuration) : Prop :=
  Frontends config !! name = None /\ Backends config !! name = None.

Definition cluster_pairs (ind : nat) (c : clusterData) : list (string * string) :=
  (if nonempty (APIURL c) then [(api_name ind, APIURL c)] else []) ++
  (if nonempty (MetricsURL c) then [(metrics_name ind, MetricsURL c)] else []).

Fixpoint all_pairs (ind : nat) (cs : list clusterData) : list (string * string) :=
  match cs with [] => [] | c :: cs' => cluster_pairs ind c ++ all_pairs (ind + 1) cs' end.

Definition add_pairs (l : list (string * string)) (config : Configuration) : Configuration :=
  foldl (fun cfg p => add_pair p.1 p.2 p.2 cfg) config l.

Lemma load_loop_pairs def ind cs config exist :
  load_loop def ind cs config exist =
  (add_pairs (all_pairs ind cs) config,
   exist || (nonempty def && existsb (fun c => bool_decide (def = APIURL c)) cs)).
Proof.
  revert ind config exist. induction cs as [|c cs IH]; intros ind config exist; simpl.
  - by rewrite andb_false_r, orb_false_r.
  - rewrite IH. unfold add_pairs. rewrite foldl_app. f_equal.
    + f_equal. unfold add_cluster, cluster_pairs. by destruct (nonempty (APIURL c)), (nonempty (MetricsURL c)).
    + unfold getDefaultURL. by rewrite <-orb_assoc, <-andb_orb_distrib_r.
Qed.

Lemma add_pairs_other l name config :
  name ∉ l.*1 -> Frontends (add_pairs l config) !! name = Frontends config !! name /\
                 Backends (add_pairs l config) !! name = Backends config !! name.
Proof.
  revert config. induction l as [|[n u] l IH]; intros config Hn; [done|]. rewrite fmap_cons in Hn.
  apply not_elem_of_cons in Hn as [Hne Hn]. simpl in *. destruct (IH (add_pair n u u config) Hn) as [-> ->].
  unfold add_pair. simpl. by rewrite !lookup_insert_ne by done.
Qed.

Lemma add_pairs_absent l name : name ∉ l.*1 -> absent_at name (add_pairs l (mkConfiguration ∅ ∅ [])).
Proof.
  intros H. unfold absent_at. destruct (add_pairs_other _ _ (mkConfiguration ∅ ∅ []) H) as [-> ->].
  simpl. by rewrite !lookup_empty.
Qed.

Lemma add_pairs_in l name url config :
  NoDup l.*1 -> (name, url) ∈ l -> pair_at name url url (add_pairs l config).
Proof.
  revert config. induction l as [|[n u] l IH]; intros config Hnd Hin; [by apply elem_of_nil in Hin|].
  rewrite fmap_cons in Hnd. apply NoDup_cons in Hnd as [Hn Hnd]. simpl in Hn.
  apply elem_of_cons in Hin as [[= <- <-]|Hin]; [|by apply IH].
  unfold pair_at. simpl. destruct (add_pairs_other l name (add_pair name url url config) Hn) as [-> ->].
  unfold add_pair. simpl. by rewrite !lookup_insert_eq.
Qed.

(** Every key was there or is in the list. *)
Lemma add_pairs_dom l config :
  dom (Frontends config) = dom (Backends config) ->
  dom (Frontends (add_pairs l config)) = dom (Backends (add_pairs l config)).
Proof.
  revert config. induction l as [|[n u] l IH]; intros config H; [done|]. apply IH. unfold add_pair. simpl.
  by rewrite !dom_insert_L, H.
Qed.

Lemma elem_of_cluster_pairs ind c name url :
  (name, url) ∈ cluster_pairs ind c <->
  url <> "" /\ ((name = api_name ind /\ url = APIURL c) \/ (name = metrics_name ind /\ url = MetricsURL c)).
Proof.
  unfold cluster_pairs, nonempty. rewrite elem_of_app.
  repeat case_bool_decide; simpl; rewrite ?elem_of_nil, ?list_elem_of_singleton; naive_solver.
Qed.

Lemma elem_of_all_pairs ind cs name url :
  (name, url) ∈ all_pairs ind cs <->
  url <> "" /\ exists i c, cs !! i = Some c /\
    ((name = api_name (ind + i) /\ url = APIURL c) \/ (name = metrics_name (ind + i) /\ url = MetricsURL c)).
Proof.
  revert ind. induction cs as [|c cs IH]; intros ind; simpl.
  - rewrite elem_of_nil. split; [done|]. intros (_ & i & c & H & _). by rewrite lookup_nil in H.
  - rewrite elem_of_app, elem_of_cluster_pairs, IH. split.
    + intros [[Hu H]|[Hu (i & c' & Hi & H)]]; (split; [done|]).
      * exists 0%nat, c. by rewrite Nat.add_0_r.
      * exists (S i), c'. by replace (ind + S i)%nat with (ind + 1 + i)%nat by lia.
    + intros [Hu ([|i] & c' & Hi & H)]; simpl in Hi.
      * injection Hi as <-. rewrite Nat.add_0_r in H. by left.
      * right. split; [done|]. exists i, c'. by replace (ind + 1 + i)%nat with (ind + S i)%nat by lia.
Qed.

Lemma all_pairs_key ind cs name :
  name ∈ (all_pairs ind cs).*1 -> exists i, (ind <= i)%nat /\ (name = api_name i \/ name = metrics_name i).
Proof.
  intros ([n u] & -> & Hin)%list_elem_of_fmap. apply elem_of_all_pairs in Hin as (_ & i & c & _ & H).
  exists (ind + i)%nat. simpl. split; [lia|]. tauto.
Qed.

Lemma NoDup_all_pairs ind cs : NoDup (all_pairs ind cs).*1.
Proof.
  revert ind. induction cs as [|c cs IH]; intros ind; simpl; [constructor|].
  rewrite fmap_app. apply NoDup_app. split_and!; [|intros name Hin Hlater|apply IH].
  - unfold cluster_pairs. destruct (nonempty (APIURL c)), (nonempty (MetricsURL c)); simpl;
      repeat constructor; set_solver.
  - apply all_pairs_key in Hlater as (i & Hi & Hname).
    apply list_elem_of_fmap in Hin as ([n u] & -> & Hin). apply elem_of_cluster_pairs in Hin as [_ Hin]. simpl in *.
    destruct Hin as [[-> _]|[-> _]], Hname as [Hname|Hname]; try done.
    + apply api_name_inj in Hname. lia.
    + apply metrics_name_inj in Hname. lia.
Qed.

(** ** The configuration *)

(** The pair of an address, absent when the address is empty. *)
Definition address_pair (name url : string) (config : Configuration) : Prop :=
  if nonempty url then pair_at name url url config else absent_at name config.

Definition default_kept (p : Provider) (cs : list clusterData) : bool :=
  nonempty (defaultBackendURL p) && existsb (fun c => bool_decide (defaultBackendURL p = APIURL c)) cs.

Lemma address_pair_all cs i c name url :
  cs !! i = Some c -> (name = api_name i /\ url = APIURL c) \/ (name = metrics_name i /\ url = MetricsURL c) ->
  address_pair name url (add_pairs (all_pairs 0 cs) (mkConfiguration ∅ ∅ [])).
Proof.
  intros Hi Hn. unfold address_pair, nonempty. case_bool_decide as Hu; simpl.
  - subst url. apply add_pairs_absent. intros ([n u] & -> & Hin)%list_elem_of_fmap.
    apply elem_of_all_pairs in Hin as (Hu & j & c' & Hj & H). simpl in *.
    destruct Hn as [[-> Hz]|[-> Hz]], H as [[H ->]|[H ->]]; try done.
    + apply api_name_inj in H as <-. congruence.
    + apply metrics_name_inj in H as <-. congruence.
  - apply add_pairs_in; [apply NoDup_all_pairs|]. apply elem_of_all_pairs. eauto.
Qed.

Lemma loadRules_shape (resp : clusterResponse) (p : Provider) :
  let '(config, p') := loadRules resp p in
  let cs := Clusters resp in
  dom (Frontends config) = dom (Backends config) /\
  map_Forall (fun name f => fe_Backend f = name) (Frontends config) /\
  (forall i c, cs !! i = Some c ->
     address_pair (api_name i) (APIURL c) config /\ address_pair (metrics_name i) (MetricsURL c) config) /\
  match cs with
  | [] => config = mkConfiguration ∅ ∅ [] /\ p' = p
  | first :: _ =>
      defaultBackendURL p' = (if default_kept p cs then defaultBackendURL p else APIURL first) /\
      (if nonempty (defaultBackendURL p')
       then pair_at "default" "default" (defaultBackendURL p') config else absent_at "default" config)
  end.
Proof.
  unfold loadRules. destruct (Clusters resp) as [|first rest] eqn:Ecs; [done|]. rewrite load_loop_pairs.
  rewrite <-Ecs. set (cs := Clusters resp). rewrite orb_false_l. fold (default_kept p cs).
  set (p' := if default_kept p cs then p else set_defaultBackendURL (getDefaultURL first) p).
  set (base := add_pairs (all_pairs 0 cs) (mkConfiguration ∅ ∅ [])).
  assert (dom (Frontends base) = dom (Backends base)) as Hdom by (apply add_pairs_dom; simpl; by rewrite !dom_empty_L).
  assert ("default" ∉ (all_pairs 0 cs).*1) as Hdef by (intros (i & _ & [?|?])%all_pairs_key; done).
  assert (map_Forall (fun name f => fe_Backend f = name) (Frontends base)) as Hback.
  { intros name f Hf. destruct (decide (name ∈ (all_pairs 0 cs).*1)) as [Hin|Hn].
    - apply list_elem_of_fmap in Hin as ([n u] & -> & Hin).
      destruct (add_pairs_in _ n u (mkConfiguration ∅ ∅ []) (NoDup_all_pairs 0 cs) Hin) as [Hf' _].
      simpl in Hf. fold base in Hf'. rewrite Hf' in Hf. by injection Hf as <-.
    - destruct (add_pairs_absent _ _ Hn) as [Hf' _]. unfold base in Hf. by rewrite Hf' in Hf. }
  assert (forall n u u' config, n <> "default" -> address_pair n u config ->
            address_pair n u (add_pair "default" "default" u' config)) as Hadd.
  { intros n u u' config Hn. unfold address_pair, pair_at, absent_at, add_pair. simpl. by rewrite !lookup_insert_ne. }
  assert (forall i c, cs !! i = Some c ->
     address_pair (api_name i) (APIURL c) base /\ address_pair (metrics_name i) (MetricsURL c) base) as Haddr.
  { intros i c Hi. split; (eapply address_pair_all; [done|auto]). }
  assert (defaultBackendURL p' = if default_kept p cs then defaultBackendURL p else APIURL first) as Hp'
    by (unfold p'; by destruct (default_kept p cs)).
  destruct (nonempty (defaultBackendURL p')) eqn:Ene; split_and!; try done.
  - unfold add_pair. simpl. by rewrite !dom_insert_L, Hdom.
  - apply map_Forall_insert_2; done.
  - intros i c Hi. destruct (Haddr i c Hi). split; apply Hadd; done.
  - split; unfold add_pair; simpl; by rewrite lookup_insert_eq.
  - by apply add_pairs_absent.
Qed.

(** C13: the configuration made of a non-empty list of clusters has, for each
    cluster, the pair of its API address and the pair of its metrics address,
    under names numbered from one, and nothing for an empty address; it has the
    default pair; frontends and backends have the same names, so that every
    frontend's backend exists.  The default backend stays the one it was while
    a cluster with its address remains, and is the first cluster's otherwise.
    An empty list gives an empty configuration and changes nothing. *)
Theorem loadRules_spec (resp : clusterResponse) (p : Provider) :
  let '(config, p') := loadRules resp p in
  let cs := Clusters resp in
  dom (Frontends config) = dom (Backends config) /\
  map_Forall (fun name f => fe_Backend f = name) (Frontends config) /\
  (forall i c, cs !! i = Some c ->
     address_pair (api_name i) (APIURL c) config /\ address_pair (metrics_name i) (MetricsURL c) config) /\
  match cs with
  | [] => config = mkConfiguration ∅ ∅ [] /\ p' = p
  | first :: _ =>
      defaultBackendURL p' = (if default_kept p cs then defaultBackendURL p else APIURL first) /\
      (if nonempty (defaultBackendURL p')
       then pair_at "default" "default" (defaultBackendURL p') config else absent_at "default" config)
  end.
Proof. apply loadRules_shape. Qed.

(** ** Polling *)

Section Poll.
Context {W : Type} (client : Client W).

(** A call of the client, with what it was given and what came of it. *)
Inductive call :=
  | CallToken (url : string) (req : TokenRequest) (o : outcome (result (option TokenResponse)))
  | CallClusters (url : string) (token : option TokenResponse) (o : outcome (result (option clusterResponse))).

(** The client, keeping a record of its calls. *)
Definition recorded : Client (W * list call) := {|
  client_GetToken url req := fun w =>
    let '(o, w') := client_GetToken client url req w.1 in (o, (w', w.2 ++ [CallToken url req o]));
  client_GetClusters url token := fun w =>
    let '(o, w') := client_GetClusters client url token w.1 in (o, (w', w.2 ++ [CallClusters url token o]));
|}.

(** What a reply changes, and what is sent because of it: a token is kept, a
    list of clusters becomes one configuration, anything else does nothing. *)
Definition on_reply (p : Provider) (c : call) : Provider * list ConfigMessage :=
  match c with
  | CallToken _ _ (Ret (Ok t)) => (set_tokenResp t p, [])
  | CallClusters _ _ (Ret (Ok (Some resp))) => ((loadRules resp p).2, [mkConfigMessage providerName (Some (loadRules resp p).1)])
  | _ => (p, [])
  end.
Fixpoint replay (p : Provider) (calls : list call) : Provider * list ConfigMessage :=
  match calls with
  | [] => (p, [])
  | c :: calls' => ((replay (on_reply p c).1 calls').1, (on_reply p c).2 ++ (replay (on_reply p c).1 calls').2)
  end.

(** A call is what the provider, as it is, asks: for a token only without one,
    for the clusters with the token there is. *)
Definition asked (p : Provider) (c : call) : Prop :=
  match c with
  | CallToken url req _ => tokenResp p = None /\ url = TokenURL p /\
      req = mkTokenRequest "client_credentials" (serviceAccountID p) (serviceAccountSecret p)
  | CallClusters url token _ => url = ClustersURL p /\ token = tokenResp p
  end.
Fixpoint all_asked (p : Provider) (calls : list call) : Prop :=
  match calls with [] => True | c :: calls' => asked p c /\ all_asked (on_reply p c).1 calls' end.

(** Calls with a token in hand: none for another. *)
Definition with_token (t : TokenResponse) (c : call) : Prop :=
  match c with CallToken _ _ _ => False | CallClusters _ token _ => token = Some t end.

Lemma loadRules_token resp p : tokenResp (loadRules resp p).2 = tokenResp p.
Proof.
  unfold loadRules. destruct (Clusters resp); [done|]. destruct (load_loop _ _ _ _ _) as [config exist]. by destruct exist.
Qed.

Lemma replay_app p l1 l2 :
  replay p (l1 ++ l2) = ((replay (replay p l1).1 l2).1, (replay p l1).2 ++ (replay (replay p l1).1 l2).2).
Proof.
  revert p. induction l1 as [|c l1 IH]; intros p; simpl; [by destruct (replay p l2)|]. rewrite IH. simpl. by rewrite app_assoc.
Qed.
Lemma all_asked_app p l1 l2 : all_asked p (l1 ++ l2) <-> all_asked p l1 /\ all_asked (replay p l1).1 l2.
Proof. revert p. induction l1 as [|c l1 IH]; intros p; simpl; [tauto|]. rewrite IH. tauto. Qed.

(** Once there is a token, it is the one all later calls are made with. *)
Lemma asked_with_token p t l : tokenResp p = Some t -> all_asked p l -> Forall (with_token t) l /\ tokenResp (replay p l).1 = Some t.
Proof.
  revert p. induction l as [|c l IH]; intros p Ht; simpl; [done|]. intros [Hc Hl].
  destruct c as [url req o|url token o]; simpl in Hc; [destruct Hc; congruence|]. destruct Hc as [_ ->].
  destruct (IH (on_reply p (CallClusters url (tokenResp p) o)).1) as [Hf Hr]; [|exact Hl|].
  { destruct o as [[[resp|]|]| |]; try done. simpl. by rewrite loadRules_token. }
  split; [by constructor|exact Hr].
Qed.

(** What a computation that polls has done: its calls are what the provider
    asked, one after the other, and all it sent is due to their replies. *)
Definition explained (s s' : PState (W * list call)) : Prop :=
  exists calls, (world s').2 = (world s).2 ++ calls /\ all_asked (prov s) calls /\
    prov s' = (replay (prov s) calls).1 /\ sent s' = sent s ++ (replay (prov s) calls).2.

Lemma explained_refl s : explained s s.
Proof. exists []. by rewrite !app_nil_r. Qed.
Lemma explained_trans s1 s2 s3 : explained s1 s2 -> explained s2 s3 -> explained s1 s3.
Proof.
  intros (c1 & Hw1 & Ha1 & Hp1 & Hs1) (c2 & Hw2 & Ha2 & Hp2 & Hs2). exists (c1 ++ c2).
  rewrite all_asked_app, replay_app, <-Hp1. simpl.
  split; [by rewrite Hw2, Hw1, app_assoc|]. split; [done|]. split; [done|]. by rewrite Hs2, Hs1, app_assoc.
Qed.
Lemma explained_call s s' c :
  (world s').2 = (world s).2 ++ [c] -> asked (prov s) c -> prov s' = (on_reply (prov s) c).1 ->
  sent s' = sent s ++ (on_reply (prov s) c).2 -> explained s s'.
Proof. intros Hw Hc Hp Hs. exists [c]. simpl. by rewrite app_nil_r. Qed.

(** Without the record it runs the same. *)
Definition erase (s : PState (W * list call)) : PState W := mkPState (prov s) (world s).1 (sent s).
Definition polls {A} (m : M (PState (W * list call)) A) (m' : M (PState W) A) : Prop :=
  forall s, m' (erase s) = ((m s).1, erase (m s).2) /\ explained s (m s).2.

Lemma polls_ret {A} (x : A) : polls (mret x) (mret x).
Proof. intros s. split; [done|apply explained_refl]. Qed.
Lemma polls_bind {A B} (m : M (PState (W * list call)) A) m' (f : A -> M (PState (W * list call)) B) f' :
  polls m m' -> (forall x, polls (f x) (f' x)) -> polls (m ≫= f) (m' ≫= f').
Proof.
  intros Hm Hf s. destruct (Hm s) as [Ee Hx]. unfold mbind, M_bind. rewrite Ee.
  destruct (m s) as [[x|?|?] s1]; simpl in *; [|done..]. destruct (Hf x s1) as [Ee2 Hx2]. rewrite Ee2.
  split; [done|by eapply explained_trans].
Qed.

Lemma load_and_send_polls : polls (load_and_send recorded) (load_and_send client).
Proof.
  intros s. unfold load_and_send, loadConfig, mbind, M_bind, get_state, on_world, zoom, erase. simpl.
  destruct (client_GetClusters client (ClustersURL (prov s)) (tokenResp (prov s)) (world s).1) as [o w] eqn:Ec.
  destruct o as [[[resp|]|e]|e|e]; simpl.
  2-5: split; [done|eapply explained_call; [reflexivity|done|done|by rewrite app_nil_r]].
  destruct (loadRules resp (prov s)) as [config p] eqn:El. split; [done|].
  by eapply explained_call; [reflexivity|done|simpl; by rewrite El|simpl; by rewrite El].
Qed.

Lemma fetchToken_polls : polls (fetchToken recorded) (fetchToken client).
Proof.
  intros s. unfold fetchToken, mbind, M_bind, get_state, on_world, zoom, erase. simpl.
  destruct (tokenResp (prov s)) as [t|] eqn:Et; [split; [done|apply explained_refl]|]. simpl.
  destruct (client_GetToken client _ _ (world s).1) as [o w] eqn:Ec.
  destruct o as [[t|e]|e|e]; simpl; (split; [done|]);
    (eapply explained_call; [reflexivity|done|done|by rewrite app_nil_r]).
Qed.

Lemma reload_loop_polls events : polls (reload_loop recorded events) (reload_loop client events).
Proof.
  induction events as [|[|] events IH]; simpl; [apply polls_ret| |apply polls_ret].
  apply polls_bind; [apply load_and_send_polls|]. intros [err|]; [apply polls_ret|apply IH].
Qed.

Lemma operation_polls events :
  polls (OperationWithRecover (operation recorded events)) (OperationWithRecover (operation client events)).
Proof.
  assert (polls (operation recorded events) (operation client events)) as H.
  { apply polls_bind; [apply fetchToken_polls|]. intros [err|]; [apply polls_ret|].
    apply polls_bind; [apply load_and_send_polls|]. intros [err|]; [apply polls_ret|apply reload_loop_polls]. }
  intros s. destruct (H s) as [Ee Hx]. unfold OperationWithRecover. rewrite Ee. by destruct (operation recorded events s) as [[] ?].
Qed.

Lemma retry_polls attempts : polls (retry recorded attempts) (retry client attempts).
Proof.
  induction attempts as [|events attempts IH]; simpl; [apply polls_ret|].
  apply polls_bind; [apply operation_polls|]. intros [[err|]|]; [apply IH|apply polls_ret..].
Qed.

(** It ends without an error. *)
Lemma retry_ends attempts (s : PState W) : match (retry client attempts s).1 with Ret (Some (Some _)) | Panic _ => False | _ => True end.
Proof.
  revert s. induction attempts as [|events attempts IH]; intros s; simpl; [done|]. unfold mbind, M_bind, OperationWithRecover.
  destruct (operation client events s) as [[[[err|]|]|e|e] s1]; simpl; try done; apply IH.
Qed.

(** C14: over any number of attempts, failed, panicked or cancelled, with the
    calls of the client on record: they are exactly what the provider asked, one
    after the other; it sent exactly one configuration per list of clusters the
    client gave it, in order, each made of that list with the default backend
    the previous one left, and nothing else.  The token of the service account
    is fetched once: after a call that gave it, or when there was one from the
    start, no call asks for another and all are made with it, also when the
    cluster service refuses it.  Polling ends without error or not at all, and
    the record changes nothing. *)
Theorem polling_sends (attempts : list (list event)) (p : Provider) (w : W) (sent0 : list ConfigMessage) :
  let '(o, s') := retry recorded attempts (mkPState p (w, []) sent0) in
  let calls := (world s').2 in
  all_asked p calls /\ prov s' = (replay p calls).1 /\ sent s' = sent0 ++ (replay p calls).2 /\
  (forall t, tokenResp p = Some t -> Forall (with_token t) calls /\ tokenResp (prov s') = Some t) /\
  (forall before url req t after, calls = before ++ CallToken url req (Ret (Ok (Some t))) :: after ->
     Forall (with_token t) after /\ tokenResp (prov s') = Some t) /\
  match o with Ret (Some (Some _)) | Panic _ => False | _ => True end /\
  retry client attempts (mkPState p w sent0) = (o, mkPState (prov s') (world s').1 (sent s')).
Proof.
  destruct (retry_polls attempts (mkPState p (w, []) sent0)) as [He (calls & Hw & Ha & Hp & Hs)].
  pose proof (retry_ends attempts (mkPState p w sent0)) as Hend. unfold erase in He. simpl in He. rewrite He in Hend |- *.
  destruct (retry recorded attempts _) as [o s']. simpl in *. rewrite Hw. split_and!; try done.
  - intros t Ht. rewrite Hp. by apply asked_with_token.
  - intros before url req t after Heq. rewrite Heq in Ha, Hp. rewrite Hp, replay_app.
    apply all_asked_app in Ha as [_ [_ Ha]]. simpl. by apply (asked_with_token _ t).
Qed.

End Poll.
