(* ===== verification/GoNet.v ===== *)
(** * Go's [net]: host and port, IP addresses, networks

    [SplitHostPort], [ParseIP], [ParseCIDR], [IP.Equal] and [IPNet.Contains].
    An address is its list of bytes, four or sixteen of them; [ParseIP] always
    gives sixteen. *)
From S2P Require Import Prelude GoStrings GoStringsFacts GoStrconv.
Local Open Scope Z_scope.

(** ** [host:port] *)

(** The text before and after the last occurrence of [c]. *)
Definition rcut (s : string) (c : ascii) : option (string * string) :=
  match cut (String.rev s) (String c "") with
  | Some (a, b) => Some (String.rev b, String.rev a)
  | None => None
  end.

Definition SplitHostPort (hostport : string) : result (string * string) :=
  match rcut hostport ":" with
  | None => Err "missing port in address"
  | Some (before, port) =>
      match hostport with
      | String "["%char inner =>
          match cut inner "]" with
          | None => Err "missing ']' in address"
          | Some (host, "") => Err "missing port in address"
          | Some (host, String c rest) =>
              if negb (Ascii.eqb c ":") then Err "missing port in address"
              else if negb (free ":" rest) then Err "too many colons in address"
              else if negb (free "[" (host +:+ "]:" +:+ rest)) then Err "unexpected '[' in address"
              else if negb (free "]" rest) then Err "unexpected ']' in address"
              else Ok (host, rest)
          end
      | _ =>
          if negb (free ":" before) then Err "too many colons in address"
          else if negb (free "[" hostport) then Err "unexpected '[' in address"
          else if negb (free "]" hostport) then Err "unexpected ']' in address"
          else Ok (before, port)
      end
  end.

(** ** Addresses *)

Definition IP : Type := list Z.

Definition v4InV6Prefix : list Z := [0; 0; 0; 0; 0; 0; 0; 0; 0; 0; 0xff; 0xff].

Definition big : Z := 0xFFFFFF.

(** [dtoi] and [xtoi]: the number a string starts with and the rest; [None]
    without a digit or when it is too big. *)
Fixpoint number_go (value : ascii -> option Z) (base : Z) (s : string) (n : Z) : option (Z * string) :=
  match s with
  | "" => Some (n, "")
  | String c s' =>
      match value c with
      | None => Some (n, s)
      | Some d => let n := n * base + d in if n >=? big then None else number_go value base s' n
      end
  end.

Definition dec_value (c : ascii) : option Z := if is_digit c then Some (byte_of c - 48) else None.
Definition hex_value (c : ascii) : option Z :=
  if is_digit c then Some (byte_of c - 48)
  else if in_range 97 102 c then Some (byte_of c - 87)
  else if in_range 65 70 c then Some (byte_of c - 55)
  else None.

Definition number (value : ascii -> option Z) (base : Z) (s : string) : option (Z * string) :=
  match s with
  | String c _ => match value c with Some _ => number_go value base s 0 | None => None end
  | "" => None
  end.
Definition dtoi := number dec_value 10.
Definition xtoi := number hex_value 16.

(** The four numbers of a dotted address, which must use all of the string. *)
Fixpoint ipv4_go (k : nat) (first : bool) (s : string) : option (list Z) :=
  match k with
  | O => if bool_decide (s = "") then Some [] else None
  | S k' =>
      match (if first then Some s else strip_prefix "." s) with
      | None => None
      | Some s =>
          match dtoi s with
          | None => None
          | Some (n, s') =>
              if n >? 0xFF then None else
              match ipv4_go k' false s' with Some l => Some (n :: l) | None => None end
          end
      end
  end.
Definition parseIPv4 (s : string) : option IP :=
  match ipv4_go 4 true s with Some l => Some (v4InV6Prefix ++ l) | None => None end.

(** The loop of [parseIPv6] over the remaining text: the bytes so far and where
    the ellipsis stands among them. *)
Fixpoint ipv6_go (fuel : nat) (ip : list Z) (ellipsis : option nat) (s : string) :
    option (list Z * option nat * string) :=
  match fuel with
  | O => Some (ip, ellipsis, s)
  | S fuel' =>
      match xtoi s with
      | None => None
      | Some (n, rest) =>
          if n >? 0xFFFF then None else
          if has_prefix rest "." then
            if bool_decide (ellipsis = None) && negb (bool_decide (length ip = 12%nat)) then None
            else if bool_decide (16 < length ip + 4)%nat then None
            else match parseIPv4 s with
                 | None => None
                 | Some v4 => Some (ip ++ drop 12 v4, ellipsis, "")
                 end
          else
            let ip := ip ++ [Z.shiftr n 8; Z.land n 0xFF] in
            match rest with
            | "" => Some (ip, ellipsis, "")
            | String c s =>
                if negb (Ascii.eqb c ":") || bool_decide (s = "") then None else
                match s with
                | String ":"%char s =>
                    if bool_decide (is_Some ellipsis) then None else
                    if bool_decide (s = "") then Some (ip, Some (length ip), "")
                    else ipv6_go fuel' ip (Some (length ip)) s
                | _ => ipv6_go fuel' ip ellipsis s
                end
            end
      end
  end.

Definition zeroes (n : nat) : list Z := replicate n 0.

Definition parseIPv6 (s : string) : option IP :=
  let '(ellipsis, s, only) :=
    match strip_prefix "::" s with
    | Some s' => (Some 0%nat, s', bool_decide (s' = ""))
    | None => (None, s, false)
    end in
  if only then Some (zeroes 16) else
  match ipv6_go 8 [] ellipsis s with
  | None => None
  | Some (ip, ellipsis, s) =>
      if negb (bool_decide (s = "")) then None else
      if bool_decide (length ip < 16)%nat then
        match ellipsis with
        | None => None
        | Some e => Some (take e ip ++ zeroes (16 - length ip) ++ drop e ip)
        end
      else match ellipsis with None => Some ip | Some _ => None end
  end.

(** [ParseIP]: the first dot or colon decides. *)
Fixpoint first_mark (s : string) : option bool :=
  match s with
  | "" => None
  | String "."%char _ => Some true
  | String ":"%char _ => Some false
  | String _ s' => first_mark s'
  end.

Definition ParseIP (s : string) : option IP :=
  match first_mark s with
  | Some true => parseIPv4 s
  | Some false => parseIPv6 s
  | None => None
  end.

Definition To4 (ip : IP) : option IP :=
  if bool_decide (length ip = 4%nat) then Some ip
  else if bool_decide (length ip = 16%nat) && bool_decide (take 12 ip = v4InV6Prefix) then Some (drop 12 ip)
  else None.

(** [IP.Equal]: a four-byte address equals its sixteen-byte form. *)
Definition IP_Equal (ip x : IP) : bool :=
  if bool_decide (length ip = length x) then bool_decide (ip = x)
  else if bool_decide (length ip = 4 /\ length x = 16)%nat then
    bool_decide (take 12 x = v4InV6Prefix) && bool_decide (ip = drop 12 x)
  else if bool_decide (length ip = 16 /\ length x = 4)%nat then
    bool_decide (take 12 ip = v4InV6Prefix) && bool_decide (drop 12 ip = x)
  else false.

(** ** Networks *)

Record IPNet := mkIPNet { net_IP : IP; net_Mask : IP }.

(** [CIDRMask(ones, 8 * len)] *)
Fixpoint CIDRMask (len : nat) (ones : Z) : IP :=
  match len with
  | O => []
  | S len' =>
      if ones >=? 8 then 0xff :: CIDRMask len' (ones - 8)
      else Z.land (Z.lnot (Z.shiftr 0xff ones)) 0xff :: CIDRMask len' 0
  end.

(** [ip.Mask(m)] for a mask of the address's own family. *)
Definition mask_bytes (ip m : IP) : IP := zip_with Z.land ip m.

Definition IP_Mask (ip m : IP) : IP :=
  match To4 ip with
  | Some ip4 => if bool_decide (length m = 4)%nat then mask_bytes ip4 m else mask_bytes ip m
  | None => mask_bytes ip m
  end.

Definition ParseCIDR (s : string) : result (IP * IPNet) :=
  match cut s "/" with
  | None => Err ("invalid CIDR address: " +:+ s)
  | Some (addr, mask) =>
      let '(ip, len) := match parseIPv4 addr with Some ip => (Some ip, 4%nat) | None => (parseIPv6 addr, 16%nat) end in
      match ip, dtoi mask with
      | Some ip, Some (n, "") =>
          if n >? 8 * Z.of_nat len then Err ("invalid CIDR address: " +:+ s) else
          let m := CIDRMask len n in
          Ok (ip, mkIPNet (IP_Mask ip m) m)
      | _, _ => Err ("invalid CIDR address: " +:+ s)
      end
  end.

Definition networkNumberAndMask (n : IPNet) : option (IP * IP) :=
  match (match To4 (net_IP n) with Some ip => Some ip
         | None => if bool_decide (length (net_IP n) = 16%nat) then Some (net_IP n) else None end) with
  | None => None
  | Some ip =>
      let m := net_Mask n in
      if bool_decide (length m = 4%nat) then
        if bool_decide (length ip = 4%nat) then Some (ip, m) else None
      else if bool_decide (length m = 16%nat) then
        Some (ip, if bool_decide (length ip = 4%nat) then drop 12 m else m)
      else None
  end.

Definition IPNet_Contains (n : IPNet) (ip : IP) : bool :=
  let ip := default ip (To4 ip) in
  match networkNumberAndMask n with
  | None => bool_decide (ip = [])
  | Some (nn, m) => bool_decide (length ip = length nn) && bool_decide (mask_bytes nn m = mask_bytes ip m)
  end.

(** ** [net.IP.String] *)

Definition low_hex (n : Z) : ascii := of_byte (if n <? 10 then 48 + n else 87 + n).
Fixpoint hex_go (fuel : nat) (n : Z) (acc : string) : string :=
  match fuel with
  | O => acc
  | S fuel => let acc := String (low_hex (n mod 16)) acc in if n / 16 =? 0 then acc else hex_go fuel (n / 16) acc
  end.
Definition hex16 (n : Z) : string := hex_go 4 n "".

Fixpoint ip_groups (l : list Z) : list Z :=
  match l with a :: b :: l' => (a * 256 + b) :: ip_groups l' | _ => [] end.

(** The length of the run of zeros at the start, and the first longest run. *)
Fixpoint zeros (l : list Z) : nat := match l with x :: l' => if x =? 0 then S (zeros l') else O | [] => O end.
Definition longest_zeros (l : list Z) : nat * nat :=
  foldl (fun best i => let n := zeros (drop i l) in if (best.2 <? n)%nat then (i, n) else best) (O, O) (seq 0 (length l)).

Definition IP_String (ip : IP) : string :=
  match ip with
  | [] => "<nil>"
  | _ =>
      match To4 ip with
      | Some ip4 => join (map pretty ip4) "."
      | None =>
          let groups := ip_groups ip in
          let '(start, n) := longest_zeros groups in
          if (n <=? 1)%nat then join (map hex16 groups) ":"
          else join (map hex16 (take start groups)) ":" +:+ "::" +:+ join (map hex16 (drop (start + n)%nat groups)) ":"
      end
  end.

(** ** Samples *)

Lemma SplitHostPort_samples :
  SplitHostPort "10.0.0.1:80" = Ok ("10.0.0.1", "80") /\ SplitHostPort "[::1]:80" = Ok ("::1", "80") /\
  is_ok (SplitHostPort "::1") = false /\ is_ok (SplitHostPort "host") = false /\
  is_ok (SplitHostPort "[::1]") = false /\ SplitHostPort ":80" = Ok ("", "80").
Proof. vm_compute. split_and!; reflexivity. Qed.

Lemma ParseIP_samples :
  ParseIP "1.2.3.4" = Some (v4InV6Prefix ++ [1; 2; 3; 4]) /\ ParseIP " 1.2.3.4" = None /\
  ParseIP "1.2.3.256" = None /\ ParseIP "1.2.3" = None /\
  ParseIP "::1" = Some (zeroes 15 ++ [1]) /\
  ParseIP "2001:db8::ff00:42:8329" = Some [0x20; 1; 0xd; 0xb8; 0; 0; 0; 0; 0; 0; 0xff; 0; 0; 0x42; 0x83; 0x29] /\
  ParseIP "::ffff:1.2.3.4" = ParseIP "1.2.3.4" /\ ParseIP "1::2::3" = None /\
  ParseIP "1:2:3:4:5:6:7:8" = Some [0; 1; 0; 2; 0; 3; 0; 4; 0; 5; 0; 6; 0; 7; 0; 8].
Proof. vm_compute. split_and!; reflexivity. Qed.

Lemma ParseCIDR_samples :
  ParseCIDR "10.1.2.3/8" = Ok (v4InV6Prefix ++ [10; 1; 2; 3], mkIPNet [10; 0; 0; 0] [255; 0; 0; 0]) /\
  is_ok (ParseCIDR "10.1.2.3/33") = false /\ is_ok (ParseCIDR "10.1.2.3") = false /\
  (match ParseCIDR "10.1.0.0/20" with Ok (_, n) => map (IPNet_Contains n)
     [[10; 1; 15; 255]; [10; 1; 16; 0]; v4InV6Prefix ++ [10; 1; 0; 1]] | Err _ => [] end) = [true; false; true].
Proof. vm_compute. split_and!; reflexivity. Qed.

Example ip_strings :
  map (fun s => match ParseCIDR s with Ok (ip, _) => IP_String ip | Err _ => IP_String [] end)
    ["10.0.1.2/24"; "2001:db8::1:0:0:1/64"; "fe80::/10"; "1:2:3:4:5:6:0:8/8"; "x"]
  = ["10.0.1.2"; "2001:db8::1:0:0:1"; "fe80::"; "1:2:3:4:5:6:0:8"; "<nil>"].
Proof. vm_compute. reflexivity. Qed.
