(* ===== verification/Whitelist.v ===== *)
(** * [whitelist/ip.go] and [middlewares/ip_whitelister.go]: source filtering

    A white list holds single addresses and networks; a request is judged by
    its remote address and, when asked for, by the entries of its
    X-Forwarded-For header.  An error return is [Some] message. *)
From S2P Require Import Prelude GoStrings GoStringsFacts GoHttp GoStrconv GoNet.

Definition XForwardedFor : string := "X-Forwarded-For".

Record WhiteIP := mkWhiteIP {
  whiteListsIPs : list GoNet.IP;
  whiteListsNet : list IPNet;
  insecure : bool;
  useXForwardedFor : bool;
}.

(** The loop of [NewIP]. *)
Fixpoint add_entries (whiteList : list string) (ip : WhiteIP) : result WhiteIP :=
  match whiteList with
  | [] => Ok ip
  | ipMask :: whiteList' =>
      match ParseIP ipMask with
      | Some ipAddr =>
          add_entries whiteList' (mkWhiteIP (whiteListsIPs ip ++ [ipAddr]) (whiteListsNet ip) (insecure ip) (useXForwardedFor ip))
      | None =>
          match ParseCIDR ipMask with
          | Err err => Err ("parsing CIDR white list <nil>: " +:+ err)
          | Ok (_, ipAddr) =>
              add_entries whiteList' (mkWhiteIP (whiteListsIPs ip) (whiteListsNet ip ++ [ipAddr]) (insecure ip) (useXForwardedFor ip))
          end
      end
  end.

Definition NewIP (whiteList : list string) (insecure useXForwardedFor : bool) : result WhiteIP :=
  if bool_decide (length whiteList = 0) && negb insecure then Err "no white list provided" else
  let ip := mkWhiteIP [] [] insecure useXForwardedFor in
  if negb insecure then add_entries whiteList ip else Ok ip.

Definition ContainsIP (ip : WhiteIP) (addr : GoNet.IP) : bool :=
  insecure ip ||
  existsb (fun whiteListIP => IP_Equal whiteListIP addr) (whiteListsIPs ip) ||
  existsb (fun whiteListNet => IPNet_Contains whiteListNet addr) (whiteListsNet ip).

Definition parseIP (addr : string) : result GoNet.IP :=
  match ParseIP addr with
  | None => Err ("can't parse IP from address " +:+ addr)
  | Some userIP => Ok userIP
  end.

Definition parseHost (addr : string) : string :=
  match SplitHostPort addr with Ok (host, _) => host | Err _ => addr end.

(** [ip.contains(addr)] *)
Definition ip_contains (ip : WhiteIP) (addr : string) : result bool :=
  match parseIP addr with
  | Err err => Err ("unable to parse address: " +:+ addr +:+ ": " +:+ err)
  | Ok ipAddr => Ok (ContainsIP ip ipAddr)
  end.

(** The loop over the entries of the header: it ends the function with an
    error, with success, or goes on to the remote address with the entries that
    did not match. *)
Inductive scan := Decided (err : option error) | Undecided (invalidMatches : list string).

Fixpoint scan_entries (ip : WhiteIP) (xffs : list string) (invalidMatches : list string) : scan :=
  match xffs with
  | [] => Undecided invalidMatches
  | xff :: xffs' =>
      match ip_contains ip (parseHost xff) with
      | Err err => Decided (Some err)
      | Ok true => Decided None
      | Ok false => scan_entries ip xffs' (invalidMatches ++ [xff])
      end
  end.

(** The entries of all the values of the header, in order. *)
Definition xff_entries (ip : WhiteIP) (req : Request) : list string :=
  if useXForwardedFor ip
  then concat (map (fun xFF => split xFF ",") (default [] (ReqHeader req !! XForwardedFor)))
  else [].

Definition IsAuthorized (ip : WhiteIP) (req : Request) : option error :=
  if insecure ip then None else
  match scan_entries ip (xff_entries ip req) [] with
  | Decided err => err
  | Undecided invalidMatches =>
      match SplitHostPort (RemoteAddr req) with
      | Err err => Some err
      | Ok (host, _) =>
          match ip_contains ip host with
          | Err err => Some err
          | Ok true => None
          | Ok false => Some (join (invalidMatches ++ [RemoteAddr req]) ", " +:+ " matched none of the white list")
          end
      end
  end.

(** ** The middleware *)

Definition StatusForbidden : Z := 403.

Definition NewIPWhiteLister (whiteList : list string) (useXForwardedFor : bool) : result WhiteIP :=
  if bool_decide (length whiteList = 0) then Err "no white list provided" else
  match NewIP whiteList false useXForwardedFor with
  | Err err => Err ("parsing CIDR whitelist: " +:+ err)
  | Ok ip => Ok ip
  end.

Definition IPWhiteLister_ServeHTTP (wl : WhiteIP) (r : Request) : handled :=
  match IsAuthorized wl r with
  | Some _ => WriteHeader StatusForbidden
  | None => CallNext r
  end.

(** * Facts: What the white list lets through

    The list a white list is made of decides what it contains; a network
    contains the addresses that agree with it on the prefix; a request passes
    exactly when an entry of its header or its remote address is listed, and
    every entry before it could be read. *)

(** ** Building the list *)

(** What an entry of the configuration lets through. *)
Definition entry_covers (entry : string) (addr : GoNet.IP) : Prop :=
  match ParseIP entry with
  | Some a => IP_Equal a addr = true
  | None => exists a net, ParseCIDR entry = Ok (a, net) /\ IPNet_Contains net addr = true
  end.

Definition entry_reads (entry : string) : bool :=
  bool_decide (is_Some (ParseIP entry)) || is_ok (ParseCIDR entry).

Lemma ContainsIP_listed ip addr :
  insecure ip = false ->
  ContainsIP ip addr = true <->
  (exists a, a ∈ whiteListsIPs ip /\ IP_Equal a addr = true) \/
  (exists n, n ∈ whiteListsNet ip /\ IPNet_Contains n addr = true).
Proof.
  intros Hi. unfold ContainsIP. rewrite Hi, orb_false_l, orb_true_iff, !existsb_exists.
  setoid_rewrite list_elem_of_In. done.
Qed.

Lemma add_entries_spec whiteList ip :
  insecure ip = false ->
  match add_entries whiteList ip with
  | Err _ => Exists (fun e => entry_reads e = false) whiteList
  | Ok ip' =>
      Forall (fun e => entry_reads e = true) whiteList /\
      insecure ip' = false /\ useXForwardedFor ip' = useXForwardedFor ip /\
      forall addr, ContainsIP ip' addr = true <-> ContainsIP ip addr = true \/ Exists (fun e => entry_covers e addr) whiteList
  end.
Proof.
  revert ip. induction whiteList as [|e l IH]; intros ip Hi; cbn [add_entries].
  { split_and!; try done. intros addr. rewrite Exists_nil. tauto. }
  unfold entry_reads. destruct (ParseIP e) as [a|] eqn:Ea.
  - set (ip1 := mkWhiteIP (whiteListsIPs ip ++ [a]) (whiteListsNet ip) (insecure ip) (useXForwardedFor ip)).
    specialize (IH ip1 Hi). destruct (add_entries l ip1) as [ip'|err]; [|by right].
    destruct IH as (Hr & Hin & Hu & Hc). split_and!; [by constructor; [rewrite Ea|]|done|done|].
    intros addr. rewrite Hc, Exists_cons, !ContainsIP_listed by done. unfold entry_covers at 2. rewrite Ea.
    unfold ip1. simpl. setoid_rewrite elem_of_app. setoid_rewrite list_elem_of_singleton. naive_solver.
  - destruct (ParseCIDR e) as [[a n]|err] eqn:En; [|left; by rewrite Ea, En].
    set (ip1 := mkWhiteIP (whiteListsIPs ip) (whiteListsNet ip ++ [n]) (insecure ip) (useXForwardedFor ip)).
    specialize (IH ip1 Hi). destruct (add_entries l ip1) as [ip'|err]; [|by right].
    destruct IH as (Hr & Hin & Hu & Hc). split_and!; [by constructor; [rewrite Ea, En|]|done|done|].
    intros addr. rewrite Hc, Exists_cons, !ContainsIP_listed by done. unfold entry_covers at 2. rewrite Ea, En.
    unfold ip1. simpl. setoid_rewrite elem_of_app. setoid_rewrite list_elem_of_singleton. naive_solver.
Qed.

(** A white list is built exactly when it is not empty and every entry is
    an address or a network, and it contains exactly the addresses one of its
    entries covers. *)
Theorem NewIP_spec (whiteList : list string) (use : bool) :
  match NewIP whiteList false use with
  | Err _ => whiteList = [] \/ Exists (fun e => entry_reads e = false) whiteList
  | Ok ip =>
      whiteList <> [] /\ Forall (fun e => entry_reads e = true) whiteList /\
      insecure ip = false /\ useXForwardedFor ip = use /\
      forall addr, ContainsIP ip addr = true <-> Exists (fun e => entry_covers e addr) whiteList
  end.
Proof.
  unfold NewIP. case_bool_decide as Hl; simpl.
  - left. by apply length_zero_iff_nil.
  - pose proof (add_entries_spec whiteList (mkWhiteIP [] [] false use) eq_refl) as H.
    destruct (add_entries _ _) as [ip|err]; [|by right]. destruct H as (Hr & Hi & Hu & Hc).
    split_and!; try done; [by intros ->|]. intros addr. rewrite Hc. simpl. split; [intros [|]; done|by right].
Qed.

(** ** Judging a request *)

(** Whether the text of an address is listed; [None] when it is no address. *)
Definition listed (ip : WhiteIP) (addr : string) : option bool :=
  match ParseIP addr with Some a => Some (ContainsIP ip a) | None => None end.

Lemma ip_contains_listed ip addr b : ip_contains ip addr = Ok b <-> listed ip addr = Some b.
Proof. unfold ip_contains, listed, parseIP. destruct (ParseIP addr); split; congruence. Qed.

(** Some entry is listed and the ones before it are addresses that are not. *)
Definition entry_accepted (ip : WhiteIP) (xffs : list string) : Prop :=
  exists pre e post, xffs = pre ++ e :: post /\
    Forall (fun x => listed ip (parseHost x) = Some false) pre /\ listed ip (parseHost e) = Some true.

Lemma scan_entries_spec ip xffs inv :
  match scan_entries ip xffs inv with
  | Decided None => entry_accepted ip xffs
  | Decided (Some _) => ~ entry_accepted ip xffs /\ ~ Forall (fun x => listed ip (parseHost x) = Some false) xffs
  | Undecided _ => ~ entry_accepted ip xffs /\ Forall (fun x => listed ip (parseHost x) = Some false) xffs
  end.
Proof.
  revert inv. induction xffs as [|x xffs IH]; intros inv; cbn [scan_entries].
  { split; [intros (pre & e & post & Heq & _); by destruct pre|done]. }
  destruct (ip_contains ip (parseHost x)) as [[|]|err] eqn:E.
  - apply ip_contains_listed in E. exists [], x, xffs. done.
  - apply ip_contains_listed in E. specialize (IH (inv ++ [x])).
    assert (entry_accepted ip (x :: xffs) <-> entry_accepted ip xffs) as Hacc.
    { split.
      - intros ([|y pre] & e & post & [= -> ->] & Hpre & He); [congruence|].
        exists pre, e, post. by inversion Hpre.
      - intros (pre & e & post & -> & Hpre & He). exists (x :: pre), e, post. split_and!; [done| |done]. by constructor. }
    destruct (scan_entries ip xffs (inv ++ [x])) as [[err|]|inv']; rewrite ?Hacc, ?Forall_cons; tauto.
  - assert (listed ip (parseHost x) = None) as Hn.
    { unfold ip_contains, listed, parseIP in *. by destruct (ParseIP (parseHost x)). }
    split; [intros ([|y pre] & e & post & [= -> ->] & Hpre & He)|intros H].
    + congruence.
    + inversion Hpre. congruence.
    + inversion H. congruence.
Qed.

Lemma IsAuthorized_cases (ip : WhiteIP) (req : Request) :
  IsAuthorized ip req = None <->
  insecure ip = true \/
  entry_accepted ip (xff_entries ip req) \/
  (Forall (fun x => listed ip (parseHost x) = Some false) (xff_entries ip req) /\
   exists host port, SplitHostPort (RemoteAddr req) = Ok (host, port) /\ listed ip host = Some true).
Proof.
  unfold IsAuthorized. destruct (insecure ip); [by split; [left|]|].
  pose proof (scan_entries_spec ip (xff_entries ip req) []) as Hs.
  destruct (scan_entries ip (xff_entries ip req) []) as [[err|]|inv]; [naive_solver|naive_solver|].
  destruct Hs as [Hna Hall]. destruct (SplitHostPort (RemoteAddr req)) as [[host port]|err]; [|naive_solver].
  destruct (ip_contains ip host) as [[|]|err] eqn:E; [apply ip_contains_listed in E|apply ip_contains_listed in E|].
  - naive_solver.
  - naive_solver congruence.
  - assert (listed ip host = None) as Hn by (unfold ip_contains, listed, parseIP in *; by destruct (ParseIP host)).
    naive_solver congruence.
Qed.

(** A request is authorized exactly when the list is disabled, or an entry
    of its X-Forwarded-For header (when that is used) is listed and every entry
    before it is an address, or every entry is an unlisted address and the
    remote address is listed.  In particular one unreadable entry before a
    listed one, or any unreadable entry when none is listed, refuses it. *)
Theorem IsAuthorized_spec (ip : WhiteIP) (req : Request) :
  IsAuthorized ip req = None <->
  insecure ip = true \/
  entry_accepted ip (xff_entries ip req) \/
  (Forall (fun x => listed ip (parseHost x) = Some false) (xff_entries ip req) /\
   exists host port, SplitHostPort (RemoteAddr req) = Ok (host, port) /\ listed ip host = Some true).
Proof. apply IsAuthorized_cases. Qed.

(** ** Entries after a space *)

Lemma ParseIP_space s : ParseIP (String " " s) = None.
Proof. unfold ParseIP. by destruct (first_mark (String " " s)) as [[]|]. Qed.

Lemma rcut_Some s c a b : rcut s c = Some (a, b) -> s = a +:+ String c b.
Proof.
  unfold rcut. destruct (cut (String.rev s) (String c "")) as [[x y]|] eqn:E; [|done]. intros [= <- <-].
  apply cut_Some in E. rewrite <-(rev_involutive_str s), E, !rev_app_str. by rewrite app_assoc_str.
Qed.

Lemma parseHost_space s : exists t, parseHost (String " " s) = String " " t.
Proof.
  unfold parseHost, SplitHostPort. destruct (rcut (String " " s) ":") as [[a b]|] eqn:E; [|by eexists].
  apply rcut_Some in E. destruct a as [|c a]; [discriminate|].
  rewrite app_cons_str in E. injection E as <- _. cbn beta iota.
  destruct (negb (free ":" _)); [by eexists|]. destruct (negb (free "[" _)); [by eexists|].
  destruct (negb (free "]" _)); by eexists.
Qed.

Lemma spaced_not_listed ip s : listed ip (parseHost (String " " s)) = None.
Proof. destruct (parseHost_space s) as [t ->]. unfold listed. by rewrite ParseIP_space. Qed.

(** The usual form of the header, entries separated by a comma and a
    space, is only understood up to its first entry: unless that one is listed
    the request is refused, whatever the other entries and the remote address
    are. *)
Theorem spaced_header_refused (ip : WhiteIP) (req : Request) (first rest : string) (others : list string) :
  insecure ip = false -> useXForwardedFor ip = true ->
  ReqHeader req !! XForwardedFor = Some ((first +:+ ", " +:+ rest) :: others) ->
  free ","%char first = true ->
  IsAuthorized ip req = None <-> listed ip (parseHost first) = Some true.
Proof.
  intros Hi Hu Hh Hf.
  assert (exists tl, xff_entries ip req = first :: String " " tl.1 :: tl.2) as [tl Hx].
  { unfold xff_entries. rewrite Hu, Hh. cbn [from_option id map concat].
    change (first +:+ ", " +:+ rest) with (first +:+ String "," (String " " rest)). rewrite split_sep by done.
    destruct (split_cases "," (String " " rest)) as [[_ ->]|(a & b & Heq & _ & ->)]; [by exists (rest, concat (map (fun x => split x ",") others))|].
    destruct a as [|c a]; [discriminate|]. rewrite app_cons_str in Heq. injection Heq as <- _.
    by eexists (a, _). }
  rewrite IsAuthorized_cases, Hi, Hx. split.
  - intros [?|[(pre & e & post & Heq & Hpre & He)|[Hall _]]]; [done| |].
    + destruct pre as [|p1 [|p2 pre]]; simpl in Heq; simplify_eq; [done| |].
      * by rewrite spaced_not_listed in He.
      * apply Forall_cons in Hpre as [_ Hpre]. apply Forall_cons in Hpre as [Hp _].
        by rewrite spaced_not_listed in Hp.
    + apply Forall_cons in Hall as [_ Hall]. apply Forall_cons in Hall as [Hp _]. by rewrite spaced_not_listed in Hp.
  - intros He. right. left. exists [], first, (String " " tl.1 :: tl.2). done.
Qed.

Definition office_list : WhiteIP :=
  mkWhiteIP [] [mkIPNet [10; 0; 0; 0]%Z [255; 0; 0; 0]%Z] false true.

Definition forwarded_request : Request :=
  mkRequest "GET" (mkURL "" "" "" "/" "" false "") {["X-Forwarded-For" := ["8.8.8.8, 10.0.0.7"]]} "proxy" "/" "10.0.0.1:99" false.

Lemma spaced_header_refused_witness :
  IsAuthorized office_list forwarded_request = None <-> listed office_list (parseHost "8.8.8.8") = Some true.
Proof.
  apply (spaced_header_refused office_list forwarded_request "8.8.8.8" "10.0.0.7" []); reflexivity.
Defined.

(** ** Networks *)

Local Open Scope Z_scope.

(** The number an address spells, most significant byte first. *)
Fixpoint ip_value (ip : GoNet.IP) : Z :=
  match ip with [] => 0 | b :: ip' => b * 2 ^ (8 * Z.of_nat (length ip')) + ip_value ip' end.

Definition is_bytes (ip : GoNet.IP) : Prop := Forall (fun b => 0 <= b < 256) ip.

Lemma ip_value_bounds ip : is_bytes ip -> 0 <= ip_value ip < 2 ^ (8 * Z.of_nat (length ip)).
Proof.
  induction 1 as [|b ip Hb _ IH]; simpl; [lia|].
  replace (8 * Z.of_nat (S (length ip))) with (8 + 8 * Z.of_nat (length ip)) by lia.
  rewrite Z.pow_add_r by lia. nia.
Qed.

(** The top [8 - ones] bits of a byte under its mask. *)
Lemma mask_byte ones x y :
  0 <= ones < 8 -> 0 <= x < 256 -> 0 <= y < 256 ->
  (Z.land x (Z.land (Z.lnot (Z.shiftr 0xff ones)) 0xff) = Z.land y (Z.land (Z.lnot (Z.shiftr 0xff ones)) 0xff)) <->
  x / 2 ^ (8 - ones) = y / 2 ^ (8 - ones).
Proof.
  intros Ho Hx Hy.
  assert (Z.land (Z.lnot (Z.shiftr 0xff ones)) 0xff = Z.shiftl (Z.ones ones) (8 - ones)) as ->.
  { assert (ones ∈ [0; 1; 2; 3; 4; 5; 6; 7]) as Hin by (rewrite !elem_of_cons, elem_of_nil; lia).
    revert Hin. clear. revert ones. apply Forall_forall. repeat constructor. }
  assert (forall z, 0 <= z < 256 -> Z.land z (Z.shiftl (Z.ones ones) (8 - ones)) = z / 2 ^ (8 - ones) * 2 ^ (8 - ones)) as Hz.
  { intros z Hz. rewrite <-Z.shiftr_div_pow2, <-Z.shiftl_mul_pow2 by lia. apply Z.bits_inj'. intros n Hn.
    rewrite Z.land_spec, !Z.shiftl_spec by lia.
    destruct (decide (n < 8 - ones)).
    - rewrite !(Z.testbit_neg_r _ (n - (8 - ones))) by lia. apply andb_false_r.
    - rewrite Z.shiftr_spec by lia. replace (n - (8 - ones) + (8 - ones)) with n by lia.
      destruct (decide (n < 8)).
      + rewrite Z.ones_spec_low by lia. apply andb_true_r.
      + rewrite Z.bits_above_log2; [done|lia|].
        apply Z.le_lt_trans with 7; [|lia]. change 7 with (Z.log2 255). apply Z.log2_le_mono. lia. }
  rewrite !Hz by done. split; [|by intros ->]. intros H.
  apply Z.mul_reg_r in H; [done|]. pose proof (Z.pow_pos_nonneg 2 (8 - ones)). lia.
Qed.

Lemma mask_zero len x y :
  length x = len -> length y = len -> mask_bytes x (CIDRMask len 0) = mask_bytes y (CIDRMask len 0).
Proof.
  revert x y. induction len as [|len IH]; intros [|a x] [|b y] Hx Hy; try done. unfold mask_bytes in *. simpl.
  injection Hx as Hx. injection Hy as Hy. rewrite !Z.land_0_r. f_equal. by apply IH.
Qed.

Lemma div_high a v p k : 0 <= v < 2 ^ p -> 0 <= k -> 0 <= p -> (a * 2 ^ p + v) / 2 ^ (k + p) = a / 2 ^ k.
Proof.
  intros Hv Hk Hp. rewrite Z.add_comm, Z.pow_add_r by lia.
  rewrite (Z.mul_comm (2 ^ k)), <-Z.div_div by (try apply Z.pow_pos_nonneg; lia).
  rewrite Z.div_add by lia. rewrite (Z.div_small v) by lia. done.
Qed.

Lemma div_low a v p k : 0 <= k <= p -> (a * 2 ^ p + v) / 2 ^ k = a * 2 ^ (p - k) + v / 2 ^ k.
Proof.
  intros Hk. replace p with ((p - k) + k) at 1 by lia. rewrite Z.pow_add_r, Z.mul_assoc by lia.
  apply Z.div_add_l. lia.
Qed.

(** Masking two addresses alike is comparing their prefixes. *)
Lemma mask_prefix len ones x y :
  length x = len -> length y = len -> is_bytes x -> is_bytes y -> 0 <= ones <= 8 * Z.of_nat len ->
  mask_bytes x (CIDRMask len ones) = mask_bytes y (CIDRMask len ones) <->
  ip_value x / 2 ^ (8 * Z.of_nat len - ones) = ip_value y / 2 ^ (8 * Z.of_nat len - ones).
Proof.
  revert ones x y. induction len as [|len IH]; intros ones [|a x] [|b y] Hx Hy Bx By Ho; try done.
  injection Hx as Hx. injection Hy as Hy. apply Forall_cons in Bx as [Ba Bx]. apply Forall_cons in By as [Bb By].
  pose proof (ip_value_bounds x Bx) as Vx. pose proof (ip_value_bounds y By) as Vy. rewrite Hx in Vx. rewrite Hy in Vy.
  cbn [CIDRMask ip_value]. rewrite Hx, Hy. set (p := 8 * Z.of_nat len) in *.
  replace (8 * Z.of_nat (S len)) with (8 + p) in * by lia.
  destruct (ones >=? 8) eqn:E.
  - assert (forall z, 0 <= z < 256 -> Z.land z 0xff = z) as Hff.
    { intros z Hz. change 0xff with (Z.ones 8). rewrite Z.land_ones by lia. by apply Z.mod_small. }
    unfold mask_bytes. cbn [zip_with]. rewrite !Hff by lia. fold (mask_bytes x (CIDRMask len (ones - 8))). fold (mask_bytes y (CIDRMask len (ones - 8))).
    specialize (IH (ones - 8) x y Hx Hy Bx By ltac:(lia)). fold p in IH.
    replace (p - (ones - 8)) with (8 + p - ones) in IH by lia.
    assert (forall v, 0 <= v < 2 ^ p -> 0 <= v / 2 ^ (8 + p - ones) < 2 ^ (ones - 8)) as Hq.
    { intros v Hv. split; [apply Z.div_pos; [lia|apply Z.pow_pos_nonneg; lia]|].
      apply Z.div_lt_upper_bound; [apply Z.pow_pos_nonneg; lia|]. rewrite <-Z.pow_add_r by lia.
      replace (8 + p - ones + (ones - 8)) with p by lia. lia. }
    rewrite !div_low by lia. replace (p - (8 + p - ones)) with (ones - 8) by lia.
    pose proof (Hq _ Vx) as Qx. pose proof (Hq _ Vy) as Qy. set (qx := ip_value x / _) in *. set (qy := ip_value y / _) in *.
    split.
    + intros [= -> Hm%IH]. by rewrite Hm.
    + intros Heq. assert (a = b) as -> by nia. f_equal. apply IH. lia.
  - unfold mask_bytes. cbn [zip_with]. fold (mask_bytes x (CIDRMask len 0)). fold (mask_bytes y (CIDRMask len 0)).
    rewrite (mask_zero len x y) by done. replace (8 + p - ones) with ((8 - ones) + p) by lia.
    rewrite !div_high by lia. rewrite <-mask_byte by lia.
    split; [by intros [= H]|by intros ->].
Qed.

Lemma number_go_nonneg value base s n m rest :
  (forall c d, value c = Some d -> 0 <= d) -> 0 <= base -> 0 <= n ->
  number_go value base s n = Some (m, rest) -> 0 <= m.
Proof.
  intros Hv Hb. revert n. induction s as [|c s IH]; intros n Hn; cbn [number_go]; [by intros [= <- _]|].
  destruct (value c) as [d|] eqn:E; [|by intros [= <- _]]. apply Hv in E.
  destruct (_ >=? big); [done|]. apply IH. nia.
Qed.

Lemma dtoi_nonneg s m rest : dtoi s = Some (m, rest) -> 0 <= m.
Proof.
  unfold dtoi, number. destruct s as [|c s]; [done|]. destruct (dec_value c); [|done].
  apply number_go_nonneg; [|lia..]. intros d e. unfold dec_value, is_digit, in_range.
  destruct (_ && _) eqn:E; [|done]. intros [= <-]. lia.
Qed.

Lemma ipv4_go_bytes k first s l : ipv4_go k first s = Some l -> length l = k /\ is_bytes l.
Proof.
  revert first s l. induction k as [|k IH]; intros first s l; cbn [ipv4_go].
  { case_bool_decide; [|done]. intros [= <-]. split; [done|constructor]. }
  destruct (if first then Some s else strip_prefix "." s) as [t|]; [|done].
  destruct (dtoi t) as [[n rest]|] eqn:En; [|done]. destruct (n >? 0xFF) eqn:Hn; [done|].
  destruct (ipv4_go k false rest) as [l'|] eqn:El; [|done]. intros [= <-].
  apply IH in El as [Hlen Hb]. apply dtoi_nonneg in En. split; [simpl; lia|]. constructor; [lia|done].
Qed.

Lemma parseIPv4_bytes s a :
  parseIPv4 s = Some a -> exists l, a = v4InV6Prefix ++ l /\ length l = 4%nat /\ is_bytes l.
Proof.
  unfold parseIPv4. destruct (ipv4_go 4 true s) as [l|] eqn:E; [|done]. intros [= <-].
  apply ipv4_go_bytes in E as [? ?]. eauto.
Qed.

Lemma length_CIDRMask len ones : length (CIDRMask len ones) = len.
Proof. revert ones. induction len as [|len IH]; intros ones; [done|]. simpl. destruct (ones >=? 8); simpl; by rewrite IH. Qed.

Lemma mask_idemp x m : mask_bytes (mask_bytes x m) m = mask_bytes x m.
Proof.
  unfold mask_bytes. revert m. induction x as [|a x IH]; intros [|b m]; [done..|]. simpl. f_equal; [|apply IH].
  by rewrite <-Z.land_assoc, Z.land_diag.
Qed.

Lemma To4_length x x4 : To4 x = Some x4 -> length x4 = 4%nat.
Proof.
  unfold To4. case_bool_decide; [by intros [= <-]|].
  destruct (bool_decide (length x = 16%nat)) eqn:E; [|done]. apply bool_decide_eq_true in E.
  case_bool_decide; [|done]. intros [= <-]. rewrite length_drop. lia.
Qed.

Lemma To4_bytes x x4 : is_bytes x -> To4 x = Some x4 -> is_bytes x4.
Proof.
  intros Hx. unfold To4. repeat (case_bool_decide; simpl); try done; intros [= <-]; [done|].
  by apply Forall_drop.
Qed.

Lemma To4_mapped l : length l = 4%nat -> To4 (v4InV6Prefix ++ l) = Some l.
Proof. intros H. destruct l as [|a [|b [|c [|d [|]]]]]; try discriminate. reflexivity. Qed.

Lemma IPNet_Contains_v4 n m x :
  length n = 4%nat -> length m = 4%nat ->
  IPNet_Contains (mkIPNet n m) x =
  bool_decide (length (default x (To4 x)) = 4%nat) &&
  bool_decide (mask_bytes n m = mask_bytes (default x (To4 x)) m).
Proof.
  intros Hn Hm. unfold IPNet_Contains, networkNumberAndMask. cbn [net_IP net_Mask].
  assert (To4 n = Some n) as -> by (unfold To4; by rewrite bool_decide_eq_true_2).
  rewrite Hm, !(bool_decide_eq_true_2 _ Hn). rewrite bool_decide_eq_true_2 by done. cbv iota. by rewrite Hn.
Qed.

(** An IPv4 network of the white list contains an address exactly when
    the address is one of IPv4, plain or mapped into IPv6, and agrees with the
    network on its first [ones] bits. *)
Theorem CIDR_v4_prefix (addr text : string) (a : GoNet.IP) (net : IPNet) (l : GoNet.IP) :
  free "/"%char addr = true -> parseIPv4 addr = Some (v4InV6Prefix ++ l) ->
  ParseCIDR (addr +:+ "/" +:+ text) = Ok (a, net) ->
  exists ones, dtoi text = Some (ones, "") /\ 0 <= ones <= 32 /\
    forall x, is_bytes x -> (length x = 4 \/ length x = 16)%nat ->
      IPNet_Contains net x = true <->
      exists x4, To4 x = Some x4 /\ ip_value x4 / 2 ^ (32 - ones) = ip_value l / 2 ^ (32 - ones).
Proof.
  intros Hf Ha. unfold ParseCIDR. change (addr +:+ "/" +:+ text) with (addr +:+ String "/" text).
  rewrite cut_free, Ha by done. destruct (dtoi text) as [[ones [|c rest]]|] eqn:Et; [|done..].
  destruct (ones >? 8 * Z.of_nat 4) eqn:Eo; [done|]. apply dtoi_nonneg in Et as Hnn.
  assert (0 <= ones <= 32) as Hones by (split; [exact Hnn|]; rewrite Z.gtb_ltb in Eo; by apply Z.ltb_ge in Eo). cbv zeta. remember (CIDRMask 4 ones) as m eqn:Em.
  intros Hok. assert (net = mkIPNet (IP_Mask (v4InV6Prefix ++ l) m) m) as -> by congruence. clear Hok. subst m.
  apply parseIPv4_bytes in Ha as (l' & Heq & Hl & Hb). apply app_inv_head in Heq as <-.
  exists ones. split; [done|]. split; [done|]. intros x Hx Hlen.
  unfold IP_Mask. rewrite To4_mapped, length_CIDRMask by done. simpl bool_decide. cbv iota.
  assert (length (mask_bytes l (CIDRMask 4 ones)) = 4%nat) as Hm.
  { unfold mask_bytes. rewrite length_zip_with, length_CIDRMask, Hl. done. }
  rewrite IPNet_Contains_v4, mask_idemp by (try done; apply length_CIDRMask).
  destruct (To4 x) as [x4|] eqn:E4; cbn [from_option id default].
  - pose proof (To4_length _ _ E4) as H4. rewrite (bool_decide_eq_true_2 _ H4), andb_true_l, bool_decide_eq_true.
    rewrite (mask_prefix 4) by first [done|by eapply To4_bytes|exact Hones]. change (8 * Z.of_nat 4) with 32.
    split; [intros H; by exists x4|by intros (? & [= <-] & H)].
  - assert (length x <> 4%nat) as H4 by (intros H; unfold To4 in E4; by rewrite bool_decide_eq_true_2 in E4).
    rewrite (bool_decide_eq_false_2 _ H4). split; [done|by intros (? & ? & _)].
Qed.

Lemma CIDR_v4_prefix_witness :
  exists ones, dtoi "20" = Some (ones, "") /\ 0 <= ones <= 32 /\
    forall x, is_bytes x -> (length x = 4 \/ length x = 16)%nat ->
      IPNet_Contains (mkIPNet [10; 1; 0; 0] [255; 255; 240; 0]) x = true <->
      exists x4, To4 x = Some x4 /\ ip_value x4 / 2 ^ (32 - ones) = ip_value [10; 1; 2; 3] / 2 ^ (32 - ones).
Proof.
  apply (CIDR_v4_prefix "10.1.2.3" "20" (v4InV6Prefix ++ [10; 1; 2; 3])); vm_compute; reflexivity.
Defined.
