(* ===== verification/Rules.v ===== *)
(** * [rules/rules.go]: the rules of the routes

    A rule is a list of functions with arguments; each adds a matcher to a mux
    route, or an instruction on the request's path to the server route.  A mux
    route is the list of its matchers and the error of building it, as far as
    the rules use it ([vendor/github.com/containous/mux]); the compilation of
    path, host and query templates and of regular expressions is a parameter.
    Parsing works on the server route as a state and may panic. *)
From S2P Require Import Prelude GoStrings GoStringsFacts GoHttp OsioClient Types GoNet.

(** ** Mux routes *)

Inductive TemplateKind := HostTemplate | PathTemplate | PathPrefixTemplate | QueryTemplate.

Class Mux := {
  (** [addRegexpMatcher] on a route whose query templates are given: the
      matcher of the template or its error. *)
  compile_template : TemplateKind -> string -> list string -> result (Request -> bool);
  (** [regexp.Compile] and [MatchString]. *)
  compile_regexp : string -> result (string -> bool);
  (** [sort.Sort] with the order of [bySize]: longest first. *)
  sort_by_size : list string -> list string;
}.

(** What [sort.Sort] documents: a permutation, sorted. *)
Class MuxLaws (mux : Mux) := {
  sort_by_size_perm l : sort_by_size l ≡ₚ l;
  sort_by_size_sorted l : StronglySorted (fun a b => String.length b <= String.length a) (sort_by_size l);
}.

(** A route of a subrouter has one matcher: a template, or a function on the
    path's prefix. *)
Inductive SubRoute :=
  | SubTemplate (t : result (Request -> bool))
  | SubPrefix (prefix : string).

Inductive Matcher :=
  | MHosts (hosts : list string)
  | MSubrouter (routes : list SubRoute)
  | MMethods (methods : list string)
  | MHeaders (headers : gmap string string)
  | MHeadersRegexp (headers : list (string * (string -> bool)))
  | MQuery (query : Request -> bool).

Record MuxRoute := mkMuxRoute {
  matchers : list Matcher;
  route_queries : list string;
  route_err : option error;
  route_priority : Z;
}.

Definition new_route : MuxRoute := mkMuxRoute [] [] None 0.

Definition addMatcher (m : Matcher) (r : MuxRoute) : MuxRoute :=
  match route_err r with
  | Some _ => r
  | None => mkMuxRoute (matchers r ++ [m]) (route_queries r) None (route_priority r)
  end.
Definition set_err (e : option error) (r : MuxRoute) : MuxRoute :=
  mkMuxRoute (matchers r) (route_queries r) e (route_priority r).

(** Matching a request. *)
Definition sub_matches (s : SubRoute) (req : Request) : bool :=
  match s with
  | SubTemplate (Ok f) => f req
  | SubTemplate (Err _) => false
  | SubPrefix p => has_prefix (req_path req) p || has_prefix (req_path req) (p +:+ "/")
  end.

(** [matchMapWithString]: an empty value asks for the header only. *)
Definition header_matches (h : Header) (k v : string) : bool :=
  match h !! canonical_key k with
  | None => false
  | Some values => bool_decide (v = "") || bool_decide (v ∈ values)
  end.

Definition header_matches_regexp (h : Header) (kv : string * (string -> bool)) : bool :=
  match h !! canonical_key kv.1 with
  | None => false
  | Some values => existsb kv.2 values
  end.

Definition request_host (req : Request) : string :=
  match SplitHostPort (Host req) with Ok (reqHost, _) => reqHost | Err _ => Host req end.

Definition matcher_matches (m : Matcher) (req : Request) : bool :=
  match m with
  | MHosts hosts =>
      existsb (fun host => bool_decide (CanonicalDomain (request_host req) = CanonicalDomain host)) hosts
  | MSubrouter routes => existsb (fun s => sub_matches s req) routes
  | MMethods methods => bool_decide (Method req ∈ methods)
  | MHeaders headers => bool_decide (map_Forall (fun k v => header_matches (ReqHeader req) k v = true) headers)
  | MHeadersRegexp headers => forallb (header_matches_regexp (ReqHeader req)) headers
  | MQuery f => f req
  end.

Definition route_matches (r : MuxRoute) (req : Request) : bool :=
  bool_decide (route_err r = None) && forallb (fun m => matcher_matches m req) (matchers r).

(** ** Server routes *)

Record ServerRoute := mkServerRoute {
  sr_Route : MuxRoute;
  StripPrefixes : list string;
  StripPrefixesRegex : list string;
  AddPrefix : string;
  ReplacePath : string;
  ReplacePathRegex : string;
}.
Definition new_server_route : ServerRoute := mkServerRoute new_route [] [] "" "" "".

Definition set_route (r : MuxRoute) (s : ServerRoute) : ServerRoute :=
  mkServerRoute r (StripPrefixes s) (StripPrefixesRegex s) (AddPrefix s) (ReplacePath s) (ReplacePathRegex s).
Definition set_StripPrefixes (l : list string) (s : ServerRoute) : ServerRoute :=
  mkServerRoute (sr_Route s) l (StripPrefixesRegex s) (AddPrefix s) (ReplacePath s) (ReplacePathRegex s).
Definition set_StripPrefixesRegex (l : list string) (s : ServerRoute) : ServerRoute :=
  mkServerRoute (sr_Route s) (StripPrefixes s) l (AddPrefix s) (ReplacePath s) (ReplacePathRegex s).
Definition set_AddPrefix (p : string) (s : ServerRoute) : ServerRoute :=
  mkServerRoute (sr_Route s) (StripPrefixes s) (StripPrefixesRegex s) p (ReplacePath s) (ReplacePathRegex s).
Definition set_ReplacePath (p : string) (s : ServerRoute) : ServerRoute :=
  mkServerRoute (sr_Route s) (StripPrefixes s) (StripPrefixesRegex s) (AddPrefix s) p (ReplacePathRegex s).
Definition set_ReplacePathRegex (p : string) (s : ServerRoute) : ServerRoute :=
  mkServerRoute (sr_Route s) (StripPrefixes s) (StripPrefixesRegex s) (AddPrefix s) (ReplacePath s) p.

Section Rules.
Context `{mux : Mux}.

(** A rule function returns the route, [None] for a nil one. *)
Definition RuleFn : Type := list string -> M ServerRoute (option unit).

Definition on_route (f : MuxRoute -> MuxRoute) : M ServerRoute (option unit) :=
  _ ← modify_state (fun s => set_route (f (sr_Route s)) s); mret (Some tt).

Definition on_server_route (f : ServerRoute -> ServerRoute) : M ServerRoute (option unit) :=
  _ ← modify_state f; mret (Some tt).

(** A subrouter whose routes are made from the arguments; it inherits the
    query templates of its parent. *)
Definition subrouter (f : list string -> string -> SubRoute) (paths : list string) (r : MuxRoute) : MuxRoute :=
  addMatcher (MSubrouter (map (f (route_queries r)) paths)) r.

Definition host : RuleFn := fun hosts => on_route (addMatcher (MHosts hosts)).

Definition hostRegexp : RuleFn := fun hosts =>
  on_route (subrouter (fun qs h => SubTemplate (compile_template HostTemplate (CanonicalDomain h) qs)) hosts).

Definition path_route (qs : list string) (p : string) : SubRoute :=
  SubTemplate (compile_template PathTemplate (trim_space p) qs).

Definition prefix_template (qs : list string) (p : string) : SubRoute :=
  SubTemplate (compile_template PathPrefixTemplate (trim_space p) qs).

Definition buildPath (qs : list string) (p : string) : SubRoute :=
  let cleanPath := trim_space p in
  if contains cleanPath "{" then SubTemplate (compile_template PathPrefixTemplate cleanPath qs)
  else SubPrefix cleanPath.

Definition path : RuleFn := fun paths => on_route (subrouter path_route paths).
Definition pathPrefix : RuleFn := fun paths => on_route (subrouter buildPath paths).

Definition pathStrip : RuleFn := fun paths =>
  let paths := sort_by_size paths in
  _ ← on_server_route (set_StripPrefixes paths); on_route (subrouter path_route paths).

Definition pathStripRegex : RuleFn := fun paths =>
  let paths := sort_by_size paths in
  _ ← on_server_route (set_StripPrefixesRegex paths); on_route (subrouter path_route paths).

(** The last argument wins. *)
Definition replacePath : RuleFn := fun paths => on_server_route (fun s => foldl (fun s p => set_ReplacePath p s) s paths).
Definition replacePathRegex : RuleFn := fun paths =>
  on_server_route (fun s => foldl (fun s p => set_ReplacePathRegex p s) s paths).
Definition addPrefix : RuleFn := fun paths => on_server_route (fun s => foldl (fun s p => set_AddPrefix p s) s paths).

Definition pathPrefixStrip : RuleFn := fun paths =>
  let paths := sort_by_size paths in
  _ ← on_server_route (set_StripPrefixes paths); on_route (subrouter buildPath paths).

Definition pathPrefixStripRegex : RuleFn := fun paths =>
  let paths := sort_by_size paths in
  _ ← on_server_route (set_StripPrefixesRegex paths); on_route (subrouter prefix_template paths).

Definition methods : RuleFn := fun methods => on_route (addMatcher (MMethods (map to_upper methods))).

(** [mapFromPairsToString]: of equal keys the last wins. *)
Fixpoint pairs_of (l : list string) : option (list (string * string)) :=
  match l with
  | [] => Some []
  | [_] => None
  | k :: v :: l' => match pairs_of l' with Some ps => Some ((k, v) :: ps) | None => None end
  end.

Definition pairs_error : error := "mux: number of parameters must be multiple of 2".

Definition add_headers (args : list string) (r : MuxRoute) : MuxRoute :=
  match route_err r with
  | Some _ => r
  | None =>
      match pairs_of args with
      | None => set_err (Some pairs_error) r
      | Some ps => addMatcher (MHeaders (foldl (fun m p => <[p.1 := p.2]> m) ∅ ps)) r
      end
  end.
Definition headers : RuleFn := fun args => on_route (add_headers args).

Fixpoint compile_pairs (ps : list (string * string)) (m : list (string * (string -> bool))) :
    result (list (string * (string -> bool))) :=
  match ps with
  | [] => Ok m
  | (k, v) :: ps' => re ← compile_regexp v; compile_pairs ps' (filter (fun p => p.1 <> k) m ++ [(k, re)])
  end.

Definition add_headers_regexp (args : list string) (r : MuxRoute) : MuxRoute :=
  match route_err r with
  | Some _ => r
  | None =>
      match pairs_of args with
      | None => set_err (Some pairs_error) r
      | Some ps =>
          match compile_pairs ps [] with
          | Err err => set_err (Some err) r
          | Ok m => addMatcher (MHeadersRegexp m) r
          end
      end
  end.
Definition headersRegexp : RuleFn := fun args => on_route (add_headers_regexp args).

(** [Route.Queries]: a nil route for an odd number of arguments. *)
Fixpoint add_queries (ps : list (string * string)) (r : MuxRoute) : MuxRoute :=
  match ps with
  | [] => r
  | (k, v) :: ps' =>
      match route_err r with
      | Some _ => r
      | None =>
          let tpl := k +:+ "=" +:+ v in
          match compile_template QueryTemplate tpl (route_queries r) with
          | Err err => set_err (Some err) r
          | Ok f =>
              let r := addMatcher (MQuery f) r in
              add_queries ps' (mkMuxRoute (matchers r) (route_queries r ++ [tpl]) (route_err r) (route_priority r))
          end
      end
  end.

Definition query : RuleFn := fun query =>
  let queries := concat (map (fun elem => split elem "=") query) in
  match pairs_of queries with
  | None => _ ← on_route (set_err (Some pairs_error)); mret None
  | Some ps => on_route (add_queries ps)
  end.

Definition functions (functionName : string) : option RuleFn :=
  match list_find (fun f => f.1 = functionName)
    [("Host", host); ("HostRegexp", hostRegexp); ("Path", path); ("PathStrip", pathStrip);
     ("PathStripRegex", pathStripRegex); ("PathPrefix", pathPrefix); ("PathPrefixStrip", pathPrefixStrip);
     ("PathPrefixStripRegex", pathPrefixStripRegex); ("Method", methods); ("Headers", headers);
     ("HeadersRegexp", headersRegexp); ("AddPrefix", addPrefix); ("ReplacePath", replacePath);
     ("ReplacePathRegex", replacePathRegex); ("Query", query)] with
  | Some (_, f) => Some f.2
  | None => None
  end.

(** ** Parsing *)

Definition is_char (x c : ascii) : bool := Ascii.eqb c x.

(** One rule: the function's name and its arguments. *)
Definition parse_rule (rule : string) : result (string * RuleFn * list string) :=
  match fields_func (is_char ":") rule with
  | [] => Err ("error parsing rule: '" +:+ rule +:+ "'")
  | name :: rest =>
      let functionName := trim_space name in
      match functions functionName with
      | None => Err ("error parsing rule: '" +:+ rule +:+ "'. Unknown function: '" +:+ name +:+ "'")
      | Some parsedFunction =>
          match fields_func (is_char ",") (join rest ":") with
          | [] => Err ("error parsing args from rule: '" +:+ rule +:+ "'")
          | parsedArgs => Ok (functionName, parsedFunction, map trim_space parsedArgs)
          end
      end
  end.

Definition OnRule (S : Type) : Type := string -> RuleFn -> list string -> M S (option error).

Fixpoint rules_loop {S} (rules : list string) (onRule : OnRule S) : M S (option error) :=
  match rules with
  | [] => mret None
  | rule :: rules' =>
      match parse_rule rule with
      | Err err => mret (Some err)
      | Ok (functionName, parsedFunction, parsedArgs) =>
          err ← onRule functionName parsedFunction parsedArgs;
          match err with
          | Some err => mret (Some ("parsing error on rule: " +:+ err))
          | None => rules_loop rules' onRule
          end
      end
  end.

Definition parseRules {S} (expression : string) (onRule : OnRule S) : M S (option error) :=
  if bool_decide (expression = "") then mret (Some "empty rule")
  else rules_loop (fields_func (is_char ";") expression) onRule.

(** The callback of [Parse]: calls the function and looks at the error of the
    route it returned, which a nil route does not have.  The state carries
    whether a route was returned so far. *)
Definition call_rule : OnRule (ServerRoute * bool) := fun _ function arguments =>
  resultRoute ← zoom fst (fun s p => (s, p.2)) (function arguments);
  match resultRoute with
  | None => panic nil_dereference
  | Some _ =>
      _ ← modify_state (fun p => (p.1, true));
      s ← get_state;
      mret (route_err (sr_Route s.1))
  end.

(** [r.Parse(expression)]: whether a route was returned ([false] is a nil route
    without an error). *)
Definition Parse (expression : string) : M ServerRoute (result bool) := fun s =>
  match parseRules expression call_rule (s, false) with
  | (Ret (Some err), p) => (Ret (Err ("error parsing rule: " +:+ err)), p.1)
  | (Ret None, p) => (Ret (Ok p.2), p.1)
  | (Panic e, p) => (Panic e, p.1)
  | (Crash e, p) => (Crash e, p.1)
  end.

Definition collect_host : OnRule (list string) := fun functionName _ arguments =>
  _ ← modify_state (fun domains => if bool_decide (functionName = "Host") then domains ++ arguments else domains);
  mret None.

Definition ParseDomains (expression : string) : result (list string) :=
  match parseRules expression collect_host [] with
  | (Ret (Some err), _) => Err ("error parsing domains: " +:+ err)
  | (_, domains) => Ok (map CanonicalDomain domains)
  end.

End Rules.

(** * Facts: What the rules do

    A rule whose arguments contain none of the separators is read back as it
    was written; what the OSIO provider's rules match; the panic of a query
    rule without a value; the order of the prefixes to strip. *)

(** ** Arguments that survive the separators *)

(** An argument that no separator of the rule language cuts, nor white space
    surrounds; colons are allowed inside it as long as none are adjacent and
    none ends it. *)
Definition rule_arg (s : string) : bool :=
  free ";"%char s && free ","%char s && negb (has_prefix s ":") && negb (bool_decide (s = "")) &&
  bool_decide (join (fields_func (is_char ":") s) ":" = s) && bool_decide (trim_space s = s).

(** A name of the rule language. *)
Definition rule_name (s : string) : bool :=
  free ";"%char s && free ","%char s && free ":"%char s && negb (bool_decide (s = "")) && bool_decide (trim_space s = s).

Lemma free_not_sep c s : free c s = true -> str_forall (fun x => negb (is_char c x)) s = true.
Proof. done. Qed.

Lemma rule_arg_inv s : rule_arg s = true ->
  free ";"%char s = true /\ free ","%char s = true /\ has_prefix s ":" = false /\ s <> "" /\
  join (fields_func (is_char ":") s) ":" = s /\ trim_space s = s.
Proof.
  unfold rule_arg. rewrite !andb_true_iff, !negb_true_iff, !bool_decide_eq_true, bool_decide_eq_false. tauto.
Qed.

Lemma rule_name_inv s : rule_name s = true ->
  free ";"%char s = true /\ free ","%char s = true /\ free ":"%char s = true /\ s <> "" /\ trim_space s = s.
Proof. unfold rule_name. rewrite !andb_true_iff, negb_true_iff, bool_decide_eq_true, bool_decide_eq_false. tauto. Qed.

(** Text without a colon glues to the first field. *)
Lemma fields_glue a b :
  a <> "" -> free ":"%char a = true -> has_prefix b ":" = false -> b <> "" ->
  join (fields_func (is_char ":") b) ":" = b ->
  join (fields_func (is_char ":") (a +:+ b)) ":" = a +:+ b.
Proof.
  intros Ha Hfree Hp Hb Hj. unfold fields_func in *. rewrite fields_go_clean by (by apply free_not_sep).
  destruct (fields_go (is_char ":") b) as [h t] eqn:E. case_bool_decide as Hh.
  - subst h. destruct b as [|c b]; [done|]. simpl in E. destruct (fields_go (is_char ":") b) as [h' t'].
    unfold is_char in E at 1. destruct (Ascii.eqb c ":") eqn:Ec.
    + apply Ascii.eqb_eq in Ec as ->. done.
    + by injection E.
  - rewrite bool_decide_eq_false_2 by (destruct a; done).
    destruct t as [|x t]; simpl in *; [by rewrite Hj|]. rewrite <-Hj. by rewrite app_assoc_str.
Qed.

Lemma fields_rule name args :
  rule_name name = true -> args <> "" -> has_prefix args ":" = false ->
  fields_func (is_char ":") (name +:+ ":" +:+ args) = name :: fields_func (is_char ":") args.
Proof.
  intros (_ & _ & Hc & Hne & _)%rule_name_inv. intros.
  change (name +:+ ":" +:+ args) with (name +:+ String ":" args).
  by apply fields_func_sep; [|apply free_not_sep|].
Qed.

Section Facts.
Context `{mux : Mux}.

(** A rule of one function and one argument. *)
Lemma parse_rule_one name f arg :
  rule_name name = true -> functions name = Some f -> rule_arg arg = true ->
  parse_rule (name +:+ ":" +:+ arg) = Ok (name, f, [arg]).
Proof.
  intros Hn Hf (_ & Hcomma & Hp & Hne & Hj & Htrim)%rule_arg_inv. unfold parse_rule.
  rewrite fields_rule by done. pose proof Hn as (_ & _ & _ & _ & ->)%rule_name_inv. rewrite Hf, Hj.
  rewrite (fields_func_one (is_char ",")) by (done || by apply free_not_sep). simpl. by rewrite Htrim.
Qed.

(** A rule of one function and two arguments. *)
Lemma parse_rule_two name f a b :
  rule_name name = true -> functions name = Some f -> rule_name a = true -> rule_arg b = true ->
  parse_rule (name +:+ ":" +:+ a +:+ "," +:+ b) = Ok (name, f, [a; b]).
Proof.
  intros Hn Hf (_ & Hac & Haf & Hane & Hat)%rule_name_inv (_ & Hcomma & Hp & Hne & Hj & Htrim)%rule_arg_inv.
  unfold parse_rule. assert (has_prefix (a +:+ "," +:+ b) ":" = false) as Hpre.
  { destruct a as [|c a]; [done|]. rewrite free_cons in Haf. apply andb_true_iff in Haf as [Hx _].
    rewrite app_cons_str. unfold has_prefix. cbn [strip_prefix].
    apply negb_true_iff in Hx. rewrite Ascii.eqb_sym in Hx. by rewrite Hx. }
  rewrite fields_rule; [|done|by destruct a|done].
  pose proof Hn as (_ & _ & _ & _ & ->)%rule_name_inv. rewrite Hf.
  assert (join (fields_func (is_char ":") (a +:+ "," +:+ b)) ":" = a +:+ "," +:+ b) as ->.
  { rewrite <-app_assoc_str. apply fields_glue; try done; [by destruct a|]. rewrite free_app, Haf. done. }
  change (a +:+ "," +:+ b) with (a +:+ String "," b).
  rewrite fields_func_sep, (fields_func_one (is_char ",")) by (done || by apply free_not_sep).
  simpl. by rewrite Hat, Htrim.
Qed.

Lemma parseRules_one {S} rule (onRule : OnRule S) :
  rule <> "" -> free ";"%char rule = true -> parseRules rule onRule = rules_loop [rule] onRule.
Proof.
  intros Hne Hf. unfold parseRules. rewrite bool_decide_eq_false_2 by done.
  by rewrite fields_func_one by (done || by apply free_not_sep).
Qed.

(** ** The rule of the OSIO provider *)

Definition target_matcher (url : string) : Matcher := MHeaders {["Target" := url]}.

Lemma headers_target url s :
  route_err (sr_Route s) = None ->
  headers ["Target"; url] s = (Ret (Some tt), set_route (addMatcher (target_matcher url) (sr_Route s)) s).
Proof.
  intros He. unfold headers, on_route, add_headers, mbind, M_bind, modify_state, mret, M_ret. simpl. by rewrite He.
Qed.

Lemma Parse_target_shape url s :
  rule_arg url = true -> route_err (sr_Route s) = None ->
  Parse ("Headers:Target," +:+ url) s =
  (Ret (Ok true), set_route (addMatcher (target_matcher url) (sr_Route s)) s).
Proof.
  intros Hu He. pose proof Hu as (Hsemi & _)%rule_arg_inv. unfold Parse.
  rewrite parseRules_one; [|done|by rewrite (free_app ";" "Headers:Target," url), Hsemi].
  cbn [rules_loop]. change ("Headers:Target," +:+ url) with ("Headers" +:+ ":" +:+ "Target" +:+ "," +:+ url).
  rewrite (parse_rule_two "Headers" headers "Target" url) by done.
  unfold call_rule, mbind, M_bind, zoom. cbn [fst snd]. rewrite headers_target by done.
  unfold modify_state, get_state, mret, M_ret. cbn [fst snd sr_Route set_route]. unfold addMatcher. by rewrite He.
Qed.

(** A route with just this matcher picks the requests whose [Target] header has
    the address among its values. *)
Lemma target_route_matches url s req :
  url <> "" -> sr_Route s = new_route ->
  route_matches (addMatcher (target_matcher url) (sr_Route s)) req = true <->
  url ∈ header_values (ReqHeader req) "Target".
Proof.
  intros Hne ->. unfold route_matches, target_matcher. simpl. rewrite !andb_true_r, bool_decide_eq_true.
  rewrite map_Forall_singleton. unfold header_matches, header_values.
  change (canonical_key "Target") with "Target".
  destruct (ReqHeader req !! "Target") as [vs|]; simpl.
  - by rewrite bool_decide_eq_false_2, orb_false_l, bool_decide_eq_true by done.
  - split; [done|]. intros H. by apply elem_of_nil in H.
Qed.

(** ** Query rules *)

(** A query rule without a value panics: [mux] answers the odd number of
    arguments with a nil route, whose error the parser asks for. *)
Theorem query_without_value_panics (k : string) (s : ServerRoute) :
  rule_arg k = true -> free "="%char k = true ->
  (Parse ("Query:" +:+ k) s).1 = Panic nil_dereference.
Proof.
  intros Hk He. pose proof Hk as (Hsemi & _)%rule_arg_inv. unfold Parse.
  rewrite parseRules_one; [|done|by rewrite (free_app ";" "Query:" k), Hsemi].
  cbn [rules_loop]. change ("Query:" +:+ k) with ("Query" +:+ ":" +:+ k).
  rewrite (parse_rule_one "Query" query k) by done.
  unfold call_rule, mbind at 1, M_bind, mbind at 1, M_bind, zoom, query. simpl.
  by rewrite split_free by done.
Qed.

Lemma fields_comma_args args :
  args <> [] -> Forall (fun a => rule_name a = true) args ->
  fields_func (is_char ",") (join args ",") = args.
Proof.
  intros Hne. induction 1 as [|a args Ha Hargs IH]; [done|].
  pose proof Ha as (_ & Hc & _ & Hn & _)%rule_name_inv. destruct args as [|b args].
  - simpl. by rewrite fields_func_one by (done || by apply free_not_sep).
  - rewrite join_cons by done. change (a +:+ "," +:+ ?x) with (a +:+ String "," x).
    rewrite fields_func_sep by (done || by apply free_not_sep). f_equal. by apply IH.
Qed.

Lemma free_join c args :
  Ascii.eqb "," c = false -> Forall (fun a => free c a = true) args -> free c (join args ",") = true.
Proof.
  intros Hc. induction 1 as [|a args Ha Hargs IH]; [done|]. destruct args as [|b args]; [done|].
  rewrite join_cons by done. rewrite !free_app, Ha, IH. change (free c ",") with (negb (Ascii.eqb "," c) && true). by rewrite Hc.
Qed.

(** The domains of a host rule are its arguments, in order and in
    canonical form. *)
Theorem ParseDomains_hosts (args : list string) :
  args <> [] -> Forall (fun a => rule_name a = true) args ->
  ParseDomains ("Host:" +:+ join args ",") = Ok (map CanonicalDomain args).
Proof.
  intros Hne Hargs. unfold ParseDomains.
  assert (forall c, Ascii.eqb "," c = false -> c = ";"%char \/ c = ":"%char -> free c (join args ",") = true) as Hfree.
  { intros c Hc Hor. apply free_join; [done|]. eapply Forall_impl; [exact Hargs|].
    intros a (? & ? & ? & ? & ?)%rule_name_inv. by destruct Hor as [->| ->]. }
  assert (join args "," <> "") as Hj.
  { destruct args as [|a args]; [done|]. apply Forall_cons in Hargs as [(_ & _ & _ & Ha & _)%rule_name_inv _].
    destruct args; [done|]. rewrite join_cons by done. by destruct a. }
  rewrite parseRules_one; [|done|by rewrite (free_app ";" "Host:" _), Hfree by auto].
  cbn [rules_loop]. unfold parse_rule.
  change ("Host:" +:+ join args ",") with ("Host" +:+ String ":" (join args ",")).
  rewrite fields_func_sep by done.
  rewrite (fields_func_one (is_char ":") (join args ",")) by (done || apply free_not_sep; auto).
  change (functions (trim_space "Host")) with (Some host). cbn [join].
  assert (map trim_space args = args) as Hm.
  { rewrite <-(map_id args) at 2. apply map_ext_Forall. eapply Forall_impl; [exact Hargs|].
    by intros x (_ & _ & _ & _ & ->)%rule_name_inv. }
  rewrite fields_comma_args by done. destruct args as [|a args]; [done|]. rewrite Hm.
  unfold collect_host, mbind, M_bind, modify_state, mret, M_ret. cbn [rules_loop].
  change (trim_space "Host") with "Host". rewrite bool_decide_eq_true_2 by done. rewrite app_nil_l.
  done.
Qed.

End Facts.

(** A mux library to evaluate with: templates are literal paths, sorting is
    merge sort. *)
Definition longer (a b : string) : Prop := String.length b <= String.length a.
#[local] Instance longer_dec : RelDecision longer.
Proof. intros a b. unfold longer. apply _. Defined.
#[local] Instance longer_total : Total longer.
Proof. intros a b. unfold longer. lia. Defined.
#[local] Instance longer_trans : Transitive longer.
Proof. intros a b c. unfold longer. lia. Defined.

Definition sample_mux : Mux := {|
  compile_template := fun k t _ => Ok (fun req => match k with
    | PathPrefixTemplate => has_prefix (req_path req) t | PathTemplate => bool_decide (req_path req = t) | _ => false end);
  compile_regexp := fun s => Ok (fun x => bool_decide (x = s));
  sort_by_size := merge_sort longer |}.

#[export] Instance sample_mux_laws : MuxLaws sample_mux.
Proof.
  split.
  - intros l. apply merge_sort_Permutation.
  - intros l. apply (StronglySorted_merge_sort longer).
Defined.

Lemma query_without_value_panics_witness :
  (Parse (mux := sample_mux) "Query:debug" new_server_route).1 = Panic nil_dereference.
Proof. apply (query_without_value_panics (mux := sample_mux) "debug"); reflexivity. Defined.

Lemma ParseDomains_hosts_witness :
  ParseDomains (mux := sample_mux) "Host:Example.org,shop.example.org" = Ok ["example.org"; "shop.example.org"].
Proof.
  refine (ParseDomains_hosts (mux := sample_mux) ["Example.org"; "shop.example.org"] _ _).
  - discriminate.
  - repeat constructor.
Defined.
