(* ===== verification/Middlewares.v ===== *)
(** * [middlewares/]: the handlers on the path of a request

    Path rewriting ([addPrefix.go], [stripPrefix.go], [stripPrefixRegex.go],
    [replace_path.go], [replace_path_regex.go]), custom headers ([headers.go])
    and the empty-backend guard.  A handler maps a request to what happens
    next; regular expressions are parameters. *)
From S2P Require Import Prelude GoStrings GoStringsFacts Types OsioClient Rules GoHttp GoHttpFacts.

Definition ForwardedPrefixHeader : string := "X-Forwarded-Prefix".
Definition ReplacedPathHeader : string := "X-Replaced-Path".

Definition add_header (k v : string) (r : Request) : Request := set_Header (header_add (ReqHeader r) k v) r.

(** ** stripPrefix.go *)

Definition ensureLeadingSlash (str : string) : string := "/" +:+ trim_prefix str "/".
Definition stripPrefix (s prefix : string) : string := ensureLeadingSlash (trim_prefix s prefix).

Definition strip_url (prefix : string) (u : URL) : URL :=
  let u := set_Path (stripPrefix (Path u) prefix) u in
  if bool_decide (RawPath u = "") then u else set_RawPath (stripPrefix (RawPath u) prefix) u.

Definition serveRequest (r : Request) (prefix : string) : handled :=
  CallNext (sync_RequestURI (add_header ForwardedPrefixHeader prefix r)).

Fixpoint StripPrefix_ServeHTTP (Prefixes : list string) (r : Request) : handled :=
  match Prefixes with
  | [] => NotFound
  | prefix :: Prefixes' =>
      if has_prefix (req_path r) prefix
      then serveRequest (set_URL (strip_url prefix (ReqURL r)) r) (trim_space prefix)
      else StripPrefix_ServeHTTP Prefixes' r
  end.

(** ** addPrefix.go *)

Definition AddPrefix_ServeHTTP (Prefix : string) (r : Request) : handled :=
  let u := set_Path (Prefix +:+ req_path r) (ReqURL r) in
  let u := if bool_decide (RawPath u = "") then u else set_RawPath (Prefix +:+ RawPath u) u in
  CallNext (sync_RequestURI (set_URL u r)).

(** ** replace_path.go and replace_path_regex.go *)

Definition ReplacePath_ServeHTTP (newPath : string) (r : Request) : handled :=
  let r := add_header ReplacedPathHeader (req_path r) r in
  CallNext (sync_RequestURI (set_URL (set_Path newPath (ReqURL r)) r)).

(** A compiled regular expression: [MatchString] and [ReplaceAllString]. *)
Record Regexp := mkRegexp {
  MatchString : string -> bool;
  ReplaceAllString : string -> string -> string;
}.
Class RegexpLib := regexp_Compile : string -> result Regexp.

Record ReplacePathRegexHandler := mkReplacePathRegex { rpr_Regexp : option Regexp; rpr_Replacement : string }.

Definition NewReplacePathRegexHandler `{RegexpLib} (regex replacement : string) : ReplacePathRegexHandler :=
  mkReplacePathRegex
    (match regexp_Compile (trim_space regex) with Ok exp => Some exp | Err _ => None end)
    (trim_space replacement).

Definition ReplacePathRegex_ServeHTTP (s : ReplacePathRegexHandler) (r : Request) : handled :=
  match rpr_Regexp s with
  | Some exp =>
      if negb (bool_decide (rpr_Replacement s = "")) && MatchString exp (req_path r) then
        let r := add_header ReplacedPathHeader (req_path r) r in
        CallNext (sync_RequestURI (set_URL (set_Path (ReplaceAllString exp (req_path r) (rpr_Replacement s)) (ReqURL r)) r))
      else CallNext r
  | None => CallNext r
  end.

(** ** stripPrefixRegex.go *)

(** The mux router of the prefixes is a parameter: the first matching route
    and the path [Route.URL] builds from the variables of the match, or its
    error.  The answer without a next handler and without a status is the empty
    200 response; slicing [RawPath] beyond its length panics. *)
Class PrefixRouter := match_prefix : list string -> Request -> option (result string).

Inductive strip_outcome := Handled (h : handled) | EmptyResponse | SlicePanic.

Definition drop_str (n : nat) (s : string) : string := String.substring n (String.length s - n) s.

Definition StripPrefixRegex_ServeHTTP `{PrefixRouter} (prefixes : list string) (r : Request) : strip_outcome :=
  match match_prefix prefixes r with
  | None => Handled NotFound
  | Some (Err _) => EmptyResponse
  | Some (Ok prefix) =>
      let n := String.length prefix in
      if bool_decide (String.length (req_path r) < n) then EmptyResponse else
      let u := set_Path (drop_str n (req_path r)) (ReqURL r) in
      if bool_decide (RawPath u = "")
      then Handled (CallNext (sync_RequestURI (add_header ForwardedPrefixHeader prefix (set_URL u r))))
      else if bool_decide (String.length (RawPath u) < n) then SlicePanic
      else Handled (CallNext (sync_RequestURI (add_header ForwardedPrefixHeader prefix
             (set_URL (set_RawPath (drop_str n (RawPath u)) u) r))))
  end.

(** ** headers.go *)

Record HeaderOptions := mkHeaderOptions {
  ho_CustomRequestHeaders : gmap string string;
  ho_CustomResponseHeaders : gmap string string;
}.

Definition NewHeaderFromStruct (headers : option Headers) : option HeaderOptions :=
  match headers with
  | None => None
  | Some h =>
      if negb (HasCustomHeadersDefined headers) then None
      else Some (mkHeaderOptions (CustomRequestHeaders h) (CustomResponseHeaders h))
  end.

(** One iteration over the map of custom headers. *)
Definition modify_header (h : Header) (kv : string * string) : Header :=
  if bool_decide (kv.2 = "") then header_del h kv.1 else header_set h kv.1 kv.2.

(** The loop visits the map in the order of [l]. *)
Definition modify_headers (l : list (string * string)) (h : Header) : Header := foldl modify_header h l.

Definition ModifyRequestHeaders (order : list (string * string)) (r : Request) : Request :=
  set_Header (modify_headers order (ReqHeader r)) r.

(** Of a response; it never fails. *)
Definition ModifyResponseHeaders (order : list (string * string)) (h : Header) : result Header := Ok (modify_headers order h).

(** [buildModifyResponse] of the server: the secure headers, whose library may
    refuse, before the custom ones. *)
Definition buildModifyResponse (secure : option (Header -> result Header)) (custom : option (list (string * string))) (h : Header) :
    result Header :=
  h ← match secure with Some modify => modify h | None => Ok h end;
  match custom with Some order => ModifyResponseHeaders order h | None => Ok h end.

Definition HeaderStruct_ServeHTTP (order : list (string * string)) (r : Request) : handled :=
  CallNext (ModifyRequestHeaders order r).

(** ** empty_backend_handler.go *)

Definition StatusServiceUnavailable : Z := 503.

Definition EmptyBackendHandler_ServeHTTP {A} (servers : list A) (r : Request) : handled :=
  if bool_decide (length servers = 0) then WriteHeader StatusServiceUnavailable else CallNext r.

(** ** Facts *)

Lemma ensureLeadingSlash_absolute s : has_prefix s "/" = true -> ensureLeadingSlash s = s.
Proof. intros [t ->]%has_prefix_spec. unfold ensureLeadingSlash. by rewrite trim_prefix_app. Qed.

Lemma stripPrefix_app p s : has_prefix s "/" = true -> stripPrefix (p +:+ s) p = s.
Proof. intros H. unfold stripPrefix. by rewrite trim_prefix_app, ensureLeadingSlash_absolute. Qed.

Lemma StripPrefix_find Prefixes r :
  StripPrefix_ServeHTTP Prefixes r =
  match list_find (fun p => has_prefix (req_path r) p = true) Prefixes with
  | Some (_, p) => serveRequest (set_URL (strip_url p (ReqURL r)) r) (trim_space p)
  | None => NotFound
  end.
Proof.
  induction Prefixes as [|p l IH]; simpl; [done|]. destruct (has_prefix (req_path r) p) eqn:E.
  - by rewrite decide_True.
  - rewrite decide_False by done. rewrite IH. destruct (list_find _ l) as [[]|]; done.
Qed.

(** Given the prefixes of a strip rule in the order the rule leaves them
    in, the middleware removes the longest of those the path starts with,
    leaves an absolute path, reports the prefix in its header and keeps the
    request URI in step; without a matching prefix the answer is 404. *)
Theorem strips_longest_prefix `{mux : Mux} {laws : MuxLaws mux} (paths : list string) (r : Request) :
  match StripPrefix_ServeHTTP (sort_by_size paths) r with
  | CallNext r' =>
      exists p rest, p ∈ paths /\ req_path r = p +:+ rest /\
        (forall q, q ∈ paths -> has_prefix (req_path r) q = true -> has_prefix p q = true) /\
        req_path r' = "/" +:+ trim_prefix rest "/" /\
        header_values (ReqHeader r') ForwardedPrefixHeader = header_values (ReqHeader r) ForwardedPrefixHeader ++ [trim_space p] /\
        RequestURI r' = request_uri (ReqURL r')
  | NotFound => forall q, q ∈ paths -> has_prefix (req_path r) q = false
  | _ => False
  end.
Proof.
  rewrite StripPrefix_find. destruct (list_find _ _) as [[i p]|] eqn:E.
  - apply list_find_Some in E as (Hi & Hp & Hbefore). unfold serveRequest.
    pose proof Hp as [rest Hrest]%has_prefix_spec. exists p, rest. split_and!; try done.
    + rewrite <-(sort_by_size_perm paths). by eapply list_elem_of_lookup_2.
    + intros q Hq Hqp. eapply prefixes_comparable; [done|done|].
      rewrite <-(sort_by_size_perm paths) in Hq. apply list_elem_of_lookup_1 in Hq as [j Hj].
      destruct (Nat.lt_trichotomy i j) as [Hij|[<-|Hij]].
      * by eapply (StronglySorted_lookup _ _ i j p q (sort_by_size_sorted paths)).
      * assert (p = q) as -> by congruence. done.
      * by destruct (Hbefore j q Hj Hij).
    + unfold sync_RequestURI, set_RequestURI, add_header, req_path. simpl. unfold strip_url.
      assert (Path (set_Path (stripPrefix (Path (ReqURL r)) p) (ReqURL r)) = "/" +:+ trim_prefix rest "/") as Hpath.
      { simpl. unfold stripPrefix. unfold req_path in Hrest. by rewrite Hrest, trim_prefix_app. }
      by case_bool_decide.
    + unfold sync_RequestURI, add_header. simpl. unfold header_add, header_values.
      change (canonical_key ForwardedPrefixHeader) with ForwardedPrefixHeader. by rewrite lookup_insert_eq.
  - apply list_find_None in E. intros q Hq. rewrite <-(sort_by_size_perm paths) in Hq.
    rewrite Forall_forall in E. specialize (E q Hq). by apply not_true_iff_false.
Qed.

Definition api_v1_request : Request :=
  mkRequest "GET" (mkURL "" "" "" "/api/v1/pods" "" false "") ∅ "proxy" "/api/v1/pods" "10.0.0.1:99" false.

Definition stripped_request : Request :=
  match StripPrefix_ServeHTTP (sort_by_size (Mux := sample_mux) ["/api"; "/x"; "/api/v1"]) api_v1_request with CallNext r => r | _ => api_v1_request end.

Lemma strips_longest_prefix_witness :
  exists p rest, p ∈ ["/api"; "/x"; "/api/v1"] /\ "/api/v1/pods" = p +:+ rest /\
    req_path stripped_request = "/" +:+ trim_prefix rest "/".
Proof.
  pose proof (strips_longest_prefix (mux := sample_mux) ["/api"; "/x"; "/api/v1"] api_v1_request) as H.
  assert (StripPrefix_ServeHTTP (sort_by_size (Mux := sample_mux) ["/api"; "/x"; "/api/v1"]) api_v1_request = CallNext stripped_request) as E
    by (vm_compute; reflexivity).
  rewrite E in H. destruct H as (p & rest & Hp & Hrest & _ & Hpath & _). exists p, rest.
  split; [exact Hp|]. split; [exact Hrest|exact Hpath].
Defined.

(** ** Prefixes added and removed *)

Lemma strip_add_url p u :
  has_prefix (Path u) "/" = true -> RawPath u = "" \/ has_prefix (RawPath u) "/" = true ->
  strip_url p (let u' := set_Path (p +:+ Path u) u in
               if bool_decide (RawPath u' = "") then u' else set_RawPath (p +:+ RawPath u') u') = u.
Proof.
  intros Hp Hr. destruct u as [sch op ho pa ra fq rq]. cbv zeta. cbn [RawPath set_Path Path] in *.
  unfold strip_url. destruct (decide (ra = "")) as [->|Hne].
  - rewrite bool_decide_eq_true_2 by done. cbv beta iota zeta. simpl. by rewrite stripPrefix_app.
  - rewrite (bool_decide_eq_false_2 (ra = "")) by done. destruct Hr as [?|Hr]; [done|].
    cbn [RawPath set_Path set_RawPath Path]. rewrite bool_decide_eq_false_2.
    + rewrite !stripPrefix_app by done. done.
    + apply has_prefix_spec in Hr as [t ->]. intros H. apply (f_equal String.length) in H.
      rewrite !length_app_str in H. simpl in H. lia.
Qed.

(** Stripping the prefix that was added gives back the URL of an absolute
    path, in its decoded and in its encoded form, with the request URI in step;
    only the forwarded-prefix header remembers it. *)
Theorem add_then_strip (p : string) (r : Request) :
  has_prefix (req_path r) "/" = true ->
  RawPath (ReqURL r) = "" \/ has_prefix (RawPath (ReqURL r)) "/" = true ->
  exists r1 r2,
    AddPrefix_ServeHTTP p r = CallNext r1 /\ req_path r1 = p +:+ req_path r /\
    StripPrefix_ServeHTTP [p] r1 = CallNext r2 /\
    ReqURL r2 = ReqURL r /\ RequestURI r2 = request_uri (ReqURL r) /\
    ReqHeader r2 = header_add (ReqHeader r) ForwardedPrefixHeader (trim_space p).
Proof.
  intros Hp Hr. pose proof (strip_add_url p (ReqURL r) Hp Hr) as Hu. unfold AddPrefix_ServeHTTP.
  cbv zeta in Hu |- *. fold (req_path r) in Hu.
  set (u1 := if bool_decide (RawPath (set_Path _ _) = "") then _ else _) in *.
  exists (sync_RequestURI (set_URL u1 r)). eexists. split; [done|].
  assert (Path u1 = p +:+ req_path r) as Hpath by (unfold u1; by case_bool_decide).
  split; [done|]. cbn [StripPrefix_ServeHTTP].
  change (req_path (sync_RequestURI (set_URL u1 r))) with (Path u1). rewrite Hpath, has_prefix_app.
  split; [done|]. simpl. rewrite Hu. done.
Qed.

Lemma add_then_strip_witness :
  exists r1 r2, AddPrefix_ServeHTTP "/base" api_v1_request = CallNext r1 /\
    StripPrefix_ServeHTTP ["/base"] r1 = CallNext r2 /\ ReqURL r2 = ReqURL api_v1_request.
Proof.
  destruct (add_then_strip "/base" api_v1_request eq_refl (or_introl eq_refl)) as (r1 & r2 & H1 & _ & H2 & H3 & _).
  exists r1, r2. split; [exact H1|split; [exact H2|exact H3]].
Defined.

(** ** Custom headers *)

Lemma modify_header_comm h x y :
  canonical_key x.1 <> canonical_key y.1 ->
  modify_header (modify_header h x) y = modify_header (modify_header h y) x.
Proof.
  intros Hne. unfold modify_header, header_del, header_set.
  repeat case_bool_decide.
  - apply delete_delete.
  - by rewrite delete_insert_ne by done.
  - by rewrite delete_insert_ne by done.
  - by apply insert_insert_ne.
Qed.

Lemma modify_headers_lookup l h k v :
  NoDup (map (fun kv => canonical_key kv.1) l) -> (k, v) ∈ l ->
  modify_headers l h !! canonical_key k = (if bool_decide (v = "") then None else Some [v]).
Proof.
  revert h. induction l as [|[k0 v0] l IH]; intros h Hnd Hin; [by apply elem_of_nil in Hin|].
  simpl in Hnd. apply NoDup_cons in Hnd as [Hn Hnd]. apply elem_of_cons in Hin as [[= <- <-]|Hin]; [|by apply IH].
  simpl. clear IH. revert h. induction l as [|[k1 v1] l IH]; intros h.
  - simpl. unfold modify_header. simpl. case_bool_decide; unfold header_del, header_set;
      [apply lookup_delete_eq|apply lookup_insert_eq].
  - simpl in Hn. apply not_elem_of_cons in Hn as [Hne Hn]. simpl in Hnd. apply NoDup_cons in Hnd as [_ Hnd].
    simpl. rewrite modify_header_comm by done. by apply IH.
Qed.

Lemma modify_headers_other l h k :
  k ∉ map (fun kv => canonical_key kv.1) l -> modify_headers l h !! k = h !! k.
Proof.
  revert h. induction l as [|[k0 v0] l IH]; intros h Hn; [done|]. simpl in Hn.
  apply not_elem_of_cons in Hn as [Hne Hn]. simpl. rewrite IH by done. unfold modify_header. simpl.
  case_bool_decide; unfold header_del, header_set; [by rewrite lookup_delete_ne|by rewrite lookup_insert_ne].
Qed.

(** Custom headers whose names differ in canonical form are applied
    independently of the order the map is visited in: each named header is
    removed when its value is empty, set to that one value otherwise, and all
    others are kept. *)
Theorem custom_headers_deterministic (m : gmap string string) (l : list (string * string)) (h : Header) :
  l ≡ₚ map_to_list m -> NoDup (map (fun kv => canonical_key kv.1) (map_to_list m)) ->
  modify_headers l h = modify_headers (map_to_list m) h /\
  (forall k v, m !! k = Some v ->
     modify_headers l h !! canonical_key k = (if bool_decide (v = "") then None else Some [v])) /\
  (forall k, (forall k', k' ∈ dom m -> canonical_key k' <> k) -> modify_headers l h !! k = h !! k).
Proof.
  intros Hl Hnd. split_and!.
  - apply foldl_permutation; [done|]. intros x y b Hx Hy Hxy. apply modify_header_comm. intros Heq.
    apply Hxy. rewrite Hl in Hx, Hy. by apply (NoDup_map_inj _ _ x y Hnd).
  - intros k v Hk. apply modify_headers_lookup; [by rewrite Hl|]. rewrite Hl. by apply elem_of_map_to_list.
  - intros k Hk. apply modify_headers_other. rewrite Hl. intros ([k' v] & -> & Hin)%list_elem_of_fmap.
    apply elem_of_map_to_list in Hin. apply (Hk k'); [|done]. by eapply elem_of_dom_2.
Qed.

Lemma custom_headers_deterministic_witness :
  modify_headers [("X-Other", ""); ("X-Team", "blue")] {["X-Other" := ["1"]]} !! canonical_key "X-Team" = Some ["blue"].
Proof.
  refine (proj1 (proj2 (custom_headers_deterministic {["X-Team" := "blue"; "X-Other" := ""]}
           [("X-Other", ""); ("X-Team", "blue")] {["X-Other" := ["1"]]} _ _)) "X-Team" "blue" _).
  - vm_compute. apply Permutation_refl || apply perm_swap.
  - vm_compute. repeat constructor; rewrite ?elem_of_cons, ?elem_of_nil; intuition discriminate.
  - reflexivity.
Defined.
