(* ===== verification/Routing.v ===== *)
(** * From the OSIO middleware to the backend of a cluster

    The middleware writes the address of the user's cluster in the [Target]
    header; the OSIO provider's configuration has a frontend for each cluster
    whose rule asks for that header.  The two files never refer to each other:
    what connects them is the text of the address, normalised in both. *)
From S2P Require Import Prelude GoStrings GoStringsFacts Types OsioClient OsioServices OsioCache.
From S2P Require Import OsioAuth OsioAuthFacts OsioProvider OsioProviderFacts Rules GoHttp GoHttpFacts.

Lemma normalizeURL_same url : OsioProvider.normalizeURL url = OsioServices.normalizeURL url.
Proof. done. Qed.

Section Routing.
Context `{mux : Mux}.

(** The route the server builds of a rule alone. *)
Definition rule_route (rule : string) : option MuxRoute :=
  match Parse rule new_server_route with (Ret (Ok true), s) => Some (sr_Route s) | _ => None end.

Definition frontend_accepts (f : Frontend) (req : Request) : Prop :=
  exists rule route, Routes f !! "test_1" = Some (mkRoute rule) /\ rule_route rule = Some route /\
    route_matches route req = true.

Lemma rule_route_target url :
  rule_arg url = true -> rule_route ("Headers:Target," +:+ url) = Some (addMatcher (target_matcher url) new_route).
Proof. intros H. unfold rule_route. by rewrite Parse_target_shape. Qed.

(** A frontend of the provider accepts the requests whose [Target] is its
    address. *)
Lemma createFrontend_accepts url backend req :
  rule_arg (OsioProvider.normalizeURL url) = true ->
  frontend_accepts (createFrontend url backend) req <->
  OsioProvider.normalizeURL url ∈ header_values (ReqHeader req) "Target".
Proof.
  intros Hu. pose proof Hu as (_ & _ & _ & Hne & _)%rule_arg_inv.
  rewrite <-(target_route_matches _ new_server_route) by done. unfold frontend_accepts, createFrontend. simpl.
  split.
  - intros (rule & route & Hr & Hroute & Hm). rewrite lookup_singleton_eq in Hr. injection Hr as <-.
    rewrite rule_route_target in Hroute by done. by injection Hroute as <-.
  - intros Hm. eexists _, _. rewrite lookup_singleton_eq. split; [done|].
    rewrite rule_route_target by done. split; [done|exact Hm].
Qed.

(** A request forwarded for a user of a known cluster is accepted by that
    cluster's frontend, whose backend is the cluster's address, and by no
    frontend of another address: whatever the order the frontends are tried
    in, the request reaches the user's own cluster. *)
Theorem forwarded_reaches_cluster {S} (a : OSIOAuth S) r st r' st' l resp p i c :
  OSIOAuth_ServeHTTP a r st = (Ret (CallNext r'), st') ->
  RequestTenantLocation a = Some l -> Method r <> "OPTIONS" ->
  (forall kind data, resolved_request a r st st' kind data ->
     OsioServices.normalizeURL (getTargetURL (getRequestType r) (Namespace data)) =
     OsioProvider.normalizeURL (APIURL c)) ->
  Clusters resp !! i = Some c -> rule_arg (OsioProvider.normalizeURL (APIURL c)) = true ->
  let config := (loadRules resp p).1 in
  exists f b,
    Frontends config !! api_name i = Some f /\ frontend_accepts f r' /\
    Backends config !! fe_Backend f = Some b /\
    Servers b = {["server1" := mkServer (OsioProvider.normalizeURL (APIURL c)) 0]} /\
    forall url backend, rule_arg (OsioProvider.normalizeURL url) = true ->
      OsioProvider.normalizeURL url <> OsioProvider.normalizeURL (APIURL c) ->
      ~ frontend_accepts (createFrontend url backend) r'.
Proof.
  intros Hs Hl Hm Htarget Hi Harg config.
  destruct (serve_inv a r st _ st' l Hs Hl Hm) as [[=]|(kind & data & Hres & Hroute)].
  symmetry in Hroute. destruct (route_headers _ _ _ _ Hroute) as (_ & Hval & _). rewrite (Htarget _ _ Hres) in Hval.
  assert (nonempty (APIURL c) = true) as Hne.
  { pose proof Harg as (_ & _ & _ & Hn & _)%rule_arg_inv. unfold nonempty. rewrite bool_decide_eq_false_2; [done|].
    intros Hz. by rewrite Hz in Hn. }
  pose proof (loadRules_shape resp p) as Hcfg. destruct (loadRules resp p) as [cfg p']. cbn [fst] in config.
  destruct Hcfg as (_ & _ & Haddr & _). destruct (Haddr i c Hi) as [Hpair _]. unfold address_pair in Hpair.
  rewrite Hne in Hpair. destruct Hpair as [Hf Hb].
  exists (createFrontend (APIURL c) (api_name i)), (createBackend (APIURL c)). split_and!; try done.
  - apply createFrontend_accepts; [done|]. rewrite Hval. by apply list_elem_of_singleton.
  - intros url backend Hu Hne' Hacc. apply createFrontend_accepts in Hacc; [|done]. rewrite Hval in Hacc.
    by apply list_elem_of_singleton in Hacc.
Qed.

(** An OPTIONS request is forwarded without looking at its token and
    without calling a service, for the target [default]; when the provider has
    a default backend, the frontend [default] accepts it, with that backend,
    and no frontend of another address does. *)
Theorem options_reach_default {S} (a : OSIOAuth S) r st l resp p :
  RequestTenantLocation a = Some l -> Method r = "OPTIONS" ->
  let config := (loadRules resp p).1 in
  let p' := (loadRules resp p).2 in
  Clusters resp <> [] -> nonempty (defaultBackendURL p') = true ->
  exists r' f b,
    OSIOAuth_ServeHTTP a r st = (Ret (CallNext r'), st) /\ ReqURL r' = ReqURL r /\
    Frontends config !! "default" = Some f /\ frontend_accepts f r' /\
    Backends config !! fe_Backend f = Some b /\
    Servers b = {["server1" := mkServer (OsioProvider.normalizeURL (defaultBackendURL p')) 0]} /\
    forall url backend, rule_arg (OsioProvider.normalizeURL url) = true ->
      OsioProvider.normalizeURL url <> "default" -> ~ frontend_accepts (createFrontend url backend) r'.
Proof.
  intros Hl Hm. pose proof (loadRules_shape resp p) as Hcfg. destruct (loadRules resp p) as [config p'].
  intros config' p'' Hcs Hdef. subst config' p''. cbn [fst snd] in *. destruct Hcfg as (_ & _ & _ & Hd). destruct (Clusters resp) as [|first rest]; [done|].
  destruct Hd as [_ Hd]. rewrite Hdef in Hd. destruct Hd as [Hf Hb].
  set (r' := set_Header (header_set (ReqHeader r) "Target" "default") r).
  assert (header_values (ReqHeader r') "Target" = ["default"]) as Hval.
  { unfold r', header_set, header_values. simpl. by rewrite lookup_insert_eq. }
  exists r', (createFrontend "default" "default"), (createBackend (defaultBackendURL p')). split_and!; try done.
  - unfold OSIOAuth_ServeHTTP. by rewrite Hl, bool_decide_eq_true_2.
  - apply createFrontend_accepts; [done|]. rewrite Hval. by apply list_elem_of_singleton.
  - intros url backend Hu Hne Hacc. apply createFrontend_accepts in Hacc; [|done]. rewrite Hval in Hacc.
    by apply list_elem_of_singleton in Hacc.
Qed.

End Routing.

Definition sample_clusters : clusterResponse :=
  mkClusters [mkCluster "https://api.c2.example.com" "" "" "" "" "c2";
              mkCluster "https://api.c1.example.com/" "" "" "" "https://metrics.c1.example.com" "c1"].
Definition sample_provider : Provider := mkProvider 60 "https://auth/token" "https://auth/clusters" "id" "secret" None "".

Lemma forwarded_reaches_cluster_witness :
  exists f b,
    Frontends (loadRules sample_clusters sample_provider).1 !! "api2" = Some f /\
    frontend_accepts (mux := sample_mux) f che_forwarded /\
    Backends (loadRules sample_clusters sample_provider).1 !! fe_Backend f = Some b /\
    Servers b = {["server1" := mkServer "https://api.c1.example.com" 0]}.
Proof.
  destruct (forwarded_reaches_cluster (mux := sample_mux) sample_auth che_request empty_state che_forwarded
    che_result.2 sample_location sample_clusters sample_provider 1
    (mkCluster "https://api.c1.example.com/" "" "" "" "https://metrics.c1.example.com" "c1"))
    as (f & b & Hf & Hacc & Hb & Hs & _).
  - exact che_result_eq.
  - reflexivity.
  - discriminate.
  - intros kind data (token & s1 & Ht & Hk & Hr). vm_compute in Ht. injection Ht as <-.
    vm_compute in Hk. injection Hk as <- <-. vm_compute in Hr. injection Hr as <-. vm_compute. reflexivity.
  - reflexivity.
  - vm_compute. reflexivity.
  - exists f, b. split; [exact Hf|]. split; [exact Hacc|]. split; [exact Hb|exact Hs].
Defined.

Definition preflight : Request :=
  mkRequest "OPTIONS" (mkURL "" "" "" "/api/api/v1/pods" "" false "") ∅ "proxy" "/api/api/v1/pods" "10.0.0.1:99" false.

Lemma options_reach_default_witness :
  exists r' f b, OSIOAuth_ServeHTTP sample_auth preflight empty_state = (Ret (CallNext r'), empty_state) /\
    Frontends (loadRules sample_clusters sample_provider).1 !! "default" = Some f /\
    frontend_accepts (mux := sample_mux) f r' /\
    Backends (loadRules sample_clusters sample_provider).1 !! fe_Backend f = Some b /\
    Servers b = {["server1" := mkServer "https://api.c2.example.com" 0]}.
Proof.
  destruct (options_reach_default (mux := sample_mux) sample_auth preflight empty_state sample_location
    sample_clusters sample_provider eq_refl eq_refl) as (r' & f & b & H1 & _ & H2 & H3 & H4 & H5 & _).
  - discriminate.
  - vm_compute. reflexivity.
  - exists r', f, b. split; [exact H1|]. split; [exact H2|]. split; [exact H3|]. split; [exact H4|].
    rewrite H5. vm_compute. reflexivity.
Defined.
