(* ===== verification/Retry.v ===== *)
(** * [middlewares/retry.go] and [server/errorhandler.go]: retrying requests

    A handler acts on a response writer: it writes the header, writes bytes,
    changes the header map, flushes, or records a network error in the context
    of the request.  The retry middleware gives it a writer that drops what it
    does once a network error is recorded and attempts are left. *)
From S2P Require Import Prelude GoStrings GoHttp.

(** ** Actions on a response writer *)

Inductive action :=
  | RecordNetError
  | SetHeader (k v : string)
  | WriteCode (code : Z)
  | WriteBody (buf : string)
  | Flush.

#[global] Instance action_eq_dec : EqDecision action.
Proof. solve_decision. Defined.

(** [retryResponseWriterWithoutCloseNotify] *)
Record RetryWriter := mkRetryWriter { attemptsExhausted : bool; netErrorOccured : bool }.

Definition ShouldRetry (rr : RetryWriter) : bool := netErrorOccured rr && negb (attemptsExhausted rr).

(** One action: the writer after it and what reaches the underlying writer.  A
    header set while retrying goes to a map that is thrown away; a flush is not
    held back. *)
Definition writer_step (rr : RetryWriter) (a : action) : RetryWriter * list action :=
  match a with
  | RecordNetError => (mkRetryWriter (attemptsExhausted rr) true, [])
  | SetHeader _ _ | WriteCode _ | WriteBody _ => (rr, if ShouldRetry rr then [] else [a])
  | Flush => (rr, [a])
  end.

Fixpoint writer_run (rr : RetryWriter) (l : list action) : RetryWriter * list action :=
  match l with
  | [] => (rr, [])
  | a :: l' =>
      let '(rr1, out1) := writer_step rr a in
      let '(rr2, out2) := writer_run rr1 l' in
      (rr2, out1 ++ out2)
  end.

(** ** The middleware *)

Section Retry.
Context {W : Type} (next : Request -> M W (list action)).

(** The answer: what reached the client, and the attempt numbers the listener
    was told about. *)
Record retried := mkRetried { client_actions : list action; notified : list nat }.

(** The [for] loop from attempt [attempts] on; [None] when the fuel runs out. *)
Fixpoint retry_loop (fuel : nat) (max attempts : nat) (r : Request) : M W (option retried) :=
  match fuel with
  | O => mret None
  | S fuel' =>
      acts ← next r;
      let '(rr, out) := writer_run (mkRetryWriter (bool_decide (max <= attempts)) false) acts in
      if negb (ShouldRetry rr) then mret (Some (mkRetried out []))
      else
        rest ← retry_loop fuel' max (attempts + 1) r;
        mret (match rest with
              | Some res => Some (mkRetried (out ++ client_actions res) ((attempts + 1) :: notified res))
              | None => None
              end)
  end.

Definition Retry_ServeHTTP (attempts : nat) (r : Request) : M W (option retried) :=
  retry_loop (Nat.max 1 attempts) attempts 1 r.

End Retry.

(** ** errorhandler.go *)

(** What kind of error the forwarder reports. *)
Inductive fwd_error := NetError (timeout : bool) | EOF | OtherError.

Definition StatusInternalServerError : Z := 500.
Definition StatusBadGateway : Z := 502.
Definition StatusGatewayTimeout : Z := 504.

(** [http.StatusText] of the three. *)
Definition StatusText (code : Z) : string :=
  if (code =? 504)%Z then "Gateway Timeout" else if (code =? 502)%Z then "Bad Gateway" else "Internal Server Error".

Definition RecordingErrorHandler_ServeHTTP (err : fwd_error) : list action :=
  let '(record, statusCode) := match err with
    | NetError timeout => ([RecordNetError], if timeout then StatusGatewayTimeout else StatusBadGateway)
    | EOF => ([RecordNetError], StatusBadGateway)
    | OtherError => ([], StatusInternalServerError)
    end in
  record ++ [WriteCode statusCode; WriteBody (StatusText statusCode)].

(** ** Facts *)

Lemma writer_run_exhausted rr l :
  attemptsExhausted rr = true ->
  writer_run rr l = (mkRetryWriter true (netErrorOccured rr || bool_decide (RecordNetError ∈ l)),
                     filter (fun a => a <> RecordNetError) l).
Proof.
  revert rr. induction l as [|a l IH]; intros [ex net] Hex; simpl in Hex; subst ex.
  - simpl. by rewrite orb_false_r.
  - cbn [writer_run]. destruct a; cbn [writer_step attemptsExhausted netErrorOccured];
      unfold ShouldRetry; cbn [attemptsExhausted netErrorOccured]; rewrite ?andb_false_r, IH by done;
      cbn [netErrorOccured]; rewrite ?filter_cons_True, ?filter_cons_False by (done || naive_solver).
    + assert (bool_decide (RecordNetError ∈ RecordNetError :: l) = true) as -> by (apply bool_decide_eq_true; set_solver).
      by rewrite orb_true_r.
    + do 2 f_equal. f_equal. apply bool_decide_ext. set_solver.
    + do 2 f_equal. f_equal. apply bool_decide_ext. set_solver.
    + do 2 f_equal. f_equal. apply bool_decide_ext. set_solver.
    + do 2 f_equal. f_equal. apply bool_decide_ext. set_solver.
Qed.

(** An attempt that answers only after it recorded its error, as the error
    handler of the forwarder does. *)
Definition error_first (l : list action) : Prop :=
  exists rest, l = RecordNetError :: rest /\ Flush ∉ rest.

Definition no_error (l : list action) : Prop := RecordNetError ∉ l.

Lemma writer_run_net rr l :
  netErrorOccured rr = true -> attemptsExhausted rr = false -> Flush ∉ l ->
  writer_run rr l = (rr, []).
Proof.
  destruct rr as [ex net]. simpl. intros -> ->. induction l as [|a l IH]; intros Hf; [done|].
  apply not_elem_of_cons in Hf as [Ha Hf]. cbn [writer_run]. destruct a; simpl; try (by rewrite IH by done); done.
Qed.

Lemma writer_run_error_first l :
  error_first l -> writer_run (mkRetryWriter false false) l = (mkRetryWriter false true, []).
Proof.
  intros (rest & -> & Hf). cbn [writer_run writer_step attemptsExhausted]. by rewrite writer_run_net.
Qed.

Lemma writer_run_no_error ex l :
  no_error l -> writer_run (mkRetryWriter ex false) l = (mkRetryWriter ex false, l).
Proof.
  unfold no_error. induction l as [|a l IH]; intros Hn; [done|]. apply not_elem_of_cons in Hn as [Ha Hn].
  cbn [writer_run]. destruct a; cbn [writer_step]; unfold ShouldRetry; cbn [netErrorOccured andb];
    try (by rewrite IH by done); done.
Qed.

Lemma error_handler_error_first err :
  err <> OtherError -> error_first (RecordingErrorHandler_ServeHTTP err).
Proof.
  intros H. destruct err as [t| |]; [destruct t| |done]; eexists; (split; [reflexivity|]);
    rewrite !not_elem_of_cons; repeat split; try done; apply not_elem_of_nil.
Qed.

Section Facts.
Context {W : Type} (next : Request -> M W (list action)).

(** The attempts of a run: each with the actions of its handler, from one
    state of the backends to the next. *)
Inductive attempts_run (r : Request) : W -> list (list action) -> W -> Prop :=
  | run_nil w : attempts_run r w [] w
  | run_cons w l w1 ls w2 :
      next r w = (Ret l, w1) -> attempts_run r w1 ls w2 -> attempts_run r w (l :: ls) w2.

(** Some failed attempts, then one that is the last allowed or reports no
    error: the client sees the last one only. *)
Definition retry_shape (max first : nat) (ls : list (list action)) (res : retried) : Prop :=
  exists failed final,
    ls = failed ++ [final] /\ Forall error_first failed /\ length failed <= max - first /\
    client_actions res = filter (fun a => a <> RecordNetError) final /\
    notified res = seq (first + 1) (length failed) /\
    (no_error final \/ max <= first + length failed).

Lemma filter_no_error l : no_error l -> filter (fun a => a <> RecordNetError) l = l.
Proof.
  unfold no_error. induction l as [|a l IH]; intros Hn; [done|]. apply not_elem_of_cons in Hn as [Ha Hn].
  rewrite filter_cons_True by done. by rewrite IH.
Qed.

(** Every attempt returns, and answers only after recording its error. *)
Definition well_behaved : Prop :=
  forall r w, exists l w', next r w = (Ret l, w') /\ (error_first l \/ no_error l).

Lemma retry_last max first r w fuel l w1 :
  next r w = (Ret l, w1) -> max <= first \/ no_error l ->
  exists res, retry_loop next (S fuel) max first r w = (Ret (Some res), w1) /\
    attempts_run r w [l] w1 /\ retry_shape max first [l] res.
Proof.
  intros Hl Hor. cbn [retry_loop]. unfold mbind, M_bind. rewrite Hl.
  assert (exists rr, writer_run (mkRetryWriter (bool_decide (max <= first)) false) l =
            (rr, filter (fun a => a <> RecordNetError) l) /\ ShouldRetry rr = false) as (rr & -> & ->).
  { destruct (decide (max <= first)) as [Hm|Hm].
    - rewrite bool_decide_eq_true_2 by done. rewrite writer_run_exhausted by done. eexists. split; [done|].
      apply andb_false_r.
    - destruct Hor as [?|Hn]; [done|]. rewrite writer_run_no_error by done. rewrite filter_no_error by done. eauto. }
  eexists. split; [reflexivity|]. split; [by econstructor; [|constructor]|].
  exists [], l. simpl. split_and!; try done; [lia|]. destruct Hor; [right; lia|by left].
Qed.

Lemma retry_loop_total fuel max first r w :
  well_behaved -> max <= first + fuel ->
  exists res w' ls, retry_loop next (S fuel) max first r w = (Ret (Some res), w') /\
    attempts_run r w ls w' /\ retry_shape max first ls res.
Proof.
  intros Hnext. revert first w. induction fuel as [|fuel IH]; intros first w Hmax;
    destruct (Hnext r w) as (l & w1 & El & Hl).
  { destruct (retry_last max first r w 0 l w1 El) as (res & ?); [left; lia|eauto]. }
  destruct (decide (max <= first)) as [Hm|Hm].
  { destruct (retry_last max first r w (S fuel) l w1 El) as (res & ?); [by left|eauto]. }
  destruct Hl as [Herr|Hno]; [|destruct (retry_last max first r w (S fuel) l w1 El) as (res & ?); [by right|eauto]].
  destruct (IH (first + 1) w1) as (res & w' & ls & Hrun & Hatt & failed & final & -> & Hf & Hlen & Hc & Hn & Hend); [lia|].
  set (f := S fuel) in *. cbn [retry_loop]. unfold mbind, M_bind. rewrite El, bool_decide_eq_false_2 by done.
  rewrite (writer_run_error_first l Herr). cbn [negb ShouldRetry netErrorOccured attemptsExhausted andb].
  rewrite Hrun. eexists _, w', (l :: failed ++ [final]). split; [reflexivity|].
  split; [by econstructor|]. exists (l :: failed), final. simpl. split_and!; try done.
  - by constructor.
  - lia.
  - rewrite Hn. simpl. by replace (first + 1 + 1) with (S (first + 1)) by lia.
  - destruct Hend as [|He]; [by left|right; lia].
Qed.

(** C39: against backends that record a network error before anything else,
    the middleware terminates after at most as many attempts as configured
    (and at least one), stopping at the first without an error; the client
    sees exactly the answer of the last attempt, and the listener hears of every
    attempt after the first. *)
Theorem Retry_spec (max : nat) (r : Request) (w : W) :
  well_behaved ->
  exists res w' ls,
    Retry_ServeHTTP next max r w = (Ret (Some res), w') /\ attempts_run r w ls w' /\
    exists failed final,
      ls = failed ++ [final] /\ Forall error_first failed /\ length ls <= Nat.max 1 max /\
      client_actions res = filter (fun a => a <> RecordNetError) final /\
      notified res = seq 2 (length failed) /\
      (no_error final \/ length ls = Nat.max 1 max).
Proof.
  intros Hnext. unfold Retry_ServeHTTP. destruct (Nat.max 1 max) as [|f] eqn:Ef; [lia|].
  destruct (retry_loop_total f max 1 r w Hnext) as (res & w' & ls & Hrun & Hatt & failed & final & -> & Hf & Hlen & Hc & Hn & Hend); [lia|].
  exists res, w', (failed ++ [final]). split; [done|]. split; [done|]. exists failed, final.
  rewrite length_app. simpl. split_and!; try done; [lia|]. destruct Hend as [|He]; [by left|right; lia].
Qed.

End Facts.

(** A backend that fails twice, then answers. *)
Definition flaky (r : Request) : M nat (list action) := fun n =>
  (Ret (if bool_decide (n < 2) then RecordingErrorHandler_ServeHTTP (NetError false) else [WriteCode 200; WriteBody "ok"]), S n).

Lemma flaky_well_behaved : well_behaved flaky.
Proof.
  intros r n. eexists _, _. split; [reflexivity|]. case_bool_decide.
  - left. by apply error_handler_error_first.
  - right. unfold no_error. rewrite !not_elem_of_cons. repeat split; try done. apply not_elem_of_nil.
Qed.

Lemma Retry_spec_witness :
  exists res w' ls, Retry_ServeHTTP flaky 3 (mkRequest "GET" (mkURL "" "" "" "/" "" false "") ∅ "h" "/" "1.2.3.4:5" false) 0 =
      (Ret (Some res), w') /\ length ls <= 3 /\
    exists failed final, ls = failed ++ [final] /\ client_actions res = filter (fun a => a <> RecordNetError) final.
Proof.
  destruct (Retry_spec flaky 3 (mkRequest "GET" (mkURL "" "" "" "/" "" false "") ∅ "h" "/" "1.2.3.4:5" false) 0
    flaky_well_behaved) as (res & w' & ls & H & _ & failed & final & Hls & _ & Hlen & Hc & _).
  exists res, w', ls. split; [exact H|]. split; [exact Hlen|]. exists failed, final. split; [exact Hls|exact Hc].
Defined.
