(* ===== verification/LabelNames.v ===== *)
(** * [provider/label/names.go]: the names of the labels *)
From S2P Require Import Prelude.

Definition Prefix : string := "traefik.".
Definition SuffixBackend : string := "backend".
Definition SuffixDomain : string := "domain".
Definition SuffixEnable : string := "enable".
Definition SuffixPort : string := "port".
Definition SuffixPortIndex : string := "portIndex".
Definition SuffixProtocol : string := "protocol".
Definition SuffixTags : string := "tags".
Definition SuffixWeight : string := "weight".
Definition SuffixBackendID : string := "backend.id".
Definition SuffixBackendCircuitBreaker : string := "backend.circuitbreaker".
Definition SuffixBackendCircuitBreakerExpression : string := "backend.circuitbreaker.expression".
Definition SuffixBackendHealthCheckPath : string := "backend.healthcheck.path".
Definition SuffixBackendHealthCheckPort : string := "backend.healthcheck.port".
Definition SuffixBackendHealthCheckInterval : string := "backend.healthcheck.interval".
Definition SuffixBackendLoadBalancer : string := "backend.loadbalancer".
Definition SuffixBackendLoadBalancerMethod : string := SuffixBackendLoadBalancer +:+ ".method".
Definition SuffixBackendLoadBalancerSticky : string := SuffixBackendLoadBalancer +:+ ".sticky".
Definition SuffixBackendLoadBalancerStickiness : string := SuffixBackendLoadBalancer +:+ ".stickiness".
Definition SuffixBackendLoadBalancerStickinessCookieName : string := SuffixBackendLoadBalancer +:+ ".stickiness.cookieName".
Definition SuffixBackendMaxConnAmount : string := "backend.maxconn.amount".
Definition SuffixBackendMaxConnExtractorFunc : string := "backend.maxconn.extractorfunc".
Definition SuffixBackendBuffering : string := "backend.buffering".
Definition SuffixBackendBufferingMaxRequestBodyBytes : string := SuffixBackendBuffering +:+ ".maxRequestBodyBytes".
Definition SuffixBackendBufferingMemRequestBodyBytes : string := SuffixBackendBuffering +:+ ".memRequestBodyBytes".
Definition SuffixBackendBufferingMaxResponseBodyBytes : string := SuffixBackendBuffering +:+ ".maxResponseBodyBytes".
Definition SuffixBackendBufferingMemResponseBodyBytes : string := SuffixBackendBuffering +:+ ".memResponseBodyBytes".
Definition SuffixBackendBufferingRetryExpression : string := SuffixBackendBuffering +:+ ".retryExpression".
Definition SuffixFrontend : string := "frontend".
Definition SuffixFrontendAuthBasic : string := "frontend.auth.basic".
Definition SuffixFrontendEntryPoints : string := "frontend.entryPoints".
Definition SuffixFrontendHeaders : string := "frontend.headers.".
Definition SuffixFrontendRequestHeaders : string := SuffixFrontendHeaders +:+ "customRequestHeaders".
Definition SuffixFrontendResponseHeaders : string := SuffixFrontendHeaders +:+ "customResponseHeaders".
Definition SuffixFrontendHeadersAllowedHosts : string := SuffixFrontendHeaders +:+ "allowedHosts".
Definition SuffixFrontendHeadersHostsProxyHeaders : string := SuffixFrontendHeaders +:+ "hostsProxyHeaders".
Definition SuffixFrontendHeadersSSLRedirect : string := SuffixFrontendHeaders +:+ "SSLRedirect".
Definition SuffixFrontendHeadersSSLTemporaryRedirect : string := SuffixFrontendHeaders +:+ "SSLTemporaryRedirect".
Definition SuffixFrontendHeadersSSLHost : string := SuffixFrontendHeaders +:+ "SSLHost".
Definition SuffixFrontendHeadersSSLProxyHeaders : string := SuffixFrontendHeaders +:+ "SSLProxyHeaders".
Definition SuffixFrontendHeadersSTSSeconds : string := SuffixFrontendHeaders +:+ "STSSeconds".
Definition SuffixFrontendHeadersSTSIncludeSubdomains : string := SuffixFrontendHeaders +:+ "STSIncludeSubdomains".
Definition SuffixFrontendHeadersSTSPreload : string := SuffixFrontendHeaders +:+ "STSPreload".
Definition SuffixFrontendHeadersForceSTSHeader : string := SuffixFrontendHeaders +:+ "forceSTSHeader".
Definition SuffixFrontendHeadersFrameDeny : string := SuffixFrontendHeaders +:+ "frameDeny".
Definition SuffixFrontendHeadersCustomFrameOptionsValue : string := SuffixFrontendHeaders +:+ "customFrameOptionsValue".
Definition SuffixFrontendHeadersContentTypeNosniff : string := SuffixFrontendHeaders +:+ "contentTypeNosniff".
Definition SuffixFrontendHeadersBrowserXSSFilter : string := SuffixFrontendHeaders +:+ "browserXSSFilter".
Definition SuffixFrontendHeadersCustomBrowserXSSValue : string := SuffixFrontendHeaders +:+ "customBrowserXSSValue".
Definition SuffixFrontendHeadersContentSecurityPolicy : string := SuffixFrontendHeaders +:+ "contentSecurityPolicy".
Definition SuffixFrontendHeadersPublicKey : string := SuffixFrontendHeaders +:+ "publicKey".
Definition SuffixFrontendHeadersReferrerPolicy : string := SuffixFrontendHeaders +:+ "referrerPolicy".
Definition SuffixFrontendHeadersIsDevelopment : string := SuffixFrontendHeaders +:+ "isDevelopment".
Definition SuffixFrontendPassHostHeader : string := "frontend.passHostHeader".
Definition SuffixFrontendPassTLSCert : string := "frontend.passTLSCert".
Definition SuffixFrontendPriority : string := "frontend.priority".
Definition SuffixFrontendRateLimitExtractorFunc : string := "frontend.rateLimit.extractorFunc".
Definition SuffixFrontendRedirectEntryPoint : string := "frontend.redirect.entryPoint".
Definition SuffixFrontendRedirectRegex : string := "frontend.redirect.regex".
Definition SuffixFrontendRedirectReplacement : string := "frontend.redirect.replacement".
Definition SuffixFrontendRedirectPermanent : string := "frontend.redirect.permanent".
Definition SuffixFrontendRule : string := "frontend.rule".
Definition SuffixFrontendWhitelistSourceRange : string := "frontend.whitelistSourceRange".
Definition SuffixFrontendWhiteList : string := "frontend.whiteList.".
Definition SuffixFrontendWhiteListSourceRange : string := SuffixFrontendWhiteList +:+ "sourceRange".
Definition SuffixFrontendWhiteListUseXForwardedFor : string := SuffixFrontendWhiteList +:+ "useXForwardedFor".
Definition TraefikDomain : string := Prefix +:+ SuffixDomain.
Definition TraefikEnable : string := Prefix +:+ SuffixEnable.
Definition TraefikPort : string := Prefix +:+ SuffixPort.
Definition TraefikPortIndex : string := Prefix +:+ SuffixPortIndex.
Definition TraefikProtocol : string := Prefix +:+ SuffixProtocol.
Definition TraefikTags : string := Prefix +:+ SuffixTags.
Definition TraefikWeight : string := Prefix +:+ SuffixWeight.
Definition TraefikBackend : string := Prefix +:+ SuffixBackend.
Definition TraefikBackendID : string := Prefix +:+ SuffixBackendID.
Definition TraefikBackendCircuitBreaker : string := Prefix +:+ SuffixBackendCircuitBreaker.
Definition TraefikBackendCircuitBreakerExpression : string := Prefix +:+ SuffixBackendCircuitBreakerExpression.
Definition TraefikBackendHealthCheckPath : string := Prefix +:+ SuffixBackendHealthCheckPath.
Definition TraefikBackendHealthCheckPort : string := Prefix +:+ SuffixBackendHealthCheckPort.
Definition TraefikBackendHealthCheckInterval : string := Prefix +:+ SuffixBackendHealthCheckInterval.
Definition TraefikBackendLoadBalancer : string := Prefix +:+ SuffixBackendLoadBalancer.
Definition TraefikBackendLoadBalancerMethod : string := Prefix +:+ SuffixBackendLoadBalancerMethod.
Definition TraefikBackendLoadBalancerSticky : string := Prefix +:+ SuffixBackendLoadBalancerSticky.
Definition TraefikBackendLoadBalancerStickiness : string := Prefix +:+ SuffixBackendLoadBalancerStickiness.
Definition TraefikBackendLoadBalancerStickinessCookieName : string := Prefix +:+ SuffixBackendLoadBalancerStickinessCookieName.
Definition TraefikBackendMaxConnAmount : string := Prefix +:+ SuffixBackendMaxConnAmount.
Definition TraefikBackendMaxConnExtractorFunc : string := Prefix +:+ SuffixBackendMaxConnExtractorFunc.
Definition TraefikBackendBuffering : string := Prefix +:+ SuffixBackendBuffering.
Definition TraefikBackendBufferingMaxRequestBodyBytes : string := Prefix +:+ SuffixBackendBufferingMaxRequestBodyBytes.
Definition TraefikBackendBufferingMemRequestBodyBytes : string := Prefix +:+ SuffixBackendBufferingMemRequestBodyBytes.
Definition TraefikBackendBufferingMaxResponseBodyBytes : string := Prefix +:+ SuffixBackendBufferingMaxResponseBodyBytes.
Definition TraefikBackendBufferingMemResponseBodyBytes : string := Prefix +:+ SuffixBackendBufferingMemResponseBodyBytes.
Definition TraefikBackendBufferingRetryExpression : string := Prefix +:+ SuffixBackendBufferingRetryExpression.
Definition TraefikFrontend : string := Prefix +:+ SuffixFrontend.
Definition TraefikFrontendAuthBasic : string := Prefix +:+ SuffixFrontendAuthBasic.
Definition TraefikFrontendEntryPoints : string := Prefix +:+ SuffixFrontendEntryPoints.
Definition TraefikFrontendPassHostHeader : string := Prefix +:+ SuffixFrontendPassHostHeader.
Definition TraefikFrontendPassTLSCert : string := Prefix +:+ SuffixFrontendPassTLSCert.
Definition TraefikFrontendPriority : string := Prefix +:+ SuffixFrontendPriority.
Definition TraefikFrontendRateLimitExtractorFunc : string := Prefix +:+ SuffixFrontendRateLimitExtractorFunc.
Definition TraefikFrontendRedirectEntryPoint : string := Prefix +:+ SuffixFrontendRedirectEntryPoint.
Definition TraefikFrontendRedirectRegex : string := Prefix +:+ SuffixFrontendRedirectRegex.
Definition TraefikFrontendRedirectReplacement : string := Prefix +:+ SuffixFrontendRedirectReplacement.
Definition TraefikFrontendRedirectPermanent : string := Prefix +:+ SuffixFrontendRedirectPermanent.
Definition TraefikFrontendRule : string := Prefix +:+ SuffixFrontendRule.
Definition TraefikFrontendWhitelistSourceRange : string := Prefix +:+ SuffixFrontendWhitelistSourceRange.
Definition TraefikFrontendWhiteListSourceRange : string := Prefix +:+ SuffixFrontendWhiteListSourceRange.
Definition TraefikFrontendWhiteListUseXForwardedFor : string := Prefix +:+ SuffixFrontendWhiteListUseXForwardedFor.
Definition TraefikFrontendRequestHeaders : string := Prefix +:+ SuffixFrontendRequestHeaders.
Definition TraefikFrontendResponseHeaders : string := Prefix +:+ SuffixFrontendResponseHeaders.
Definition TraefikFrontendAllowedHosts : string := Prefix +:+ SuffixFrontendHeadersAllowedHosts.
Definition TraefikFrontendHostsProxyHeaders : string := Prefix +:+ SuffixFrontendHeadersHostsProxyHeaders.
Definition TraefikFrontendSSLRedirect : string := Prefix +:+ SuffixFrontendHeadersSSLRedirect.
Definition TraefikFrontendSSLTemporaryRedirect : string := Prefix +:+ SuffixFrontendHeadersSSLTemporaryRedirect.
Definition TraefikFrontendSSLHost : string := Prefix +:+ SuffixFrontendHeadersSSLHost.
Definition TraefikFrontendSSLProxyHeaders : string := Prefix +:+ SuffixFrontendHeadersSSLProxyHeaders.
Definition TraefikFrontendSTSSeconds : string := Prefix +:+ SuffixFrontendHeadersSTSSeconds.
Definition TraefikFrontendSTSIncludeSubdomains : string := Prefix +:+ SuffixFrontendHeadersSTSIncludeSubdomains.
Definition TraefikFrontendSTSPreload : string := Prefix +:+ SuffixFrontendHeadersSTSPreload.
Definition TraefikFrontendForceSTSHeader : string := Prefix +:+ SuffixFrontendHeadersForceSTSHeader.
Definition TraefikFrontendFrameDeny : string := Prefix +:+ SuffixFrontendHeadersFrameDeny.
Definition TraefikFrontendCustomFrameOptionsValue : string := Prefix +:+ SuffixFrontendHeadersCustomFrameOptionsValue.
Definition TraefikFrontendContentTypeNosniff : string := Prefix +:+ SuffixFrontendHeadersContentTypeNosniff.
Definition TraefikFrontendBrowserXSSFilter : string := Prefix +:+ SuffixFrontendHeadersBrowserXSSFilter.
Definition TraefikFrontendCustomBrowserXSSValue : string := Prefix +:+ SuffixFrontendHeadersCustomBrowserXSSValue.
Definition TraefikFrontendContentSecurityPolicy : string := Prefix +:+ SuffixFrontendHeadersContentSecurityPolicy.
Definition TraefikFrontendPublicKey : string := Prefix +:+ SuffixFrontendHeadersPublicKey.
Definition TraefikFrontendReferrerPolicy : string := Prefix +:+ SuffixFrontendHeadersReferrerPolicy.
Definition TraefikFrontendIsDevelopment : string := Prefix +:+ SuffixFrontendHeadersIsDevelopment.
Definition BaseFrontendErrorPage : string := "frontend.errors.".
Definition SuffixErrorPageBackend : string := "backend".
Definition SuffixErrorPageQuery : string := "query".
Definition SuffixErrorPageStatus : string := "status".
Definition BaseFrontendRateLimit : string := "frontend.rateLimit.rateSet.".
Definition SuffixRateLimitPeriod : string := "period".
Definition SuffixRateLimitAverage : string := "average".
Definition SuffixRateLimitBurst : string := "burst".
