(* ===== verification/Label.v ===== *)
(** * [provider/label/label.go] and [partial.go]: reading labels

    A service's labels are a map from names to values; each getter reads the
    ones it knows, with a default for a missing or unreadable value.  The
    readers of error pages and rate limits loop over the map, whose order is
    not specified: they take the order as a list. *)
From S2P Require Import Prelude GoStrings GoStringsFacts GoHttp GoStrconv Types LabelNames.

Abbreviation Labels := (gmap string string).

Definition mapEntrySeparator : string := "||".
Definition mapValueSeparator : string := ":".
Definition DefaultWeight : Z := 1.
Definition DefaultProtocol : string := "http".
Definition DefaultPassHostHeader : bool := true.
Definition DefaultPassTLSCert : bool := false.
Definition DefaultFrontendPriority : Z := 0.
Definition DefaultCircuitBreakerExpression : string := "NetworkErrorRatio() > 1".
Definition DefaultBackendLoadBalancerMethod : string := "wrr".
Definition DefaultBackendMaxconnExtractorFunc : string := "request.host".
Definition DefaultBackendLoadbalancerStickinessCookieName : string := "".
Definition DefaultBackendHealthCheckPort : Z := 0.

(** ** Values *)

Definition GetStringValue (labels : Labels) (labelName defaultValue : string) : string :=
  match labels !! labelName with
  | Some value => if nonempty value then value else defaultValue
  | None => defaultValue
  end.

Definition GetBoolValue (labels : Labels) (labelName : string) (defaultValue : bool) : bool :=
  match labels !! labelName with
  | Some rawValue => match ParseBool rawValue with Ok v => v | Err _ => defaultValue end
  | None => defaultValue
  end.

Definition GetIntValue (labels : Labels) (labelName : string) (defaultValue : Z) : Z :=
  match labels !! labelName with
  | Some rawValue => match Atoi rawValue with Ok value => value | Err _ => defaultValue end
  | None => defaultValue
  end.

Definition GetInt64Value (labels : Labels) (labelName : string) (defaultValue : Z) : Z :=
  match labels !! labelName with
  | Some rawValue => match ParseInt rawValue with Ok value => value | Err _ => defaultValue end
  | None => defaultValue
  end.

Definition SplitAndTrimString (base sep : string) : list string :=
  filter (fun s => s <> "") (map trim_space (split base sep)).

Definition GetSliceStringValue (labels : Labels) (labelName : string) : list string :=
  match labels !! labelName with Some values => SplitAndTrimString values "," | None => [] end.

(** The empty map stands for the nil one, which the callers do not tell apart. *)
Definition ParseMapValue (labelName values : string) : gmap string string :=
  foldl (fun mapValue parts =>
    match split2 parts mapValueSeparator with
    | [k; v] => <[canonical_key (trim_space k) := trim_space v]> mapValue
    | _ => mapValue
    end) ∅ (split values mapEntrySeparator).

Definition GetMapValue (labels : Labels) (labelName : string) : gmap string string :=
  match labels !! labelName with
  | Some values => if nonempty values then ParseMapValue labelName values else ∅
  | None => ∅
  end.

Fixpoint GetStringMultipleStrict_loop (labels : Labels) (labelNames : list string) (foundLabels : gmap string string) :
    result (gmap string string) :=
  match labelNames with
  | [] => Ok foundLabels
  | name :: labelNames' =>
      let value := GetStringValue labels name "" in
      if negb (nonempty value) then Err ("label not found: " +:+ name)
      else GetStringMultipleStrict_loop labels labelNames' (<[name := value]> foundLabels)
  end.
Definition GetStringMultipleStrict (labels : Labels) (labelNames : list string) : result (gmap string string) :=
  GetStringMultipleStrict_loop labels labelNames ∅.

Definition Has (labels : Labels) (labelName : string) : bool :=
  match labels !! labelName with Some value => nonempty value | None => false end.

Definition HasPrefix (labels : Labels) (prefix : string) : bool :=
  existsb (fun nv => has_prefix nv.1 prefix && nonempty nv.2) (map_to_list labels).

Definition IsEnabled (labels : Labels) (exposedByDefault : bool) : bool :=
  GetBoolValue labels TraefikEnable exposedByDefault.

Definition GetFuncString (labelName defaultValue : string) (labels : Labels) : string :=
  GetStringValue labels labelName defaultValue.
Definition GetFuncInt (labelName : string) (defaultValue : Z) (labels : Labels) : Z :=
  GetIntValue labels labelName defaultValue.
Definition GetFuncBool (labelName : string) (defaultValue : bool) (labels : Labels) : bool :=
  GetBoolValue labels labelName defaultValue.
Definition GetFuncSliceString (labelName : string) (labels : Labels) : list string :=
  GetSliceStringValue labels labelName.

(** ** Parts of a frontend *)

Definition GetWhiteList (labels : Labels) : option WhiteList :=
  let ranges := GetSliceStringValue labels TraefikFrontendWhiteListSourceRange in
  if negb (bool_decide (length ranges = 0)) then
    Some (mkWhiteList ranges (GetBoolValue labels TraefikFrontendWhiteListUseXForwardedFor false))
  else
    let values := GetSliceStringValue labels TraefikFrontendWhitelistSourceRange in
    if negb (bool_decide (length values = 0)) then Some (mkWhiteList values false) else None.

Definition GetRedirect (labels : Labels) : option Redirect :=
  let permanent := GetBoolValue labels TraefikFrontendRedirectPermanent false in
  if Has labels TraefikFrontendRedirectEntryPoint then
    Some (mkRedirect (GetStringValue labels TraefikFrontendRedirectEntryPoint "") "" "" permanent)
  else if Has labels TraefikFrontendRedirectRegex && Has labels TraefikFrontendRedirectReplacement then
    Some (mkRedirect "" (GetStringValue labels TraefikFrontendRedirectRegex "")
            (GetStringValue labels TraefikFrontendRedirectReplacement "") permanent)
  else None.

(** The submatches of [^<prefix>(?P<name>[^ .]+)\.(?P<field>[^ .]+)$] for the
    literal prefix of each of the four expressions. *)
Definition LabelRegexp : Type := string -> option (string * string).
Definition label_part (s : string) : bool := nonempty s && free " " s && free "." s.
Definition label_regexp (prefix : string) : LabelRegexp := fun s =>
  match strip_prefix prefix s with
  | None => None
  | Some rest =>
      match split rest "." with
      | [name; field] => if label_part name && label_part field then Some (name, field) else None
      | _ => None
      end
  end.
Definition RegexpBaseFrontendErrorPage : LabelRegexp := label_regexp "frontend.errors.".
Definition RegexpFrontendErrorPage : LabelRegexp := label_regexp "traefik.frontend.errors.".
Definition RegexpBaseFrontendRateLimit : LabelRegexp := label_regexp "frontend.rateLimit.rateSet.".
Definition RegexpFrontendRateLimit : LabelRegexp := label_regexp "traefik.frontend.rateLimit.rateSet.".

(** One iteration of [ParseErrorPages]: the page is created even when the field
    is unknown. *)
Definition set_page (field value : string) (ep : ErrorPage) : ErrorPage :=
  if bool_decide (field = SuffixErrorPageStatus) then mkErrorPage (SplitAndTrimString value ",") (ep_Backend ep) (ep_Query ep)
  else if bool_decide (field = SuffixErrorPageQuery) then mkErrorPage (ep_Status ep) (ep_Backend ep) value
  else if bool_decide (field = SuffixErrorPageBackend) then mkErrorPage (ep_Status ep) value (ep_Query ep)
  else ep.

Definition zero_page : ErrorPage := mkErrorPage [] "" "".

Definition page_step (labelPrefix : string) (labelRegex : LabelRegexp) (errorPages : gmap string ErrorPage)
    (label : string * string) : gmap string ErrorPage :=
  if has_prefix label.1 labelPrefix then
    match labelRegex label.1 with
    | None => errorPages
    | Some (pageName, field) =>
        <[pageName := set_page field label.2 (default zero_page (errorPages !! pageName))]> errorPages
    end
  else errorPages.

Definition ParseErrorPages (labels : list (string * string)) (labelPrefix : string) (labelRegex : LabelRegexp) :
    gmap string ErrorPage :=
  foldl (page_step labelPrefix labelRegex) ∅ labels.

Definition GetErrorPages (labels : list (string * string)) : gmap string ErrorPage :=
  ParseErrorPages labels (Prefix +:+ BaseFrontendErrorPage) RegexpFrontendErrorPage.

(** [time.ParseDuration], in nanoseconds. *)
Class TimeLib := ParseDuration : string -> result Z.

(** Two's complement at 64 bits. *)
Definition wrap64 (n : Z) : Z := (n + 2 ^ 63) mod 2 ^ 64 - 2 ^ 63.

(** [flaeg]'s [Duration.Set]: a bare number is seconds, multiplied in [int64]. *)
Definition Duration_Set `{TimeLib} (s : string) : result Z :=
  match Atoi s with Ok v => Ok (wrap64 (v * 1000000000)) | Err _ => ParseDuration s end.

Definition set_rate `{TimeLib} (field rawValue : string) (ep : Rate) : Rate :=
  if bool_decide (field = "period") then
    match Duration_Set rawValue with Ok d => mkRate d (Average ep) (Burst ep) | Err _ => ep end
  else if bool_decide (field = "average") then
    match ParseInt rawValue with Ok value => mkRate (Period ep) value (Burst ep) | Err _ => ep end
  else if bool_decide (field = "burst") then
    match ParseInt rawValue with Ok value => mkRate (Period ep) (Average ep) value | Err _ => ep end
  else ep.

Definition zero_rate : Rate := mkRate 0 0 0.

Definition rate_step `{TimeLib} (labelPrefix : string) (labelRegex : LabelRegexp) (rateSets : gmap string Rate)
    (label : string * string) : gmap string Rate :=
  if has_prefix label.1 labelPrefix && nonempty label.2 then
    match labelRegex label.1 with
    | None => rateSets
    | Some (limitName, field) =>
        <[limitName := set_rate field label.2 (default zero_rate (rateSets !! limitName))]> rateSets
    end
  else rateSets.

Definition ParseRateSets `{TimeLib} (labels : list (string * string)) (labelPrefix : string) (labelRegex : LabelRegexp) :
    gmap string Rate :=
  foldl (rate_step labelPrefix labelRegex) ∅ labels.

Definition GetRateLimit `{TimeLib} (labels : Labels) (order : list (string * string)) : option RateLimit :=
  let extractorFunc := GetStringValue labels TraefikFrontendRateLimitExtractorFunc "" in
  if negb (nonempty extractorFunc) then None else
  let limits := ParseRateSets order (Prefix +:+ BaseFrontendRateLimit) RegexpFrontendRateLimit in
  Some (mkRateLimit limits extractorFunc).

Definition GetHeaders (labels : Labels) : option Headers :=
  let headers := {|
    CustomRequestHeaders := GetMapValue labels TraefikFrontendRequestHeaders;
    CustomResponseHeaders := GetMapValue labels TraefikFrontendResponseHeaders;
    SSLProxyHeaders := GetMapValue labels TraefikFrontendSSLProxyHeaders;
    AllowedHosts := GetSliceStringValue labels TraefikFrontendAllowedHosts;
    HostsProxyHeaders := GetSliceStringValue labels TraefikFrontendHostsProxyHeaders;
    STSSeconds := GetInt64Value labels TraefikFrontendSTSSeconds 0;
    SSLRedirect := GetBoolValue labels TraefikFrontendSSLRedirect false;
    SSLTemporaryRedirect := GetBoolValue labels TraefikFrontendSSLTemporaryRedirect false;
    STSIncludeSubdomains := GetBoolValue labels TraefikFrontendSTSIncludeSubdomains false;
    STSPreload := GetBoolValue labels TraefikFrontendSTSPreload false;
    ForceSTSHeader := GetBoolValue labels TraefikFrontendForceSTSHeader false;
    FrameDeny := GetBoolValue labels TraefikFrontendFrameDeny false;
    ContentTypeNosniff := GetBoolValue labels TraefikFrontendContentTypeNosniff false;
    BrowserXSSFilter := GetBoolValue labels TraefikFrontendBrowserXSSFilter false;
    IsDevelopment := GetBoolValue labels TraefikFrontendIsDevelopment false;
    SSLHost := GetStringValue labels TraefikFrontendSSLHost "";
    CustomFrameOptionsValue := GetStringValue labels TraefikFrontendCustomFrameOptionsValue "";
    ContentSecurityPolicy := GetStringValue labels TraefikFrontendContentSecurityPolicy "";
    h_PublicKey := GetStringValue labels TraefikFrontendPublicKey "";
    ReferrerPolicy := GetStringValue labels TraefikFrontendReferrerPolicy "";
    CustomBrowserXSSValue := GetStringValue labels TraefikFrontendCustomBrowserXSSValue "" |} in
  if negb (HasSecureHeadersDefined (Some headers)) && negb (HasCustomHeadersDefined (Some headers))
  then None else Some headers.

(** ** Parts of a backend *)

Definition GetMaxConn (labels : Labels) : option MaxConn :=
  let amount := GetInt64Value labels TraefikBackendMaxConnAmount min_int64 in
  let extractorFunc := GetStringValue labels TraefikBackendMaxConnExtractorFunc DefaultBackendMaxconnExtractorFunc in
  if (amount =? min_int64)%Z || negb (nonempty extractorFunc) then None
  else Some (mkMaxConn amount extractorFunc).

Definition GetHealthCheck (labels : Labels) : option HealthCheck :=
  let path := GetStringValue labels TraefikBackendHealthCheckPath "" in
  if negb (nonempty path) then None else
  let port := GetIntValue labels TraefikBackendHealthCheckPort DefaultBackendHealthCheckPort in
  let interval := GetStringValue labels TraefikBackendHealthCheckInterval "" in
  Some (mkHealthCheck path port interval).

Definition GetBuffering (labels : Labels) : option Buffering :=
  if negb (HasPrefix labels TraefikBackendBuffering) then None else
  Some {|
    MaxRequestBodyBytes := GetInt64Value labels TraefikBackendBufferingMaxRequestBodyBytes 0;
    MaxResponseBodyBytes := GetInt64Value labels TraefikBackendBufferingMaxResponseBodyBytes 0;
    MemRequestBodyBytes := GetInt64Value labels TraefikBackendBufferingMemRequestBodyBytes 0;
    MemResponseBodyBytes := GetInt64Value labels TraefikBackendBufferingMemResponseBodyBytes 0;
    RetryExpression := GetStringValue labels TraefikBackendBufferingRetryExpression "" |}.

Definition GetCircuitBreaker (labels : Labels) : option CircuitBreaker :=
  let circuitBreaker := GetStringValue labels TraefikBackendCircuitBreakerExpression "" in
  if negb (nonempty circuitBreaker) then None else Some (mkCircuitBreaker circuitBreaker).

Definition getSticky (labels : Labels) : bool := GetBoolValue labels TraefikBackendLoadBalancerSticky false.

Definition GetLoadBalancer (labels : Labels) : option LoadBalancer :=
  if negb (HasPrefix labels TraefikBackendLoadBalancer) then None else
  let method := GetStringValue labels TraefikBackendLoadBalancerMethod DefaultBackendLoadBalancerMethod in
  let stickiness :=
    if GetBoolValue labels TraefikBackendLoadBalancerStickiness false then
      Some (mkStickiness (GetStringValue labels TraefikBackendLoadBalancerStickinessCookieName
                            DefaultBackendLoadbalancerStickinessCookieName))
    else None in
  Some (mkLoadBalancer method (getSticky labels) stickiness).

(** * Facts: The readers of label groups do not depend on the order of the map

    Error pages and rate limits are collected by a loop over a Go map.  Both
    loops are instances of one fold, whose result is characterised label by
    label, for every order of the map. *)

(** ** The labels of a group *)

Lemma label_part_inv s : label_part s = true -> s <> "" /\ free " "%char s = true /\ free "."%char s = true.
Proof. unfold label_part, nonempty. rewrite !andb_true_iff, negb_true_iff, bool_decide_eq_false. tauto. Qed.

Lemma label_regexp_Some prefix s name field :
  label_regexp prefix s = Some (name, field) <->
  s = prefix +:+ name +:+ "." +:+ field /\ label_part name = true /\ label_part field = true.
Proof.
  unfold label_regexp. split.
  - destruct (strip_prefix prefix s) as [rest|] eqn:E; [|done]. apply strip_prefix_Some in E as ->.
    destruct (split_cases "." rest) as [[_ ->]|(a & b & -> & Hf & ->)]; [done|].
    destruct (split_cases "." b) as [[Hb ->]|(c & d & -> & _ & ->)].
    2: destruct (split d ".") eqn:Ed; [by destruct (split_nonempty d ".")|done].
    destruct (label_part a && label_part b) eqn:Hp; [|done]. apply andb_true_iff in Hp as [? ?].
    intros [= <- <-]. done.
  - intros (-> & Hn & Hf). rewrite strip_prefix_app. pose proof (label_part_inv _ Hn) as (_ & _ & Hfn).
    pose proof (label_part_inv _ Hf) as (_ & _ & Hff).
    change (name +:+ "." +:+ field) with (name +:+ String "." field).
    by rewrite split_sep, split_free, Hn, Hf by done.
Qed.

(** ** The fold *)

Section Collect.
Context {T : Type} (zero : T) (setf : string -> string -> T -> T) (keep : string -> bool).
Context (pre rxpre : string).

Definition collect_step (acc : gmap string T) (label : string * string) : gmap string T :=
  if has_prefix label.1 pre && keep label.2 then
    match label_regexp rxpre label.1 with
    | None => acc
    | Some (k, f) => <[k := setf f label.2 (default zero (acc !! k))]> acc
    end
  else acc.

(** The fields given for [k], in the order of the list. *)
Definition fields_of (k : string) (l : list (string * string)) : list (string * string) :=
  omap (fun label =>
    if has_prefix label.1 pre && keep label.2 then
      match label_regexp rxpre label.1 with
      | Some (k', f) => if bool_decide (k' = k) then Some (f, label.2) else None
      | None => None
      end
    else None) l.

Definition set_all (l : list (string * string)) (x : T) : T := foldl (fun x fv => setf fv.1 fv.2 x) x l.

Lemma collect_lookup l acc k :
  foldl collect_step acc l !! k =
  match fields_of k l with
  | [] => acc !! k
  | fs => Some (set_all fs (default zero (acc !! k)))
  end.
Proof.
  revert acc. induction l as [|[n v] l IH]; intros acc; [done|]. simpl. rewrite IH. unfold collect_step. simpl.
  destruct (has_prefix n pre && keep v); [|done].
  destruct (label_regexp rxpre n) as [[k' f]|]; [|done]. case_bool_decide as Hk.
  - subst k'. rewrite lookup_insert_eq. simpl. unfold set_all. by destruct (fields_of k l).
  - by rewrite lookup_insert_ne.
Qed.

(** One projection of the record that one field sets. *)
Lemma set_all_proj {U} (proj : T -> U) (upd : string -> U -> U) f0 l x :
  (forall f v x, proj (setf f v x) = if bool_decide (f = f0) then upd v (proj x) else proj x) ->
  NoDup l.*1 ->
  proj (set_all l x) = match list_find (fun fv => fv.1 = f0) l with
                       | Some (_, fv) => upd fv.2 (proj x) | None => proj x end.
Proof.
  intros Hproj. revert x. induction l as [|[f v] l IH]; intros x Hnd; [done|].
  rewrite fmap_cons in Hnd. apply NoDup_cons in Hnd as [Hn Hnd]. simpl in *.
  unfold set_all. simpl. fold (set_all l (setf f v x)). rewrite IH, Hproj by done.
  case_bool_decide as Hf.
  - subst f. rewrite decide_True by done. simpl.
    destruct (list_find _ l) as [[i fv]|] eqn:E; [|done]. exfalso. apply Hn.
    apply list_find_Some in E as (Hi & Hfv & _). apply list_elem_of_fmap. exists fv. split; [done|].
    by eapply list_elem_of_lookup_2.
  - rewrite decide_False by done. by destruct (list_find _ l) as [[]|].
Qed.

Context (Hpre : forall rest, has_prefix (rxpre +:+ rest) pre = true).

Lemma elem_of_fields k f v l :
  label_part k = true -> label_part f = true ->
  (f, v) ∈ fields_of k l <-> (rxpre +:+ k +:+ "." +:+ f, v) ∈ l /\ keep v = true.
Proof using Hpre.
  intros Hk Hf. unfold fields_of. rewrite list_elem_of_omap. split.
  - intros ([n w] & Hin & H). simpl in H. destruct (has_prefix n pre && keep w) eqn:E; [|done].
    apply andb_true_iff in E as [_ Hkeep]. destruct (label_regexp rxpre n) as [[k' f']|] eqn:Er; [|done].
    case_bool_decide; [|done]. injection H as <- <-. subst k'.
    apply label_regexp_Some in Er as (-> & _). done.
  - intros [Hin Hkeep]. eexists. split; [exact Hin|]. simpl. rewrite Hpre, Hkeep. simpl.
    rewrite (proj2 (label_regexp_Some rxpre (rxpre +:+ k +:+ "." +:+ f) k f)); [|done]. by rewrite bool_decide_eq_true_2.
Qed.

Lemma fields_of_parts k f v l : (f, v) ∈ fields_of k l -> label_part k = true /\ label_part f = true.
Proof.
  unfold fields_of. rewrite list_elem_of_omap. intros ([n w] & Hin & H). simpl in H.
  destruct (has_prefix n pre && keep w); [|done].
  destruct (label_regexp rxpre n) as [[k' f']|] eqn:Er; [|done].
  case_bool_decide; [|done]. injection H as <- <-. subst. by apply label_regexp_Some in Er as (_ & ? & ?).
Qed.

Lemma NoDup_fields k l : NoDup l.*1 -> NoDup (fields_of k l).*1.
Proof using Hpre.
  induction l as [|[n v] l IH]; [constructor|]. rewrite fmap_cons. intros [Hn Hnd]%NoDup_cons. simpl.
  destruct (has_prefix n pre && keep v); [|by apply IH].
  destruct (label_regexp rxpre n) as [[k' f]|] eqn:Er; [|by apply IH].
  case_bool_decide; [|by apply IH]. subst k'. simpl. constructor; [|by apply IH].
  intros ([f' v'] & Hf & Hin)%list_elem_of_fmap. simpl in Hf. subst f'. apply label_regexp_Some in Er as (-> & Hk & Hf).
  apply elem_of_fields in Hin as [Hin _]; [|done..]. apply Hn. simpl. apply list_elem_of_fmap.
  by exists (rxpre +:+ k +:+ "." +:+ f, v').
Qed.

(** The label of a field, as the map has it. *)
Definition label_of (m : gmap string string) (k f : string) : option string :=
  match m !! (rxpre +:+ k +:+ "." +:+ f) with
  | Some v => if keep v then Some v else None
  | None => None
  end.

Lemma label_of_find m l k f0 :
  l ≡ₚ map_to_list m -> label_part k = true -> label_part f0 = true ->
  match list_find (fun fv => fv.1 = f0) (fields_of k l) with Some (_, fv) => Some fv.2 | None => None end = label_of m k f0.
Proof using Hpre.
  intros Hl Hk Hf. assert (forall v, (f0, v) ∈ fields_of k l <-> label_of m k f0 = Some v) as Hiff.
  { intros v. rewrite elem_of_fields by done. rewrite Hl, (elem_of_map_to_list m). unfold label_of.
    destruct (m !! _) as [w|]; [|by split; [intros [? _]|]]. destruct (keep w) eqn:E; split.
    - by intros [[= ->] _].
    - by intros [= ->].
    - intros [[= ->] ?]. congruence.
    - done. }
  destruct (list_find _ (fields_of k l)) as [[i [f v]]|] eqn:E.
  - apply list_find_Some in E as (Hi & Hfv & _). simpl in *. subst f. symmetry. apply Hiff.
    by eapply list_elem_of_lookup_2.
  - apply list_find_None in E. destruct (label_of m k f0) as [v|] eqn:Ev; [|done].
    rewrite Forall_forall in E. destruct (E (f0, v)); [by apply Hiff|done].
Qed.

(** The group exists exactly when one of its labels does. *)
Lemma collect_spec m l k x :
  l ≡ₚ map_to_list m ->
  foldl collect_step ∅ l !! k = Some x <->
  label_part k = true /\ (exists f v, label_part f = true /\ label_of m k f = Some v) /\
  x = set_all (fields_of k l) zero.
Proof using Hpre.
  intros Hl. rewrite collect_lookup, lookup_empty.
  assert (forall f v, (f, v) ∈ fields_of k l <-> label_part k = true /\ label_part f = true /\ label_of m k f = Some v) as Hiff.
  { intros f v. split.
    - intros Hin. pose proof (fields_of_parts _ _ _ _ Hin) as [Hk Hf]. split; [done|split; [done|]].
      apply elem_of_fields in Hin as [Hin Hkeep]; [|done..]. rewrite Hl in Hin. apply (elem_of_map_to_list m) in Hin.
      unfold label_of. by rewrite Hin, Hkeep.
    - intros (Hk & Hf & Hv). rewrite elem_of_fields by done. rewrite Hl, (elem_of_map_to_list m). unfold label_of in Hv.
      destruct (m !! _) as [w|]; [|done]. destruct (keep w) eqn:E; [|done]. by injection Hv as ->. }
  simpl. destruct (fields_of k l) as [|[f v] fs] eqn:E.
  - split; [done|]. intros (Hk & (f & v & Hf & Hv) & _).
    assert ((f, v) ∈ @nil (string * string)) as H by (by apply Hiff). by apply elem_of_nil in H.
  - split.
    + intros [= <-]. destruct (proj1 (Hiff f v)) as (Hk & Hf & Hv); [by left|]. eauto 10.
    + by intros (_ & _ & ->).
Qed.

End Collect.

(** ** Error pages *)

Lemma page_step_collect p acc label :
  page_step p (label_regexp p) acc label = collect_step zero_page set_page (fun _ => true) p p acc label.
Proof. unfold page_step, collect_step. by rewrite andb_true_r. Qed.

Lemma prefix_self p rest : has_prefix (p +:+ rest) p = true.
Proof. apply has_prefix_app. Qed.

(** The label [<prefix><name>.<field>] of a map, if it has it. *)
Definition group_label (m : gmap string string) (prefix name field : string) : option string :=
  m !! (prefix +:+ name +:+ "." +:+ field).

Lemma label_of_true prefix m k f : label_of (fun _ => true) prefix m k f = group_label m prefix k f.
Proof. unfold label_of, group_label. by destruct (m !! _). Qed.

Lemma ErrorPage_eta ep : ep = mkErrorPage (ep_Status ep) (ep_Backend ep) (ep_Query ep).
Proof. by destruct ep. Qed.

(** The error pages read from the labels of a service are the same for
    every order of the map: a page exists exactly when the service has a label
    of its group, and each field of it is its own label's value, the status
    list split at commas. *)
Theorem ErrorPages_deterministic (m : gmap string string) (l : list (string * string)) (name : string) (ep : ErrorPage) :
  l ≡ₚ map_to_list m ->
  let label := group_label m "traefik.frontend.errors." name in
  GetErrorPages l !! name = Some ep <->
  label_part name = true /\ (exists field, label_part field = true /\ is_Some (label field)) /\
  ep = mkErrorPage (match label "status" with Some v => SplitAndTrimString v "," | None => [] end)
         (default "" (label "backend")) (default "" (label "query")).
Proof.
  intros Hl label. unfold GetErrorPages, ParseErrorPages. set (p := Prefix +:+ BaseFrontendErrorPage).
  change (label_regexp "traefik.frontend.errors.") with (label_regexp p).
  assert (forall acc, foldl (page_step p RegexpFrontendErrorPage) acc l =
                      foldl (collect_step zero_page set_page (fun _ => true) p p) acc l) as ->.
  { clear Hl. induction l as [|x l IH]; intros acc; [done|]. simpl.
    change RegexpFrontendErrorPage with (label_regexp p). rewrite page_step_collect. apply IH. }
  rewrite (collect_spec zero_page set_page (fun _ => true) p p (prefix_self p) m) by done.
  assert (forall f, label_of (fun _ => true) p m name f = label f) as Hlab by (intros f; apply label_of_true).
  set (fs := fields_of (fun _ => true) p p name l).
  assert (label_part name = true -> set_all set_page fs zero_page =
     mkErrorPage (match label "status" with Some v => SplitAndTrimString v "," | None => [] end)
       (default "" (label "backend")) (default "" (label "query"))) as Hall.
  { intros Hname. assert (NoDup fs.*1) as Hnd.
    { apply NoDup_fields; [apply prefix_self|]. rewrite Hl. apply NoDup_fst_map_to_list. }
    pose proof (fun f0 Hf0 => label_of_find (fun _ => true) p p (prefix_self p) m l name f0 Hl Hname Hf0) as Hfind.
    fold fs in Hfind. rewrite (ErrorPage_eta (set_all _ _ _)). f_equal.
    - rewrite (set_all_proj set_page ep_Status (fun v _ => SplitAndTrimString v ",") "status") by
        (done || (intros f v x; unfold set_page; by repeat case_bool_decide)).
      specialize (Hfind "status" eq_refl). rewrite Hlab in Hfind. rewrite <-Hfind.
      by destruct (list_find _ fs) as [[? ?]|].
    - rewrite (set_all_proj set_page ep_Backend (fun v _ => v) "backend") by
        (done || (intros f v x; unfold set_page; repeat case_bool_decide; by subst)).
      specialize (Hfind "backend" eq_refl). rewrite Hlab in Hfind. rewrite <-Hfind.
      by destruct (list_find _ fs) as [[? ?]|].
    - rewrite (set_all_proj set_page ep_Query (fun v _ => v) "query") by
        (done || (intros f v x; unfold set_page; repeat case_bool_decide; by subst)).
      specialize (Hfind "query" eq_refl). rewrite Hlab in Hfind. rewrite <-Hfind.
      by destruct (list_find _ fs) as [[? ?]|]. }
  setoid_rewrite Hlab. unfold is_Some. split.
  - intros (Hn & (f & v & Hf & Hv) & ->). rewrite Hall by done. eauto 10.
  - intros (Hn & (f & Hf & v & Hv) & ->). rewrite Hall by done. eauto 10.
Qed.

Definition sample_labels : gmap string string :=
  {["traefik.frontend.errors.foo.status" := "404, 500-503"; "traefik.frontend.errors.foo.query" := "/{status}.html";
    "traefik.frontend.rule" := "Host:a"]}.

Lemma ErrorPages_deterministic_witness :
  GetErrorPages (rev (map_to_list sample_labels)) !! "foo" = Some (mkErrorPage ["404"; "500-503"] "" "/{status}.html").
Proof.
  apply (ErrorPages_deterministic sample_labels (rev (map_to_list sample_labels)) "foo").
  - symmetry. apply Permutation_rev.
  - vm_compute. split; [reflexivity|]. split; [|reflexivity]. exists "status". split; [reflexivity|]. eexists. reflexivity.
Defined.

(** ** Rate limits *)

Section Rates.
Context `{TimeLib}.

Lemma Rate_eta r : r = mkRate (Period r) (Average r) (Burst r).
Proof. by destruct r. Qed.

(** The value of a numeric field: zero unless its label is there and read. *)
Definition rate_value (parse : string -> result Z) (label : option string) : Z :=
  match label with Some v => match parse v with Ok n => n | Err _ => 0 end | None => 0 end.

(** The label of a rate, when it has a value. *)
Definition rate_label (m : gmap string string) (name field : string) : option string :=
  label_of nonempty "traefik.frontend.rateLimit.rateSet." m name field.

(** Likewise the rate limits: a rate exists exactly when the service has a
    non-empty label of its group, each field is its own label's value, and zero
    when that label is missing or unreadable. *)
Theorem RateSets_deterministic (m : gmap string string) (l : list (string * string)) (name : string) (r : Rate) :
  l ≡ₚ map_to_list m ->
  let label := rate_label m name in
  ParseRateSets l (Prefix +:+ BaseFrontendRateLimit) RegexpFrontendRateLimit !! name = Some r <->
  label_part name = true /\ (exists field, label_part field = true /\ is_Some (label field)) /\
  r = mkRate (rate_value Duration_Set (label "period")) (rate_value ParseInt (label "average"))
        (rate_value ParseInt (label "burst")).
Proof.
  intros Hl label. unfold ParseRateSets. set (p := Prefix +:+ BaseFrontendRateLimit).
  change RegexpFrontendRateLimit with (label_regexp p).
  change (rate_step p (label_regexp p)) with (collect_step zero_rate set_rate nonempty p p).
  rewrite (collect_spec zero_rate set_rate nonempty p p (prefix_self p) m) by done.
  assert (forall f, label_of nonempty p m name f = label f) as Hlab by done.
  set (fs := fields_of nonempty p p name l).
  assert (label_part name = true -> set_all set_rate fs zero_rate =
     mkRate (rate_value Duration_Set (label "period")) (rate_value ParseInt (label "average"))
        (rate_value ParseInt (label "burst"))) as Hall.
  { intros Hname. assert (NoDup fs.*1) as Hnd.
    { apply NoDup_fields; [apply prefix_self|]. rewrite Hl. apply NoDup_fst_map_to_list. }
    pose proof (fun f0 Hf0 => label_of_find nonempty p p (prefix_self p) m l name f0 Hl Hname Hf0) as Hfind.
    fold fs in Hfind.
    assert (forall (proj : Rate -> Z) parse f0, label_part f0 = true -> proj zero_rate = 0%Z ->
      (forall f v x, proj (set_rate f v x) = if bool_decide (f = f0) then
         match parse v with Ok n => n | Err _ => proj x end else proj x) ->
      proj (set_all set_rate fs zero_rate) = rate_value parse (label f0)) as Hproj.
    { intros proj parse f0 Hf0 Hz Hset.
      rewrite (set_all_proj set_rate proj (fun v u => match parse v with Ok n => n | Err _ => u end) f0) by done.
      specialize (Hfind f0 Hf0). rewrite Hlab in Hfind. rewrite <-Hfind, Hz.
      by destruct (list_find _ fs) as [[? ?]|]. }
    rewrite (Rate_eta (set_all _ _ _)). f_equal; apply Hproj; try done;
      intros f v x; unfold set_rate; repeat case_bool_decide; subst; try done;
      first [by destruct (Duration_Set v)|by destruct (ParseInt v)]. }
  setoid_rewrite Hlab. unfold is_Some. split.
  - intros (Hn & (f & v & Hf & Hv) & ->). rewrite Hall by done. eauto 10.
  - intros (Hn & (f & Hf & v & Hv) & ->). rewrite Hall by done. eauto 10.
Qed.

End Rates.

Definition sample_rate_labels : gmap string string :=
  {["traefik.frontend.rateLimit.rateSet.r1.period" := "6"; "traefik.frontend.rateLimit.rateSet.r1.average" := "12";
    "traefik.frontend.rateLimit.rateSet.r1.burst" := "many"]}.

Lemma RateSets_deterministic_witness :
  ParseRateSets (H := fun _ => Err "unknown unit") (rev (map_to_list sample_rate_labels))
    (Prefix +:+ BaseFrontendRateLimit) RegexpFrontendRateLimit !! "r1" = Some (mkRate 6000000000 12 0).
Proof.
  apply (RateSets_deterministic sample_rate_labels (rev (map_to_list sample_rate_labels)) "r1").
  - symmetry. apply Permutation_rev.
  - vm_compute. split; [reflexivity|]. split; [|reflexivity]. exists "period". split; [reflexivity|]. eexists. reflexivity.
Defined.
