(* ===== verification/LabelSegment.v ===== *)
(** * [provider/label/segment.go]: labels of segments

    The labels of a service are divided into segments, named in the label; the
    labels without one are the default segment, merged into the others.  The
    two expressions are evaluated as their leftmost-first, lazy matching
    prescribes; loops over maps use the order [range] gives. *)
From S2P Require Import Prelude GoStrings GoStringsFacts LabelNames.

Abbreviation SegmentPropertyValues := (gmap string string).
Abbreviation SegmentProperties := (gmap string SegmentPropertyValues).

(** ** The expression

    [^traefik\.(?P<segment_name>.+?)\.(?P<property_name>port|...|frontend\.(.+))$] *)
Definition newline : ascii := "010".

Definition is_property (s : string) : bool :=
  bool_decide (s ∈ ["port"; "portIndex"; "weight"; "protocol"; "backend"]) ||
  match strip_prefix "frontend." s with
  | Some rest => negb (bool_decide (rest = "")) && free newline rest
  | None => false
  end.

(** The shortest non-empty segment after which a property is left. *)
Fixpoint split_segment (first : bool) (s : string) : option (string * string) :=
  match s with
  | "" => None
  | String c s' =>
      if negb first && Ascii.eqb c "." && is_property s' then Some ("", s')
      else if Ascii.eqb c newline then None
      else match split_segment false s' with Some (seg, p) => Some (String c seg, p) | None => None end
  end.

Definition SegmentPropertiesRegexp (name : string) : option (string * string) :=
  match strip_prefix "traefik." name with Some rest => split_segment true rest | None => None end.

Definition FindSegmentSubmatch (name : string) : option (string * string) :=
  match SegmentPropertiesRegexp name with
  | None => None
  | Some m =>
      if has_prefix name (TraefikFrontend +:+ ".") || has_prefix name (TraefikBackend +:+ ".") then None else Some m
  end.

(** ** Collecting *)

Definition put (segment key value : string) (s : SegmentProperties) : SegmentProperties :=
  <[segment := <[key := value]> (default ∅ (s !! segment))]> s.

Section Segments.
Context `{order : MapOrder}.

Definition property_step (v : SegmentProperties) (label : string * string) : SegmentProperties :=
  match FindSegmentSubmatch label.1 with
  | None => v
  | Some (segmentName, propertyName) => put segmentName propertyName label.2 v
  end.
Definition ExtractServiceProperties (labels : gmap string string) : SegmentProperties :=
  foldl property_step ∅ (range labels).
Definition ExtractServicePropertiesP (labels : option (gmap string string)) : SegmentProperties :=
  match labels with None => ∅ | Some labels => ExtractServiceProperties labels end.

Definition label_step (allLabels : SegmentProperties) (label : string * string) : SegmentProperties :=
  let '(name, value) := label in
  if negb (has_prefix name Prefix) then allLabels else
  match FindSegmentSubmatch name with
  | None => put "" name value allLabels
  | Some (segmentName, propertyName) => put segmentName (Prefix +:+ propertyName) value allLabels
  end.

Definition GetSegmentNames (s : SegmentProperties) : list string := (range s).*1.

(** The default labels a segment does not set itself. *)
Definition merge_segment (defaultLabels segmentLabels : SegmentPropertyValues) : SegmentPropertyValues :=
  foldl (fun seg kv => match seg !! kv.1 with Some _ => seg | None => <[kv.1 := kv.2]> seg end)
    segmentLabels (range defaultLabels).

Definition mergeDefault (s : SegmentProperties) : SegmentProperties :=
  match s !! "" with
  | None => s
  | Some defaultLabels =>
      let segmentsNames := GetSegmentNames s in
      let s := if bool_decide (size defaultLabels = 0) then s else
        foldl (fun s name =>
          match s !! name with
          | Some segmentLabels => <[name := merge_segment defaultLabels segmentLabels]> s
          | None => s
          end) s segmentsNames in
      if bool_decide (1 < length segmentsNames) then delete "" s else s
  end.

Definition ExtractTraefikLabels (originLabels : gmap string string) : SegmentProperties :=
  mergeDefault (foldl label_step {["" := ∅]} (range originLabels)).

End Segments.

Definition GetServiceLabel (labelName serviceName : string) : string :=
  if negb (bool_decide (serviceName = "")) then Prefix +:+ serviceName +:+ "." +:+ trim_prefix labelName Prefix
  else labelName.

(** * Facts: What segment labels mean

    Every label goes to one place, so that the order of the map plays no part;
    a segment sees its own labels and, for what it does not set, the default
    ones; a service label is read back as the service and property it was made
    of. *)

(** ** The expression *)

Lemma split_segment_Some first s seg p :
  split_segment first s = Some (seg, p) ->
  s = seg +:+ "." +:+ p /\ is_property p = true /\ free newline seg = true /\ (first = true -> seg <> "").
Proof.
  revert first seg p. induction s as [|c s IH]; intros first seg p; cbn [split_segment]; [done|].
  destruct (negb first && Ascii.eqb c "." && is_property s) eqn:E.
  - intros [= <- <-]. bool_simpl. apply Ascii.eqb_eq in H1 as ->. split_and!; try done. by intros ->.
  - destruct (Ascii.eqb c newline) eqn:Ec; [done|].
    destruct (split_segment false s) as [[seg' p']|] eqn:Es; [|done]. intros [= <- <-].
    apply IH in Es as (-> & Hp & Hf & _). split_and!; try done. rewrite free_cons, Ec. done.
Qed.

Lemma split_segment_free first s p :
  free "."%char s = true -> free newline s = true -> (first = true -> s <> "") -> is_property p = true ->
  split_segment first (s +:+ "." +:+ p) = Some (s, p).
Proof.
  revert first. induction s as [|c s IH]; intros first Hd Hn Hne Hp.
  - destruct first; [by destruct Hne|]. change ("" +:+ "." +:+ p) with (String "." p). cbn [split_segment].
    by rewrite Hp.
  - rewrite free_cons in Hd, Hn. bool_simpl. rewrite app_cons_str. cbn [split_segment].
    replace (Ascii.eqb c ".") with false by (symmetry; done). rewrite andb_false_r. simpl.
    replace (Ascii.eqb c newline) with false by (symmetry; done).
    by rewrite IH.
Qed.

Lemma FindSegmentSubmatch_Some name seg p :
  FindSegmentSubmatch name = Some (seg, p) -> name = Prefix +:+ seg +:+ "." +:+ p /\ seg <> "".
Proof.
  unfold FindSegmentSubmatch, SegmentPropertiesRegexp.
  destruct (strip_prefix "traefik." name) as [rest|] eqn:E; [|done]. apply strip_prefix_Some in E as ->.
  destruct (split_segment true rest) as [m|] eqn:Es; [|done].
  destruct (_ || _); [done|]. intros [= ->]. apply split_segment_Some in Es as (-> & _ & _ & Hne). auto.
Qed.

(** A label made for a service is read back as that service and property,
    for every service name that has no dot and is neither [frontend] nor
    [backend], which the default labels use. *)
Theorem service_label_roundtrip (service property : string) :
  service <> "" -> free "."%char service = true -> free newline service = true ->
  service <> "frontend" -> service <> "backend" -> is_property property = true ->
  FindSegmentSubmatch (GetServiceLabel (Prefix +:+ property) service) = Some (service, property).
Proof.
  intros Hne Hd Hn Hf Hb Hp. unfold GetServiceLabel. rewrite bool_decide_eq_false_2, trim_prefix_app by done. simpl negb.
  unfold FindSegmentSubmatch, SegmentPropertiesRegexp. rewrite strip_prefix_app, split_segment_free by auto.
  assert (forall t, free "."%char t = true -> service <> t ->
    has_prefix (Prefix +:+ service +:+ "." +:+ property) (Prefix +:+ t +:+ ".") = false) as Hpre.
  { intros t Ht Hst. apply not_true_iff_false. intros [r Hr]%has_prefix_spec. rewrite !app_assoc_str in Hr.
    apply app_inv_l in Hr. by apply (app_sep_inj "." service t property r) in Hr as [-> _]. }
  change (TraefikFrontend +:+ ".") with (Prefix +:+ "frontend" +:+ "."). rewrite Hpre by done.
  change (TraefikBackend +:+ ".") with (Prefix +:+ "backend" +:+ "."). by rewrite Hpre.
Qed.

Lemma service_label_roundtrip_witness :
  FindSegmentSubmatch "traefik.web.frontend.rule" = Some ("web", "frontend.rule").
Proof. apply (service_label_roundtrip "web" "frontend.rule"); (discriminate || reflexivity). Defined.

(** ** Slots *)

(** Where a label goes: its segment and its key there. *)
Definition slot (name : string) : option (string * string) :=
  if has_prefix name Prefix then
    match FindSegmentSubmatch name with
    | None => Some ("", name)
    | Some (seg, p) => Some (seg, Prefix +:+ p)
    end
  else None.

Lemma slot_inj n1 n2 s : slot n1 = Some s -> slot n2 = Some s -> n1 = n2.
Proof.
  unfold slot. destruct (has_prefix n1 Prefix), (has_prefix n2 Prefix); try done.
  destruct (FindSegmentSubmatch n1) as [[s1 p1]|] eqn:E1, (FindSegmentSubmatch n2) as [[s2 p2]|] eqn:E2.
  - apply FindSegmentSubmatch_Some in E1 as [-> _]. apply FindSegmentSubmatch_Some in E2 as [-> _].
    intros [= <-] [= <- H]. by apply app_inv_l in H as ->.
  - apply FindSegmentSubmatch_Some in E1 as [_ Hne]. intros [= <-] [= H _]. by destruct Hne.
  - apply FindSegmentSubmatch_Some in E2 as [_ Hne]. intros [= <-] [= H _]. by destruct Hne.
  - by intros [= <-] [= ->].
Qed.

Definition lookup2 (s : SegmentProperties) (seg key : string) : option string := default ∅ (s !! seg) !! key.

Lemma lookup2_put seg key v s seg' key' :
  lookup2 (put seg key v s) seg' key' = if bool_decide ((seg', key') = (seg, key)) then Some v else lookup2 s seg' key'.
Proof.
  unfold lookup2, put. destruct (decide (seg = seg')) as [->|Hs].
  - rewrite lookup_insert_eq. simpl. destruct (decide (key = key')) as [->|Hk].
    + by rewrite lookup_insert_eq, bool_decide_eq_true_2.
    + rewrite lookup_insert_ne by done. rewrite bool_decide_eq_false_2; [done|congruence].
  - rewrite lookup_insert_ne by done. rewrite bool_decide_eq_false_2; [done|congruence].
Qed.

Lemma label_step_slot s name v :
  label_step s (name, v) = match slot name with Some (seg, key) => put seg key v s | None => s end.
Proof.
  unfold label_step, slot. destruct (has_prefix name Prefix); [|done]. simpl.
  by destruct (FindSegmentSubmatch name) as [[]|].
Qed.

#[local] Arguments label_step : simpl never.

Lemma collect_lookup2 l s seg key :
  NoDup l.*1 ->
  lookup2 (foldl label_step s l) seg key =
  match list_find (fun nv => slot nv.1 = Some (seg, key)) l with
  | Some (_, nv) => Some nv.2
  | None => lookup2 s seg key
  end.
Proof.
  revert s. induction l as [|[n v] l IH]; intros s Hnd; [done|]. rewrite fmap_cons in Hnd.
  apply NoDup_cons in Hnd as [Hn Hnd]. simpl in *. rewrite IH, label_step_slot by done.
  destruct (decide (slot n = Some (seg, key))) as [Hs|Hs].
  - rewrite Hs. destruct (list_find _ l) as [[i nv]|] eqn:E.
    + exfalso. apply Hn. apply list_find_Some in E as (Hi & Hsl & _). rewrite (slot_inj _ _ _ Hs Hsl).
      apply list_elem_of_fmap. exists nv. split; [done|]. by eapply list_elem_of_lookup_2.
    + by rewrite lookup2_put, bool_decide_eq_true_2.
  - destruct (list_find _ l) as [[i nv]|]; [done|]. destruct (slot n) as [[seg0 key0]|]; [|done].
    rewrite lookup2_put, bool_decide_eq_false_2; [done|congruence].
Qed.

Lemma collect_is_Some l s seg :
  is_Some (foldl label_step s l !! seg) <-> is_Some (s !! seg) \/ Exists (fun nv => exists key, slot nv.1 = Some (seg, key)) l.
Proof.
  revert s. induction l as [|[n v] l IH]; intros s; [rewrite Exists_nil; simpl; tauto|].
  simpl. rewrite IH, Exists_cons, label_step_slot. simpl. unfold put.
  destruct (slot n) as [[seg0 key0]|].
  - destruct (decide (seg0 = seg)) as [->|Hs].
    + rewrite lookup_insert_eq. split; [intros _; right; left; by exists key0|intros _; left; by eexists].
    + rewrite lookup_insert_ne by done. split; [tauto|].
      intros [?|[[key [= Hk _]]|?]]; [by left|done|by right].
  - split; [tauto|]. intros [?|[[key [=]]|?]]; auto.
Qed.

(** ** Merging the default segment *)

Section Merge.
#[local] Set Default Proof Using "All".
Context `{order : MapOrder} {laws : MapOrderLaws order}.

Lemma find_key {A} (m : gmap string A) key :
  match list_find (fun kv => kv.1 = key) (range m) with Some (_, kv) => Some kv.2 | None => None end = m !! key.
Proof.
  destruct (list_find _ (range m)) as [[i [k v]]|] eqn:E.
  - apply list_find_Some in E as (Hi & Hk & _). simpl in *. subst k. symmetry. apply range_lookup.
    by eapply list_elem_of_lookup_2.
  - apply list_find_None in E. destruct (m !! key) as [v|] eqn:Ev; [|done]. exfalso.
    rewrite Forall_forall in E. destruct (E (key, v)); [by apply range_lookup|done].
Qed.

Lemma merge_segment_lookup d s key :
  merge_segment d s !! key = match s !! key with Some v => Some v | None => d !! key end.
Proof.
  unfold merge_segment. rewrite <-(find_key d). generalize (range d). intros l. revert s.
  induction l as [|[k v] l IH]; intros s; [simpl; by destruct (s !! key)|]. simpl. rewrite IH.
  destruct (decide (k = key)) as [->|Hk].
  - destruct (s !! key) as [w|] eqn:E; [by rewrite E|]. by rewrite lookup_insert_eq.
  - assert ((match s !! k with Some _ => s | None => <[k:=v]> s end) !! key = s !! key) as ->.
    { destruct (s !! k); [done|by rewrite lookup_insert_ne]. }
    destruct (s !! key); [done|]. by destruct (list_find _ l) as [[]|].
Qed.

Lemma merge_names_lookup d (names : list string) (s : SegmentProperties) (seg : string) :
  NoDup names ->
  foldl (fun s name => match s !! name with
     | Some segmentLabels => <[name := merge_segment d segmentLabels]> s | None => s end) s names !! seg =
  if bool_decide (seg ∈ names) then merge_segment d <$> s !! seg else s !! seg.
Proof.
  revert s. induction names as [|n names IH]; intros s Hnd; [done|]. apply NoDup_cons in Hnd as [Hn Hnd].
  simpl. rewrite IH by done.
  assert (forall t, (match s !! n with Some x => <[n := merge_segment d x]> s | None => s end) !! t =
                    if bool_decide (t = n) then merge_segment d <$> s !! t else s !! t) as Hl.
  { intros t. destruct (decide (t = n)) as [->|Ht].
    - rewrite bool_decide_eq_true_2 by done. destruct (s !! n) eqn:E; [by rewrite lookup_insert_eq|by rewrite E].
    - rewrite bool_decide_eq_false_2 by done. destruct (s !! n); [by rewrite lookup_insert_ne|done]. }
  rewrite Hl. destruct (decide (seg = n)) as [->|Hs].
  - rewrite (bool_decide_eq_false_2 (n ∈ names)) by done. by rewrite !bool_decide_eq_true_2 by set_solver.
  - rewrite (bool_decide_eq_false_2 (seg = n)) by done.
    assert (bool_decide (seg ∈ n :: names) = bool_decide (seg ∈ names)) as -> by (apply bool_decide_ext; set_solver).
    done.
Qed.

(** Some segment beside the default one. *)
Lemma several_segments (s : SegmentProperties) :
  is_Some (s !! "") ->
  1 < length (GetSegmentNames s) <-> exists seg', seg' <> "" /\ is_Some (s !! seg').
Proof.
  intros Hd. unfold GetSegmentNames. pose proof (range_NoDup s) as Hnd. pose proof (range_keys s) as Hk. split.
  - intros Hl. destruct ((range s).*1) as [|a [|b l]] eqn:El; simpl in Hl; try lia.
    apply NoDup_cons in Hnd as [Hna _]. destruct (decide (a = "")) as [->|Ha].
    + exists b. split; [|apply Hk; set_solver]. intros ->. set_solver.
    + exists a. split; [done|]. apply Hk. set_solver.
  - intros (seg' & Hne & Hs'). apply Hk in Hs'. assert ("" ∈ (range s).*1) as Hin' by (by apply Hk).
    destruct ((range s).*1) as [|a [|b l]]; simpl; [by apply elem_of_nil in Hs'| |lia].
    apply list_elem_of_singleton in Hs'. apply list_elem_of_singleton in Hin'. congruence.
Qed.

(** Each segment after the merge, and whether the default one is still there. *)
Lemma mergeDefault_lookup (s : SegmentProperties) d seg :
  s !! "" = Some d ->
  mergeDefault s !! seg =
  if bool_decide (seg = "" /\ 1 < length (GetSegmentNames s)) then None else merge_segment d <$> s !! seg.
Proof.
  intros Hd. unfold mergeDefault. rewrite Hd.
  set (s1 := if bool_decide (size d = 0) then s else _).
  assert (forall t, s1 !! t = merge_segment d <$> s !! t) as Hs1.
  { intros t. unfold s1, GetSegmentNames. case_bool_decide as Hsz.
    - apply map_size_empty_inv in Hsz as ->. destruct (s !! t) as [x|]; [|done]. simpl. f_equal.
      apply map_eq. intros key. rewrite merge_segment_lookup, lookup_empty. by destruct (x !! key).
    - rewrite merge_names_lookup by apply range_NoDup. case_bool_decide as Ht; [done|].
      rewrite range_keys in Ht. by apply eq_None_not_Some in Ht as ->. }
  destruct (decide (1 < length (GetSegmentNames s))) as [Hlen|Hlen].
  - rewrite bool_decide_eq_true_2 by done. destruct (decide (seg = "")) as [->|Hs].
    + rewrite bool_decide_eq_true_2 by done. apply lookup_delete_eq.
    + rewrite bool_decide_eq_false_2 by tauto. rewrite lookup_delete_ne by done. apply Hs1.
  - rewrite bool_decide_eq_false_2 by done. rewrite bool_decide_eq_false_2 by tauto. apply Hs1.
Qed.

(** ** The labels of a service *)

(** The label of the service that goes to this place. *)
Definition placed (m : gmap string string) (seg key v : string) : Prop :=
  exists name, slot name = Some (seg, key) /\ m !! name = Some v.

Definition base (m : gmap string string) : SegmentProperties := foldl label_step {["" := ∅]} (range m).

Lemma base_lookup2 m seg key v : lookup2 (base m) seg key = Some v <-> placed m seg key v.
Proof.
  unfold base. rewrite collect_lookup2 by apply range_NoDup.
  assert (lookup2 {["" := ∅]} seg key = None) as Hempty.
  { unfold lookup2. destruct (decide (seg = "")) as [->|]; [by rewrite lookup_singleton_eq|by rewrite lookup_singleton_ne]. }
  destruct (list_find _ _) as [[i [n w]]|] eqn:E.
  - apply list_find_Some in E as (Hi & Hs & _). simpl in *. apply list_elem_of_lookup_2, range_lookup in Hi.
    split; [intros [= ->]; by exists n|]. intros (n' & Hs' & Hn'). rewrite (slot_inj _ _ _ Hs' Hs) in Hn'. congruence.
  - rewrite Hempty. split; [done|]. intros (n & Hs & Hn). apply list_find_None in E.
    rewrite Forall_forall in E. destruct (E (n, v)); [by apply range_lookup|done].
Qed.

Lemma base_is_Some m seg : is_Some (base m !! seg) <-> seg = "" \/ exists key v, placed m seg key v.
Proof.
  unfold base. rewrite collect_is_Some, lookup_singleton_is_Some, Exists_exists. split.
  - intros [<-|([n v] & Hin & key & Hs)]; [by left|]. right. exists key, v, n. by apply range_lookup in Hin.
  - intros [->|(key & v & n & Hs & Hn)]; [by left|]. right. exists (n, v). split; [by apply range_lookup|eauto].
Qed.

(** The labels of a service, whatever the order of the map: a segment
    exists exactly when a label names it, the default one exactly when none
    does; and a segment has a property exactly when it has the label itself, or
    does not and the default segment has it. *)
Theorem ExtractTraefikLabels_spec (m : gmap string string) :
  let R := ExtractTraefikLabels m in
  (forall seg, seg <> "" -> is_Some (R !! seg) <-> exists key v, placed m seg key v) /\
  (is_Some (R !! "") <-> ~ exists seg key v, seg <> "" /\ placed m seg key v) /\
  (forall seg S key v, R !! seg = Some S ->
     S !! key = Some v <-> placed m seg key v \/ ((forall w, ~ placed m seg key w) /\ placed m "" key v)).
Proof.
  cbv zeta. unfold ExtractTraefikLabels. fold (base m).
  assert (is_Some (base m !! "")) as [d Hd] by (apply base_is_Some; by left).
  assert (1 < length (GetSegmentNames (base m)) <-> exists seg key v, seg <> "" /\ placed m seg key v) as Hseg.
  { rewrite several_segments by (by eexists). split.
    - intros (seg & Hne & [->|(key & v & Hp)]%base_is_Some); [done|eauto].
    - intros (seg & key & v & Hne & Hp). exists seg. split; [done|]. apply base_is_Some. eauto. }
  assert (forall seg, mergeDefault (base m) !! seg =
    if bool_decide (seg = "" /\ 1 < length (GetSegmentNames (base m))) then None else merge_segment d <$> base m !! seg)
    as Hlook by (intros seg; by apply mergeDefault_lookup).
  split_and!.
  - intros seg Hne. rewrite Hlook, bool_decide_eq_false_2 by tauto. rewrite fmap_is_Some, base_is_Some. naive_solver.
  - rewrite Hlook, Hd, <-Hseg. case_bool_decide as Hc.
    + split; [by intros [? [=]]|tauto].
    + split; [tauto|intros _; by eexists].
  - intros seg S key v. rewrite Hlook. case_bool_decide; [done|].
    destruct (base m !! seg) as [own|] eqn:Eo; [|done]. intros [= <-]. rewrite merge_segment_lookup.
    assert (forall w, own !! key = Some w <-> placed m seg key w) as Hown.
    { intros w. rewrite <-base_lookup2. unfold lookup2. by rewrite Eo. }
    assert (forall w, d !! key = Some w <-> placed m "" key w) as Hdef.
    { intros w. rewrite <-base_lookup2. unfold lookup2. by rewrite Hd. }
    destruct (own !! key) as [w|] eqn:E.
    + split; [intros [= ->]; left; by apply Hown|]. intros [Hp|[Hp _]]; [by apply Hown in Hp|].
      exfalso. by apply (Hp w), Hown.
    + rewrite Hdef. split; [intros Hp; right; split; [|done]; intros w Hw; by apply Hown in Hw|].
      intros [Hp|[_ Hp]]; [by apply Hown in Hp|done].
Qed.

End Merge.

Definition segment_labels : gmap string string :=
  {["traefik.web.port" := "80"; "traefik.web.frontend.rule" := "Host:web"; "traefik.frontend.rule" := "Host:all";
    "traefik.enable" := "true"; "other" := "x"]}.

Lemma ExtractTraefikLabels_spec_witness :
  is_Some (ExtractTraefikLabels (order := backward_order) segment_labels !! "web") /\
  forall S, ExtractTraefikLabels (order := backward_order) segment_labels !! "web" = Some S ->
    S !! "traefik.frontend.rule" = Some "Host:web" /\ S !! "traefik.enable" = Some "true".
Proof.
  pose proof (ExtractTraefikLabels_spec (order := backward_order) segment_labels) as (Hs & _ & Hl).
  assert (placed segment_labels "web" "traefik.frontend.rule" "Host:web") as Hrule.
  { exists "traefik.web.frontend.rule". split; vm_compute; reflexivity. }
  split; [apply Hs; [discriminate|]; exists "traefik.frontend.rule", "Host:web"; exact Hrule|].
  intros S HS. split; apply (Hl "web" S _ _ HS).
  - left. exact Hrule.
  - right. split; [|exists "traefik.enable"; split; vm_compute; reflexivity].
    intros w (name & Hn & Hw). unfold segment_labels in Hw.
    repeat (apply lookup_insert_Some in Hw as [[<- _]|[_ Hw]]; [vm_compute in Hn; discriminate Hn|]).
    apply lookup_singleton_Some in Hw as [<- _]. vm_compute in Hn. discriminate Hn.
Defined.
