(* ===== verification/EntryPoints.v ===== *)
(** * [configuration/entrypoints.go]: entry points from a flag

    The value of the flag is a list of [key:value] words; each part of the
    entry point is made of the keys it knows.  Attaching client authorities to
    an entry point without TLS dereferences a nil pointer: the functions on the
    way are outcomes. *)
From S2P Require Import Prelude GoStrings GoStringsFacts Types OsioClient.

(** ** [strings.Fields] *)

(** The length of the white space a string starts with. *)
Definition space_len (s : string) : nat :=
  match s with
  | String a s1 =>
      if is_ascii_space a then 1 else
      match s1 with
      | String b s2 =>
          if is_space2 a b then 2 else
          match s2 with String c _ => if is_space3 a b c then 3 else 0 | "" => 0 end
      | "" => 0
      end
  | "" => 0
  end.

Fixpoint words_go (s : string) (skip : nat) : string * list string :=
  match s with
  | "" => ("", [])
  | String c s' =>
      match skip with
      | S k => words_go s' k
      | O =>
          match space_len s with
          | O => let '(h, t) := words_go s' 0 in (String c h, t)
          | S n => let '(h, t) := words_go s' n in ("", if bool_decide (h = "") then t else h :: t)
          end
      end
  end.
Definition Fields (s : string) : list string :=
  let '(h, t) := words_go s 0 in if bool_decide (h = "") then t else h :: t.

(** ** Data *)

Record ClientCA := mkClientCA { ca_Files : list string; Optional : bool }.
Record TLS := mkTLS {
  MinVersion : string;
  CipherSuites : list string;
  tls_Certificates : list (string * string);
  tls_ClientCAFiles : list string;
  tls_ClientCA : ClientCA;
}.
Record ProxyProtocol := mkProxyProtocol { pp_Insecure : bool; pp_TrustedIPs : list string }.
Record ForwardedHeaders := mkForwardedHeaders { fh_Insecure : bool; fh_TrustedIPs : list string }.
Record EntryPoint := mkEntryPoint {
  ep_Address : string;
  ep_TLS : option TLS;
  ep_Redirect : option Redirect;
  ep_Auth : option Auth;
  ep_WhitelistSourceRange : list string;
  ep_WhiteList : option WhiteList;
  Compress : bool;
  ep_ProxyProtocol : option ProxyProtocol;
  ep_ForwardedHeaders : option ForwardedHeaders;
}.
Abbreviation EntryPointsMap := (gmap string EntryPoint).

(** ** [tls.Certificates] *)

Fixpoint Certificates_Set_loop (certificates : list string) (value : string) (c : list (string * string)) :
    result (list (string * string)) :=
  match certificates with
  | [] => Ok c
  | certificate :: certificates' =>
      match split certificate "," with
      | [CertFile; KeyFile] => Certificates_Set_loop certificates' value (c ++ [(CertFile, KeyFile)])
      | _ => Err ("bad certificates format: " +:+ value)
      end
  end.
Definition Certificates_Set (c : list (string * string)) (value : string) : result (list (string * string)) :=
  Certificates_Set_loop (split value ";") value c.

Definition Certificates_String (c : list (string * string)) : string :=
  join (map (fun cert => cert.1 +:+ "," +:+ cert.2) c) ";".

(** ** Parsing *)

Abbreviation conf := (gmap string string).

Definition get (result : conf) (key : string) : string := default "" (result !! key).

Definition toBool (result : conf) (key : string) : bool :=
  match result !! key with
  | Some val => equal_fold val "true" || equal_fold val "enable" || equal_fold val "on"
  | None => false
  end.

Definition parse_word (config : conf) (part : string) : conf :=
  let field := split2 part ":" in
  let name := to_lower (replace_all (hd "" field) "." "_") in
  match field with
  | _ :: v :: _ => <[name := v]> config
  | _ => if equal_fold name "TLS" then <["tls_acme" := "TLS"]> config else <[name := ""]> config
  end.
Definition parseEntryPointsConfiguration (raw : string) : conf := foldl parse_word ∅ (Fields raw).

(** ** The parts *)

Definition makeWhiteList (result : conf) : option WhiteList :=
  match result !! "whitelist_sourcerange" with
  | Some rawRange => Some (mkWhiteList (split rawRange ",") (toBool result "whitelist_usexforwardedfor"))
  | None => None
  end.

Definition make_users (result : conf) (key : string) : option UsersAuth :=
  match result !! key with Some v => Some (mkUsersAuth (split v ",") "") | None => None end.

Definition make_forward (result : conf) : option Forward :=
  match result !! "auth_forward_address" with
  | None => None
  | Some address =>
      let cert := get result "auth_forward_tls_cert" in
      let key := get result "auth_forward_tls_key" in
      let insecureSkipVerify := toBool result "auth_forward_tls_insecureskipverify" in
      let clientTLS :=
        if nonempty cert && nonempty key || insecureSkipVerify
        then Some (mkClientTLS (get result "auth_forward_tls_ca") (toBool result "auth_forward_tls_caoptional")
                     cert key insecureSkipVerify)
        else None in
      Some (mkForward address clientTLS (toBool result "auth_forward_trustforwardheader"))
  end.

Definition makeEntryPointAuth (result : conf) : option Auth :=
  let basic := make_users result "auth_basic_users" in
  let digest := make_users result "auth_digest_users" in
  let forward := make_forward result in
  match basic, digest, forward with
  | None, None, None => None
  | _, _, _ => Some (mkAuth basic digest forward (get result "auth_headerfield"))
  end.

Definition makeEntryPointProxyProtocol (result : conf) : option ProxyProtocol :=
  let ppTrustedIPs := get result "proxyprotocol_trustedips" in
  if nonempty (get result "proxyprotocol_insecure") || nonempty ppTrustedIPs then
    Some (mkProxyProtocol (toBool result "proxyprotocol_insecure")
            (if nonempty ppTrustedIPs then split ppTrustedIPs "," else []))
  else None.

Definition makeEntryPointForwardedHeaders (result : conf) : option ForwardedHeaders :=
  let insecure := match result !! "forwardedheaders_insecure" with
    | Some _ => toBool result "forwardedheaders_insecure" | None => true end in
  let fhTrustedIPs := get result "forwardedheaders_trustedips" in
  if nonempty fhTrustedIPs
  then Some (mkForwardedHeaders (toBool result "forwardedheaders_insecure") (split fhTrustedIPs ","))
  else Some (mkForwardedHeaders insecure []).

Definition makeEntryPointRedirect (result : conf) : option Redirect :=
  if nonempty (get result "redirect_entrypoint") || nonempty (get result "redirect_regex") ||
     nonempty (get result "redirect_replacement")
  then Some (mkRedirect (get result "redirect_entrypoint") (get result "redirect_regex")
               (get result "redirect_replacement") (toBool result "redirect_permanent"))
  else None.

Definition no_client_ca : ClientCA := mkClientCA [] false.
Definition new_tls (certs : list (string * string)) : TLS := mkTLS "" [] certs [] no_client_ca.
Definition set_ClientCA (ca : ClientCA) (t : TLS) : TLS := mkTLS (MinVersion t) (CipherSuites t) (tls_Certificates t) (tls_ClientCAFiles t) ca.

Definition makeEntryPointTLS (result : conf) : outcome (Prelude.result (option TLS)) :=
  let configTLS :=
    if nonempty (get result "tls") then
      certs ← Certificates_Set [] (get result "tls"); mret (Some (new_tls certs))
    else if nonempty (get result "tls_acme") then Ok (Some (new_tls []))
    else Ok None in
  match configTLS with
  | Err err => Ret (Err err)
  | Ok configTLS =>
      if nonempty (get result "ca") then
        let files := split (get result "ca") "," in
        let optional := toBool result "ca_optional" in
        match configTLS with
        | None => Panic nil_dereference
        | Some t => Ret (Ok (Some (set_ClientCA (mkClientCA files optional) t)))
        end
      else Ret (Ok configTLS)
  end.

Definition EntryPoints_Set (ep : EntryPointsMap) (value : string) : outcome (Prelude.result EntryPointsMap) :=
  let result := parseEntryPointsConfiguration value in
  let whiteListSourceRange :=
    if nonempty (get result "whitelistsourcerange") then split (get result "whitelistsourcerange") "," else [] in
  let compress := toBool result "compress" in
  match makeEntryPointTLS result with
  | Panic e => Panic e
  | Crash e => Crash e
  | Ret (Err err) => Ret (Err err)
  | Ret (Ok configTLS) => Ret (Ok (<[get result "name" := {|
        ep_Address := get result "address";
        ep_TLS := configTLS;
        ep_Auth := makeEntryPointAuth result;
        ep_Redirect := makeEntryPointRedirect result;
        Compress := compress;
        ep_WhitelistSourceRange := whiteListSourceRange;
        ep_WhiteList := makeWhiteList result;
        ep_ProxyProtocol := makeEntryPointProxyProtocol result;
        ep_ForwardedHeaders := makeEntryPointForwardedHeaders result |}]> ep))
  end.

(** ** Words *)

Lemma visible_space_len c s : visible c = true -> space_len (String c s) = 0.
Proof.
  intros Hv. unfold space_len. rewrite (visible_not_space c Hv). pose proof (visible_small c Hv) as Hs.
  assert (forall b, is_space2 c b = false) as H2.
  { intros b. unfold is_space2. rewrite (proj2 (Z.eqb_neq (byte_of c) 0xC2)) by lia. done. }
  assert (forall b d, is_space3 c b d = false) as H3.
  { intros b d. unfold is_space3. destruct (byte_of c) as [|p|p] eqn:E; try done. do 8 (destruct p; try done). }
  destruct s as [|b [|d s]]; rewrite ?H2, ?H3; done.
Qed.

Lemma words_go_visible a b :
  str_forall visible a = true -> words_go (a +:+ b) 0 = let '(h, t) := words_go b 0 in (a +:+ h, t).
Proof.
  induction a as [|c a IH]; intros H; [change ("" +:+ b) with b; by destruct (words_go b 0)|].
  simpl in H. apply andb_true_iff in H as [Hc Ha]. rewrite app_cons_str. cbn [words_go].
  rewrite visible_space_len, IH by done. by destruct (words_go b 0).
Qed.

Lemma words_go_word a : str_forall visible a = true -> words_go a 0 = (a, []).
Proof. intros H. pose proof (words_go_visible a "" H) as E. rewrite app_nil_r_str in E. rewrite E. cbn. by rewrite app_nil_r_str. Qed.

Lemma words_go_space s : words_go (String " " s) 0 = ("", Fields s).
Proof.
  cbn [words_go]. assert (space_len (String " " s) = 1) as -> by (by destruct s as [|? [|? ?]]).
  unfold Fields. by destruct (words_go s 0).
Qed.

(** Words of printable characters, separated by spaces, are found again. *)
Lemma Fields_words l :
  Forall (fun w => w <> "" /\ str_forall visible w = true) l -> Fields (join l " ") = l.
Proof.
  unfold Fields. induction 1 as [|w l [Hne Hw] Hl IH]; [done|]. destruct l as [|w2 l].
  - cbn [join]. rewrite words_go_word, bool_decide_eq_false_2 by done. done.
  - rewrite join_cons by done. rewrite words_go_visible by done.
    change (" " +:+ join (w2 :: l) " ") with (String " " (join (w2 :: l) " ")). rewrite words_go_space.
    unfold Fields. destruct (words_go (join (w2 :: l) " ") 0) as [h t]. rewrite app_nil_r_str, bool_decide_eq_false_2 by done.
    by rewrite IH.
Qed.

(** A key and its value, as the flag has them. *)
Definition key_name (k : string) : string := to_lower (replace_all k "." "_").
Definition word (kv : string * string) : string := kv.1 +:+ ":" +:+ kv.2.
Definition word_ok (kv : string * string) : bool :=
  str_forall visible kv.1 && str_forall visible kv.2 && free ":" kv.1.

(** A flag written as words is read back as the keys in lower case, dots
    turned to underscores, with the text after the first colon as value; of
    equal keys the last wins. *)
Theorem flag_words_read (l : list (string * string)) :
  Forall (fun kv => word_ok kv = true) l ->
  parseEntryPointsConfiguration (join (map word l) " ") = foldl (fun m kv => <[key_name kv.1 := kv.2]> m) ∅ l.
Proof.
  intros Hl. unfold parseEntryPointsConfiguration. rewrite Fields_words.
  - generalize (∅ : conf). induction Hl as [|[k v] l Hkv Hl IH]; intros m; [done|]. simpl. rewrite <-IH. f_equal.
    unfold parse_word, word. simpl. unfold word_ok in Hkv. bool_simpl. simpl in *.
    change (k +:+ ":" +:+ v) with (k +:+ String ":" v). by rewrite split2_sep.
  - apply Forall_map. eapply Forall_impl; [exact Hl|]. intros [k v] Hkv. unfold word_ok in Hkv. bool_simpl. simpl in *.
    unfold word. simpl. split; [by destruct k|]. rewrite !str_forall_app. by rewrite H, H1.
Qed.

Lemma flag_words_read_witness :
  parseEntryPointsConfiguration "Name:https Address::443 CA.Optional:true" =
  <["ca_optional" := "true"]> (<["address" := ":443"]> {["name" := "https"]}).
Proof.
  apply (flag_words_read [("Name", "https"); ("Address", ":443"); ("CA.Optional", "true")]). repeat constructor.
Defined.

(** ** TLS of an entry point *)

Definition has_key (result : conf) (key : string) : bool := nonempty (get result key).

(** A client authority without TLS. *)
Definition orphan_ca (result : conf) : bool :=
  has_key result "ca" && negb (has_key result "tls") && negb (has_key result "tls_acme").

(** The TLS part of an entry point: naming a client authority without TLS
    panics; a malformed certificate list is an error; otherwise TLS is on
    exactly when certificates or a bare [TLS] word are given, with those
    certificates, and the client authorities are the given ones. *)
Theorem makeEntryPointTLS_spec (result : conf) :
  match makeEntryPointTLS result with
  | Panic e => e = nil_dereference /\ orphan_ca result = true
  | Crash _ => False
  | Ret (Err _) => has_key result "tls" = true /\ is_ok (Certificates_Set [] (get result "tls")) = false
  | Ret (Ok None) => has_key result "tls" = false /\ has_key result "tls_acme" = false /\ has_key result "ca" = false
  | Ret (Ok (Some t)) =>
      orphan_ca result = false /\
      (if has_key result "tls" then Certificates_Set [] (get result "tls") = Ok (tls_Certificates t)
       else has_key result "tls_acme" = true /\ tls_Certificates t = []) /\
      tls_ClientCA t = (if has_key result "ca" then mkClientCA (split (get result "ca") ",") (toBool result "ca_optional")
                        else no_client_ca)
  end.
Proof.
  unfold makeEntryPointTLS, orphan_ca, has_key.
  destruct (nonempty (get result "tls")) eqn:Et; simpl.
  - destruct (Certificates_Set [] (get result "tls")) as [certs|e] eqn:Ec; simpl; [|done].
    destruct (nonempty (get result "ca")) eqn:Ea; simpl; (split_and!; try done; by rewrite ?Ec).
  - destruct (nonempty (get result "tls_acme")) eqn:Em; simpl; destruct (nonempty (get result "ca")) eqn:Ea; simpl; done.
Qed.
