(* ===== verification/Reload.v ===== *)
(** * [server/server.go]: how a configuration reaches the router

    Providers send messages to [listenProviders]; [preLoadConfiguration] fills
    in the defaults, drops empty and unchanged configurations and hands the
    others to a throttling goroutine of the provider, which publishes at most
    one per period to [listenConfigurations], whose [loadConfiguration] swaps
    the configuration in.  The functions come first; the goroutines and the
    channels between them are the step relation [step]. *)
From S2P Require Import Prelude GoStrings GoStringsFacts GoStrconv Types.

(** ** Data *)

(** A configuration as it is received, with its nil maps and its nil slice. *)
Record DynConf := mkDynConf {
  d_Backends : option (gmap string Backend);
  d_Frontends : option (gmap string Frontend);
  d_TLS : option (list TLSConfiguration);
}.

#[export] Instance MaxConn_eq_dec : EqDecision MaxConn. Proof. solve_decision. Defined.
#[export] Instance Stickiness_eq_dec : EqDecision Stickiness. Proof. solve_decision. Defined.
#[export] Instance LoadBalancer_eq_dec : EqDecision LoadBalancer. Proof. solve_decision. Defined.
#[export] Instance CircuitBreaker_eq_dec : EqDecision CircuitBreaker. Proof. solve_decision. Defined.
#[export] Instance Buffering_eq_dec : EqDecision Buffering. Proof. solve_decision. Defined.
#[export] Instance HealthCheck_eq_dec : EqDecision HealthCheck. Proof. solve_decision. Defined.
#[export] Instance Server_eq_dec : EqDecision Server. Proof. solve_decision. Defined.
#[export] Instance Backend_eq_dec : EqDecision Backend. Proof. solve_decision. Defined.
#[export] Instance WhiteList_eq_dec : EqDecision WhiteList. Proof. solve_decision. Defined.
#[export] Instance Route_eq_dec : EqDecision Route. Proof. solve_decision. Defined.
#[export] Instance ErrorPage_eq_dec : EqDecision ErrorPage. Proof. solve_decision. Defined.
#[export] Instance Rate_eq_dec : EqDecision Rate. Proof. solve_decision. Defined.
#[export] Instance RateLimit_eq_dec : EqDecision RateLimit. Proof. solve_decision. Defined.
#[export] Instance Redirect_eq_dec : EqDecision Redirect. Proof. solve_decision. Defined.
#[export] Instance Headers_eq_dec : EqDecision Headers. Proof. solve_decision. Defined.
#[export] Instance Frontend_eq_dec : EqDecision Frontend. Proof. solve_decision. Defined.
#[export] Instance TLSConfiguration_eq_dec : EqDecision TLSConfiguration. Proof. solve_decision. Defined.
#[export] Instance DynConf_eq_dec : EqDecision DynConf. Proof. solve_decision. Defined.

Definition set_EntryPoints (l : list string) (f : Frontend) : Frontend :=
  mkFrontend l (fe_Backend f) (Routes f) (PassHostHeader f) (PassTLSCert f) (Priority f) (BasicAuth f)
    (WhitelistSourceRange f) (fe_WhiteList f) (fe_Headers f) (Errors f) (fe_RateLimit f) (fe_Redirect f).
Definition set_LoadBalancer (lb : option LoadBalancer) (b : Backend) : Backend :=
  mkBackend (Servers b) (be_CircuitBreaker b) lb (be_MaxConn b) (be_HealthCheck b) (be_Buffering b).

(** ** Defaults *)

Definition configure_frontend (defaultEntrypoints : list string) (frontend : Frontend) : Frontend :=
  if bool_decide (length (EntryPoints frontend) = 0) then set_EntryPoints defaultEntrypoints frontend else frontend.
Definition configureFrontends (frontends : gmap string Frontend) (defaultEntrypoints : list string) :
    gmap string Frontend := configure_frontend defaultEntrypoints <$> frontends.

Definition sticky_cookie : Stickiness := mkStickiness "_TRAEFIK_BACKEND".

Definition configure_backend (backend : Backend) : Backend :=
  let lb := be_LoadBalancer backend in
  match snd (NewLoadBalancerMethod lb) with
  | None =>
      match lb with
      | Some l =>
          if bool_decide (lb_Stickiness l = None) && Sticky l
          then set_LoadBalancer (Some (mkLoadBalancer (lb_Method l) (Sticky l) (Some sticky_cookie))) backend
          else backend
      | None => backend
      end
  | Some _ =>
      let stickiness :=
        match lb with
        | Some l =>
            match lb_Stickiness l with
            | None => if Sticky l then Some sticky_cookie else None
            | Some st => Some st
            end
        | None => None
        end in
      set_LoadBalancer (Some (mkLoadBalancer "wrr" false stickiness)) backend
  end.
Definition configureBackends (backends : gmap string Backend) : gmap string Backend := configure_backend <$> backends.

(** A configuration without frontends is left as it is, its backends too. *)
Definition defaultConfigurationValues (defaultEntryPoints : list string) (configuration : DynConf) : DynConf :=
  match d_Frontends configuration with
  | None => configuration
  | Some frontends =>
      mkDynConf (configureBackends <$> d_Backends configuration) (Some (configureFrontends frontends defaultEntryPoints))
        (d_TLS configuration)
  end.

(** ** The goroutines *)

Record Message := mkMessage { m_Provider : string; m_Config : option DynConf }.

(** The goroutine that publishes for one provider: waiting for the ring, about
    to send, or asleep until an instant. *)
Inductive publisher := Idle | Publishing (c : DynConf) | Sleeping (until : nat).

(** [listenProviders]: waiting for a message, waiting for a throttling loop to
    take the configuration of one, or returned. *)
Inductive listener := Listening | Handing (name : string) (c : DynConf) | Stopped.

(** One provider's throttling: the configuration its loop holds between the
    update channel and the ring, the ring of capacity one, and the publisher. *)
Record throttle_state := mkThrottle {
  held : option DynConf;
  ring : option DynConf;
  pub : publisher;
}.

(** [s_accepted] and [s_published] are the history of what was handed to the
    throttling goroutines and what they published, and when. *)
Record server_state := mkServerState {
  s_now : nat;
  s_incoming : list Message;
  s_listener : listener;
  s_throttles : gmap string throttle_state;
  s_validated : list (string * DynConf);
  s_current : gmap string DynConf;
  s_accepted : list (string * DynConf);
  s_published : list (string * DynConf * nat);
}.

(** The capacity of the two channels of the server. *)
Definition chan_capacity : nat := 100.

Section Server.
Context (throttle : nat) (defaultEntryPoints : list string).

(** What [preLoadConfiguration] does with a configuration of a provider. *)
Inductive verdict := Empty | Same | Reload (c : DynConf).

Definition preLoadConfiguration (current : gmap string DynConf) (name : string) (conf : DynConf) : verdict :=
  let conf := defaultConfigurationValues defaultEntryPoints conf in
  match conf with
  | mkDynConf None None None => Empty
  | _ => if bool_decide (current !! name = Some conf) then Same else Reload conf
  end.

(** The throttling state of a provider, which is created with its first
    message. *)
Definition throttle_of (s : server_state) (name : string) : throttle_state :=
  default (mkThrottle None None Idle) (s_throttles s !! name).
Definition set_throttle (name : string) (t : throttle_state) (s : server_state) : server_state :=
  mkServerState (s_now s) (s_incoming s) (s_listener s) (<[name := t]> (s_throttles s)) (s_validated s) (s_current s)
    (s_accepted s) (s_published s).
Definition set_incoming (l : list Message) (s : server_state) : server_state :=
  mkServerState (s_now s) l (s_listener s) (s_throttles s) (s_validated s) (s_current s) (s_accepted s) (s_published s).
Definition set_listener (l : listener) (s : server_state) : server_state :=
  mkServerState (s_now s) (s_incoming s) l (s_throttles s) (s_validated s) (s_current s) (s_accepted s) (s_published s).
Definition accept (name : string) (c : DynConf) (s : server_state) : server_state :=
  mkServerState (s_now s) (s_incoming s) (s_listener s) (s_throttles s) (s_validated s) (s_current s)
    (s_accepted s ++ [(name, c)]) (s_published s).
Definition publish (name : string) (c : DynConf) (s : server_state) : server_state :=
  mkServerState (s_now s) (s_incoming s) (s_listener s) (s_throttles s) (s_validated s ++ [(name, c)]) (s_current s)
    (s_accepted s) (s_published s ++ [(name, c, s_now s)]).
Definition set_validated (l : list (string * DynConf)) (s : server_state) : server_state :=
  mkServerState (s_now s) (s_incoming s) (s_listener s) (s_throttles s) l (s_current s) (s_accepted s) (s_published s).
Definition set_current (m : gmap string DynConf) (s : server_state) : server_state :=
  mkServerState (s_now s) (s_incoming s) (s_listener s) (s_throttles s) (s_validated s) m (s_accepted s) (s_published s).
Definition tick (s : server_state) : server_state :=
  mkServerState (S (s_now s)) (s_incoming s) (s_listener s) (s_throttles s) (s_validated s) (s_current s)
    (s_accepted s) (s_published s).

(** [loadConfiguration]: the new map is installed when [loadConfig] accepts it
    and dropped when it does not. *)
Definition loadConfiguration (loadConfig : gmap string DynConf -> bool) (name : string) (c : DynConf)
    (s : server_state) : server_state :=
  let newConfigurations := <[name := c]> (s_current s) in
  if loadConfig newConfigurations then set_current newConfigurations s else s.

(** The steps of the server's own goroutines; the verdict of [loadConfig] on a
    map of configurations is any function's. *)
Inductive internal : server_state -> server_state -> Prop :=
  | step_stop s name l :
      s_listener s = Listening -> s_incoming s = mkMessage name None :: l ->
      internal s (set_listener Stopped (set_incoming l s))
  | step_skip s name c l :
      s_listener s = Listening -> s_incoming s = mkMessage name (Some c) :: l ->
      (forall c', preLoadConfiguration (s_current s) name c <> Reload c') ->
      internal s (set_incoming l s)
  | step_decide s name c c' l :
      s_listener s = Listening -> s_incoming s = mkMessage name (Some c) :: l ->
      preLoadConfiguration (s_current s) name c = Reload c' ->
      internal s (set_listener (Handing name c') (set_incoming l s))
  | step_hand s name c :
      s_listener s = Handing name c -> held (throttle_of s name) = None ->
      internal s (set_listener Listening (accept name c (set_throttle name
        (mkThrottle (Some c) (ring (throttle_of s name)) (pub (throttle_of s name))) s)))
  | step_push s name c :
      held (throttle_of s name) = Some c ->
      internal s (set_throttle name (mkThrottle None (Some c) (pub (throttle_of s name))) s)
  | step_take s name c :
      ring (throttle_of s name) = Some c -> pub (throttle_of s name) = Idle ->
      internal s (set_throttle name (mkThrottle (held (throttle_of s name)) None (Publishing c)) s)
  | step_publish s name c :
      pub (throttle_of s name) = Publishing c -> length (s_validated s) < chan_capacity ->
      internal s (publish name c (set_throttle name
        (mkThrottle (held (throttle_of s name)) (ring (throttle_of s name)) (Sleeping (s_now s + throttle))) s))
  | step_wake s name until :
      pub (throttle_of s name) = Sleeping until -> until <= s_now s ->
      internal s (set_throttle name (mkThrottle (held (throttle_of s name)) (ring (throttle_of s name)) Idle) s)
  | step_load s name c l loadConfig :
      s_validated s = (name, c) :: l ->
      internal s (loadConfiguration loadConfig name c (set_validated l s))
  | step_tick s : internal s (tick s).

(** With them, a provider sends a message. *)
Inductive step (s : server_state) : server_state -> Prop :=
  | step_internal s' : internal s s' -> step s s'
  | step_send m : length (s_incoming s) < chan_capacity -> step s (set_incoming (s_incoming s ++ [m]) s).

Definition initial : server_state := mkServerState 0 [] Listening ∅ [] ∅ [] [].
Definition reachable (s : server_state) : Prop := rtc step initial s.

(** ** One provider's view

    What the server does to the configurations of one provider are the moves of
    a machine of its own. *)
Record view := mkView {
  v_now : nat;
  v_throttle : throttle_state;
  v_accepted : list DynConf;
  v_published : list (DynConf * nat);
}.

Definition accepted_of (name : string) (s : server_state) : list DynConf :=
  (filter (fun x => x.1 = name) (s_accepted s)).*2.
Definition published_of (name : string) (s : server_state) : list (DynConf * nat) :=
  (fun x => (x.1.2, x.2)) <$> filter (fun x => x.1.1 = name) (s_published s).
Definition view_of (name : string) (s : server_state) : view :=
  mkView (s_now s) (throttle_of s name) (accepted_of name s) (published_of name s).

Inductive move : view -> view -> Prop :=
  | move_none v : move v v
  | move_tick n t acc ps : move (mkView n t acc ps) (mkView (S n) t acc ps)
  | move_accept n r p acc ps c :
      move (mkView n (mkThrottle None r p) acc ps) (mkView n (mkThrottle (Some c) r p) (acc ++ [c]) ps)
  | move_push n c r p acc ps :
      move (mkView n (mkThrottle (Some c) r p) acc ps) (mkView n (mkThrottle None (Some c) p) acc ps)
  | move_take n h c acc ps :
      move (mkView n (mkThrottle h (Some c) Idle) acc ps) (mkView n (mkThrottle h None (Publishing c)) acc ps)
  | move_publish n h r c acc ps :
      move (mkView n (mkThrottle h r (Publishing c)) acc ps)
           (mkView n (mkThrottle h r (Sleeping (n + throttle))) acc (ps ++ [(c, n)]))
  | move_wake n h r u acc ps :
      u <= n -> move (mkView n (mkThrottle h r (Sleeping u)) acc ps) (mkView n (mkThrottle h r Idle) acc ps).

Lemma throttle_of_set name name' t s :
  throttle_of (set_throttle name' t s) name = if decide (name = name') then t else throttle_of s name.
Proof. unfold throttle_of. simpl. case_decide; subst; [by rewrite lookup_insert_eq|by rewrite lookup_insert_ne]. Qed.

Lemma view_set_throttle name name' t s :
  view_of name (set_throttle name' t s) =
  if decide (name = name') then mkView (s_now s) t (accepted_of name s) (published_of name s) else view_of name s.
Proof. unfold view_of. rewrite throttle_of_set. by case_decide. Qed.

Lemma view_accept name name' c s :
  view_of name (accept name' c s) =
  mkView (s_now s) (throttle_of s name) (accepted_of name s ++ if decide (name' = name) then [c] else [])
    (published_of name s).
Proof.
  unfold view_of, accepted_of. f_equal. simpl. rewrite filter_app, fmap_app, filter_cons. simpl. by case_decide.
Qed.

Lemma view_publish name name' c s :
  view_of name (publish name' c s) =
  mkView (s_now s) (throttle_of s name) (accepted_of name s)
    (published_of name s ++ if decide (name' = name) then [(c, s_now s)] else []).
Proof.
  unfold view_of, published_of. f_equal. simpl. rewrite filter_app, fmap_app, filter_cons. simpl. by case_decide.
Qed.

Lemma view_load name loadConfig name' c l s :
  view_of name (loadConfiguration loadConfig name' c (set_validated l s)) = view_of name s.
Proof. unfold loadConfiguration. by destruct (loadConfig _). Qed.

(** A step of the server is a move, or nothing, for each provider. *)
Lemma internal_move name s s' : internal s s' -> move (view_of name s) (view_of name s').
Proof.
  destruct 1 as [| | |s name' c _ Hh|s name' c Hh|s name' c Hr Hp|s name' c Hp _|s name' u Hp Hu|s name' c l lc Hv|s];
    try apply move_none.
  - change (view_of name (set_listener ?l ?x)) with (view_of name x). rewrite view_accept.
    change (accepted_of name (set_throttle _ _ s)) with (accepted_of name s).
    change (published_of name (set_throttle _ _ s)) with (published_of name s). rewrite throttle_of_set.
    destruct (decide (name = name')) as [->|]; [rewrite decide_True by done|rewrite decide_False by done].
    + unfold view_of. destruct (throttle_of s name') as [h r p]. simpl in *. subst h. apply move_accept.
    + rewrite app_nil_r. apply move_none.
  - rewrite view_set_throttle. case_decide; [subst|apply move_none]. unfold view_of.
    destruct (throttle_of s name') as [h r p]. simpl in *. subst h. apply move_push.
  - rewrite view_set_throttle. case_decide; [subst|apply move_none]. unfold view_of.
    destruct (throttle_of s name') as [h r p]. simpl in *. subst. apply move_take.
  - rewrite view_publish.
    change (accepted_of name (set_throttle _ _ s)) with (accepted_of name s).
    change (published_of name (set_throttle _ _ s)) with (published_of name s). rewrite throttle_of_set.
    destruct (decide (name = name')) as [->|]; [rewrite decide_True by done|rewrite decide_False by done].
    + unfold view_of. destruct (throttle_of s name') as [h r p]. simpl in *. subst p. apply move_publish.
    + rewrite app_nil_r. apply move_none.
  - rewrite view_set_throttle. case_decide; [subst|apply move_none]. unfold view_of.
    destruct (throttle_of s name') as [h r p]. simpl in *. subst p. by apply move_wake.
  - rewrite view_load. apply move_none.
  - unfold view_of. apply move_tick.
Qed.

Lemma reachable_moves name s : reachable s -> rtc move (mkView 0 (mkThrottle None None Idle) [] []) (view_of name s).
Proof.
  unfold reachable. apply (rtc_ind_r (fun s => rtc move _ (view_of name s)) initial); [apply rtc_refl|].
  intros s1 s2 _ Hs IH. eapply rtc_r; [exact IH|]. destruct Hs as [s2 Hs|m]; [by apply internal_move|apply move_none].
Qed.

(** ** Order *)

Definition in_flight (t : throttle_state) : list DynConf :=
  match pub t with Publishing c => [c] | _ => [] end ++ option_list (ring t) ++ option_list (held t).

(** What is published and on its way is a part of what was accepted, in order,
    and ends with the last accepted. *)
Definition ordered (v : view) : Prop :=
  let l := (v_published v).*1 ++ in_flight (v_throttle v) in
  sublist l (v_accepted v) /\ last l = last (v_accepted v).

Lemma move_ordered v v' : move v v' -> ordered v -> ordered v'.
Proof.
  unfold ordered, in_flight. destruct 1; simpl; intros [Hs Hl]; try done.
  - split; [|by rewrite !app_assoc, !last_snoc]. rewrite app_nil_r in Hs. rewrite !app_assoc in *.
    by apply sublist_app.
  - destruct r as [r|]; simpl in *; [|done]. split.
    + etrans; [|exact Hs]. apply sublist_app; [done|]. apply sublist_app; [done|]. by apply sublist_cons.
    + rewrite <-Hl, !app_assoc, !last_snoc. by rewrite (app_cons [r] [c]) || (change [r; c] with ([r] ++ [c]); rewrite !app_assoc, !last_snoc).
  - rewrite fmap_app. simpl. rewrite <-app_assoc. done.
Qed.

(** ** Spacing *)

(** Publications are [throttle] apart, and the next one waits for as long. *)
Fixpoint spaced (l : list nat) : Prop :=
  match l with
  | t1 :: (t2 :: _) as l' => t1 + throttle <= t2 /\ spaced l'
  | _ => True
  end.

Definition rested (v : view) : Prop :=
  spaced ((v_published v).*2) /\
  forall t, last ((v_published v).*2) = Some t ->
    t + throttle <= match pub (v_throttle v) with Sleeping u => u | _ => v_now v end.

Lemma spaced_snoc l t :
  spaced l -> (forall t', last l = Some t' -> t' + throttle <= t) -> spaced (l ++ [t]).
Proof.
  induction l as [|t1 l IH]; intros Hs Hl; [done|]. destruct l as [|t2 l]; simpl in *.
  - split; [by apply Hl|done].
  - split; [apply Hs|]. apply IH; [apply Hs|]. done.
Qed.

Lemma move_rested v v' : move v v' -> rested v -> rested v'.
Proof.
  unfold rested. destruct 1; simpl; intros [Hs Hl]; split; try done.
  - intros t0 Ht. specialize (Hl _ Ht). destruct (pub t); lia.
  - rewrite fmap_app. simpl. apply spaced_snoc; auto.
  - rewrite fmap_app. simpl. intros t. rewrite last_snoc. intros [= <-]. lia.
  - intros t Ht. specialize (Hl _ Ht). lia.
Qed.

End Server.

(** * Facts: The reload of configurations is ordered, throttled, and can go stale

    The theorems on [Reload]: what the defaults guarantee, that the throttling
    goroutines publish in order, at most one configuration per period, and
    never lose the last one; and the run in which the server ends on a
    configuration its provider had withdrawn. *)

(** ** Defaults *)

#[local] Arguments NewLoadBalancerMethod : simpl never.

Lemma NewLoadBalancerMethod_err lb e :
  snd (NewLoadBalancerMethod lb) = Some e -> fst (NewLoadBalancerMethod lb) = Wrr.
Proof.
  unfold NewLoadBalancerMethod. destruct lb as [lb|]; [|done]. case_bool_decide; [done|]. destruct (list_find _ _) as [[? ?]|]; done.
Qed.

Lemma NewLoadBalancerMethod_method lb lb' :
  lb_Method lb = lb_Method lb' -> NewLoadBalancerMethod (Some lb) = NewLoadBalancerMethod (Some lb').
Proof. unfold NewLoadBalancerMethod. by intros ->. Qed.

(** What a backend is after the defaults: the load balancer is there, has a
    known method, the one meant before, and a sticky one has a cookie. *)
Definition settled (b b' : Backend) : Prop :=
  exists lb, be_LoadBalancer b' = Some lb /\
    NewLoadBalancerMethod (Some lb) = (fst (NewLoadBalancerMethod (be_LoadBalancer b)), None) /\
    (Sticky lb = true -> lb_Stickiness lb <> None) /\
    (forall l st, be_LoadBalancer b = Some l -> lb_Stickiness l = Some st -> lb_Stickiness lb = Some st) /\
    b' = set_LoadBalancer (Some lb) b.

Lemma set_LoadBalancer_id b : set_LoadBalancer (be_LoadBalancer b) b = b.
Proof. by destruct b. Qed.

Lemma configure_backend_settled b : settled b (configure_backend b).
Proof.
  unfold settled, configure_backend.
  destruct (NewLoadBalancerMethod (be_LoadBalancer b)) as [m [e|]] eqn:E; simpl.
  - pose proof (NewLoadBalancerMethod_err (be_LoadBalancer b) e) as Hm. rewrite E in Hm. simpl in Hm.
    rewrite Hm by done. eexists. split_and!; [done|vm_compute; done|done| |done].
    intros l st -> Hst. by rewrite Hst.
  - destruct (be_LoadBalancer b) as [l|] eqn:Hl; [|done].
    assert (b = set_LoadBalancer (Some l) b) as Hb by (by rewrite <-Hl, set_LoadBalancer_id).
    case_bool_decide as Hs; simpl; [destruct (Sticky l) eqn:Hk|].
    + eexists. split_and!; [done|etrans; [by apply NewLoadBalancerMethod_method with (lb' := l)|exact E]|done| |done].
      intros l' st [= <-]. congruence.
    + exists l. rewrite E, Hk. split_and!; try done. by intros l' st [= <-].
    + exists l. rewrite E. split_and!; try done. by intros l' st [= <-].
Qed.

Lemma configure_backend_idem b b' : settled b b' -> configure_backend b' = b'.
Proof.
  intros (lb & Hlb & Hm & Hs & _ & _). unfold configure_backend. rewrite Hlb, Hm. simpl.
  case_bool_decide; [|done]. destruct (Sticky lb) eqn:E; [|done]. by destruct (Hs eq_refl).
Qed.

(** A configuration with frontends leaves [defaultConfigurationValues] with
    every backend settled (a load balancer of a known method, the one meant
    before, its stickiness kept, a sticky one with a cookie), every frontend
    attached to an entry point if there is a default one, and nothing else
    changed; filling in the defaults twice is filling them in once. *)
Theorem defaultConfigurationValues_spec (eps : list string) (c : DynConf) :
  let c' := defaultConfigurationValues eps c in
  defaultConfigurationValues eps c' = c' /\
  d_TLS c' = d_TLS c /\
  match d_Frontends c with
  | None => c' = c
  | Some frontends =>
      (forall bs k b, d_Backends c = Some bs -> bs !! k = Some b ->
        exists bs' b', d_Backends c' = Some bs' /\ bs' !! k = Some b' /\ settled b b') /\
      (forall k f, frontends !! k = Some f ->
        exists fs' f', d_Frontends c' = Some fs' /\ fs' !! k = Some f' /\
          f' = set_EntryPoints (EntryPoints f') f /\
          EntryPoints f' = (if bool_decide (EntryPoints f = []) then eps else EntryPoints f))
  end.
Proof.
  destruct c as [bs [fs|] tls]; simpl; [|done]. unfold defaultConfigurationValues. simpl. split_and!; [|done| |].
  - f_equal.
    + destruct bs as [bs|]; [|done]. simpl. f_equal. unfold configureBackends. rewrite <-map_fmap_compose.
      apply map_fmap_ext. intros k b _. apply configure_backend_idem with b, configure_backend_settled.
    + f_equal. unfold configureFrontends. rewrite <-map_fmap_compose. apply map_fmap_ext. intros k f _.
      unfold compose, configure_frontend. case_bool_decide; simpl; case_bool_decide; done.
  - intros bs0 k b [= ->] Hb. eexists _, _. split; [done|]. unfold configureBackends. rewrite lookup_fmap, Hb.
    split; [done|apply configure_backend_settled].
  - intros k f Hf. eexists _, _. split; [done|]. unfold configureFrontends. rewrite lookup_fmap, Hf. split; [done|].
    unfold configure_frontend. destruct f as [[|ep eps'] ? ? ? ? ? ? ? ? ? ? ? ?]; done.
Qed.

Section Facts.
Context (throttle : nat) (defaultEntryPoints : list string).
Local Abbreviation internal := (internal throttle defaultEntryPoints).
Local Abbreviation reachable := (reachable throttle defaultEntryPoints).

Lemma reachable_invariants name s :
  reachable s -> ordered (view_of name s) /\ rested throttle (view_of name s).
Proof.
  intros Hs. pose proof (reachable_moves throttle defaultEntryPoints name s Hs) as Hm. revert Hm.
  apply (rtc_ind_r (fun v => ordered v /\ rested throttle v)); [done|].
  intros v v' _ Hv [Ho Hr]. split; [by eapply move_ordered|by eapply move_rested].
Qed.

(** C11: whatever the providers send and however the goroutines interleave, what
    is published for a provider is a part of what was accepted from it, in the
    same order and nothing twice; two publications are at least the throttle
    duration apart; and the last accepted configuration is never dropped: it
    is the last published one, or still on its way. *)
Theorem throttle_safe (s : server_state) (name : string) :
  reachable s ->
  let published := (published_of name s).*1 in
  let on_its_way := in_flight (throttle_of s name) in
  sublist (published ++ on_its_way) (accepted_of name s) /\
  last (published ++ on_its_way) = last (accepted_of name s) /\
  spaced throttle (published_of name s).*2.
Proof. intros [[Hs Hl] [Hsp _]]%(reachable_invariants name). done. Qed.

(** ** Catching up *)

(** A run of the server's own goroutines in which nothing new is accepted. *)
Definition run (s s' : server_state) : Prop := rtc internal s s' /\ s_accepted s' = s_accepted s.

#[local] Instance run_refl : Reflexive run. Proof. by split. Qed.
#[local] Instance run_trans : Transitive run.
Proof. intros s1 s2 s3 [H1 E1] [H2 E2]. split; [by etrans|congruence]. Qed.

Lemma run_step s s' : internal s s' -> s_accepted s' = s_accepted s -> run s s'.
Proof. intros. split; [by apply rtc_once|done]. Qed.

Lemma run_drain s : exists s', run s s' /\ s_validated s' = [] /\ s_throttles s' = s_throttles s.
Proof.
  remember (s_validated s) as l eqn:El. revert s El. induction l as [|[name c] l IH]; intros s El; [by exists s|].
  destruct (IH (loadConfiguration (fun _ => false) name c (set_validated l s)) eq_refl) as (s' & Hr & Hv & Ht).
  exists s'. split_and!; [|done|exact Ht]. etrans; [|exact Hr]. by apply run_step; [apply step_load|].
Qed.

Lemma run_push name s :
  exists s', run s s' /\ held (throttle_of s' name) = None.
Proof.
  destruct (held (throttle_of s name)) as [c|] eqn:E; [|by exists s].
  eexists. split; [by eapply run_step; [apply step_push|]|]. by rewrite throttle_of_set, decide_True by done.
Qed.

Lemma run_ticks n s : exists s', run s s' /\ s_now s' = n + s_now s /\ s_throttles s' = s_throttles s.
Proof.
  induction n as [|n (s' & Hr & Hn & Ht)]; [by exists s|]. exists (tick s'). split_and!; [|simpl; lia|done].
  etrans; [exact Hr|]. by apply run_step; [apply step_tick|].
Qed.

Lemma run_wake name s u :
  pub (throttle_of s name) = Sleeping u ->
  exists s', run s s' /\ throttle_of s' name = mkThrottle (held (throttle_of s name)) (ring (throttle_of s name)) Idle.
Proof.
  intros Hp. destruct (run_ticks u s) as (s1 & Hr & Hn & Ht).
  assert (throttle_of s1 name = throttle_of s name) as E by (unfold throttle_of; by rewrite Ht).
  eexists. split; [etrans; [exact Hr|]; eapply run_step; [eapply (step_wake _ _ _ name u)|]|].
  - by rewrite E.
  - lia.
  - done.
  - by rewrite throttle_of_set, decide_True, E.
Qed.

Lemma run_publish name s c :
  pub (throttle_of s name) = Publishing c ->
  exists s' u, run s s' /\ throttle_of s' name = mkThrottle (held (throttle_of s name)) (ring (throttle_of s name)) (Sleeping u).
Proof.
  intros Hp. destruct (run_drain s) as (s1 & Hr & Hv & Ht).
  assert (throttle_of s1 name = throttle_of s name) as E by (unfold throttle_of; by rewrite Ht).
  eexists _, _. split; [etrans; [exact Hr|]; eapply run_step; [apply (step_publish _ _ _ name c)|]|].
  - by rewrite E.
  - rewrite Hv. unfold chan_capacity. simpl. lia.
  - done.
  - change (throttle_of (publish name c ?x) name) with (throttle_of x name). by rewrite throttle_of_set, decide_True, E.
Qed.

Lemma run_idle name s :
  exists s', run s s' /\ throttle_of s' name = mkThrottle (held (throttle_of s name)) (ring (throttle_of s name)) Idle.
Proof.
  destruct (pub (throttle_of s name)) as [|c|u] eqn:E.
  - exists s. split; [done|]. destruct (throttle_of s name). simpl in *. by subst.
  - destruct (run_publish name s c E) as (s1 & u & Hr & Ht).
    destruct (run_wake name s1 u) as (s2 & Hr2 & Ht2); [by rewrite Ht|]. exists s2. split; [by etrans|].
    rewrite Ht2, Ht. done.
  - by eapply run_wake.
Qed.

Lemma run_settle name s : exists s', run s s' /\ in_flight (throttle_of s' name) = [].
Proof.
  destruct (run_push name s) as (s1 & Hr1 & Hh). destruct (run_idle name s1) as (s2 & Hr2 & Ht). rewrite Hh in Ht.
  destruct (ring (throttle_of s1 name)) as [c|] eqn:Er.
  - set (s3 := set_throttle name (mkThrottle (held (throttle_of s2 name)) None (Publishing c)) s2).
    assert (run s2 s3) as Hr3 by (apply run_step; [apply step_take; by rewrite Ht|done]).
    assert (throttle_of s3 name = mkThrottle None None (Publishing c)) as E3.
    { unfold s3. by rewrite throttle_of_set, decide_True, Ht. }
    destruct (run_publish name s3 c) as (s4 & u & Hr4 & Ht4); [by rewrite E3|].
    exists s4. split; [by do 3 (etrans; [eassumption|])|]. unfold in_flight. by rewrite Ht4, E3.
  - exists s2. split; [by etrans|]. unfold in_flight. by rewrite Ht.
Qed.

(** C12: from any reachable state the server's own goroutines, the clock ticking
    and no provider sending, can bring the last configuration accepted from a
    provider through: it is then the last one published, and nothing of that
    provider's is left on the way. *)
Theorem throttle_catches_up (s : server_state) (name : string) :
  reachable s ->
  exists s', rtc internal s s' /\ accepted_of name s' = accepted_of name s /\
             in_flight (throttle_of s' name) = [] /\
             last (published_of name s').*1 = last (accepted_of name s).
Proof.
  intros Hs. destruct (run_settle name s) as (s' & [Hr Ha] & Hf). exists s'.
  assert (reachable s') as Hs' by (unfold reachable; etrans; [exact Hs|]; eapply rtc_subrel; [|exact Hr]; by constructor).
  apply (reachable_invariants name) in Hs' as [[_ Hl] _]. simpl in Hl. rewrite Hf, app_nil_r in Hl.
  assert (accepted_of name s' = accepted_of name s) as Ea by (unfold accepted_of; by rewrite Ha).
  split_and!; try done. by rewrite Hl, Ea.
Qed.

End Facts.

(** ** A stale configuration *)

Definition conf_a : DynConf := mkDynConf (Some {["a" := backend_of ∅]}) None None.
Definition conf_b : DynConf := mkDynConf (Some {["b" := backend_of ∅]}) None None.

Definition send (c : DynConf) (s : server_state) : server_state :=
  set_incoming (s_incoming s ++ [mkMessage "osio" (Some c)]) s.

(** The steps of the run, as functions. *)
Definition decide_step (c : DynConf) (s : server_state) : server_state :=
  set_listener (Handing "osio" c) (set_incoming [] s).
Definition hand_step (c : DynConf) (s : server_state) : server_state :=
  set_listener Listening (accept "osio" c (set_throttle "osio"
    (mkThrottle (Some c) (ring (throttle_of s "osio")) (pub (throttle_of s "osio"))) s)).
Definition push_step (c : DynConf) (s : server_state) : server_state :=
  set_throttle "osio" (mkThrottle None (Some c) (pub (throttle_of s "osio"))) s.
Definition take_step (c : DynConf) (s : server_state) : server_state :=
  set_throttle "osio" (mkThrottle (held (throttle_of s "osio")) None (Publishing c)) s.
Definition publish_step (c : DynConf) (s : server_state) : server_state :=
  publish "osio" c (set_throttle "osio"
    (mkThrottle (held (throttle_of s "osio")) (ring (throttle_of s "osio")) (Sleeping (s_now s + 2))) s).
Definition wake_step (s : server_state) : server_state :=
  set_throttle "osio" (mkThrottle (held (throttle_of s "osio")) (ring (throttle_of s "osio")) Idle) s.
Definition load_step (c : DynConf) (s : server_state) : server_state :=
  loadConfiguration (fun _ => true) "osio" c (set_validated [] s).

Definition first_load : server_state :=
  load_step conf_a (publish_step conf_a (take_step conf_a (push_step conf_a (hand_step conf_a (decide_step conf_a
    (send conf_a initial)))))).
Definition pending : server_state :=
  push_step conf_b (hand_step conf_b (decide_step conf_b (send conf_b first_load))).
Definition stale : server_state :=
  load_step conf_b (publish_step conf_b (take_step conf_b (wake_step (tick (tick (set_incoming [] (send conf_a pending))))))).

Section StaleRun.
Local Abbreviation internal := (internal 2 []).
Local Abbreviation osio s := (throttle_of s "osio").

Lemma sent c s : length (s_incoming s) < chan_capacity -> step 2 [] s (send c s).
Proof. apply step_send. Qed.
Lemma decided c s :
  s_listener s = Listening -> s_incoming s = [mkMessage "osio" (Some c)] ->
  preLoadConfiguration [] (s_current s) "osio" c = Reload c -> internal s (decide_step c s).
Proof. intros. by eapply step_decide. Qed.
Lemma skipped c s :
  s_listener s = Listening -> s_incoming s = [mkMessage "osio" (Some c)] ->
  preLoadConfiguration [] (s_current s) "osio" c = Same -> internal s (set_incoming [] s).
Proof. intros ? ? E. eapply step_skip; [done..|]. intros c'. by rewrite E. Qed.
Lemma handed c s : s_listener s = Handing "osio" c -> held (osio s) = None -> internal s (hand_step c s).
Proof. apply step_hand. Qed.
Lemma pushed c s : held (osio s) = Some c -> internal s (push_step c s).
Proof. apply step_push. Qed.
Lemma taken c s : ring (osio s) = Some c -> pub (osio s) = Idle -> internal s (take_step c s).
Proof. apply step_take. Qed.
Lemma publishes c s :
  pub (osio s) = Publishing c -> length (s_validated s) < chan_capacity -> internal s (publish_step c s).
Proof. apply step_publish. Qed.
Lemma wakes u s : pub (osio s) = Sleeping u -> u <= s_now s -> internal s (wake_step s).
Proof. apply step_wake. Qed.
Lemma loads c s : s_validated s = [("osio", c)] -> internal s (load_step c s).
Proof. apply step_load. Qed.
Lemma ticks s : internal s (tick s).
Proof. apply step_tick. Qed.

End StaleRun.

Ltac side := vm_compute; first [reflexivity | lia].
Ltac last_step rule := eapply rtc_r; [|first [apply step_internal, rule; side | apply rule; side]].

Lemma pending_reachable : reachable 2 [] pending.
Proof.
  unfold pending, first_load, reachable. last_step pushed. last_step handed. last_step decided. last_step sent.
  last_step loads. last_step publishes. last_step taken. last_step pushed. last_step handed.
  last_step decided. last_step sent. apply rtc_refl.
Qed.

Lemma stale_run : rtc (internal 2 []) (send conf_a pending) stale.
Proof.
  unfold stale. last_step loads. last_step publishes. last_step taken. last_step (wakes 2).
  last_step ticks. last_step ticks. last_step (skipped conf_a). apply rtc_refl.
Qed.

(** A configuration sent again while another waits for the throttle is
    compared with the one in force only, and dropped: [conf_a] is in force and
    [conf_b] waits, the provider sends [conf_a], every message is treated and
    nothing is left on the way, and the server ends with [conf_b]. *)
Theorem stale_configuration :
  exists before after, reachable 2 [] before /\ s_current before = {["osio" := conf_a]} /\ s_incoming before = [] /\
    rtc (internal 2 []) (send conf_a before) after /\
    in_flight (throttle_of after "osio") = [] /\ s_incoming after = [] /\ s_validated after = [] /\
    s_listener after = Listening /\ s_current after = {["osio" := conf_b]}.
Proof.
  exists pending, stale. split; [apply pending_reachable|]. split; [by vm_compute|]. split; [by vm_compute|].
  split; [apply stale_run|]. split_and!; by vm_compute.
Qed.

Lemma throttle_safe_witness :
  sublist [conf_a; conf_b] (accepted_of "osio" pending) /\
  last (accepted_of "osio" pending) = Some conf_b /\ spaced 2 (published_of "osio" pending).*2.
Proof.
  destruct (throttle_safe 2 [] pending "osio" pending_reachable) as (Hs & Hl & Hsp).
  split; [exact Hs|]. split; [rewrite <-Hl; vm_compute; reflexivity|exact Hsp].
Defined.

Lemma throttle_catches_up_witness :
  exists s', rtc (internal 2 []) pending s' /\ in_flight (throttle_of s' "osio") = [] /\
    last (published_of "osio" s').*1 = last (accepted_of "osio" pending).
Proof.
  destruct (throttle_catches_up 2 [] pending "osio" pending_reachable) as (s' & Hr & _ & Hf & Hl).
  exists s'. split; [exact Hr|]. split; [exact Hf|exact Hl].
Defined.
