(* ===== verification/Wiring.v ===== *)
(** * [server/server.go]: from a frontend to the handlers of its requests

    The parts of [loadConfig] that are functions of their own: the route of a
    frontend ([getRoute]) and its path handlers ([wireFrontendBackend]), the
    white list, the health check, the number of retries, the timeouts, the
    choice of a certificate, the header rewriter ([header_rewriter.go]).  A
    handler maps a request to what becomes of it. *)
From S2P Require Import Prelude GoStrings GoStringsFacts GoNet GoHttp GoHttpFacts Types Domains OsioClient.
From S2P Require Import Whitelist Rules Middlewares Label.

(** ** Routes *)

Definition set_priority (p : Z) (r : MuxRoute) : MuxRoute := mkMuxRoute (matchers r) (route_queries r) (route_err r) p.

(** A rule that parses to no route is dereferenced. *)
Definition getRoute `{Mux} (rule : string) : M ServerRoute (result unit) :=
  newRoute ← Parse rule;
  match newRoute with
  | Err err => mret (Err err)
  | Ok false => panic nil_dereference
  | Ok true =>
      _ ← modify_state (fun s =>
            set_route (set_priority (route_priority (sr_Route s) + Z.of_nat (String.length rule)) (sr_Route s)) s);
      mret (Ok tt)
  end.

(** ** Path handlers *)

Definition http_handler : Type := Request -> strip_outcome.

(** A middleware in front of a handler. *)
Definition before (middleware : Request -> handled) (handler : http_handler) : http_handler := fun r =>
  match middleware r with CallNext r' => handler r' | h => Handled h end.

Definition before_regex (middleware : Request -> strip_outcome) (handler : http_handler) : http_handler := fun r =>
  match middleware r with Handled (CallNext r') => handler r' | h => h end.

(** The innermost handler is wired first. *)
Definition wireFrontendBackend `{RegexpLib} `{PrefixRouter} (serverRoute : ServerRoute) (handler : http_handler) :
    http_handler :=
  let handler :=
    if nonempty (ReplacePath serverRoute) then before (ReplacePath_ServeHTTP (ReplacePath serverRoute)) handler
    else handler in
  let handler :=
    if nonempty (ReplacePathRegex serverRoute) then
      match split (ReplacePathRegex serverRoute) " " with
      | [regex; replacement] =>
          before (ReplacePathRegex_ServeHTTP (NewReplacePathRegexHandler regex replacement)) handler
      | _ => handler
      end
    else handler in
  let handler :=
    if nonempty (AddPrefix serverRoute) then before (AddPrefix_ServeHTTP (AddPrefix serverRoute)) handler
    else handler in
  let handler :=
    match StripPrefixes serverRoute with
    | [] => handler
    | prefixes => before (StripPrefix_ServeHTTP prefixes) handler
    end in
  match StripPrefixesRegex serverRoute with
  | [] => handler
  | prefixes => before_regex (StripPrefixRegex_ServeHTTP prefixes) handler
  end.

(** ** Options of a backend *)

Definition buildIPWhiteLister (whiteList : option WhiteList) (wlRange : list string) : result (option WhiteIP) :=
  let deprecated :=
    match wlRange with
    | [] => Ok None
    | _ => wl ← NewIPWhiteLister wlRange false; mret (Some wl)
    end in
  match whiteList with
  | Some w =>
      match SourceRange w with
      | [] => deprecated
      | range => wl ← NewIPWhiteLister range (UseXForwardedFor w); mret (Some wl)
      end
  | None => deprecated
  end.

Record HealthOptions := mkHealthOptions { ho_Path : string; ho_Port : Z; ho_Interval : Z }.

(** [hcConfig] is the interval of the global configuration, in nanoseconds. *)
Definition parseHealthCheckOptions `{TimeLib} (hc : option HealthCheck) (hcConfig : option Z) : option HealthOptions :=
  match hc, hcConfig with
  | Some hc, Some hcInterval =>
      if bool_decide (hc_Path hc = "") then None else
      let interval :=
        if nonempty (Interval hc) then
          match ParseDuration (Interval hc) with
          | Err _ => hcInterval
          | Ok intervalOverride => if (intervalOverride <=? 0)%Z then hcInterval else intervalOverride
          end
        else hcInterval in
      Some (mkHealthOptions (hc_Path hc) (hc_Port hc) interval)
  | _, _ => None
  end.

(** [retryAttempts] of [buildRetryMiddleware]. *)
Definition retry_attempts (configured : Z) (countServers : nat) : Z :=
  if (0 <? configured)%Z then configured else Z.of_nat countServers.

Record RespondingTimeouts := mkTimeouts { ReadTimeout : Z; WriteTimeout : Z; IdleTimeout : Z }.
Definition DefaultIdleTimeout : Z := 180 * 1000000000.

Definition buildServerTimeouts (timeouts : option RespondingTimeouts) (legacyIdle : Z) : Z * Z * Z :=
  let '(readTimeout, writeTimeout) :=
    match timeouts with Some t => (ReadTimeout t, WriteTimeout t) | None => (0, 0)%Z end in
  let idleTimeout :=
    if (0 <? legacyIdle)%Z then legacyIdle
    else match timeouts with Some t => IdleTimeout t | None => DefaultIdleTimeout end in
  (readTimeout, writeTimeout, idleTimeout).

Definition sortedFrontendNamesForConfig (configuration : Configuration) : list string :=
  merge_sort String.le (elements (dom (Frontends configuration))).

(** ** Certificates *)

Section Certificates.
Context {Certificate : Type} `{order : MapOrder}.

(** The certificates of an entry point under their comma-separated domains;
    [on_demand] is the listener of ACME. *)
Definition getCertificate (serverName : string) (certs : option (gmap string Certificate))
    (on_demand : option (string -> result (option Certificate))) : result (option Certificate) :=
  let domainToCheck := CanonicalDomain serverName in
  let found :=
    match certs with
    | Some certs =>
        list_find (fun dc => existsb (fun certDomain => MatchDomain domainToCheck certDomain) (split dc.1 ",") = true)
          (range certs)
    | None => None
    end in
  match found with
  | Some (_, (_, cert)) => Ok (Some cert)
  | None => match on_demand with Some listener => listener domainToCheck | None => Ok None end
  end.

End Certificates.

(** ** header_rewriter.go *)

(** [forward.HeaderRewriter] is a parameter: the rewriting that keeps the
    client's forwarding headers, and the one that does not. *)
Record headerRewriter := mkHeaderRewriter {
  secureRewriter : Request -> Request;
  insecureRewriter : Request -> Request;
  rw_insecure : bool;
  rw_ips : WhiteIP;
}.

Definition NewHeaderRewriter (newRewriter : bool -> string -> Request -> Request) (hostname : result string)
    (trustedIPs : list string) (insecure : bool) : result headerRewriter :=
  ips ← NewIP trustedIPs insecure true;
  let hostname := match hostname with Ok h => h | Err _ => "localhost" end in
  mret (mkHeaderRewriter (newRewriter false hostname) (newRewriter true hostname) insecure ips).

Definition Rewrite (h : headerRewriter) (req : Request) : Request :=
  if rw_insecure h then insecureRewriter h req else
  match IsAuthorized (rw_ips h) req with
  | Some _ => secureRewriter h req
  | None => insecureRewriter h req
  end.

(** ** A rule and the path its backend sees *)

Section Facts.
Context `{mux : Mux} {laws : MuxLaws mux} `{RegexpLib} `{PrefixRouter}.

Lemma parseRules_two {S} r1 r2 (onRule : OnRule S) :
  r1 <> "" -> free ";"%char r1 = true -> r2 <> "" -> free ";"%char r2 = true ->
  parseRules (r1 +:+ ";" +:+ r2) onRule = rules_loop [r1; r2] onRule.
Proof.
  intros Hn1 H1 Hn2 H2. unfold parseRules. rewrite bool_decide_eq_false_2 by (by destruct r1).
  change (r1 +:+ ";" +:+ r2) with (r1 +:+ String ";" r2).
  rewrite fields_func_sep by (done || by apply free_not_sep).
  by rewrite (fields_func_one (is_char ";") r2) by (done || by apply free_not_sep).
Qed.

Lemma sort_by_size_one (p : string) : sort_by_size [p] = [p].
Proof using laws. apply Permutation_singleton_r,  sort_by_size_perm. Qed.

(** The state a function that returned a route leaves. *)
Lemma call_rule_ok name (f : RuleFn) args s b s' :
  f args s = (Ret (Some tt), s') -> call_rule name f args (s, b) = (Ret (route_err (sr_Route s')), (s', true)).
Proof. intros E. unfold call_rule, mbind, M_bind, zoom. cbn [fst snd]. by rewrite E. Qed.

Lemma AddPrefix_path q r :
  exists r', AddPrefix_ServeHTTP q r = CallNext r' /\ req_path r' = q +:+ req_path r /\ RequestURI r' = request_uri (ReqURL r').
Proof. eexists. split; [done|]. unfold req_path, sync_RequestURI. simpl. by case_bool_decide. Qed.

Lemma StripPrefix_path p rest r :
  req_path r = p +:+ rest ->
  exists r', StripPrefix_ServeHTTP [p] r = CallNext r' /\ req_path r' = "/" +:+ trim_prefix rest "/".
Proof.
  intros E. cbn [StripPrefix_ServeHTTP]. rewrite E, has_prefix_app. eexists. split; [done|].
  unfold req_path in *. simpl. unfold strip_url, stripPrefix, ensureLeadingSlash. rewrite E, trim_prefix_app.
  by case_bool_decide.
Qed.

(** A strip rule and an add rule. *)
Definition strip_add_route (p q : string) : ServerRoute :=
  mkServerRoute (addMatcher (MSubrouter [buildPath [] p]) new_route) [p] [] q "" "".

Lemma Parse_strip_add p q :
  rule_arg p = true -> rule_arg q = true ->
  Parse ("PathPrefixStrip:" +:+ p +:+ ";" +:+ "AddPrefix:" +:+ q) new_server_route = (Ret (Ok true), strip_add_route p q).
Proof using laws.
  intros Hp Hq. pose proof Hp as (Hps & _)%rule_arg_inv. pose proof Hq as (Hqs & _)%rule_arg_inv. unfold Parse.
  change ("PathPrefixStrip:" +:+ p +:+ ";" +:+ "AddPrefix:" +:+ q)
    with (("PathPrefixStrip:" +:+ p) +:+ ";" +:+ ("AddPrefix:" +:+ q)).
  rewrite parseRules_two; [|done|by rewrite (free_app ";" "PathPrefixStrip:" p), Hps|done|by rewrite (free_app ";" "AddPrefix:" q), Hqs].
  cbn [rules_loop]. rewrite (parse_rule_one "PathPrefixStrip" pathPrefixStrip p) by done.
  rewrite (parse_rule_one "AddPrefix" addPrefix q) by done.
  unfold mbind at 1, M_bind at 1. erewrite call_rule_ok; [|reflexivity]. cbn [sr_Route set_route addMatcher route_err new_route new_server_route set_StripPrefixes].
  cbn. rewrite sort_by_size_one. done.
Qed.

(** The backend of a frontend with the rule [PathPrefixStrip:p;AddPrefix:q]
    sees a request on the path [p] followed by [rest] as one on [q] followed by
    [rest] made absolute, its request URI in step; a request on another path is
    answered with 404 by the handlers alone. *)
Theorem strip_add_rewrites (p q : string) (handler : http_handler) (r : Request) :
  rule_arg p = true -> rule_arg q = true ->
  exists route, Parse ("PathPrefixStrip:" +:+ p +:+ ";" +:+ "AddPrefix:" +:+ q) new_server_route = (Ret (Ok true), route) /\
    match strip_prefix p (req_path r) with
    | Some rest =>
        exists r', wireFrontendBackend route handler r = handler r' /\
          req_path r' = q +:+ "/" +:+ trim_prefix rest "/" /\ RequestURI r' = request_uri (ReqURL r')
    | None => wireFrontendBackend route handler r = Handled NotFound
    end.
Proof using laws.
  intros Hp Hq. exists (strip_add_route p q). split; [by apply Parse_strip_add|].
  pose proof Hq as (_ & _ & _ & Hne & _)%rule_arg_inv. unfold wireFrontendBackend, strip_add_route.
  cbn [ReplacePath ReplacePathRegex AddPrefix StripPrefixes StripPrefixesRegex]. change (nonempty "") with false.
  replace (nonempty q) with true by (unfold nonempty; by rewrite bool_decide_eq_false_2). unfold before.
  destruct (strip_prefix p (req_path r)) as [rest|] eqn:E.
  - apply strip_prefix_Some in E. destruct (StripPrefix_path p rest r E) as (r1 & -> & H1).
    destruct (AddPrefix_path q r1) as (r2 & -> & H2 & HU). exists r2. by rewrite H2, H1.
  - cbn [StripPrefix_ServeHTTP]. unfold has_prefix. by rewrite E.
Qed.

End Facts.

Definition sample_regexps : RegexpLib := fun s => Err s.
Definition sample_prefixes : PrefixRouter := fun _ _ => None.

Lemma strip_add_rewrites_witness :
  exists route r', Parse (mux := sample_mux) "PathPrefixStrip:/api;AddPrefix:/base" new_server_route = (Ret (Ok true), route) /\
    wireFrontendBackend (H := sample_regexps) (H0 := sample_prefixes) route (fun r => Handled (CallNext r)) api_v1_request =
      Handled (CallNext r') /\
    req_path r' = "/base/v1/pods".
Proof.
  destruct (strip_add_rewrites (mux := sample_mux) (H := sample_regexps) (H0 := sample_prefixes) "/api" "/base"
    (fun r => Handled (CallNext r)) api_v1_request eq_refl eq_refl) as (route & Hp & r' & Hw & Hpath & _).
  exists route, r'. split; [exact Hp|]. split; [exact Hw|exact Hpath].
Defined.
