(* ===== verification/Redirect.v ===== *)
(** * [middlewares/redirect/redirect.go]: redirecting to an entry point or a URL

    The handler matches the URL of the request, rewrites it, runs the result
    as a text template and answers with a redirection unless the rewriting
    changed nothing.  Compiled expressions, templates and URL parsing are
    parameters; the expression of an entry-point redirect is written out. *)
From S2P Require Import Prelude GoStrings GoStringsFacts GoNet GoHttp GoHttpFacts Types OsioClient Rules Middlewares Retry EntryPoints.

(** [template.New("t").Parse(in)] and its execution on the request. *)
Class TemplateLib := template_apply : string -> Request -> result string.
(** [url.Parse] and [URL.String]. *)
Class UrlLib := { url_Parse : string -> result GoHttp.URL; url_String : GoHttp.URL -> string }.

(** ** Compiled expressions of the file *)

Fixpoint span (P : ascii -> bool) (s : string) : string * string :=
  match s with
  | "" => ("", "")
  | String c s' => if P c then let '(a, b) := span P s' in (String c a, b) else ("", s)
  end.

(** [(:\d+)], leftmost. *)
Fixpoint find_port (s : string) : option string :=
  match s with
  | "" => None
  | String c s' =>
      let digits := (span is_digit s').1 in
      if Ascii.eqb c ":" && nonempty digits then Some (String c digits) else find_port s'
  end.

Definition defaultRedirectRegex : string := "^(?:https?:\/\/)?([\w\._-]+)(?::\d+)?(.*)$".

(** [\w._-] *)
Definition host_char (c : ascii) : bool :=
  is_alnum c || Ascii.eqb c "_" || Ascii.eqb c "." || Ascii.eqb c "-".

Definition strip_port (s : string) : string :=
  match s with
  | String ":" s' => let '(digits, rest) := span is_digit s' in if nonempty digits then rest else s
  | _ => s
  end.

Definition match_host (s : string) : option (string * string) :=
  let '(host, rest) := span host_char s in
  if nonempty host && free "010"%char rest then Some (host, strip_port rest) else None.

Definition strip_scheme (s : string) : option string :=
  match strip_prefix "https://" s with Some s' => Some s' | None => strip_prefix "http://" s end.

(** The two groups of [defaultRedirectRegex]: the scheme is optional, and
    tried first. *)
Definition default_match (s : string) : option (string * string) :=
  match strip_scheme s with
  | Some s' => match match_host s' with Some m => Some m | None => match_host s end
  | None => match_host s
  end.

(** The references [${1}] and [${2}] of a replacement. *)
Fixpoint expand (g1 g2 : string) (t : string) : string :=
  match t with
  | String "$" (String "{" (String "1" (String "}" t'))) => g1 +:+ expand g1 g2 t'
  | String "$" (String "{" (String "2" (String "}" t'))) => g2 +:+ expand g1 g2 t'
  | String c t' => String c (expand g1 g2 t')
  | "" => ""
  end.

(** Anchored at both ends, the expression matches at most once. *)
Definition default_regexp : Regexp := mkRegexp
  (fun s => match default_match s with Some _ => true | None => false end)
  (fun s t => match default_match s with Some (g1, g2) => expand g1 g2 t | None => s end).

(** ** The handlers *)

Record redirect_handler := mkRedirectHandler {
  rh_regexp : Regexp;
  rh_replacement : string;
  rh_permanent : bool;
}.

Section Redirect.
Context `{RegexpLib} `{TemplateLib} `{UrlLib}.

Definition NewRegexHandler (exp replacement : string) (permanent : bool) : result redirect_handler :=
  re ← regexp_Compile exp; mret (mkRedirectHandler re replacement permanent).

Definition NewEntryPointHandler (dstEntryPoint : EntryPoint) (permanent : bool) : result redirect_handler :=
  match find_port (ep_Address dstEntryPoint) with
  | None => Err ("bad Address format " +:+ ep_Address dstEntryPoint)
  | Some port =>
      let protocol := match ep_TLS dstEntryPoint with Some _ => "https" | None => "http" end in
      NewRegexHandler defaultRedirectRegex (protocol +:+ "://${1}" +:+ port +:+ "${2}") permanent
  end.

Definition isXForwardedHTTPS (request : Request) : bool :=
  let xForwardedProto := req_header request "X-Forwarded-Proto" in
  nonempty xForwardedProto && bool_decide (xForwardedProto = "https").

Definition rawURL (request : Request) : string :=
  let scheme := if GoHttp.TLS request || isXForwardedHTTPS request then "https" else "http" in
  scheme +:+ "://" +:+ Host request +:+ RequestURI request.

Definition StatusFound : Z := 302.
Definition StatusMovedPermanently : Z := 301.

Definition move (location : GoHttp.URL) (permanent : bool) : handled :=
  GoHttp.Redirect (url_String location) (if permanent then StatusMovedPermanently else StatusFound).

(** The error handler answers a template's error with 500; a [url.Error] is a
    network error to it. *)
Definition Redirect_ServeHTTP (h : redirect_handler) (req : Request) : handled :=
  let oldURL := rawURL req in
  if negb (MatchString (rh_regexp h) oldURL) then CallNext req else
  let newURL := ReplaceAllString (rh_regexp h) oldURL (rh_replacement h) in
  match template_apply newURL req with
  | Err _ => WriteHeader StatusInternalServerError
  | Ok rewrittenURL =>
      match url_Parse rewrittenURL with
      | Err _ => WriteHeader StatusBadGateway
      | Ok parsedURL =>
          if negb (bool_decide (newURL = oldURL)) then move parsedURL (rh_permanent h)
          else CallNext (sync_RequestURI (set_URL parsedURL req))
      end
  end.

(** ** Facts *)

Lemma span_app P a b :
  str_forall P a = true -> match b with String c _ => P c = false | "" => True end -> span P (a +:+ b) = (a, b).
Proof.
  intros Ha Hb. induction a as [|c a IH]; simpl in *.
  - change ("" +:+ b) with b. destruct b as [|c b]; [done|]. simpl. by rewrite Hb.
  - apply andb_true_iff in Ha as [Hc Ha]. rewrite Hc, IH by done. done.
Qed.

Lemma expand_plain g1 g2 a t : free "$"%char a = true -> expand g1 g2 (a +:+ t) = a +:+ expand g1 g2 t.
Proof.
  induction a as [|c a IH]; intros Ha; [done|]. rewrite free_cons in Ha. apply andb_true_iff in Ha as [Hc Ha].
  rewrite !app_cons_str. specialize (IH Ha).
  assert (c <> "$"%char) as Hne by (intros ->; done).
  transitivity (String c (expand g1 g2 (a +:+ t))); [|by rewrite IH].
  clear -Hne. destruct c as [[] [] [] [] [] [] [] []]; try done.
Qed.

(** What follows the host of a URL: a port, then the request URI. *)
Definition port_text (port : string) : bool := bool_decide (port = "") ||
  match port with String ":" digits => nonempty digits && str_forall is_digit digits | _ => false end.

Lemma strip_port_uri port path :
  port_text port = true -> strip_port (port +:+ String "/" path) = String "/" path.
Proof.
  unfold port_text. case_bool_decide as Hp; [by subst|]. simpl.
  destruct port as [|c digits]; [done|]. rewrite app_cons_str.
  destruct (ascii_dec c ":") as [->|Hne].
  - intros [Hn Hd]%andb_true_iff. cbn [strip_port]. rewrite span_app by done. by rewrite Hn.
  - destruct c as [[] [] [] [] [] [] [] []]; done.
Qed.

Lemma match_host_uri h port path :
  nonempty h = true -> str_forall host_char h = true -> port_text port = true -> free "010"%char path = true ->
  match_host (h +:+ port +:+ String "/" path) = Some (h, String "/" path).
Proof.
  intros Hn Hh Hp Hf. unfold match_host. rewrite span_app; [|done|].
  - rewrite Hn, strip_port_uri by done. rewrite free_app, free_cons, Hf. simpl.
    assert (free "010"%char port = true) as ->; [|done].
    revert Hp. unfold port_text. case_bool_decide; [by subst|]. simpl. destruct port as [|c digits]; [done|].
    destruct (ascii_dec c ":") as [->|Hne]; [|by destruct c as [[] [] [] [] [] [] [] []]].
    intros [_ Hd]%andb_true_iff. rewrite free_cons. simpl. eapply str_forall_impl; [|exact Hd].
    intros x Hx. destruct x as [[] [] [] [] [] [] [] []]; done.
  - revert Hp. unfold port_text. case_bool_decide; [by subst|]. simpl. destruct port as [|c digits]; [done|].
    rewrite app_cons_str. destruct (ascii_dec c ":") as [->|Hne]; [done|]. by destruct c as [[] [] [] [] [] [] [] []].
Qed.

Lemma span_forall P s : str_forall P (span P s).1 = true.
Proof.
  induction s as [|c s IH]; [done|]. simpl. destruct (P c) eqn:E; [|done].
  destruct (span P s) as [a b]. simpl in *. by rewrite E, IH.
Qed.

Lemma find_port_digits s port : find_port s = Some port -> exists digits, port = String ":" digits /\ str_forall is_digit digits = true.
Proof.
  induction s as [|c s IH]; simpl; [done|]. destruct (Ascii.eqb c ":" && _) eqn:E; [|done].
  apply andb_true_iff in E as [->%Ascii.eqb_eq _]. intros [= <-]. eexists. split; [done|apply span_forall].
Qed.

Lemma digits_free c s : is_digit c = false -> str_forall is_digit s = true -> free c s = true.
Proof.
  intros Hc Hs. eapply str_forall_impl; [|exact Hs]. intros x Hx. apply negb_true_iff, Ascii.eqb_neq. congruence.
Qed.

Lemma rawURL_match req h port path :
  Host req = h +:+ port -> nonempty h = true -> str_forall host_char h = true -> port_text port = true ->
  RequestURI req = String "/" path -> free "010"%char path = true ->
  default_match (rawURL req) = Some (h, String "/" path).
Proof.
  intros HH Hn Hh Hp HU Hf. unfold rawURL. rewrite HH, HU, app_assoc_str.
  pose proof (match_host_uri h port path Hn Hh Hp Hf) as Hm.
  set (X := h +:+ port +:+ String "/" path) in *. unfold default_match, strip_scheme.
  destruct (GoHttp.TLS req || isXForwardedHTTPS req).
  - change ("https" +:+ "://" +:+ X) with ("https://" +:+ X). by rewrite strip_prefix_app, Hm.
  - change (strip_prefix "https://" ("http" +:+ "://" +:+ X)) with (@None string).
    change ("http" +:+ "://" +:+ X) with ("http://" +:+ X). by rewrite strip_prefix_app, Hm.
Qed.

Lemma host_free c s : host_char c = false -> str_forall host_char s = true -> free c s = true.
Proof.
  intros Hc Hs. eapply str_forall_impl; [|exact Hs]. intros x Hx. apply negb_true_iff, Ascii.eqb_neq. congruence.
Qed.

(** The address an entry-point redirection points to. *)
Definition redirect_target (dst : EntryPoint) (host newport uri : string) : string :=
  (match ep_TLS dst with Some _ => "https" | None => "http" end) +:+ "://" +:+ host +:+ newport +:+ uri.

(** A redirection to an entry point keeps the host and the request URI of
    the request, takes the scheme from the entry point's TLS and the port from
    its address, and answers 301 or 302; a request that is already there is
    passed on, so that the redirection does not loop. *)
Theorem entry_point_redirect dst permanent req h port path newport u :
  regexp_Compile defaultRedirectRegex = Ok default_regexp ->
  (forall s r, free "{"%char s = true -> template_apply s r = Ok s) ->
  find_port (ep_Address dst) = Some newport ->
  Host req = h +:+ port -> nonempty h = true -> str_forall host_char h = true -> port_text port = true ->
  RequestURI req = String "/" path -> free "010"%char path = true -> free "{"%char path = true ->
  url_Parse (redirect_target dst h newport (RequestURI req)) = Ok u ->
  exists rh, NewEntryPointHandler dst permanent = Ok rh /\
    Redirect_ServeHTTP rh req =
    if bool_decide (redirect_target dst h newport (RequestURI req) = rawURL req)
    then CallNext (sync_RequestURI (set_URL u req))
    else GoHttp.Redirect (url_String u) (if permanent then 301 else 302)%Z.
Proof.
  intros Hre Htpl Hport HH Hn Hh Hp HU Hf Hb Hu. unfold NewEntryPointHandler, NewRegexHandler. rewrite Hport, Hre.
  eexists. split; [done|]. apply find_port_digits in Hport as (digits & -> & Hd).
  pose proof (rawURL_match req h port path HH Hn Hh Hp HU Hf) as Hm.
  unfold Redirect_ServeHTTP. cbn [rh_regexp rh_replacement rh_permanent default_regexp MatchString ReplaceAllString].
  rewrite Hm. cbn [negb].
  set (protocol := match ep_TLS dst with Some _ => "https" | None => "http" end).
  assert (expand h (String "/" path) (protocol +:+ "://${1}" +:+ String ":" digits +:+ "${2}") =
          redirect_target dst h (String ":" digits) (RequestURI req)) as E.
  { unfold redirect_target. fold protocol. rewrite HU.
    rewrite expand_plain by (unfold protocol; by destruct (ep_TLS dst)). f_equal.
    change ("://${1}" +:+ ?t) with ("://" +:+ ("${1}" +:+ t)). rewrite expand_plain by done. f_equal.
    change (expand h (String "/" path) ("${1}" +:+ ?t)) with (h +:+ expand h (String "/" path) t). f_equal.
    rewrite expand_plain by (rewrite free_cons, digits_free; done). f_equal.
    change (expand h (String "/" path) "${2}") with (String "/" path +:+ ""). by rewrite app_nil_r_str. }
  rewrite E, Htpl, Hu.
  - case_bool_decide; done.
  - unfold redirect_target. fold protocol. rewrite HU, !free_app, !free_cons.
    rewrite (host_free "{" h), (digits_free "{" digits), Hb by done. unfold protocol. by destruct (ep_TLS dst).
Qed.

End Redirect.

Definition sample_regexp_lib : RegexpLib := fun s =>
  if bool_decide (s = defaultRedirectRegex) then Ok default_regexp else Err s.
Definition sample_templates : TemplateLib := fun s _ => Ok s.
Definition sample_urls : UrlLib := {|
  url_Parse s := Ok (mkURL "" s "" "" "" false "");
  url_String u := Opaque u;
|}.
Definition https_entry : EntryPoint :=
  mkEntryPoint ":8443" (Some (new_tls [])) None None [] None false None None.

Lemma entry_point_redirect_witness :
  exists rh, NewEntryPointHandler (H := sample_regexp_lib) https_entry true = Ok rh /\
    Redirect_ServeHTTP (H0 := sample_templates) (H1 := sample_urls) rh
      (mkRequest "GET" (mkURL "" "" "" "/a" "" false "") ∅ "proxy.io:80" "/a?b=c" "1.2.3.4:5" false) =
    GoHttp.Redirect "https://proxy.io:8443/a?b=c" 301.
Proof.
  destruct (entry_point_redirect (H := sample_regexp_lib) (H0 := sample_templates) (H1 := sample_urls) https_entry true
    (mkRequest "GET" (mkURL "" "" "" "/a" "" false "") ∅ "proxy.io:80" "/a?b=c" "1.2.3.4:5" false)
    "proxy.io" ":80" "a?b=c" ":8443" (mkURL "" "https://proxy.io:8443/a?b=c" "" "" "" false "")
    eq_refl (fun s _ _ => eq_refl) eq_refl eq_refl eq_refl eq_refl eq_refl eq_refl eq_refl eq_refl eq_refl)
    as (rh & H1 & H2).
  exists rh. split; [exact H1|]. exact H2.
Defined.
