(* ===== verification/Pool.v ===== *)
(** * [safe/routine.go]: the pool of goroutines

    A pool starts goroutines, each with a stop channel of its own ([Go]) or
    with the pool's context ([GoCtx]), and [Stop] asks them all to end and waits
    for them on a wait group, holding the pool's lock all the while.  The state
    is the pool and what its goroutines are doing; the step relation interleaves
    the goroutines with the calls made from outside. *)
From S2P Require Import Prelude.

(** A stop channel has room for one value. *)
Inductive chan := Empty | Full | Closed.

(** A goroutine of the pool: running its function, waiting for the pool's lock
    inside a call of [Go], returned, or ended by a panic, which [Go] recovers
    from and [waitGroup.Done] is not called after. *)
Inductive status := Running | AtGo | Returned | Panicked.

#[export] Instance chan_eq_dec : EqDecision chan. Proof. solve_decision. Defined.
#[export] Instance status_eq_dec : EqDecision status. Proof. solve_decision. Defined.

(** [th_stop] is the index of the stop channel the goroutine was given, none for
    one that watches the context. *)
Record thread := mkThread { th_stop : option nat; th_status : status }.

(** Who holds the lock between two steps: nobody, or [Stop], which has sent to
    the first channels, or waits. *)
Inductive holder := Free | Sending (sent : nat) | Waiting.

(** [p_stops] counts the calls of [Stop] that returned, [p_failed] those that
    ended in a panic. *)
Record pool := mkPool {
  p_chans : list chan;
  p_ctxs : nat;
  p_canceled : bool;
  p_threads : list thread;
  p_wait : nat;
  p_lock : holder;
  p_stops : nat;
  p_failed : nat;
}.

Definition NewPool : pool := mkPool [] 0 false [] 0 Free 0 0.

(** [AddGoCtx], [GoCtx] and [Go], under the lock. *)
Definition AddGoCtx (p : pool) : pool :=
  mkPool (p_chans p) (S (p_ctxs p)) (p_canceled p) (p_threads p) (p_wait p) (p_lock p) (p_stops p) (p_failed p).
Definition GoCtx (p : pool) : pool :=
  mkPool (p_chans p) (S (p_ctxs p)) (p_canceled p) (p_threads p ++ [mkThread None Running]) (S (p_wait p)) (p_lock p)
    (p_stops p) (p_failed p).
Definition Go (p : pool) : pool :=
  mkPool (p_chans p ++ [Empty]) (p_ctxs p) (p_canceled p)
    (p_threads p ++ [mkThread (Some (length (p_chans p))) Running]) (S (p_wait p)) (p_lock p) (p_stops p) (p_failed p).

(** The goroutines of [Start]: their functions read the variable of the loop
    when they run, and find its value of then, their own index or a later one. *)
Definition late_indices (n : nat) (js : list nat) : Prop :=
  Forall2 (fun i j => i <= j < n) (seq 0 n) js.
Definition Start (js : list nat) (p : pool) : pool :=
  mkPool (replicate (length (p_chans p)) Empty) (p_ctxs p) false
    (p_threads p ++ map (fun j => mkThread (Some j) Running) js ++ replicate (p_ctxs p) (mkThread None Running))
    (p_wait p + length js + p_ctxs p) (p_lock p) (p_stops p) (p_failed p).

Definition set_lock (h : holder) (p : pool) : pool :=
  mkPool (p_chans p) (p_ctxs p) (p_canceled p) (p_threads p) (p_wait p) h (p_stops p) (p_failed p).
Definition set_chan (j : nat) (c : chan) (p : pool) : pool :=
  mkPool (<[j := c]> (p_chans p)) (p_ctxs p) (p_canceled p) (p_threads p) (p_wait p) (p_lock p) (p_stops p) (p_failed p).
Definition set_thread (i : nat) (t : thread) (p : pool) : pool :=
  mkPool (p_chans p) (p_ctxs p) (p_canceled p) (<[i := t]> (p_threads p)) (p_wait p) (p_lock p) (p_stops p) (p_failed p).
Definition done (p : pool) : pool :=
  mkPool (p_chans p) (p_ctxs p) (p_canceled p) (p_threads p) (p_wait p - 1) (p_lock p) (p_stops p) (p_failed p).

(** [Stop] cancels the context once it has the lock, panics when it sends on a
    closed channel, closes the channels at the end, and unlocks either way. *)
Definition stop_begin (p : pool) : pool :=
  mkPool (p_chans p) (p_ctxs p) true (p_threads p) (p_wait p) (Sending 0) (p_stops p) (p_failed p).
Definition stop_fail (p : pool) : pool :=
  mkPool (p_chans p) (p_ctxs p) (p_canceled p) (p_threads p) (p_wait p) Free (p_stops p) (S (p_failed p)).
Definition stop_end (p : pool) : pool :=
  mkPool (replicate (length (p_chans p)) Closed) (p_ctxs p) (p_canceled p) (p_threads p) (p_wait p) Free
    (S (p_stops p)) (p_failed p).

(** The steps of [Stop] and of the goroutines that obey it are [Forced]; the
    others are made when a caller or a goroutine chooses to. *)
Inductive origin := Forced | Chosen.

Inductive step : origin -> pool -> pool -> Prop :=
  | step_add p : p_lock p = Free -> step Chosen p (AddGoCtx p)
  | step_go_ctx p : p_lock p = Free -> step Chosen p (GoCtx p)
  | step_go p : p_lock p = Free -> step Chosen p (Go p)
  | step_call p i c :
      p_threads p !! i = Some (mkThread c Running) -> step Chosen p (set_thread i (mkThread c AtGo) p)
  | step_called p i c :
      p_lock p = Free -> p_threads p !! i = Some (mkThread c AtGo) ->
      step Chosen p (Go (set_thread i (mkThread c Running) p))
  | step_stopped p i j :
      p_threads p !! i = Some (mkThread (Some j) Running) -> p_chans p !! j = Some Full ->
      step Forced p (done (set_thread i (mkThread (Some j) Returned) (set_chan j Empty p)))
  | step_canceled p i :
      p_threads p !! i = Some (mkThread None Running) -> p_canceled p = true ->
      step Forced p (done (set_thread i (mkThread None Returned) p))
  | step_return p i c :
      p_threads p !! i = Some (mkThread c Running) -> step Chosen p (done (set_thread i (mkThread c Returned) p))
  | step_panic p i c :
      p_threads p !! i = Some (mkThread c Running) -> step Chosen p (set_thread i (mkThread c Panicked) p)
  | step_stop p : p_lock p = Free -> step Chosen p (stop_begin p)
  | step_send p k :
      p_lock p = Sending k -> p_chans p !! k = Some Empty -> step Forced p (set_lock (Sending (S k)) (set_chan k Full p))
  | step_send_closed p k :
      p_lock p = Sending k -> p_chans p !! k = Some Closed -> step Forced p (stop_fail p)
  | step_wait p : p_lock p = Sending (length (p_chans p)) -> step Forced p (set_lock Waiting p)
  | step_stop_end p : p_lock p = Waiting -> p_wait p = 0 -> step Forced p (stop_end p).

(** With the restarts of a stopped pool. *)
Inductive step_start (p : pool) : pool -> Prop :=
  | start_step o p' : step o p p' -> step_start p p'
  | start_start js : p_lock p = Free -> late_indices (length (p_chans p)) js -> step_start p (Start js p).

Definition reachable (p : pool) : Prop := rtc step_start NewPool p.

(** ** The wait group counts the goroutines that have not returned *)

Definition pending (t : thread) : nat := match th_status t with Returned => 0 | _ => 1 end.
Fixpoint unreturned (l : list thread) : nat := match l with [] => 0 | t :: l' => pending t + unreturned l' end.

Lemma unreturned_app l l' : unreturned (l ++ l') = unreturned l + unreturned l'.
Proof. induction l; simpl; lia. Qed.

Lemma unreturned_insert l i t t' :
  l !! i = Some t -> unreturned (<[i := t']> l) + pending t = unreturned l + pending t'.
Proof.
  revert i. induction l as [|a l IH]; intros [|i] Hi; simpl in *; [done|done| |].
  - injection Hi as ->. lia.
  - specialize (IH i Hi). lia.
Qed.

Lemma unreturned_running (f : nat -> option nat) js : unreturned (map (fun j => mkThread (f j) Running) js) = length js.
Proof. induction js as [|j js IH]; simpl; [done|]. by rewrite IH. Qed.

Lemma unreturned_replicate n c : unreturned (replicate n (mkThread c Running)) = n.
Proof. induction n as [|n IH]; simpl; [done|]. by rewrite IH. Qed.

Lemma unreturned_pos l i t : l !! i = Some t -> th_status t <> Returned -> 0 < unreturned l.
Proof.
  intros Hi Ht. pose proof (unreturned_insert l i t (mkThread None Returned) Hi) as E.
  unfold pending in E. simpl in E. destruct (th_status t); [lia..|done|lia].
Qed.

Lemma unreturned_zero l : unreturned l = 0 -> Forall (fun t => th_status t = Returned) l.
Proof.
  intros H. apply Forall_lookup. intros i t Hi. destruct (decide (th_status t = Returned)); [done|].
  pose proof (unreturned_pos _ _ _ Hi n). lia.
Qed.

Definition counted (p : pool) : Prop := p_wait p = unreturned (p_threads p).

Ltac count :=
  match goal with
  | H : ?l !! ?i = Some ?t |- context [<[?i := ?t']> ?l] =>
      pose proof (unreturned_insert l i t t' H) as E; unfold pending in E; simpl in E
  end.

Lemma step_counted o p p' : step o p p' -> counted p -> counted p'.
Proof.
  unfold counted. destruct 1; simpl; intros Hc; try done; try count; rewrite ?unreturned_app;
    change (unreturned [mkThread ?c Running]) with 1; lia.
Qed.

Lemma start_counted p p' : step_start p p' -> counted p -> counted p'.
Proof.
  intros [o p'' Hs|js _ _] Hc; [by eapply step_counted|]. unfold counted in *. simpl.
  rewrite !unreturned_app, (unreturned_running Some), unreturned_replicate. lia.
Qed.

Lemma reachable_counted p : reachable p -> counted p.
Proof.
  unfold reachable. apply (rtc_ind_r counted NewPool); [done|]. intros p1 p2 _ Hs. by apply start_counted.
Qed.

(** C30: [Stop] waits: when a call of it returns, every goroutine the pool ever
    started has returned, those started again by [Start] included. *)
Theorem stop_waits p p' :
  reachable p -> step_start p p' -> p_stops p' <> p_stops p ->
  Forall (fun t => th_status t = Returned) (p_threads p').
Proof.
  intros Hr%reachable_counted Hs. destruct Hs as [o p' Hs|js _ _]; [|done].
  destruct Hs; simpl; intros Hne; try done. apply unreturned_zero. by rewrite <-Hr.
Qed.

(** ** What makes [Stop] hang *)

Definition some_thread (st : status) (p : pool) : Prop := exists i c, p_threads p !! i = Some (mkThread c st).

Lemma insert_keeps {A} (l : list A) i x y z : l !! i = Some x -> z <> x ->
  (exists j, l !! j = Some z) -> exists j, <[i := y]> l !! j = Some z.
Proof.
  intros Hi Hx [j Hj]. exists j. rewrite list_lookup_insert_ne; [done|]. intros ->. by simplify_eq.
Qed.

(** A goroutine that panicked stays so; one that waits for the lock of a pool
    that is not free does too. *)
Lemma step_keeps st p p' :
  step_start p p' -> (st = Panicked \/ st = AtGo /\ p_lock p <> Free) -> some_thread st p -> some_thread st p'.
Proof.
  unfold some_thread. intros Hs Hst (j & c & Hj). cut (exists j', p_threads p' !! j' = Some (mkThread c st)); [naive_solver|].
  destruct Hs as [o p' Hs|js Hl _]; [destruct Hs|]; simpl; try (by eauto);
    try (exists j; rewrite lookup_app_l by (by eapply lookup_lt_Some); exact Hj);
    try (eapply insert_keeps; [eassumption| |by eauto]; naive_solver).
  destruct Hst as [->|[-> ?]]; [|done].
  destruct (insert_keeps (p_threads p) i (mkThread c0 AtGo) (mkThread c0 Running) (mkThread c Panicked)) as [j' Hj'];
    [done|done|by eauto|].
  exists j'. rewrite lookup_app_l by (by eapply lookup_lt_Some). done.
Qed.

Lemma some_thread_waits st p : counted p -> st <> Returned -> some_thread st p -> p_wait p <> 0.
Proof. intros Hc Hst (i & c & Hi). rewrite Hc. pose proof (unreturned_pos _ i _ Hi Hst). lia. Qed.

(** [Stop] has the lock, a goroutine wants it, and no channel is closed. *)
Definition locked_out (p : pool) : Prop :=
  counted p /\ p_lock p <> Free /\ some_thread AtGo p /\ Closed ∉ p_chans p.

Lemma Closed_insert (l : list chan) j c : Closed ∉ l -> c <> Closed -> Closed ∉ <[j := c]> l.
Proof.
  intros Hl Hc (i & Hi)%list_elem_of_lookup. apply list_lookup_insert_Some in Hi as [(_ & ? & _)|[_ Hi]]; [done|].
  apply Hl. by eapply list_elem_of_lookup_2.
Qed.

Lemma step_locked_out p p' : step_start p p' -> locked_out p -> locked_out p' /\ p_stops p' = p_stops p.
Proof.
  intros Hs (Hc & Hl & Ht & Hcl). pose proof (step_keeps AtGo _ _ Hs (or_intror (conj eq_refl Hl)) Ht) as Ht'.
  pose proof (start_counted _ _ Hs Hc) as Hc'. pose proof (some_thread_waits AtGo p Hc ltac:(done) Ht) as Hw.
  destruct Hs as [o p' Hs|js Hl' _]; [|done]. destruct Hs; try done; (split; [split_and!|]); simpl in *; try done;
    try (by apply Closed_insert).
  exfalso. apply Hcl. by eapply list_elem_of_lookup_2.
Qed.

(** What makes [Stop] wait for ever, whatever happens later: a goroutine of
    the pool that panicked, and a goroutine that calls [Go] on its pool while
    [Stop] has the lock. *)
Theorem stop_hangs p p' :
  reachable p -> rtc step_start p p' ->
  (some_thread Panicked p -> p_stops p' = p_stops p) /\
  (p_lock p <> Free -> some_thread AtGo p -> Closed ∉ p_chans p ->
   p_lock p' <> Free /\ some_thread AtGo p' /\ p_stops p' = p_stops p).
Proof.
  intros Hr%reachable_counted Hs. split.
  - intros Hp. revert Hr Hp. induction Hs as [|p p1 p2 H1 Hs IH]; [done|]. intros Hc Hp.
    rewrite IH; [|by eapply start_counted|by eapply step_keeps; [|left|]].
    pose proof (some_thread_waits Panicked _ Hc ltac:(done) Hp). destruct H1 as [o p1 H1|]; [destruct H1|]; done.
  - intros Hl Ht Hcl. assert (locked_out p) as Hlo by (by split_and!). clear Hl Ht Hcl Hr.
    cut (locked_out p' /\ p_stops p' = p_stops p); [unfold locked_out; tauto|].
    induction Hs as [|p p1 p2 H1 Hs IH]; [done|]. destruct (step_locked_out _ _ H1 Hlo) as [Hlo1 E1].
    destruct (IH Hlo1) as [? ->]. done.
Qed.

(** ** [Stop] completes when the goroutines obey *)

Definition sent (p : pool) : nat :=
  match p_lock p with Free => 0 | Sending k => k | Waiting => length (p_chans p) end.

(** Before the first [Stop] ends, and without restarts, every goroutine has a
    channel of its own, which is empty until [Stop] sends, and then full until
    the goroutine returns. *)
Record orderly (p : pool) : Prop := {
  o_first : p_stops p = 0 /\ p_failed p = 0;
  o_bound : forall i j st, p_threads p !! i = Some (mkThread (Some j) st) -> j < length (p_chans p);
  o_own : forall i i' j st st', p_threads p !! i = Some (mkThread (Some j) st) ->
    p_threads p !! i' = Some (mkThread (Some j) st') -> i = i';
  o_sent : sent p <= length (p_chans p);
  o_open : Closed ∉ p_chans p;
  o_unsent : forall j, sent p <= j < length (p_chans p) -> p_chans p !! j = Some Empty;
  o_signal : forall i j st, p_threads p !! i = Some (mkThread (Some j) st) -> st <> Returned -> j < sent p ->
    p_chans p !! j = Some Full;
  o_canceled : p_lock p <> Free -> p_canceled p = true;
}.

Lemma orderly_init : orderly NewPool.
Proof. split; simpl; try done; try lia. apply not_elem_of_nil. Qed.

(** An update of a goroutine's status keeps what is said of its channel. *)
Lemma lookup_insert_thread (l : list thread) i t t' i' j st :
  l !! i = Some t -> th_stop t' = th_stop t -> <[i := t']> l !! i' = Some (mkThread (Some j) st) ->
  exists st', l !! i' = Some (mkThread (Some j) st') /\ (i' <> i -> st' = st).
Proof.
  intros Hi Ht [(-> & E & _)|[Hne Hi']]%list_lookup_insert_Some; [|by eauto].
  destruct t as [c s'], t' as [c' s2]. simpl in Ht. simplify_eq. by exists s'.
Qed.

Lemma orderly_set_thread i c st st' p :
  p_threads p !! i = Some (mkThread c st) -> (st = Returned -> st' = Returned) ->
  orderly p -> orderly (set_thread i (mkThread c st') p).
Proof.
  intros Hi Hst [H1 H2 H3 H4 H5 H6 H7 H8]. split; simpl; try done.
  - intros i' j s' Hi'. eapply lookup_insert_thread in Hi' as (s2 & Hi' & _); [|done|done]. by eapply H2.
  - intros i1 i2 j s1 s2 Hi1 Hi2. eapply lookup_insert_thread in Hi1 as (? & Hi1 & _); [|done|done].
    eapply lookup_insert_thread in Hi2 as (? & Hi2 & _); [|done|done]. by eapply H3.
  - intros i' j s' Hi' Hs' Hj. destruct (decide (i' = i)) as [->|Hne].
    + rewrite list_lookup_insert_eq in Hi' by (by eapply lookup_lt_Some). injection Hi' as -> ->.
      apply (H7 i j st); naive_solver.
    + rewrite list_lookup_insert_ne in Hi' by done. by apply (H7 i' j s').
Qed.

Lemma orderly_done p : orderly p -> orderly (done p).
Proof. intros [H1 H2 H3 H4 H5 H6 H7 H8]. by split. Qed.

Lemma lookup_app_thread (l : list thread) t i t' : (l ++ [t]) !! i = Some t' -> l !! i = Some t' \/ i = length l /\ t = t'.
Proof. intros [?|[? H]]%lookup_app_Some; [by left|]. apply list_lookup_singleton_Some in H as [? ?]. right. split; [lia|done]. Qed.

Lemma orderly_GoCtx p : orderly p -> orderly (GoCtx p).
Proof.
  intros [H1 H2 H3 H4 H5 H6 H7 H8]. split; simpl; try done.
  - intros i j st [H|[_ [=]]]%lookup_app_thread. by eapply H2.
  - intros i i' j st st' [H|[_ [=]]]%lookup_app_thread [H'|[_ [=]]]%lookup_app_thread. by eapply H3.
  - intros i j st [H|[_ [=]]]%lookup_app_thread. by eapply H7.
Qed.

Lemma orderly_Go p : p_lock p = Free -> orderly p -> orderly (Go p).
Proof.
  intros Hl [H1 H2 H3 H4 H5 H6 H7 H8]. assert (sent (Go p) = 0) as E0 by (unfold sent; simpl; by rewrite Hl).
  assert (sent p = 0) as E1 by (unfold sent; by rewrite Hl).
  split; simpl; rewrite ?length_app, ?E0, ?E1 in *; try done; try lia.
  - intros i j st [H|[_ [= <- <-]]]%lookup_app_thread; simpl; [|lia]. apply H2 in H. lia.
  - intros i i' j st st' [H|[-> [= <- <-]]]%lookup_app_thread [H'|[-> H']]%lookup_app_thread; [by eapply H3| | |done].
    + injection H' as <- <-. apply H2 in H. lia.
    + apply H2 in H'. lia.
  - rewrite not_elem_of_app. split; [done|]. by intros ?%list_elem_of_singleton.
  - intros j Hj. simpl in Hj. destruct (decide (j < length (p_chans p))).
    + rewrite lookup_app_l by done. apply H6. lia.
    + by rewrite list_lookup_middle by lia.
Qed.

Lemma orderly_stopped i j p :
  p_threads p !! i = Some (mkThread (Some j) Running) -> orderly p ->
  orderly (set_thread i (mkThread (Some j) Returned) (set_chan j Empty p)).
Proof.
  intros Hi Ho. pose proof (orderly_set_thread i (Some j) Running Returned p Hi ltac:(done) Ho) as [H1 H2 H3 H4 H5 H6 H7 H8].
  assert (sent (set_thread i (mkThread (Some j) Returned) (set_chan j Empty p)) = sent p) as E
    by (unfold sent; simpl; by rewrite length_insert).
  change (sent (set_thread _ _ p)) with (sent p) in *.
  split; rewrite ?E; simpl in *; rewrite ?length_insert; try done.
  - by apply Closed_insert.
  - intros j' Hj'. destruct (decide (j' = j)) as [->|]; [rewrite list_lookup_insert_eq by lia; done|].
    rewrite list_lookup_insert_ne by done. by apply H6.
  - intros i' j' st Hi' Hst Hj'. destruct (decide (j' = j)) as [->|Hne].
    + exfalso. assert (i' = i) as ->.
      { eapply H3; [exact Hi'|]. rewrite list_lookup_insert_eq by (by eapply lookup_lt_Some). done. }
      rewrite list_lookup_insert_eq in Hi' by (by eapply lookup_lt_Some). by injection Hi' as <-.
    + rewrite list_lookup_insert_ne by done. by eapply H7.
Qed.

Lemma orderly_send k p :
  p_lock p = Sending k -> k < length (p_chans p) -> orderly p -> orderly (set_lock (Sending (S k)) (set_chan k Full p)).
Proof.
  intros Hl Hk [H1 H2 H3 H4 H5 H6 H7 H8]. unfold sent in *. rewrite Hl in *.
  split; unfold sent; simpl; rewrite ?length_insert; try done.
  - by apply Closed_insert.
  - intros j Hj. rewrite list_lookup_insert_ne by lia. apply H6. lia.
  - intros i j st Hi Hst Hj. destruct (decide (j = k)) as [->|]; [by rewrite list_lookup_insert_eq|].
    rewrite list_lookup_insert_ne by done. eapply H7; [exact Hi|done|lia].
  - intros _. apply H8. done.
Qed.

Lemma orderly_relock h p :
  match h with Free => p_lock p = Free | Sending k => k = sent p | Waiting => length (p_chans p) = sent p end ->
  (h = Free -> p_canceled p = true \/ p_lock p = Free) -> p_canceled p = true -> orderly p -> orderly (set_lock h p).
Proof.
  intros Hh _ Hc [H1 H2 H3 H4 H5 H6 H7 H8].
  assert (sent (set_lock h p) = sent p) as E.
  { unfold sent at 1. simpl. destruct h; [|done|done]. unfold sent. by rewrite Hh. }
  split; rewrite ?E; done.
Qed.

(** Every step keeps the order, except the one that ends the first [Stop]. *)
Lemma step_orderly o p p' :
  step o p p' -> orderly p -> orderly p' \/ p_lock p = Waiting /\ p_wait p = 0 /\ p' = stop_end p.
Proof.
  intros Hs Ho. destruct Hs as [p Hl|p Hl|p Hl|p i c Hi|p i c Hl Hi|p i j Hi Hj|p i Hi Hc|p i c Hi|p i c Hi|p Hl|p k Hl Hk
    |p k Hl Hk|p Hl|p Hl Hw]; try (left; try apply orderly_done; by eapply orderly_set_thread).
  - left. destruct Ho. by split.
  - left. by apply orderly_GoCtx.
  - left. by apply orderly_Go.
  - left. apply orderly_Go; [done|]. by eapply orderly_set_thread.
  - left. apply orderly_done. by apply orderly_stopped.
  - left. destruct Ho as [H1 H2 H3 H4 H5 H6 H7 H8]. unfold sent in *. rewrite Hl in *. by split.
  - left. apply orderly_send; [done|by eapply lookup_lt_Some|done].
  - exfalso. apply (o_open _ Ho). by eapply list_elem_of_lookup_2.
  - left. apply orderly_relock; [unfold sent; by rewrite Hl|done|apply (o_canceled _ Ho); by rewrite Hl|done].
  - by right.
Qed.

Lemma steps_orderly p : rtc (fun p p' => exists o, step o p p') NewPool p -> orderly p \/ 0 < p_stops p.
Proof.
  apply (rtc_ind_r (fun p => orderly p \/ 0 < p_stops p) NewPool); [left; apply orderly_init|].
  intros p1 p2 _ [o Hs] [Ho|Hn].
  - destruct (step_orderly _ _ _ Hs Ho) as [?|(_ & _ & ->)]; [by left|right; simpl; lia].
  - right. destruct Hs; simpl; lia.
Qed.

(** *** Progress *)

Definition obedient (p : pool) : Prop := Forall (fun t => th_status t = Running \/ th_status t = Returned) (p_threads p).

Definition left_to_do (p : pool) : nat :=
  (length (p_chans p) - sent p) + p_wait p + match p_lock p with Waiting => 0 | _ => 1 end.

Lemma obedient_return i c p : obedient p -> obedient (set_thread i (mkThread c Returned) p).
Proof. intros H. apply Forall_insert; [done|by right]. Qed.

(** A pool that still waits has a goroutine to wait for. *)
Lemma waits_for p : counted p -> obedient p -> p_wait p <> 0 -> exists i c, p_threads p !! i = Some (mkThread c Running).
Proof.
  unfold counted, obedient. intros -> Hob. induction (p_threads p) as [|[c st] l IH]; [done|].
  apply Forall_cons in Hob as [[Hst|Hst] Hob]; simpl in Hst; subst st.
  - intros _. by exists 0, c.
  - intros Hn. destruct (IH Hob Hn) as (i & c' & Hi). by exists (S i), c'.
Qed.

Lemma stop_progress p :
  orderly p -> counted p -> obedient p -> p_lock p <> Free ->
  exists p', step Forced p p' /\
    (p' = stop_end p \/ orderly p' /\ counted p' /\ obedient p' /\ p_lock p' <> Free /\ p_stops p' = p_stops p /\
       left_to_do p' < left_to_do p).
Proof.
  intros Ho Hc Hob Hl. destruct (p_lock p) as [|k|] eqn:El; [done| |].
  - pose proof (o_sent _ Ho) as Hk. unfold sent in Hk. rewrite El in Hk. destruct (decide (k = length (p_chans p))) as [->|].
    + exists (set_lock Waiting p). split; [by apply step_wait|]. right.
      split_and!; try done; [|unfold left_to_do, sent; simpl; rewrite El; lia].
      apply orderly_relock; [unfold sent; by rewrite El|done|apply (o_canceled _ Ho); by rewrite El|done].
    + assert (p_chans p !! k = Some Empty) as Hek by (apply (o_unsent _ Ho); unfold sent; rewrite El; lia).
      exists (set_lock (Sending (S k)) (set_chan k Full p)). split; [by apply step_send|]. right.
      split_and!; try done; [apply orderly_send; [done|lia|done]|].
      unfold left_to_do, sent. simpl. rewrite El, length_insert. lia.
  - destruct (decide (p_wait p = 0)) as [Hw|Hw]; [exists (stop_end p); split; [by apply step_stop_end|by left]|].
    destruct (waits_for p Hc Hob Hw) as (i & c & Hi).
    assert (forall p', step Forced p p' -> p_lock p' = p_lock p -> p_stops p' = p_stops p -> obedient p' ->
      length (p_chans p') = length (p_chans p) -> p_wait p' < p_wait p -> orderly p' /\ counted p' /\ obedient p' /\
        p_lock p' <> Free /\ p_stops p' = p_stops p /\ left_to_do p' < left_to_do p) as Hstep.
    { intros p' Hs E1 E2 Hob' E3 Hlt. split_and!; try done; [|by eapply step_counted|by rewrite E1, El|].
      - destruct (step_orderly _ _ _ Hs Ho) as [?|(_ & ? & _)]; done.
      - unfold left_to_do, sent. rewrite E1, El, E3. lia. }
    destruct c as [j|].
    + assert (p_chans p !! j = Some Full) as Hj.
      { apply (o_signal _ Ho i j Running); [done|done|]. unfold sent. rewrite El. by eapply o_bound. }
      eexists. split; [by apply (step_stopped p i j)|]. right. apply Hstep; simpl; try done; rewrite ?length_insert; try lia;
        [by apply step_stopped|by apply obedient_return].
    + assert (p_canceled p = true) as Hca by (apply (o_canceled _ Ho); by rewrite El).
      eexists. split; [by apply (step_canceled p i)|]. right. apply Hstep; simpl; try done; try lia;
        [by apply step_canceled|by apply obedient_return].
Qed.

(** C31: the first [Stop] completes, by its own steps and the answers of the
    goroutines to its signals alone, when none of them panicked or waits for
    the lock and the pool was not restarted; all of them have returned then. *)
Theorem stop_completes p :
  rtc (fun p p' => exists o, step o p p') NewPool p -> p_stops p = 0 -> p_lock p <> Free -> obedient p ->
  exists p', rtc (step Forced) p p' /\ p_stops p' = 1 /\ p_lock p' = Free /\ p_wait p' = 0.
Proof.
  intros Hr H0 Hl Hob. assert (counted p) as Hc.
  { revert Hr. apply (rtc_ind_r counted NewPool); [done|]. intros p1 p2 _ [o Hs]. by eapply step_counted. }
  destruct (steps_orderly p Hr) as [Ho|]; [|lia]. clear Hr.
  revert H0 Hl Hob Hc Ho. induction p as [p IH] using (induction_ltof1 _ left_to_do).
  intros H0 Hl Hob Hc Ho. destruct (stop_progress p Ho Hc Hob Hl) as (p' & Hs & [->|(Ho' & Hc' & Hob' & Hl' & E & Hlt)]).
  - exists (stop_end p). split; [by apply rtc_once|]. simpl. inversion Hs; subst; split_and!; try done; lia.
  - destruct (IH p' Hlt) as (p2 & Hs2 & H2); [by rewrite E|done..|]. exists p2. split; [by eapply rtc_l|done].
Qed.

(** ** Sample runs *)

Definition step_any (p p' : pool) : Prop := exists o, step o p p'.

Lemma any_start p p' : rtc step_any p p' -> rtc step_start p p'.
Proof. induction 1 as [|p p1 p2 [o H] _ IH]; [done|]. eapply rtc_l; [by eapply start_step|done]. Qed.

(** One goroutine, and a [Stop] that has the lock. *)
Definition stopping : pool := stop_begin (Go NewPool).

Lemma stopping_run : rtc step_any NewPool stopping.
Proof. eapply rtc_l; [exists Chosen; by apply step_go|]. eapply rtc_l; [exists Chosen; by apply step_stop|]. apply rtc_refl. Qed.

Definition signalled : pool :=
  done (set_thread 0 (mkThread (Some 0) Returned) (set_chan 0 Empty
    (set_lock Waiting (set_lock (Sending 1) (set_chan 0 Full stopping))))).

Lemma signalled_run : rtc step_any NewPool signalled.
Proof.
  etrans; [apply stopping_run|].
  eapply rtc_l; [exists Forced; by apply (step_send _ 0)|].
  eapply rtc_l; [exists Forced; by apply step_wait|].
  eapply rtc_l; [exists Forced; by apply (step_stopped _ 0 0)|]. apply rtc_refl.
Qed.

Lemma stop_waits_witness : Forall (fun t => th_status t = Returned) (p_threads (stop_end signalled)).
Proof.
  apply (stop_waits signalled (stop_end signalled)).
  - apply any_start, signalled_run.
  - apply (start_step _ Forced). by apply step_stop_end.
  - discriminate.
Defined.

Lemma stop_hangs_witness :
  let p := stop_begin (set_thread 0 (mkThread (Some 0) Panicked) (Go NewPool)) in
  p_stops (set_lock Waiting (set_lock (Sending 1) (set_chan 0 Full p))) = 0.
Proof.
  intros p. refine (proj1 (stop_hangs p (set_lock Waiting (set_lock (Sending 1) (set_chan 0 Full p))) _ _) _).
  - apply any_start. eapply rtc_l; [exists Chosen; by apply step_go|].
    eapply rtc_l; [exists Chosen; by apply (step_panic _ 0 (Some 0))|].
    eapply rtc_l; [exists Chosen; by apply step_stop|]. apply rtc_refl.
  - apply any_start. eapply rtc_l; [exists Forced; by apply (step_send _ 0)|].
    eapply rtc_l; [exists Forced; by apply step_wait|]. apply rtc_refl.
  - exact (ex_intro _ 0 (ex_intro _ (Some 0) eq_refl)).
Defined.

Lemma stop_completes_witness : exists p', rtc (step Forced) stopping p' /\ p_stops p' = 1 /\ p_lock p' = Free /\ p_wait p' = 0.
Proof.
  apply (stop_completes stopping); [exact stopping_run|reflexivity|discriminate|].
  repeat constructor.
Defined.

(** A restarted pool of two goroutines may give both the channel of the last:
    one of them then misses the signal, and [Stop], which has sent all of
    them, has nothing left but to wait. *)

Lemma restart_loses_a_signal :
  exists p, reachable p /\ p_lock p = Waiting /\ p_wait p = 1 /\ (forall p', ~ step Forced p p') /\
    forall i t, p_threads p !! i = Some t -> th_status t = Running \/ th_status t = Returned.
Proof.
  set (p0 := done (set_thread 1 (mkThread (Some 1) Returned) (done (set_thread 0 (mkThread (Some 0) Returned) (Go (Go NewPool)))))).
  set (p1 := set_lock (Sending 2) (set_chan 1 Full (set_lock (Sending 1) (set_chan 0 Full (stop_begin p0))))).
  set (p2 := Start [1; 1] (stop_end (set_lock Waiting p1))).
  set (p3 := set_lock (Sending 2) (set_chan 1 Full (set_lock (Sending 1) (set_chan 0 Full (stop_begin p2))))).
  set (p4 := done (set_thread 2 (mkThread (Some 1) Returned) (set_chan 1 Empty (set_lock Waiting p3)))).
  exists p4. split; [|split_and!; try done].
  - unfold reachable. transitivity (stop_end (set_lock Waiting p1)); [apply any_start|].
    + do 2 (eapply rtc_l; [exists Chosen; by apply step_go|]).
      eapply rtc_l; [exists Chosen; by apply (step_return _ 0 (Some 0))|].
      eapply rtc_l; [exists Chosen; by apply (step_return _ 1 (Some 1))|].
      eapply rtc_l; [exists Chosen; by apply step_stop|].
      eapply rtc_l; [exists Forced; by apply (step_send _ 0)|].
      eapply rtc_l; [exists Forced; by apply (step_send _ 1)|].
      eapply rtc_l; [exists Forced; by apply step_wait|].
      eapply rtc_l; [exists Forced; by apply step_stop_end|]. apply rtc_refl.
    + eapply rtc_l; [apply (start_start _ [1; 1]); [done|repeat constructor; lia]|]. apply any_start.
      eapply rtc_l; [exists Chosen; by apply step_stop|].
      eapply rtc_l; [exists Forced; by apply (step_send _ 0)|].
      eapply rtc_l; [exists Forced; by apply (step_send _ 1)|].
      eapply rtc_l; [exists Forced; by apply step_wait|].
      eapply rtc_l; [exists Forced; by apply (step_stopped _ 2 1)|]. apply rtc_refl.
  - intros p' Hs. inversion Hs; subst; simpl in *; try done.
    + destruct i as [|[|[|[|i]]]]; simpl in *; simplify_eq.
    + destruct i as [|[|[|[|i]]]]; simpl in *; simplify_eq.
  - intros i t Hi. destruct i as [|[|[|[|i]]]]; simpl in Hi; simplify_eq; simpl; auto.
Qed.
