(* ===== verification/Certs.v ===== *)
(** * [tls/certificate.go], [tls/tls.go]: certificates and their entry points

    A certificate is a pair of paths or contents; once loaded it is filed under
    its domains, for the entry points that ask for it.  Loading and the names
    in a certificate are parameters ([TLSFiles], [Leaf]). *)
From S2P Require Import Prelude GoStrings OsioClient Types EntryPoints.

(** [x509.ParseCertificate] on the first block of a loaded pair: the common name
    and the DNS names.  Loading has parsed it before. *)
Class Leaf (Certificate : Type) := leaf : Certificate -> string * list string.

(** ** The tables of [certificate.go] *)

Definition MinVersions : gmap string Z := list_to_map
  [("VersionTLS10", 0x0301); ("VersionTLS11", 0x0302); ("VersionTLS12", 0x0303)]%Z.

Definition CipherSuiteIDs : gmap string Z := list_to_map
  [("TLS_RSA_WITH_RC4_128_SHA", 0x0005);
   ("TLS_RSA_WITH_3DES_EDE_CBC_SHA", 0x000a);
   ("TLS_RSA_WITH_AES_128_CBC_SHA", 0x002f);
   ("TLS_RSA_WITH_AES_256_CBC_SHA", 0x0035);
   ("TLS_RSA_WITH_AES_128_CBC_SHA256", 0x003c);
   ("TLS_RSA_WITH_AES_128_GCM_SHA256", 0x009c);
   ("TLS_RSA_WITH_AES_256_GCM_SHA384", 0x009d);
   ("TLS_ECDHE_ECDSA_WITH_RC4_128_SHA", 0xc007);
   ("TLS_ECDHE_ECDSA_WITH_AES_128_CBC_SHA", 0xc009);
   ("TLS_ECDHE_ECDSA_WITH_AES_256_CBC_SHA", 0xc00a);
   ("TLS_ECDHE_RSA_WITH_RC4_128_SHA", 0xc011);
   ("TLS_ECDHE_RSA_WITH_3DES_EDE_CBC_SHA", 0xc012);
   ("TLS_ECDHE_RSA_WITH_AES_128_CBC_SHA", 0xc013);
   ("TLS_ECDHE_RSA_WITH_AES_256_CBC_SHA", 0xc014);
   ("TLS_ECDHE_ECDSA_WITH_AES_128_CBC_SHA256", 0xc023);
   ("TLS_ECDHE_RSA_WITH_AES_128_CBC_SHA256", 0xc027);
   ("TLS_ECDHE_RSA_WITH_AES_128_GCM_SHA256", 0xc02f);
   ("TLS_ECDHE_ECDSA_WITH_AES_128_GCM_SHA256", 0xc02b);
   ("TLS_ECDHE_RSA_WITH_AES_256_GCM_SHA384", 0xc030);
   ("TLS_ECDHE_ECDSA_WITH_AES_256_GCM_SHA384", 0xc02c);
   ("TLS_ECDHE_RSA_WITH_CHACHA20_POLY1305", 0xcca8);
   ("TLS_ECDHE_ECDSA_WITH_CHACHA20_POLY1305", 0xcca9)]%Z.

(** [RootCAs.Set] and [String]. *)
Definition RootCAs_Set (r : list string) (value : string) : list string := r ++ split value ",".
Definition RootCAs_String (r : list string) : string := join r ",".

Section Certificates.
Context {Certificate : Type} `{files : !TLSFiles Certificate} `{leaves : !Leaf Certificate}.

(** ** Loading *)

Definition IsPath (f : string) : bool := file_exists f.
Definition Read (f : string) : result string := if file_exists f then ReadFile f else Ok f.

Definition wrap_error {A} (context : string) (r : result A) : result A :=
  match r with Ok a => Ok a | Err err => Err (context +:+ err) end.

Definition load (c : string * string) : result Certificate :=
  certContent ← wrap_error "unable to read CertFile : " (Read c.1);
  keyContent ← wrap_error "unable to read KeyFile : " (Read c.2);
  wrap_error "unable to generate TLS certificate : " (X509KeyPair certContent keyContent).

Definition certKey (cert : Certificate) : string :=
  let '(commonName, dnsNames) := leaf cert in
  foldl (fun key dnsName => if bool_decide (dnsName = commonName) then key else key +:+ "," +:+ dnsName) commonName
    (merge_sort String.le dnsNames).

(** The certificates of entry points, under their domains. *)
Abbreviation EntryPointCerts := (gmap string (gmap string Certificate)).

(** The first certificate of some domains stays. *)
Definition AppendCertificates (c : string * string) (certs : EntryPointCerts) (ep : string) : result EntryPointCerts :=
  tlsCert ← load c;
  let known := default ∅ (certs !! ep) in
  match known !! certKey tlsCert with
  | Some _ => mret certs
  | None => mret (<[ep := <[certKey tlsCert := tlsCert]> known]> certs)
  end.

(** ** Sorting by entry point

    The configurations are changed in place: those without entry points get the
    default ones. *)
Fixpoint append_all (c : option (string * string)) (eps : list string) (certs : EntryPointCerts) :
    outcome (result EntryPointCerts) :=
  match eps with
  | [] => Ret (Ok certs)
  | ep :: eps' =>
      match c with
      | None => Panic nil_dereference
      | Some c =>
          match AppendCertificates c certs ep with
          | Err err => Ret (Err err)
          | Ok certs' => append_all (Some c) eps' certs'
          end
      end
  end.

Definition effective_entrypoints (defaultEntryPoints : list string) (conf : TLSConfiguration) : TLSConfiguration :=
  match tls_EntryPoints conf with
  | [] => mkTLSConfiguration defaultEntryPoints (tls_Certificate conf)
  | _ => conf
  end.

Fixpoint SortTLSPerEntryPoints (configurations : list TLSConfiguration) (certs : EntryPointCerts)
    (defaultEntryPoints : list string) : outcome (result EntryPointCerts) :=
  match configurations with
  | [] => Ret (Ok certs)
  | conf :: configurations' =>
      let conf := effective_entrypoints defaultEntryPoints conf in
      match append_all (tls_Certificate conf) (tls_EntryPoints conf) certs with
      | Ret (Ok certs') => SortTLSPerEntryPoints configurations' certs' defaultEntryPoints
      | r => r
      end
  end.

(** What becomes of the configurations themselves: those up to the one that
    fails are changed. *)
Fixpoint sorted_configurations (configurations : list TLSConfiguration) (certs : EntryPointCerts)
    (defaultEntryPoints : list string) : list TLSConfiguration :=
  match configurations with
  | [] => []
  | conf :: configurations' =>
      let conf := effective_entrypoints defaultEntryPoints conf in
      match append_all (tls_Certificate conf) (tls_EntryPoints conf) certs with
      | Ret (Ok certs') => conf :: sorted_configurations configurations' certs' defaultEntryPoints
      | _ => conf :: configurations'
      end
  end.

(** ** The certificates of a static entry point *)

Fixpoint leading_incomplete (c : list (string * string)) : nat :=
  match c with
  | [] => 0
  | cert :: c' => if nonempty cert.1 && nonempty cert.2 then 0 else S (leading_incomplete c')
  end.
Definition isEmpty (c : list (string * string)) : bool :=
  bool_decide (length c = 0) || bool_decide (leading_incomplete c = length c).

Context `{order : MapOrder}.

(** All the certificates filed so far are appended after each that loads. *)
Definition filed (certs : EntryPointCerts) : list Certificate := mjoin (map (fun d => (range d.2).*2) (range certs)).

Fixpoint config_loop (c : list (string * string)) (entryPointName : string) (domains : EntryPointCerts)
    (config : list Certificate) : list Certificate :=
  match c with
  | [] => config
  | certificate :: c' =>
      match AppendCertificates certificate domains entryPointName with
      | Err _ => config_loop c' entryPointName domains config
      | Ok domains' => config_loop c' entryPointName domains' (config ++ filed domains')
      end
  end.

(** [DefaultCertificate] is the certificate [tls/generate] makes up. *)
Definition Certificates_CreateTLSConfig (DefaultCertificate : result Certificate) (c : list (string * string))
    (entryPointName : string) : result (list Certificate) :=
  if isEmpty c then cert ← DefaultCertificate; mret [cert]
  else Ok (config_loop c entryPointName ∅ []).

End Certificates.

(** * Facts: What the sorting of certificates computes

    For each entry point, and for each set of domains, the first certificate of
    the configurations that name the entry point; and how many certificates a
    static entry point ends up with. *)

Section Facts.
Context {Certificate : Type} `{files : !TLSFiles Certificate} `{leaves : !Leaf Certificate}.

Abbreviation EntryPointCerts := (gmap string (gmap string Certificate)).

Definition cert_at (certs : EntryPointCerts) (ep key : string) : option Certificate := default ∅ (certs !! ep) !! key.

(** The certificate of some domains when [l] is filed in order, after [known]. *)
Definition first_for (key : string) (l : list Certificate) : option Certificate :=
  head (filter (fun c => certKey c = key) l).
Definition or_else (known new : option Certificate) : option Certificate :=
  match known with Some c => Some c | None => new end.

Lemma first_for_app key l1 l2 : first_for key (l1 ++ l2) = or_else (first_for key l1) (first_for key l2).
Proof. unfold first_for. rewrite filter_app. by destruct (filter _ l1). Qed.

Lemma or_else_assoc a b c : or_else a (or_else b c) = or_else (or_else a b) c.
Proof. by destruct a. Qed.

Lemma AppendCertificates_at c certs ep certs' :
  AppendCertificates c certs ep = Ok certs' ->
  exists x, load c = Ok x /\
    forall ep' key, cert_at certs' ep' key = or_else (cert_at certs ep' key) (if decide (ep' = ep) then first_for key [x] else None).
Proof.
  unfold AppendCertificates. destruct (load c) as [x|e]; simpl; [|done]. intros H. exists x. split; [done|]. intros ep' key.
  unfold first_for. rewrite filter_cons, filter_nil. unfold cert_at in *.
  destruct (decide (ep' = ep)) as [->|Hep], (decide (certKey x = key)) as [<-|Hkey];
    destruct (default ∅ (certs !! ep) !! certKey x) as [y|] eqn:E; simpl in H;
    unfold mret, result_ret in H; simplify_eq; rewrite ?lookup_insert_eq, ?lookup_insert_ne by done; simpl;
    rewrite ?lookup_insert_eq, ?lookup_insert_ne, ?E by done; try done;
    unfold or_else; by repeat case_match.
Qed.

(** The certificates the configurations have for an entry point, in order. *)
Definition loaded (c : option (string * string)) : list Certificate :=
  match c with Some c => match load c with Ok x => [x] | Err _ => [] end | None => [] end.
Definition wanted_by (ep : string) (conf : TLSConfiguration) : list Certificate :=
  mjoin (map (fun ep' => if decide (ep = ep') then loaded (tls_Certificate conf) else []) (tls_EntryPoints conf)).
Definition wanted (defaultEntryPoints : list string) (ep : string) (confs : list TLSConfiguration) : list Certificate :=
  mjoin (map (fun conf => wanted_by ep (effective_entrypoints defaultEntryPoints conf)) confs).

Lemma append_all_at c eps certs :
  match append_all c eps certs with
  | Ret (Ok certs') => forall ep key, cert_at certs' ep key =
      or_else (cert_at certs ep key) (first_for key (mjoin (map (fun ep' => if decide (ep = ep') then loaded c else []) eps)))
  | Ret (Err e) => exists c', c = Some c' /\ load c' = Err e
  | Panic e => c = None /\ eps <> [] /\ e = nil_dereference
  | Crash _ => False
  end.
Proof.
  revert certs. induction eps as [|ep eps IH]; intros certs; simpl; [intros ep key; by destruct (cert_at certs ep key)|].
  destruct c as [c|]; [|by split_and!]. destruct (AppendCertificates c certs ep) as [certs'|e] eqn:E.
  - destruct (AppendCertificates_at _ _ _ _ E) as (x & Hx & Hat). specialize (IH certs').
    destruct (append_all (Some c) eps certs') as [[certs2|e]|e|e]; [| |naive_solver|done].
    + intros ep' key. rewrite IH, Hat, first_for_app, or_else_assoc. f_equal. f_equal. case_decide; [|done].
      simpl. by rewrite Hx.
    + done.
  - exists c. split; [done|]. unfold AppendCertificates in E. destruct (load c) as [x|e']; simpl in E; [|by simplify_eq].
    unfold mret, result_ret in E. by destruct (_ !! certKey x).
Qed.

(** Sorting certificates by entry point.  A success files, under each entry
    point and set of domains, what was there or else the first certificate of
    the configurations, in order, that is for the entry point, a configuration
    without entry points being for the default ones; the first pair that does
    not load is the error; a configuration without a certificate panics. *)
Theorem SortTLSPerEntryPoints_spec defaults confs certs :
  match SortTLSPerEntryPoints confs certs defaults with
  | Ret (Ok certs') => forall ep key,
      cert_at certs' ep key = or_else (cert_at certs ep key) (first_for key (wanted defaults ep confs))
  | Ret (Err e) => exists conf c, conf ∈ confs /\ tls_Certificate conf = Some c /\ load c = Err e
  | Panic e => e = nil_dereference /\ exists conf, conf ∈ confs /\ tls_Certificate conf = None
  | Crash _ => False
  end.
Proof.
  revert certs. induction confs as [|conf confs IH]; intros certs; simpl; [intros ep key; by destruct (cert_at certs ep key)|].
  pose proof (append_all_at (tls_Certificate (effective_entrypoints defaults conf))
    (tls_EntryPoints (effective_entrypoints defaults conf)) certs) as H.
  assert (tls_Certificate (effective_entrypoints defaults conf) = tls_Certificate conf) as Ec
    by (unfold effective_entrypoints; by destruct (tls_EntryPoints conf)).
  destruct (append_all _ _ certs) as [[certs'|e]|e|e]; [| | |done].
  - specialize (IH certs'). destruct (SortTLSPerEntryPoints confs certs' defaults) as [[certs2|e]|e|e]; [| | |done].
    + intros ep key. rewrite IH, H. unfold wanted. simpl. by rewrite first_for_app, or_else_assoc.
    + destruct IH as (conf' & c & ? & ?). exists conf', c. split; [by apply list_elem_of_further|done].
    + destruct IH as (-> & conf' & ? & ?). split; [done|]. exists conf'. split; [by apply list_elem_of_further|done].
  - destruct H as (c & ? & ?). exists conf, c. rewrite <-Ec. split; [by apply list_elem_of_here|done].
  - destruct H as (? & _ & ->). split; [done|]. exists conf. rewrite <-Ec. split; [by apply list_elem_of_here|done].
Qed.

(** ** Static entry points *)

(** What is filed under one entry point after the certificates of [l]. *)
Definition filed_under (ep : string) (l : list Certificate) (certs : EntryPointCerts) : Prop :=
  (l = [] /\ certs = ∅ \/ l <> [] /\ exists m, certs = {[ep := m]}) /\
  (forall key, cert_at certs ep key = first_for key l).

Lemma AppendCertificates_under c ep l certs :
  filed_under ep l certs ->
  match AppendCertificates c certs ep with
  | Ok certs' => exists x, load c = Ok x /\ filed_under ep (l ++ [x]) certs'
  | Err e => load c = Err e
  end.
Proof.
  intros [Hsh Hat]. destruct (AppendCertificates c certs ep) as [certs'|e] eqn:E.
  - destruct (AppendCertificates_at _ _ _ _ E) as (x & Hx & Hat'). exists x. split; [done|]. split.
    + right. split; [by destruct l|]. unfold AppendCertificates in E. rewrite Hx in E. simpl in E.
      unfold mret, result_ret in E. destruct Hsh as [[-> ->]|(_ & m & ->)].
      * rewrite lookup_empty in E. simpl in E. rewrite lookup_empty in E. injection E as <-. by eexists.
      * rewrite lookup_singleton_eq in E. simpl in E.
        destruct (m !! certKey x); injection E as <-; [by eexists|]. eexists. by rewrite insert_singleton_eq.
    + intros key. by rewrite Hat', decide_True, Hat, first_for_app by done.
  - unfold AppendCertificates in E. destruct (load c) as [x|e']; simpl in E; [|by simplify_eq].
    unfold mret, result_ret in E. by destruct (_ !! certKey x).
Qed.

Lemma first_for_Some key l x : first_for key l = Some x -> x ∈ l /\ certKey x = key.
Proof.
  unfold first_for. intros H. destruct (filter _ l) as [|y l'] eqn:E; [done|]. injection H as ->.
  assert (x ∈ filter (fun c => certKey c = key) l) as Hx by (rewrite E; apply list_elem_of_here).
  apply list_elem_of_filter in Hx. naive_solver.
Qed.

Lemma first_for_is_Some x l : x ∈ l -> is_Some (first_for (certKey x) l).
Proof.
  intros Hx. unfold first_for. assert (x ∈ filter (fun c => certKey c = certKey x) l) as H by (by apply list_elem_of_filter).
  destruct (filter _ l); [by apply elem_of_nil in H|by eexists].
Qed.

(** A map whose keys are those of some elements has at most as many entries. *)
Lemma size_le_length (m : gmap string Certificate) l :
  (forall key, m !! key = first_for key l) -> size m <= length l /\ (NoDup (map certKey l) -> size m = length l).
Proof.
  intros Hm. assert (dom m = (list_to_set (map certKey l) : gset string)) as Hd.
  { apply set_eq. intros key. rewrite elem_of_dom, Hm, elem_of_list_to_set, list_elem_of_fmap. split.
    - intros [x (Hx & <-)%first_for_Some]. by exists x.
    - intros (x & -> & Hx). by apply first_for_is_Some. }
  rewrite <-(size_dom (D := gset string) m), Hd. split.
  - rewrite <-(length_map certKey l). clear Hd Hm. induction (map certKey l) as [|k ks IH]; [rewrite list_to_set_nil, size_empty; simpl; lia|].
    rewrite list_to_set_cons, length_cons, size_union_alt, size_singleton. pose proof (subseteq_size (list_to_set ks ∖ {[k]} : gset string) (list_to_set ks) ltac:(set_solver)). lia.
  - intros Hn. by rewrite size_list_to_set, length_map.
Qed.

Context `{order : MapOrder} `{laws : !MapOrderLaws order}.

Lemma filed_perm ep l certs : filed_under ep l certs -> exists m : gmap string Certificate,
  filed certs ≡ₚ (map_to_list m).*2 /\ (forall key, m !! key = first_for key l).
Proof using laws.
  intros [[[-> ->]|(Hl & m & ->)] Hat].
  - exists ∅. split; [|done]. unfold filed. assert (range (∅ : EntryPointCerts) = []) as -> by (apply Permutation_nil_r; by rewrite range_perm).
    by rewrite map_to_list_empty.
  - exists m. split.
    + unfold filed. assert (range ({[ep := m]} : EntryPointCerts) = [(ep, m)]) as ->
        by (apply Permutation_singleton_r; by rewrite range_perm, map_to_list_singleton).
      simpl. by rewrite app_nil_r, range_perm.
    + intros key. rewrite <-Hat. unfold cert_at. by rewrite lookup_singleton_eq.
Qed.

(** The certificates that load, in order. *)
Definition loads (c : list (string * string)) : list Certificate := mjoin (map (fun p => loaded (Some p)) c).

Lemma filed_elem ep l certs x : filed_under ep l certs -> x ∈ filed certs <-> first_for (certKey x) l = Some x.
Proof using laws.
  intros (m & -> & Hm)%filed_perm. rewrite list_elem_of_fmap. split.
  - intros ([key y] & -> & Hy%elem_of_map_to_list). rewrite Hm in Hy. pose proof (first_for_Some _ _ _ Hy) as [_ E]. simpl. by rewrite E.
  - intros H. exists (certKey x, x). split; [done|]. by rewrite elem_of_map_to_list, Hm.
Qed.

Lemma filed_length ep l certs :
  filed_under ep l certs -> length (filed certs) <= length l /\ (NoDup (map certKey l) -> length (filed certs) = length l).
Proof using laws.
  intros (m & -> & Hm)%filed_perm. rewrite length_fmap, length_map_to_list. by apply size_le_length.
Qed.

Lemma first_for_prefix key l1 l2 x : first_for key l1 = Some x -> first_for key (l1 ++ l2) = Some x.
Proof. intros H. by rewrite first_for_app, H. Qed.

(** The loop, after the certificates of [l]. *)
Lemma config_loop_inv ep c l domains config :
  filed_under ep l domains ->
  let config' := config_loop c ep domains config in
  2 * length config' + length l * (length l + 1) <= 2 * length config + (length l + length c) * (length l + length c + 1) /\
  (length (loads c) = length c -> NoDup (map certKey (l ++ loads c)) ->
   2 * length config' + length l * (length l + 1) = 2 * length config + (length l + length c) * (length l + length c + 1)) /\
  (forall x, x ∈ config' -> x ∈ config \/ first_for (certKey x) (l ++ loads c) = Some x) /\
  (forall x, x ∈ config \/ first_for (certKey x) l = None /\ first_for (certKey x) (l ++ loads c) = Some x -> x ∈ config').
Proof using laws.
  cbv zeta. revert l domains config. induction c as [|p c IH]; intros l domains config Hf.
  - simpl. rewrite app_nil_r, Nat.add_0_r. split_and!; [lia|lia|auto|]. intros x [?|[? E]]; [done|congruence].
  - pose proof (AppendCertificates_under p ep l domains Hf) as H. cbn [config_loop].
    change (loads (p :: c)) with (loaded (Some p) ++ loads c). cbn [loaded].
    destruct (AppendCertificates p domains ep) as [domains'|e].
    + destruct H as (x0 & Hx & Hf'). rewrite Hx. pose proof (filed_length _ _ _ Hf') as [Hle Heq].
      destruct (IH (l ++ [x0]) domains' (config ++ filed domains') Hf') as (H1 & H2 & H3 & H4).
      rewrite <-app_assoc in *. cbn [app] in *. rewrite !length_app in *. cbn [length] in *. split_and!.
      * nia.
      * intros Hl Hn. assert (NoDup (map certKey (l ++ [x0]))) as Hn'.
        { change (x0 :: loads c) with ([x0] ++ loads c) in Hn. rewrite app_assoc, map_app in Hn. by apply NoDup_app in Hn as [? _]. }
        specialize (H2 ltac:(lia) Hn). specialize (Heq Hn'). rewrite ?length_app in *. simpl in *. nia.
      * intros x [Hin|?]%H3; [|by right]. apply elem_of_app in Hin as [?|Hin]; [by left|right].
        apply (filed_elem _ _ _ _ Hf') in Hin. change (x0 :: loads c) with ([x0] ++ loads c). rewrite app_assoc.
        by apply first_for_prefix.
      * intros x Hx'. apply H4. rewrite elem_of_app. destruct Hx' as [?|[Hno Hyes]]; [by left; left|].
        destruct (first_for (certKey x) (l ++ [x0])) as [y|] eqn:Ey; [|by right]. left. right.
        apply (filed_elem _ _ _ _ Hf'). rewrite Ey. change (x0 :: loads c) with ([x0] ++ loads c) in Hyes.
        rewrite app_assoc, (first_for_prefix _ _ _ _ Ey) in Hyes. done.
    + rewrite H. destruct (IH l domains config Hf) as (H1 & H2 & H3 & H4). cbn [app length]. split_and!; [nia| |done|done].
      intros Hl. exfalso. assert (forall c', length (loads c') <= length c') as Hb.
      { intros c'. induction c' as [|q c' IHc]; [done|]. change (loads (q :: c')) with (loaded (Some q) ++ loads c').
        rewrite length_app. simpl. destruct (load q); simpl; lia. }
      specialize (Hb c). lia.
Qed.

Lemma filed_under_nil ep : filed_under ep [] ∅.
Proof. split; [by left|]. intros key. unfold cert_at. by rewrite lookup_empty. Qed.

(** The certificates of a static entry point made of [n] pairs: those that
    load first for their domains, each at least once; there are at most
    [n (n + 1) / 2], and exactly as many when all load and no two have the same
    domains, since every pair that loads appends all those before it again. *)
Theorem CreateTLSConfig_certificates default_cert c ep config :
  isEmpty c = false -> Certificates_CreateTLSConfig default_cert c ep = Ok config ->
  2 * length config <= length c * (length c + 1) /\
  (length (loads c) = length c -> NoDup (map certKey (loads c)) -> 2 * length config = length c * (length c + 1)) /\
  forall x, x ∈ config <-> first_for (certKey x) (loads c) = Some x.
Proof using laws.
  unfold Certificates_CreateTLSConfig. intros -> [= <-].
  destruct (config_loop_inv ep c [] ∅ [] (filed_under_nil ep)) as (H1 & H2 & H3 & H4). simpl in *. split_and!.
  - lia.
  - intros Hl Hn. specialize (H2 Hl Hn). lia.
  - intros x. split; [intros [?%elem_of_nil|?]%H3; done|]. intros H. apply H4. by right.
Qed.

End Facts.

(** Pairs given as contents, which are their own certificates, each for the
    domain it spells. *)
Definition inline_files : TLSFiles string := {|
  file_exists _ := false;
  ReadFile f := Err f;
  LoadX509KeyPair c _ := Ok c;
  X509KeyPair c _ := Ok c |}.
Definition inline_leaf : Leaf string := fun c => (c, []).

Lemma CreateTLSConfig_certificates_witness :
  exists config, Certificates_CreateTLSConfig (files := inline_files) (leaves := inline_leaf) (order := forward_order)
      (Err "none") [("a.com", "k"); ("b.com", "k")] "https" = Ok config /\ 2 * length config = 6.
Proof.
  eexists. split; [vm_compute; reflexivity|].
  apply (CreateTLSConfig_certificates (files := inline_files) (leaves := inline_leaf) (order := forward_order)
    (Err "none") [("a.com", "k"); ("b.com", "k")] "https"); [reflexivity|vm_compute; reflexivity|reflexivity|].
  vm_compute. apply (bool_decide_unpack _). vm_compute. exact I.
Defined.
