(* ===== verification/GlobalConfig.v ===== *)
(** * [configuration/configuration.go]: the static configuration made effective

    What the file and the flags leave out is filled in and what is deprecated is
    translated, before the server reads it.  The fields are those these
    functions or the server read, the providers and the settings of the server
    in records of their own.  The singleton of the ACME provider is passed
    along; a missing environment variable panics. *)
From S2P Require Import Prelude GoStrings GoStringsFacts Types EntryPoints OsioClient OsioProvider OsioAuth.
From S2P Require Wiring.

(** ** Data *)

Definition DefaultInternalEntryPointName : string := "traefik".
Definition DefaultAcmeCAServer : string := "https://acme-v02.api.letsencrypt.org/directory".

(** Durations are nanoseconds. *)
Definition second : Z := 1000000000.
Definition DefaultHealthCheckInterval : Z := 30 * second.
Definition DefaultDialTimeout : Z := 30 * second.
Definition DefaultGraceTimeout : Z := 10 * second.

Record LifeCycle := mkLifeCycle { RequestAcceptGraceTimeout : Z; GraceTimeOut : Z }.
Record ForwardingTimeouts := mkForwardingTimeouts { DialTimeout : Z; ResponseHeaderTimeout : Z }.
Record Prometheus := mkPrometheus { pr_EntryPoint : string }.

(** The other exporters of [Metrics] are there or not. *)
Record Metrics := mkMetrics {
  me_Prometheus : option Prometheus;
  me_Datadog : bool;
  me_StatsD : bool;
  me_InfluxDB : bool;
}.
Record Statistics := mkStatistics { RecentErrors : Z }.
Record APIHandler := mkAPI {
  api_EntryPoint : string;
  Dashboard : bool;
  api_Debug : bool;
  api_Statistics : option Statistics;
}.
Record PingHandler := mkPing { ping_EntryPoint : string }.
Record WebCompatibility := mkWeb {
  web_Address : string;
  web_CertFile : string;
  web_KeyFile : string;
  web_Statistics : option Statistics;
  web_Metrics : option Metrics;
  web_Path : string;
  web_Auth : option Auth;
  web_Debug : bool;
}.

(** The file name and the version of a provider's template. *)
Record Template := mkTemplate { Filename : string; TemplateVersion : Z }.
Record Eureka := mkEureka { Delay : Z; eu_RefreshSeconds : Z }.
Record RancherAPI := mkRancherAPI { Endpoint : string; AccessKey : string; SecretKey : string }.
Record Rancher := mkRancher {
  ra_Template : Template;
  ra_Legacy : RancherAPI;
  ra_API : option RancherAPI;
  ra_MetadataPrefix : option string;
}.

Record Providers := mkProviders {
  Docker : option Template;
  Marathon : option Template;
  Mesos : option Template;
  ECS : option Template;
  ConsulCatalog : option Template;
  pv_Eureka : option Eureka;
  pv_Rancher : option Rancher;
  (** [File] by its [TraefikFile], [Rest] by its entry point. *)
  File : option string;
  Rest : option string;
  Consul : bool;
  Etcd : bool;
  Zookeeper : bool;
  Boltdb : bool;
  Kubernetes : bool;
  DynamoDB : bool;
  ServiceFabric : bool;
  OSIO : option Provider;
}.

Record DNSChallenge := mkDNSChallenge { dns_Provider : string; DelayBeforeCheck : Z }.
Record HTTPChallenge := mkHTTPChallenge { http_EntryPoint : string }.
Record ACME := mkACME {
  ac_Email : string;
  ac_Domains : list (string * list string);
  ac_Storage : string;
  ac_StorageFile : string;
  ac_OnDemand : bool;
  ac_OnHostRule : bool;
  ac_CAServer : string;
  ac_EntryPoint : string;
  ac_DNSChallenge : option DNSChallenge;
  ac_HTTPChallenge : option HTTPChallenge;
  ac_DNSProvider : string;
  ac_DelayDontCheckDNS : Z;
  ac_ACMELogging : bool;
}.

(** [acmeprovider.Configuration] *)
Record ACMEConfiguration := mkACMEConfiguration {
  ap_Email : string;
  ap_ACMELogging : bool;
  ap_CAServer : string;
  ap_Storage : string;
  ap_EntryPoint : string;
  ap_OnHostRule : bool;
  ap_OnDemand : bool;
  ap_DNSChallenge : option DNSChallenge;
  ap_HTTPChallenge : option HTTPChallenge;
  ap_Domains : list (string * list string);
}.

(** [Jaeger] and [Zipkin] by their URLs; the defaults are those of the code. *)
Record Tracing := mkTracing { tr_Backend : string; tr_Jaeger : option string; tr_Zipkin : option string }.

(** The settings the server reads as they are. *)
Record ServerSettings := mkServerSettings {
  ProvidersThrottleDuration : Z;
  MaxIdleConnsPerHost : Z;
  gs_IdleTimeout : Z;
  gs_InsecureSkipVerify : bool;
  gs_RootCAs : list string;
  Retry : option Z;
  gs_HealthCheck : option Z;
  gs_RespondingTimeouts : option Wiring.RespondingTimeouts;
  gs_ForwardingTimeouts : option ForwardingTimeouts;
}.

Record GlobalConfiguration := mkGlobal {
  gc_EntryPoints : EntryPointsMap;
  gc_DefaultEntryPoints : list string;
  gc_Debug : bool;
  gc_LifeCycle : option LifeCycle;
  gc_GraceTimeOut : Z;
  gc_Web : option WebCompatibility;
  gc_API : option APIHandler;
  gc_Ping : option PingHandler;
  gc_Metrics : option Metrics;
  gc_Tracing : option Tracing;
  gc_Cluster : bool;
  gc_ACME : option ACME;
  gc_Providers : Providers;
  gc_Settings : ServerSettings;
}.

(** ** The entry points *)

Definition plain_entry_point (address : string) (fh : option ForwardedHeaders) : EntryPoint :=
  mkEntryPoint address None None None [] None false None fh.
Definition insecure_forwarding : ForwardedHeaders := mkForwardedHeaders true [].

Definition set_EntryPoints (eps : EntryPointsMap) (gc : GlobalConfiguration) : GlobalConfiguration :=
  mkGlobal eps (gc_DefaultEntryPoints gc) (gc_Debug gc) (gc_LifeCycle gc) (gc_GraceTimeOut gc) (gc_Web gc) (gc_API gc)
    (gc_Ping gc) (gc_Metrics gc) (gc_Tracing gc) (gc_Cluster gc) (gc_ACME gc) (gc_Providers gc) (gc_Settings gc).

Definition default_entry_points (gc : GlobalConfiguration) : GlobalConfiguration :=
  if bool_decide (gc_EntryPoints gc = ∅) then
    mkGlobal {["http" := plain_entry_point ":80" (Some insecure_forwarding)]} ["http"] (gc_Debug gc) (gc_LifeCycle gc)
      (gc_GraceTimeOut gc) (gc_Web gc) (gc_API gc) (gc_Ping gc) (gc_Metrics gc) (gc_Tracing gc) (gc_Cluster gc)
      (gc_ACME gc) (gc_Providers gc) (gc_Settings gc)
  else gc.

(** The deprecated web provider becomes an entry point with an API and a ping
    handler, unless one of the options that replace it is set. *)
Definition web_entry_point (web : WebCompatibility) : EntryPoint :=
  mkEntryPoint (web_Address web)
    (if nonempty (web_CertFile web) then Some (new_tls [(web_CertFile web, web_KeyFile web)]) else None)
    None (web_Auth web) [] None false None None.

Definition handleWebDeprecation (gc : GlobalConfiguration) : GlobalConfiguration :=
  match gc_Web gc with
  | None => gc
  | Some web =>
      match gc_API gc, gc_Metrics gc, gc_Ping gc, Rest (gc_Providers gc) with
      | None, None, None, None =>
          mkGlobal (<[DefaultInternalEntryPointName := web_entry_point web]> (gc_EntryPoints gc)) (gc_DefaultEntryPoints gc)
            (gc_Debug gc || web_Debug web) (gc_LifeCycle gc) (gc_GraceTimeOut gc) (gc_Web gc)
            (Some (mkAPI DefaultInternalEntryPointName true false (web_Statistics web)))
            (Some (mkPing DefaultInternalEntryPointName)) (web_Metrics web) (gc_Tracing gc) (gc_Cluster gc) (gc_ACME gc)
            (gc_Providers gc) (gc_Settings gc)
      | _, _, _, _ => gc
      end
  end.

Definition uses_internal (gc : GlobalConfiguration) : bool :=
  match gc_API gc with Some a => bool_decide (api_EntryPoint a = DefaultInternalEntryPointName) | None => false end ||
  match gc_Ping gc with Some p => bool_decide (ping_EntryPoint p = DefaultInternalEntryPointName) | None => false end ||
  match gc_Metrics gc with
  | Some m => match me_Prometheus m with
              | Some p => bool_decide (pr_EntryPoint p = DefaultInternalEntryPointName) | None => false end
  | None => false
  end ||
  bool_decide (Rest (gc_Providers gc) = Some DefaultInternalEntryPointName).

Definition internal_entry_point (gc : GlobalConfiguration) : GlobalConfiguration :=
  if uses_internal gc && bool_decide (gc_EntryPoints gc !! DefaultInternalEntryPointName = None) then
    set_EntryPoints (<[DefaultInternalEntryPointName := plain_entry_point ":8080" None]> (gc_EntryPoints gc)) gc
  else gc.

Definition complete_entry_point (ep : EntryPoint) : EntryPoint :=
  let fh := match ep_ForwardedHeaders ep with None => Some insecure_forwarding | fh => fh end in
  let '(range, wl) :=
    match ep_WhitelistSourceRange ep, ep_WhiteList ep with
    | r :: rs, None => ([], Some (mkWhiteList (r :: rs) false))
    | range, wl => (range, wl)
    end in
  mkEntryPoint (ep_Address ep) (ep_TLS ep) (ep_Redirect ep) (ep_Auth ep) range wl (Compress ep) (ep_ProxyProtocol ep) fh.

(** ** Lifecycle, providers, tracing *)

Definition set_life_cycle (gc : GlobalConfiguration) : LifeCycle :=
  let lc := default (mkLifeCycle 0 0) (gc_LifeCycle gc) in
  if (0 <? gc_GraceTimeOut gc)%Z then mkLifeCycle (RequestAcceptGraceTimeout lc) (gc_GraceTimeOut gc) else lc.

Definition template_version (t : Template) : Template :=
  mkTemplate (Filename t) (if nonempty (Filename t) && negb (TemplateVersion t =? 2)%Z then 1 else 2).

Definition set_eureka (e : Eureka) : Eureka :=
  if (Delay e =? 0)%Z then e else mkEureka (Delay e) (Delay e).

Definition set_rancher (r : Rancher) : Rancher :=
  let legacy := ra_Legacy r in
  mkRancher (template_version (ra_Template r)) legacy
    (if nonempty (AccessKey legacy) || nonempty (Endpoint legacy) || nonempty (SecretKey legacy) then
       match ra_API r with None => Some legacy | given => given end
     else ra_API r)
    (match ra_MetadataPrefix r with Some "" => Some "latest" | p => p end).

Definition set_providers (configFile : string) (p : Providers) : Providers :=
  mkProviders (template_version <$> Docker p) (template_version <$> Marathon p) (template_version <$> Mesos p)
    (template_version <$> ECS p) (template_version <$> ConsulCatalog p) (set_eureka <$> pv_Eureka p)
    (set_rancher <$> pv_Rancher p) (match File p with Some _ => Some configFile | None => None end) (Rest p)
    (Consul p) (Etcd p) (Zookeeper p) (Boltdb p) (Kubernetes p) (DynamoDB p) (ServiceFabric p) (OSIO p).

Definition set_api_debug (debug : bool) (a : APIHandler) : APIHandler :=
  mkAPI (api_EntryPoint a) (Dashboard a) debug (api_Statistics a).

Definition set_web_path (w : WebCompatibility) : WebCompatibility :=
  let path := if negb (nonempty (web_Path w)) || negb (has_suffix (web_Path w) "/") then web_Path w +:+ "/" else web_Path w in
  mkWeb (web_Address w) (web_CertFile w) (web_KeyFile w) (web_Statistics w) (web_Metrics w) path (web_Auth w) (web_Debug w).

Definition initTracing (t : Tracing) : Tracing :=
  if bool_decide (tr_Backend t = "jaeger") then
    mkTracing (tr_Backend t) (match tr_Jaeger t with None => Some "http://localhost:5778/sampling" | j => j end) None
  else if bool_decide (tr_Backend t = "zipkin") then
    mkTracing (tr_Backend t) None (match tr_Zipkin t with None => Some "http://localhost:9411/api/v1/spans" | z => z end)
  else t.

(** ** ACME and OSIO *)

(** [strings.Replace(s, old, new, 1)] for a non-empty [old]. *)
Definition replace_first (s old new : string) : string :=
  match cut s old with Some (before, after) => before +:+ new +:+ after | None => s end.

Definition getSafeACMECAServer (caServerSrc : string) : string :=
  if bool_decide (caServerSrc = "") then DefaultAcmeCAServer
  else if has_prefix caServerSrc "https://acme-v01.api.letsencrypt.org" then replace_first caServerSrc "v01" "v02"
  else if has_prefix caServerSrc "https://acme-staging.api.letsencrypt.org" then
    replace_first caServerSrc "https://acme-staging.api.letsencrypt.org" "https://acme-staging-v02.api.letsencrypt.org"
  else caServerSrc.

Definition set_acme (a : ACME) : ACME :=
  let http := match ac_DNSChallenge a with Some _ => None | None => ac_HTTPChallenge a end in
  let storage := if nonempty (ac_StorageFile a) && negb (nonempty (ac_Storage a)) then ac_StorageFile a else ac_Storage a in
  let dns := if nonempty (ac_DNSProvider a) then Some (mkDNSChallenge (ac_DNSProvider a) (ac_DelayDontCheckDNS a))
             else ac_DNSChallenge a in
  mkACME (ac_Email a) (ac_Domains a) storage (ac_StorageFile a) (ac_OnDemand a) (ac_OnHostRule a)
    (getSafeACMECAServer (ac_CAServer a)) (ac_EntryPoint a) dns http (ac_DNSProvider a) (ac_DelayDontCheckDNS a)
    (ac_ACMELogging a).

Definition provider_acme (a : ACME) : ACMEConfiguration :=
  mkACMEConfiguration (ac_Email a) (ac_ACMELogging a) (ac_CAServer a) (ac_Storage a) (ac_EntryPoint a) (ac_OnHostRule a)
    (ac_OnDemand a) (ac_DNSChallenge a) (ac_HTTPChallenge a) (ac_Domains a).

(** The ACME part of [initACMEProvider]: without a cluster the configuration
    moves to the ACME provider. *)
Definition init_acme (cluster : bool) (acme : option ACME) (singleton : option ACMEConfiguration) :
    option ACME * option ACMEConfiguration :=
  match acme with
  | None => (None, singleton)
  | Some a => if cluster then (Some (set_acme a), singleton) else (None, Some (provider_acme (set_acme a)))
  end.

Definition set_URLs (tokenURL clustersURL : string) (p : Provider) : Provider :=
  mkProvider (RefreshSeconds p) tokenURL clustersURL (serviceAccountID p) (serviceAccountSecret p) (tokenResp p)
    (defaultBackendURL p).

Definition init_osio (getenv : string -> string) (p : Provider) : outcome Provider :=
  saID ← require_env getenv "SERVICE_ACCOUNT_ID";
  saSecret ← require_env getenv "SERVICE_ACCOUNT_SECRET";
  authURL ← require_env getenv "AUTH_URL";
  mret (set_URLs (authURL +:+ "/token") (authURL +:+ "/clusters")
    (set_serviceAccountSecret saSecret (set_serviceAccountID saID p))).

Definition set_OSIO (o : option Provider) (p : Providers) : Providers :=
  mkProviders (Docker p) (Marathon p) (Mesos p) (ECS p) (ConsulCatalog p) (pv_Eureka p) (pv_Rancher p) (File p) (Rest p)
    (Consul p) (Etcd p) (Zookeeper p) (Boltdb p) (Kubernetes p) (DynamoDB p) (ServiceFabric p) o.

(** [initTracing] comes last, but nothing reads the tracing in between. *)
Definition SetEffectiveConfiguration (getenv : string -> string) (configFile : string) (gc : GlobalConfiguration)
    (singleton : option ACMEConfiguration) : outcome (GlobalConfiguration * option ACMEConfiguration) :=
  let gc := internal_entry_point (handleWebDeprecation (default_entry_points gc)) in
  let '(acme, singleton) := init_acme (gc_Cluster gc) (gc_ACME gc) singleton in
  osio ← match OSIO (gc_Providers gc) with
         | Some p => p' ← init_osio getenv p; mret (Some p')
         | None => mret None
         end;
  mret (mkGlobal (complete_entry_point <$> gc_EntryPoints gc) (gc_DefaultEntryPoints gc) (gc_Debug gc)
    (Some (set_life_cycle gc)) (gc_GraceTimeOut gc) (set_web_path <$> gc_Web gc) (set_api_debug (gc_Debug gc) <$> gc_API gc)
    (gc_Ping gc) (gc_Metrics gc) (initTracing <$> gc_Tracing gc) (gc_Cluster gc) acme
    (set_OSIO osio (set_providers configFile (gc_Providers gc))) (gc_Settings gc), singleton).

(** [ValidateConfiguration]: the message of the fatal log, if any. *)
Definition validate_entry_point (eps : EntryPointsMap) (kind name : string) : option error :=
  match eps !! name with
  | None => Some ("Unknown entrypoint " +:+ name +:+ " for " +:+ kind)
  | Some ep =>
      match ep_TLS ep with
      | None => Some ("Entrypoint " +:+ name +:+ " has no TLS configuration for " +:+ kind)
      | Some _ => None
      end
  end.
Definition ValidateConfiguration (gc : GlobalConfiguration) (singleton : option ACMEConfiguration) : option error :=
  match gc_ACME gc, singleton with
  | Some a, _ => validate_entry_point (gc_EntryPoints gc) "ACME configuration" (ac_EntryPoint a)
  | None, Some a => validate_entry_point (gc_EntryPoints gc) "provider ACME configuration" (ap_EntryPoint a)
  | None, None => None
  end.

(** [DefaultEntryPoints.Set] and [String]: splitting never gives an empty list. *)
Definition DefaultEntryPoints_Set (dep : list string) (value : string) : list string := dep ++ split value ",".
Definition DefaultEntryPoints_String (dep : list string) : string := join dep ",".

(** ** provider_aggregator.go *)

Inductive ProviderKind := PDocker | PMarathon | PFile | PRest | PConsul | PConsulCatalog | PEtcd | PZookeeper | PBoltdb
  | PKubernetes | PMesos | PEureka | PECS | PRancher | PDynamoDB | PServiceFabric | POSIO | PACME.

Definition NewProviderAggregator (p : Providers) (singleton : option ACMEConfiguration) : list ProviderKind :=
  map snd (List.filter fst
    [(bool_decide (is_Some (Docker p)), PDocker); (bool_decide (is_Some (Marathon p)), PMarathon);
     (bool_decide (is_Some (File p)), PFile); (bool_decide (is_Some (Rest p)), PRest); (Consul p, PConsul);
     (bool_decide (is_Some (ConsulCatalog p)), PConsulCatalog); (Etcd p, PEtcd); (Zookeeper p, PZookeeper);
     (Boltdb p, PBoltdb); (Kubernetes p, PKubernetes); (bool_decide (is_Some (Mesos p)), PMesos);
     (bool_decide (is_Some (pv_Eureka p)), PEureka); (bool_decide (is_Some (ECS p)), PECS);
     (bool_decide (is_Some (pv_Rancher p)), PRancher); (DynamoDB p, PDynamoDB); (ServiceFabric p, PServiceFabric);
     (bool_decide (is_Some (OSIO p)), POSIO); (bool_decide (is_Some singleton), PACME)]).

(** ** What the effective configuration guarantees *)

Definition needs_internal (gc : GlobalConfiguration) : Prop :=
  (exists a, gc_API gc = Some a /\ api_EntryPoint a = DefaultInternalEntryPointName) \/
  (exists p, gc_Ping gc = Some p /\ ping_EntryPoint p = DefaultInternalEntryPointName) \/
  (exists m p, gc_Metrics gc = Some m /\ me_Prometheus m = Some p /\ pr_EntryPoint p = DefaultInternalEntryPointName) \/
  Rest (gc_Providers gc) = Some DefaultInternalEntryPointName.

Definition ready_entry_point (ep : EntryPoint) : Prop :=
  is_Some (ep_ForwardedHeaders ep) /\ (ep_WhitelistSourceRange ep <> [] -> is_Some (ep_WhiteList ep)).

(** What the server relies on without testing it. *)
Record ready (gc : GlobalConfiguration) : Prop := {
  ready_entries : gc_EntryPoints gc <> ∅;
  ready_each : map_Forall (fun _ => ready_entry_point) (gc_EntryPoints gc);
  ready_internal : needs_internal gc -> is_Some (gc_EntryPoints gc !! DefaultInternalEntryPointName);
  ready_life_cycle : is_Some (gc_LifeCycle gc);
}.

(** The web provider is translated when none of the options that replace it is
    given. *)
Definition web_translated (gc : GlobalConfiguration) (web : WebCompatibility) : Prop :=
  gc_Web gc = Some web /\ gc_API gc = None /\ gc_Metrics gc = None /\ gc_Ping gc = None /\ Rest (gc_Providers gc) = None.

(** Where an entry point of the effective configuration comes from. *)
Inductive origin (gc : GlobalConfiguration) : string -> EntryPoint -> Prop :=
  | origin_given name ep : gc_EntryPoints gc !! name = Some ep ->
      (name = DefaultInternalEntryPointName -> forall web, ~ web_translated gc web) -> origin gc name ep
  | origin_default : gc_EntryPoints gc = ∅ ->
      origin gc "http" (plain_entry_point ":80" (Some insecure_forwarding))
  | origin_web web : web_translated gc web -> origin gc DefaultInternalEntryPointName (web_entry_point web)
  | origin_internal : gc_EntryPoints gc !! DefaultInternalEntryPointName = None -> (forall web, ~ web_translated gc web) ->
      needs_internal gc -> origin gc DefaultInternalEntryPointName (plain_entry_point ":8080" None).

(** The entry point [ep] with its missing parts: the addresses its white list
    lets through are those of its white list or, when it has none, of the
    deprecated source range, which is then gone. *)
Record completed (ep ep' : EntryPoint) : Prop := {
  comp_Address : ep_Address ep' = ep_Address ep;
  comp_TLS : ep_TLS ep' = ep_TLS ep;
  comp_Redirect : ep_Redirect ep' = ep_Redirect ep;
  comp_Auth : ep_Auth ep' = ep_Auth ep;
  comp_Compress : Compress ep' = Compress ep;
  comp_ProxyProtocol : ep_ProxyProtocol ep' = ep_ProxyProtocol ep;
  comp_ForwardedHeaders : ep_ForwardedHeaders ep' = Some (default insecure_forwarding (ep_ForwardedHeaders ep));
  comp_given_list wl : ep_WhiteList ep = Some wl ->
    ep_WhiteList ep' = Some wl /\ ep_WhitelistSourceRange ep' = ep_WhitelistSourceRange ep;
  comp_source_range : ep_WhiteList ep = None -> ep_WhitelistSourceRange ep <> [] ->
    ep_WhiteList ep' = Some (mkWhiteList (ep_WhitelistSourceRange ep) false) /\ ep_WhitelistSourceRange ep' = [];
  comp_no_list : ep_WhiteList ep = None -> ep_WhitelistSourceRange ep = [] ->
    ep_WhiteList ep' = None /\ ep_WhitelistSourceRange ep' = [];
}.

(** The ACME configuration with its deprecated options translated. *)
Record acme_translated (a a' : ACME) : Prop := {
  acme_same : ac_Email a' = ac_Email a /\ ac_Domains a' = ac_Domains a /\ ac_OnDemand a' = ac_OnDemand a /\
    ac_OnHostRule a' = ac_OnHostRule a /\ ac_EntryPoint a' = ac_EntryPoint a /\ ac_ACMELogging a' = ac_ACMELogging a;
  acme_storage : ac_Storage a' = if bool_decide (ac_Storage a = "") then ac_StorageFile a else ac_Storage a;
  acme_no_v1 : ac_CAServer a' <> "" /\ has_prefix (ac_CAServer a') "https://acme-v01.api.letsencrypt.org" = false /\
    has_prefix (ac_CAServer a') "https://acme-staging.api.letsencrypt.org" = false;
  acme_server : ac_CAServer a <> "" -> has_prefix (ac_CAServer a) "https://acme-v01.api.letsencrypt.org" = false ->
    has_prefix (ac_CAServer a) "https://acme-staging.api.letsencrypt.org" = false -> ac_CAServer a' = ac_CAServer a;
  acme_dns : ac_DNSChallenge a' = if bool_decide (ac_DNSProvider a = "") then ac_DNSChallenge a
    else Some (mkDNSChallenge (ac_DNSProvider a) (ac_DelayDontCheckDNS a));
  acme_http : ac_HTTPChallenge a' = if bool_decide (is_Some (ac_DNSChallenge a)) then None else ac_HTTPChallenge a;
}.

(** The provider's configuration that says what an ACME configuration says. *)
Record same_acme (a : ACME) (c : ACMEConfiguration) : Prop := {
  same_Email : ap_Email c = ac_Email a;
  same_ACMELogging : ap_ACMELogging c = ac_ACMELogging a;
  same_CAServer : ap_CAServer c = ac_CAServer a;
  same_Storage : ap_Storage c = ac_Storage a;
  same_EntryPoint : ap_EntryPoint c = ac_EntryPoint a;
  same_OnHostRule : ap_OnHostRule c = ac_OnHostRule a;
  same_OnDemand : ap_OnDemand c = ac_OnDemand a;
  same_DNSChallenge : ap_DNSChallenge c = ac_DNSChallenge a;
  same_HTTPChallenge : ap_HTTPChallenge c = ac_HTTPChallenge a;
  same_Domains : ap_Domains c = ac_Domains a;
}.

(** What making [gc] effective gives, beside a configuration that is ready. *)
Record made_effective (getenv : string -> string) (gc : GlobalConfiguration) (singleton : option ACMEConfiguration)
    (gc' : GlobalConfiguration) (singleton' : option ACMEConfiguration) : Prop := {
  eff_entries name ep' : gc_EntryPoints gc' !! name = Some ep' <-> exists ep, origin gc name ep /\ completed ep ep';
  eff_life_cycle : exists lc, gc_LifeCycle gc' = Some lc /\
    GraceTimeOut lc = (if 0 <? gc_GraceTimeOut gc then gc_GraceTimeOut gc else from_option GraceTimeOut 0 (gc_LifeCycle gc))%Z /\
    RequestAcceptGraceTimeout lc = from_option RequestAcceptGraceTimeout 0%Z (gc_LifeCycle gc);
  eff_no_acme : gc_ACME gc = None -> gc_ACME gc' = None /\ singleton' = singleton;
  eff_acme_cluster a : gc_ACME gc = Some a -> gc_Cluster gc = true ->
    singleton' = singleton /\ exists a', gc_ACME gc' = Some a' /\ acme_translated a a';
  eff_acme_moved a : gc_ACME gc = Some a -> gc_Cluster gc = false ->
    gc_ACME gc' = None /\ exists a' c, singleton' = Some c /\ same_acme a' c /\ acme_translated a a';
  eff_no_osio : OSIO (gc_Providers gc) = None -> OSIO (gc_Providers gc') = None;
  eff_osio p : OSIO (gc_Providers gc) = Some p -> exists p', OSIO (gc_Providers gc') = Some p' /\
    TokenURL p' = getenv "AUTH_URL" +:+ "/token" /\ ClustersURL p' = getenv "AUTH_URL" +:+ "/clusters" /\
    serviceAccountID p' = getenv "SERVICE_ACCOUNT_ID" /\ serviceAccountSecret p' = getenv "SERVICE_ACCOUNT_SECRET" /\
    Forall (fun name => getenv name <> "") ["SERVICE_ACCOUNT_ID"; "SERVICE_ACCOUNT_SECRET"; "AUTH_URL"];
}.

Lemma complete_entry_point_ready ep : ready_entry_point (complete_entry_point ep).
Proof.
  unfold ready_entry_point, complete_entry_point.
  destruct ep as [addr tls rd au [|r rs] [wl|] co pp [fh|]]; simpl; split; intros; try done; eauto.
Qed.

Lemma uses_internal_spec gc : uses_internal gc = true <-> needs_internal gc.
Proof.
  unfold uses_internal, needs_internal. rewrite !orb_true_iff, bool_decide_eq_true. split.
  - intros [[[H|H]|H]|H]; repeat case_match; try done; bool_simpl; eauto 10.
  - intros [(a & -> & E)|[(p & -> & E)|[(m & p & -> & Hp & E)|E]]]; rewrite ?Hp, ?E, ?bool_decide_eq_true_2 by done; auto.
Qed.

Lemma default_entry_points_nonempty gc : gc_EntryPoints (default_entry_points gc) <> ∅.
Proof. unfold default_entry_points. case_bool_decide; [|done]. simpl. apply insert_non_empty || done. Qed.

Lemma handleWebDeprecation_nonempty gc : gc_EntryPoints gc <> ∅ -> gc_EntryPoints (handleWebDeprecation gc) <> ∅.
Proof. unfold handleWebDeprecation. repeat case_match; try done. intros _. simpl. apply insert_non_empty. Qed.

Lemma internal_entry_point_ready gc :
  gc_EntryPoints gc <> ∅ ->
  gc_EntryPoints (internal_entry_point gc) <> ∅ /\
  (needs_internal (internal_entry_point gc) -> is_Some (gc_EntryPoints (internal_entry_point gc) !! DefaultInternalEntryPointName)).
Proof.
  intros Hne. unfold internal_entry_point. destruct (uses_internal gc) eqn:Eu; simpl.
  - case_bool_decide as El; simpl.
    + split; [apply insert_non_empty|]. intros _. by rewrite lookup_insert_eq.
    + split; [done|]. intros _. destruct (gc_EntryPoints gc !! _); [done|by destruct El].
  - split; [done|]. intros H%uses_internal_spec. congruence.
Qed.

Lemma require_env_Ret getenv name v : require_env getenv name = Ret v -> v = getenv name /\ getenv name <> "".
Proof. unfold require_env. case_bool_decide; [done|]. by intros [= <-]. Qed.

(** The URLs the OSIO provider polls are made of the environment's. *)
Lemma init_osio_urls getenv p p' :
  init_osio getenv p = Ret p' ->
  TokenURL p' = getenv "AUTH_URL" +:+ "/token" /\ ClustersURL p' = getenv "AUTH_URL" +:+ "/clusters" /\
  serviceAccountID p' = getenv "SERVICE_ACCOUNT_ID" /\ serviceAccountSecret p' = getenv "SERVICE_ACCOUNT_SECRET" /\
  Forall (fun name => getenv name <> "") ["SERVICE_ACCOUNT_ID"; "SERVICE_ACCOUNT_SECRET"; "AUTH_URL"].
Proof.
  unfold init_osio. destruct (require_env getenv "SERVICE_ACCOUNT_ID") as [i|e|e] eqn:E1; simpl; try done.
  destruct (require_env getenv "SERVICE_ACCOUNT_SECRET") as [s|e|e] eqn:E2; simpl; try done.
  destruct (require_env getenv "AUTH_URL") as [u|e|e] eqn:E3; simpl; try done.
  apply require_env_Ret in E1 as [-> ?], E2 as [-> ?], E3 as [-> ?]. intros [= <-].
  split_and!; try done. rewrite !Forall_cons, Forall_nil. by split_and!.
Qed.

Lemma SetEffectiveConfiguration_eq getenv configFile gc singleton gc' singleton' :
  SetEffectiveConfiguration getenv configFile gc singleton = Ret (gc', singleton') ->
  let gc1 := internal_entry_point (handleWebDeprecation (default_entry_points gc)) in
  gc_EntryPoints gc' = complete_entry_point <$> gc_EntryPoints gc1 /\
  gc_LifeCycle gc' = Some (set_life_cycle gc1) /\ gc_API gc' = set_api_debug (gc_Debug gc1) <$> gc_API gc1 /\
  gc_Ping gc' = gc_Ping gc1 /\ gc_Metrics gc' = gc_Metrics gc1 /\ Rest (gc_Providers gc') = Rest (gc_Providers gc1) /\
  (gc_ACME gc', singleton') = init_acme (gc_Cluster gc1) (gc_ACME gc1) singleton /\
  match OSIO (gc_Providers gc1) with
  | Some p => exists p', init_osio getenv p = Ret p' /\ OSIO (gc_Providers gc') = Some p'
  | None => OSIO (gc_Providers gc') = None
  end.
Proof.
  cbv zeta. unfold SetEffectiveConfiguration. set (gc1 := internal_entry_point _). destruct (init_acme _ _ _) as [acme single].
  destruct (OSIO (gc_Providers gc1)) as [p|]; simpl; [|by intros [= <- <-]].
  destruct (init_osio getenv p) as [p'|e|e]; simpl; [|done|done]. intros [= <- <-]. split_and!; try done. by exists p'.
Qed.

(** The parts the first steps leave alone. *)
Definition left_alone (gc : GlobalConfiguration) :=
  (gc_LifeCycle gc, gc_GraceTimeOut gc, gc_Cluster gc, gc_ACME gc, gc_Providers gc).

Lemma first_steps_keep gc :
  left_alone (internal_entry_point (handleWebDeprecation (default_entry_points gc))) = left_alone gc.
Proof.
  transitivity (left_alone (handleWebDeprecation (default_entry_points gc))).
  { unfold internal_entry_point. by destruct (_ && _). }
  transitivity (left_alone (default_entry_points gc)); [|unfold default_entry_points; by case_bool_decide].
  generalize (default_entry_points gc). intros gc1. unfold handleWebDeprecation. by repeat case_match.
Qed.

Lemma effective_ready getenv configFile gc singleton gc' singleton' :
  SetEffectiveConfiguration getenv configFile gc singleton = Ret (gc', singleton') -> ready gc'.
Proof.
  intros (He & Hl & Ha & Hp & Hm & Hr & _)%SetEffectiveConfiguration_eq. cbv zeta in *.
  destruct (internal_entry_point_ready (handleWebDeprecation (default_entry_points gc))) as [Hne Hint].
  { apply handleWebDeprecation_nonempty, default_entry_points_nonempty. }
  split; rewrite ?He, ?Hl.
  - intros E. apply Hne. by apply fmap_empty_inv in E.
  - apply map_Forall_fmap. intros name ep _. apply complete_entry_point_ready.
  - intros Hn. rewrite lookup_fmap, fmap_is_Some. apply Hint. revert Hn. unfold needs_internal.
    rewrite Ha, Hp, Hm, Hr. intros [(a & Hx & E)|[?|[?|?]]]; [|by auto..]. left.
    apply fmap_Some in Hx as (a1 & Hx & ->). by exists a1.
  - by eexists.
Qed.

Lemma complete_entry_point_completed ep ep' : completed ep ep' <-> ep' = complete_entry_point ep.
Proof.
  split.
  - intros [Ha Ht Hr Hau Hc Hp Hf Hg Hs Hn]. destruct ep as [? ? ? ? range wl ? ? fh], ep'; simpl in *; subst.
    unfold complete_entry_point. simpl. destruct wl as [wl|].
    + destruct (Hg wl) as [-> ->]; [done|]. by destruct range, fh.
    + destruct range as [|r rs]; [destruct Hn as [-> ->]|destruct Hs as [-> ->]]; try done; by destruct fh.
  - intros ->. destruct ep as [? ? ? ? [|r rs] [wl|] ? ? [fh|]]; split; simpl; naive_solver.
Qed.

(** ** The entry points before they are completed *)

Lemma default_entries gc name ep :
  gc_EntryPoints (default_entry_points gc) !! name = Some ep <->
  gc_EntryPoints gc !! name = Some ep \/
  gc_EntryPoints gc = ∅ /\ name = "http" /\ ep = plain_entry_point ":80" (Some insecure_forwarding).
Proof.
  unfold default_entry_points. case_bool_decide as E; [|naive_solver]. simpl.
  rewrite E, lookup_singleton_Some, lookup_empty. naive_solver.
Qed.

Lemma default_translated gc web : web_translated (default_entry_points gc) web <-> web_translated gc web.
Proof. unfold default_entry_points. by case_bool_decide. Qed.

Lemma default_needs gc : needs_internal (default_entry_points gc) <-> needs_internal gc.
Proof. unfold default_entry_points. by case_bool_decide. Qed.

Lemma web_cases gc :
  (exists web, web_translated gc web /\
     gc_EntryPoints (handleWebDeprecation gc) = <[DefaultInternalEntryPointName := web_entry_point web]> (gc_EntryPoints gc)) \/
  (forall web, ~ web_translated gc web) /\ handleWebDeprecation gc = gc.
Proof.
  unfold web_translated, handleWebDeprecation. destruct (gc_Web gc) as [web|]; [|right; naive_solver].
  destruct (gc_API gc), (gc_Metrics gc), (gc_Ping gc), (Rest (gc_Providers gc)); try (right; naive_solver).
  left. by exists web.
Qed.

Lemma internal_entries gc name ep :
  gc_EntryPoints (internal_entry_point gc) !! name = Some ep <->
  gc_EntryPoints gc !! name = Some ep \/
  name = DefaultInternalEntryPointName /\ gc_EntryPoints gc !! DefaultInternalEntryPointName = None /\
    needs_internal gc /\ ep = plain_entry_point ":8080" None.
Proof.
  unfold internal_entry_point. rewrite <-uses_internal_spec.
  destruct (uses_internal gc); simpl; [|naive_solver]. case_bool_decide as E; [|naive_solver]. simpl.
  rewrite lookup_insert_Some. split; [naive_solver|]. intros [H|(-> & _ & _ & ->)]; [|by left].
  right. split; [|done]. intros <-. congruence.
Qed.

Lemma first_steps_entries gc name ep :
  gc_EntryPoints (internal_entry_point (handleWebDeprecation (default_entry_points gc))) !! name = Some ep <-> origin gc name ep.
Proof.
  rewrite internal_entries.
  destruct (web_cases (default_entry_points gc)) as [(web & Hw & ->)|[Hn ->]].
  - apply (proj1 (default_translated _ _)) in Hw. rewrite lookup_insert_eq, lookup_insert_Some, default_entries. split.
    + intros [[[<- <-]|[Hne [H|(E & -> & ->)]]]|(_ & [=] & _)]; [by apply origin_web|by constructor|by constructor].
    + intros [name' ep' H Ho|E|web' Hw'|? Ho]; left.
      * right. split; [|by left]. intros <-. by eapply (Ho eq_refl).
      * right. split; [done|]. right. done.
      * left. split; [done|]. destruct Hw as [E _], Hw' as [E' _]. congruence.
      * by destruct (Ho web).
  - assert (forall web, ~ web_translated gc web) as Ho by (intros web Hw; by eapply Hn, (proj2 (default_translated _ _))).
    rewrite default_needs, default_entries. split.
    + intros [[H|(E & -> & ->)]|(-> & H & Hi & ->)]; [by constructor|by constructor|].
      apply origin_internal; [|done|done]. apply eq_None_not_Some. intros [ep' He].
      rewrite (proj2 (default_entries _ _ _)) in H by eauto. done.
    + intros [name' ep' H _|E|web' Hw'|H _ Hi]; [by left; left|by left; right|by destruct (Ho web')|].
      right. split_and!; try done. apply eq_None_not_Some. intros [ep' [He|(_ & [=] & _)]%default_entries]. congruence.
Qed.

(** ** ACME *)

Lemma getSafeACMECAServer_no_v1 s :
  getSafeACMECAServer s <> "" /\ has_prefix (getSafeACMECAServer s) "https://acme-v01.api.letsencrypt.org" = false /\
  has_prefix (getSafeACMECAServer s) "https://acme-staging.api.letsencrypt.org" = false.
Proof.
  unfold getSafeACMECAServer. case_bool_decide as Hs; [by vm_compute|].
  destruct (has_prefix s "https://acme-v01.api.letsencrypt.org") eqn:E1.
  { apply has_prefix_spec in E1 as [rest ->]. vm_compute. split; [discriminate|by split]. }
  destruct (has_prefix s "https://acme-staging.api.letsencrypt.org") eqn:E2; [|exact (conj Hs (conj E1 E2))].
  apply has_prefix_spec in E2 as [rest ->]. vm_compute. split; [discriminate|by split].
Qed.

Lemma set_acme_translated a : acme_translated a (set_acme a).
Proof.
  split; simpl.
  - done.
  - unfold nonempty. repeat case_bool_decide; simpl; congruence.
  - apply getSafeACMECAServer_no_v1.
  - intros H1 H2 H3. unfold getSafeACMECAServer. by rewrite bool_decide_eq_false_2, H2, H3.
  - unfold nonempty. by case_bool_decide.
  - by destruct (ac_DNSChallenge a).
Qed.

(** C40: the configuration the server starts with is ready: it has entry points,
    each with its forwarded headers and, when it has a source range left, a white
    list; the internal entry point is there when something uses it; the life
    cycle is set.  It says what the given one says: its entry points are exactly
    those given, the default one when none was given, that of a deprecated web
    provider none of whose replacements is given, and the internal one when it is
    used and missing; completing one changes nothing else of it, and turns the
    deprecated source range into a white list of the same addresses unless there
    is a white list.  ACME, with its deprecated options translated, moves to its
    provider unless in a cluster, where it stays; the OSIO provider gets its URLs
    and its credentials from the environment, where they are set. *)
Theorem SetEffectiveConfiguration_ready getenv configFile gc singleton gc' singleton' :
  SetEffectiveConfiguration getenv configFile gc singleton = Ret (gc', singleton') ->
  ready gc' /\ made_effective getenv gc singleton gc' singleton'.
Proof.
  intros H. split; [by eapply effective_ready|]. apply SetEffectiveConfiguration_eq in H.
  pose proof (first_steps_keep gc) as [= Hl Hg Hc Ha Hp]. cbv zeta in *.
  destruct H as (He & Hlc & _ & _ & _ & _ & Hacme & Hosio). rewrite Ha, Hc in Hacme. rewrite Hp in Hosio.
  split.
  - intros name ep'. rewrite He, lookup_fmap, fmap_Some. setoid_rewrite first_steps_entries.
    by setoid_rewrite complete_entry_point_completed.
  - exists (set_life_cycle (internal_entry_point (handleWebDeprecation (default_entry_points gc)))). split; [done|].
    unfold set_life_cycle. rewrite Hg, Hl. by destruct (0 <? gc_GraceTimeOut gc)%Z, (gc_LifeCycle gc).
  - intros E. rewrite E in Hacme. by injection Hacme.
  - intros a E Ecl. rewrite E, Ecl in Hacme. injection Hacme as -> ->. eauto using set_acme_translated.
  - intros a E Ecl. rewrite E, Ecl in Hacme. injection Hacme as -> ->. split; [done|].
    exists (set_acme a). eexists. split; [done|]. split; [by split|apply set_acme_translated].
  - intros E. by rewrite E in Hosio.
  - intros p E. rewrite E in Hosio. destruct Hosio as (p' & Hp' & ->). eauto using init_osio_urls.
Qed.

(** ** Making a configuration effective twice *)

Lemma getSafeACMECAServer_idem s : getSafeACMECAServer (getSafeACMECAServer s) = getSafeACMECAServer s.
Proof.
  unfold getSafeACMECAServer at 2 3. case_bool_decide; [by vm_compute|].
  destruct (has_prefix s "https://acme-v01.api.letsencrypt.org") eqn:E1.
  { apply has_prefix_spec in E1 as [rest ->]. reflexivity. }
  destruct (has_prefix s "https://acme-staging.api.letsencrypt.org") eqn:E2.
  { apply has_prefix_spec in E2 as [rest ->]. reflexivity. }
  unfold getSafeACMECAServer. by rewrite bool_decide_eq_false_2, E1, E2.
Qed.

(** The challenges of a configuration do not depend on the deprecated option
    alone: the case the translation handles once only. *)
Definition challenges_settled (a : ACME) : Prop :=
  ac_DNSProvider a = "" \/ ac_HTTPChallenge a = None \/ is_Some (ac_DNSChallenge a).

Lemma nonempty_true s : s <> "" -> nonempty s = true.
Proof. intros. unfold nonempty. by rewrite bool_decide_eq_false_2. Qed.

Lemma set_acme_idem a : challenges_settled a -> set_acme (set_acme a) = set_acme a.
Proof.
  intros Hs. unfold set_acme. simpl. rewrite getSafeACMECAServer_idem.
  assert ((if nonempty (ac_StorageFile a) && negb (nonempty (if nonempty (ac_StorageFile a) && negb (nonempty (ac_Storage a))
     then ac_StorageFile a else ac_Storage a)) then ac_StorageFile a
     else if nonempty (ac_StorageFile a) && negb (nonempty (ac_Storage a)) then ac_StorageFile a else ac_Storage a) =
    if nonempty (ac_StorageFile a) && negb (nonempty (ac_Storage a)) then ac_StorageFile a else ac_Storage a) as ->
    by (destruct (nonempty (ac_StorageFile a)) eqn:E1, (nonempty (ac_Storage a)) eqn:E2; simpl; rewrite ?E1, ?E2; done).
  destruct (nonempty (ac_DNSProvider a)) eqn:E; simpl; rewrite ?E; [|by destruct (ac_DNSChallenge a)].
  destruct Hs as [H|[H|[d H]]]; [rewrite H in E; done| |]; rewrite H; [by destruct (ac_DNSChallenge a)|done].
Qed.

Lemma template_version_idem t : template_version (template_version t) = template_version t.
Proof.
  unfold template_version. simpl. f_equal. destruct (nonempty (Filename t)); simpl; [|done].
  by destruct (TemplateVersion t =? 2)%Z.
Qed.

Lemma set_eureka_idem e : set_eureka (set_eureka e) = set_eureka e.
Proof. unfold set_eureka. destruct (Delay e =? 0)%Z eqn:E; by rewrite ?E; simpl; rewrite ?E. Qed.

Lemma set_rancher_idem r : set_rancher (set_rancher r) = set_rancher r.
Proof.
  unfold set_rancher. simpl. rewrite template_version_idem. f_equal.
  - destruct (nonempty _ || nonempty _ || nonempty _); [by destruct (ra_API r)|done].
  - by destruct (ra_MetadataPrefix r) as [[]|].
Qed.

Lemma option_fmap_idem {A} (f : A -> A) (o : option A) : (forall a, f (f a) = f a) -> f <$> (f <$> o) = f <$> o.
Proof. intros H. destruct o; simpl; [by rewrite H|done]. Qed.

Lemma set_providers_idem file o p : set_providers file (set_OSIO o (set_providers file p)) = set_OSIO o (set_providers file p).
Proof.
  unfold set_providers, set_OSIO. simpl.
  rewrite !(option_fmap_idem _ _ template_version_idem), (option_fmap_idem _ _ set_eureka_idem),
    (option_fmap_idem _ _ set_rancher_idem). by destruct (File p).
Qed.

Lemma complete_entry_point_idem ep : complete_entry_point (complete_entry_point ep) = complete_entry_point ep.
Proof. by destruct ep as [addr tls rd au [|r rs] [wl|] co pp [fh|]]. Qed.

Lemma set_web_path_idem w : set_web_path (set_web_path w) = set_web_path w.
Proof.
  unfold set_web_path. simpl. f_equal. destruct (negb (nonempty (web_Path w)) || _) eqn:E; [|by rewrite E].
  assert (nonempty (web_Path w +:+ "/") = true) as -> by (apply nonempty_true; by destruct (web_Path w)).
  assert (has_suffix (web_Path w +:+ "/") "/" = true) as -> by (apply has_suffix_spec; by eexists). done.
Qed.

Lemma initTracing_idem t : initTracing (initTracing t) = initTracing t.
Proof.
  unfold initTracing. destruct (bool_decide (tr_Backend t = "jaeger")) eqn:E1; simpl; rewrite ?E1.
  - by destruct (tr_Jaeger t).
  - destruct (bool_decide (tr_Backend t = "zipkin")) eqn:E2; simpl; rewrite ?E1, ?E2; [by destruct (tr_Zipkin t)|done].
Qed.

Lemma init_osio_idem getenv p p' : init_osio getenv p = Ret p' -> init_osio getenv p' = Ret p'.
Proof.
  unfold init_osio. destruct (require_env getenv "SERVICE_ACCOUNT_ID") as [i|e|e]; simpl; try done.
  destruct (require_env getenv "SERVICE_ACCOUNT_SECRET") as [s|e|e]; simpl; try done.
  destruct (require_env getenv "AUTH_URL") as [u|e|e]; simpl; try done. by intros [= <-].
Qed.

Lemma init_osio_option_idem getenv (o o' : option Provider) :
  match o with Some p => p' ← init_osio getenv p; mret (Some p') | None => mret None end = Ret o' ->
  match o' with Some p => p' ← init_osio getenv p; mret (Some p') | None => mret None end = Ret o'.
Proof.
  destruct o as [p|]; simpl; [|by intros [= <-]]. destruct (init_osio getenv p) as [p'|e|e] eqn:E; simpl; try done.
  intros [= <-]. by rewrite (init_osio_idem _ _ _ E).
Qed.

(** The web provider was translated or is overridden. *)
Definition web_handled (gc : GlobalConfiguration) : Prop :=
  gc_Web gc = None \/ is_Some (gc_API gc) \/ is_Some (gc_Metrics gc) \/ is_Some (gc_Ping gc) \/ is_Some (Rest (gc_Providers gc)).

Lemma handleWebDeprecation_handled gc : web_handled (handleWebDeprecation gc).
Proof.
  unfold handleWebDeprecation, web_handled. destruct (gc_Web gc) eqn:E; [|by left]. right.
  destruct (gc_API gc) eqn:E1; [rewrite E1; eauto|]. destruct (gc_Metrics gc) eqn:E2; [rewrite E2; eauto|].
  destruct (gc_Ping gc) eqn:E3; [rewrite E3; eauto|]. destruct (Rest (gc_Providers gc)) eqn:E4; [rewrite E4; eauto 10|].
  simpl. eauto.
Qed.

Lemma web_handled_fixed gc : web_handled gc -> handleWebDeprecation gc = gc.
Proof.
  unfold handleWebDeprecation. destruct (gc_Web gc) eqn:E; [|done].
  intros [?|[[? ->]|[[? ->]|[[? ->]|[? ->]]]]]; [congruence|done|..]; by repeat case_match.
Qed.

Lemma internal_entry_point_fixed gc :
  (needs_internal gc -> is_Some (gc_EntryPoints gc !! DefaultInternalEntryPointName)) -> internal_entry_point gc = gc.
Proof.
  intros H. unfold internal_entry_point. destruct (uses_internal gc) eqn:E; [|done].
  destruct (H (proj1 (uses_internal_spec gc) E)) as [ep ->]. done.
Qed.

(** Making an effective configuration effective again changes nothing, as
    a restart on a saved configuration does; the deprecated DNS provider of
    ACME next to an HTTP challenge is the exception. *)
Theorem SetEffectiveConfiguration_idempotent getenv configFile gc singleton gc' singleton' :
  (forall a, gc_ACME gc = Some a -> challenges_settled a) ->
  SetEffectiveConfiguration getenv configFile gc singleton = Ret (gc', singleton') ->
  SetEffectiveConfiguration getenv configFile gc' singleton' = Ret (gc', singleton').
Proof.
  intros Hs H. pose proof (effective_ready _ _ _ _ _ _ H) as [Hne _ Hint _]. revert H.
  unfold SetEffectiveConfiguration at 1. set (gc0 := handleWebDeprecation (default_entry_points gc)).
  set (gc1 := internal_entry_point gc0). assert (web_handled gc1) as Hw.
  { pose proof (handleWebDeprecation_handled (default_entry_points gc)) as Hw. fold gc0 in Hw. unfold gc1, internal_entry_point.
    by destruct (_ && _). }
  assert (gc_ACME gc1 = gc_ACME gc) as Ea.
  { unfold gc1, internal_entry_point. transitivity (gc_ACME gc0); [by destruct (_ && _)|]. unfold gc0, handleWebDeprecation.
    transitivity (gc_ACME (default_entry_points gc)); [by repeat case_match|]. unfold default_entry_points. by case_bool_decide. }
  destruct (init_acme (gc_Cluster gc1) (gc_ACME gc1) singleton) as [acme single] eqn:Ei.
  destruct (match OSIO _ with Some p => _ | None => _ end) as [osio|e|e] eqn:Eo; [|done|done].
  intros [= <- <-]. match goal with |- SetEffectiveConfiguration _ _ ?x _ = _ => set (gc' := x) in * end.
  assert (internal_entry_point (handleWebDeprecation (default_entry_points gc')) = gc') as E.
  { assert (default_entry_points gc' = gc') as -> by (unfold default_entry_points; by rewrite bool_decide_eq_false_2).
    rewrite web_handled_fixed; [by apply internal_entry_point_fixed|].
    destruct Hw as [Hw|[[? Hw]|[[? Hw]|[[? Hw]|[? Hw]]]]]; unfold web_handled, gc'; simpl; rewrite Hw; simpl; eauto 10. }
  unfold SetEffectiveConfiguration. rewrite E. unfold gc' at 1 2 3. simpl.
  assert (init_acme (gc_Cluster gc1) acme single = (acme, single)) as ->.
  { unfold init_acme in Ei. rewrite Ea in Ei. destruct (gc_ACME gc) as [a|]; [|by injection Ei as <- <-].
    destruct (gc_Cluster gc1); injection Ei as <- <-; [|done]. simpl. by rewrite (set_acme_idem a) by auto. }
  rewrite (init_osio_option_idem _ _ _ Eo). unfold gc'. simpl.
  rewrite (option_fmap_idem _ _ set_web_path_idem), (option_fmap_idem _ _ initTracing_idem), set_providers_idem.
  assert (forall m : EntryPointsMap, complete_entry_point <$> (complete_entry_point <$> m) = complete_entry_point <$> m) as ->.
  { intros m. apply map_eq. intros name. rewrite !lookup_fmap. destruct (m !! name); simpl; [|done].
    by rewrite complete_entry_point_idem. }
  assert (forall m, set_api_debug (gc_Debug gc1) <$> (set_api_debug (gc_Debug gc1) <$> m) = set_api_debug (gc_Debug gc1) <$> m)
    as -> by (by intros []).
  match goal with |- context [Some (set_life_cycle ?x)] =>
    assert (set_life_cycle x = set_life_cycle gc1) as -> by (unfold set_life_cycle; simpl; by destruct (0 <? gc_GraceTimeOut gc1)%Z) end.
  done.
Qed.

(** An empty configuration, and one with an OSIO provider. *)
Definition no_providers : Providers :=
  mkProviders None None None None None None None None None false false false false false false false None.
Definition no_settings : ServerSettings := mkServerSettings 0 0 0 false [] None None None None.
Definition empty_global : GlobalConfiguration :=
  mkGlobal ∅ [] false None 0 None None None None None false None no_providers no_settings.
Definition osio_global : GlobalConfiguration :=
  mkGlobal ∅ [] false None 0 None (Some (mkAPI "traefik" true false None)) None None None false None
    (set_OSIO (Some (mkProvider 60 "" "" "" "" None "")) no_providers) no_settings.
Definition sample_env (name : string) : string := "value of " +:+ name.

Definition osio_effective : GlobalConfiguration :=
  match SetEffectiveConfiguration sample_env "traefik.toml" osio_global None with Ret (gc, _) => gc | _ => osio_global end.

(** Entry points with a deprecated source range, and ACME. *)
Definition acme_global : GlobalConfiguration :=
  mkGlobal {["http" := mkEntryPoint ":80" None None None ["10.0.0.0/8"] None false None None]} ["http"] false None 0 None
    None None None None false
    (Some (mkACME "ops@example.com" [] "" "acme.json" false true "" "http" None None "route53" 0 false))
    no_providers no_settings.
Definition acme_effective : GlobalConfiguration * option ACMEConfiguration :=
  match SetEffectiveConfiguration sample_env "traefik.toml" acme_global None with Ret x => x | _ => (acme_global, None) end.

Lemma SetEffectiveConfiguration_ready_witness :
  ready osio_effective /\ made_effective sample_env acme_global None acme_effective.1 acme_effective.2 /\
  gc_ACME acme_effective.1 = None /\ ap_Storage <$> acme_effective.2 = Some "acme.json" /\
  (gc_EntryPoints acme_effective.1 !! "http" ≫= ep_WhiteList) = Some (mkWhiteList ["10.0.0.0/8"] false).
Proof.
  split; [|split].
  - apply (SetEffectiveConfiguration_ready sample_env "traefik.toml" osio_global None osio_effective None). vm_compute. reflexivity.
  - apply (SetEffectiveConfiguration_ready sample_env "traefik.toml" acme_global None). vm_compute. reflexivity.
  - vm_compute. repeat split.
Defined.

Lemma SetEffectiveConfiguration_idempotent_witness :
  SetEffectiveConfiguration sample_env "traefik.toml" osio_effective None = Ret (osio_effective, None).
Proof.
  apply (SetEffectiveConfiguration_idempotent sample_env "traefik.toml" osio_global None).
  - discriminate.
  - vm_compute. reflexivity.
Defined.

(** The deprecated DNS provider is translated after the challenges were found
    not to conflict: both remain. *)
Lemma legacy_dns_keeps_both a h :
  ac_DNSProvider a <> "" -> ac_DNSChallenge a = None -> ac_HTTPChallenge a = Some h ->
  is_Some (ac_DNSChallenge (set_acme a)) /\ ac_HTTPChallenge (set_acme a) = Some h.
Proof. intros Hp Hd Hh. unfold set_acme. simpl. rewrite (nonempty_true _ Hp), Hd, Hh. eauto. Qed.

(** A configuration without entry points gets one, on port 80, and makes it the
    default. *)
Lemma empty_global_effective getenv : exists gc',
  SetEffectiveConfiguration getenv "" empty_global None = Ret (gc', None) /\
  gc_EntryPoints gc' = {["http" := plain_entry_point ":80" (Some insecure_forwarding)]} /\ gc_DefaultEntryPoints gc' = ["http"].
Proof. eexists. split; [vm_compute; reflexivity|]. split; reflexivity. Qed.
