(* ===== verification/Anonymize.v ===== *)
(** * [anonymize/anonymize.go], [collector/collector.go]: what is told about a configuration

    The configuration is copied, what is not tagged for export is reset, and the
    rest is sent as JSON in which mail addresses and URLs are masked.  The code
    walks over any Go value by reflection: a value is a tree here, with what
    reflection shows of the fields of its structs.  The copy, the encoder, the two
    expressions and the HTTP client are parameters. *)
From S2P Require Import Prelude GoStrings Base64.

Definition maskShort : string := "xxxx".
Definition maskLarge : string := maskShort +:+ maskShort +:+ maskShort +:+ maskShort +:+ maskShort +:+ maskShort +:+ maskShort +:+ maskShort.

(** ** Values *)

(** A field as [reflect.StructField] shows it; [Tag_export] is its tag
    [export], empty when it has none. *)
Record StructField := mkStructField { Name : string; PkgPath : string; Anonymous : bool; Tag_export : string }.

(** The values by kind.  A map is its entries in the order its keys are visited;
    nil and empty are told apart.  [Str true] is a string of a type of its own;
    [Prim] stands for the kinds without parts: numbers, booleans, functions and
    channels, of which zero is [Prim 0]. *)
#[warnings="-register-all"]
Inductive value :=
  | Ptr (v : option value)
  | Struct (fs : list (StructField * value))
  | Map (m : option (list (string * value)))
  | Slice (l : option (list value))
  | Array (l : list value)
  | Str (named : bool) (s : string)
  | Interface (v : option value)
  | Prim (n : Z).

(** Induction over the values inside a value. *)
Section ValueInd.
Context (P : value -> Prop).
Context (HPtr : forall v, (match v with Some v => P v | None => True end) -> P (Ptr v)).
Context (HStruct : forall fs, Forall (fun f => P f.2) fs -> P (Struct fs)).
Context (HMap : forall m, (match m with Some m => Forall (fun kv => P kv.2) m | None => True end) -> P (Map m)).
Context (HSlice : forall l, (match l with Some l => Forall P l | None => True end) -> P (Slice l)).
Context (HArray : forall l, Forall P l -> P (Array l)).
Context (HStr : forall b s, P (Str b s)).
Context (HInterface : forall v, (match v with Some v => P v | None => True end) -> P (Interface v)).
Context (HPrim : forall n, P (Prim n)).

Fixpoint value_nested_ind (v : value) : P v :=
  match v with
  | Ptr v => HPtr v (match v with Some v => value_nested_ind v | None => I end)
  | Struct fs => HStruct fs ((fix go fs := match fs return Forall (fun f => P f.2) fs with
      | [] => Forall_nil_2 _ | f :: fs => Forall_cons_2 (fun f => P f.2) f fs (value_nested_ind f.2) (go fs) end) fs)
  | Map m => HMap m (match m with
      | Some m => (fix go m := match m return Forall (fun kv => P kv.2) m with
          | [] => Forall_nil_2 _ | f :: m => Forall_cons_2 (fun kv => P kv.2) f m (value_nested_ind f.2) (go m) end) m
      | None => I end)
  | Slice l => HSlice l (match l with
      | Some l => (fix go l := match l return Forall P l with
          | [] => Forall_nil_2 _ | v :: l => Forall_cons_2 P v l (value_nested_ind v) (go l) end) l
      | None => I end)
  | Array l => HArray l ((fix go l := match l return Forall P l with
      | [] => Forall_nil_2 _ | v :: l => Forall_cons_2 P v l (value_nested_ind v) (go l) end) l)
  | Str b s => HStr b s
  | Interface v => HInterface v (match v with Some v => value_nested_ind v | None => I end)
  | Prim n => HPrim n
  end.
End ValueInd.

(** [reflect.Zero] of the value's type. *)
Fixpoint Zero (v : value) : value :=
  match v with
  | Ptr _ => Ptr None
  | Struct fs => Struct (map (fun f => (f.1, Zero f.2)) fs)
  | Map _ => Map None
  | Slice _ => Slice None
  | Array l => Array (map Zero l)
  | Str named _ => Str named ""
  | Interface _ => Interface None
  | Prim _ => Prim 0
  end.

(** ** The permissions of [reflect] *)

(** A value is read-only when an unexported field was passed on the way to it:
    for good, or as long as it is the embedded field itself. *)
Inductive read_only := Writable | EmbedRO | StickyRO.
Record flag := mkFlag { addressable : bool; ro : read_only }.

Definition CanSet (f : flag) : bool := addressable f && match ro f with Writable => true | _ => false end.
Definition flag_ro (f : flag) : read_only := match ro f with Writable => Writable | _ => StickyRO end.

Definition flag_Elem (f : flag) : flag := mkFlag true (ro f).
Definition flag_Interface_Elem (f : flag) : flag := mkFlag false (flag_ro f).
Definition flag_Index (f : flag) : flag := mkFlag true (flag_ro f).
Definition flag_MapIndex (f : flag) : flag := mkFlag false (flag_ro f).
Definition flag_Field (f : flag) (st : StructField) : flag :=
  mkFlag (addressable f)
    (match ro f with
     | StickyRO => StickyRO
     | _ => if bool_decide (PkgPath st = "") then Writable else if Anonymous st then EmbedRO else StickyRO
     end).

(** ** anonymize.go *)

Definition isExported (f : StructField) : bool := negb (negb (bool_decide (PkgPath f = "")) && negb (Anonymous f)).

(** An error is returned; setting a string of another type than [string] panics.
    Of an interface the value it holds is reset. *)
Fixpoint reset (f : flag) (name : string) (field : value) : outcome (result value) :=
  if negb (CanSet f) then Ret (Err ("cannot reset field " +:+ name))
  else
    match field with
    | Ptr _ | Struct _ | Array _ | Prim _ => Ret (Ok (Zero field))
    | Str named s =>
        if bool_decide (s = "") then Ret (Ok field)
        else if named then Panic "reflect.Set: value of type string is not assignable" else Ret (Ok (Str named maskShort))
    | Map (Some (_ :: _)) => Ret (Ok (Map (Some [])))
    | Slice (Some (_ :: _)) => Ret (Ok (Slice (Some [])))
    | Map _ | Slice _ => Ret (Ok field)
    | Interface None => Ret (Ok field)
    | Interface (Some v) =>
        r ← reset (flag_Interface_Elem f) "" v;
        Ret (match r with Ok v => Ok (Interface (Some v)) | Err e => Err e end)
    end.

(** The value of [k] on what was computed, if it was. *)
Definition then_ok {A B} (o : outcome (result A)) (k : A -> B) : outcome (result B) :=
  r ← o; Ret (match r with Ok a => Ok (k a) | Err e => Err e end).

(** A loop that returns at the first error. *)
Section Each.
Context {A B : Type} (body : A -> outcome (result B)).
Fixpoint each (l : list A) : outcome (result (list B)) :=
  match l with
  | [] => Ret (Ok [])
  | a :: l => r ← body a; match r with Err e => Ret (Err e) | Ok b => then_ok (each l) (cons b) end
  end.
End Each.

(** What is set through a pointer or a slice is set in the value it is part of,
    so the walk gives the value back as it leaves it. *)
Fixpoint doOnStruct (f : flag) (field : value) : outcome (result value) :=
  match field with
  | Ptr (Some v) => then_ok (doOnStruct (flag_Elem f) v) (fun v => Ptr (Some v))
  | Struct fs =>
      then_ok (each (fun sf : StructField * value =>
          then_ok
            (if negb (isExported sf.1) then Ret (Ok sf.2)
             else if bool_decide (Tag_export sf.1 = "true") then doOnStruct (flag_Field f sf.1) sf.2
             else reset (flag_Field f sf.1) (Name sf.1) sf.2)
            (pair sf.1)) fs) Struct
  | Map (Some m) =>
      then_ok (each (fun kv : string * value => then_ok (doOnStruct (flag_MapIndex f) kv.2) (pair kv.1)) m) (fun m => Map (Some m))
  | Slice (Some l) => then_ok (each (doOnStruct (flag_Index f)) l) (fun l => Slice (Some l))
  | _ => Ret (Ok field)
  end.

(** The copy of a value, the encoder with and without indentation, and what
    replaces the matches of [mailExp] and of [xurls.Relaxed]. *)
Class AnonymizeLib := {
  copystructure_Copy : value -> result value;
  json_marshal : bool -> value -> result string;
  mail_ReplaceAllString : string -> string -> string;
  xurls_ReplaceAllString : string -> string -> string;
}.

Definition quotation : string := String "034" "".

Section Do.
Context `{AnonymizeLib}.

Definition doOnJSON (input : string) : string :=
  xurls_ReplaceAllString (mail_ReplaceAllString input (maskLarge +:+ quotation)) maskLarge.

Definition top : flag := mkFlag false Writable.

Definition Do (baseConfig : value) (indent : bool) : outcome (result string) :=
  match copystructure_Copy baseConfig with
  | Err err => Ret (Err err)
  | Ok anomConfig =>
      r ← doOnStruct top anomConfig;
      Ret (anomConfig ← r; configJSON ← json_marshal indent anomConfig; Ok (doOnJSON configJSON))
  end.
End Do.

(** ** collector.go *)

(** What is posted to the collector. *)
Record data := mkData { data_Version : string; Codename : string; BuildDate : string; data_Configuration : string; Hash : string }.

Section Collect.
Context `{AnonymizeLib} (Version codename buildDate : string) (hashstructure_Hash : value -> result string).
Context (Post : data -> option error).

(** Beside the error what was posted. *)
Definition Collect (globalConfiguration : value) : outcome (option error * list data) :=
  r ← Do globalConfiguration false;
  Ret (match r with
  | Err err => (Some err, [])
  | Ok anonConfig =>
      match hashstructure_Hash globalConfiguration with
      | Err err => (Some err, [])
      | Ok hashConf =>
          let d := mkData Version codename buildDate (b64_encode anonConfig) hashConf in
          (Post d, [d])
      end
  end).
End Collect.

(** * Facts: what the result shows

    A string is shown by a value when the encoder can reach it: through fields
    that are exported or embedded, map keys, elements.  It is tagged when every
    field on the way is tagged for export; what is below an array or an interface
    that was reached so is never looked at. *)

Inductive shown (s : string) : value -> Prop :=
  | shown_Ptr v : shown s v -> shown s (Ptr (Some v))
  | shown_Struct fs st v : (st, v) ∈ fs -> isExported st = true -> shown s v -> shown s (Struct fs)
  | shown_key m v : (s, v) ∈ m -> shown s (Map (Some m))
  | shown_Map m k v : (k, v) ∈ m -> shown s v -> shown s (Map (Some m))
  | shown_Slice l v : v ∈ l -> shown s v -> shown s (Slice (Some l))
  | shown_Array l v : v ∈ l -> shown s v -> shown s (Array l)
  | shown_Str named : shown s (Str named s)
  | shown_Interface v : shown s v -> shown s (Interface (Some v)).

Inductive tagged (s : string) : value -> Prop :=
  | tagged_Ptr v : tagged s v -> tagged s (Ptr (Some v))
  | tagged_Struct fs st v : (st, v) ∈ fs -> isExported st = true -> Tag_export st = "true" -> tagged s v -> tagged s (Struct fs)
  | tagged_key m v : (s, v) ∈ m -> tagged s (Map (Some m))
  | tagged_Map m k v : (k, v) ∈ m -> tagged s v -> tagged s (Map (Some m))
  | tagged_Slice l v : v ∈ l -> tagged s v -> tagged s (Slice (Some l))
  | tagged_Array l v : v ∈ l -> shown s v -> tagged s (Array l)
  | tagged_Str named : tagged s (Str named s)
  | tagged_Interface v : shown s v -> tagged s (Interface (Some v)).

#[local] Hint Constructors shown tagged : proxy.

Lemma then_ok_inv {A B} (o : outcome (result A)) (k : A -> B) b : then_ok o k = Ret (Ok b) -> exists a, o = Ret (Ok a) /\ b = k a.
Proof. destruct o as [[a|e]|e|e]; [|done..]. intros [= <-]. by exists a. Qed.

Lemma each_inv {A B} (body : A -> outcome (result B)) l l' : each body l = Ret (Ok l') <-> Forall2 (fun a b => body a = Ret (Ok b)) l l'.
Proof.
  revert l'. induction l as [|a l IH]; intros l'; simpl.
  { split; [by intros [= <-]; constructor|]. by intros ->%Forall2_nil_inv_l. }
  split.
  - intros ([b|e] & Hb & Hl)%outcome_bind_inv; [|done]. apply then_ok_inv in Hl as (l1 & Hl & ->).
    constructor; [done|by apply IH].
  - intros (b & l1 & Hb & Hl & ->)%Forall2_cons_inv_l. rewrite Hb. simpl. apply IH in Hl. by rewrite Hl.
Qed.

(** The zero of a type shows no text but the empty one. *)
Lemma shown_Zero s v : shown s (Zero v) -> s = "".
Proof.
  induction v as [v _|fs IH|m _|l _|l IH|b t|v _|n] using value_nested_ind; simpl; intros Hs; inversion Hs as [|? st w Hin|? w|? k w|? w|? w Hin|?|]; subst.
  - apply list_elem_of_fmap in Hin as ([st' w'] & [= -> ->] & Hin). rewrite Forall_forall in IH. by apply (IH _ Hin).
  - apply list_elem_of_fmap in Hin as (w' & -> & Hin). rewrite Forall_forall in IH. by apply (IH _ Hin).
  - done.
Qed.

(** What a field is reset to shows the mask or nothing. *)
Lemma reset_shown f name v v' s : reset f name v = Ret (Ok v') -> shown s v' -> s = maskShort \/ s = "".
Proof.
  intros Hr Hs. destruct v as [v|fs|[[|? m]|]|[[|? l]|]|l|named t|[v|]|n]; simpl in Hr;
    (destruct (negb (CanSet f)) eqn:Hc; [done|]); simplify_eq/=.
  all: try (right; apply (shown_Zero s (Ptr v)); exact Hs).
  all: try (right; apply (shown_Zero s (Struct fs)); exact Hs).
  all: try (right; apply (shown_Zero s (Array l)); exact Hs).
  all: try (inversion Hs; subst; by set_solver).
  all: try by inversion Hs.
  - case_bool_decide; [simplify_eq; right; by inversion Hs|]. destruct named; [done|]. simplify_eq. left. by inversion Hs.
  - apply outcome_bind_inv in Hr as ([w|e] & Hr & [= <-]). by destruct v.
Qed.

(** The walk over the fields of a struct, as a relation between fields. *)
Definition field_done (f : flag) (sf sf' : StructField * value) : Prop :=
  sf'.1 = sf.1 /\
  (if negb (isExported sf.1) then Ret (Ok sf.2)
   else if bool_decide (Tag_export sf.1 = "true") then doOnStruct (flag_Field f sf.1) sf.2
   else reset (flag_Field f sf.1) (Name sf.1) sf.2) = Ret (Ok sf'.2).

Lemma doOnStruct_Struct f fs v' : doOnStruct f (Struct fs) = Ret (Ok v') <-> exists fs', v' = Struct fs' /\ Forall2 (field_done f) fs fs'.
Proof.
  simpl. split.
  - intros (fs' & He & ->)%then_ok_inv. exists fs'. split; [done|]. apply each_inv in He. eapply Forall2_impl; [exact He|].
    intros sf sf' (w & Hw & ->)%then_ok_inv. by split.
  - intros (fs' & -> & HF). cut (each (fun sf : StructField * value => then_ok
      (if negb (isExported sf.1) then Ret (Ok sf.2)
       else if bool_decide (Tag_export sf.1 = "true") then doOnStruct (flag_Field f sf.1) sf.2
       else reset (flag_Field f sf.1) (Name sf.1) sf.2) (pair sf.1)) fs = Ret (Ok fs')); [by intros ->|].
    apply each_inv. eapply Forall2_impl; [exact HF|]. intros sf [st' w] [Hst ->]. simpl in *. by subst.
Qed.

Lemma doOnStruct_Map f m v' : doOnStruct f (Map (Some m)) = Ret (Ok v') <->
  exists m', v' = Map (Some m') /\ Forall2 (fun kv kv' : string * value => kv'.1 = kv.1 /\ doOnStruct (flag_MapIndex f) kv.2 = Ret (Ok kv'.2)) m m'.
Proof.
  simpl. split.
  - intros (m' & He & ->)%then_ok_inv. exists m'. split; [done|]. apply each_inv in He. eapply Forall2_impl; [exact He|].
    intros kv kv' (w & Hw & ->)%then_ok_inv. by split.
  - intros (m' & -> & HF).
    cut (each (fun kv : string * value => then_ok (doOnStruct (flag_MapIndex f) kv.2) (pair kv.1)) m = Ret (Ok m')); [by intros ->|].
    apply each_inv. eapply Forall2_impl; [exact HF|]. intros kv [k' w] [Hk Hw]. simpl in *. by rewrite Hw, <- Hk.
Qed.

Lemma doOnStruct_Slice f l v' : doOnStruct f (Slice (Some l)) = Ret (Ok v') <->
  exists l', v' = Slice (Some l') /\ Forall2 (fun v w => doOnStruct (flag_Index f) v = Ret (Ok w)) l l'.
Proof.
  simpl. split.
  - intros (l' & He & ->)%then_ok_inv. exists l'. split; [done|]. by apply each_inv.
  - intros (l' & -> & HF). apply each_inv in HF. by rewrite HF.
Qed.

Lemma doOnStruct_Ptr f v v' : doOnStruct f (Ptr (Some v)) = Ret (Ok v') <-> exists w, v' = Ptr (Some w) /\ doOnStruct (flag_Elem f) v = Ret (Ok w).
Proof.
  simpl. split; [intros (w & Hw & ->)%then_ok_inv; by exists w|]. intros (w & -> & Hw). by rewrite Hw.
Qed.

Lemma shown_after v f v' s : doOnStruct f v = Ret (Ok v') -> shown s v' -> s = maskShort \/ s = "" \/ tagged s v.
Proof.
  revert f v'. induction v as [[v|] IH|fs IH|[m|] IH|[l|] IH|l IH|named t|[v|] IH|n] using value_nested_ind; intros f v' Hd Hs.
  - apply doOnStruct_Ptr in Hd as (w & -> & Hw). inversion Hs; subst. edestruct IH as [|[|]]; eauto with proxy.
  - simplify_eq/=. inversion Hs.
  - apply doOnStruct_Struct in Hd as (fs' & -> & HF). inversion Hs as [|? st w' Hin He Hw'| | | | | |]; subst.
    destruct (Forall2_in_r _ _ _ _ HF Hin) as ([st0 w] & Hin0 & [Hst Hw]). simpl in *. subst st0. rewrite He in Hw. simpl in Hw.
    case_bool_decide as Ht; [|destruct (reset_shown _ _ _ _ _ Hw Hw'); auto].
    rewrite Forall_forall in IH. destruct (IH _ Hin0 _ _ Hw Hw') as [|[|]]; eauto with proxy.
  - apply doOnStruct_Map in Hd as (m' & -> & HF). inversion Hs as [| |? w' Hin|? k w' Hin Hw'| | | |]; subst;
      destruct (Forall2_in_r _ _ _ _ HF Hin) as ([k0 w] & Hin0 & [Hk Hw]); simpl in *; subst k0.
    + eauto with proxy.
    + rewrite Forall_forall in IH. destruct (IH _ Hin0 _ _ Hw Hw') as [|[|]]; eauto with proxy.
  - simplify_eq/=. inversion Hs.
  - apply doOnStruct_Slice in Hd as (l' & -> & HF). inversion Hs as [| | | |? w' Hin Hw'| | |]; subst.
    destruct (Forall2_in_r _ _ _ _ HF Hin) as (w & Hin0 & Hw). rewrite Forall_forall in IH.
    destruct (IH _ Hin0 _ _ Hw Hw') as [|[|]]; eauto with proxy.
  - simplify_eq/=. inversion Hs.
  - simplify_eq/=. inversion Hs; subst. eauto with proxy.
  - simplify_eq/=. inversion Hs; subst. eauto with proxy.
  - simplify_eq/=. inversion Hs; subst. eauto with proxy.
  - simplify_eq/=. inversion Hs.
  - simplify_eq/=. inversion Hs.
Qed.

Lemma tagged_after v f v' s : doOnStruct f v = Ret (Ok v') -> tagged s v -> shown s v'.
Proof.
  revert f v'. induction v as [[v|] IH|fs IH|[m|] IH|[l|] IH|l IH|named t|[v|] IH|n] using value_nested_ind; intros f v' Hd Ht;
    inversion Ht as [? Hv|? st w Hin He Hx Hw|? w Hin|? k w Hin Hw|? w Hin Hw|? w Hin Hw|?|? Hv]; subst; try (simplify_eq/=; eauto with proxy; fail).
  - apply doOnStruct_Ptr in Hd as (w & -> & Hw). eauto with proxy.
  - apply doOnStruct_Struct in Hd as (fs' & -> & HF). destruct (Forall2_in_l _ _ _ _ HF Hin) as ([st' w'] & Hin' & [Hst Hw']).
    simpl in *. subst st'. rewrite He, bool_decide_eq_true_2 in Hw' by done. simpl in Hw'. rewrite Forall_forall in IH.
    eapply shown_Struct; [exact Hin'|done|]. by eapply (IH (st, w)).
  - apply doOnStruct_Map in Hd as (m' & -> & HF). destruct (Forall2_in_l _ _ _ _ HF Hin) as ([k' w'] & Hin' & [Hk Hw']). simpl in *. subst k'. eauto with proxy.
  - apply doOnStruct_Map in Hd as (m' & -> & HF). destruct (Forall2_in_l _ _ _ _ HF Hin) as ([k' w'] & Hin' & [Hk Hw']). simpl in *. subst k'.
    rewrite Forall_forall in IH. eapply shown_Map; [exact Hin'|]. by eapply (IH (k, w)).
  - apply doOnStruct_Slice in Hd as (l' & -> & HF). destruct (Forall2_in_l _ _ _ _ HF Hin) as (w' & Hin' & Hw').
    rewrite Forall_forall in IH. eapply shown_Slice; [exact Hin'|]. by eapply (IH w).
Qed.

(** Of a configuration the anonymizer leaves exactly what is tagged for
    export: a text that the encoder can show afterwards is the mask, is empty, or
    was reached through tagged fields only (what an array or an interface holds
    is not looked at); and what was so reached is still shown. *)
Theorem only_tagged_survives f v v' : doOnStruct f v = Ret (Ok v') ->
  (forall s, shown s v' -> s = maskShort \/ s = "" \/ tagged s v) /\ (forall s, tagged s v -> shown s v').
Proof. intros Hd. split; intros s; [by apply (shown_after v f)|by apply (tagged_after v f)]. Qed.

(** ** Once is enough *)

Lemma Zero_idempotent v : Zero (Zero v) = Zero v.
Proof.
  induction v as [v _|fs IH|m _|l _|l IH|b t|v _|n] using value_nested_ind; simpl; try done; f_equal; rewrite map_map;
    apply map_ext_Forall; eapply Forall_impl; try exact IH; [|done]. intros [st w] Hw. simpl in *. by rewrite Hw.
Qed.

Lemma reset_idempotent f name v v' : reset f name v = Ret (Ok v') -> reset f name v' = Ret (Ok v').
Proof.
  intros Hr. destruct v as [v|fs|[[|? m]|]|[[|? l]|]|l|named t|[v|]|n]; simpl in *;
    (destruct (negb (CanSet f)) eqn:Hc; [done|]); simplify_eq/=; rewrite ?Hc; try done.
  - f_equal. f_equal. apply (Zero_idempotent (Struct fs)).
  - f_equal. f_equal. apply (Zero_idempotent (Array l)).
  - case_bool_decide; simplify_eq/=; rewrite ?Hc; [done|]. destruct named; [done|]. simplify_eq/=. by rewrite Hc.
  - apply outcome_bind_inv in Hr as ([w|e] & Hr & [= <-]). by destruct v.
Qed.

(** What was anonymized is left as it is by anonymizing it again. *)
Theorem doOnStruct_idempotent f v v' : doOnStruct f v = Ret (Ok v') -> doOnStruct f v' = Ret (Ok v').
Proof.
  revert f v'. induction v as [[v|] IH|fs IH|[m|] IH|[l|] IH|l IH|named t|[v|] IH|n] using value_nested_ind; intros f v' Hd;
    try (simplify_eq/=; done).
  - apply doOnStruct_Ptr in Hd as (w & -> & Hw). apply doOnStruct_Ptr. exists w. eauto.
  - apply doOnStruct_Struct in Hd as (fs' & -> & HF). apply doOnStruct_Struct. exists fs'. split; [done|].
    induction HF as [|[st w] [st' w'] fs fs' [Hst Hw] _ IHF]; constructor; [|by apply IHF; inversion IH].
    apply Forall_cons in IH as [IH _]. simpl in *. subst st'. split; [done|]. simpl. destruct (negb (isExported st)); [done|].
    case_bool_decide; [by eapply IH|by eapply reset_idempotent].
  - apply doOnStruct_Map in Hd as (m' & -> & HF). apply doOnStruct_Map. exists m'. split; [done|].
    induction HF as [|[k w] [k' w'] m m' [Hk Hw] _ IHF]; constructor; [|by apply IHF; inversion IH].
    apply Forall_cons in IH as [IH _]. simpl in *. split; [done|]. by eapply IH.
  - apply doOnStruct_Slice in Hd as (l' & -> & HF). apply doOnStruct_Slice. exists l'. split; [done|].
    induction HF as [|w w' l l' Hw _ IHF]; constructor; [|by apply IHF; inversion IH].
    apply Forall_cons in IH as [IH _]. by eapply IH.
Qed.

(** ** When a configuration can be told *)

(** Whether a field can be reset once it can be set. *)
Definition resets (v : value) : bool :=
  match v with Str true s => bool_decide (s = "") | Interface (Some _) => false | _ => true end.

(** Elements of maps cannot be set: what is to be reset in one must be behind a
    pointer or in a slice. *)
Fixpoint anonymizable (a : bool) (v : value) : bool :=
  match v with
  | Ptr (Some v) => anonymizable true v
  | Struct fs =>
      forallb (fun sf : StructField * value => negb (isExported sf.1) ||
        (if bool_decide (Tag_export sf.1 = "true") then anonymizable a sf.2 else a && resets sf.2)) fs
  | Map (Some m) => forallb (fun kv : string * value => anonymizable false kv.2) m
  | Slice (Some l) => forallb (anonymizable true) l
  | _ => true
  end.

(** No struct embeds a type that is not exported. *)
Fixpoint plainly_embedded (v : value) : bool :=
  match v with
  | Ptr (Some v) => plainly_embedded v
  | Struct fs => forallb (fun sf : StructField * value => (bool_decide (PkgPath sf.1 = "") || negb (Anonymous sf.1)) && plainly_embedded sf.2) fs
  | Map (Some m) => forallb (fun kv : string * value => plainly_embedded kv.2) m
  | Slice (Some l) => forallb plainly_embedded l
  | _ => true
  end.

Lemma reset_ok a name v : (exists v', reset (mkFlag a Writable) name v = Ret (Ok v')) <-> a && resets v = true.
Proof.
  destruct a; [|by destruct v; (split; [intros [? ?]|])].
  destruct v as [v|fs|[[|? m]|]|[[|? l]|]|l|[] t|[v|]|n]; simpl; unfold CanSet; simpl; try (split; [done|by eexists]).
  - case_bool_decide; split; try done; [by eexists|by intros [? ?]].
  - case_bool_decide; split; try done; by eexists.
  - split; [|done]. intros (v' & ([w|e] & Hr & [= <-])%outcome_bind_inv). by destruct v.
Qed.

Lemma Forall2_exists {A B} (R : A -> B -> Prop) l : (exists l', Forall2 R l l') <-> Forall (fun a => exists b, R a b) l.
Proof.
  split; [intros [l' HF]; induction HF; constructor; eauto|].
  induction 1 as [|a l [b Hb] _ [l' IH]]; [by exists []|exists (b :: l'); by constructor].
Qed.

Lemma forallb_Forall {A} (P : A -> bool) l : forallb P l = true <-> Forall (fun a => P a = true) l.
Proof. by rewrite forallb_forall, List.Forall_forall. Qed.

Lemma iff_Forall {A} (P Q : A -> Prop) l : Forall (fun a => P a <-> Q a) l -> Forall P l <-> Forall Q l.
Proof. induction 1 as [|a l Ha _ IH]; [done|]. by rewrite !Forall_cons, Ha, IH. Qed.

(** The walk ends with neither an error nor a panic exactly when what is not
    tagged can be set, holds no interface and no text of another type. *)
Theorem doOnStruct_succeeds v a : plainly_embedded v = true ->
  (exists v', doOnStruct (mkFlag a Writable) v = Ret (Ok v')) <-> anonymizable a v = true.
Proof.
  revert a. induction v as [[v|] IH|fs IH|[m|] IH|[l|] IH|l IH|named t|[v|] IH|n] using value_nested_ind; intros a Hp;
    try (split; [done|by eexists]); simpl in Hp.
  - setoid_rewrite doOnStruct_Ptr. simpl. rewrite <- (IH true Hp). split; [intros (v' & w & -> & Hw); eauto|intros [w Hw]; eauto].
  - setoid_rewrite doOnStruct_Struct. transitivity (exists fs', Forall2 (field_done (mkFlag a Writable)) fs fs'); [split; [intros (? & ? & -> & ?)|intros [? ?]]; eauto|].
    rewrite Forall2_exists. simpl. rewrite forallb_Forall in *. apply iff_Forall. rewrite Forall_forall in *. intros [st w] Hin.
    specialize (IH _ Hin). specialize (Hp _ Hin). simpl in *. bool_simpl. unfold field_done, isExported in *. simpl.
    destruct (bool_decide (PkgPath st = "")) eqn:HP; simpl in *.
    + unfold flag_Field. simpl. rewrite HP. destruct (bool_decide (Tag_export st = "true")).
      * rewrite <- IH by done. split; [intros ([? ?] & ? & ?); simpl in *; eauto|intros [w' ?]; by exists (st, w')].
      * rewrite <- (reset_ok a (Name st)). split; [intros ([? ?] & ? & ?); simpl in *; eauto|intros [w' ?]; by exists (st, w')].
    + destruct (Anonymous st); [done|]. simpl. split; [done|]. intros _. by exists (st, w).
  - setoid_rewrite doOnStruct_Map. set (R := fun kv kv' : string * value => kv'.1 = kv.1 /\ _).
    transitivity (exists m', Forall2 R m m'); [split; [intros (? & ? & -> & ?)|intros [? ?]]; eauto|].
    rewrite Forall2_exists. simpl. rewrite forallb_Forall in *. apply iff_Forall. rewrite Forall_forall in *. intros [k w] Hin. simpl.
    rewrite <- (IH _ Hin) by by apply (Hp _ Hin). unfold R. simpl.
    split; [intros ([? ?] & ? & ?); simpl in *; eauto|intros [w' ?]; by exists (k, w')].
  - setoid_rewrite doOnStruct_Slice. set (R := fun v w => doOnStruct _ v = _).
    transitivity (exists m', Forall2 R l m'); [split; [intros (? & ? & -> & ?)|intros [? ?]]; eauto|].
    rewrite Forall2_exists. simpl. rewrite forallb_Forall in *. apply iff_Forall. rewrite Forall_forall in *. intros w Hin.
    by rewrite <- (IH _ Hin) by by apply (Hp _ Hin).
Qed.

(** ** What is sent *)

(** C36: What is posted to the collector is, in Base64, the masked JSON of a
    copy of the configuration in which nothing can be shown but the mask, empty
    texts and what the copy is tagged to export; when the copy cannot be made so,
    nothing is posted. *)
Theorem collected_is_anonymous `{AnonymizeLib} version codename date hash post cfg err sent :
  Collect version codename date hash post cfg = Ret (err, sent) ->
  (forall d, d ∈ sent -> exists copy v json, copystructure_Copy cfg = Ok copy /\ doOnStruct top copy = Ret (Ok v) /\
    (forall s, shown s v -> s = maskShort \/ s = "" \/ tagged s copy) /\ (forall s, tagged s copy -> shown s v) /\
    json_marshal false v = Ok json /\ b64_decode (data_Configuration d) = Ok (doOnJSON json)) /\
  (forall copy, copystructure_Copy cfg = Ok copy -> (forall v, doOnStruct top copy <> Ret (Ok v)) -> is_Some err /\ sent = []).
Proof.
  unfold Collect, Do. intros (r & Hr & Hc)%outcome_bind_inv.
  destruct (copystructure_Copy cfg) as [copy|e] eqn:HC.
  2:{ simplify_eq/=. split; [by intros d ?%elem_of_nil|done]. }
  apply outcome_bind_inv in Hr as ([v|e] & Hv & [= <-]).
  2:{ simplify_eq/=. split; [by intros d ?%elem_of_nil|]. intros copy' [= <-] _. by split. }
  simpl in Hc. split; [|intros copy' [= <-] Hn; by destruct (Hn v)].
  destruct (json_marshal false v) as [json|e] eqn:HJ; simpl in Hc.
  2:{ simplify_eq/=. by intros d ?%elem_of_nil. }
  destruct (hash cfg) as [h|e]; simplify_eq/=; [|by intros d ?%elem_of_nil].
  intros d ->%list_elem_of_singleton. exists copy, v, json. destruct (only_tagged_survives _ _ _ Hv) as [H1 H2].
  split_and!; try done. apply b64_decode_encode.
Qed.

(** ** Examples *)

Section Examples.
Definition field (name tag : string) : StructField := mkStructField name "" false tag.
Definition hidden (name : string) : StructField := mkStructField name "anonymize" false "".
(** The struct of the tests, with a field of a type of its own. *)
Definition courgette (ji ho : string) : value := Struct [(field "Ji" "", Str false ji); (field "Ho" "true", Str false ho)].
Definition carotte (v : value) : value := Ptr (Some (Struct [(field "Name" "", Str false "koko"); (field "EField" "true", v); (hidden "secret", Str false "s")])).
Definition shows (v : value) : option value := match doOnStruct top (carotte v) with Ret (Ok (Ptr (Some (Struct fs)))) => snd <$> fs !! 1 | _ => None end.

Example exported_struct : shows (courgette "huu" "hoo") = Some (courgette "xxxx" "hoo").
Proof. by vm_compute. Qed.
Example exported_slice : shows (Slice (Some [courgette "huu" ""])) = Some (Slice (Some [courgette "xxxx" ""])).
Proof. by vm_compute. Qed.
Example exported_map_of_pointers :
  shows (Map (Some [("foo", Ptr (Some (courgette "huu" "")))])) = Some (Map (Some [("foo", Ptr (Some (courgette "xxxx" "")))])).
Proof. by vm_compute. Qed.
(** A struct in a map is refused, and so is what an interface holds; a text of a
    type of its own panics. *)
Example map_of_structs : doOnStruct top (carotte (Map (Some [("foo", courgette "huu" "")]))) = Ret (Err "cannot reset field Ji").
Proof. by vm_compute. Qed.
Example interface_refused :
  doOnStruct top (carotte (Struct [(field "Any" "", Interface (Some (Str false "secret")))])) = Ret (Err "cannot reset field ").
Proof. by vm_compute. Qed.
Example other_text_panics :
  doOnStruct top (carotte (Struct [(field "CertFile" "", Str true "cert.pem")])) = Panic "reflect.Set: value of type string is not assignable".
Proof. by vm_compute. Qed.
(** What is below an interface or an array is not looked at. *)
Example interface_kept :
  shows (Interface (Some (courgette "secret" ""))) = Some (Interface (Some (courgette "secret" "")))
  /\ shows (Array [courgette "secret" ""]) = Some (Array [courgette "secret" ""]).
Proof. by vm_compute. Qed.

Definition texts (v : value) : string := match v with Ptr (Some (Struct ((_, Str _ s) :: _))) => s | _ => "" end.
#[local] Instance plain_lib : AnonymizeLib := {|
  copystructure_Copy v := Ok v; json_marshal _ v := Ok (texts v);
  mail_ReplaceAllString s _ := s; xurls_ReplaceAllString s _ := s |}.
Definition collected : list data := match Collect "v" "c" "d" (fun _ => Ok "0") (fun _ => None) (carotte (courgette "huu" "hoo")) with Ret (_, l) => l | _ => [] end.

Lemma collected_is_anonymous_witness : length collected = 1 /\ exists copy v json, doOnStruct top copy = Ret (Ok v) /\ json_marshal false v = Ok json /\
  forall d, d ∈ collected -> b64_decode (data_Configuration d) = Ok "xxxx".
Proof.
  split; [by vm_compute|].
  destruct (collected_is_anonymous "v" "c" "d" (fun _ => Ok "0") (fun _ => None) (carotte (courgette "huu" "hoo")) None collected) as [Hs _];
    [by vm_compute|].
  destruct (Hs (mkData "v" "c" "d" "eHh4eA==" "0")) as (copy & v & json & _ & Hv & _ & _ & Hj & _); [by vm_compute; left|].
  exists copy, v, json. split; [exact Hv|]. split; [exact Hj|]. intros d Hd. apply list_elem_of_singleton in Hd as ->. by vm_compute.
Defined.
End Examples.
