(* ===== verification/Cookie.v ===== *)
(** * [server/cookie/cookie.go]: the names of the sticky cookies

    A configured name is made a token character by character; otherwise the name
    is the start of the SHA-1 of the backend's.  The hash is executable and
    checked on the names the repository's tests expect. *)
From S2P Require Import Prelude GoStrings GoStringsFacts Types Sha256.

Local Open Scope Z_scope.

(** ** [crypto/sha1] *)

Definition rotl (n x : Z) : Z := Z.lor (w32 (Z.shiftl x n)) (Z.shiftr x (32 - n)).

Fixpoint sha1_schedule (n : nat) (w : list Z) : list Z :=
  match n with
  | O => w
  | S n' =>
      match w with
      | w0 :: w' =>
          let next := rotl 1 (Z.lxor (Z.lxor (nth 12 w' 0) (nth 7 w' 0)) (Z.lxor (nth 1 w' 0) w0)) in
          w0 :: sha1_schedule n' (w' ++ [next])
      | [] => []
      end
  end.

Definition sha1_f (t : nat) (b c d : Z) : Z * Z :=
  if (t <? 20)%nat then (Z.lxor (Z.land b c) (Z.land (Z.lxor b 0xffffffff) d), 0x5A827999)
  else if (t <? 40)%nat then (Z.lxor (Z.lxor b c) d, 0x6ED9EBA1)
  else if (t <? 60)%nat then (Z.lxor (Z.lxor (Z.land b c) (Z.land b d)) (Z.land c d), 0x8F1BBCDC)
  else (Z.lxor (Z.lxor b c) d, 0xCA62C1D6).

Definition sha1_round (st : list Z) (tw : nat * Z) : list Z :=
  match st with
  | [a; b; c; d; e] =>
      let '(f, k) := sha1_f tw.1 b c d in
      [w32 (rotl 5 a + f + e + k + tw.2); a; rotl 30 b; c; d]
  | _ => st
  end.

Definition sha1_block (h : list Z) (block : list Z) : list Z :=
  let st := foldl sha1_round h (zip (seq 0 80) (sha1_schedule 64 block)) in
  zip_with (fun x y => w32 (x + y)) h st.

Definition sha1 (s : string) : list Z :=
  let w := words (sha_pad (bytes_of s)) in
  mjoin (map (be_bytes 4) (foldl sha1_block [0x67452301; 0xEFCDAB89; 0x98BADCFE; 0x10325476; 0xC3D2E1F0]
    (blocks (length w / 16) w))).

(** ** Runes *)

Definition in_bytes (lo hi : Z) (s : string) : bool :=
  match s with "" => false | String c _ => in_range lo hi c end.
Definition tail_of (s : string) : string := match s with "" => "" | String _ s' => s' end.

(** The bytes of the rune [String c s] starts with, less one: invalid encodings
    are runes of one byte ([unicode/utf8]). *)
Definition rune_tail (c : ascii) (s : string) : nat :=
  let cont s := in_bytes 0x80 0xBF s in
  let s1 := tail_of s in
  if in_range 0xC2 0xDF c && cont s then 1%nat
  else if (Ascii.eqb c (of_byte 0xE0) && in_bytes 0xA0 0xBF s || in_range 0xE1 0xEC c && cont s ||
           Ascii.eqb c (of_byte 0xED) && in_bytes 0x80 0x9F s || in_range 0xEE 0xEF c && cont s) && cont s1 then 2%nat
  else if (Ascii.eqb c (of_byte 0xF0) && in_bytes 0x90 0xBF s || in_range 0xF1 0xF3 c && cont s ||
           Ascii.eqb c (of_byte 0xF4) && in_bytes 0x80 0x8F s) && cont s1 && cont (tail_of s1) then 3%nat
  else 0%nat.

(** ** Names *)

Definition cookieNameLength : nat := 6.

Definition token_char (c : ascii) : bool :=
  is_lower c || is_upper c || is_digit c ||
  match c with
  | "!" | "#" | "$" | "%" | "&" | "'" | "*" | "+" | "-" | "." | "^" | "`" | "|" | "~" => true
  | _ => false
  end%char.

(** [strings.Map] with the sanitizer: one underscore for a rune that is not
    allowed, whatever its length. *)
Fixpoint sanitize_go (s : string) (skip : nat) : string :=
  match s with
  | "" => ""
  | String c s' =>
      match skip with
      | S k => sanitize_go s' k
      | O => String (if token_char c then c else "_"%char) (sanitize_go s' (rune_tail c s'))
      end
  end.
Definition sanitizeName (backend : string) : string := sanitize_go backend 0.

Fixpoint str_take (n : nat) (s : string) : string :=
  match n, s with S n', String c s' => String c (str_take n' s') | _, _ => "" end.

Definition GenerateName (backendName : string) : string :=
  str_take cookieNameLength ("_" +:+ hex_encode (sha1 ("_TRAEFIK_BACKEND_" +:+ backendName))).

Definition GetName (cookieName backendName : string) : string :=
  if nonempty cookieName then sanitizeName cookieName else GenerateName backendName.

(** The names of [cookie_test.go]. *)
Example generated_name : GenerateName "containous" = "_8a7bc".
Proof. vm_compute. reflexivity. Qed.
Example backend_name : GetName "" "/my/BACKEND-v1.0~rc1" = "_5f7bc".
Proof. vm_compute. reflexivity. Qed.
Example cookie_name : GetName "/my/BACKEND-v1.0~rc1" "" = "_my_BACKEND-v1.0~rc1".
Proof. vm_compute. reflexivity. Qed.
Example sanitized_name : sanitizeName "!#$%&'()*+-./:<=>?@[]^_`{|}~" = "!#$%&'__*+-._________^_`_|_~".
Proof. vm_compute. reflexivity. Qed.

(** ** Every name is a token *)

(** What RFC 2616 allows of it, with the underscore. *)
Definition cookie_char (c : ascii) : bool := token_char c || Ascii.eqb c "_".

Lemma sanitize_go_cookie s skip : str_forall cookie_char (sanitize_go s skip) = true.
Proof.
  revert skip. induction s as [|c s IH]; intros [|k]; simpl; try done. rewrite IH. unfold cookie_char.
  destruct (token_char c) eqn:E; simpl; by rewrite ?E.
Qed.

Lemma sanitize_go_length s skip : (String.length (sanitize_go s skip) <= String.length s)%nat.
Proof. revert skip. induction s as [|c s IH]; intros [|k]; simpl; [lia|lia|specialize (IH (rune_tail c s)); lia|specialize (IH k); lia]. Qed.

Lemma cookie_char_ascii c : cookie_char c = true -> byte_of c < 128.
Proof. destruct c as [[] [] [] [] [] [] [] []]; try done; intros; by vm_compute. Qed.

Lemma rune_tail_ascii c s : byte_of c < 128 -> rune_tail c s = 0%nat.
Proof.
  intros H. unfold rune_tail, in_range.
  assert (forall z, 128 <= z < 256 -> Ascii.eqb c (of_byte z) = false) as Hc.
  { intros z Hz. apply Ascii.eqb_neq. intros ->. unfold byte_of, of_byte in H. rewrite N_ascii_embedding in H by lia. lia. }
  rewrite !Hc by lia.
  repeat match goal with |- context [(?a <=? byte_of c)] => replace (a <=? byte_of c) with false by lia end. done.
Qed.

Lemma sanitize_fixed s : str_forall cookie_char s = true -> sanitizeName s = s.
Proof.
  unfold sanitizeName. induction s as [|c s IH]; [done|]. simpl. intros [Hc Hs]%andb_true_iff.
  rewrite (rune_tail_ascii c s) by (by apply cookie_char_ascii). rewrite IH by done. f_equal.
  unfold cookie_char in Hc. destruct (token_char c); [done|]. by apply Ascii.eqb_eq in Hc.
Qed.

Definition byte_ok (b : Z) : Prop := 0 <= b < 256.

Lemma hex_lower_cookie n : 0 <= n < 16 -> cookie_char (hex_lower n) = true.
Proof.
  intros H. assert (forallb (fun n => cookie_char (hex_lower (Z.of_nat n))) (seq 0 16) = true) as Ha by (vm_compute; done).
  rewrite forallb_forall in Ha. specialize (Ha (Z.to_nat n)). rewrite Z2Nat.id in Ha by lia. apply Ha. apply in_seq. lia.
Qed.

Lemma hex_encode_cookie l : Forall byte_ok l -> str_forall cookie_char (hex_encode l) = true.
Proof.
  induction 1 as [|b l Hb _ IH]; [done|]. unfold byte_ok in Hb. cbn [hex_encode str_forall].
  rewrite !hex_lower_cookie, IH; [done|apply Z.mod_pos_bound; lia|].
  split; [apply Z.div_pos; lia|apply Z.div_lt_upper_bound; lia].
Qed.

Lemma be_bytes_ok n x : Forall byte_ok (be_bytes n x).
Proof. unfold be_bytes. apply Forall_map, Forall_forall. intros i _. apply Z.mod_pos_bound. lia. Qed.

Lemma sha1_bytes s : Forall byte_ok (sha1 s).
Proof.
  unfold sha1. induction (foldl _ _ _) as [|x l IH]; [constructor|].
  change (mjoin (map (be_bytes 4) (x :: l))) with (be_bytes 4 x ++ mjoin (map (be_bytes 4) l)). apply Forall_app. split; [apply be_bytes_ok|done].
Qed.

Lemma sha1_block_length h b : length h = 5%nat -> length (sha1_block h b) = 5%nat.
Proof.
  intros H. unfold sha1_block. rewrite length_zip_with, H.
  assert (forall l st, length st = 5%nat -> length (foldl sha1_round st l) = 5%nat) as E.
  { induction l as [|x l IH]; intros st Hst; [done|]. apply IH.
    do 6 (destruct st as [|? st]; try done). simpl. by destruct (sha1_f _ _ _ _). }
  by rewrite E.
Qed.

Lemma sha1_length s : length (sha1 s) = 20%nat.
Proof.
  unfold sha1. set (h0 := [0x67452301; 0xEFCDAB89; 0x98BADCFE; 0x10325476; 0xC3D2E1F0]).
  assert (forall l h, length h = 5%nat -> length (foldl sha1_block h l) = 5%nat) as E.
  { induction l as [|b l IH]; intros h Hh; [done|]. by apply IH, sha1_block_length. }
  assert (forall l, length l = 5%nat -> length (mjoin (map (be_bytes 4) l)) = 20%nat) as E2.
  { intros l Hl. do 6 (destruct l as [|? l]; try done). }
  by apply E2, E.
Qed.

Lemma hex_encode_length l : String.length (hex_encode l) = (2 * length l)%nat.
Proof. induction l as [|b l IH]; [done|]. cbn [hex_encode String.length length]. lia. Qed.

Lemma str_take_length n s : String.length (str_take n s) = Nat.min n (String.length s).
Proof. revert s. induction n as [|n IH]; intros [|c s]; simpl; [done..|]. by rewrite IH. Qed.

Lemma str_take_forall P n s : str_forall P s = true -> str_forall P (str_take n s) = true.
Proof.
  revert s. induction n as [|n IH]; intros [|c s]; simpl; try done. intros [-> ?]%andb_true_iff. by rewrite IH.
Qed.

(** The name of a sticky cookie is always a token and never empty: a
    configured name keeps its length or gets shorter, and is unchanged if it was
    a token; a generated one has six characters, whatever the backend. *)
Theorem GetName_token cookieName backendName :
  let name := GetName cookieName backendName in
  str_forall cookie_char name = true /\ name <> "" /\
  (cookieName = "" -> String.length name = cookieNameLength) /\
  (cookieName <> "" -> (String.length name <= String.length cookieName)%nat /\
    (str_forall cookie_char cookieName = true -> name = cookieName)).
Proof.
  cbv zeta. unfold GetName, nonempty. case_bool_decide as E; cbn [negb].
  - assert (String.length (GenerateName backendName) = cookieNameLength) as Hl.
    { unfold GenerateName. rewrite str_take_length. change (?c +:+ hex_encode ?l) with (String "_" (hex_encode l)).
      cbn [String.length]. rewrite hex_encode_length, sha1_length. done. }
    split_and!; [|by intros E2; rewrite E2 in Hl|done|done].
    apply str_take_forall. change ("_" +:+ hex_encode ?l) with (String "_" (hex_encode l)). cbn [str_forall].
    by rewrite hex_encode_cookie by apply sha1_bytes.
  - split_and!; [apply sanitize_go_cookie|by destruct cookieName|done|].
    intros _. split; [apply sanitize_go_length|]. apply sanitize_fixed.
Qed.

(** Proofs treat the hash as a black box; [vm_compute] still evaluates it. *)
#[global] Opaque sha1 GenerateName.
