(* ===== verification/ErrorPages.v ===== *)
(** * [middlewares/errorpages/error_pages.go]: custom error pages

    The middleware lets the next handler answer into a recorder and, when the
    recorded status is in one of its ranges, answers with the page of a backend
    and that status instead.  A handler is the list of what it does to the
    response writer it is given; the client's writer is the HTTP server's, which
    sends one header.  Writing to the client does not fail. *)
From S2P Require Import Prelude GoStrings GoStringsFacts GoHttp Types GlobalConfig.
From S2P Require Import Redirect.

(** ** Response writers *)

Inductive wop :=
  | OHeader (f : Header -> Header)
  | OWriteHeader (code : Z)
  | OWrite (buf : string)
  | OFlush.

(** What the client's writer holds and has sent. *)
Record client := mkClient { cl_header : Header; cl_sent : option (Z * Header); cl_body : string }.
Definition new_client (h : Header) : client := mkClient h None "".

(** The first status is sent with the header of then; the others are ignored;
    a write sends 200. *)
Definition client_WriteHeader (code : Z) (c : client) : client :=
  match cl_sent c with
  | Some _ => c
  | None => mkClient (cl_header c) (Some (code, cl_header c)) (cl_body c)
  end.
Definition client_Write (buf : string) (c : client) : client :=
  let c := client_WriteHeader 200 c in mkClient (cl_header c) (cl_sent c) (cl_body c +:+ buf).
Definition client_step (c : client) (o : wop) : client :=
  match o with
  | OHeader f => mkClient (f (cl_header c)) (cl_sent c) (cl_body c)
  | OWriteHeader code => client_WriteHeader code c
  | OWrite buf => client_Write buf c
  | OFlush => client_WriteHeader 200 c
  end.

(** [utils.CopyHeaders] *)
Definition CopyHeaders (dst src : Header) : Header :=
  union_with (fun d s => Some (d ++ s)) dst src.

(** [responseRecorderWithoutCloseNotify], over the client's writer. *)
Record recorder := mkRecorder {
  Code : Z;
  HeaderMap : Header;
  Body : string;
  streamingResponseStarted : bool;
}.
Definition newResponseRecorder : recorder := mkRecorder 200 ∅ "" false.

Definition recorder_step (rc : recorder * client) (o : wop) : recorder * client :=
  let '(r, c) := rc in
  match o with
  | OHeader f => (mkRecorder (Code r) (f (HeaderMap r)) (Body r) (streamingResponseStarted r), c)
  | OWriteHeader code => (mkRecorder code (HeaderMap r) (Body r) (streamingResponseStarted r), c)
  | OWrite buf => (mkRecorder (Code r) (HeaderMap r) (Body r +:+ buf) (streamingResponseStarted r), c)
  | OFlush =>
      let c := if streamingResponseStarted r then c
        else client_WriteHeader (Code r) (mkClient (CopyHeaders (cl_header c) (HeaderMap r)) (cl_sent c) (cl_body c)) in
      (mkRecorder (Code r) (HeaderMap r) "" true, client_Write (Body r) c)
  end.
Definition record (l : list wop) (c : client) : recorder * client := foldl recorder_step (newResponseRecorder, c) l.

(** ** [http.StatusText] *)

Definition status_texts : list (Z * string) :=
  [(100, "Continue"); (101, "Switching Protocols"); (102, "Processing"); (200, "OK"); (201, "Created"); (202, "Accepted");
   (203, "Non-Authoritative Information"); (204, "No Content"); (205, "Reset Content"); (206, "Partial Content");
   (207, "Multi-Status"); (208, "Already Reported"); (226, "IM Used"); (300, "Multiple Choices");
   (301, "Moved Permanently"); (302, "Found"); (303, "See Other"); (304, "Not Modified"); (305, "Use Proxy");
   (307, "Temporary Redirect"); (308, "Permanent Redirect"); (400, "Bad Request"); (401, "Unauthorized");
   (402, "Payment Required"); (403, "Forbidden"); (404, "Not Found"); (405, "Method Not Allowed");
   (406, "Not Acceptable"); (407, "Proxy Authentication Required"); (408, "Request Timeout"); (409, "Conflict");
   (410, "Gone"); (411, "Length Required"); (412, "Precondition Failed"); (413, "Request Entity Too Large");
   (414, "Request URI Too Long"); (415, "Unsupported Media Type"); (416, "Requested Range Not Satisfiable");
   (417, "Expectation Failed"); (418, "I'm a teapot"); (422, "Unprocessable Entity"); (423, "Locked");
   (424, "Failed Dependency"); (426, "Upgrade Required"); (428, "Precondition Required"); (429, "Too Many Requests");
   (431, "Request Header Fields Too Large"); (451, "Unavailable For Legal Reasons"); (500, "Internal Server Error");
   (501, "Not Implemented"); (502, "Bad Gateway"); (503, "Service Unavailable"); (504, "Gateway Timeout");
   (505, "HTTP Version Not Supported"); (506, "Variant Also Negotiates"); (507, "Insufficient Storage");
   (508, "Loop Detected"); (510, "Not Extended"); (511, "Network Authentication Required")]%Z.
Definition http_StatusText (code : Z) : string :=
  match list_find (fun x => x.1 = code) status_texts with Some (_, x) => x.2 | None => "" end.

(** ** The middleware *)

(** [H] is the type of the handlers of backends. *)
Record ErrorHandler (H : Type) := mkErrorHandler {
  eh_BackendName : string;
  backendHandler : option H;
  httpCodeRanges : HTTPCodeRanges;
  backendURL : string;
  backendQuery : string;
  FallbackURL : string;
}.
Arguments mkErrorHandler {H}.
Arguments eh_BackendName {H}.
Arguments backendHandler {H}.
Arguments httpCodeRanges {H}.
Arguments backendURL {H}.
Arguments backendQuery {H}.
Arguments FallbackURL {H}.

Section Handler.
Context {H : Type}.

Definition NewHandler (errorPage : ErrorPage) (backendName : string) : result (ErrorHandler H) :=
  if bool_decide (backendName = "") then Err "error pages: backend name is mandatory " else
  httpCodeRanges ← NewHTTPCodeRanges (ep_Status errorPage);
  mret (mkErrorHandler backendName None httpCodeRanges "http://0.0.0.0" (ep_Query errorPage) "").

Definition set_FallbackURL (url : string) (h : ErrorHandler H) : ErrorHandler H :=
  mkErrorHandler (eh_BackendName h) (backendHandler h) (httpCodeRanges h) (backendURL h) (backendQuery h) url.

(** [forward] is what [forward.New()] returns; its error is dropped by the
    caller and leaves the handler as it was. *)
Definition PostLoad (forward : result H) (backend : option H) (h : ErrorHandler H) : ErrorHandler H :=
  match backend with
  | None =>
      match forward with
      | Err _ => h
      | Ok fwd => mkErrorHandler (eh_BackendName h) (Some fwd) (httpCodeRanges h) (FallbackURL h) (backendQuery h) (FallbackURL h)
      end
  | Some b => mkErrorHandler (eh_BackendName h) (Some b) (httpCodeRanges h) (backendURL h) (backendQuery h) (FallbackURL h)
  end.

Context `{urls : UrlLib}.

Definition newRequest (baseURL : string) : result Request :=
  u ← match url_Parse baseURL with Ok u => Ok u | Err err => Err ("error pages: error when parse URL: " +:+ err) end;
  u' ← match url_Parse (url_String u) with Ok u => Ok u | Err err => Err ("error pages: error when create query: " +:+ err) end;
  mret (mkRequest "GET" u' ∅ (URLHost u') (request_uri u) "" false).

Definition page_query (h : ErrorHandler H) (code : Z) : string :=
  if nonempty (backendQuery h) then replace_all ("/" +:+ trim_prefix (backendQuery h) "/") "{status}" (pretty code) else "".

Definition caught (h : ErrorHandler H) (code : Z) : bool :=
  existsb (fun block => (code >=? block.1)%Z && (code <=? block.2)%Z) (httpCodeRanges h).

(** Answering the client with a recorded response. *)
Definition answer (code : Z) (r : recorder) (c : client) : client :=
  client_Write (Body r) (client_WriteHeader code
    (mkClient (CopyHeaders (cl_header c) (HeaderMap r)) (cl_sent c) (cl_body c))).

Context {W : Type} (serve : H -> Request -> M W (list wop)).

Definition ErrorPages_ServeHTTP (h : ErrorHandler H) (next : Request -> M W (list wop)) (req : Request) (c : client) :
    M W client :=
  acts ← next req;
  match backendHandler h with
  | None => mret (foldl client_step c acts)
  | Some backend =>
      let '(recorder, c) := record acts c in
      if caught h (Code recorder) then
        match newRequest (backendURL h +:+ page_query h (Code recorder)) with
        | Err _ => mret (client_Write (http_StatusText (Code recorder)) (client_WriteHeader (Code recorder) c))
        | Ok pageReq =>
            page ← serve backend (set_Header (CopyHeaders (ReqHeader pageReq) (ReqHeader req)) pageReq);
            let '(recorderErrorPage, c) := record page c in
            mret (answer (Code recorder) recorderErrorPage c)
        end
      else mret (answer (Code recorder) recorder c)
  end.

End Handler.

(** ** What the client gets *)

Definition recorded_step (r : recorder) (o : wop) : recorder :=
  match o with
  | OHeader f => mkRecorder (Code r) (f (HeaderMap r)) (Body r) (streamingResponseStarted r)
  | OWriteHeader code => mkRecorder code (HeaderMap r) (Body r) (streamingResponseStarted r)
  | OWrite buf => mkRecorder (Code r) (HeaderMap r) (Body r +:+ buf) (streamingResponseStarted r)
  | OFlush => r
  end.
(** The response a handler records when it does not flush. *)
Definition recorded (l : list wop) : recorder := foldl recorded_step newResponseRecorder l.

Definition is_flush (o : wop) : bool := match o with OFlush => true | _ => false end.
Definition unflushed (l : list wop) : bool := negb (existsb is_flush l).

Lemma record_unflushed l c : unflushed l = true -> record l c = (recorded l, c).
Proof.
  unfold record, recorded, unflushed. generalize newResponseRecorder. induction l as [|o l IH]; intros r; [done|].
  simpl. rewrite negb_orb. intros [Ho Hl]%andb_true_iff. destruct o; try done; by rewrite IH.
Qed.

(** The response a client is sent: status, header, and body. *)
Definition sent_response (code : Z) (h : Header) (body : string) (c : client) : Prop :=
  cl_sent c = Some (code, h) /\ cl_body c = body.

Lemma answer_sent code r h : sent_response code (CopyHeaders h (HeaderMap r)) (Body r) (answer code r (new_client h)).
Proof. done. Qed.

(** A response as handlers write it: the header first, then the status, then
    the body. *)
Definition plain_response (code : Z) (hs : list (Header -> Header)) (bufs : list string) : list wop :=
  map OHeader hs ++ OWriteHeader code :: map OWrite bufs.

Definition apply_all (hs : list (Header -> Header)) (h : Header) : Header := foldl (fun h f => f h) h hs.
Definition concat_all (s : string) (bufs : list string) : string := foldl (fun s b => s +:+ b) s bufs.

Lemma plain_unflushed code hs bufs : unflushed (plain_response code hs bufs) = true.
Proof.
  unfold unflushed, plain_response. rewrite existsb_app. simpl. rewrite negb_orb.
  apply andb_true_iff. split; apply negb_true_iff; [induction hs; simpl; done|induction bufs; simpl; done].
Qed.

Lemma recorded_plain code hs bufs :
  recorded (plain_response code hs bufs) = mkRecorder code (apply_all hs ∅) (concat_all "" bufs) false.
Proof.
  unfold recorded, plain_response, newResponseRecorder. rewrite foldl_app.
  assert (forall h, foldl recorded_step (mkRecorder 200 h "" false) (map OHeader hs) = mkRecorder 200 (apply_all hs h) "" false) as ->.
  { induction hs as [|f hs IH]; intros h; [done|]. simpl. by rewrite IH. }
  simpl. generalize (apply_all hs ∅). intros h. generalize "". induction bufs as [|b bufs IH]; intros s; [done|]. simpl. by rewrite IH.
Qed.

Lemma client_plain code hs bufs h :
  foldl client_step (new_client h) (plain_response code hs bufs) =
  mkClient (apply_all hs h) (Some (code, apply_all hs h)) (concat_all "" bufs).
Proof.
  unfold plain_response, new_client. rewrite foldl_app.
  assert (forall h, foldl client_step (mkClient h None "") (map OHeader hs) = mkClient (apply_all hs h) None "") as ->.
  { clear h. induction hs as [|f hs IH]; intros h; [done|]. simpl. by rewrite IH. }
  simpl. unfold client_WriteHeader. simpl. generalize (apply_all hs h). intros h'. generalize "".
  induction bufs as [|b bufs IH]; intros s; [done|]. simpl. unfold client_Write, client_WriteHeader. simpl. by rewrite IH.
Qed.

Lemma CopyHeaders_empty h : CopyHeaders ∅ h = h.
Proof. unfold CopyHeaders. by rewrite (left_id_L ∅ (union_with _)). Qed.

Section Facts.
Context {H : Type} `{urls : UrlLib} {W : Type} (serve : H -> Request -> M W (list wop)).

(** The middleware with a backend, on a response [code] of the next
    handler.  When no range has the status the client gets the response exactly
    as without the middleware.  When a range has it, the client gets that status
    with the header and the body the backend's page has, the page being asked
    for with the client's headers; or the status's text when the page's URL does
    not parse. *)
Theorem ErrorPages_response (h : ErrorHandler H) backend next req code hs bufs w w1 :
  backendHandler h = Some backend -> next req w = (Ret (plain_response code hs bufs), w1) ->
  let served := ErrorPages_ServeHTTP serve h next req (new_client ∅) w in
  if caught h code then
    match newRequest (backendURL h +:+ page_query h code) with
    | Err _ => exists c, served = (Ret c, w1) /\ sent_response code ∅ (http_StatusText code) c
    | Ok pageReq => forall pcode phs pbufs w2,
        serve backend (set_Header (CopyHeaders (ReqHeader pageReq) (ReqHeader req)) pageReq) w1 =
          (Ret (plain_response pcode phs pbufs), w2) ->
        exists c, served = (Ret c, w2) /\ sent_response code (apply_all phs ∅) (concat_all "" pbufs) c
    end
  else served = (Ret (foldl client_step (new_client ∅) (plain_response code hs bufs)), w1).
Proof.
  intros Hb Hn. cbv zeta. unfold ErrorPages_ServeHTTP, mbind, M_bind. rewrite Hn, Hb.
  rewrite (record_unflushed _ _ (plain_unflushed _ _ _)), recorded_plain. cbn [Code].
  destruct (caught h code).
  - destruct (newRequest _) as [pageReq|e]; [|by eexists; split]. intros pcode phs pbufs w2 Hs. rewrite Hs.
    rewrite (record_unflushed _ _ (plain_unflushed _ _ _)), recorded_plain. eexists. split; [reflexivity|].
    unfold sent_response, answer. simpl. by rewrite CopyHeaders_empty.
  - rewrite client_plain. unfold answer. simpl. by rewrite CopyHeaders_empty.
Qed.

(** A page that flushes sends its own status: the error becomes whatever the
    page's backend answered. *)
Lemma flushed_page_status (h : ErrorHandler H) backend next req code hs bufs pageReq pcode buf w w1 w2 :
  backendHandler h = Some backend -> next req w = (Ret (plain_response code hs bufs), w1) -> caught h code = true ->
  newRequest (backendURL h +:+ page_query h code) = Ok pageReq ->
  serve backend (set_Header (CopyHeaders (ReqHeader pageReq) (ReqHeader req)) pageReq) w1 =
    (Ret [OWriteHeader pcode; OWrite buf; OFlush], w2) ->
  exists c, ErrorPages_ServeHTTP serve h next req (new_client ∅) w = (Ret c, w2) /\ cl_sent c = Some (pcode, ∅).
Proof.
  intros Hb Hn Hc Hr Hs. unfold ErrorPages_ServeHTTP, mbind, M_bind. rewrite Hn, Hb.
  rewrite (record_unflushed _ _ (plain_unflushed _ _ _)), recorded_plain. cbn [Code]. rewrite Hc, Hr, Hs. eexists.
  split; [done|]. unfold record. simpl. by rewrite CopyHeaders_empty.
Qed.

End Facts.

(** A page for 500 to 599, from a backend that answers with the path it was
    asked for. *)
Definition sample_page : ErrorHandler unit :=
  mkErrorHandler "errors" (Some tt) [(500, 599)]%Z "http://0.0.0.0" "/{status}.html" "".
Definition path_urls : UrlLib := {|
  url_Parse s := Ok (mkURL "http" "" "0.0.0.0" (trim_prefix s "http://0.0.0.0") "" false "");
  url_String u := "http://0.0.0.0" +:+ Path u |}.
Definition path_page (_ : unit) (r : Request) : M unit (list wop) := mret (plain_response 200%Z [] ["page "; req_path r]).
Definition broken (_ : Request) : M unit (list wop) := mret (plain_response 503%Z [] ["down"]).
Definition sample_get : Request := mkRequest "GET" (mkURL "" "" "" "/" "" false "") ∅ "host" "/" "10.0.0.1:99" false.

Lemma ErrorPages_response_witness :
  exists c, ErrorPages_ServeHTTP (urls := path_urls) path_page sample_page broken sample_get (new_client ∅) tt = (Ret c, tt) /\
    sent_response 503%Z ∅ "page /503.html" c.
Proof.
  destruct (ErrorPages_response (urls := path_urls) path_page sample_page tt broken sample_get 503%Z [] ["down"] tt tt
    eq_refl eq_refl 200%Z [] ["page "; "/503.html"] tt eq_refl) as (c & Hc & Hs).
  exists c. split; [exact Hc|exact Hs].
Defined.
