(* ===== verification/Authenticator.v ===== *)
(** * [middlewares/auth/]: basic, digest and forward authentication

    The users come from the configuration and a file; the check of a request
    against them is the library's ([github.com/abbot/go-http-auth]), a
    parameter.  Forward authentication asks another server about the request.
    With a request that passes comes the user name, which the source leaves in
    the user part of the URL. *)
From S2P Require Import Prelude GoStrings GoStringsFacts GoNet GoHttp GoHttpFacts Types ErrorPages Redirect Whitelist.

(** ** parser.go *)

Section Users.
Context `{files : TLSFiles Certificate}.

Definition getLinesFromFile (filename : string) : result (list string) :=
  dat ← ReadFile filename;
  mret (List.filter nonempty (map trim_space (split dat (String "010" "")))).

Definition user_lines (users : UsersAuth) : result (list string) :=
  userStrs ← (if nonempty (UsersFile users) then getLinesFromFile (UsersFile users) else Ok []);
  mret (Users users ++ userStrs).

Fixpoint add_users (entry : list string -> option (string * string)) (userStrs : list string) (userMap : gmap string string) :
    result (gmap string string) :=
  match userStrs with
  | [] => Ok userMap
  | user :: userStrs' =>
      match entry (split user ":") with
      | None => Err ("Error parsing Authenticator user: " +:+ user)
      | Some (k, v) => add_users entry userStrs' (<[k := v]> userMap)
      end
  end.

Definition basic_entry (l : list string) : option (string * string) :=
  match l with [u; p] => Some (u, p) | _ => None end.
Definition digest_entry (l : list string) : option (string * string) :=
  match l with [u; r; p] => Some (u +:+ ":" +:+ r, p) | _ => None end.

Definition parserBasicUsers (basic : UsersAuth) : result (gmap string string) :=
  l ← user_lines basic; add_users basic_entry l ∅.
Definition parserDigestUsers (digest : UsersAuth) : result (gmap string string) :=
  l ← user_lines digest; add_users digest_entry l ∅.

End Users.

(** ** authenticator.go *)

(** [CheckAuth] of the two authenticators, for the realm [traefik]: the user
    whose secret the request proves, or the empty string. *)
Class GoAuth := {
  basic_CheckAuth : (string -> string) -> Request -> string;
  digest_CheckAuth : (string -> string) -> Request -> string;
}.

Definition secretBasic (users : gmap string string) (user : string) : string := default "" (users !! user).
Definition secretDigest (users : gmap string string) (user : string) : string :=
  default "" (users !! (user +:+ ":" +:+ "traefik")).

Inductive Authenticator :=
  | AuthBasic (users : gmap string string) (field : string)
  | AuthDigest (users : gmap string string) (field : string)
  | AuthForward (config : Forward)
  | AuthNone.

Definition NewAuthenticator `{TLSFiles Certificate} (authConfig : option Auth) : result Authenticator :=
  match authConfig with
  | None => Err "error creating Authenticator: auth is nil"
  | Some config =>
      match Basic config, Digest config, au_Forward config with
      | Some basic, _, _ => users ← parserBasicUsers basic; mret (AuthBasic users (HeaderField config))
      | None, Some digest, _ => users ← parserDigestUsers digest; mret (AuthDigest users (HeaderField config))
      | None, None, Some forward => mret (AuthForward forward)
      | None, None, None => mret AuthNone
      end
  end.

(** A request that passes is marked with the user; the header of the
    configuration is written under the key as configured. *)
Inductive authenticated := Required | Passed (username : string) (r : Request).

Definition mark_user (field username : string) (r : Request) : authenticated :=
  Passed username (if nonempty field then set_Header (<[field := [username]]> (ReqHeader r)) r else r).

Definition basic_handler `{GoAuth} (users : gmap string string) (field : string) (r : Request) : authenticated :=
  let username := basic_CheckAuth (secretBasic users) r in
  if bool_decide (username = "") then Required else mark_user field username r.
Definition digest_handler `{GoAuth} (users : gmap string string) (field : string) (r : Request) : authenticated :=
  let username := digest_CheckAuth (secretDigest users) r in
  if bool_decide (username = "") then Required else mark_user field username r.

(** ** forward.go *)

Definition XForwardedProto : string := "X-Forwarded-Proto".
Definition XForwardedHost : string := "X-Forwarded-Host".
Definition XForwardedPort : string := "X-Forwarded-Port".
Definition xForwardedURI : string := "X-Forwarded-Uri".

(** What the authentication server answers: [fr_Location] is [Location()], none
    when there is no such header. *)
Record ForwardResponse := mkForwardResponse {
  fr_StatusCode : Z;
  fr_Header : Header;
  fr_Body : result string;
  fr_Location : result (option string);
}.

Definition set_client_ip (req : Request) (trust : bool) (h : Header) : Header :=
  match SplitHostPort (RemoteAddr req) with
  | Err _ => h
  | Ok (clientIP, _) =>
      let clientIP :=
        if trust then
          match ReqHeader req !! XForwardedFor with Some prior => join prior ", " +:+ ", " +:+ clientIP | None => clientIP end
        else clientIP in
      header_set h XForwardedFor clientIP
  end.

Definition set_proto (req : Request) (trust : bool) (h : Header) : Header :=
  let xfp := req_header req XForwardedProto in
  if nonempty xfp && trust then header_set h XForwardedProto xfp
  else if TLS req then header_set h XForwardedProto "https" else header_set h XForwardedProto "http".

Definition set_port (req : Request) (trust : bool) (h : Header) : Header :=
  let xfp := req_header req XForwardedPort in
  if nonempty xfp && trust then header_set h XForwardedPort xfp else h.

Definition set_host (req : Request) (trust : bool) (h : Header) : Header :=
  let xfh := req_header req XForwardedHost in
  if nonempty xfh && trust then header_set h XForwardedHost xfh
  else if nonempty (Host req) then header_set h XForwardedHost (Host req) else header_del h XForwardedHost.

Definition set_uri (req : Request) (trust : bool) (h : Header) : Header :=
  let xfURI := req_header req xForwardedURI in
  if nonempty xfURI && trust then header_set h xForwardedURI xfURI
  else if nonempty (request_uri (ReqURL req)) then header_set h xForwardedURI (request_uri (ReqURL req))
  else header_del h xForwardedURI.

(** [writeHeader] on the empty header of the new request. *)
Definition writeHeader (req : Request) (trustForwardHeader : bool) : Header :=
  set_uri req trustForwardHeader (set_host req trustForwardHeader (set_port req trustForwardHeader
    (set_proto req trustForwardHeader (set_client_ip req trustForwardHeader (CopyHeaders ∅ (ReqHeader req)))))).

Inductive forwarded := Answer (l : list wop) | Next (r : Request).

Section Forward.
Context {Certificate W : Type} `{files : TLSFiles Certificate} `{urls : UrlLib}.

(** The client sends the request made of the address and the header; redirects
    are not followed. *)
Context (Do : option (TLSConfig Certificate) -> GoHttp.URL -> Header -> M W (result ForwardResponse)).

Definition internal_error : list wop := [OWriteHeader 500].

Definition pass_response (forwardResponse : ForwardResponse) (body : string) : list wop :=
  OHeader (fun h => CopyHeaders h (fr_Header forwardResponse)) ::
  match fr_Location forwardResponse with
  | Err _ => [OWriteHeader 500]
  | Ok location =>
      match location with
      | Some url => if nonempty url then [OHeader (fun h => header_set h "Location" url)] else []
      | None => []
      end ++ [OWriteHeader (fr_StatusCode forwardResponse); OWrite body]
  end.

Definition Forward_ServeHTTP (config : Forward) (r : Request) : M W forwarded :=
  match (match fwd_TLS config with Some tls => CreateTLSConfig (Some tls) | None => Ok None end) with
  | Err _ => mret (Answer internal_error)
  | Ok tlsConfig =>
      match url_Parse (Address config) with
      | Err _ => mret (Answer internal_error)
      | Ok url =>
          res ← Do tlsConfig url (writeHeader r (TrustForwardHeader config));
          match res with
          | Err _ => mret (Answer internal_error)
          | Ok forwardResponse =>
              match fr_Body forwardResponse with
              | Err _ => mret (Answer internal_error)
              | Ok body =>
                  if ((fr_StatusCode forwardResponse <? 200) || (300 <=? fr_StatusCode forwardResponse))%Z
                  then mret (Answer (pass_response forwardResponse body))
                  else mret (Next (sync_RequestURI r))
              end
          end
      end
  end.

End Forward.

(** ** Users *)

Lemma add_users_spec entry l m m' :
  add_users entry l m = Ok m' <->
  exists kvs, Forall2 (fun user kv => entry (split user ":") = Some kv) l kvs /\ m' = foldl (fun m kv => <[kv.1 := kv.2]> m) m kvs.
Proof.
  revert m. induction l as [|user l IH]; intros m; simpl.
  - split; [intros [= <-]; exists []; by split|intros (kvs & H & ->); by inversion H].
  - split.
    + destruct (entry (split user ":")) as [[k v]|] eqn:E; [|done]. intros (kvs & Hl & ->)%IH.
      exists ((k, v) :: kvs). split; [by constructor|done].
    + intros (kvs & H & ->). inversion H as [|? [k v] ? kvs' E Hl]; subst. rewrite E. apply IH. by exists kvs'.
Qed.

(** A user's line. *)
Definition user_line (kv : string * string) : string := kv.1 +:+ ":" +:+ kv.2.
Definition user_ok (kv : string * string) : bool := free ":" kv.1 && free ":" kv.2.

Lemma split_user_line kv : user_ok kv = true -> split (user_line kv) ":" = [kv.1; kv.2].
Proof.
  destruct kv as [k v]. unfold user_ok, user_line. simpl. intros [Hk Hv]%andb_true_iff.
  change (k +:+ ":" +:+ v) with (k +:+ String ":" v). rewrite split_sep by done. by rewrite split_free.
Qed.

(** The users of basic authentication are read back as written, one colon
    between a name and a secret, later lines of a name winning, those of the
    file after those of the configuration; a line with another number of colons
    is an error. *)
Theorem parserBasicUsers_roundtrip `{files : TLSFiles Certificate} (kvs : list (string * string)) (file : string) lines :
  Forall (fun kv => user_ok kv = true) kvs ->
  (file = "" /\ lines = [] \/ file <> "" /\ getLinesFromFile file = Ok (map user_line lines)) ->
  Forall (fun kv => user_ok kv = true) lines ->
  parserBasicUsers (mkUsersAuth (map user_line kvs) file) = Ok (foldl (fun m kv => <[kv.1 := kv.2]> m) ∅ (kvs ++ lines)).
Proof.
  intros Hk Hf Hl. unfold parserBasicUsers, user_lines. simpl.
  assert ((if nonempty file then getLinesFromFile file else Ok []) = Ok (map user_line lines)) as ->.
  { destruct Hf as [[-> ->]|[Hne ->]]; [done|]. unfold nonempty. by rewrite bool_decide_eq_false_2. }
  simpl. apply add_users_spec. exists (kvs ++ lines). split; [|done]. rewrite <-map_app.
  assert (Forall (fun kv => user_ok kv = true) (kvs ++ lines)) as H by (by apply Forall_app).
  induction H as [|kv l Hkv H IH]; simpl; constructor; [|done]. rewrite split_user_line by done. by destruct kv.
Qed.

(** ** Handlers *)

(** An authenticated request carries the user the library found, under the
    configured key; the other headers stay. *)
Lemma basic_handler_spec `{GoAuth} users field r u r' :
  basic_handler users field r = Passed u r' ->
  u = basic_CheckAuth (secretBasic users) r /\ u <> "" /\ ReqURL r' = ReqURL r /\
  forall k, ReqHeader r' !! k = if bool_decide (field <> "" /\ k = field) then Some [u] else ReqHeader r !! k.
Proof.
  unfold basic_handler. case_bool_decide as Hu; [done|]. unfold mark_user, nonempty. intros [= <- <-].
  split_and!; [done|done|by case_bool_decide|]. intros k.
  case_bool_decide as Hf; simpl; [by rewrite bool_decide_eq_false_2 by (intros [? _]; done)|].
  destruct (decide (k = field)) as [->|Hk]; [by rewrite lookup_insert_eq, bool_decide_eq_true_2|].
  rewrite lookup_insert_ne by done. by rewrite bool_decide_eq_false_2 by (intros [_ ?]; done).
Qed.

(** A key that is not canonical leaves the client's own header, which is what
    [Get] and most backends read, in place. *)
Lemma noncanonical_field_spoofed `{GoAuth} users field r u r' :
  basic_handler users field r = Passed u r' -> canonical_key field <> field ->
  req_header r' field = req_header r field.
Proof.
  intros (_ & _ & _ & Hk)%basic_handler_spec Hf. unfold req_header, header_get, header_values.
  by rewrite Hk, bool_decide_eq_false_2 by (intros [_ ?]; done).
Qed.

(** ** Forward authentication *)

Lemma header_values_set h k v k' :
  header_values (header_set h k v) k' = if bool_decide (canonical_key k = k') then [v] else header_values h k'.
Proof.
  unfold header_values, header_set. case_bool_decide as E; [subst; by rewrite lookup_insert_eq|by rewrite lookup_insert_ne].
Qed.
Lemma header_values_del h k k' :
  header_values (header_del h k) k' = if bool_decide (canonical_key k = k') then [] else header_values h k'.
Proof.
  unfold header_values, header_del. case_bool_decide as E; [subst; by rewrite lookup_delete_eq|by rewrite lookup_delete_ne].
Qed.

Lemma append_nonempty a b : b <> "" -> a +:+ b <> "".
Proof. by destruct a. Qed.

Lemma request_uri_nonempty u : request_uri u <> "".
Proof.
  unfold request_uri.
  assert ((if bool_decide (Opaque u = "") then if bool_decide (escaped_path u = "") then "/" else escaped_path u
    else if has_prefix (Opaque u) "//" then Scheme u +:+ ":" +:+ Opaque u else Opaque u) <> "") as H.
  { repeat case_bool_decide; try done. case_match; [|done]. by apply append_nonempty. }
  destruct (ForceQuery u || _); [|done]. intros E. apply H. by destruct (if bool_decide (Opaque u = "") then _ else _).
Qed.

(** What the authentication server is told of a client whose forwarding
    headers are not trusted: its address, protocol, host and URI are the
    connection's and the request's own, and every other header is the client's,
    the port it claims included. *)
Theorem writeHeader_untrusted (req : Request) (clientIP port : string) :
  SplitHostPort (RemoteAddr req) = Ok (clientIP, port) ->
  header_values (writeHeader req false) XForwardedFor = [clientIP] /\
  header_values (writeHeader req false) XForwardedProto = [if TLS req then "https" else "http"] /\
  header_values (writeHeader req false) XForwardedHost = (if nonempty (Host req) then [Host req] else []) /\
  header_values (writeHeader req false) xForwardedURI = [request_uri (ReqURL req)] /\
  forall k, k ∉ [XForwardedFor; XForwardedProto; XForwardedHost; xForwardedURI] ->
    header_values (writeHeader req false) k = header_values (ReqHeader req) k.
Proof.
  intros Hip. unfold writeHeader, set_uri, set_host, set_port, set_proto, set_client_ip.
  rewrite Hip, CopyHeaders_empty, !andb_false_r.
  assert (nonempty (request_uri (ReqURL req)) = true) as ->
    by (unfold nonempty; by rewrite bool_decide_eq_false_2 by apply request_uri_nonempty).
  assert (forall k, k ∈ [XForwardedFor; XForwardedProto; XForwardedHost; xForwardedURI] -> canonical_key k = k) as Hc.
  { intros k Hk. rewrite !elem_of_cons, elem_of_nil in Hk. naive_solver. }
  split_and!; [| | | |intros k Hk; rewrite !not_elem_of_cons in Hk; destruct Hk as (H1 & H2 & H3 & H4 & _)];
    destruct (nonempty (Host req)), (TLS req);
    repeat (first [rewrite header_values_set | rewrite header_values_del];
      rewrite Hc by (rewrite !elem_of_cons; auto); case_bool_decide; try first [discriminate | congruence]);
    reflexivity.
Qed.

(** ** Witnesses, and the verdict of the authentication server *)

Section Verdict.
Context {Certificate W : Type} `{files : TLSFiles Certificate} `{urls : UrlLib}.
Context (Do : option (TLSConfig Certificate) -> GoHttp.URL -> Header -> M W (result ForwardResponse)).

Definition accepted (res : ForwardResponse) : Prop := (200 <= fr_StatusCode res < 300)%Z /\ is_ok (fr_Body res) = true.

(** The configuration of the client, when it can be built. *)
Definition forward_tls (config : Forward) : result (option (TLSConfig Certificate)) :=
  match fwd_TLS config with Some tls => CreateTLSConfig (Some tls) | None => Ok None end.

(** What is let through is the request, its URI made to match its URL. *)
Lemma Forward_passed (config : Forward) (r r' : Request) (w w' : W) :
  Forward_ServeHTTP Do config r w = (Ret (Next r'), w') -> r' = sync_RequestURI r.
Proof.
  unfold Forward_ServeHTTP. fold (forward_tls config). destruct (forward_tls config); [|done]. destruct (url_Parse _); [|done].
  intros (res & w1 & _ & Hk)%bind_Ret_inv. destruct res as [res|]; [|done]. destruct (fr_Body res); [|done].
  destruct (_ || _); [done|]. by injection Hk as <- _.
Qed.

(** C38: forward authentication lets a request through exactly when the
    authentication server could be asked about it, with the headers of
    [writeHeader], and answered with a status between 200 and 299 and a body
    that could be read; the request is then unchanged but for the request URI,
    made to match its URL.  Any other outcome is an answer to the client. *)
Theorem Forward_lets_through (config : Forward) (r r' : Request) (w w' : W) :
  Forward_ServeHTTP Do config r w = (Ret (Next r'), w') <->
  exists tlsConfig url res, forward_tls config = Ok tlsConfig /\ url_Parse (Address config) = Ok url /\
    Do tlsConfig url (writeHeader r (TrustForwardHeader config)) w = (Ret (Ok res), w') /\ accepted res /\
    r' = sync_RequestURI r.
Proof.
  unfold Forward_ServeHTTP, accepted. fold (forward_tls config).
  destruct (forward_tls config) as [t|] eqn:Et; [|split; [done|naive_solver]].
  destruct (url_Parse (Address config)) as [u|] eqn:Eu; [|split; [done|naive_solver]]. split.
  - intros (res & w1 & Hd & Hk)%bind_Ret_inv. destruct res as [res|]; [|done].
    destruct (fr_Body res) eqn:Eb; [|done].
    destruct ((fr_StatusCode res <? 200)%Z || (300 <=? fr_StatusCode res)%Z) eqn:Ec; [done|].
    injection Hk as <- <-. apply orb_false_iff in Ec as [? ?]. exists t, u, res.
    rewrite Eb. split_and!; try done; lia.
  - intros (t' & u' & res & [= <-] & [= <-] & Hd & [[H1 H2] Hb] & ->). unfold mbind at 1, M_bind at 1. rewrite Hd.
    destruct (fr_Body res); [|done].
    replace (fr_StatusCode res <? 200)%Z with false by lia. by replace (300 <=? fr_StatusCode res)%Z with false by lia.
Qed.

End Verdict.

Definition no_files : TLSFiles unit :=
  {| file_exists _ := false; ReadFile n := if bool_decide (n = "users") then Ok (String "010" ("bob:y" +:+ String "010" "")) else Err n;
     LoadX509KeyPair _ _ := Err ""; X509KeyPair _ _ := Err "" |}.

Lemma parserBasicUsers_roundtrip_witness :
  parserBasicUsers (files := no_files) (mkUsersAuth ["ann:x"] "users") = Ok (<["bob" := "y"]> {["ann" := "x"]}).
Proof.
  assert (getLinesFromFile (files := no_files) "users" = Ok (map user_line [("bob", "y")])) as Hl by (by vm_compute).
  etrans; [apply (parserBasicUsers_roundtrip (files := no_files) [("ann", "x")] "users" [("bob", "y")]);
    [by repeat constructor|by right|by repeat constructor]|by vm_compute].
Defined.

(** A client on port 80 that claims another address and port. *)
Definition spoofing_request : Request :=
  mkRequest "GET" (mkURL "" "" "" "/x" "" false "") (<[XForwardedFor := ["6.6.6.6"]]> {[XForwardedPort := ["443"]]}) "host" "/x"
    "10.0.0.1:5000" false.

Lemma writeHeader_untrusted_witness :
  header_values (writeHeader spoofing_request false) XForwardedFor = ["10.0.0.1"] /\
  header_values (writeHeader spoofing_request false) XForwardedPort = ["443"].
Proof.
  pose proof (writeHeader_untrusted spoofing_request "10.0.0.1" "5000" ltac:(by vm_compute)) as (H1 & _ & _ & _ & H5).
  split; [exact H1|]. rewrite H5; [by vm_compute|]. apply (bool_decide_unpack _). by vm_compute.
Defined.
