(* ===== verification/Balancer.v ===== *)
(** * The load balancer behind [healthcheck.LoadBalancer]

    The interface the server and the health check use, with its laws, and the
    round-robin balancer of [vendor/github.com/vulcand/oxy/roundrobin/rr.go],
    which implements it.  Servers are told apart by path, host and scheme. *)
From S2P Require Import Prelude GoStrings GoHttp.

(** [sameURL] compares these. *)
Definition url_key (u : URL) : string * string * string := (Path u, URLHost u, Scheme u).
Definition sameURL (a b : URL) : bool := bool_decide (url_key a = url_key b).

(** ** The interface *)

Class LoadBalancer (LB : Type) := {
  Servers : LB -> list URL;
  RemoveServer : URL -> LB -> LB * option error;
  UpsertServer : URL -> Z -> LB -> LB * option error;
}.

Definition keys {LB} `{LoadBalancer LB} (lb : LB) : list (string * string * string) := map url_key (Servers lb).

Class LoadBalancerLaws (LB : Type) `{LoadBalancer LB} := {
  upsert_new lb u w : (0 <= w)%Z -> url_key u ∉ keys lb ->
    exists lb', UpsertServer u w lb = (lb', None) /\ Servers lb' = Servers lb ++ [u];
  upsert_known lb u w : (0 <= w)%Z -> url_key u ∈ keys lb ->
    exists lb', UpsertServer u w lb = (lb', None) /\ Servers lb' = Servers lb;
  upsert_negative lb u w : (w < 0)%Z -> exists err, UpsertServer u w lb = (lb, Some err);
  remove_known lb u : NoDup (keys lb) -> url_key u ∈ keys lb ->
    exists lb', RemoveServer u lb = (lb', None) /\ Servers lb' = List.filter (fun v => negb (sameURL u v)) (Servers lb);
  remove_unknown lb u : url_key u ∉ keys lb -> exists err, RemoveServer u lb = (lb, Some err);
}.

(** ** roundrobin *)

Record server := mkServer { srv_url : URL; srv_weight : Z }.
(** [rr_sticky] is the cookie of [EnableStickySession]. *)
Record RoundRobin := mkRoundRobin {
  rr_servers : list server;
  index : Z;
  currentWeight : Z;
  rr_sticky : option string;
}.

Definition rr_New (sticky : option string) : RoundRobin := mkRoundRobin [] (-1) 0 sticky.
(** [resetState], with new servers. *)
Definition with_servers (l : list server) (r : RoundRobin) : RoundRobin := mkRoundRobin l (-1) 0 (rr_sticky r).

Definition defaultWeight : Z := 1.

(** The first server of the URL, what precedes it and what follows. *)
Fixpoint findServerByURL (u : URL) (l : list server) : option (list server * server * list server) :=
  match l with
  | [] => None
  | s :: l' =>
      if sameURL u (srv_url s) then Some ([], s, l') else
      match findServerByURL u l' with Some (before, x, after) => Some (s :: before, x, after) | None => None end
  end.

Definition rr_RemoveServer (u : URL) (r : RoundRobin) : RoundRobin * option error :=
  match findServerByURL u (rr_servers r) with
  | None => (r, Some "server not found")
  | Some (before, _, after) => (with_servers (before ++ after) r, None)
  end.

(** With the option [Weight(w)]: the weight of a known server is replaced,
    zero included; a new server of weight zero gets the default weight. *)
Definition rr_UpsertServer (u : URL) (w : Z) (r : RoundRobin) : RoundRobin * option error :=
  if (w <? 0)%Z then (r, Some "Weight should be >= 0") else
  match findServerByURL u (rr_servers r) with
  | Some (before, s, after) => (with_servers (before ++ mkServer (srv_url s) w :: after) r, None)
  | None => (with_servers (rr_servers r ++ [mkServer u (if (w =? 0)%Z then defaultWeight else w)]) r, None)
  end.

#[export] Instance RoundRobin_balancer : LoadBalancer RoundRobin := {|
  Servers r := map srv_url (rr_servers r);
  RemoveServer := rr_RemoveServer;
  UpsertServer := rr_UpsertServer;
|}.

Lemma findServerByURL_Some u l before s after :
  findServerByURL u l = Some (before, s, after) ->
  l = before ++ s :: after /\ sameURL u (srv_url s) = true /\ Forall (fun x => sameURL u (srv_url x) = false) before.
Proof.
  revert before. induction l as [|x l IH]; intros before; simpl; [done|].
  destruct (sameURL u (srv_url x)) eqn:E; [by intros [= <- <- <-]|].
  destruct (findServerByURL u l) as [[[b y] a]|]; [|done]. intros [= <- <- <-].
  destruct (IH b eq_refl) as (-> & Hs & Hb). by repeat constructor.
Qed.

Lemma findServerByURL_None u l :
  findServerByURL u l = None <-> Forall (fun x => sameURL u (srv_url x) = false) l.
Proof.
  induction l as [|x l IH]; simpl; [done|]. rewrite Forall_cons.
  destruct (sameURL u (srv_url x)) eqn:E; [split; [done|by intros [? _]]|].
  destruct (findServerByURL u l) as [[[b y] a]|]; [split; [done|by intros [_ ?%IH]]|]. split; [split; [done|by apply IH]|done].
Qed.

Lemma rr_unknown u (r : RoundRobin) : url_key u ∉ keys r <-> findServerByURL u (rr_servers r) = None.
Proof.
  rewrite findServerByURL_None, Forall_forall. unfold keys. simpl. rewrite map_map. split.
  - intros Hn x Hx. apply bool_decide_eq_false. intros E. apply Hn. rewrite E. by apply (list_elem_of_fmap_2 (fun s => url_key (srv_url s))).
  - intros Hf (x & E & Hx)%list_elem_of_fmap. specialize (Hf x Hx). unfold sameURL in Hf.
    by apply bool_decide_eq_false in Hf.
Qed.

Lemma filter_others u l :
  Forall (fun x => sameURL u (srv_url x) = false) l -> List.filter (fun v => negb (sameURL u v)) (map srv_url l) = map srv_url l.
Proof. induction 1 as [|x l Hx H IH]; simpl; [done|]. by rewrite Hx, IH. Qed.

#[export] Instance RoundRobin_laws : LoadBalancerLaws RoundRobin.
Proof.
  split.
  - intros r u w Hw Hn%rr_unknown. simpl. unfold rr_UpsertServer. replace (w <? 0)%Z with false by lia. rewrite Hn.
    eexists. split; [done|]. simpl. by rewrite map_app.
  - intros r u w Hw Hk. simpl. unfold rr_UpsertServer. replace (w <? 0)%Z with false by lia.
    destruct (findServerByURL u (rr_servers r)) as [[[b s] a]|] eqn:E; [|by apply rr_unknown in E].
    eexists. split; [done|]. apply findServerByURL_Some in E as (-> & _ & _). simpl. by rewrite !map_app.
  - intros r u w Hw. simpl. unfold rr_UpsertServer. replace (w <? 0)%Z with true by lia. by eexists.
  - intros r u Hnd Hk. simpl. unfold rr_RemoveServer.
    destruct (findServerByURL u (rr_servers r)) as [[[b s] a]|] eqn:E; [|by apply rr_unknown in E].
    eexists. split; [done|]. apply findServerByURL_Some in E as (E & Hs & Hb).
    unfold keys in Hnd. simpl in Hnd |- *. rewrite E in Hnd |- *. rewrite !map_app in Hnd |- *.
    simpl in Hnd |- *. rewrite List.filter_app. simpl. rewrite Hs. simpl. rewrite filter_others by done. f_equal. symmetry. apply filter_others.
    apply NoDup_app in Hnd as (_ & _ & [Hns _]%NoDup_cons). apply Forall_forall. intros x Hx. apply bool_decide_eq_false. intros Ex.
    apply Hns. apply bool_decide_eq_true in Hs. rewrite <-Hs, Ex, map_map. by apply (list_elem_of_fmap_2 (fun s => url_key (srv_url s))).
  - intros r u Hn%rr_unknown. simpl. unfold rr_RemoveServer. rewrite Hn. by eexists.
Qed.
