(* ===== verification/HealthCheck.v ===== *)
(** * [healthcheck/healthcheck.go]: taking sick servers out of the balancer

    A routine per backend asks every server for its health at each tick of the
    interval; a server that fails leaves the balancer for the list of disabled
    servers, one that recovers returns.  The client and the world it talks to
    are parameters; the balancer is any one of the interface. *)
From S2P Require Import Prelude GoStrings GoStringsFacts GoStrconv GoNet GoHttp Types OsioClient Redirect Wiring Balancer.

Record BackendHealthCheck := mkBackendHealthCheck {
  bh_options : HealthOptions;
  bh_name : string;
  disabledURLs : list GoHttp.URL;
  requestTimeout : Z;
}.

Definition NewBackendHealthCheck (options : HealthOptions) (backendName : string) : BackendHealthCheck :=
  mkBackendHealthCheck options backendName [] (5 * 1000000000).

Definition set_disabled (l : list GoHttp.URL) (b : BackendHealthCheck) : BackendHealthCheck :=
  mkBackendHealthCheck (bh_options b) (bh_name b) l (requestTimeout b).

(** ** The request *)

(** [u.Hostname()] *)
Definition Hostname (hostport : string) : string :=
  match cut hostport ":" with
  | None => hostport
  | Some (before, _) =>
      match cut hostport "]" with Some (literal, _) => trim_prefix literal "[" | None => before end
  end.

Definition set_URLHost (h : string) (u : GoHttp.URL) : GoHttp.URL :=
  mkURL (Scheme u) (Opaque u) h (Path u) (RawPath u) (ForceQuery u) (RawQuery u).

Section Check.
Context `{urls : UrlLib} {W : Type}.

(** [client.Do(req)] with the given timeout: the status of the response. *)
Context (Do : Z -> Request -> W -> result Z * W).

Definition get_request (url : string) : result Request :=
  match url_Parse url with
  | Err err => Err err
  | Ok u => Ok (mkRequest "GET" u ∅ (URLHost u) (request_uri u) "" false)
  end.

Definition newRequest (backend : BackendHealthCheck) (serverURL : GoHttp.URL) : result Request :=
  let o := bh_options backend in
  if (ho_Port o =? 0)%Z then get_request (url_String serverURL +:+ ho_Path o) else
  let u := set_URLHost (JoinHostPort (Hostname (URLHost serverURL)) (pretty (ho_Port o))) serverURL in
  let u := set_Path (Path u +:+ ho_Path o) u in
  get_request (url_String u).

Definition StatusOK : Z := 200.

Definition checkHealth (serverURL : GoHttp.URL) (backend : BackendHealthCheck) (w : W) : option error * W :=
  match newRequest backend serverURL with
  | Err err => (Some ("failed to create HTTP request: " +:+ err), w)
  | Ok req =>
      match Do (requestTimeout backend) req w with
      | (Err err, w') => (Some ("HTTP request failed: " +:+ err), w')
      | (Ok status, w') =>
          (if (status =? StatusOK)%Z then None else Some ("received non-200 status code: " +:+ pretty status), w')
      end
  end.

(** ** One round of checks *)

Context {LB : Type} `{lbs : LoadBalancer LB}.

(** The world, the balancer of the backend, and the gauge of its servers by
    backend and URL. *)
Record round := mkRound { world : W; balancer : LB; gauge : gmap (string * string) Z }.

Definition set_gauge (name : string) (u : GoHttp.URL) (v : Z) (g : gmap (string * string) Z) : gmap (string * string) Z :=
  <[(name, url_String u) := v]> g.

(** The errors of the balancer are not looked at. *)
Definition check_disabled (backend : BackendHealthCheck) (acc : list GoHttp.URL * round) (url : GoHttp.URL) :
    list GoHttp.URL * round :=
  let '(newDisabledURLs, s) := acc in
  let '(err, w) := checkHealth url backend (world s) in
  match err with
  | None => (newDisabledURLs, mkRound w (UpsertServer url 1 (balancer s)).1 (set_gauge (bh_name backend) url 1 (gauge s)))
  | Some _ => (newDisabledURLs ++ [url], mkRound w (balancer s) (set_gauge (bh_name backend) url 0 (gauge s)))
  end.

Definition check_enabled (backend : BackendHealthCheck) (acc : list GoHttp.URL * round) (url : GoHttp.URL) :
    list GoHttp.URL * round :=
  let '(disabled, s) := acc in
  let '(err, w) := checkHealth url backend (world s) in
  match err with
  | Some _ => (disabled ++ [url], mkRound w (RemoveServer url (balancer s)).1 (set_gauge (bh_name backend) url 0 (gauge s)))
  | None => (disabled, mkRound w (balancer s) (set_gauge (bh_name backend) url 1 (gauge s)))
  end.

Definition checkBackend (backend : BackendHealthCheck) (s : round) : BackendHealthCheck * round :=
  let enabledURLs := Servers (balancer s) in
  let '(newDisabledURLs, s) := foldl (check_disabled backend) ([], s) (disabledURLs backend) in
  let '(disabled, s) := foldl (check_enabled backend) (newDisabledURLs, s) enabledURLs in
  (set_disabled disabled backend, s).

(** [execute] after [n] ticks. *)
Fixpoint execute (n : nat) (backend : BackendHealthCheck) (s : round) : BackendHealthCheck * round :=
  match n with
  | O => checkBackend backend s
  | S n' => let '(backend, s) := execute n' backend s in checkBackend backend s
  end.

(** ** What a round does *)

(** The verdicts on a list of servers asked one after the other. *)
Fixpoint verdicts (backend : BackendHealthCheck) (us : list GoHttp.URL) (w : W) : list (GoHttp.URL * bool) * W :=
  match us with
  | [] => ([], w)
  | url :: us' =>
      let '(err, w) := checkHealth url backend w in
      let '(l, w) := verdicts backend us' w in
      ((url, match err with None => true | Some _ => false end) :: l, w)
  end.

Definition healthy (l : list (GoHttp.URL * bool)) : list GoHttp.URL := map fst (List.filter snd l).
Definition sick (l : list (GoHttp.URL * bool)) : list GoHttp.URL := map fst (List.filter (fun x : GoHttp.URL * bool => negb x.2) l).
Definition gauges (name : string) (l : list (GoHttp.URL * bool)) (g : gmap (string * string) Z) : gmap (string * string) Z :=
  foldl (fun g (x : GoHttp.URL * bool) => set_gauge name x.1 (if x.2 then 1 else 0)%Z g) g l.

Lemma map_filter {A B} (f : A -> B) (p : B -> bool) (l : list A) :
  map f (List.filter (fun x => p (f x)) l) = List.filter p (map f l).
Proof. induction l as [|x l IH]; simpl; [done|]. destruct (p (f x)); simpl; by rewrite IH. Qed.

Lemma healthy_sick l : healthy l ++ sick l ≡ₚ map fst l.
Proof.
  unfold healthy, sick. induction l as [|[u []] l IH]; simpl; [done|by rewrite IH|].
  by rewrite <-Permutation_middle, IH.
Qed.

Lemma verdicts_urls backend us w : map fst (verdicts backend us w).1 = us.
Proof.
  revert w. induction us as [|u us IH]; intros w; [done|]. simpl.
  destruct (checkHealth u backend w) as [err w1]. specialize (IH w1).
  destruct (verdicts backend us w1) as [l w2]. simpl in *. by rewrite IH.
Qed.

Context {laws : LoadBalancerLaws LB}.

Lemma disabled_round backend us acc s :
  NoDup (keys (balancer s) ++ map url_key us) ->
  let v := verdicts backend us (world s) in
  exists s', foldl (check_disabled backend) (acc, s) us = (acc ++ sick v.1, s') /\ world s' = v.2 /\
    Servers (balancer s') = Servers (balancer s) ++ healthy v.1 /\ gauge s' = gauges (bh_name backend) v.1 (gauge s).
Proof using laws.
  revert acc s. induction us as [|u us IH]; intros acc s Hnd.
  - exists s. by rewrite !app_nil_r.
  - cbn [foldl check_disabled verdicts]. simpl in Hnd.
    assert (url_key u ∉ keys (balancer s)) as Hu.
    { apply NoDup_app in Hnd as (_ & Hd & _). intros Hin. apply (Hd _ Hin). by left. }
    destruct (checkHealth u backend (world s)) as [[err|] w1].
    + destruct (IH (acc ++ [u]) (mkRound w1 (balancer s) (set_gauge (bh_name backend) u 0 (gauge s)))) as (s' & E & Hw & HS & Hg).
      { simpl. eapply sublist_NoDup; [exact Hnd|]. apply sublist_app; [done|]. by apply sublist_cons. }
      exists s'. simpl in *. rewrite E. destruct (verdicts backend us w1) as [l w2]. simpl in *. by rewrite <-app_assoc.
    + destruct (upsert_new (balancer s) u 1 ltac:(lia) Hu) as (lb' & HE & Hlb). rewrite HE. cbn [fst].
      destruct (IH acc (mkRound w1 lb' (set_gauge (bh_name backend) u 1 (gauge s)))) as (s' & E & Hw & HS & Hg).
      { simpl. unfold keys. rewrite Hlb, map_app, <-app_assoc. done. }
      exists s'. simpl in *. rewrite E. destruct (verdicts backend us w1) as [l w2]. simpl in *.
      by rewrite HS, Hlb, <-app_assoc.
Qed.

(** Removing, one after the other, the servers of a list. *)
Definition removed (gone l : list GoHttp.URL) : list GoHttp.URL :=
  List.filter (fun v => negb (existsb (fun u => sameURL u v) gone)) l.

Lemma enabled_round backend us acc s :
  NoDup (keys (balancer s)) -> NoDup (map url_key us) -> Forall (fun u => url_key u ∈ keys (balancer s)) us ->
  let v := verdicts backend us (world s) in
  exists s', foldl (check_enabled backend) (acc, s) us = (acc ++ sick v.1, s') /\ world s' = v.2 /\
    Servers (balancer s') = removed (sick v.1) (Servers (balancer s)) /\ gauge s' = gauges (bh_name backend) v.1 (gauge s).
Proof using laws.
  revert acc s. induction us as [|u us IH]; intros acc s Hnd Hu Hin.
  - exists s. rewrite app_nil_r. split_and!; try done. unfold removed. simpl. symmetry. induction (Servers (balancer s)); simpl; by f_equal.
  - cbn [foldl check_enabled verdicts]. apply Forall_cons in Hin as [Hk Hin]. apply NoDup_cons in Hu as [Hnu Hu].
    destruct (checkHealth u backend (world s)) as [[err|] w1].
    + destruct (remove_known (balancer s) u Hnd Hk) as (lb' & HE & Hlb). rewrite HE. cbn [fst].
      assert (keys lb' = List.filter (fun k => negb (bool_decide (url_key u = k))) (keys (balancer s))) as Hkeys.
      { unfold keys. rewrite Hlb. pose proof (map_filter url_key (fun k => negb (bool_decide (url_key u = k))) (Servers (balancer s))) as E. exact E. }
      destruct (IH (acc ++ [u]) (mkRound w1 lb' (set_gauge (bh_name backend) u 0 (gauge s)))) as (s' & E & Hw & HS & Hg).
      { simpl. rewrite Hkeys. by apply NoDup_ListNoDup, List.NoDup_filter, NoDup_ListNoDup. }
      { done. }
      { simpl. rewrite Hkeys. apply Forall_forall. intros x Hx. apply list_elem_of_In, List.filter_In. split.
        - apply list_elem_of_In. rewrite Forall_forall in Hin. by apply Hin.
        - rewrite negb_true_iff, bool_decide_eq_false. intros E'. apply Hnu. rewrite E'. by apply (list_elem_of_fmap_2 url_key). }
      exists s'. simpl in *. rewrite E. destruct (verdicts backend us w1) as [l w2]. simpl in *. rewrite <-app_assoc.
      split_and!; try done. rewrite HS, Hlb. unfold removed, sick. simpl. clear. induction (Servers (balancer s)) as [|v vs IH]; simpl; [done|].
      destruct (sameURL u v); simpl; [done|]. case_match; simpl; by rewrite IH.
    + destruct (IH acc (mkRound w1 (balancer s) (set_gauge (bh_name backend) u 1 (gauge s)))) as (s' & E & Hw & HS & Hg); try done.
      exists s'. simpl in *. rewrite E. by destruct (verdicts backend us w1) as [l w2].
Qed.

Lemma sick_in l (v : GoHttp.URL) : v ∈ sick l <-> (v, false) ∈ l.
Proof.
  unfold sick. rewrite list_elem_of_fmap. split.
  - intros ([u b] & -> & [Hin Hb]%list_elem_of_In%List.filter_In). destruct b; [done|]. by apply list_elem_of_In.
  - intros Hin. exists (v, false). split; [done|]. apply list_elem_of_In, List.filter_In. split; [by apply list_elem_of_In|done].
Qed.

(** The servers checked, in the order of the checks, are those that stay. *)
Lemma removed_sick l : NoDup (map url_key (map fst l)) -> removed (sick l) (map fst l) = healthy l.
Proof.
  unfold removed. intros Hnd.
  assert (forall l', sublist l' l -> List.filter (fun v => negb (existsb (fun u => sameURL u v) (sick l))) (map fst l') = healthy l') as H;
    [|by apply H].
  intros l'. induction l' as [|[u b] l' IH]; intros Hs; [done|]. simpl.
  assert ((u, b) ∈ l) as Hin by (eapply elem_of_sublist; [by left|exact Hs]).
  assert (existsb (fun u' => sameURL u' u) (sick l) = negb b) as ->.
  { destruct b; simpl.
    - apply not_true_is_false. intros (u' & Hu' & E%bool_decide_eq_true)%existsb_exists. apply list_elem_of_In, sick_in in Hu'.
      rewrite map_map in Hnd. by pose proof (NoDup_map_inj _ l (u', false) (u, true) Hnd Hu' Hin E).
    - apply existsb_exists. exists u. split; [by apply list_elem_of_In, sick_in|]. by apply bool_decide_eq_true. }
  assert (sublist l' l) as Hs' by (etrans; [by apply sublist_cons|exact Hs]). specialize (IH Hs').
  unfold healthy in *. destruct b; simpl; by rewrite IH.
Qed.

Lemma removed_app gone l1 l2 : removed gone (l1 ++ l2) = removed gone l1 ++ removed gone l2.
Proof. apply List.filter_app. Qed.

Lemma removed_none gone l :
  (forall u v, u ∈ gone -> v ∈ l -> url_key u <> url_key v) -> removed gone l = l.
Proof.
  unfold removed. induction l as [|v l IH]; intros H; simpl; [done|].
  assert (existsb (fun u => sameURL u v) gone = false) as ->.
  { apply not_true_is_false. intros (u & Hu & E%bool_decide_eq_true)%existsb_exists. apply list_elem_of_In in Hu.
    eapply H; [exact Hu|by left|exact E]. }
  simpl. f_equal. apply IH. intros; apply H; [done|by right].
Qed.

Definition tracked (backend : BackendHealthCheck) (s : round) : list GoHttp.URL :=
  Servers (balancer s) ++ disabledURLs backend.

(** A round over distinct servers.  Every disabled server, then every
    server of the balancer is asked; the balancer keeps, in order, those of its
    servers that answered 200 and gets those that recovered behind them; the
    others are the new disabled servers; the gauge of every server asked says
    whether it is up. *)
Theorem checkBackend_spec (backend : BackendHealthCheck) (s : round) :
  NoDup (map url_key (tracked backend s)) ->
  let d := verdicts backend (disabledURLs backend) (world s) in
  let e := verdicts backend (Servers (balancer s)) d.2 in
  exists s', checkBackend backend s = (set_disabled (sick d.1 ++ sick e.1) backend, s') /\ world s' = e.2 /\
    Servers (balancer s') = healthy e.1 ++ healthy d.1 /\
    gauge s' = gauges (bh_name backend) e.1 (gauges (bh_name backend) d.1 (gauge s)).
Proof using laws.
  intros Hnd d e. unfold tracked in Hnd. rewrite map_app in Hnd. unfold checkBackend.
  destruct (disabled_round backend (disabledURLs backend) [] s Hnd) as (s1 & E1 & Hw1 & HS1 & Hg1). fold d in E1, Hw1, HS1, Hg1. rewrite E1.
  apply NoDup_app in Hnd as (Hs & Hd & Hdis).
  assert (map fst d.1 = disabledURLs backend) as Hdu by apply verdicts_urls.
  assert (map fst e.1 = Servers (balancer s)) as Heu by apply verdicts_urls.
  assert (forall v, v ∈ healthy d.1 -> v ∈ disabledURLs backend) as Hh.
  { intros v Hv. rewrite <-Hdu, <-healthy_sick. set_solver. }
  destruct (enabled_round backend (Servers (balancer s)) (sick d.1) s1) as (s2 & E2 & Hw2 & HS2 & Hg2).
  { unfold keys. rewrite HS1, map_app. apply NoDup_app. split_and!; [done| |].
    - intros k Hk (v & -> & Hv)%list_elem_of_fmap. apply (Hd _ Hk). by apply (list_elem_of_fmap_2 url_key), Hh.
    - rewrite <-Hdu, <-healthy_sick, map_app in Hdis. by apply NoDup_app in Hdis as (? & _ & _). }
  { done. }
  { unfold keys. rewrite HS1, map_app. apply Forall_forall. intros v Hv. apply elem_of_app. left. by apply list_elem_of_fmap_2. }
  rewrite Hw1 in *. fold e in E2, Hw2, HS2, Hg2. simpl. rewrite E2. exists s2. split_and!; [done|done| |by rewrite Hg2, Hg1].
  rewrite HS2, HS1, removed_app. f_equal.
  - rewrite <-Heu. apply removed_sick. by rewrite Heu.
  - apply removed_none. intros u v Hu Hv E. apply (Hd (url_key u)); [|rewrite E; by apply (list_elem_of_fmap_2 url_key), Hh].
    apply (list_elem_of_fmap_2 url_key). rewrite <-Heu. apply sick_in in Hu. by apply (list_elem_of_fmap_2 fst) in Hu.
Qed.

(** C35: no server is lost or doubled: after any number of ticks the servers of
    the balancer and the disabled ones are together the servers there were. *)
Theorem execute_conserves (n : nat) (backend : BackendHealthCheck) (s : round) :
  NoDup (map url_key (tracked backend s)) ->
  let '(backend', s') := execute n backend s in tracked backend' s' ≡ₚ tracked backend s.
Proof using laws.
  assert (forall b s, NoDup (map url_key (tracked b s)) ->
    let '(b', s') := checkBackend b s in tracked b' s' ≡ₚ tracked b s) as Hone.
  { intros b s0 Hnd. destruct (checkBackend_spec b s0 Hnd) as (s' & E & _ & HS & _). rewrite E. unfold tracked, set_disabled. simpl.
    rewrite HS. set (d := verdicts b (disabledURLs b) (world s0)). set (e := verdicts b (Servers (balancer s0)) d.2).
    assert (healthy e.1 ++ sick e.1 ≡ₚ Servers (balancer s0)) as He by (by rewrite healthy_sick; unfold e; rewrite verdicts_urls).
    assert (healthy d.1 ++ sick d.1 ≡ₚ disabledURLs b) as Hd by (by rewrite healthy_sick; unfold d; rewrite verdicts_urls).
    rewrite <-He, <-Hd, <-!app_assoc. apply Permutation_app_head. rewrite (app_assoc (healthy d.1)). by rewrite Permutation_app_comm. }
  intros Hnd. induction n as [|n IH]; simpl; [by apply Hone|].
  destruct (execute n backend s) as [b1 s1]. specialize (Hone b1 s1). destruct (checkBackend b1 s1) as [b2 s2].
  rewrite <-IH. apply Hone. by rewrite IH.
Qed.

End Check.

(** ** The routines of a configuration *)

(** A context is named by a number; a routine is its context and the backend
    it checks.  [hc_cancel] is the context of the last configuration. *)
Record HealthCheck := mkHealthCheck {
  hc_Backends : gmap string BackendHealthCheck;
  hc_cancel : option nat;
  cancelled : list nat;
  routines : list (nat * string);
  next_ctx : nat;
}.

Definition newHealthCheck : HealthCheck := mkHealthCheck ∅ None [] [] 0.

Definition SetBackendsConfiguration `{order : MapOrder} (backends : gmap string BackendHealthCheck) (hc : HealthCheck) : HealthCheck :=
  let cancelled := match hc_cancel hc with Some ctx => ctx :: cancelled hc | None => cancelled hc end in
  let ctx := next_ctx hc in
  mkHealthCheck backends (Some ctx) cancelled (routines hc ++ map (fun b => (ctx, b.1)) (range backends)) (S ctx).

(** A routine of a cancelled context ends at its next wait. *)
Definition live (hc : HealthCheck) : list (nat * string) := filter (fun r => r.1 ∉ cancelled hc) (routines hc).

(** Only the last context may not be cancelled, and it is the newest. *)
Definition one_context (hc : HealthCheck) : Prop :=
  Forall (fun r => r.1 < next_ctx hc /\ (r.1 ∈ cancelled hc \/ hc_cancel hc = Some r.1)) (routines hc) /\
  Forall (fun c => c < next_ctx hc) (cancelled hc) /\
  match hc_cancel hc with Some c => c < next_ctx hc | None => True end.

Lemma newHealthCheck_one_context : one_context newHealthCheck.
Proof. repeat constructor. Qed.

(** Whatever configurations came before, the backends that go on being checked
    are those of the last one, one routine each. *)
Lemma SetBackendsConfiguration_live `{order : MapOrder} backends hc :
  one_context hc ->
  one_context (SetBackendsConfiguration backends hc) /\
  (live (SetBackendsConfiguration backends hc)).*2 = (range backends).*1.
Proof.
  intros (Hr & Hc & Hl). unfold SetBackendsConfiguration, one_context, live. simpl.
  set (cs := match hc_cancel hc with Some ctx => ctx :: cancelled hc | None => cancelled hc end).
  assert (Forall (fun c => c < next_ctx hc) cs) as Hcs by (subst cs; destruct (hc_cancel hc); [by constructor|done]).
  assert (Forall (fun r => r.1 < next_ctx hc /\ r.1 ∈ cs) (routines hc)) as Hrs.
  { eapply Forall_impl; [exact Hr|]. simpl. intros r [Hlt [H|H]]; split; [done| |done|]; subst cs; [|rewrite H; by left].
    destruct (hc_cancel hc); [by right|done]. }
  assert (next_ctx hc ∉ cs) as Hnew by (intros Hin; rewrite Forall_forall in Hcs; specialize (Hcs _ Hin); lia).
  split_and!.
  - apply Forall_app. split.
    + eapply Forall_impl; [exact Hrs|]. simpl. intros r [? ?]. split; [lia|by left].
    + apply Forall_forall. intros r ([k b] & -> & _)%list_elem_of_fmap. simpl. split; [lia|by right].
  - eapply Forall_impl; [exact Hcs|]. simpl. lia.
  - lia.
  - rewrite filter_app. replace (filter (fun r => r.1 ∉ cs) (routines hc)) with (@nil (nat * string)).
    + simpl. induction (range backends) as [|[k b] l IH]; simpl; [done|]. by rewrite filter_cons_True, fmap_cons, IH.
    + symmetry. clear -Hrs. induction (routines hc) as [|r l IH]; [done|]. apply Forall_cons in Hrs as [[_ H] Hrs].
      rewrite filter_cons_False by (simpl; tauto). by apply IH.
Qed.

(** ** Witnesses *)

Definition host_urls : UrlLib :=
  {| url_Parse s := Ok (mkURL "http" "" s "" "" false ""); url_String u := URLHost u +:+ Path u |}.
Definition host_url (h : string) : GoHttp.URL := mkURL "http" "" h "" "" false "".

(** The world is the statuses of the answers to come. *)
Definition scripted (_ : Z) (_ : Request) (w : list Z) : result Z * list Z :=
  match w with [] => (Err "closed", []) | status :: w' => (Ok status, w') end.

Definition two_servers : RoundRobin := with_servers [mkServer (host_url "a") 10; mkServer (host_url "b") 3] (rr_New None).
Definition plain_check : BackendHealthCheck := NewBackendHealthCheck (mkHealthOptions "/health" 0 30) "backend".

Lemma checkBackend_spec_witness :
  exists s', checkBackend (urls := host_urls) scripted plain_check (mkRound [500; 200]%Z two_servers ∅) =
      (set_disabled [host_url "a"] plain_check, s') /\ Servers (balancer s') = [host_url "b"].
Proof.
  destruct (checkBackend_spec (urls := host_urls) scripted plain_check (mkRound [500; 200]%Z two_servers ∅)) as (s' & E & _ & HS & _).
  { apply (bool_decide_unpack _). by vm_compute. }
  exists s'. split; [exact E|exact HS].
Defined.

Lemma execute_conserves_witness :
  let '(backend', s') := execute (urls := host_urls) scripted 3 plain_check (mkRound [500; 200; 200; 500]%Z two_servers ∅) in
  tracked backend' s' ≡ₚ [host_url "a"; host_url "b"].
Proof.
  pose proof (execute_conserves (urls := host_urls) scripted 3 plain_check (mkRound [500; 200; 200; 500]%Z two_servers ∅)) as H.
  specialize (H ltac:(apply (bool_decide_unpack _); by vm_compute)).
  destruct (execute (urls := host_urls) scripted 3 plain_check (mkRound [500; 200; 200; 500]%Z two_servers ∅)) as [b s]. exact H.
Defined.

(** A server of weight 10 that failed once is back with weight 1. *)
Example recovered_weight_lost :
  rr_servers (balancer (execute (urls := host_urls) scripted 1 plain_check (mkRound [500; 200; 200; 200]%Z two_servers ∅)).2) =
  [mkServer (host_url "b") 3; mkServer (host_url "a") 1].
Proof. by vm_compute. Qed.

(** The port of the health check replaces the server's. *)
Example port_override :
  newRequest (urls := host_urls) (NewBackendHealthCheck (mkHealthOptions "/health" 8080 30) "b") (host_url "[fe80::1]:80") =
  Ok (mkRequest "GET" (mkURL "http" "" "[fe80::1]:8080/health" "" "" false "") ∅ "[fe80::1]:8080/health" "/" "" false).
Proof. by vm_compute. Qed.
