(* ===== verification/AccessLog.v ===== *)
(** * [middlewares/accesslog/] and [types/logs.go]: the access log

    The outermost handler notes what it knows of a request, lets the others
    answer through a writer that remembers status and size, and writes the
    fields that the configuration keeps.  A handler is the list of what it does
    to the writer, as in [ErrorPages]; times are numbers of nanoseconds. *)
From S2P Require Import Prelude GoStrings GoStringsFacts GoStrconv GoNet GoHttp GoHttpFacts Types EntryPoints.
From S2P Require Import Redirect ErrorPages.

(** ** types/logs.go *)

Definition AccessLogKeep : string := "keep".
Definition AccessLogDrop : string := "drop".
Definition AccessLogRedact : string := "redact".

Record AccessLogFilters := mkAccessLogFilters { StatusCodes : list string; lf_RetryAttempts : bool }.
Record FieldHeaders := mkFieldHeaders { fh_DefaultMode : string; fh_Names : gmap string string }.
Record AccessLogFields := mkAccessLogFields {
  lf_DefaultMode : string;
  lf_Names : gmap string string;
  lf_Headers : option FieldHeaders;
}.
Record AccessLog := mkAccessLog {
  FilePath : string;
  Format : string;
  Filters : option AccessLogFilters;
  Fields : option AccessLogFields;
}.

Definition StatusCodes_Set (s : list string) (str : string) : list string :=
  s ++ fields_func (fun c => Ascii.eqb c "," || Ascii.eqb c ";") str.

Definition FieldNames_Set (f : gmap string string) (value : string) : gmap string string :=
  foldl (fun f field => match split2 field "=" with [k; v] => <[k := v]> f | _ => f end) f (EntryPoints.Fields value).

(** The second piece is indexed without a test: a word without [=] panics. *)
Fixpoint header_names_loop (fields : list string) (f : gmap string string) : outcome (gmap string string) :=
  match fields with
  | [] => Ret f
  | field :: fields' =>
      match split2 field "=" with
      | k :: v :: _ => header_names_loop fields' (<[k := v]> f)
      | _ => Panic "index out of range"
      end
  end.
Definition FieldHeaderNames_Set (f : gmap string string) (value : string) : outcome (gmap string string) :=
  header_names_loop (EntryPoints.Fields value) f.

Definition checkFieldValue (value : string) (defaultKeep : bool) : bool :=
  if bool_decide (value = AccessLogKeep) then true
  else if bool_decide (value = AccessLogDrop) then false else defaultKeep.

Definition checkFieldHeaderValue (value defaultValue : string) : string :=
  if bool_decide (value = AccessLogKeep) || bool_decide (value = AccessLogDrop) || bool_decide (value = AccessLogRedact)
  then value else defaultValue.

Definition Keep (f : option AccessLogFields) (field : string) : bool :=
  match f with
  | None => true
  | Some f =>
      let defaultKeep := checkFieldValue (lf_DefaultMode f) true in
      match lf_Names f !! field with Some v => checkFieldValue v defaultKeep | None => defaultKeep end
  end.

Definition KeepHeader (f : option AccessLogFields) (header : string) : string :=
  match f with
  | Some (mkAccessLogFields _ _ (Some h)) =>
      let defaultValue := checkFieldHeaderValue (fh_DefaultMode h) AccessLogKeep in
      match fh_Names h !! header with Some v => checkFieldHeaderValue v defaultValue | None => defaultValue end
  | _ => AccessLogKeep
  end.

(** ** The data of a request *)

Inductive value :=
  | VStr (s : string)
  | VInt (n : Z)
  | VTime (t : Z)
  | VDuration (d : Z)
  | VURL (u : GoHttp.URL)
  | VRatio (num den : Z).

Abbreviation CoreLogData := (gmap string value) (only parsing).

Record LogData := mkLogData {
  Core : CoreLogData;
  ld_Request : Header;
  OriginResponse : Header;
  DownstreamResponse : Header;
}.

(** ** capture_response_writer.go *)

Record capture := mkCapture { status : Z; size : Z }.
Definition captureResponseWriter : capture := mkCapture 0 0.

Definition capture_step (c : capture) (o : wop) : capture :=
  match o with
  | OWrite buf => mkCapture (if (status c =? 0)%Z then 200 else status c) (size c + Z.of_nat (String.length buf))
  | OWriteHeader s => mkCapture s (size c)
  | OHeader _ | OFlush => c
  end.
Definition captured (l : list wop) : capture := foldl capture_step captureResponseWriter l.

(** [fmt.Sprintf("%03d %s", status, http.StatusText(status))], for a status
    that is not negative. *)
Definition pad3 (s : string) : string :=
  match String.length s with 0 => "000" | 1 => "00" +:+ s | 2 => "0" +:+ s | _ => s end.
Definition status_line (code : Z) : string := pad3 (pretty code) +:+ " " +:+ http_StatusText code.

(** ** save_backend.go, save_frontend.go, save_retries.go *)

(** The handler behind did [ops] between two times, on a writer whose header
    was [hdr] in the end; the URL is shared with the table. *)
Definition serveSaveBackend (backendName : string) (u : GoHttp.URL) (start stop : Z) (ops : list wop) (hdr : Header) (t : LogData) : LogData :=
  let crw := captured ops in
  let core := <["BackendAddr" := VStr (URLHost u)]> (<["BackendURL" := VURL u]> (<["BackendName" := VStr backendName]> (Core t))) in
  let core := <["OriginContentSize" := VInt (size crw)]> (<["OriginStatusLine" := VStr (status_line (status crw))]>
    (<["OriginStatus" := VInt (status crw)]> (<["OriginDuration" := VDuration (stop - start)]> core))) in
  mkLogData core (ld_Request t) (CopyHeaders ∅ hdr) (DownstreamResponse t).

Definition serveSaveFrontend (frontendName : string) (t : LogData) : LogData :=
  mkLogData (<["FrontendName" := VStr (trim_prefix frontendName "frontend-")]> (Core t))
    (ld_Request t) (OriginResponse t) (DownstreamResponse t).

Definition Retried (attempt : Z) (t : LogData) : LogData :=
  let attempt := (if (0 <? attempt)%Z then attempt - 1 else attempt)%Z in
  mkLogData (<["RetryAttempts" := VInt attempt]> (Core t)) (ld_Request t) (OriginResponse t) (DownstreamResponse t).

(** ** logger.go *)

Inductive formatter := CommonLogFormatter | JSONFormatter.

Record LogHandler := mkLogHandler {
  lh_config : AccessLog;
  lh_formatter : formatter;
  lh_httpCodeRanges : HTTPCodeRanges;
}.

(** [openAccessLogFile] is a parameter; the standard output needs no opening. *)
Definition NewLogHandler (openAccessLogFile : string -> result unit) (config : AccessLog) : result LogHandler :=
  _ ← (if nonempty (FilePath config) then
         match openAccessLogFile (FilePath config) with
         | Err err => Err ("error opening access log file: " +:+ err)
         | Ok _ => Ok tt
         end
       else Ok tt);
  f ← (if bool_decide (Format config = "common") then Ok CommonLogFormatter
       else if bool_decide (Format config = "json") then Ok JSONFormatter
       else Err ("unsupported access log format: " +:+ Format config));
  let ranges := match Filters config with
    | Some filters => match NewHTTPCodeRanges (StatusCodes filters) with Ok r => r | Err _ => [] end
    | None => []
    end in
  mret (mkLogHandler config f ranges).

Definition silentSplitHostPort (v : string) : string * string :=
  match SplitHostPort v with Ok (host, port) => (host, port) | Err _ => (v, "-") end.

Definition usernameIfPresent (user : option string) : string :=
  match user with Some name => if nonempty name then name else "-" | None => "-" end.

Definition keepAccessLog (l : LogHandler) (statusCode retryAttempts : Z) : bool :=
  match Filters (lh_config l) with
  | None => true
  | Some filters =>
      if bool_decide (length (lh_httpCodeRanges l) = 0) && negb (lf_RetryAttempts filters) then true else
      if HTTPCodeRanges_Contains (lh_httpCodeRanges l) statusCode then true
      else lf_RetryAttempts filters && (0 <? retryAttempts)%Z
  end.

Section Log.
Context `{order : MapOrder} `{urls : UrlLib}.

Definition redact_header (f : option AccessLogFields) (headers : Header) (prefix : string) (fields : CoreLogData)
    (kv : string * list string) : CoreLogData :=
  let v := KeepHeader f kv.1 in
  if bool_decide (v = AccessLogKeep) then <[prefix +:+ kv.1 := VStr (header_get headers kv.1)]> fields
  else if bool_decide (v = AccessLogRedact) then <[prefix +:+ kv.1 := VStr "REDACTED"]> fields
  else fields.

Definition redactHeaders (f : option AccessLogFields) (headers : Header) (fields : CoreLogData) (prefix : string) : CoreLogData :=
  foldl (redact_header f headers prefix) fields (range headers).

(** [crr] is the number of bytes read of the body, [now] the time of the end.
    The fields are those given to the logger, if anything is logged. *)
Definition round_trip_core (core : CoreLogData) (crr : option Z) (crw : capture) : CoreLogData :=
  let retryAttempts := match core !! "RetryAttempts" with Some (VInt n) => n | _ => 0%Z end in
  let core := <["RetryAttempts" := VInt retryAttempts]> core in
  let core := match crr with Some n => <["RequestContentSize" := VInt n]> core | None => core end in
  <["DownstreamStatus" := VInt (status crw)]> core.

Definition kept_core (core : CoreLogData) (crw : capture) (now : Z) : CoreLogData :=
  let core := <["DownstreamContentSize" := VInt (size crw)]>
    (<["DownstreamStatusLine" := VStr (status_line (status crw))]> core) in
  let core := match core !! "OriginContentSize" with
    | Some (VInt o64) =>
        if negb (o64 =? size crw)%Z && negb (0 =? size crw)%Z then <["GzipRatio" := VRatio o64 (size crw)]> core else core
    | _ => core
    end in
  let total := (now - match core !! "StartUTC" with Some (VTime t) => t | _ => 0 end)%Z in
  let core := <["Overhead" := VDuration total]> (<["Duration" := VDuration total]> core) in
  match core !! "OriginDuration" with Some (VDuration origin) => <["Overhead" := VDuration (total - origin)]> core | _ => core end.

Definition logTheRoundTrip (l : LogHandler) (t : LogData) (crr : option Z) (crw : capture) (now : Z) : option CoreLogData :=
  let core := round_trip_core (Core t) crr crw in
  let retryAttempts := match core !! "RetryAttempts" with Some (VInt n) => n | _ => 0%Z end in
  if keepAccessLog l (status crw) retryAttempts then
    let core := kept_core core crw now in
    let config := Fields (lh_config l) in
    let fields := filter (fun kv => Keep config kv.1 = true) core in
    let fields := redactHeaders config (ld_Request t) fields "request_" in
    let fields := redactHeaders config (OriginResponse t) fields "origin_" in
    Some (redactHeaders config (DownstreamResponse t) fields "downstream_")
  else None.

(** What the handlers behind leave: their writes, the table as they changed
    it (its request header is the one they share), the user of the URL, the
    bytes read and the time. *)
Record served := mkServed {
  sv_ops : list wop;
  sv_table : LogData;
  sv_user : option string;
  sv_read : Z;
  sv_now : Z;
}.

(** [requestCounter] is threaded; [startLocal] is the local time. *)
Definition initial_core (req : Request) (proto : string) (count now : Z) : CoreLogData :=
  let core := <["RequestCount" := VInt count]> (<["StartLocal" := VTime now]> {["StartUTC" := VTime now]}) in
  let core := if nonempty (Host req) then
      let '(h, p) := silentSplitHostPort (Host req) in
      <["RequestPort" := VStr p]> (<["RequestHost" := VStr h]> (<["RequestAddr" := VStr (Host req)]> core))
    else core in
  let u := ReqURL req in
  let urlCopyString := url_String (mkURL "" "" "" (Path u) (RawPath u) (ForceQuery u) (RawQuery u)) in
  let core := <["RequestLine" := VStr (Method req +:+ " " +:+ urlCopyString +:+ " " +:+ proto)]>
    (<["RequestProtocol" := VStr proto]> (<["RequestPath" := VStr urlCopyString]> (<["RequestMethod" := VStr (Method req)]> core))) in
  let '(h, p) := silentSplitHostPort (RemoteAddr req) in
  let core := <["ClientPort" := VStr p]> (<["ClientHost" := VStr h]> (<["ClientAddr" := VStr (RemoteAddr req)]> core)) in
  let forwardedFor := req_header req "X-Forwarded-For" in
  if nonempty forwardedFor then <["ClientHost" := VStr forwardedFor]> core else core.

Definition wrap_uint64 (n : Z) : Z := n mod 2 ^ 64.

Definition LogHandler_ServeHTTP (l : LogHandler) (next : LogData -> served) (req : Request) (proto : string) (has_body : bool)
    (requestCounter now : Z) : Z * list wop * option CoreLogData :=
  let count := wrap_uint64 (requestCounter + 1) in
  let s := next (mkLogData (initial_core req proto count now) (ReqHeader req) ∅ ∅) in
  let core := <["ClientUsername" := VStr (usernameIfPresent (sv_user s))]> (Core (sv_table s)) in
  let hdr := cl_header (foldl client_step (new_client ∅) (sv_ops s)) in
  let t := mkLogData core (ld_Request (sv_table s)) (OriginResponse (sv_table s)) hdr in
  (count, sv_ops s, logTheRoundTrip l t (if has_body then Some (sv_read s) else None) (captured (sv_ops s)) (sv_now s)).

End Log.

(** ** logger_formatters.go *)

(** The standard library's texts of times and durations. *)
Class LogText := { format_clf : Z -> string; time_String : Z -> string; duration_String : Z -> string; ratio_text : Z -> Z -> string }.

Definition quote : string := String "034" "".

Definition toLogEntry (s defaultValue : string) (quoted : bool) : string :=
  if bool_decide (s = "") then defaultValue else if quoted then quote +:+ s +:+ quote else s.

Section Format.
Context `{texts : LogText} `{urls : UrlLib}.

Definition toLog (fields : CoreLogData) (key defaultValue : string) (quoted : bool) : string :=
  match fields !! key with
  | None => defaultValue
  | Some (VStr s) => toLogEntry s defaultValue quoted
  | Some (VURL u) => toLogEntry (url_String u) defaultValue quoted
  | Some (VTime t) => toLogEntry (time_String t) defaultValue quoted
  | Some (VDuration d) => toLogEntry (duration_String d) defaultValue quoted
  | Some (VInt n) => pretty n
  | Some (VRatio a b) => ratio_text a b
  end.

(** For the fields of the handler: those printed with [%s] are texts. *)
Definition CommonLogFormatter_Format (fields : CoreLogData) : string :=
  let timestamp := match fields !! "StartUTC" with Some (VTime t) => format_clf t | _ => "-" end in
  let elapsedMillis := match fields !! "Duration" with Some (VDuration d) => Z.quot d 1000000 | _ => 0%Z end in
  let dash := quote +:+ "-" +:+ quote in
  join [toLog fields "ClientHost" "-" false; "-"; toLog fields "ClientUsername" "-" false; "[" +:+ timestamp +:+ "]";
        quote +:+ toLog fields "RequestMethod" "-" false; toLog fields "RequestPath" "-" false;
        toLog fields "RequestProtocol" "-" false +:+ quote; toLog fields "OriginStatus" "-" true;
        toLog fields "OriginContentSize" "-" true; toLog fields "request_Referer" dash true;
        toLog fields "request_User-Agent" dash true; toLog fields "RequestCount" "-" true;
        toLog fields "FrontendName" "-" true; toLog fields "BackendURL" "-" true;
        pretty elapsedMillis +:+ "ms" +:+ String "010" ""] " ".

End Format.

(** ** What the capturing writer knows *)

(** A handler that writes at most one status, before the body, and does not
    flush. *)
Fixpoint one_status (l : list wop) : bool :=
  match l with
  | [] => true
  | OHeader _ :: l' => one_status l'
  | OWriteHeader code :: l' => negb (code =? 0)%Z && forallb (fun o => match o with OWriteHeader _ | OFlush => false | _ => true end) l'
  | OWrite _ :: l' => forallb (fun o => match o with OWriteHeader _ | OFlush => false | _ => true end) l'
  | OFlush :: _ => false
  end.

Definition after_status (o : wop) : bool := match o with OWriteHeader _ | OFlush => false | _ => true end.

Lemma client_sent_stays l c x : cl_sent c = Some x -> cl_sent (foldl client_step c l) = Some x.
Proof.
  revert c. induction l as [|o l IH]; intros c Hc; [done|]. simpl. apply IH.
  destruct o; simpl; unfold client_Write, client_WriteHeader; simpl; by rewrite ?Hc.
Qed.

Lemma captured_stays l c :
  status c <> 0%Z -> forallb after_status l = true -> status (foldl capture_step c l) = status c.
Proof.
  revert c. induction l as [|o l IH]; intros c Hc; [done|]. simpl. intros [Ho Hl]%andb_true_iff.
  destruct o; try done; simpl; rewrite IH; simpl; try done; by replace (status c =? 0)%Z with false by lia.
Qed.

Lemma captured_size l c cl :
  size c = Z.of_nat (String.length (cl_body cl)) ->
  size (foldl capture_step c l) = Z.of_nat (String.length (cl_body (foldl client_step cl l))).
Proof.
  revert c cl. induction l as [|o l IH]; intros c cl Hc; [done|]. simpl. apply IH.
  destruct o; simpl; unfold client_Write, client_WriteHeader; simpl; destruct (cl_sent cl); simpl; rewrite ?length_app_str; lia.
Qed.

(** The writer of the access log reports exactly the number of bytes sent
    to the client, whatever the handlers do, and the status the client is sent
    when they write at most one, before the body; a handler that writes
    nothing is reported with status 0, although the server then sends 200. *)
Theorem captured_agrees (ops : list wop) (h : Header) :
  let c := foldl client_step (new_client h) ops in
  size (captured ops) = Z.of_nat (String.length (cl_body c)) /\
  (one_status ops = true -> status (captured ops) = match cl_sent c with Some (code, _) => code | None => 0%Z end).
Proof.
  intros c. split; [by apply captured_size|]. subst c. unfold captured, captureResponseWriter, new_client. revert h.
  induction ops as [|o ops IH]; intros h; simpl; [done|]. destruct o as [f|code|buf|]; simpl; [by apply IH| | |done].
  - intros [Hc Hl]%andb_true_iff. rewrite captured_stays by (done || (simpl; lia)).
    unfold client_WriteHeader. simpl. by erewrite client_sent_stays by reflexivity.
  - intros Hl. rewrite captured_stays by (done || (simpl; lia)).
    unfold client_Write, client_WriteHeader. simpl. by erewrite client_sent_stays by reflexivity.
Qed.

(** ** What is logged *)

Section LogFacts.
Context `{order : MapOrder} {laws : MapOrderLaws order} `{urls : UrlLib}.

Definition header_field (f : option AccessLogFields) (headers : Header) (k : string) (old : option value) : option value :=
  match headers !! k with
  | None => old
  | Some _ =>
      if bool_decide (KeepHeader f k = AccessLogKeep) then Some (VStr (header_get headers k))
      else if bool_decide (KeepHeader f k = AccessLogRedact) then Some (VStr "REDACTED") else old
  end.

Lemma redact_header_lookup f headers prefix fields kv k :
  redact_header f headers prefix fields kv !! (prefix +:+ k) =
  if bool_decide (kv.1 = k) then
    (if bool_decide (KeepHeader f k = AccessLogKeep) then Some (VStr (header_get headers k))
     else if bool_decide (KeepHeader f k = AccessLogRedact) then Some (VStr "REDACTED") else fields !! (prefix +:+ k))
  else fields !! (prefix +:+ k).
Proof.
  unfold redact_header. destruct (decide (kv.1 = k)) as [->|Hne].
  - rewrite (bool_decide_eq_true_2 (k = k)) by done. repeat case_bool_decide; by rewrite ?lookup_insert_eq.
  - rewrite (bool_decide_eq_false_2 (kv.1 = k)) by done.
    assert (prefix +:+ kv.1 <> prefix +:+ k) by (intros E; by apply app_inv_l in E).
    repeat case_bool_decide; by rewrite ?lookup_insert_ne.
Qed.

Lemma redact_others f headers prefix k l fields :
  k ∉ l.*1 -> foldl (redact_header f headers prefix) fields l !! (prefix +:+ k) = fields !! (prefix +:+ k).
Proof.
  revert fields. induction l as [|[k1 v1] l IH]; intros fields Hn; [done|]. simpl in *.
  apply not_elem_of_cons in Hn as [Hk1 Hn]. rewrite IH, redact_header_lookup by done. simpl.
  by rewrite (bool_decide_eq_false_2 (k1 = k)).
Qed.

(** The fields of a set of headers under their prefix; other keys are left. *)
Lemma redactHeaders_lookup f headers fields prefix k :
  redactHeaders f headers fields prefix !! (prefix +:+ k) = header_field f headers k (fields !! (prefix +:+ k)).
Proof using laws.
  unfold redactHeaders, header_field.
  pose proof (range_NoDup headers) as Hnd.
  assert (headers !! k = None <-> k ∉ (range headers).*1) as Hk.
  { by rewrite (range_keys headers k), eq_None_not_Some. }
  revert fields Hnd Hk. generalize (range headers) as l. induction l as [|[k' vs] l IH]; intros fields Hnd Hk.
  - simpl. by rewrite (proj2 Hk) by (apply not_elem_of_nil).
  - simpl in *. apply NoDup_cons in Hnd as [Hn Hnd]. destruct (decide (k' = k)) as [->|Hne].
    + destruct (headers !! k) as [w|] eqn:E; [|exfalso; by apply (proj1 Hk eq_refl); left].
      rewrite redact_others, redact_header_lookup by done. simpl. by rewrite (bool_decide_eq_true_2 (k = k)).
    + rewrite IH; [|done|].
      * rewrite redact_header_lookup. simpl. by rewrite (bool_decide_eq_false_2 (k' = k)).
      * rewrite Hk, not_elem_of_cons. by intuition congruence.
Qed.

Lemma redactHeaders_other f headers fields prefix key :
  (forall k, key <> prefix +:+ k) -> redactHeaders f headers fields prefix !! key = fields !! key.
Proof.
  intros Hne. unfold redactHeaders. revert fields. induction (range headers) as [|[k vs] l IH]; intros fields; [done|].
  simpl. rewrite IH. unfold redact_header. repeat case_bool_decide; rewrite ?lookup_insert_ne; done.
Qed.

(** The names of the core fields have no underscore, which every prefix has. *)
Definition plain_keys (core : CoreLogData) : Prop := map_Forall (fun k _ => free "_" k = true) core.

Lemma plain_insert k v (core : CoreLogData) : free "_" k = true -> plain_keys core -> plain_keys (<[k := v]> core).
Proof. intros Hk Hc. by apply map_Forall_insert_2. Qed.

Lemma kept_core_plain core crr crw now : plain_keys core -> plain_keys (kept_core (round_trip_core core crr crw) crw now).
Proof.
  intros H. assert (plain_keys (round_trip_core core crr crw)) as H1.
  { unfold round_trip_core. cbv zeta. destruct crr; repeat (apply plain_insert; [done|]); exact H. }
  unfold kept_core. revert H1. generalize (round_trip_core core crr crw). intros c H1.
  assert (forall c', plain_keys c' -> plain_keys (match c' !! "OriginContentSize" with
    | Some (VInt o64) => if negb (o64 =? size crw)%Z && negb (0 =? size crw)%Z then <["GzipRatio" := VRatio o64 (size crw)]> c' else c'
    | _ => c' end)) as H2.
  { intros c' Hc'. destruct (c' !! "OriginContentSize") as [[]|]; try done. case_match; [|done]. by apply plain_insert. }
  match goal with |- context [match <["DownstreamContentSize" := ?v]> ?m !! "OriginContentSize" with _ => _ end] =>
    specialize (H2 (<["DownstreamContentSize" := v]> m) ltac:(by repeat (apply plain_insert; [done|]))) end.
  revert H2. match goal with |- plain_keys ?x -> _ => generalize x end. intros x Hx. cbv zeta.
  repeat case_match; repeat (apply plain_insert; [done|]); exact Hx.
Qed.

Lemma plain_not_prefixed p k key : free "_" key = true -> free "_" p = false -> key <> p +:+ k.
Proof. intros Hk Hp ->. by rewrite free_app, Hp in Hk. Qed.

(** What the log gets of a request it keeps.  A core field is there with
    its value exactly when its mode keeps it; a header of the request, of the
    answer of the backend and of the response to the client is there under its
    prefix in full when its mode is to keep it, as REDACTED when it is to
    redact it, and not at all when it is to drop it. *)
Theorem logged_fields (l : LogHandler) (t : LogData) (crr : option Z) (crw : capture) (now : Z) (fields : CoreLogData) :
  plain_keys (Core t) -> logTheRoundTrip l t crr crw now = Some fields ->
  let config := AccessLog.Fields (lh_config l) in
  (forall k, free "_" k = true ->
    fields !! k = if Keep config k then kept_core (round_trip_core (Core t) crr crw) crw now !! k else None) /\
  (forall k, fields !! ("request_" +:+ k) = header_field config (ld_Request t) k None) /\
  (forall k, fields !! ("origin_" +:+ k) = header_field config (OriginResponse t) k None) /\
  (forall k, fields !! ("downstream_" +:+ k) = header_field config (DownstreamResponse t) k None).
Proof using laws.
  intros Hp%(kept_core_plain _ crr crw now). unfold logTheRoundTrip. destruct (keepAccessLog _ _ _); [|done].
  set (config := Fields (lh_config l)). set (core := kept_core _ _ _) in *. intros [= <-]. cbv zeta.
  set (base := filter (fun kv : string * value => Keep config kv.1 = true) core).
  assert (forall k, base !! k = if Keep config k then core !! k else None) as Hb.
  { intros k. unfold base. destruct (Keep config k) eqn:E.
    - rewrite map_lookup_filter. destruct (core !! k); simpl; [by rewrite option_guard_True|done].
    - apply map_lookup_filter_None_2. right. intros x _. simpl. by rewrite E. }
  assert (forall k, free "_" k = false -> base !! k = None) as Hn.
  { intros k Hk. rewrite Hb. destruct (core !! k) as [v|] eqn:E; [|by case_match]. apply Hp in E. by rewrite E in Hk. }
  split_and!.
  - intros k Hk. rewrite !redactHeaders_other by (intros k'; by apply plain_not_prefixed). apply Hb.
  - intros k. rewrite 2!redactHeaders_other by done. rewrite redactHeaders_lookup, Hn; [done|]. by rewrite free_app.
  - intros k. rewrite redactHeaders_other, redactHeaders_lookup, redactHeaders_other, Hn by (done || by rewrite free_app). done.
  - intros k. rewrite redactHeaders_lookup, !redactHeaders_other, Hn by (done || by rewrite free_app). done.
Qed.

(** When a request is logged: no filter at all, an accepted status, or a retry
    where retries are asked for. *)
Lemma logged_iff (l : LogHandler) t crr crw now :
  is_Some (logTheRoundTrip l t crr crw now) <->
  match Filters (lh_config l) with
  | None => True
  | Some filters =>
      (lh_httpCodeRanges l = [] /\ lf_RetryAttempts filters = false) \/
      HTTPCodeRanges_Contains (lh_httpCodeRanges l) (status crw) = true \/
      (lf_RetryAttempts filters = true /\ exists n, Core t !! "RetryAttempts" = Some (VInt n) /\ (0 < n)%Z)
  end.
Proof.
  unfold logTheRoundTrip.
  set (n := match round_trip_core (Core t) crr crw !! "RetryAttempts" with Some (VInt n) => n | _ => 0%Z end).
  assert (n = match Core t !! "RetryAttempts" with Some (VInt n) => n | _ => 0%Z end) as Hn.
  { subst n. unfold round_trip_core. destruct crr; rewrite !lookup_insert_ne by done; by rewrite lookup_insert_eq. }
  assert ((exists n', Core t !! "RetryAttempts" = Some (VInt n') /\ (0 < n')%Z) <-> (0 <? n)%Z = true) as Hr.
  { rewrite Hn, Z.ltb_lt. split; [by intros (n' & -> & ?)|]. intros H. destruct (Core t !! "RetryAttempts") as [[]|]; try lia. eauto. }
  unfold keepAccessLog. destruct (Filters (lh_config l)) as [f|]; [|done]. rewrite Hr.
  destruct (lh_httpCodeRanges l) as [|r rs]; simpl; destruct (lf_RetryAttempts f); simpl;
    try destruct (_ || HTTPCodeRanges_Contains _ _); try destruct (0 <? n)%Z; simpl; rewrite ?is_Some_alt; intuition (done || congruence).
Qed.

End LogFacts.

(** ** Witnesses *)

Definition redacting : AccessLogFields :=
  mkAccessLogFields "keep" {["ClientHost" := "drop"]} (Some (mkFieldHeaders "drop" {["Authorization" := "redact"]})).
Definition sample_log : LogHandler := mkLogHandler (mkAccessLog "" "json" None (Some redacting)) JSONFormatter [].
Definition sample_table : LogData :=
  mkLogData {["ClientHost" := VStr "10.0.0.1"]} (<["Authorization" := ["Bearer t"]]> {["Cookie" := ["c"]]}) ∅ ∅.

Lemma logged_fields_witness :
  exists fields, logTheRoundTrip (order := forward_order) sample_log sample_table None (mkCapture 200 5) 0 = Some fields /\
    fields !! "ClientHost" = None /\ fields !! "DownstreamStatus" = Some (VInt 200) /\
    fields !! "request_Authorization" = Some (VStr "REDACTED") /\ fields !! "request_Cookie" = None.
Proof.
  destruct (logTheRoundTrip (order := forward_order) sample_log sample_table None (mkCapture 200 5) 0) as [fields|] eqn:E;
    [|by vm_compute in E].
  exists fields. split; [done|].
  destruct (logged_fields (order := forward_order) sample_log sample_table None (mkCapture 200 5) 0 fields) as (Hc & Hr & _);
    [by apply map_Forall_singleton|exact E|].
  split; [rewrite Hc by done; by vm_compute|]. split; [rewrite Hc by done; by vm_compute|].
  split; [etrans; [exact (Hr "Authorization")|by vm_compute]|etrans; [exact (Hr "Cookie")|by vm_compute]].
Defined.

(** A name given in another case than the canonical one names no header. *)
Example mode_of_other_case :
  KeepHeader (Some (mkAccessLogFields "" ∅ (Some (mkFieldHeaders "" {["authorization" := "drop"]})))) "Authorization" = "keep".
Proof. by vm_compute. Qed.

(** A word without [=]: skipped among the field names, a panic of the
    header names. *)
Example word_without_mode :
  FieldNames_Set ∅ "User-Agent=redact Authorization" = {["User-Agent" := "redact"]} /\
  FieldHeaderNames_Set ∅ "User-Agent=redact Authorization" = Panic "index out of range".
Proof. by vm_compute. Qed.

(** The texts of the client are not escaped: a referrer can end its quotes. *)
Definition plain_texts : LogText :=
  {| format_clf _ := "-"; time_String _ := ""; duration_String _ := ""; ratio_text _ _ := "" |}.
Example forged_fields :
  CommonLogFormatter_Format (texts := plain_texts) (urls := {| url_Parse s := Err s; url_String _ := "" |})
    (<["request_Referer" := VStr ("a" +:+ quote +:+ " " +:+ quote +:+ "b")]> ∅) =
  join ["-"; "-"; "-"; "[-]"; quote +:+ "-"; "-"; "-" +:+ quote; "-"; "-"; quote +:+ "a" +:+ quote; quote +:+ "b" +:+ quote;
        quote +:+ "-" +:+ quote; "-"; "-"; "-"; "0ms" +:+ String "010" ""] " ".
Proof. by vm_compute. Qed.
