(* ===== verification/Metrics.v ===== *)
(** * [metrics/], [middlewares/metrics.go]: what is measured

    The instruments of several systems behind one registry; the state that
    decides which series Prometheus is shown and which are forgotten; the
    middleware that counts requests and open connections.  Values are whole
    numbers where the middleware makes them, any type in the state. *)
From S2P Require Import Prelude GoStrings GoStringsFacts GoHttp Types Cookie.

(** ** Registries ([metrics.go]) *)

Inductive metric :=
  | ConfigReloads | ConfigReloadsFailure | LastConfigReloadSuccess | LastConfigReloadFailure
  | EntrypointReqs | EntrypointReqDuration | EntrypointOpenConns
  | BackendReqs | BackendReqDuration | BackendOpenConns | BackendRetries | BackendServerUp.

#[export] Instance metric_eq_dec : EqDecision metric. Proof. solve_decision. Defined.

Section Registries.
(** What an update of one system is; a counter, gauge or histogram of several is
    the list of theirs. *)
Context {Sink : Type}.

(** [nil] for what a system does not measure. *)
Record Registry := mkRegistry { IsEnabled : bool; instrument : metric -> option (list Sink) }.

Definition NewMultiRegistry (registries : list Registry) : Registry :=
  mkRegistry (negb (bool_decide (length registries = 0)))
    (fun m => Some (flat_map (fun r => match instrument r m with Some sinks => sinks | None => [] end) registries)).
Definition NewVoidRegistry : Registry := NewMultiRegistry [].
End Registries.
Arguments Registry : clear implicits.

(** ** Labels ([prometheus.go]) *)

Abbreviation labels := (gmap string string).

Definition With (lvs labelValues : list string) : list string :=
  lvs ++ (if Nat.odd (length labelValues) then labelValues ++ ["unknown"] else labelValues).

(** A name given twice has its last value. *)
Fixpoint ToLabels (lvs : list string) : labels :=
  match lvs with
  | name :: value :: lvs' => ToLabels lvs' ∪ {[name := value]}
  | _ => ∅
  end.

Definition buildMetricID `{order : MapOrder} (metricName : string) (l : labels) : string :=
  metricName +:+ ":" +:+ join (merge_sort string_le (flat_map (fun nv => [nv.1; nv.2]) (range l))) "|".

(** ** The configuration in force *)

Record dynamicConfig := mkDynamicConfig { dc_entrypoints : gset string; dc_backends : gmap string (gset string) }.
Definition newDynamicConfig : dynamicConfig := mkDynamicConfig ∅ ∅.

Definition hasEntrypoint (d : dynamicConfig) (entrypointName : string) : bool := bool_decide (entrypointName ∈ dc_entrypoints d).
Definition hasBackend (d : dynamicConfig) (backendName : string) : bool := bool_decide (is_Some (dc_backends d !! backendName)).
Definition hasServerURL (d : dynamicConfig) (backendName serverURL : string) : bool :=
  match dc_backends d !! backendName with Some urls => bool_decide (serverURL ∈ urls) | None => false end.

Definition server_urls (backend : Backend) : gset string := list_to_set (map (fun kv => URL kv.2) (map_to_list (Servers backend))).

(** The configuration of one provider: a backend replaces one of that name. *)
Definition add_configuration `{order : MapOrder} (d : dynamicConfig) (config : Configuration) : dynamicConfig :=
  mkDynamicConfig
    (dc_entrypoints d ∪ list_to_set (flat_map (fun kv => EntryPoints kv.2) (range (Frontends config))))
    (foldl (fun backends kv => <[kv.1 := server_urls kv.2]> backends) (dc_backends d) (range (Backends config))).
Definition OnConfigurationUpdate `{order : MapOrder} (configurations : Configurations) : dynamicConfig :=
  foldl (fun d kv => add_configuration d kv.2) newDynamicConfig (range configurations).

Definition isOutdated (d : dynamicConfig) (l : labels) : bool :=
  (match l !! "entrypoint" with Some entrypointName => negb (hasEntrypoint d entrypointName) | None => false end)
  || match l !! "backend" with
     | Some backendName =>
         negb (hasBackend d backendName)
         || match l !! "url" with Some url => negb (hasServerURL d backendName url) | None => false end
     | None => false
     end.

(** ** The state of Prometheus

    The library keeps a cell for every metric and labels; [promState] keeps the
    collectors it was sent, by their identifier.  A collector is sent on an
    unbuffered channel after every update: until [ListenValueUpdates] receives it,
    in whatever order, it is pending. *)
Abbreviation series := (string * labels)%type.

Record collector := mkCollector { co_id : string; co_name : string; co_labels : labels; co_cell : nat }.

Section Prometheus.
Context `{order : MapOrder} {V : Type} (zero : V).

Record prometheus := mkPrometheus {
  pm_cells : list V;
  pm_vecs : gmap series nat;
  pm_pending : list collector;
  pm_state : gmap string collector;
  pm_config : dynamicConfig;
}.

Definition newPrometheusState : prometheus := mkPrometheus [] ∅ [] ∅ newDynamicConfig.

Definition newCollector (metricName : string) (l : labels) (cell : nat) : collector :=
  mkCollector (buildMetricID metricName l) metricName l cell.

(** [cv.With(labels)] *)
Definition vec_With (s : series) (p : prometheus) : nat * prometheus :=
  match pm_vecs p !! s with
  | Some cell => (cell, p)
  | None =>
      let cell := length (pm_cells p) in
      (cell, mkPrometheus (pm_cells p ++ [zero]) (<[s := cell]> (pm_vecs p)) (pm_pending p) (pm_state p) (pm_config p))
  end.

(** [Add], [Set] or [Observe]: the cell is updated, its collector sent. *)
Definition update (metricName : string) (l : labels) (f : V -> V) (p : prometheus) : prometheus :=
  let '(cell, p) := vec_With (metricName, l) p in
  mkPrometheus (alter f cell (pm_cells p)) (pm_vecs p) (pm_pending p ++ [newCollector metricName l cell]) (pm_state p) (pm_config p).

(** One collector received by [ListenValueUpdates]. *)
Definition listen (i : nat) (p : prometheus) : prometheus :=
  match pm_pending p !! i with
  | Some c => mkPrometheus (pm_cells p) (pm_vecs p) (delete i (pm_pending p)) (<[co_id c := c]> (pm_state p)) (pm_config p)
  | None => p
  end.

Definition SetDynamicConfig (d : dynamicConfig) (p : prometheus) : prometheus :=
  mkPrometheus (pm_cells p) (pm_vecs p) (pm_pending p) (pm_state p) d.

(** [delete] of the vector, then of the state. *)
Definition forget (p : prometheus) (key : string) : prometheus :=
  match pm_state p !! key with
  | Some c => mkPrometheus (pm_cells p) (delete (co_name c, co_labels c) (pm_vecs p)) (pm_pending p) (delete key (pm_state p)) (pm_config p)
  | None => p
  end.

Definition sample (p : prometheus) (c : collector) : series * V := ((co_name c, co_labels c), default zero (pm_cells p !! co_cell c)).

Definition Collect (p : prometheus) : list (series * V) * prometheus :=
  let entries := range (pm_state p) in
  let outdatedKeys := (List.filter (fun kc => isOutdated (pm_config p) (co_labels kc.2)) entries).*1 in
  (map (fun kc => sample p kc.2) entries, foldl forget p outdatedKeys).

(** What goes on between two scrapes, in any order; [used] are the series the
    program updates. *)
Inductive prom_step (used : series -> Prop) (p : prometheus) : prometheus -> Prop :=
  | prom_update name l f : used (name, l) -> prom_step used p (update name l f p)
  | prom_listen i : prom_step used p (listen i p)
  | prom_config d : prom_step used p (SetDynamicConfig d p)
  | prom_collect : prom_step used p (Collect p).2.
End Prometheus.
Arguments prometheus : clear implicits.

(** ** The middleware ([middlewares/metrics.go]) *)

Definition protoHTTP : string := "http".
Definition protoSSE : string := "sse".
Definition protoWebsocket : string := "websocket".

Definition containsHeader (req : Request) (name value : string) : bool :=
  existsb (fun item => bool_decide (value = to_lower (trim_space item))) (split (req_header req name) ",").
Definition isWebsocketRequest (req : Request) : bool :=
  containsHeader req "Connection" "upgrade" && containsHeader req "Upgrade" "websocket".
Definition isSSERequest (req : Request) : bool := containsHeader req "Accept" "text/event-stream".
Definition getRequestProtocol (req : Request) : string :=
  if isWebsocketRequest req then protoWebsocket else if isSSERequest req then protoSSE else protoHTTP.

(** [utf8.ValidString] *)
Fixpoint valid_utf8 (s : string) (skip : nat) : bool :=
  match s with
  | "" => true
  | String c s' =>
      match skip with
      | S k => valid_utf8 s' k
      | O => (in_range 0 0x7F c || negb (rune_tail c s' =? 0)%nat) && valid_utf8 s' (rune_tail c s')
      end
  end.
Definition getMethod (r : Request) : string := if valid_utf8 (Method r) 0 then Method r else "NON_UTF8_HTTP_METHOD".

(** One update of an instrument. *)
Inductive measure :=
  | AddTo (m : metric) (lvs : list string) (delta : Z)
  | SetTo (m : metric) (lvs : list string) (value : Z)
  | ObserveIn (m : metric) (lvs : list string).

Record metricsMiddleware := mkMetricsMiddleware {
  openConns : Z;
  reqsCounter : metric;
  reqDurationHistogram : metric;
  openConnsGauge : metric;
  baseLabels : list string;
}.
Definition NewEntryPointMetricsMiddleware (entryPointName : string) : metricsMiddleware :=
  mkMetricsMiddleware 0 EntrypointReqs EntrypointReqDuration EntrypointOpenConns ["entrypoint"; entryPointName].
Definition NewBackendMetricsMiddleware (backendName : string) : metricsMiddleware :=
  mkMetricsMiddleware 0 BackendReqs BackendReqDuration BackendOpenConns ["backend"; backendName].

Definition set_openConns (n : Z) (m : metricsMiddleware) : metricsMiddleware :=
  mkMetricsMiddleware n (reqsCounter m) (reqDurationHistogram m) (openConnsGauge m) (baseLabels m).

Definition request_labels (m : metricsMiddleware) (r : Request) : list string :=
  ["method"; getMethod r; "protocol"; getRequestProtocol r] ++ baseLabels m.

(** [ServeHTTP] before the next handler, and after it answered with a status or
    panicked: the deferred function runs either way. *)
Definition request_begins (r : Request) (m : metricsMiddleware) : list measure * metricsMiddleware :=
  let n := (openConns m + 1)%Z in ([SetTo (openConnsGauge m) (request_labels m r) n], set_openConns n m).
Definition request_ends (r : Request) (statusCode : option Z) (m : metricsMiddleware) : list measure * metricsMiddleware :=
  let n := (openConns m - 1)%Z in
  let coded := match statusCode with
               | Some code =>
                   let lvs := request_labels m r ++ ["code"; pretty code] in
                   [AddTo (reqsCounter m) lvs 1; ObserveIn (reqDurationHistogram m) lvs]
               | None => []
               end in
  (coded ++ [SetTo (openConnsGauge m) (request_labels m r) n], set_openConns n m).

(** Requests begin and end in any order. *)
Inductive request_event := Begins (r : Request) | Ends (r : Request) (statusCode : option Z).
Fixpoint serve_requests (events : list request_event) (m : metricsMiddleware) : list measure * metricsMiddleware :=
  match events with
  | [] => ([], m)
  | e :: events' =>
      let '(l, m) := match e with Begins r => request_begins r m | Ends r code => request_ends r code m end in
      let '(l', m) := serve_requests events' m in (l ++ l', m)
  end.

(** [MetricsRetryListener] *)
Definition Retried (backendName : string) : measure := AddTo BackendRetries ["backend"; backendName] 1.

(** * Facts: Properties of the metrics

    What a scrape shows and what is forgotten after it; series of what is not
    configured any more do not stay; open connections are counted, but the gauge
    of one method does not follow the count. *)

Section State.
Context `{order : MapOrder} {laws : MapOrderLaws order} {V : Type} (zero : V).
Abbreviation prom := (prometheus V).

Lemma forget_cells (p : prom) key : pm_cells (forget p key) = pm_cells p /\ pm_config (forget p key) = pm_config p /\ pm_pending (forget p key) = pm_pending p.
Proof. unfold forget. by destruct (pm_state p !! key). Qed.

Lemma forget_all_config (keys : list string) (p : prom) :
  pm_config (foldl forget p keys) = pm_config p /\ pm_pending (foldl forget p keys) = pm_pending p.
Proof.
  revert p. induction keys as [|k keys IH]; intros p; [done|]. simpl. destruct (IH (forget p k)) as [-> ->]. by destruct (forget_cells p k) as (_ & -> & ->).
Qed.

Lemma forget_all_state (keys : list string) (p : prom) key :
  pm_state (foldl forget p keys) !! key = if bool_decide (key ∈ keys) then None else pm_state p !! key.
Proof.
  revert p. induction keys as [|k keys IH]; intros p; [done|]. simpl. rewrite IH.
  assert (pm_state (forget p k) = delete k (pm_state p)) as ->.
  { unfold forget. destruct (pm_state p !! k) eqn:Hk; [done|]. by rewrite delete_id. }
  destruct (decide (key ∈ keys)) as [Hin|Hn].
  - rewrite !bool_decide_eq_true_2 by (done || by right). done.
  - rewrite (bool_decide_eq_false_2 (key ∈ keys)) by done. destruct (decide (key = k)) as [->|Hne].
    + rewrite lookup_delete_eq, bool_decide_eq_true_2 by left. done.
    + rewrite lookup_delete_ne by done. rewrite bool_decide_eq_false_2; [done|]. by intros [?|?]%elem_of_cons.
Qed.

Lemma outdated_keys (p : prom) key :
  key ∈ (List.filter (fun kc => isOutdated (pm_config p) (co_labels kc.2)) (range (pm_state p))).*1
  <-> exists c, pm_state p !! key = Some c /\ isOutdated (pm_config p) (co_labels c) = true.
Proof using laws.
  rewrite list_elem_of_fmap. split.
  - intros ([k c] & -> & Hin). rewrite list_elem_of_In, filter_In, <-list_elem_of_In in Hin. destruct Hin as [Hin Ho].
    apply range_lookup in Hin. by exists c.
  - intros (c & Hc & Ho). exists (key, c). split; [done|]. rewrite list_elem_of_In, filter_In, <-list_elem_of_In. split; [|done].
    by apply range_lookup.
Qed.

(** A scrape shows every series that is known, those of what is not
    configured any more for the last time, and forgets exactly these. *)
Theorem Collect_spec (p : prom) :
  (forall x, x ∈ (Collect zero p).1 <-> exists key c, pm_state p !! key = Some c /\ x = sample zero p c) /\
  (forall key c, pm_state (Collect zero p).2 !! key = Some c <->
     pm_state p !! key = Some c /\ isOutdated (pm_config p) (co_labels c) = false).
Proof using laws.
  split.
  - intros x. unfold Collect. simpl. rewrite list_elem_of_fmap. split.
    + intros ([k c] & -> & Hin). exists k, c. split; [by apply range_lookup|done].
    + intros (k & c & Hc & ->). exists (k, c). split; [done|by apply range_lookup].
  - intros key c. unfold Collect. simpl. rewrite forget_all_state. case_bool_decide as Hk; rewrite outdated_keys in Hk.
    + destruct Hk as (c' & Hc' & Ho). split; [done|]. intros [Hc Hn]. congruence.
    + split; [|by intros []]. intros Hc. split; [done|]. destruct (isOutdated _ _) eqn:Ho; [|done]. destruct Hk. by exists c.
Qed.

(** ** No series stays behind *)

Context (used : series -> Prop)
  (ids_differ : forall s s', used s -> used s' -> buildMetricID s.1 s.2 = buildMetricID s'.1 s'.2 -> s = s').

Definition co_series (c : collector) : series := (co_name c, co_labels c).
Definition well_named (c : collector) : Prop := used (co_series c) /\ co_id c = buildMetricID (co_name c) (co_labels c).

(** Every cell of the library belongs to a series that is known or about to be. *)
Record tracked (p : prom) : Prop := {
  tr_state : forall key c, pm_state p !! key = Some c -> key = co_id c /\ well_named c;
  tr_pending : Forall well_named (pm_pending p);
  tr_vecs : forall s cell, pm_vecs p !! s = Some cell ->
    (exists key c, pm_state p !! key = Some c /\ co_series c = s) \/ (exists c, c ∈ pm_pending p /\ co_series c = s);
}.

Lemma tracked_update name l f p : used (name, l) -> tracked p -> tracked (update zero name l f p).
Proof.
  clear laws ids_differ. intros Hu [Hs Hp Hv]. unfold update, vec_With.
  assert (well_named (newCollector name l (length (pm_cells p)))) as Hw by (by split).
  destruct (pm_vecs p !! (name, l)) as [cell|] eqn:Hc; simpl; (split; simpl; [exact Hs| |]).
  - apply Forall_app. split; [done|]. repeat constructor; done.
  - intros s c Hsc. destruct (Hv s c Hsc) as [?|(co & ? & ?)]; [by left|right]. exists co. split; [set_solver|done].
  - apply Forall_app. split; [done|]. repeat constructor; done.
  - intros s c. destruct (decide (s = (name, l))) as [->|Hne].
    + intros _. right. exists (newCollector name l (length (pm_cells p))). split; [set_solver|done].
    + rewrite lookup_insert_ne by done. intros Hsc. destruct (Hv s c Hsc) as [?|(co & ? & ?)]; [by left|right]. exists co. split; [set_solver|done].
Qed.

Lemma tracked_listen i p : tracked p -> tracked (listen i p).
Proof using ids_differ.
  intros [Hs Hp Hv]. unfold listen. destruct (pm_pending p !! i) as [c|] eqn:Hi; [|by split].
  assert (well_named c) as Hw by (rewrite Forall_lookup in Hp; eauto). split; simpl.
  - intros key c'. destruct (decide (key = co_id c)) as [->|Hne].
    + rewrite lookup_insert_eq. by intros [= <-].
    + rewrite lookup_insert_ne by done. apply Hs.
  - by apply Forall_delete.
  - intros s cell Hc. destruct (decide (co_series c = s)) as [<-|Hne].
    { left. exists (co_id c), c. by rewrite lookup_insert_eq. }
    destruct (Hv s cell Hc) as [(key & c' & Hk & <-)|(c' & Hin & <-)].
    + left. exists key, c'. rewrite lookup_insert_ne; [done|]. intros <-. destruct (Hs _ _ Hk) as [He [Hu' Hid']].
      destruct Hw as [Hu Hid]. apply Hne. apply ids_differ; [done|done|]. simpl. by rewrite <-Hid, <-Hid'.
    + right. exists c'. split; [|done]. apply list_elem_of_lookup in Hin as [j Hj].
      assert (i <> j) as Hij by (intros ->; congruence).
      apply list_elem_of_lookup. destruct (decide (j < i)) as [Hlt|Hge].
      * exists j. by rewrite list_lookup_delete_lt.
      * exists (pred j). rewrite list_lookup_delete_ge by lia. by replace (S (pred j)) with j by lia.
Qed.

Lemma tracked_forget p key : tracked p -> tracked (forget p key).
Proof using ids_differ.
  intros [Hs Hp Hv]. unfold forget. destruct (pm_state p !! key) as [c|] eqn:Hk; [|by split]. split; simpl; [|done|].
  - intros k c'. intros [? ?]%lookup_delete_Some. by apply Hs.
  - intros s cell [Hne Hc]%lookup_delete_Some. destruct (Hv s cell Hc) as [(k & c' & Hk' & <-)|?]; [left|by right].
    exists k, c'. split; [|done]. apply lookup_delete_Some. split; [|done]. intros <-. rewrite Hk in Hk'. by simplify_eq.
Qed.

Lemma tracked_step p p' : tracked p -> prom_step zero used p p' -> tracked p'.
Proof using ids_differ.
  intros Ht Hs. destruct Hs as [name l f Hu|i|d|].
  - by apply tracked_update.
  - by apply tracked_listen.
  - by destruct Ht.
  - unfold Collect. simpl. generalize (List.filter (fun kc => isOutdated (pm_config p) (co_labels kc.2)) (range (pm_state p))).*1 as keys.
    intros keys. revert p Ht. induction keys as [|k keys IH]; intros p Ht; [done|]. simpl. by apply IH, tracked_forget.
Qed.

Lemma tracked_reachable p : rtc (prom_step zero used) newPrometheusState p -> tracked p.
Proof using ids_differ.
  revert p. apply (rtc_ind_r tracked newPrometheusState).
  - split; simpl; [intros ? ?; by rewrite lookup_empty|constructor|intros ? ?; by rewrite lookup_empty].
  - intros p p' _ Hs Ht. by eapply tracked_step.
Qed.

(** C22: when the identifiers tell the series in use apart, no series of what is
    not configured any more survives a scrape, whatever was updated, configured
    and scraped before and in whatever order: with no update on its way, the
    library is left with series of the configuration in force only. *)
Theorem no_outdated_series (p : prom) : rtc (prom_step zero used) newPrometheusState p -> pm_pending p = [] ->
  forall s cell, pm_vecs (Collect zero p).2 !! s = Some cell -> isOutdated (pm_config p) s.2 = false.
Proof using ids_differ laws.
  intros Hr Hp s cell Hc. assert (tracked (Collect zero p).2) as Ht by (eapply tracked_step; [by apply tracked_reachable|constructor]).
  destruct (tr_vecs _ Ht s cell Hc) as [(key & c & Hk & <-)|(c & Hin & _)].
  - by apply Collect_spec in Hk as [_ ?].
  - unfold Collect in Hin. simpl in Hin. destruct (forget_all_config (List.filter (fun kc => isOutdated (pm_config p) (co_labels kc.2)) (range (pm_state p))).*1 p) as [_ Hpend].
    rewrite Hpend, Hp in Hin. by apply elem_of_nil in Hin.
Qed.
End State.

Section Sample.
#[local] Existing Instance forward_order.
Let up : series := ("traefik_backend_server_up", {["backend" := "b"]}).

Lemma no_outdated_series_witness : exists p : prometheus Z,
  pm_vecs (Collect 0%Z p).2 !! up = Some 0 /\ isOutdated (pm_config p) up.2 = false.
Proof.
  set (used := fun s : series => s = up).
  set (p1 := SetDynamicConfig (mkDynamicConfig ∅ {["b" := ∅]}) (newPrometheusState (V := Z))).
  set (p2 := update 0%Z up.1 up.2 (fun _ => 1%Z) p1). set (p3 := listen 0 p2).
  assert (rtc (prom_step 0%Z used) newPrometheusState p3) as Hr.
  { eapply rtc_l; [by apply (prom_config 0%Z used _ (mkDynamicConfig ∅ {["b" := ∅]}))|].
    eapply rtc_l; [by apply (prom_update 0%Z used _ up.1 up.2 (fun _ => 1%Z))|]. apply rtc_once. by apply (prom_listen 0%Z used _ 0). }
  assert (pm_vecs (Collect 0%Z p3).2 !! up = Some 0) as Hv by (by vm_compute).
  exists p3. split; [exact Hv|]. apply (no_outdated_series 0%Z used) with (cell := 0); [|exact Hr|by vm_compute|exact Hv].
  intros s s' -> -> _. done.
Defined.

End Sample.

(** ** Counters that start again *)

Section Restart.
Context `{order : MapOrder} {laws : MapOrderLaws order}.

Definition blank (p : prometheus Z) : Prop := pm_vecs p = ∅ /\ pm_state p = ∅ /\ pm_pending p = [].

(** [d] is added to a counter, the listener gets it, and it is scraped. *)
Definition counted_and_scraped (name : string) (l : labels) (d : Z) (p : prometheus Z) : list (series * Z) * prometheus Z :=
  Collect 0%Z (listen 0 (update 0%Z name l (Z.add d) p)).

(** A counter of what is not configured, as of an entry point that no frontend is
    for, shows what was counted since the scrape before, not since the start. *)
Theorem unconfigured_counter_restarts name l d p : blank p -> isOutdated (pm_config p) l = true ->
  (counted_and_scraped name l d p).1 = [((name, l), d)] /\ blank (counted_and_scraped name l d p).2.
Proof using laws.
  intros (Hv & Hs & Hp) Ho. unfold counted_and_scraped, update, vec_With. rewrite Hv, lookup_empty, Hp, Hs. simpl.
  unfold listen, Collect. simpl. rewrite !insert_empty, range_singleton. simpl. rewrite Ho. simpl. split.
  - unfold sample. simpl. rewrite list_lookup_alter, lookup_app_r, Nat.sub_diag by lia.
    destruct (decide (length (pm_cells p) = length (pm_cells p))); [|done]. simpl. by rewrite Z.add_0_r.
  - unfold blank, forget. simpl. rewrite lookup_singleton_eq. simpl. split_and!; [|apply delete_singleton_eq|done].
    unfold newCollector. simpl. by rewrite delete_singleton_eq.
Qed.
End Restart.

(** The identifier sorts names and values together, so that two series of one
    metric can share it: the one updated last hides the other from the scrapes. *)
Example identifiers_collide :
  let l1 := ToLabels ["entrypoint"; "http"; "protocol"; "sse"] in
  let l2 := ToLabels ["entrypoint"; "sse"; "protocol"; "http"] in
  l1 <> l2 /\ buildMetricID (order := forward_order) "m" l1 = buildMetricID (order := forward_order) "m" l2.
Proof.
  split; [|vm_compute; reflexivity]. intros Heq%(f_equal (lookup "protocol")). vm_compute in Heq. discriminate Heq.
Qed.

Theorem hidden_series `{order : MapOrder} {laws : MapOrderLaws order} (p : prometheus Z) name l1 l2 f g :
  pm_pending p = [] -> pm_state p = ∅ -> buildMetricID name l1 = buildMetricID name l2 -> l1 <> l2 ->
  let q := listen 0 (update 0%Z name l2 g (listen 0 (update 0%Z name l1 f p))) in
  is_Some (pm_vecs q !! (name, l1)) /\ forall v, ((name, l1), v) ∉ (Collect 0%Z q).1.
Proof.
  intros Hp Hs Hid Hne q. assert (exists c, pm_state q = {[buildMetricID name l1 := c]} /\ co_labels c = l2) as (c & Hq & Hc).
  { subst q. unfold update, vec_With. destruct (pm_vecs p !! (name, l1)); simpl; rewrite Hp; simpl; rewrite Hs;
      match goal with |- context [match ?o with Some _ => _ | None => _ end] => destruct o end; simpl;
      eexists; (split; [rewrite Hid, insert_insert_eq, insert_empty; reflexivity|reflexivity]). }
  split.
  - subst q. unfold update, vec_With. destruct (pm_vecs p !! (name, l1)) eqn:E1; simpl; rewrite Hp; simpl;
      match goal with |- context [match ?o with Some _ => _ | None => _ end] => destruct o eqn:E2 end; simpl;
      rewrite ?lookup_insert_ne by congruence; rewrite ?E1, ?lookup_insert_eq; eauto.
  - intros v Hin. apply Collect_spec in Hin as (key & c' & Hk & Hx). rewrite Hq in Hk.
    apply lookup_singleton_Some in Hk as [_ <-]. unfold sample in Hx. congruence.
Qed.

(** ** The configuration in force *)

Section Config.
Context `{order : MapOrder} {laws : MapOrderLaws order}.

(** Two providers with a backend of the same name: the servers of only one of
    them count as configured, and which one is left to the order of a map. *)
Example same_name_in_two_providers :
  let conf url := mkConfiguration {["b" := backend_of {["s" := mkServer url 1]}]} ∅ [] in
  let confs : Configurations := {["p" := conf "http://1"; "q" := conf "http://2"]} in
  let ok order := hasServerURL (OnConfigurationUpdate (order := order) confs) "b" in
  (ok forward_order "http://1", ok forward_order "http://2") = (true, false) /\
  (ok backward_order "http://1", ok backward_order "http://2") = (false, true).
Proof. by vm_compute. Qed.
End Config.

(** ** Open connections *)

Definition begins (e : request_event) : Z := match e with Begins _ => 1 | Ends _ _ => -1 end.
Definition event_request (e : request_event) : Request := match e with Begins r | Ends r _ => r end.
Definition open_after (events : list request_event) (n : Z) : Z := foldl (fun n e => n + begins e)%Z n events.

(** The value of a gauge after some updates: the last one set with its labels. *)
Definition gauge_step (m : metric) (l : labels) (value : option Z) (x : measure) : option Z :=
  match x with
  | SetTo m' lvs v => if bool_decide (m' = m /\ ToLabels lvs = l) then Some v else value
  | _ => value
  end.
Definition gauge_value (m : metric) (l : labels) (value : option Z) (xs : list measure) : option Z := foldl (gauge_step m l) value xs.

Lemma serve_requests_cons e events m :
  serve_requests (e :: events) m =
  let '(l, m) := match e with Begins r => request_begins r m | Ends r code => request_ends r code m end in
  let '(l', m) := serve_requests events m in (l ++ l', m).
Proof. done. Qed.

Lemma event_sets e m v :
  let '(l, m') := match e with Begins r => request_begins r m | Ends r code => request_ends r code m end in
  openConns m' = (openConns m + begins e)%Z /\ openConnsGauge m' = openConnsGauge m /\ baseLabels m' = baseLabels m /\
  gauge_value (openConnsGauge m) (ToLabels (request_labels m (event_request e))) v l = Some (openConns m').
Proof.
  destruct e as [r|r code]; simpl; [|unfold gauge_value; rewrite foldl_app].
  - rewrite bool_decide_eq_true_2 by done. split_and!; [lia|done..].
  - simpl. rewrite bool_decide_eq_true_2 by done. split_and!; [lia|done..].
Qed.

Lemma serve_gauge events m lvs v : (forall e, e ∈ events -> request_labels m (event_request e) = lvs) ->
  openConns (serve_requests events m).2 = open_after events (openConns m) /\
  gauge_value (openConnsGauge m) (ToLabels lvs) v (serve_requests events m).1
  = match events with [] => v | _ => Some (open_after events (openConns m)) end.
Proof.
  revert m v. induction events as [|e events IH]; intros m v Hl; [done|]. rewrite serve_requests_cons. simpl.
  pose proof (event_sets e m v) as He. rewrite (Hl e ltac:(left)) in He.
  destruct (match e with Begins r => request_begins r m | Ends r code => request_ends r code m end) as [l m'].
  destruct He as (Hn & Hg & Hb & Hv).
  destruct (IH m' (Some (openConns m'))) as [IH1 IH2].
  { intros e' He'. rewrite <-(Hl e') by (by right). unfold request_labels. by rewrite Hb. }
  destruct (serve_requests events m') as [l' m'']. simpl in *. rewrite <-Hn. split; [done|].
  unfold gauge_value in *. rewrite foldl_app, Hv, <-Hg, IH2. by destruct events.
Qed.

Lemma serve_count events m : openConns (serve_requests events m).2 = open_after events (openConns m).
Proof.
  revert m. induction events as [|e events IH]; intros m; [done|]. rewrite serve_requests_cons. simpl.
  pose proof (event_sets e m None) as He.
  destruct (match e with Begins r => request_begins r m | Ends r code => request_ends r code m end) as [l m'].
  destruct He as (Hn & _). specialize (IH m'). destruct (serve_requests events m'). simpl in *. by rewrite <-Hn.
Qed.

(** The middleware counts the requests that are being served, whatever the
    order in which they begin and end, and also when a handler panicked; as long
    as all of them have one method and one protocol, the gauge shows that number
    after each of them. *)
Theorem open_connections events m :
  openConns (serve_requests events m).2 = open_after events (openConns m) /\
  forall lvs, (forall e, e ∈ events -> request_labels m (event_request e) = lvs) -> events <> [] ->
  forall v, gauge_value (openConnsGauge m) (ToLabels lvs) v (serve_requests events m).1 = Some (open_after events (openConns m)).
Proof.
  split; [apply serve_count|]. intros lvs Hl Hne v. destruct (serve_gauge events m lvs v Hl) as [_ ->]. by destruct events.
Qed.

(** With two methods it does not: when the last connection was closed, the gauge
    of the method that began first still shows one. *)
Definition request_of (method : string) : Request := mkRequest method (mkURL "" "" "" "/" "" false "") ∅ "h" "/" "" false.
Theorem gauge_of_a_method_sticks :
  let m := NewBackendMetricsMiddleware "b" in
  let events := [Begins (request_of "GET"); Begins (request_of "POST"); Ends (request_of "GET") (Some 200%Z); Ends (request_of "POST") (Some 200%Z)] in
  let '(xs, m') := serve_requests events m in
  let gauge method := gauge_value BackendOpenConns (ToLabels ["backend"; "b"; "method"; method; "protocol"; "http"]) None xs in
  openConns m' = 0%Z /\ gauge "GET" = Some 1%Z /\ gauge "POST" = Some 0%Z.
Proof. by vm_compute. Qed.

Lemma open_connections_witness :
  gauge_value BackendOpenConns (ToLabels ["method"; "GET"; "protocol"; "http"; "backend"; "b"]) None
    (serve_requests [Begins (request_of "GET"); Begins (request_of "GET"); Ends (request_of "GET") None] (NewBackendMetricsMiddleware "b")).1 = Some 1%Z.
Proof.
  apply (open_connections [Begins (request_of "GET"); Begins (request_of "GET"); Ends (request_of "GET") None] (NewBackendMetricsMiddleware "b")); [|done].
  apply Forall_forall. by repeat constructor.
Defined.
