(* ===== verification/Handlers.v ===== *)
(** * The handlers the server assembles

    A chain is a list of middlewares whose last hands the request over: to the
    router of an entry point, or to the balancer of a backend.  Handlers are
    values, so that what the server builds can be compared and run; running a
    chain tells whether a middleware answers the request, or what reaches the
    end.  The response's way back is not followed here. *)
From S2P Require Import Prelude GoStrings GoNet GoHttp Types OsioClient Rules Whitelist Middlewares EntryPoints Redirect.
From S2P Require Import ErrorPages Authenticator Certs.
From S2P Require Wiring Balancer.

(** ** [vendor/github.com/vulcand/oxy/utils/source.go]: what is limited *)

Inductive Extractor := ClientIP | RequestHost | RequestHeader (header : string).

Definition NewExtractor (variable : string) : result Extractor :=
  if bool_decide (variable = "client.ip") then Ok ClientIP
  else if bool_decide (variable = "request.host") then Ok RequestHost
  else if has_prefix variable "request.header." then
    let header := trim_prefix variable "request.header." in
    if bool_decide (String.length header = 0) then Err ("Wrong header: " +:+ header) else Ok (RequestHeader header)
  else Err ("Unsupported limiting variable: '" +:+ variable +:+ "'").

(** The token of a request. *)
Definition Extract (e : Extractor) (req : Request) : result string :=
  match e with
  | ClientIP =>
      match split2 (RemoteAddr req) ":" with
      | v :: _ => if bool_decide (String.length v = 0) then Err ("Failed to parse client IP: " +:+ RemoteAddr req) else Ok v
      | [] => Err ""
      end
  | RequestHost => Ok (Host req)
  | RequestHeader header => Ok (req_header req header)
  end.

(** ** Handlers of a backend *)

(** The transport to the servers: the server's own, or one with the client
    certificates and the authorities of an entry point. *)
Inductive Transport (Certificate : Type) :=
  | DefaultTransport
  | ClientTransport (certificates : list Certificate) (rootCAs : list string).
Arguments DefaultTransport {Certificate}.
Arguments ClientTransport {Certificate}.

Record Forwarder (Certificate : Type) := mkForwarder {
  fw_RoundTripper : Transport Certificate;
  fw_Rewriter : Wiring.headerRewriter;
  fw_PassHostHeader : bool;
  (** What [buildModifyResponse] was given. *)
  fw_secure : option Headers;
  fw_headers : option HeaderOptions;
}.
Arguments mkForwarder {Certificate}.
Arguments fw_RoundTripper {Certificate}.
Arguments fw_Rewriter {Certificate}.
Arguments fw_PassHostHeader {Certificate}.
Arguments fw_secure {Certificate}.
Arguments fw_headers {Certificate}.

(** [SaveBackend] and [SaveFrontend] of the access log; the balancer with its
    method, behind the guard against an empty backend; the limits. *)
Inductive handler (Certificate : Type) :=
  | HForward (f : Forwarder Certificate)
  | HSaveBackend (backendName : string) (h : handler Certificate)
  | HSaveFrontend (frontendName : string) (h : handler Certificate)
  | HTraced (name : string) (h : handler Certificate)
  | HBalance (m : LoadBalancerMethod) (rr : Balancer.RoundRobin) (h : handler Certificate)
  | HEmptyBackend (h : handler Certificate)
  | HRateLimit (source : Extractor) (rates : gmap Z Rate) (h : handler Certificate)
  | HConnLimit (source : Extractor) (amount : Z) (h : handler Certificate)
  | HRetry (attempts : Z) (h : handler Certificate)
  | HBuffer (config : Buffering) (h : handler Certificate).
Arguments HForward {Certificate}.
Arguments HSaveBackend {Certificate}.
Arguments HSaveFrontend {Certificate}.
Arguments HTraced {Certificate}.
Arguments HBalance {Certificate}.
Arguments HEmptyBackend {Certificate}.
Arguments HRateLimit {Certificate}.
Arguments HConnLimit {Certificate}.
Arguments HRetry {Certificate}.
Arguments HBuffer {Certificate}.

(** ** Middlewares *)

(** [MErrorPages] is a pointer to one of the error-page handlers of the
    configuration; the last three end a chain. *)
Inductive middleware (Certificate : Type) :=
  | MRecover
  | MOsioRequest
  | MTracingEntryPoint (name : string)
  | MAccessLog
  | MMetrics (name : string)
  | MStats
  | MStatsRecorder (recentErrors : Z)
  | MAuth (a : Authenticator)
  | MCompress
  | MWhiteList (wl : WhiteIP)
  | MOsioAuth
  | MRedirect (h : redirect_handler)
  | MErrorPages (page : nat)
  | MHeader (headers : HeaderOptions)
  | MSecure (headers : Headers)
  | MSaved (frontendName : string) (m : middleware Certificate)
  | MTraced (name : string) (m : middleware Certificate)
  | MCircuitBreaker (expression : string) (lb : handler Certificate)
  | MHandler (lb : handler Certificate)
  | MRouter.
Arguments MRecover {Certificate}.
Arguments MOsioRequest {Certificate}.
Arguments MTracingEntryPoint {Certificate}.
Arguments MAccessLog {Certificate}.
Arguments MMetrics {Certificate}.
Arguments MStats {Certificate}.
Arguments MStatsRecorder {Certificate}.
Arguments MAuth {Certificate}.
Arguments MCompress {Certificate}.
Arguments MWhiteList {Certificate}.
Arguments MOsioAuth {Certificate}.
Arguments MRedirect {Certificate}.
Arguments MErrorPages {Certificate}.
Arguments MHeader {Certificate}.
Arguments MSecure {Certificate}.
Arguments MSaved {Certificate}.
Arguments MTraced {Certificate}.
Arguments MCircuitBreaker {Certificate}.
Arguments MHandler {Certificate}.
Arguments MRouter {Certificate}.

Abbreviation chain Certificate := (list (middleware Certificate)) (only parsing).

(** ** Running a chain *)

(** What the handlers of other parts do with a request. *)
Class ServerHandlers (Certificate W : Type) := {
  auth_lib :: GoAuth;
  templates :: TemplateLib;
  urls :: UrlLib;
  tls_files :: TLSFiles Certificate;
  osio_request : Request -> handled;
  osio_auth : Request -> M W handled;
  (** the client of forward authentication *)
  Do : option (TLSConfig Certificate) -> GoHttp.URL -> Header -> M W (result ForwardResponse);
  (** [secure.HandlerFuncWithNextForRequestOnly] *)
  secure_request : Headers -> Request -> handled;
  (** whether the breaker of an expression is open *)
  tripped : string -> M W bool;
}.

Inductive passed (Certificate : Type) :=
  | Answered
  | Goes (r : Request)
  | Balanced (lb : handler Certificate) (r : Request)
  | Routed (r : Request).
Arguments Answered {Certificate}.
Arguments Goes {Certificate}.
Arguments Balanced {Certificate}.
Arguments Routed {Certificate}.

Section Run.
Context {Certificate W : Type} `{handlers : ServerHandlers Certificate W} `{order : MapOrder}.

Definition of_handled (h : handled) : passed Certificate :=
  match h with CallNext r => Goes r | _ => Answered end.
Definition of_authenticated (a : authenticated) : passed Certificate :=
  match a with Required => Answered | Passed _ r => Goes r end.

Definition authenticate (a : Authenticator) (r : Request) : M W (passed Certificate) :=
  match a with
  | AuthBasic users field => mret (of_authenticated (basic_handler users field r))
  | AuthDigest users field => mret (of_authenticated (digest_handler users field r))
  | AuthForward config =>
      res ← Forward_ServeHTTP (Certificate := Certificate) Do config r;
      mret (match res with Answer _ => Answered | Authenticator.Next r' => Goes r' end)
  | AuthNone => panic nil_dereference
  end.

(** Most middlewares look at the response only. *)
Fixpoint pass (m : middleware Certificate) (r : Request) : M W (passed Certificate) :=
  match m with
  | MRecover | MTracingEntryPoint _ | MAccessLog | MMetrics _ | MStats | MStatsRecorder _ | MCompress | MErrorPages _ => mret (Goes r)
  | MOsioRequest => mret (of_handled (osio_request r))
  | MOsioAuth => h ← osio_auth r; mret (of_handled h)
  | MAuth a => authenticate a r
  | MWhiteList wl => mret (of_handled (IPWhiteLister_ServeHTTP wl r))
  | MRedirect h => mret (of_handled (Redirect_ServeHTTP h r))
  | MHeader ho => mret (of_handled (HeaderStruct_ServeHTTP (range (ho_CustomRequestHeaders ho)) r))
  | MSecure headers => mret (of_handled (secure_request headers r))
  | MSaved _ m | MTraced _ m => pass m r
  | MCircuitBreaker expression lb =>
      open ← tripped expression; mret (if open : bool then Answered else Balanced lb r)
  | MHandler lb => mret (Balanced lb r)
  | MRouter => mret (Routed r)
  end.

(** The end of an empty chain answers nothing, which the server turns into an
    empty response. *)
Fixpoint run_chain (n : chain Certificate) (r : Request) : M W (passed Certificate) :=
  match n with
  | [] => mret Answered
  | m :: n' =>
      p ← pass m r;
      match p with Goes r' => run_chain n' r' | _ => mret p end
  end.

(** ** Laws of running *)

(** A request that gets to the end of a chain went through every middleware
    before the last, one after the other. *)
Inductive through : chain Certificate -> Request -> W -> Request -> W -> Prop :=
  | through_nil r w : through [] r w r w
  | through_cons m n r r1 r2 w w1 w2 :
      pass m r w = (Ret (Goes r1), w1) -> through n r1 w1 r2 w2 -> through (m :: n) r w r2 w2.

Definition ends (p : passed Certificate) : bool := match p with Balanced _ _ | Routed _ => true | _ => false end.

Lemma run_chain_ends n r w p w' :
  run_chain n r w = (Ret p, w') -> ends p = true ->
  exists n1 m n2 r1 w1, n = n1 ++ m :: n2 /\ through n1 r w r1 w1 /\ pass m r1 w1 = (Ret p, w').
Proof.
  revert r w. induction n as [|m n IH]; intros r w; simpl; [by intros [= <- <-]|].
  intros (q & w1 & Hm & Hk)%bind_Ret_inv He. destruct q as [|r1|lb r1|r1].
  - apply mret_Ret_inv in Hk as [-> ->]. done.
  - destruct (IH r1 w1 Hk He) as (n1 & m1 & n2 & r2 & w2 & -> & Ht & Hp).
    exists (m :: n1), m1, n2, r2, w2. split; [done|]. split; [|done]. by econstructor.
  - apply mret_Ret_inv in Hk as [-> ->]. exists [], m, n, r, w. split; [done|]. split; [constructor|done].
  - apply mret_Ret_inv in Hk as [-> ->]. exists [], m, n, r, w. split; [done|]. split; [constructor|done].
Qed.

(** Every middleware of the part of a chain that was gone through was passed. *)
Lemma through_elem n r w r' w' m :
  through n r w r' w' -> m ∈ n -> exists r1 w1 r2 w2, pass m r1 w1 = (Ret (Goes r2), w2).
Proof.
  induction 1 as [|m1 n r r1 r2 w w1 w2 Hp Ht IH]; [by intros ?%elem_of_nil|].
  intros [->|Hm]%elem_of_cons; [eauto 10|by apply IH].
Qed.

Lemma through_app n1 n2 r w r' w' :
  through (n1 ++ n2) r w r' w' <-> exists r1 w1, through n1 r w r1 w1 /\ through n2 r1 w1 r' w'.
Proof.
  revert r w. induction n1 as [|m n1 IH]; intros r w; simpl.
  - split; [intros H; exists r, w; split; [constructor|done]|by intros (r1 & w1 & H1 & H2); inversion H1; subst].
  - split.
    + intros H. inversion H as [|? ? ? ra ? ? wa ? Hp Ht]; subst. apply IH in Ht as (r1 & w1 & H1 & H2).
      exists r1, w1. split; [by econstructor|done].
    + intros (r1 & w1 & H1 & H2). inversion H1 as [|? ? ? ra ? ? wa ? Hp Ht]; subst. econstructor; [done|]. apply IH. eauto.
Qed.

(** Wrappers do not change what is passed. *)
Fixpoint unwrap (m : middleware Certificate) : middleware Certificate :=
  match m with MSaved _ m | MTraced _ m => unwrap m | m => m end.

Lemma pass_unwrap m r : pass m r = pass (unwrap m) r.
Proof. by induction m. Qed.

Lemma pass_white_list m wl r w r' w' :
  unwrap m = MWhiteList wl -> pass m r w = (Ret (Goes r'), w') -> r' = r /\ w' = w /\ IsAuthorized wl r = None.
Proof.
  intros Hm. rewrite pass_unwrap, Hm. simpl. unfold IPWhiteLister_ServeHTTP.
  destruct (IsAuthorized wl r); simpl; [by intros [=]|by intros [= -> ->]].
Qed.

Lemma pass_basic m users field r w r' w' :
  unwrap m = MAuth (AuthBasic users field) -> pass m r w = (Ret (Goes r'), w') ->
  w' = w /\ basic_CheckAuth (secretBasic users) r <> "" /\ (field = "" -> r' = r).
Proof.
  intros Hm. rewrite pass_unwrap, Hm. simpl. unfold basic_handler. case_bool_decide; simpl; [by intros [=]|].
  intros [= <- ->]. split_and!; [done|done|]. by intros ->.
Qed.

End Run.
