(* ===== verification/LoadConfig.v ===== *)
(** * [server/server.go]: from the configurations to the routers

    [loadConfig] builds a router for every entry point, a chain of handlers for
    every backend a frontend uses there, and a route for every frontend.  A
    frontend whose configuration is wrong is left where the error is found:
    [Err] ends its loop, what was done for it stays done.  Chains and handlers
    are those of [Handlers]; the handlers of [vendor/github.com/vulcand/oxy]
    are built by parameters that fail or not. *)
From S2P Require Import Prelude GoStrings GoNet GoHttp Types OsioClient Rules Whitelist Middlewares EntryPoints Redirect.
From S2P Require Import Label ErrorPages Authenticator Certs GlobalConfig Cookie Handlers HealthCheck.
From S2P Require Wiring Balancer.
Open Scope go_scope.

Class Oxy := {
  forward_New : option error;
  buffer_New : Buffering -> option error;
  (** [cbreaker.New] parses the expression. *)
  breaker_New : string -> option error;
  (** [os.Hostname] and [forward.HeaderRewriter] *)
  os_Hostname : result string;
  oxy_rewriter : bool -> string -> Request -> Request;
  (** [AppendCertsFromPEM] finds a certificate *)
  valid_pem : string -> bool;
}.

(** What of the server [loadConfig] reads. *)
Record server := mkServer {
  globalConfiguration : GlobalConfiguration;
  accessLogger : bool;
  tracingEnabled : bool;
  metricsEnabled : bool;
}.

(** A route of a router: of which frontend, the route, and the chain its
    handler calls, if it got one. *)
Record installed (Certificate : Type) := mkInstalled {
  in_name : string;
  in_route : ServerRoute;
  in_handler : option (chain Certificate);
}.
Arguments mkInstalled {Certificate}.
Arguments in_name {Certificate}.
Arguments in_route {Certificate}.
Arguments in_handler {Certificate}.

(** The backend of an error page: a chain, or a forwarder of its own. *)
Inductive page_target (Certificate : Type) := PageChain (c : chain Certificate) | PageForward.
Arguments PageChain {Certificate}.
Arguments PageForward {Certificate}.

(** The local variables, and the configurations, whose frontends are changed. *)
Record lc_state (Certificate : Type) := mkLC {
  lc_configurations : Configurations;
  lc_routers : gmap string (list (installed Certificate));
  redirectHandlers : gmap string (middleware Certificate);
  backends : gmap string (chain Certificate);
  backendsHealthCheck : gmap string (BackendHealthCheck * Balancer.RoundRobin);
  errorPageHandlers : list (ErrorHandler (page_target Certificate));
}.
Arguments mkLC {Certificate}.
Arguments lc_configurations {Certificate}.
Arguments lc_routers {Certificate}.
Arguments redirectHandlers {Certificate}.
Arguments backends {Certificate}.
Arguments backendsHealthCheck {Certificate}.
Arguments errorPageHandlers {Certificate}.

Section LoadConfig.
Context {Certificate : Type} `{files : !TLSFiles Certificate} `{leafs : !Leaf Certificate} `{order : MapOrder}.
Context `{urls : UrlLib} `{regexps : RegexpLib} `{mux : Mux} `{times : TimeLib} `{oxy : Oxy}.
Context (DefaultCertificate : result Certificate).

Abbreviation LC := (M (lc_state Certificate)) (only parsing).

Definition set_routers (f : gmap string (list (installed Certificate)) -> gmap string (list (installed Certificate)))
    (st : lc_state Certificate) : lc_state Certificate :=
  mkLC (lc_configurations st) (f (lc_routers st)) (redirectHandlers st) (backends st) (backendsHealthCheck st) (errorPageHandlers st).
Definition set_redirect (ep : string) (m : middleware Certificate) (st : lc_state Certificate) : lc_state Certificate :=
  mkLC (lc_configurations st) (lc_routers st) (<[ep := m]> (redirectHandlers st)) (backends st) (backendsHealthCheck st)
    (errorPageHandlers st).
Definition set_backend (key : string) (c : chain Certificate) (st : lc_state Certificate) : lc_state Certificate :=
  mkLC (lc_configurations st) (lc_routers st) (redirectHandlers st) (<[key := c]> (backends st)) (backendsHealthCheck st)
    (errorPageHandlers st).
Definition set_health (key : string) (hc : BackendHealthCheck * Balancer.RoundRobin) (st : lc_state Certificate) : lc_state Certificate :=
  mkLC (lc_configurations st) (lc_routers st) (redirectHandlers st) (backends st) (<[key := hc]> (backendsHealthCheck st))
    (errorPageHandlers st).
Definition set_pages (l : list (ErrorHandler (page_target Certificate))) (st : lc_state Certificate) : lc_state Certificate :=
  mkLC (lc_configurations st) (lc_routers st) (redirectHandlers st) (backends st) (backendsHealthCheck st) l.
Definition set_configurations (c : Configurations) (st : lc_state Certificate) : lc_state Certificate :=
  mkLC c (lc_routers st) (redirectHandlers st) (backends st) (backendsHealthCheck st) (errorPageHandlers st).

(** [NewRoute] appends to the routes of the router. *)
Definition install (entryPointName : string) (r : installed Certificate) (st : lc_state Certificate) : lc_state Certificate :=
  set_routers (alter (fun l => l ++ [r]) entryPointName) st.

(** ** Wrappers *)

Definition Traefik : string := "Træfik".

Definition wrapNegroniHandlerWithAccessLog (s : server) (m : middleware Certificate) (frontendName : string) : middleware Certificate :=
  if accessLogger s then MSaved frontendName m else m.
Definition wrapHTTPHandlerWithAccessLog (s : server) (h : handler Certificate) (frontendName : string) : handler Certificate :=
  if accessLogger s then HSaveFrontend frontendName (HSaveBackend Traefik h) else h.
Definition NewNegroniHandlerWrapper (s : server) (name : string) (m : middleware Certificate) : middleware Certificate :=
  if tracingEnabled s then MTraced name m else m.
Definition NewHTTPHandlerWrapper (s : server) (name : string) (h : handler Certificate) : handler Certificate :=
  if tracingEnabled s then HTraced name h else h.

(** ** The parts of a backend *)

(** The error quotes the name of the entry point redirected from. *)
Definition buildRedirectHandler (s : server) (srcEntryPointName : string) (opt : Types.Redirect) : result redirect_handler :=
  if nonempty (rd_EntryPoint opt) then
    match gc_EntryPoints (globalConfiguration s) !! rd_EntryPoint opt with
    | None => Err ("unknown target entrypoint " +:+ String "034" (srcEntryPointName +:+ String "034" ""))
    | Some entryPoint => NewEntryPointHandler entryPoint (Permanent opt)
    end
  else NewRegexHandler (rd_Regex opt) (Replacement opt) (Permanent opt).

(** The pool of the authorities of an entry point; the deprecated list of files
    takes the place of the other one. *)
Definition client_ca_files (t : EntryPoints.TLS) : list string :=
  match tls_ClientCAFiles t with [] => ca_Files (tls_ClientCA t) | l => l end.

Fixpoint read_pool (caFiles : list string) : result (list string) :=
  match caFiles with
  | [] => Ok []
  | caFile :: caFiles' =>
      data ← ReadFile caFile;
      if negb (valid_pem data) then Err ("invalid certificate(s) in " +:+ caFile) else
      pool ← read_pool caFiles'; mret (data :: pool)
  end.

Definition createClientTLSConfig (entryPointName : string) (tlsOption : option EntryPoints.TLS) :
    result (list Certificate * list string) :=
  match tlsOption with
  | None => Err "no TLS provided"
  | Some t =>
      certificates ← Certificates_CreateTLSConfig DefaultCertificate (tls_Certificates t) entryPointName;
      rootCAs ← read_pool (client_ca_files t);
      mret (certificates, rootCAs)
  end.

Definition getRoundTripper (entryPointName : string) (passTLSCert : bool) (tls : option EntryPoints.TLS) : result (Transport Certificate) :=
  if passTLSCert then
    c ← createClientTLSConfig entryPointName tls; mret (ClientTransport c.1 c.2)
  else Ok DefaultTransport.

Definition NewSecure (headers : option Headers) : option Headers :=
  match headers with
  | None => None
  | Some h => if HasSecureHeadersDefined headers then Some h else None
  end.

Fixpoint configureLBServers (servers : list (string * Types.Server)) (lb : Balancer.RoundRobin) : result Balancer.RoundRobin :=
  match servers with
  | [] => Ok lb
  | (_, srv) :: servers' =>
      u ← url_Parse (Types.URL srv);
      match Balancer.UpsertServer (LoadBalancer := Balancer.RoundRobin_balancer) u (Weight srv) lb with
      | (_, Some err) => Err err
      | (lb', None) => configureLBServers servers' lb'
      end
  end.

(** The balancer of a backend in front of [next]: its method, its cookie and
    its servers. *)
Definition sticky_cookie_name (backend : Backend) (backendName : string) : option string :=
  match be_LoadBalancer backend with
  | Some lb =>
      match lb_Stickiness lb with Some st => Some (GetName (CookieName st) backendName) | None => None end
  | None => None
  end.

Definition build_balancer (backend : Backend) (backendName : string) :
    result (LoadBalancerMethod * Balancer.RoundRobin) :=
  match NewLoadBalancerMethod (be_LoadBalancer backend) with
  | (_, Some err) => Err err
  | (m, None) =>
      rr ← configureLBServers (range (Types.Servers backend)) (Balancer.rr_New (sticky_cookie_name backend backendName));
      mret (m, rr)
  end.

Fixpoint add_rates (rates : list (string * Rate)) (rateSet : gmap Z Rate) : result (gmap Z Rate) :=
  match rates with
  | [] => Ok rateSet
  | (_, rate) :: rates' =>
      if (Period rate <=? 0)%Z then Err "Invalid period"
      else if (Average rate <=? 0)%Z then Err "Invalid average"
      else if (Burst rate <=? 0)%Z then Err "Invalid burst"
      else add_rates rates' (<[Period rate := rate]> rateSet)
  end.

Definition buildRateLimiter (s : server) (h : handler Certificate) (rlConfig : RateLimit) : result (handler Certificate) :=
  extractFunc ← NewExtractor (rl_ExtractorFunc rlConfig);
  rateSet ← add_rates (range (RateSet rlConfig)) ∅;
  if bool_decide (rateSet = ∅) then Err "Provide default rates"
  else mret (NewHTTPHandlerWrapper s "Rate limit" (HRateLimit extractFunc rateSet h)).

Definition buildRetryMiddleware (s : server) (h : handler Certificate) (attempts : Z) (countServers : nat) : handler Certificate :=
  NewHTTPHandlerWrapper s "Retry" (HRetry (Wiring.retry_attempts attempts countServers) h).

Definition buildBufferingMiddleware (h : handler Certificate) (config : Buffering) : result (handler Certificate) :=
  match buffer_New config with Some err => Err err | None => Ok (HBuffer config h) end.

(** ** A backend *)

(** The key of a backend's chain. *)
Definition backend_key (entryPointName providerName backend : string) : string := entryPointName +:+ providerName +:+ backend.

(** The error pages of a frontend: their handlers are remembered, in the order
    they are visited. *)
Fixpoint add_error_pages (config : Configuration) (entryPointName providerName : string) (frontend : Frontend)
    (pages : list (string * ErrorPage)) (l : list (ErrorHandler (page_target Certificate))) :
    chain Certificate * list (ErrorHandler (page_target Certificate)) :=
  match pages with
  | [] => ([], l)
  | (_, errorPage) :: pages' =>
      let skip := add_error_pages config entryPointName providerName frontend pages' l in
      if bool_decide (fe_Backend frontend = ep_Backend errorPage) then skip else
      match Backends config !! ep_Backend errorPage with
      | None => skip
      | Some backend =>
          match NewHandler errorPage (backend_key entryPointName providerName (ep_Backend errorPage)) with
          | Err _ => skip
          | Ok h =>
              let h := match Types.Servers backend !! "error" with
                | Some errorPageServer => set_FallbackURL (Types.URL errorPageServer) h
                | None => h
                end in
              let '(n, l') := add_error_pages config entryPointName providerName frontend pages' (l ++ [h]) in
              (MErrorPages (length l) :: n, l')
          end
      end
  end.

Definition basic_auth (frontend : Frontend) : Auth :=
  mkAuth (Some (mkUsersAuth (BasicAuth frontend) "")) None None "".

(** The middlewares between the error pages and the balancer; one that cannot
    be built is left out. *)
Definition white_list_part (s : server) (frontendName : string) (frontend : Frontend) : chain Certificate :=
  match Wiring.buildIPWhiteLister (fe_WhiteList frontend) (WhitelistSourceRange frontend) with
  | Ok (Some wl) =>
      [NewNegroniHandlerWrapper s "IP whitelist"
         (wrapNegroniHandlerWithAccessLog s (MWhiteList wl) ("ipwhitelister for " +:+ frontendName))]
  | _ => []
  end.

Definition redirect_part (s : server) (frontendName entryPointName : string) (frontend : Frontend) : chain Certificate :=
  match fe_Redirect frontend with
  | Some redirect =>
      if bool_decide (entryPointName = rd_EntryPoint redirect) then [] else
      match buildRedirectHandler s entryPointName redirect with
      | Err _ => []
      | Ok rewrite => [wrapNegroniHandlerWithAccessLog s (MRedirect rewrite) ("frontend redirect for " +:+ frontendName)]
      end
  | None => []
  end.

Definition auth_part (s : server) (frontendName : string) (frontend : Frontend) : chain Certificate :=
  match BasicAuth frontend with
  | [] => []
  | _ =>
      match NewAuthenticator (Certificate := Certificate) (Some (basic_auth frontend)) with
      | Err _ => []
      | Ok authMiddleware => [wrapNegroniHandlerWithAccessLog s (MAuth authMiddleware) ("Auth for " +:+ frontendName)]
      end
  end.

Definition frontend_part (s : server) (frontendName entryPointName : string) (frontend : Frontend) : chain Certificate :=
  (if metricsEnabled s then [MMetrics (fe_Backend frontend)] else []) ++
  white_list_part s frontendName frontend ++
  redirect_part s frontendName entryPointName frontend ++
  match NewHeaderFromStruct (fe_Headers frontend) with
  | Some headerMiddleware => [NewNegroniHandlerWrapper s "Header" (MHeader headerMiddleware)]
  | None => []
  end ++
  match NewSecure (fe_Headers frontend) with Some secureMiddleware => [MSecure secureMiddleware] | None => [] end ++
  auth_part s frontendName frontend.

(** The forwarder, traced and noted in the access log. *)
Definition build_forwarder (s : server) (frontendName : string) (frontend : Frontend) (roundTripper : Transport Certificate)
    (fh : ForwardedHeaders) : result (handler Certificate) :=
  rewriter ← Wiring.NewHeaderRewriter oxy_rewriter os_Hostname (fh_TrustedIPs fh) (fh_Insecure fh);
  match forward_New with
  | Some err => Err err
  | None =>
      let fwd := HForward (mkForwarder roundTripper rewriter (PassHostHeader frontend) (NewSecure (fe_Headers frontend))
        (NewHeaderFromStruct (fe_Headers frontend))) in
      let fwd := NewHTTPHandlerWrapper s "forward" fwd in
      mret (if accessLogger s then HSaveFrontend frontendName (HSaveBackend (fe_Backend frontend) fwd) else fwd)
  end.

(** The limits in front of the balancer. *)
Definition limit_rate (s : server) (frontendName : string) (frontend : Frontend) (lb : handler Certificate) : result (handler Certificate) :=
  match fe_RateLimit frontend with
  | Some rateLimit =>
      if bool_decide (size (RateSet rateLimit) = 0) then Ok lb else
      lb ← buildRateLimiter s lb rateLimit;
      mret (wrapHTTPHandlerWithAccessLog s lb ("rate limit for " +:+ frontendName))
  | None => Ok lb
  end.

Definition limit_connections (s : server) (frontendName : string) (backend : Backend) (lb : handler Certificate) : result (handler Certificate) :=
  match be_MaxConn backend with
  | Some maxConns =>
      if (Amount maxConns =? 0)%Z then Ok lb else
      extractFunc ← NewExtractor (mc_ExtractorFunc maxConns);
      mret (wrapHTTPHandlerWithAccessLog s (HConnLimit extractFunc (Amount maxConns) lb) ("connection limit for " +:+ frontendName))
  | None => Ok lb
  end.

Definition add_retry (s : server) (backend : Backend) (lb : handler Certificate) : handler Certificate :=
  match Retry (gc_Settings (globalConfiguration s)) with
  | Some attempts => buildRetryMiddleware s lb attempts (size (Types.Servers backend))
  | None => lb
  end.

Definition add_buffering (backend : Backend) (lb : handler Certificate) : handler Certificate :=
  match be_Buffering backend with
  | Some config => match buildBufferingMiddleware lb config with Ok bufferedLb => bufferedLb | Err _ => lb end
  | None => lb
  end.

Definition chain_end (s : server) (backend : Backend) (lb : handler Certificate) : result (middleware Certificate) :=
  match be_CircuitBreaker backend with
  | Some cb =>
      match breaker_New (Expression cb) with
      | Some err => Err err
      | None => Ok (NewNegroniHandlerWrapper s "Circuit breaker" (MCircuitBreaker (Expression cb) lb))
      end
  | None => Ok (MHandler lb)
  end.

(** [n] is the chain so far. *)
Definition build_backend (s : server) (providerName : string) (config : Configuration) (frontendName entryPointName : string)
    (frontend : Frontend) (entryPoint : EntryPoint) (n : chain Certificate) : LC (result (chain Certificate)) :=
  roundTripper <-? mret (getRoundTripper entryPointName (PassTLSCert frontend) (ep_TLS entryPoint));;
  match ep_ForwardedHeaders entryPoint with
  | None => panic nil_dereference
  | Some fh =>
      fwd <-? mret (build_forwarder s frontendName frontend roundTripper fh);;
      match Backends config !! fe_Backend frontend with
      | None => mret (Err ("Undefined backend '" +:+ fe_Backend frontend +:+ "'"))
      | Some backend =>
          lb <-? mret (build_balancer backend (fe_Backend frontend));;
          let '(m, rr) := lb in
          _ ← match Wiring.parseHealthCheckOptions (be_HealthCheck backend) (gs_HealthCheck (gc_Settings (globalConfiguration s))) with
            | Some hcOpts =>
                modify_state (set_health (entryPointName +:+ fe_Backend frontend) (NewBackendHealthCheck hcOpts (fe_Backend frontend), rr))
            | None => mret tt
            end;
          let lb := HEmptyBackend (HBalance m rr fwd) in
          st ← get_state;
          let '(pages, l) := add_error_pages config entryPointName providerName frontend (range (Errors frontend)) (errorPageHandlers st) in
          _ ← modify_state (set_pages l);
          lb <-? mret (limit_rate s frontendName frontend lb);;
          lb <-? mret (limit_connections s frontendName backend lb);;
          let lb := add_buffering backend (add_retry s backend lb) in
          last <-? mret (chain_end s backend lb);;
          let c := n ++ pages ++ frontend_part s frontendName entryPointName frontend ++ [last] in
          _ ← modify_state (set_backend (backend_key entryPointName providerName (fe_Backend frontend)) c);
          mret (Ok c)
      end
  end.

(** The redirection of the entry point, which its frontends share. *)
Definition entry_point_redirect (s : server) (frontendName entryPointName : string) (entryPoint : EntryPoint) : LC (result (chain Certificate)) :=
  match ep_Redirect entryPoint with
  | Some redirect =>
      if bool_decide (entryPointName = rd_EntryPoint redirect) then mret (Ok []) else
      st ← get_state;
      match redirectHandlers st !! entryPointName with
      | Some m => mret (Ok [m])
      | None =>
          h <-? mret (buildRedirectHandler s entryPointName redirect);;
          let m := wrapNegroniHandlerWithAccessLog s (MRedirect h) ("entrypoint redirect for " +:+ frontendName) in
          _ ← modify_state (set_redirect entryPointName m); mret (Ok [m])
      end
  | None => mret (Ok [])
  end.

Definition backend_chain (s : server) (providerName : string) (config : Configuration) (frontendName entryPointName : string)
    (frontend : Frontend) : LC (result (chain Certificate)) :=
  match gc_EntryPoints (globalConfiguration s) !! entryPointName with
  | None => panic nil_dereference
  | Some entryPoint =>
      n <-? entry_point_redirect s frontendName entryPointName entryPoint;;
      st ← get_state;
      match backends st !! backend_key entryPointName providerName (fe_Backend frontend) with
      | Some c => mret (Ok c)
      | None => build_backend s providerName config frontendName entryPointName frontend entryPoint n
      end
  end.

(** ** Frontends *)

Fixpoint add_routes (routes : list (string * Route)) : M ServerRoute (result unit) :=
  match routes with
  | [] => mret (Ok tt)
  | (_, route) :: routes' => _ <-? Wiring.getRoute (Rule route);; add_routes routes'
  end.

(** The route is registered first and keeps what the rules did to it; it gets
    its handler last. *)
Definition wire_entry_point (s : server) (providerName : string) (config : Configuration) (frontendName : string)
    (frontend : Frontend) (entryPointName : string) : LC (result unit) := fun st =>
  match add_routes (range (Routes frontend)) new_server_route with
  | (Panic e, _) => (Panic e, st)
  | (Crash e, _) => (Crash e, st)
  | (Ret (Err err), route) => (Ret (Err err), install entryPointName (mkInstalled frontendName route None) st)
  | (Ret (Ok _), route) =>
      match backend_chain s providerName config frontendName entryPointName frontend st with
      | (Ret (Ok c), st) =>
          let route := if (0 <? Priority frontend)%Z
            then set_route (Wiring.set_priority (Priority frontend) (sr_Route route)) route else route in
          let h := match route_err (sr_Route route) with None => Some c | Some _ => None end in
          (Ret (Ok tt), install entryPointName (mkInstalled frontendName route h) st)
      | (Ret (Err err), st) => (Ret (Err err), install entryPointName (mkInstalled frontendName route None) st)
      | (Panic e, st) => (Panic e, st)
      | (Crash e, st) => (Crash e, st)
      end
  end.

(** The loop over the entry points of a frontend ends at the first error. *)
Fixpoint wire_entry_points (s : server) (providerName : string) (config : Configuration) (frontendName : string)
    (frontend : Frontend) (entryPointNames : list string) : LC unit :=
  match entryPointNames with
  | [] => mret tt
  | entryPointName :: entryPointNames' =>
      res ← wire_entry_point s providerName config frontendName frontend entryPointName;
      match res with
      | Ok _ => wire_entry_points s providerName config frontendName frontend entryPointNames'
      | Err _ => mret tt
      end
  end.

Definition set_frontend (providerName frontendName : string) (frontend : Frontend) (c : Configurations) : Configurations :=
  alter (fun config => mkConfiguration (Backends config) (<[frontendName := frontend]> (Frontends config)) (TLSConfigs config))
    providerName c.

Definition set_frontend_entry_points (l : list string) (f : Frontend) : Frontend :=
  mkFrontend l (fe_Backend f) (Routes f) (PassHostHeader f) (PassTLSCert f) (Priority f) (BasicAuth f)
    (WhitelistSourceRange f) (fe_WhiteList f) (fe_Headers f) (Errors f) (fe_RateLimit f) (fe_Redirect f).

Definition load_frontend (s : server) (providerName : string) (config : Configuration) (frontendName : string) : LC unit :=
  match Frontends config !! frontendName with
  | None => mret tt
  | Some frontend =>
      st ← get_state;
      let frontendEntryPoints := filter (fun e => is_Some (lc_routers st !! e)) (EntryPoints frontend) in
      let frontend := set_frontend_entry_points frontendEntryPoints frontend in
      _ ← modify_state (fun st => set_configurations (set_frontend providerName frontendName frontend (lc_configurations st)) st);
      wire_entry_points s providerName config frontendName frontend frontendEntryPoints
  end.

Fixpoint for_each {A} (f : A -> LC unit) (l : list A) : LC unit :=
  match l with [] => mret tt | x :: l' => _ ← f x; for_each f l' end.

Definition load_provider (s : server) (pc : string * Configuration) : LC unit :=
  for_each (load_frontend s pc.1 pc.2) (Wiring.sortedFrontendNamesForConfig pc.2).

(** ** The whole *)

Definition buildEntryPoints (s : server) : gmap string (list (installed Certificate)) :=
  (fun _ => []) <$> gc_EntryPoints (globalConfiguration s).

(** The error pages get their backends when all the chains are there. *)
Definition post_load (st : lc_state Certificate) : list (ErrorHandler (page_target Certificate)) :=
  map (fun h => PostLoad (match forward_New with Some err => Err err | None => Ok PageForward end)
    (PageChain <$> backends st !! eh_BackendName h) h) (errorPageHandlers st).

(** The entry points the sorting gives to the certificates stay with the
    configurations. *)
Definition set_tls (providerName : string) (l : list TLSConfiguration) (c : Configurations) : Configurations :=
  alter (fun config => mkConfiguration (Backends config) (Frontends config) l) providerName c.

Fixpoint loadHTTPSConfiguration (configurations : list (string * Configuration)) (defaultEntryPoints : list string)
    (newEPCertificates : gmap string (gmap string Certificate)) (all : Configurations) :
    Configurations * outcome (result (gmap string (gmap string Certificate))) :=
  match configurations with
  | [] => (all, Ret (Ok newEPCertificates))
  | (providerName, configuration) :: configurations' =>
      let tls := TLSConfigs configuration in
      let all := set_tls providerName (sorted_configurations tls newEPCertificates defaultEntryPoints) all in
      match SortTLSPerEntryPoints tls newEPCertificates defaultEntryPoints with
      | Ret (Ok certs) => loadHTTPSConfiguration configurations' defaultEntryPoints certs all
      | r => (all, r)
      end
  end.

(** [sort.Sort] by falling priority. *)
Class RouteSort := sort_routes : list (installed Certificate) -> list (installed Certificate).

(** An entry point's new router and certificates. *)
Record serverEntryPoint := mkServerEntryPoint {
  httpRouter : list (installed Certificate);
  certs : option (gmap string Certificate);
}.

Record loaded := mkLoaded {
  ld_entry_points : gmap string serverEntryPoint;
  ld_error : option error;
  ld_pages : list (ErrorHandler (page_target Certificate));
  ld_health : gmap string (BackendHealthCheck * Balancer.RoundRobin);
  ld_configurations : Configurations;
}.

Definition initial_state (s : server) (configurations : Configurations) : lc_state Certificate :=
  mkLC configurations (buildEntryPoints s) ∅ ∅ ∅ [].

Definition loadConfig `{RouteSort} (s : server) (configurations : Configurations) : outcome loaded :=
  match for_each (load_provider s) (range configurations) (initial_state s configurations) with
  | (Panic e, _) => Panic e
  | (Crash e, _) => Crash e
  | (Ret _, st) =>
      match loadHTTPSConfiguration (range configurations) (gc_DefaultEntryPoints (globalConfiguration s)) ∅ (lc_configurations st) with
      | (_, Panic e) => Panic e
      | (_, Crash e) => Crash e
      | (all, Ret res) =>
          let certificates := match res with Ok c => c | Err _ => ∅ end in
          Ret (mkLoaded (map_imap (fun ep routes => Some (mkServerEntryPoint (sort_routes routes) (certificates !! ep))) (lc_routers st))
            (match res with Ok _ => None | Err err => Some err end) (post_load st) (backendsHealthCheck st) all)
      end
  end.

End LoadConfig.
