(* ===== verification/LoadConfigFacts.v ===== *)
(** * What the routers made by [loadConfig] promise

    An invariant of the assembly, kept by every step, and what follows from it
    for a request that reaches a balancer; when the assembly cannot fail; and
    the consequences of sharing chains between frontends. *)
From S2P Require Import Prelude GoStrings GoStringsFacts GoNet GoHttp Types OsioClient Rules Whitelist Middlewares EntryPoints.
From S2P Require Import Redirect Label ErrorPages Authenticator Certs GlobalConfig Cookie Handlers HealthCheck LoadConfig.
From S2P Require Wiring Balancer.
Open Scope go_scope.

Create HintDb returns.

Section Facts.
Context {Certificate : Type} `{files : !TLSFiles Certificate} `{leafs : !Leaf Certificate}.
Context `{order : MapOrder} {laws : MapOrderLaws order}.
Context `{urls : UrlLib} `{regexps : RegexpLib} `{mux : Mux} `{times : TimeLib} `{oxy : Oxy}.
Context (DefaultCertificate : result Certificate) (s : server) (configurations : Configurations).

Abbreviation state := (lc_state Certificate) (only parsing).

(** ** Where a chain comes from *)

Definition is_redirect (m : middleware Certificate) : Prop := exists h, unwrap m = MRedirect h.
Definition is_error_page (m : middleware Certificate) : Prop := exists p, m = MErrorPages p.
Definition is_last (m : middleware Certificate) : Prop :=
  (exists lb, m = MHandler lb) \/ exists e lb, unwrap m = MCircuitBreaker e lb.

(** The balancer behind the limits of a handler, and at the end of a chain. *)
Fixpoint balancer_of (h : handler Certificate) : option Balancer.RoundRobin :=
  match h with
  | HForward _ => None
  | HBalance _ rr _ => Some rr
  | HSaveBackend _ h | HSaveFrontend _ h | HTraced _ h | HEmptyBackend h | HRateLimit _ _ h | HConnLimit _ _ h | HRetry _ h
  | HBuffer _ h => balancer_of h
  end.
Definition balancer_in (m : middleware Certificate) : option Balancer.RoundRobin :=
  match unwrap m with MHandler lb | MCircuitBreaker _ lb => balancer_of lb | _ => None end.

(** A frontend of the configurations. *)
Definition a_frontend (providerName frontendName : string) (frontend : Frontend) : Prop :=
  exists config, configurations !! providerName = Some config /\ Frontends config !! frontendName = Some frontend.

(** The chain of a key was built for some frontend on an entry point. *)
Record built (key : string) (c : chain Certificate) (providerName frontendName entryPointName : string) (frontend : Frontend)
    (n pages : chain Certificate) (last : middleware Certificate) : Prop := {
  built_for : a_frontend providerName frontendName frontend;
  built_on : entryPointName ∈ EntryPoints frontend;
  built_key : key = backend_key entryPointName providerName (fe_Backend frontend);
  built_chain : c = n ++ pages ++ frontend_part s frontendName entryPointName frontend ++ [last];
  built_redirect : Forall is_redirect n;
  built_pages : Forall is_error_page pages;
  built_last : is_last last;
  built_balancer : exists config backend m rr,
    configurations !! providerName = Some config /\ Backends config !! fe_Backend frontend = Some backend /\
    build_balancer backend (fe_Backend frontend) = Ok (m, rr) /\ balancer_in last = Some rr;
}.

Definition built_by (key : string) (c : chain Certificate) : Prop :=
  exists p f e frontend n pages last, built key c p f e frontend n pages last.

(** A route made of the rules of a frontend, but for its priority. *)
Definition made_of (frontend : Frontend) (sr : ServerRoute) : Prop :=
  exists route prio, add_routes (range (Routes frontend)) new_server_route = (Ret (Ok tt), route) /\
    sr = set_route (Wiring.set_priority prio (sr_Route route)) route.

(** A route that has a handler calls the chain of its frontend's backend. *)
Definition route_ok (st : state) (ep : string) (i : installed Certificate) : Prop :=
  match in_handler i with
  | None => True
  | Some c => exists providerName frontend, a_frontend providerName (in_name i) frontend /\ ep ∈ EntryPoints frontend /\
      made_of frontend (in_route i) /\ backends st !! backend_key ep providerName (fe_Backend frontend) = Some c
  end.

(** Loading changes the entry points of the frontends and of the certificates
    of a configuration, nothing else of it. *)
Definition same_parts (config config' : Configuration) : Prop :=
  Backends config' = Backends config /\
  forall name, match Frontends config !! name, Frontends config' !! name with
    | Some f, Some f' => f' = set_frontend_entry_points (EntryPoints f') f /\ forall e, e ∈ EntryPoints f' -> e ∈ EntryPoints f
    | None, None => True
    | _, _ => False
    end.
Definition keeps_configurations (all : Configurations) : Prop :=
  forall p, match configurations !! p, all !! p with Some c, Some c' => same_parts c c' | None, None => True | _, _ => False end.

Record inv (st : state) : Prop := {
  inv_backends : map_Forall built_by (backends st);
  inv_redirects : map_Forall (fun _ => is_redirect) (redirectHandlers st);
  inv_routes : map_Forall (fun ep l => Forall (route_ok st ep) l) (lc_routers st);
  inv_entries : dom (lc_routers st) = dom (gc_EntryPoints (globalConfiguration s));
  inv_configurations : keeps_configurations (lc_configurations st);
}.

(** ** Steps that keep it *)

(** From states of [P], the step keeps the invariant and the chains there are,
    and what it returns satisfies [Q]. *)
Definition triple {A} (P : state -> Prop) (m : M state A) (Q : A -> state -> Prop) : Prop :=
  forall st, inv st -> P st ->
    inv (m st).2 /\ backends st ⊆ backends (m st).2 /\ forall a, (m st).1 = Ret a -> Q a (m st).2.

Lemma triple_ret {A} P (a : A) (Q : A -> state -> Prop) : (forall st, P st -> Q a st) -> triple P (mret a) Q.
Proof. intros H st Hi Hp. split; [done|]. split; [done|]. simpl. intros ? [= <-]. by apply H. Qed.

Lemma triple_bind {A B} P (m : M state A) (Q : A -> state -> Prop) (f : A -> M state B) R :
  triple P m Q -> (forall a, triple (Q a) (f a) R) -> triple P (m ≫= f) R.
Proof.
  intros Hm Hf st Hi Hp. destruct (Hm st Hi Hp) as (H1 & H2 & H3). unfold mbind, M_bind.
  destruct (m st) as [[a|e|e] st1]; simpl in *; try done.
  destruct (Hf a st1 H1 (H3 a eq_refl)) as (H4 & H5 & H6). split; [done|]. split; [by etrans|done].
Qed.

Lemma triple_bind_ok {A B} P (m : M state (result A)) (Q : A -> state -> Prop) (f : A -> M state (result B)) R :
  triple P m (fun r st => match r with Ok a => Q a st | Err _ => True end) ->
  (forall a, triple (Q a) (f a) (fun r st => match r with Ok b => R b st | Err _ => True end)) ->
  triple P (bind_ok m f) (fun r st => match r with Ok b => R b st | Err _ => True end).
Proof.
  intros Hm Hf. eapply triple_bind; [exact Hm|]. intros [a|e]; [apply Hf|]. by apply triple_ret.
Qed.

Lemma triple_lift {A} P (r : result A) :
  triple P (mret r) (fun x st => match x with Ok a => r = Ok a /\ P st | Err _ => True end).
Proof. apply triple_ret. intros st Hp. by destruct r. Qed.

Lemma triple_panic {A} P msg (Q : A -> state -> Prop) : triple P (panic msg) Q.
Proof. intros st Hi Hp. by split. Qed.

Lemma triple_weaken {A} (P P' : state -> Prop) (m : M state A) (Q Q' : A -> state -> Prop) :
  triple P m Q -> (forall st, P' st -> P st) -> (forall a st, Q a st -> Q' a st) -> triple P' m Q'.
Proof. intros H Hp Hq st Hi Hs. destruct (H st Hi (Hp st Hs)) as (? & ? & ?). split; [done|]. split; [done|]. eauto. Qed.

Lemma triple_get P : triple P get_state (fun st' st => st' = st /\ P st).
Proof. intros st Hi Hp. split; [done|]. split; [done|]. simpl. by intros ? [= <-]. Qed.

Lemma triple_modify P f Q :
  (forall st, inv st -> P st -> inv (f st) /\ backends st ⊆ backends (f st) /\ Q (f st)) -> triple P (modify_state f) (fun _ => Q).
Proof. intros H st Hi Hp. destruct (H st Hi Hp) as (? & ? & ?). split; [done|]. split; [done|]. simpl. by intros ? [= <-]. Qed.

Lemma route_ok_grow st st' ep i : backends st ⊆ backends st' -> route_ok st ep i -> route_ok st' ep i.
Proof.
  intros Hb. unfold route_ok. destruct (in_handler i) as [c|]; [|done]. intros (p & f & H1 & H2 & H3 & H4).
  exists p, f. split_and!; try done. by eapply lookup_weaken.
Qed.

(** The invariant looks at the routers, the redirections and the chains only. *)
Lemma inv_same st st' :
  lc_routers st' = lc_routers st -> redirectHandlers st' = redirectHandlers st -> backends st' = backends st ->
  lc_configurations st' = lc_configurations st -> inv st -> inv st'.
Proof.
  intros Er Ed Eb Ec [H1 H2 H3 H4 H5]. split; rewrite ?Er, ?Ed, ?Eb, ?Ec; try done.
  intros ep l Hl. specialize (H3 ep l Hl). eapply Forall_impl; [exact H3|]. intros i. apply route_ok_grow. by rewrite Eb.
Qed.

Lemma triple_modify_same P f :
  (forall st, lc_routers (f st) = lc_routers st /\ redirectHandlers (f st) = redirectHandlers st /\ backends (f st) = backends st /\
     lc_configurations (f st) = lc_configurations st) ->
  (forall st, P st -> P (f st)) -> triple P (modify_state f) (fun _ => P).
Proof.
  intros Hf Hp. apply triple_modify. intros st Hi H. destruct (Hf st) as (E1 & E2 & E3 & E4).
  split; [by eapply inv_same|]. split; [by rewrite E3|]. by apply Hp.
Qed.

(** ** The steps of [loadConfig] *)

Lemma entry_point_redirect_ok frontendName ep entryPoint P :
  (forall st m, P st -> P (set_redirect ep m st)) ->
  triple P (entry_point_redirect s frontendName ep entryPoint)
    (fun r st => match r with Ok n => Forall is_redirect n /\ P st | Err _ => True end).
Proof.
  intros HP. unfold entry_point_redirect. destruct (ep_Redirect entryPoint) as [redirect|]; [|by apply triple_ret].
  case_bool_decide; [by apply triple_ret|]. eapply triple_bind; [apply triple_get|]. intros st0.
  destruct (redirectHandlers st0 !! ep) as [m|] eqn:E.
  - intros st Hi [<- Hp]. split; [done|]. split; [done|]. simpl. intros ? [= <-]. split; [|done].
    constructor; [|done]. exact (inv_redirects _ Hi _ _ E).
  - eapply triple_bind_ok; [apply triple_lift|]. intros h. simpl.
    set (m := wrapNegroniHandlerWithAccessLog _ _ _).
    assert (is_redirect m) as Hm by (subst m; unfold wrapNegroniHandlerWithAccessLog; destruct (accessLogger s); by exists h).
    eapply triple_bind with (Q := fun _ => P).
    + apply (triple_modify _ _ P). intros st [H1 H2 H3 H4 H5] [_ [_ Hp]]. split; [|split; [done|by apply HP]].
      split; try done. by apply map_Forall_insert_2.
    + intros _. apply triple_ret. intros st Hp. split; [|done]. by constructor.
Qed.

Lemma add_error_pages_ok config ep p f pages l :
  Forall is_error_page (add_error_pages (Certificate := Certificate) config ep p f pages l).1.
Proof.
  revert l. induction pages as [|[name page] pages IH]; intros l; simpl; [done|].
  case_bool_decide; [done|]. destruct (Backends config !! ep_Backend page); [|done].
  destruct (NewHandler page _) as [h|]; [|done].
  match goal with |- context [add_error_pages _ _ _ _ pages ?x] => specialize (IH x); destruct (add_error_pages config ep p f pages x) end.
  simpl in *. constructor; [by eexists|done].
Qed.

Lemma chain_end_ok backend lb m : chain_end s backend lb = Ok m -> is_last m.
Proof.
  unfold chain_end. destruct (be_CircuitBreaker backend) as [cb|]; [|intros [= <-]; left; by eexists].
  destruct (breaker_New (Expression cb)); [done|]. intros [= <-]. right. unfold NewNegroniHandlerWrapper.
  destruct (tracingEnabled s); by eexists _, _.
Qed.

(** The limits and the breaker keep the balancer. *)
Lemma limit_rate_keeps name f lb lb' : limit_rate (Certificate := Certificate) s name f lb = Ok lb' -> balancer_of lb' = balancer_of lb.
Proof.
  unfold limit_rate, buildRateLimiter, wrapHTTPHandlerWithAccessLog, NewHTTPHandlerWrapper.
  destruct (fe_RateLimit f) as [rl|]; [|by intros [= <-]]. case_bool_decide; [by intros [= <-]|].
  destruct (NewExtractor _); simpl; [|done]. destruct (add_rates _ _); simpl; [|done].
  destruct (bool_decide _); simpl; [done|]. intros [= <-]. by destruct (accessLogger s), (tracingEnabled s).
Qed.
Lemma limit_connections_keeps name b lb lb' :
  limit_connections (Certificate := Certificate) s name b lb = Ok lb' -> balancer_of lb' = balancer_of lb.
Proof.
  unfold limit_connections, wrapHTTPHandlerWithAccessLog. destruct (be_MaxConn b) as [mc|]; [|by intros [= <-]].
  destruct (_ =? _)%Z; [by intros [= <-]|]. destruct (NewExtractor _); simpl; [|done]. intros [= <-]. by destruct (accessLogger s).
Qed.
Lemma add_retry_keeps b lb : balancer_of (add_retry (Certificate := Certificate) s b lb) = balancer_of lb.
Proof.
  unfold add_retry, buildRetryMiddleware, NewHTTPHandlerWrapper. destruct (Retry _); [|done]. by destruct (tracingEnabled s).
Qed.
Lemma add_buffering_keeps b lb : balancer_of (add_buffering (Certificate := Certificate) b lb) = balancer_of lb.
Proof.
  unfold add_buffering, buildBufferingMiddleware. destruct (be_Buffering b) as [c|]; [|done]. by destruct (buffer_New c).
Qed.
Lemma chain_end_keeps b lb m : chain_end (Certificate := Certificate) s b lb = Ok m -> balancer_in m = balancer_of lb.
Proof.
  unfold chain_end, NewNegroniHandlerWrapper. destruct (be_CircuitBreaker b) as [cb|]; [|by intros [= <-]].
  destruct (breaker_New _); [done|]. intros [= <-]. by destruct (tracingEnabled s).
Qed.

Lemma build_backend_ok providerName config frontendName ep frontend entryPoint n :
  configurations !! providerName = Some config ->
  (exists f0, Frontends config !! frontendName = Some f0 /\ ep ∈ EntryPoints f0 /\ exists l, frontend = set_frontend_entry_points l f0) ->
  triple (fun st => Forall is_redirect n /\ backends st !! backend_key ep providerName (fe_Backend frontend) = None)
    (build_backend DefaultCertificate s providerName config frontendName ep frontend entryPoint n)
    (fun r st => match r with Ok c => backends st !! backend_key ep providerName (fe_Backend frontend) = Some c | Err _ => True end).
Proof.
  intros Hc (f0 & Hf0 & Hep & l & ->). unfold build_backend.
  eapply triple_bind_ok; [apply triple_lift|]. intros rt. simpl.
  destruct (ep_ForwardedHeaders entryPoint) as [fh|]; [|apply triple_panic].
  eapply triple_bind_ok; [apply triple_lift|]. intros fwd. simpl.
  destruct (Backends config !! fe_Backend f0) as [backend|] eqn:Hbackend; [|by apply triple_ret].
  eapply triple_bind_ok; [apply triple_lift|]. intros [m rr]. simpl.
  set (P := fun st : state => build_balancer backend (fe_Backend f0) = Ok (m, rr) /\ Forall is_redirect n /\ backends st !! backend_key ep providerName (fe_Backend f0) = None).
  eapply triple_bind with (Q := fun _ => P).
  { destruct (Wiring.parseHealthCheckOptions _ _); [|apply triple_ret; subst P; naive_solver].
    eapply triple_weaken; [apply (triple_modify_same P); [done|done]|subst P; naive_solver|done]. }
  intros _. eapply triple_bind; [apply triple_get|]. intros st0.
  destruct (add_error_pages _ _ _ _ _ _) as [pages pl] eqn:Epages.
  assert (Forall is_error_page pages) as Hpages.
  { match type of Epages with add_error_pages ?a ?b ?c ?d ?e ?g = _ => pose proof (add_error_pages_ok a b c d e g) as H end.
    by rewrite Epages in H. }
  eapply triple_bind with (Q := fun _ => P).
  { eapply triple_weaken; [apply (triple_modify_same P); [done|done]|naive_solver|done]. }
  intros _. eapply triple_bind_ok; [apply triple_lift|]. intros lb1. simpl.
  eapply triple_bind_ok; [apply triple_lift|]. intros lb2. simpl.
  eapply triple_bind_ok; [apply triple_lift|]. intros last. simpl.
  set (c := n ++ _).
  eapply triple_bind with (Q := fun _ st => backends st !! backend_key ep providerName (fe_Backend f0) = Some c).
  - apply triple_modify. intros st [H1 H2 H3 H4 H5] (Hlast & Hconn & Hrate & Hbal & Hn & Hnone). split; [|split].
    + split; try done.
      * apply map_Forall_insert_2; [|done]. exists providerName, frontendName, ep, f0, n, pages, last. split; try done.
        -- by exists config.
        -- by eapply chain_end_ok.
        -- exists config, backend, m, rr. split_and!; try done. apply limit_rate_keeps in Hrate. apply limit_connections_keeps in Hconn.
           rewrite (chain_end_keeps _ _ _ Hlast), add_buffering_keeps, add_retry_keeps, Hconn, Hrate. done.
      * intros e ls Hl. specialize (H3 e ls Hl). eapply Forall_impl; [exact H3|]. intros i. apply route_ok_grow. by apply insert_subseteq.
    + by apply insert_subseteq.
    + apply lookup_insert_eq.
  - intros _. by apply triple_ret.
Qed.

Lemma backend_chain_ok providerName config frontendName ep frontend :
  configurations !! providerName = Some config ->
  (exists f0, Frontends config !! frontendName = Some f0 /\ ep ∈ EntryPoints f0 /\ exists l, frontend = set_frontend_entry_points l f0) ->
  triple (fun _ => True) (backend_chain DefaultCertificate s providerName config frontendName ep frontend)
    (fun r st => match r with Ok c => backends st !! backend_key ep providerName (fe_Backend frontend) = Some c | Err _ => True end).
Proof.
  intros Hc Hf. unfold backend_chain. destruct (gc_EntryPoints _ !! ep) as [entryPoint|]; [|apply triple_panic].
  eapply triple_bind_ok; [by apply (entry_point_redirect_ok _ _ _ (fun _ => True))|]. intros n. simpl.
  eapply triple_bind; [apply triple_get|]. intros st0.
  destruct (backends st0 !! backend_key ep providerName (fe_Backend frontend)) as [c|] eqn:E.
  - apply triple_ret. by intros st [<- _].
  - eapply triple_weaken; [by apply build_backend_ok|by intros st [<- [Hn _]]|done].
Qed.

Lemma install_ok ep i st : inv st -> route_ok st ep i -> inv (install ep i st).
Proof.
  intros [H1 H2 H3 H4 H5] Hi. split; try done.
  - intros e l Hl. simpl in Hl. destruct (decide (e = ep)) as [->|Hne].
    + rewrite lookup_alter_eq in Hl. apply fmap_Some in Hl as (l' & Hl' & ->). specialize (H3 ep l' Hl').
      apply Forall_app. split; [exact H3|]. by constructor.
    + rewrite lookup_alter_ne in Hl by done. exact (H3 e l Hl).
  - simpl. by rewrite dom_alter_L.
Qed.

Lemma wire_entry_point_ok providerName config frontendName frontend ep :
  configurations !! providerName = Some config ->
  (exists f0, Frontends config !! frontendName = Some f0 /\ ep ∈ EntryPoints f0 /\ exists l, frontend = set_frontend_entry_points l f0) ->
  triple (fun _ => True) (wire_entry_point DefaultCertificate s providerName config frontendName frontend ep) (fun _ _ => True).
Proof.
  intros Hc Hf st Hi _. unfold wire_entry_point.
  destruct (add_routes (range (Routes frontend)) new_server_route) as [[[[]|err]|e|e] route] eqn:Eroutes; try done.
  - destruct (backend_chain_ok providerName config frontendName ep frontend Hc Hf st Hi I) as (H1 & H2 & H3).
    destruct (backend_chain DefaultCertificate s providerName config frontendName ep frontend st) as [[[c|err]|e|e] st1]; simpl in *; try done.
    + split; [|done]. apply install_ok; [done|]. unfold route_ok. simpl. destruct (route_err _); [done|].
      destruct Hf as (f0 & Hf0 & Hep & l & ->). exists providerName, f0. split; [by exists config|]. split; [done|].
      split; [|by apply (H3 (Ok c))]. cbn [Routes set_frontend_entry_points] in Eroutes.
      destruct (0 <? Priority _)%Z; [by eexists _, _|]. exists route, (route_priority (sr_Route route)). split; [done|].
      by destruct route as [[] ? ? ? ? ?].
    + split; [|done]. by apply install_ok.
  - split; [|done]. by apply install_ok.
Qed.

Lemma wire_entry_points_ok providerName config frontendName frontend eps :
  configurations !! providerName = Some config ->
  (exists f0, Frontends config !! frontendName = Some f0 /\ (forall e, e ∈ eps -> e ∈ EntryPoints f0) /\
     exists l, frontend = set_frontend_entry_points l f0) ->
  triple (fun _ => True) (wire_entry_points DefaultCertificate s providerName config frontendName frontend eps) (fun _ _ => True).
Proof.
  intros Hc (f0 & Hf0 & He & l & ->). induction eps as [|ep eps IH]; simpl; [by apply triple_ret|].
  eapply triple_bind with (Q := fun _ _ => True).
  - apply wire_entry_point_ok; [done|]. exists f0. split; [done|]. split; [apply He; by left|by exists l].
  - intros [|]; [|by apply triple_ret]. apply IH. intros; apply He; by right.
Qed.

(** A frontend of a configuration replaced by itself on fewer entry points. *)
Lemma keeps_set_frontend providerName frontendName config f0 l all :
  configurations !! providerName = Some config -> Frontends config !! frontendName = Some f0 ->
  (forall e, e ∈ l -> e ∈ EntryPoints f0) -> keeps_configurations all ->
  keeps_configurations (set_frontend providerName frontendName (set_frontend_entry_points l f0) all).
Proof.
  intros Hc Hf Hl H p. specialize (H p). destruct (decide (providerName = p)) as [->|Hn].
  - assert (set_frontend p frontendName (set_frontend_entry_points l f0) all !! p =
      (fun c => mkConfiguration (Backends c) (<[frontendName := set_frontend_entry_points l f0]> (Frontends c)) (TLSConfigs c)) <$> all !! p) as ->
      by apply lookup_alter_eq.
    rewrite Hc in *. destruct (all !! p) as [c'|]; [|done]. simpl. destruct H as [Hb H]. split; [done|].
    intros name. simpl. destruct (decide (name = frontendName)) as [->|Hne]; [|rewrite lookup_insert_ne by done; apply H].
    by rewrite lookup_insert_eq, Hf.
  - assert (set_frontend providerName frontendName (set_frontend_entry_points l f0) all !! p = all !! p) as -> by by apply lookup_alter_ne.
    done.
Qed.

Lemma load_frontend_ok providerName config frontendName :
  configurations !! providerName = Some config ->
  triple (fun _ => True) (load_frontend DefaultCertificate s providerName config frontendName) (fun _ _ => True).
Proof.
  intros Hc. unfold load_frontend. destruct (Frontends config !! frontendName) as [f0|] eqn:Hf0; [|by apply triple_ret].
  eapply triple_bind; [apply triple_get|]. intros st0. simpl.
  eapply triple_bind with (Q := fun _ _ => True).
  - apply triple_modify. intros st [H1 H2 H3 H4 H5] _. split; [|by split]. split; try done.
    eapply keeps_set_frontend; [exact Hc|exact Hf0| |exact H5]. by intros e [_ He]%list_elem_of_filter.
  - intros _. apply wire_entry_points_ok; [done|]. exists f0. split; [done|]. split; [|by eexists].
    intros e [_ He]%list_elem_of_filter. done.
Qed.

Lemma for_each_ok {A} (f : A -> M state unit) l :
  (forall x, x ∈ l -> triple (fun _ => True) (f x) (fun _ _ => True)) -> triple (fun _ => True) (for_each f l) (fun _ _ => True).
Proof.
  induction l as [|x l IH]; intros Hf; simpl; [by apply triple_ret|].
  eapply triple_bind with (Q := fun _ _ => True); [apply Hf; by left|].
  intros _. apply IH. intros; apply Hf; by right.
Qed.

Lemma inv_at_start : inv (initial_state s configurations).
Proof.
  split; simpl; try done.
  - intros e l Hl. apply lookup_fmap_Some in Hl as (ep & <- & _). constructor.
  - unfold buildEntryPoints. by rewrite dom_fmap_L.
  - intros p. destruct (configurations !! p) as [c|]; [|done]. split; [done|]. intros name.
    destruct (Frontends c !! name) as [[]|]; [|done]. by split.
Qed.

Lemma load_all_ok :
  inv (for_each (load_provider DefaultCertificate s) (range configurations) (initial_state s configurations)).2.
Proof using laws.
  refine (proj1 (for_each_ok _ _ _ _ inv_at_start I)). intros [p config] Hin. apply range_lookup in Hin.
  unfold load_provider. apply for_each_ok. intros name _. by apply load_frontend_ok.
Qed.

(** So does sorting the certificates. *)
Lemma keeps_set_tls providerName l all : keeps_configurations all -> keeps_configurations (set_tls providerName l all).
Proof.
  intros H p. specialize (H p). destruct (decide (providerName = p)) as [->|Hn].
  - assert (set_tls p l all !! p = (fun c => mkConfiguration (Backends c) (Frontends c) l) <$> all !! p) as -> by apply lookup_alter_eq.
    by destruct (configurations !! p), (all !! p).
  - by assert (set_tls providerName l all !! p = all !! p) as -> by by apply lookup_alter_ne.
Qed.

Lemma keeps_https l defaultEntryPoints certs all :
  keeps_configurations all -> keeps_configurations (loadHTTPSConfiguration (Certificate := Certificate) l defaultEntryPoints certs all).1.
Proof.
  revert certs all. induction l as [|[p config] l IH]; intros certs all H; simpl; [done|].
  pose proof (keeps_set_tls p (sorted_configurations (TLSConfigs config) certs defaultEntryPoints) all H) as H'.
  destruct (SortTLSPerEntryPoints _ _ _) as [[certs'|]| |]; simpl; [by apply IH|done..].
Qed.

Lemma loaded_configurations `{sort : !RouteSort (Certificate := Certificate)} ld :
  loadConfig DefaultCertificate s configurations = Ret ld ->
  keeps_configurations (ld_configurations ld) /\ dom (ld_entry_points ld) = dom (gc_EntryPoints (globalConfiguration s)).
Proof using laws.
  intros Hld. pose proof load_all_ok as Hinv. unfold loadConfig in Hld.
  destruct (for_each _ _ _) as [[[]|e0|e0] st]; try done. simpl in Hinv.
  match type of Hld with context [loadHTTPSConfiguration ?a ?b ?c ?d] => pose proof (keeps_https a b c d (inv_configurations _ Hinv)) as H end.
  destruct (loadHTTPSConfiguration _ _ _ _) as [all [res|e1|e1]]; try done. injection Hld as <-. split; [exact H|]. simpl.
  rewrite <-(inv_entries _ Hinv). apply dom_imap_L. intros ep. rewrite elem_of_dom. split; [intros [x Hx]; by exists x|].
  intros (x & Hx & _). by exists x.
Qed.

(** ** A request at the end of a chain *)

Context {W : Type} `{handlers : ServerHandlers Certificate W}.

Definition with_source (r r' : Request) : Prop := ReqHeader r' = ReqHeader r /\ RemoteAddr r' = RemoteAddr r.

Lemma IsAuthorized_source wl r r' : with_source r r' -> IsAuthorized wl r' = IsAuthorized wl r.
Proof. intros [Hh Ha]. unfold IsAuthorized, xff_entries. by rewrite Hh, Ha. Qed.

(** A redirection that passes a request may rewrite its URL. *)
Lemma pass_redirect_source m r w r' w' : is_redirect m -> pass m r w = (Ret (Goes r'), w') -> with_source r r'.
Proof.
  intros [h Hm]. rewrite pass_unwrap, Hm. simpl. unfold Redirect_ServeHTTP.
  repeat (case_match; simpl; try discriminate); by intros [= <- _].
Qed.

Definition keeps_source (m : middleware Certificate) : Prop := is_redirect m \/ is_error_page m \/ exists b, m = MMetrics b.

Lemma through_source n r w r' w' : Forall keeps_source n -> through n r w r' w' -> with_source r r'.
Proof.
  intros Hn Ht. induction Ht as [|m n r r1 r2 w w1 w2 Hp Ht IH]; [done|]. apply Forall_cons in Hn as [Hm Hn].
  assert (with_source r r1) as H1.
  { destruct Hm as [Hm|[[p ->]|[b ->]]]; [by eapply pass_redirect_source| |]; simpl in Hp; by injection Hp as <- _. }
  destruct H1 as [E1 E2], (IH Hn) as [E3 E4]. split; congruence.
Qed.

(** The middlewares that can end a chain. *)
Definition is_end (m : middleware Certificate) : bool :=
  match unwrap m with MHandler _ | MCircuitBreaker _ _ | MRouter => true | _ => false end.

Lemma pass_ends m r w p w' : pass m r w = (Ret p, w') -> ends p = true -> is_end m = true.
Proof.
  assert (forall h, ends (of_handled (Certificate := Certificate) h) = false) as Hh by (by intros []).
  assert (forall a, ends (of_authenticated (Certificate := Certificate) a) = false) as Ha by (by intros []).
  intros H Hp. unfold is_end. induction m; simpl in *; try done; try (injection H as <- _; by rewrite ?Hh in Hp); try (by apply IHm).
  - exfalso. destruct a as [users field|users field|config|]; simpl in H; try done; try (injection H as <- _; by rewrite Ha in Hp).
    apply bind_Ret_inv in H as (res & w1 & _ & H). destruct res; by injection H as <- _.
  - apply bind_Ret_inv in H as (h & w1 & _ & H). injection H as <- _. by rewrite Hh in Hp.
Qed.

Lemma first_end l last n1 m n2 :
  Forall (fun m => is_end m = false) l -> is_end m = true -> l ++ [last] = n1 ++ m :: n2 -> n1 = l /\ m = last /\ n2 = [].
Proof.
  intros Hl Hm. revert n1. induction Hl as [|x l Hx Hl IH]; intros [|y n1]; simpl; try done.
  - by intros [= <- <-].
  - by intros [= _ ?%(f_equal length)]; rewrite length_app in *; simpl in *; lia.
  - intros [= <- _]. congruence.
  - intros [= <- E]. by destruct (IH n1 E) as (-> & -> & ->).
Qed.

(** What reaches the end of a chain went through all that is before it. *)
Lemma run_to_last l last r w p w' :
  Forall (fun m => is_end m = false) l -> run_chain (l ++ [last]) r w = (Ret p, w') -> ends p = true ->
  exists r1 w1, through l r w r1 w1 /\ pass last r1 w1 = (Ret p, w').
Proof.
  intros Hl Hr Hp. destruct (run_chain_ends _ _ _ _ _ Hr Hp) as (n1 & m & n2 & r1 & w1 & E & Ht & Hm).
  destruct (first_end _ _ _ _ _ Hl (pass_ends _ _ _ _ _ Hm Hp) E) as (-> & -> & ->). eauto.
Qed.

(** The last middleware hands over the request it gets. *)
Lemma pass_last m (r : Request) (w : W) lb r' w' :
  is_last m -> pass m r w = (Ret (Balanced lb r'), w') -> r' = r /\ balancer_of lb = balancer_in m.
Proof.
  intros H. rewrite pass_unwrap. unfold balancer_in.
  destruct H as [[lb0 ->]|(e & lb0 & ->)]; simpl; [by intros [= -> -> _]|].
  intros (open & w1 & _ & [H _]%mret_Ret_inv)%bind_Ret_inv. destruct open; [done|]. by injection H as -> ->.
Qed.

Lemma frontend_part_inner name ep f : Forall (fun m => is_end m = false) (frontend_part (Certificate := Certificate) s name ep f).
Proof.
  unfold frontend_part, white_list_part, redirect_part, auth_part, NewNegroniHandlerWrapper, wrapNegroniHandlerWithAccessLog.
  rewrite !Forall_app. split_and!; repeat case_match; by repeat constructor.
Qed.

Lemma redirects_inner n : Forall is_redirect n -> Forall (fun m => is_end m = false) n.
Proof. intros H. eapply Forall_impl; [exact H|]. intros m [h Hm]. unfold is_end. by rewrite Hm. Qed.
Lemma error_pages_inner n : Forall is_error_page n -> Forall (fun m => is_end m = false) n.
Proof. intros H. eapply Forall_impl; [exact H|]. by intros m [p ->]. Qed.

(** The white list of a frontend, when it can be built, and its users. *)
Definition white_list (f : Frontend) : option WhiteIP :=
  match Wiring.buildIPWhiteLister (fe_WhiteList f) (WhitelistSourceRange f) with Ok wl => wl | Err _ => None end.
Definition basic_users (f : Frontend) : option (gmap string string) :=
  match BasicAuth f with
  | [] => None
  | _ => match parserBasicUsers (mkUsersAuth (BasicAuth f) "") with Ok users => Some users | Err _ => None end
  end.

Lemma white_list_part_eq name f :
  match white_list f with
  | Some wl => exists m, white_list_part (Certificate := Certificate) s name f = [m] /\ unwrap m = MWhiteList wl
  | None => white_list_part (Certificate := Certificate) s name f = []
  end.
Proof.
  unfold white_list, white_list_part, NewNegroniHandlerWrapper, wrapNegroniHandlerWithAccessLog.
  destruct (Wiring.buildIPWhiteLister _ _) as [[wl|]|]; try done. eexists. split; [done|]. by destruct (tracingEnabled s), (accessLogger s).
Qed.

Lemma auth_part_eq name f :
  match basic_users f with
  | Some users => exists m, auth_part (Certificate := Certificate) s name f = [m] /\ unwrap m = MAuth (AuthBasic users "")
  | None => auth_part (Certificate := Certificate) s name f = []
  end.
Proof.
  unfold basic_users, auth_part, wrapNegroniHandlerWithAccessLog. destruct (BasicAuth f) as [|u us] eqn:E; [done|].
  unfold NewAuthenticator, basic_auth. simpl. rewrite E. destruct (parserBasicUsers _) as [users|]; simpl; [|done].
  eexists. split; [done|]. by destruct (accessLogger s).
Qed.

Lemma built_guard key c p name ep f n pages last (r : Request) lb (r' : Request) (w w' : W) :
  built key c p name ep f n pages last -> run_chain c r w = (Ret (Balanced lb r'), w') ->
  match white_list f with Some wl => IsAuthorized wl r = None | None => True end /\
  match basic_users f with Some users => basic_CheckAuth (secretBasic users) r' <> "" | None => True end.
Proof.
  intros [_ _ _ -> Hn Hpages Hlast _] Hr. rewrite !app_assoc in Hr.
  assert (Forall (fun m => is_end m = false) ((n ++ pages) ++ frontend_part s name ep f)) as Hin.
  { rewrite !Forall_app. split_and!; [by apply redirects_inner|by apply error_pages_inner|by apply frontend_part_inner]. }
  destruct (run_to_last _ _ _ _ _ _ Hin Hr eq_refl) as (r1 & w1 & Ht & Hend).
  destruct (pass_last _ _ _ _ _ _ Hlast Hend) as [-> _].
  rewrite <-app_assoc in Ht. unfold frontend_part in Ht. rewrite (app_assoc pages), (app_assoc n) in Ht.
  apply through_app in Ht as (r2 & w2 & Hsrc & Ht).
  assert (with_source r r2) as H2.
  { eapply through_source; [|exact Hsrc]. unfold keeps_source. rewrite !Forall_app. split_and!.
    - eapply Forall_impl; [exact Hn|]. auto.
    - eapply Forall_impl; [exact Hpages|]. auto.
    - destruct (metricsEnabled s); [|done]. constructor; [|done]. eauto. }
  apply through_app in Ht as (r3 & w3 & Hwl & Ht). split.
  - pose proof (white_list_part_eq name f) as Hw. destruct (white_list f) as [wl|]; [|done]. destruct Hw as (m & E & Hm).
    rewrite E in Hwl. inversion Hwl as [|? ? ? ? ? ? ? ? Hp Hrest]; subst.
    apply (pass_white_list _ wl) in Hp as (_ & _ & Hp); [|done]. by rewrite (IsAuthorized_source wl r r2 H2) in Hp.
  - pose proof (auth_part_eq name f) as Ha. destruct (basic_users f) as [users|]; [|done]. destruct Ha as (m & E & Hm).
    rewrite E in Ht. apply through_app in Ht as (r4 & w4 & _ & Ht). apply through_app in Ht as (r5 & w5 & _ & Ht).
    apply through_app in Ht as (r6 & w6 & _ & Ht). inversion Ht as [|? ? ? ? ? ? ? ? Hp Hrest]; subst.
    apply (pass_basic _ users "") in Hp as (_ & Hp & Hsame); [|done]. inversion Hrest; subst. by rewrite Hsame.
Qed.

(** A route of a loaded router calls the chain built for its key. *)
Lemma loaded_route `{sort : !RouteSort (Certificate := Certificate)} (ld : loaded) ep e i c :
  (forall l, sort_routes l ≡ₚ l) ->
  loadConfig DefaultCertificate s configurations = Ret ld ->
  ld_entry_points ld !! ep = Some e -> i ∈ httpRouter e -> in_handler i = Some c ->
  exists p f p' name' ep' f' n pages last,
    a_frontend p (in_name i) f /\ ep ∈ EntryPoints f /\ made_of f (in_route i) /\
    built (backend_key ep p (fe_Backend f)) c p' name' ep' f' n pages last.
Proof using laws.
  intros Hsort Hld He Hi Hc. pose proof load_all_ok as Hinv. unfold loadConfig in Hld.
  destruct (for_each _ _ _) as [[[]|e0|e0] st]; try done. simpl in Hinv.
  destruct (loadHTTPSConfiguration _ _ _ _) as [all [res|e1|e1]]; try done. injection Hld as <-. simpl in He.
  rewrite map_lookup_imap in He. destruct (lc_routers st !! ep) as [routes|] eqn:Er; [|done]. injection He as <-. simpl in Hi.
  rewrite Hsort in Hi. pose proof (inv_routes _ Hinv _ _ Er) as Hroutes. rewrite Forall_forall in Hroutes.
  specialize (Hroutes i Hi). unfold route_ok in Hroutes. rewrite Hc in Hroutes. destruct Hroutes as (p & f & Hf & Hep & Hmade & Hb).
  destruct (inv_backends _ Hinv _ _ Hb) as (p' & name' & ep' & f' & n & pages & last & Hbuilt).
  by exists p, f, p', name', ep', f', n, pages, last.
Qed.

(** Who may reach a backend.  A request that a route of the new routers
    hands over to a balancer was let through by the white list, and the users,
    of a frontend of the same chain, that is of the first one that was wired to
    the backend: any other frontend with that chain is only as safe as that
    one, and a white list or users that could not be built let everybody
    through. *)
Theorem balanced_requests_are_guarded `{sort : !RouteSort (Certificate := Certificate)} (ld : loaded) ep e i c (r r' : Request) lb (w w' : W) :
  (forall l, sort_routes l ≡ₚ l) ->
  loadConfig DefaultCertificate s configurations = Ret ld ->
  ld_entry_points ld !! ep = Some e -> i ∈ httpRouter e -> in_handler i = Some c ->
  run_chain c r w = (Ret (Balanced lb r'), w') ->
  exists p f p' name' ep' f',
    a_frontend p (in_name i) f /\ ep ∈ EntryPoints f /\ a_frontend p' name' f' /\ ep' ∈ EntryPoints f' /\
    backend_key ep p (fe_Backend f) = backend_key ep' p' (fe_Backend f') /\
    match white_list f' with Some wl => IsAuthorized wl r = None | None => True end /\
    match basic_users f' with Some users => basic_CheckAuth (secretBasic users) r' <> "" | None => True end.
Proof using laws.
  intros Hsort Hld He Hi Hc Hr.
  destruct (loaded_route ld ep e i c Hsort Hld He Hi Hc) as (p & f & p' & name' & ep' & f' & n & pages & last & Hf & Hep & _ & Hbuilt).
  pose proof (built_guard _ _ _ _ _ _ _ _ _ _ _ _ _ _ Hbuilt Hr) as [Hw Ha]. destruct Hbuilt.
  by exists p, f, p', name', ep', f'.
Qed.

(** ** The assembly does not fail *)

Definition returns {A} (m : M state A) : Prop := forall st, exists a, (m st).1 = Ret a.

Lemma returns_ret {A} (a : A) : returns (mret a).
Proof. intros st. by exists a. Qed.
Lemma returns_get : returns get_state.
Proof. intros st. by exists st. Qed.
Lemma returns_modify f : returns (modify_state f).
Proof. intros st. by exists tt. Qed.
Lemma returns_bind {A B} (m : M state A) (f : A -> M state B) : returns m -> (forall a, returns (f a)) -> returns (m ≫= f).
Proof.
  intros Hm Hf st. unfold mbind, M_bind. destruct (Hm st) as [a Ha]. destruct (m st) as [o st']. simpl in Ha. subst. apply Hf.
Qed.
Lemma returns_bind_ok {A B} (m : M state (result A)) (f : A -> M state (result B)) :
  returns m -> (forall a, returns (f a)) -> returns (bind_ok m f).
Proof. intros Hm Hf. apply returns_bind; [done|]. intros [a|e]; [apply Hf|apply returns_ret]. Qed.

#[local] Hint Resolve returns_ret returns_get returns_modify returns_bind returns_bind_ok : returns.

Definition ready_entries : Prop :=
  map_Forall (fun _ ep => is_Some (ep_ForwardedHeaders ep)) (gc_EntryPoints (globalConfiguration s)).

Lemma backend_chain_returns p config name ep f :
  ready_entries -> ep ∈ dom (gc_EntryPoints (globalConfiguration s)) ->
  returns (backend_chain DefaultCertificate s p config name ep f).
Proof.
  intros Hr Hep. unfold backend_chain. apply elem_of_dom in Hep as [entryPoint He]. rewrite He.
  destruct (Hr _ _ He) as [fh Hfh]. apply returns_bind_ok.
  { unfold entry_point_redirect. repeat case_match; auto with returns.
    apply returns_bind; [auto with returns|]. intros st. case_match; auto 10 with returns. }
  intros n. apply returns_bind; [auto with returns|]. intros st. case_match; [auto with returns|].
  unfold build_backend. apply returns_bind_ok; [auto with returns|]. intros rt. rewrite Hfh.
  apply returns_bind_ok; [auto with returns|]. intros fwd. case_match; [|auto with returns].
  apply returns_bind_ok; [auto with returns|]. intros [m rr]. apply returns_bind; [case_match; auto with returns|]. intros _.
  apply returns_bind; [auto with returns|]. intros st1. destruct (add_error_pages _ _ _ _ _ _).
  apply returns_bind; [auto with returns|]. intros _.
  do 3 (apply returns_bind_ok; [auto with returns|]; intros ?).
  apply returns_bind; [auto with returns|]. intros _. auto with returns.
Qed.

(** A rule that does not panic on any route. *)
Definition rule_safe (rule : string) : Prop := forall route, exists res, (Wiring.getRoute rule route).1 = Ret res.

Lemma add_routes_returns routes route :
  Forall (fun kr => rule_safe (Rule kr.2)) routes -> exists res, (add_routes routes route).1 = Ret res.
Proof.
  intros H. revert route. induction H as [|[k rt] routes Hr H IH]; intros route; simpl; [by eexists|].
  simpl in Hr. unfold bind_ok, mbind, M_bind. destruct (Hr route) as [res Hres]. destruct (Wiring.getRoute (Rule rt) route) as [o route'].
  simpl in Hres. subst o. destruct res as [[]|]; [apply IH|by eexists].
Qed.

Definition safe_rules (f : Frontend) : Prop := map_Forall (fun _ rt => rule_safe (Rule rt)) (Routes f).

Lemma wire_entry_points_returns p config name f eps :
  ready_entries -> safe_rules f -> (forall e, e ∈ eps -> e ∈ dom (gc_EntryPoints (globalConfiguration s))) ->
  returns (wire_entry_points DefaultCertificate s p config name f eps).
Proof using laws.
  intros Hr Hs. induction eps as [|ep eps IH]; intros He; simpl; [auto with returns|]. apply returns_bind.
  - intros st. unfold wire_entry_point. destruct (add_routes_returns (range (Routes f)) new_server_route) as [res Hres].
    { apply Forall_forall. intros [k rt] Hk. apply range_lookup in Hk. exact (Hs _ _ Hk). }
    destruct (add_routes _ _) as [o route]. simpl in Hres. subst o. destruct res as [[]|]; [|by eexists].
    destruct (backend_chain_returns p config name ep f Hr ltac:(apply He; by left) st) as [rc Hrc].
    destruct (backend_chain _ _ _ _ _ _ _ st) as [o st']. simpl in Hrc. subst o. destruct rc; by eexists.
  - intros [|]; [|auto with returns]. apply IH. intros e Hin. apply He. by right.
Qed.

Lemma load_frontend_returns p config name st :
  ready_entries -> (forall f, Frontends config !! name = Some f -> safe_rules f) -> inv st ->
  exists a, (load_frontend DefaultCertificate s p config name st).1 = Ret a.
Proof using laws.
  intros Hr Hs Hi. unfold load_frontend. destruct (Frontends config !! name) as [f|] eqn:E; [|by eexists].
  unfold mbind, M_bind, get_state, modify_state. apply wire_entry_points_returns; [done|exact (Hs f eq_refl)|].
  intros e [He _]%list_elem_of_filter. rewrite <-(inv_entries _ Hi). by apply elem_of_dom.
Qed.

Lemma for_each_returns {A} (f : A -> M state unit) l st :
  (forall x, x ∈ l -> triple (fun _ => True) (f x) (fun _ _ => True) /\ forall st, inv st -> exists a, (f x st).1 = Ret a) -> inv st ->
  exists a, (for_each f l st).1 = Ret a.
Proof.
  revert st. induction l as [|x l IH]; intros st Hf Hi; simpl; [by eexists|]. unfold mbind, M_bind.
  destruct (Hf x ltac:(by left)) as [Ht Hx]. destruct (Hx st Hi) as [a Ha]. destruct (Ht st Hi I) as [Hi' _].
  destruct (f x st) as [o st']. simpl in *. subst o. apply IH; [|done]. intros; apply Hf; by right.
Qed.

Lemma loadHTTPSConfiguration_returns confs defaults certs all :
  (forall p config conf, (p, config) ∈ confs -> conf ∈ TLSConfigs config -> is_Some (tls_Certificate conf)) ->
  exists all' res, loadHTTPSConfiguration confs defaults certs all = (all', Ret res) /\
    match res with
    | Ok _ => True
    | Err err => exists p config conf c, (p, config) ∈ confs /\ conf ∈ TLSConfigs config /\ tls_Certificate conf = Some c /\ load c = Err err
    end.
Proof.
  revert certs all. induction confs as [|[p config] confs IH]; intros certs all Hc; simpl; [by eexists _, _|].
  pose proof (SortTLSPerEntryPoints_spec defaults (TLSConfigs config) certs) as H.
  destruct (SortTLSPerEntryPoints _ _ _) as [[certs'|err]|e|e]; [| | |done].
  - destruct (IH certs' (set_tls p (sorted_configurations (TLSConfigs config) certs defaults) all)) as (all' & res & E & Hres).
    { intros p' config' conf Hin. apply Hc with p'. by right. }
    exists all', res. split; [done|]. destruct res; [done|]. destruct Hres as (p' & config' & conf & c & Hin & ?).
    exists p', config', conf, c. split; [by right|done].
  - destruct H as (conf & c & Hin & Ec & El). eexists _, _. split; [done|]. exists p, config, conf, c. split_and!; try done. by left.
  - destruct H as (_ & conf & Hin & En). destruct (Hc p config conf ltac:(by left) Hin) as [c Ec]. by rewrite En in Ec.
Qed.

(** C8: with entry points made ready by the start-up, rules that do not panic
    and TLS sections with a certificate, loading always ends, with a router for
    every entry point, whatever else is wrong with a frontend; the only error
    is a certificate that does not load. *)
Theorem loadConfig_total `{sort : !RouteSort (Certificate := Certificate)} :
  ready_entries ->
  (forall p name f, a_frontend p name f -> safe_rules f) ->
  (forall p config conf, configurations !! p = Some config -> conf ∈ TLSConfigs config -> is_Some (tls_Certificate conf)) ->
  exists ld, loadConfig DefaultCertificate s configurations = Ret ld /\
    dom (ld_entry_points ld) = dom (gc_EntryPoints (globalConfiguration s)) /\
    (forall err, ld_error ld = Some err -> exists p config conf c,
       configurations !! p = Some config /\ conf ∈ TLSConfigs config /\ tls_Certificate conf = Some c /\ load c = Err err).
Proof using laws.
  intros Hr Hs Hc. unfold loadConfig. pose proof load_all_ok as Hinv.
  destruct (for_each_returns (load_provider DefaultCertificate s) (range configurations) (initial_state s configurations))
    as [a Ha]; [|exact inv_at_start|].
  { intros [p config] Hin. apply range_lookup in Hin. unfold load_provider. split.
    - apply for_each_ok. intros name _. by apply load_frontend_ok.
    - intros st Hi. apply for_each_returns; [|done]. intros name _. split; [by apply load_frontend_ok|].
      intros st' Hi'. apply load_frontend_returns; [done| |done]. intros f Hf. apply (Hs p name). by exists config. }
  destruct (for_each _ _ _) as [o st]. simpl in Ha. subst o. simpl in Hinv.
  destruct (loadHTTPSConfiguration_returns (range configurations) (gc_DefaultEntryPoints (globalConfiguration s)) ∅ (lc_configurations st))
    as (all & res & E & Hres).
  { intros p config conf Hin. apply range_lookup in Hin. by apply Hc with p. }
  rewrite E. eexists. split; [done|]. split.
  - simpl. rewrite <-(inv_entries _ Hinv). apply set_eq. intros e. rewrite !elem_of_dom, map_lookup_imap.
    destruct (lc_routers st !! e); simpl; [by split|done].
  - simpl. intros err. destruct res as [|e]; [done|]. intros [= <-]. destruct Hres as (p & config & conf & c & Hin & ?).
    exists p, config, conf, c. split; [by apply range_lookup|done].
Qed.

End Facts.

(** ** Witnesses and examples *)

Definition sample_files : TLSFiles unit :=
  {| file_exists _ := false; ReadFile n := Err n; LoadX509KeyPair n _ := Err n;
     X509KeyPair n _ := if bool_decide (n = "cert") then Ok tt else Err n |}.
Definition sample_leaf : Leaf unit := fun _ => ("example.com", []).
Definition sample_urls : UrlLib := {| url_Parse s := Ok (mkURL "http" "" s "" "" false ""); url_String u := URLHost u |}.
Definition no_regexps : RegexpLib := fun s => Err s.
Definition no_times : TimeLib := fun s => Err s.
Definition sample_oxy : Oxy :=
  {| forward_New := None; buffer_New _ := None; breaker_New _ := None; os_Hostname := Ok "proxy"; oxy_rewriter _ _ r := r; valid_pem _ := false |}.
Definition by_priority (a b : installed unit) : Prop := (route_priority (sr_Route (in_route b)) <= route_priority (sr_Route (in_route a)))%Z.
#[local] Instance by_priority_dec a b : Decision (by_priority a b) := Z_le_dec _ _.
Definition sample_sort : RouteSort (Certificate := unit) := merge_sort by_priority.

Definition sample_settings (hc : option Z) : ServerSettings := mkServerSettings 0 0 0 false [] None hc None None.
Definition sample_global : GlobalConfiguration :=
  mkGlobal {["http" := plain_entry_point ":80" (Some insecure_forwarding)]} ["http"] false None 0 None None None None None false None
    (gc_Providers empty_global) (sample_settings (Some 30%Z)).
Definition sample_server : server := mkServer sample_global false false false.

Definition wrr : Types.LoadBalancer := mkLoadBalancer "wrr" false None.
Definition web_backend : Backend := mkBackend {["s" := Types.mkServer "10.1.0.1" 1]} None (Some wrr) None (Some (Types.mkHealthCheck "/" 0 "")) None.
Definition on_http (rule backend : string) (wl : list string) : Frontend :=
  mkFrontend ["http"] backend {["r" := mkRoute rule]} false false 0 [] wl None None ∅ None None.
Definition sample_configs (l : list (string * Frontend)) : Configurations :=
  {["file" := mkConfiguration {["web" := web_backend]} (list_to_map l) []]}.

#[local] Existing Instances sample_files sample_leaf sample_urls no_regexps no_times sample_oxy sample_sort sample_mux forward_order.

Definition load_samples (configs : Configurations) : outcome (loaded (Certificate := unit)) :=
  loadConfig (Err "no default") sample_server configs.
Definition http_routes (configs : Configurations) : list (installed unit) :=
  match load_samples configs with
  | Ret ld => match ld_entry_points ld !! "http" with Some e => httpRouter e | None => [] end
  | _ => []
  end.

(** The white list in a chain, if any. *)
Definition lists_of (c : chain unit) : list WhiteIP :=
  omap (fun m => match unwrap m with MWhiteList wl => Some wl | _ => None end) c.

(** Two frontends of one backend: the second's white list is nowhere. *)
Example second_white_list_lost :
  map (fun i => (in_name i, lists_of <$> in_handler i))
    (http_routes (sample_configs [("a", on_http "Host:a.com" "web" []); ("b", on_http "Host:b.com" "web" ["10.0.0.0/8"])])) =
  [("a", Some []); ("b", Some [])].
Proof. by vm_compute. Qed.

(** A white list that cannot be read protects nothing. *)
Example bad_white_list_lets_through :
  map (fun i => lists_of <$> in_handler i) (http_routes (sample_configs [("a", on_http "Host:a.com" "web" ["10.0.0.0/33"])])) = [Some []].
Proof. by vm_compute. Qed.

(** The chain of an ambiguous key: entry point, provider and backend are glued
    together. *)
Example ambiguous_keys : backend_key "http" "consul" "_catalog-web" = backend_key "http" "consul_catalog" "-web".
Proof. done. Qed.

(** Two providers with a backend of the same name: one health check. *)
Example one_health_check :
  match load_samples (<["docker" := mkConfiguration {["web" := web_backend]} {["d" := on_http "Host:d.com" "web" []]} []]>
      (sample_configs [("a", on_http "Host:a.com" "web" [])])) with
  | Ret ld => (elements (dom (ld_health ld)), option_map (fun e => length (httpRouter e)) (ld_entry_points ld !! "http"))
  | _ => ([], None)
  end = (["httpweb"], Some 2).
Proof. by vm_compute. Qed.

(** A frontend skipped for its backend leaves its route, without a handler,
    before the others: requests it matches are not served by the frontend that
    would. *)
Definition first_route (configs : Configurations) (r : Request) : option (string * bool) :=
  match list_find (fun i => route_matches (sr_Route (in_route i)) r = true) (http_routes configs) with
  | Some (_, i) => Some (in_name i, bool_decide (is_Some (in_handler i)))
  | None => None
  end.

Example skipped_frontend_shadows :
  let r := mkRequest "GET" (mkURL "" "" "" "/a" "" false "") ∅ "a.com" "/a" "10.0.0.1:99" false in
  first_route (sample_configs [("good", on_http "Host:a.com" "web" [])]) r = Some ("good", true) /\
  first_route (sample_configs [("good", on_http "Host:a.com" "web" []); ("skipped", on_http "Host:a.com,b.com" "gone" [])]) r =
    Some ("skipped", false).
Proof. by vm_compute. Qed.

(** The entry points of the stored configuration are changed. *)
Definition with_entry_points (l : list string) (f : Frontend) : Frontend := set_frontend_entry_points l f.
Example stored_configuration_changed :
  match load_samples (sample_configs [("a", with_entry_points ["http"; "https"] (on_http "Host:a.com" "web" []))]) with
  | Ret ld => ld_configurations ld = sample_configs [("a", on_http "Host:a.com" "web" [])]
  | _ => False
  end.
Proof. by vm_compute. Qed.

(** ** Witnesses *)

Definition guarded_config : Configurations := sample_configs [("a", on_http "Host:a.com" "web" ["10.0.0.0/8"])].

Lemma guarded_lookup p config :
  guarded_config !! p = Some config ->
  p = "file" /\ config = mkConfiguration {["web" := web_backend]} {["a" := on_http "Host:a.com" "web" ["10.0.0.0/8"]]} [].
Proof. unfold guarded_config, sample_configs. by intros [<- <-]%lookup_singleton_Some. Qed.

Lemma guarded_frontends p name f :
  a_frontend guarded_config p name f -> p = "file" /\ name = "a" /\ f = on_http "Host:a.com" "web" ["10.0.0.0/8"].
Proof.
  intros (config & [-> ->]%guarded_lookup & Hf). simpl in Hf. by apply lookup_singleton_Some in Hf as [<- <-].
Qed.

Lemma host_rule_safe : rule_safe "Host:a.com".
Proof.
  intros [[ms qs err pr] sp spr ap rp rpr]. destruct err as [e|]; eexists; vm_compute; reflexivity.
Qed.

Lemma loadConfig_total_witness : exists ld, load_samples guarded_config = Ret ld /\ ld_error ld = None.
Proof.
  destruct (loadConfig_total (Err "no default") sample_server guarded_config) as (ld & E & _ & Herr).
  - apply map_Forall_singleton. by eexists.
  - intros p name f (-> & -> & ->)%guarded_frontends. apply map_Forall_singleton. exact host_rule_safe.
  - intros p config conf [-> ->]%guarded_lookup Hin. by apply elem_of_nil in Hin.
  - exists ld. split; [exact E|]. destruct (ld_error ld) as [err|]; [|reflexivity].
    destruct (Herr err eq_refl) as (p & config & conf & c & [-> ->]%guarded_lookup & Hin & _). destruct (proj1 (elem_of_nil conf) Hin).
Defined.

(** A world without state. *)
Definition sample_handlers : ServerHandlers unit unit := {|
  auth_lib := {| basic_CheckAuth _ _ := ""; digest_CheckAuth _ _ := "" |};
  templates := fun t _ => Ok t;
  Handlers.urls := sample_urls;
  tls_files := sample_files;
  osio_request r := CallNext r;
  osio_auth r := mret (CallNext r);
  Do _ _ _ := mret (Err "closed");
  secure_request _ r := CallNext r;
  tripped _ := mret false;
|}.

Definition client_request : Request := mkRequest "GET" (mkURL "" "" "" "/" "" false "") ∅ "a.com" "/" "10.9.9.9:1234" false.

Lemma balanced_requests_are_guarded_witness :
  exists wl, white_list (on_http "Host:a.com" "web" ["10.0.0.0/8"]) = Some wl /\ IsAuthorized wl client_request = None.
Proof.
  destruct (load_samples guarded_config) as [ld| |] eqn:E; [|by vm_compute in E|by vm_compute in E].
  assert (exists e i c lb, ld_entry_points ld !! "http" = Some e /\ httpRouter e = [i] /\ in_handler i = Some c /\
    run_chain (handlers := sample_handlers) c client_request tt = (Ret (Balanced lb client_request), tt)) as (e & i & c & lb & He & Hi & Hc & Hr).
  { vm_compute in E. injection E as <-. do 4 eexists. split; [vm_compute; reflexivity|]. split; [vm_compute; reflexivity|].
    split; [vm_compute; reflexivity|]. vm_compute. reflexivity. }
  destruct (balanced_requests_are_guarded (handlers := sample_handlers) (Err "no default") sample_server guarded_config ld "http" e i c
    client_request client_request lb tt tt) as (p & f & p' & name' & ep' & f' & _ & _ & (-> & -> & ->)%guarded_frontends & _ & _ & Hw & _).
  - intros l. apply merge_sort_Permutation.
  - exact E.
  - exact He.
  - rewrite Hi. by left.
  - exact Hc.
  - exact Hr.
  - destruct (white_list (on_http "Host:a.com" "web" ["10.0.0.0/8"])) as [wl|] eqn:Ew; [exists wl; split; [reflexivity|exact Hw]|].
    vm_compute in Ew. discriminate Ew.
Defined.
