(* ===== verification/Api.v ===== *)
(** * [api/], [ping/], [version/], [provider/rest/], [middlewares/stats.go]: the internal routes

    The routes an entry point serves itself: the configuration and its parts,
    the health, the statistics of recent errors, ping, the REST provider.  A
    path template is a list of literals and variables, matched as the router
    matches it with strict slashes; JSON answers are the values they encode. *)
From S2P Require Import Prelude GoStrings GoStringsFacts GoHttp Types ErrorPages.

(** ** Path templates *)

Inductive seg := Lit (s : string) | Var (name : string).

(** The segments of a path after the first slash; a variable takes a segment
    that is not empty, and one slash may follow. *)
Fixpoint match_segs (t : list seg) (l : list string) : option (list (string * string)) :=
  match t, l with
  | [], [] => Some []
  | [], [x] => if bool_decide (x = "") then Some [] else None
  | Lit s :: t', x :: l' => if bool_decide (s = x) then match_segs t' l' else None
  | Var name :: t', x :: l' =>
      if bool_decide (x = "") then None else
      match match_segs t' l' with Some vars => Some ((name, x) :: vars) | None => None end
  | _, _ => None
  end.

Definition match_template (t : list seg) (path : string) : option (list (string * string)) :=
  match split path "/" with "" :: l => match_segs t l | _ => None end.

(** ** Routes *)

Inductive endpoint :=
  | EConfig | EProvider | EBackends | EBackend | EServers | EServer
  | EFrontends | EFrontend | ERoutes | ERoute
  | EHealth | EVersion | EPing | ELeader | EMetrics | ERestPut | EDebug | EDashboard | EToDashboard | EChallenge.

Inductive where_path := Exact (t : list seg) | Under (prefix : string).

Record route := mkApiRoute { rt_methods : list string; rt_path : where_path; rt_endpoint : endpoint }.

Definition get (t : list seg) (e : endpoint) : route := mkApiRoute ["GET"] (Exact t) e.
Definition get_under (prefix : string) (e : endpoint) : route := mkApiRoute ["GET"] (Under prefix) e.

Definition debug_AddRoutes : list route :=
  [get [Lit "debug"; Lit "vars"] EDebug; get_under "/debug/pprof/cmdline" EDebug; get_under "/debug/pprof/profile" EDebug;
   get_under "/debug/pprof/symbol" EDebug; get_under "/debug/pprof/trace" EDebug; get_under "/debug/pprof/" EDebug].

Definition dashboard_AddRoutes : list route :=
  [get [] EToDashboard; get [Lit "dashboard"; Lit "status"] EToDashboard; get_under "/dashboard/" EDashboard].

Definition version_AddRoutes : list route := [get [Lit "api"; Lit "version"] EVersion].

Definition provider_segs (l : list seg) : list seg := [Lit "api"; Lit "providers"; Var "provider"] ++ l.

Definition api_AddRoutes (debug dashboard : bool) : list route :=
  (if debug then debug_AddRoutes else []) ++
  [get [Lit "api"] EConfig; get [Lit "api"; Lit "providers"] EConfig;
   get (provider_segs []) EProvider;
   get (provider_segs [Lit "backends"]) EBackends;
   get (provider_segs [Lit "backends"; Var "backend"]) EBackend;
   get (provider_segs [Lit "backends"; Var "backend"; Lit "servers"]) EServers;
   get (provider_segs [Lit "backends"; Var "backend"; Lit "servers"; Var "server"]) EServer;
   get (provider_segs [Lit "frontends"]) EFrontends;
   get (provider_segs [Lit "frontends"; Var "frontend"]) EFrontend;
   get (provider_segs [Lit "frontends"; Var "frontend"; Lit "routes"]) ERoutes;
   get (provider_segs [Lit "frontends"; Var "frontend"; Lit "routes"; Var "route"]) ERoute;
   get [Lit "health"] EHealth] ++
  version_AddRoutes ++ (if dashboard then dashboard_AddRoutes else []).

Definition ping_AddRoutes : list route := [mkApiRoute ["GET"; "HEAD"] (Exact [Lit "ping"]) EPing].
Definition rest_AddRoutes : list route := [mkApiRoute ["PUT"] (Exact (provider_segs [])) ERestPut].
Definition metrics_AddRoutes : list route := [get [Lit "metrics"] EMetrics].
Definition leadership_AddRoutes : list route := [get [Lit "api"; Lit "cluster"; Lit "leader"] ELeader].
Definition acme_AddRoutes : list route := [get [Lit ".well-known"; Lit "acme-challenge"; Var "token"] EChallenge].

(** The first route of the method and the path, with its variables; a request
    that only misses a slash, or has one too many, is redirected. *)
Definition path_matches (w : where_path) (path : string) : option (list (string * string)) :=
  match w with
  | Exact t => match_template t path
  | Under prefix => if has_prefix path prefix then Some [] else None
  end.

Fixpoint find_route (l : list route) (method path : string) : option (route * list (string * string)) :=
  match l with
  | [] => None
  | rt :: l' =>
      match path_matches (rt_path rt) path with
      | Some vars => if bool_decide (method ∈ rt_methods rt) then Some (rt, vars) else find_route l' method path
      | None => find_route l' method path
      end
  end.

Definition slash_redirect (w : where_path) (path : string) : bool :=
  match w with
  | Exact [] => negb (has_suffix path "/")
  | Exact _ => has_suffix path "/"
  | Under _ => false
  end.

(** ** Handlers of the configuration *)

Inductive answer :=
  | JConfigurations (c : Configurations)
  | JConfiguration (c : Configuration)
  | JBackends (b : gmap string Backend)
  | JBackend (b : Backend)
  | JServers (s : gmap string Server)
  | JServer (s : Server)
  | JFrontends (f : gmap string Frontend)
  | JFrontend (f : Frontend)
  | JRoutes (r : gmap string Route)
  | JRoute (r : Route)
  | ANotFound.

Definition var (vars : list (string * string)) (name : string) : string :=
  match list_find (fun kv => kv.1 = name) vars with Some (_, kv) => kv.2 | None => "" end.

Definition getProviderIDFromVars (vars : list (string * string)) : string :=
  let providerID := var vars "provider" in if bool_decide (providerID = "rest") then "web" else providerID.

Definition or_not_found (o : option answer) : answer := default ANotFound o.

Definition getProviderHandler (c : Configurations) vars : answer :=
  or_not_found (JConfiguration <$> c !! getProviderIDFromVars vars).
Definition getBackendsHandler (c : Configurations) vars : answer :=
  or_not_found (p ← c !! getProviderIDFromVars vars; Some (JBackends (Backends p))).
Definition getBackendHandler (c : Configurations) vars : answer :=
  or_not_found (p ← c !! getProviderIDFromVars vars; b ← Backends p !! var vars "backend"; Some (JBackend b)).
Definition getServersHandler (c : Configurations) vars : answer :=
  or_not_found (p ← c !! getProviderIDFromVars vars; b ← Backends p !! var vars "backend"; Some (JServers (Servers b))).
Definition getServerHandler (c : Configurations) vars : answer :=
  or_not_found (p ← c !! getProviderIDFromVars vars; b ← Backends p !! var vars "backend";
                s ← Servers b !! var vars "server"; Some (JServer s)).
Definition getFrontendsHandler (c : Configurations) vars : answer :=
  or_not_found (p ← c !! getProviderIDFromVars vars; Some (JFrontends (Frontends p))).
Definition getFrontendHandler (c : Configurations) vars : answer :=
  or_not_found (p ← c !! getProviderIDFromVars vars; f ← Frontends p !! var vars "frontend"; Some (JFrontend f)).
Definition getRoutesHandler (c : Configurations) vars : answer :=
  or_not_found (p ← c !! getProviderIDFromVars vars; f ← Frontends p !! var vars "frontend"; Some (JRoutes (Routes f))).
Definition getRouteHandler (c : Configurations) vars : answer :=
  or_not_found (p ← c !! getProviderIDFromVars vars; f ← Frontends p !! var vars "frontend";
                r ← Routes f !! var vars "route"; Some (JRoute r)).

Definition api_answer (c : Configurations) (e : endpoint) (vars : list (string * string)) : option answer :=
  match e with
  | EConfig => Some (JConfigurations c)
  | EProvider => Some (getProviderHandler c vars)
  | EBackends => Some (getBackendsHandler c vars)
  | EBackend => Some (getBackendHandler c vars)
  | EServers => Some (getServersHandler c vars)
  | EServer => Some (getServerHandler c vars)
  | EFrontends => Some (getFrontendsHandler c vars)
  | EFrontend => Some (getFrontendHandler c vars)
  | ERoutes => Some (getRoutesHandler c vars)
  | ERoute => Some (getRouteHandler c vars)
  | _ => None
  end.

(** What a GET answers: a part of the configurations, or a redirection to the
    path with or without its last slash; [None] is not a route of the
    configuration. *)
Definition api_get (debug dashboard : bool) (c : Configurations) (path : string) : option (answer + string) :=
  match find_route (api_AddRoutes debug dashboard) "GET" path with
  | Some (rt, vars) =>
      if slash_redirect (rt_path rt) path
      then Some (inr (if has_suffix path "/" then trim_suffix path "/" else path +:+ "/"))
      else inl <$> api_answer c (rt_endpoint rt) vars
  | None => None
  end.

(** ** The REST provider *)

(** The body is the configuration it decodes to, or the error; the answer is a
    status, and the message sent to the server, if any. *)
Definition rest_put (provider : string) (body : result Configuration) : Z * option ConfigMessage :=
  if negb (bool_decide (provider = "web")) && negb (bool_decide (provider = "rest")) then (400%Z, None)
  else match body with
       | Ok configuration => (200%Z, Some (mkConfigMessage "web" (Some configuration)))
       | Err _ => (400%Z, None)
       end.

(** ** ping.go *)

Record PingState := mkPingState { terminating : bool }.
Definition SetTerminating (g : PingState) : PingState := mkPingState true.
Definition ping_status (g : PingState) : Z := if terminating g then 503 else 200.

(** ** cluster/leadership.go *)

Definition getLeaderHandler (isLeader : bool) : Z * bool := ((if isLeader then 200 else 429)%Z, isLeader).

(** ** stats.go *)

Record statsError := mkStatsError { se_StatusCode : Z; se_Status : string; se_Method : string; se_Host : string; se_Path : string; se_Time : Z }.
Record StatsRecorder := mkStatsRecorder { numRecentErrors : Z; recentErrors : list statsError }.

Definition NewStatsRecorder (n : Z) : StatsRecorder := mkStatsRecorder n [].

(** [responseRecorder]: the last status written. *)
Definition responseRecorder_step (code : Z) (o : wop) : Z := match o with OWriteHeader s => s | _ => code end.
Definition recorded_status (ops : list wop) : Z := foldl responseRecorder_step 200%Z ops.

(** After the next handlers did [ops]; slicing to a negative length panics. *)
Definition StatsRecorder_ServeHTTP (s : StatsRecorder) (r : Request) (ops : list wop) (now : Z) : outcome StatsRecorder :=
  let code := recorded_status ops in
  if (code <? 400)%Z then Ret s else
  let l := mkStatsError code (http_StatusText code) (Method r) (Host r) (req_path r) now :: recentErrors s in
  if (Z.of_nat (length l) <=? numRecentErrors s)%Z then Ret (mkStatsRecorder (numRecentErrors s) l)
  else if (numRecentErrors s <? 0)%Z then Panic "slice bounds out of range"
  else Ret (mkStatsRecorder (numRecentErrors s) (take (Z.to_nat (numRecentErrors s)) l)).

Definition StatsRecorder_Data (s : StatsRecorder) : list statsError := recentErrors s.

(** ** Facts *)

(** A name that stands for itself in a path. *)
Definition path_name (n : string) : bool := nonempty n && free "/" n.

(** The path of some segments. *)
Fixpoint path_of (l : list string) : string := match l with [] => "" | x :: l' => "/" +:+ x +:+ path_of l' end.

Lemma split_path_of l : Forall (fun x => free "/" x = true) l -> split (path_of l) "/" = "" :: l.
Proof.
  intros H. assert (forall x, free "/" x = true -> split (x +:+ path_of l) "/" = x :: l) as Hx.
  { induction H as [|y l Hy H IH]; intros x Hx; simpl.
    - by rewrite app_nil_r_str, split_free.
    - change (x +:+ "/" +:+ y +:+ path_of l) with (x +:+ String "/" (y +:+ path_of l)). rewrite split_sep by done. by rewrite IH. }
  exact (Hx "" eq_refl).
Qed.

Lemma path_name_inv n : path_name n = true -> free "/" n = true /\ n <> "".
Proof. unfold path_name, nonempty. intros [H ?]%andb_true_iff. split; [done|]. intros ->. done. Qed.

Lemma suffix_slash p q x : p +:+ "/" = q +:+ x -> x <> "" -> free "/" x = false.
Proof.
  intros E%(f_equal String.rev) Hx. rewrite !rev_app_str in E.
  destruct (String.rev x) as [|c y] eqn:Er.
  - exfalso. apply Hx. rewrite <-(rev_involutive_str x), Er. done.
  - rewrite app_cons_str in E. injection E as <- _. unfold free. by rewrite <-str_forall_rev, Er.
Qed.

Lemma path_of_app l1 l2 : path_of (l1 ++ l2) = path_of l1 +:+ path_of l2.
Proof. induction l1 as [|x l1 IH]; simpl; [done|]. by rewrite IH, !app_assoc_str. Qed.

Lemma path_of_no_slash l x : path_name x = true -> has_suffix (path_of (l ++ [x])) "/" = false.
Proof.
  intros [Hf Hx]%path_name_inv. destruct (has_suffix _ _) eqn:E; [|done]. apply has_suffix_spec in E as [p Hp].
  rewrite path_of_app in Hp. simpl in Hp. rewrite app_nil_r_str in Hp. symmetry in Hp.
  change (path_of l +:+ String "/" x) with (path_of l +:+ ("/" +:+ x)) in Hp. rewrite <-app_assoc_str in Hp.
  apply suffix_slash in Hp; [|done]. by rewrite Hf in Hp.
Qed.

Lemma match_template_of t l : Forall (fun x => path_name x = true) l -> match_template t (path_of l) = match_segs t l.
Proof.
  intros H. unfold match_template. rewrite split_path_of; [done|]. eapply Forall_impl; [exact H|]. by intros x [? _]%path_name_inv.
Qed.

Lemma find_route_app l1 l2 m p :
  find_route (l1 ++ l2) m p = match find_route l1 m p with Some x => Some x | None => find_route l2 m p end.
Proof. induction l1 as [|rt l1 IH]; simpl; [done|]. destruct (path_matches _ _); [|done]. by case_bool_decide. Qed.

Lemma debug_not_api l : Forall (fun x => path_name x = true) l -> find_route debug_AddRoutes "GET" (path_of ("api" :: l)) = None.
Proof.
  intros H. assert (Forall (fun x => path_name x = true) ("api" :: l)) as H' by (by constructor).
  unfold debug_AddRoutes, get, get_under. cbn [find_route path_matches rt_path].
  rewrite match_template_of by done. cbn [match_segs]. rewrite bool_decide_eq_false_2 by done.
  by repeat (replace (has_prefix (path_of ("api" :: l)) _) with false by done).
Qed.

(** One step of the search among the routes of the API. *)
Ltac decide_literals :=
  repeat match goal with
  | |- context [bool_decide ?P] =>
      let v := eval vm_compute in (bool_decide P) in
      match v with true => change (bool_decide P) with true | false => change (bool_decide P) with false end
  | H : bool_decide ?P = _ |- context [bool_decide ?P] => rewrite H
  end; cbv iota.

Lemma find_step_no t e l m segs :
  Forall (fun x => path_name x = true) segs -> match_segs t segs = None ->
  find_route (get t e :: l) m (path_of segs) = find_route l m (path_of segs).
Proof. intros H E. cbn [find_route path_matches rt_path get]. by rewrite match_template_of, E. Qed.
Lemma find_step_yes t e l segs vars :
  Forall (fun x => path_name x = true) segs -> match_segs t segs = Some vars ->
  find_route (get t e :: l) "GET" (path_of segs) = Some (get t e, vars).
Proof. intros H E. cbn [find_route path_matches rt_path rt_methods get]. by rewrite match_template_of, E. Qed.

Ltac segs_compute := cbn [app match_segs provider_segs]; decide_literals; reflexivity.
Ltac api_search H :=
  unfold api_AddRoutes; cbn [app];
  repeat (rewrite (find_step_no _ _ _ _ _ H) by segs_compute); apply (find_step_yes _ _ _ _ _ H); segs_compute.

(** The search ignores the debug routes, and a path of names is not redirected. *)
Lemma api_get_at debug dashboard c l x rt sg t vars :
  Forall (fun x => path_name x = true) ("api" :: l ++ [x]) ->
  find_route (api_AddRoutes false dashboard) "GET" (path_of ("api" :: l ++ [x])) = Some (rt, vars) ->
  rt_path rt = Exact (sg :: t) ->
  api_get debug dashboard c (path_of ("api" :: l ++ [x])) = inl <$> api_answer c (rt_endpoint rt) vars.
Proof.
  intros Hl Hrt Ert. unfold api_get.
  replace (find_route (api_AddRoutes debug dashboard) "GET" (path_of ("api" :: l ++ [x]))) with (Some (rt, vars)).
  - assert (path_name x = true) as Hx.
    { apply Forall_cons in Hl as [_ Hl]. apply Forall_app in Hl as [_ Hl]. by apply Forall_cons in Hl as [? _]. }
    pose proof (path_of_no_slash ("api" :: l) x Hx) as Hn.
    change (has_suffix (path_of ("api" :: l ++ [x])) "/" = false) in Hn.
    rewrite Ert. unfold slash_redirect. by rewrite Hn.
  - destruct debug; [|done]. unfold api_AddRoutes at 1. apply Forall_cons in Hl as [_ Hl].
    rewrite find_route_app, debug_not_api by done. by rewrite <-Hrt.
Qed.

Lemma name_not_empty n : path_name n = true -> bool_decide (n = "") = false.
Proof. intros [_ H]%path_name_inv. by apply bool_decide_eq_false_2. Qed.

Ltac all_names := cbn [app]; repeat first [apply Forall_nil_2 | apply Forall_cons_2; [first [assumption | reflexivity]|]].
Ltac api_at debug dashboard c l x segs :=
  etrans; [eapply (api_get_at debug dashboard c l x);
    [all_names
    |let H := fresh in assert (Forall (fun x => path_name x = true) segs) as H by all_names;
     api_search H
    |reflexivity]|].

(** The API shows the configurations in force: a provider, and a backend,
    a server, a frontend or a route of it, each at its path, when it is there,
    and 404 when it is not; the provider of the REST API is the one named web. *)
Theorem api_shows_configurations (debug dashboard : bool) (c : Configurations) (p b s f r : string) :
  Forall (fun x => path_name x = true) [p; b; s; f; r] ->
  let at_ l := api_get debug dashboard c (path_of ("api" :: "providers" :: p :: l)) in
  let config := c !! (if bool_decide (p = "rest") then "web" else p) in
  at_ [] = Some (inl (or_not_found (JConfiguration <$> config))) /\
  at_ ["backends"; b] = Some (inl (or_not_found (x ← config; y ← Backends x !! b; Some (JBackend y)))) /\
  at_ ["backends"; b; "servers"; s] =
    Some (inl (or_not_found (x ← config; y ← Backends x !! b; z ← Servers y !! s; Some (JServer z)))) /\
  at_ ["frontends"; f] = Some (inl (or_not_found (x ← config; y ← Frontends x !! f; Some (JFrontend y)))) /\
  at_ ["frontends"; f; "routes"; r] =
    Some (inl (or_not_found (x ← config; y ← Frontends x !! f; z ← Routes y !! r; Some (JRoute z)))).
Proof.
  rewrite !Forall_cons. intros (Hp & Hb & Hs & Hf & Hr & _). cbv zeta.
  pose proof (name_not_empty _ Hp) as Ep. pose proof (name_not_empty _ Hb) as Eb. pose proof (name_not_empty _ Hs) as Es.
  pose proof (name_not_empty _ Hf) as Ef. pose proof (name_not_empty _ Hr) as Er.
  split_and!.
  - api_at debug dashboard c ["providers"] p ["api"; "providers"; p]. reflexivity.
  - api_at debug dashboard c ["providers"; p; "backends"] b ["api"; "providers"; p; "backends"; b]. reflexivity.
  - api_at debug dashboard c ["providers"; p; "backends"; b; "servers"] s ["api"; "providers"; p; "backends"; b; "servers"; s].
    reflexivity.
  - api_at debug dashboard c ["providers"; p; "frontends"] f ["api"; "providers"; p; "frontends"; f]. reflexivity.
  - api_at debug dashboard c ["providers"; p; "frontends"; f; "routes"] r ["api"; "providers"; p; "frontends"; f; "routes"; r].
    reflexivity.
Qed.

Definition shown_config : Configurations :=
  {["web" := mkConfiguration {["b" := backend_of {["s" := mkServer "http://10.0.0.1" 1]}]}
    {["f" := frontend_of "b" {["r" := mkRoute "Host:a.com"]}]} []]}.

Lemma api_shows_configurations_witness :
  api_get true true shown_config "/api/providers/rest/backends/b/servers/s" = Some (inl (JServer (mkServer "http://10.0.0.1" 1))).
Proof.
  refine (eq_trans (proj1 (proj2 (proj2 (api_shows_configurations true true shown_config "rest" "b" "s" "f" "r" _)))) _).
  - by repeat constructor.
  - by vm_compute.
Defined.

(** A path that misses nothing but has a slash too many is redirected. *)
Example api_slash : api_get false false shown_config "/api/providers/web/" = Some (inr "/api/providers/web").
Proof. by vm_compute. Qed.

(** What the REST provider publishes is always for the provider the API calls
    rest. *)
Lemma rest_put_provider provider body code m :
  rest_put provider body = (code, Some m) ->
  code = 200%Z /\ ProviderName m = getProviderIDFromVars [("provider", "rest")] /\ exists c, body = Ok c /\ msg_Configuration m = Some c.
Proof. unfold rest_put. repeat case_match; intros [= <- <-]; eauto. Qed.

(** ** The recent errors *)

(** The statistics of a sequence of answered requests. *)
Fixpoint stats_run (s : StatsRecorder) (l : list (Request * list wop * Z)) : outcome StatsRecorder :=
  match l with
  | [] => Ret s
  | (r, ops, now) :: l' => s' ← StatsRecorder_ServeHTTP s r ops now; stats_run s' l'
  end.

Definition error_of (x : Request * list wop * Z) : option statsError :=
  let '(r, ops, now) := x in
  let code := recorded_status ops in
  if (code <? 400)%Z then None else Some (mkStatsError code (http_StatusText code) (Method r) (Host r) (req_path r) now).

Lemma take_take_app {A} n (l1 l2 : list A) : take n (l1 ++ take n l2) = take n (l1 ++ l2).
Proof.
  rewrite !take_app. f_equal. rewrite take_take. f_equal. lia.
Qed.

(** Whatever requests were served, the statistics are the most recent of
    the answers with a status of 400 or above, the latest first, and never more
    than asked for. *)
Theorem stats_keep_recent (n : nat) (l : list (Request * list wop * Z)) :
  exists s, stats_run (NewStatsRecorder (Z.of_nat n)) l = Ret s /\
    recentErrors s = take n (reverse (omap error_of l)) /\ length (recentErrors s) <= n.
Proof.
  assert (forall s, numRecentErrors s = Z.of_nat n -> length (recentErrors s) <= n ->
    exists s', stats_run s l = Ret s' /\ recentErrors s' = take n (reverse (omap error_of l) ++ recentErrors s) /\ length (recentErrors s') <= n) as H.
  { induction l as [|[[r ops] now] l IH]; intros s Hn Hs.
    - exists s. split; [done|]. split; [|done]. simpl. by rewrite take_ge.
    - cbn [stats_run]. unfold StatsRecorder_ServeHTTP. simpl. set (code := recorded_status ops).
      destruct (code <? 400)%Z eqn:Ec; [by apply IH|].
      set (e := mkStatsError _ _ _ _ _ _). rewrite Hn.
      assert (exists s1, (if (Z.of_nat (length (e :: recentErrors s)) <=? Z.of_nat n)%Z then Ret (mkStatsRecorder (Z.of_nat n) (e :: recentErrors s))
        else if (Z.of_nat n <? 0)%Z then Panic "slice bounds out of range"
        else Ret (mkStatsRecorder (Z.of_nat n) (take (Z.to_nat (Z.of_nat n)) (e :: recentErrors s)))) = Ret s1 /\
        numRecentErrors s1 = Z.of_nat n /\ recentErrors s1 = take n (e :: recentErrors s)) as (s1 & E1 & Hn1 & Hr1).
      { destruct (Z.leb_spec (Z.of_nat (length (e :: recentErrors s))) (Z.of_nat n)).
        - eexists. split; [done|]. split; [done|]. simpl recentErrors. by rewrite take_ge by lia.
        - destruct (Z.ltb_spec (Z.of_nat n) 0); [lia|]. eexists. split; [done|]. split; [done|]. by rewrite Nat2Z.id. }
      simpl in E1. rewrite E1. destruct (IH s1 Hn1) as (s' & E & Hr & Hl).
      { rewrite Hr1. rewrite length_take. lia. }
      exists s'. split; [done|]. split; [|done]. rewrite Hr, Hr1, take_take_app. rewrite reverse_cons, <-app_assoc. done. }
  destruct (H (NewStatsRecorder (Z.of_nat n)) eq_refl ltac:(simpl; lia)) as (s & E & Hr & Hl). exists s.
  split; [done|]. split; [|done]. by rewrite Hr, app_nil_r.
Qed.
