(* ===== verification/Kv.v ===== *)
(** * [provider/kv/]: the configuration in a key-value store

    The provider reads a tree of keys: the directories under
    [<prefix>/backends/] and [<prefix>/frontends/] name the backends and the
    frontends, the keys below them their settings.  One configuration is built
    from one state of the store, a parameter with its [Get] and [List].  The
    template [templates/kv.tmpl] is given by the configuration it describes;
    that its text is decoded to what it describes is up to the template engine
    and the TOML decoder, a parameter too. *)
From S2P Require Import Prelude GoStrings GoStringsFacts GoStrconv GoHttp OsioClient Types Domains Label OsioProvider.

(** ** Keys ([keynames.go]) *)

Definition pathBackends : string := "/backends/".
Definition pathBackendCircuitBreakerExpression : string := "/circuitbreaker/expression".
Definition pathBackendHealthCheckPath : string := "/healthcheck/path".
Definition pathBackendHealthCheckPort : string := "/healthcheck/port".
Definition pathBackendHealthCheckInterval : string := "/healthcheck/interval".
Definition pathBackendLoadBalancerMethod : string := "/loadbalancer/method".
Definition pathBackendLoadBalancerSticky : string := "/loadbalancer/sticky".
Definition pathBackendLoadBalancerStickiness : string := "/loadbalancer/stickiness".
Definition pathBackendLoadBalancerStickinessCookieName : string := "/loadbalancer/stickiness/cookiename".
Definition pathBackendMaxConnAmount : string := "/maxconn/amount".
Definition pathBackendMaxConnExtractorFunc : string := "/maxconn/extractorfunc".
Definition pathBackendServers : string := "/servers/".
Definition pathBackendServerURL : string := "/url".
Definition pathBackendServerWeight : string := "/weight".
Definition pathBackendBuffering : string := "/buffering/".
Definition pathBackendBufferingMaxResponseBodyBytes : string := pathBackendBuffering +:+ "maxresponsebodybytes".
Definition pathBackendBufferingMemResponseBodyBytes : string := pathBackendBuffering +:+ "memresponsebodybytes".
Definition pathBackendBufferingMaxRequestBodyBytes : string := pathBackendBuffering +:+ "maxrequestbodybytes".
Definition pathBackendBufferingMemRequestBodyBytes : string := pathBackendBuffering +:+ "memrequestbodybytes".
Definition pathBackendBufferingRetryExpression : string := pathBackendBuffering +:+ "retryexpression".

Definition pathFrontends : string := "/frontends/".
Definition pathFrontendBackend : string := "/backend".
Definition pathFrontendPriority : string := "/priority".
Definition pathFrontendPassHostHeaderDeprecated : string := "/passHostHeader".
Definition pathFrontendPassHostHeader : string := "/passhostheader".
Definition pathFrontendPassTLSCert : string := "/passtlscert".
Definition pathFrontendWhiteListSourceRange : string := "/whitelist/sourcerange".
Definition pathFrontendWhiteListUseXForwardedFor : string := "/whitelist/usexforwardedfor".
Definition pathFrontendBasicAuth : string := "/basicauth".
Definition pathFrontendEntryPoints : string := "/entrypoints".
Definition pathFrontendRedirectEntryPoint : string := "/redirect/entrypoint".
Definition pathFrontendRedirectRegex : string := "/redirect/regex".
Definition pathFrontendRedirectReplacement : string := "/redirect/replacement".
Definition pathFrontendRedirectPermanent : string := "/redirect/permanent".
Definition pathFrontendErrorPages : string := "/errors/".
Definition pathFrontendErrorPagesBackend : string := "/backend".
Definition pathFrontendErrorPagesQuery : string := "/query".
Definition pathFrontendErrorPagesStatus : string := "/status".
Definition pathFrontendRateLimit : string := "/ratelimit/".
Definition pathFrontendRateLimitRateSet : string := pathFrontendRateLimit +:+ "rateset/".
Definition pathFrontendRateLimitExtractorFunc : string := pathFrontendRateLimit +:+ "extractorfunc".
Definition pathFrontendRateLimitPeriod : string := "/period".
Definition pathFrontendRateLimitAverage : string := "/average".
Definition pathFrontendRateLimitBurst : string := "/burst".

Definition pathFrontendCustomRequestHeaders : string := "/headers/customrequestheaders/".
Definition pathFrontendCustomResponseHeaders : string := "/headers/customresponseheaders/".
Definition pathFrontendAllowedHosts : string := "/headers/allowedhosts".
Definition pathFrontendHostsProxyHeaders : string := "/headers/hostsproxyheaders".
Definition pathFrontendSSLRedirect : string := "/headers/sslredirect".
Definition pathFrontendSSLTemporaryRedirect : string := "/headers/ssltemporaryredirect".
Definition pathFrontendSSLHost : string := "/headers/sslhost".
Definition pathFrontendSSLProxyHeaders : string := "/headers/sslproxyheaders/".
Definition pathFrontendSTSSeconds : string := "/headers/stsseconds".
Definition pathFrontendSTSIncludeSubdomains : string := "/headers/stsincludesubdomains".
Definition pathFrontendSTSPreload : string := "/headers/stspreload".
Definition pathFrontendForceSTSHeader : string := "/headers/forcestsheader".
Definition pathFrontendFrameDeny : string := "/headers/framedeny".
Definition pathFrontendCustomFrameOptionsValue : string := "/headers/customframeoptionsvalue".
Definition pathFrontendContentTypeNosniff : string := "/headers/contenttypenosniff".
Definition pathFrontendBrowserXSSFilter : string := "/headers/browserxssfilter".
Definition pathFrontendCustomBrowserXSSValue : string := "/headers/custombrowserxssvalue".
Definition pathFrontendContentSecurityPolicy : string := "/headers/contentsecuritypolicy".
Definition pathFrontendPublicKey : string := "/headers/publickey".
Definition pathFrontendReferrerPolicy : string := "/headers/referrerpolicy".
Definition pathFrontendIsDevelopment : string := "/headers/isdevelopment".

Definition pathFrontendRoutes : string := "/routes/".
Definition pathFrontendRule : string := "/rule".

Definition pathTLS : string := "/tls/".
Definition pathTLSEntryPoints : string := "/entrypoints".
Definition pathTLSCertFile : string := "/certificate/certfile".
Definition pathTLSKeyFile : string := "/certificate/keyfile".

Definition pathTags : string := "/tags".
Definition pathAlias : string := "/alias".
Definition pathSeparator : string := "/".

(** ** The store and the provider *)

(** One state of the store, as [github.com/abronan/valkeyrie] shows it: [Get]
    answers a pair (or nil) or an error, [List] the pairs under a directory. *)
Record KVStore := mkKVStore {
  kv_Get : string -> result (option string);
  kv_List : string -> result (list (string * string));
}.

(** [etcd], the store of the version 2 of its API, wants keys without a leading slash. *)
Definition ETCD : string := "etcd".

Record Provider := mkProvider {
  Watch : bool;
  Constraints : list Constraint;
  Prefix : string;
  storeType : string;
}.

Section Build.
Context (p : Provider) (store : KVStore).

(** ** Values *)

Definition get (defaultValue : string) (keyParts : list string) : string :=
  let key := join keyParts "" in
  let key := if bool_decide (storeType p = ETCD) then trim_prefix key pathSeparator else key in
  match kv_Get store key with
  | Err _ => defaultValue
  | Ok None => defaultValue
  | Ok (Some value) => value
  end.

(** [strconv.FormatBool] *)
Definition FormatBool (b : bool) : string := if b then "true" else "false".

Definition getBool (defaultValue : bool) (keyParts : list string) : bool :=
  let rawValue := get (FormatBool defaultValue) keyParts in
  if negb (nonempty rawValue) then defaultValue else
  match ParseBool rawValue with Err _ => defaultValue | Ok value => value end.

Definition has (keyParts : list string) : bool := nonempty (get "" keyParts).

Definition getInt (defaultValue : Z) (keyParts : list string) : Z :=
  let rawValue := get "" keyParts in
  if negb (nonempty rawValue) then defaultValue else
  match Atoi rawValue with Err _ => defaultValue | Ok value => value end.

Definition getInt64 (defaultValue : Z) (keyParts : list string) : Z :=
  let rawValue := get "" keyParts in
  if negb (nonempty rawValue) then defaultValue else
  match ParseInt rawValue with Err _ => defaultValue | Ok value => value end.

(** The directory a listed key is in: [strings.Split] returns at least one part. *)
Definition directory (rootKey key : string) : string :=
  match split (trim_prefix key rootKey) pathSeparator with d :: _ => d | [] => "" end.

Definition list_keys (keyParts : list string) : list string :=
  let rootKey := join keyParts "" in
  match kv_List store rootKey with
  | Err _ => []
  | Ok keysPairs =>
      merge_sort String.le (remove_dups (map (fun key => rootKey +:+ directory rootKey key.1) keysPairs))
  end.

Definition splitGet (keyParts : list string) : list string :=
  let value := get "" keyParts in
  if negb (nonempty value) then [] else SplitAndTrimString value ",".

Definition getSlice (keyParts : list string) : list string :=
  let baseKey := join keyParts "" in
  let baseKey := if negb (has_suffix baseKey "/") then baseKey +:+ "/" else baseKey in
  filter (fun val => nonempty val = true) (map (fun entryKey => get "" [entryKey]) (list_keys [baseKey])).

Definition getList (keyParts : list string) : list string :=
  let values := splitGet keyParts in
  if negb (bool_decide (length values = 0)) then values else getSlice keyParts.

Definition last (key : string) : string := List.last (split key pathSeparator) "".

Definition getMap (keyParts : list string) : gmap string string :=
  foldl (fun mapData name => <[canonical_key (last name) := get "" [name]]> mapData) ∅ (list_keys keyParts).

(** ** Frontends *)

Definition getPassHostHeader (rootPath : string) : bool :=
  let rawValue := get "" [rootPath; pathFrontendPassHostHeader] in
  if nonempty rawValue then
    match ParseBool rawValue with Err _ => DefaultPassHostHeader | Ok value => value end
  else getBool DefaultPassHostHeader [rootPath; pathFrontendPassHostHeaderDeprecated].

Definition getWhiteList (rootPath : string) : option WhiteList :=
  let ranges := getList [rootPath; pathFrontendWhiteListSourceRange] in
  if negb (bool_decide (length ranges = 0)) then
    Some (mkWhiteList ranges (getBool false [rootPath; pathFrontendWhiteListUseXForwardedFor]))
  else None.

Definition getRedirect (rootPath : string) : option Redirect :=
  let permanent := getBool false [rootPath; pathFrontendRedirectPermanent] in
  if has [rootPath; pathFrontendRedirectEntryPoint] then
    Some (mkRedirect (get "" [rootPath; pathFrontendRedirectEntryPoint]) "" "" permanent)
  else if has [rootPath; pathFrontendRedirectRegex] && has [rootPath; pathFrontendRedirectReplacement] then
    Some (mkRedirect "" (get "" [rootPath; pathFrontendRedirectRegex])
            (get "" [rootPath; pathFrontendRedirectReplacement]) permanent)
  else None.

Definition getErrorPages (rootPath : string) : gmap string ErrorPage :=
  foldl (fun errorPages pathPage =>
    <[last pathPage := mkErrorPage (getList [pathPage; pathFrontendErrorPagesStatus])
                         (get "" [pathPage; pathFrontendErrorPagesBackend])
                         (get "" [pathPage; pathFrontendErrorPagesQuery])]> errorPages)
    ∅ (list_keys [rootPath; pathFrontendErrorPages]).

Definition add_limit `{TimeLib} (limits : gmap string Rate) (pathLimits : string) : gmap string Rate :=
  let rawPeriod := get "" [pathLimits +:+ pathFrontendRateLimitPeriod] in
  match Duration_Set rawPeriod with
  | Err _ => limits
  | Ok period =>
      <[last pathLimits := mkRate period (getInt64 0 [pathLimits +:+ pathFrontendRateLimitAverage])
                             (getInt64 0 [pathLimits +:+ pathFrontendRateLimitBurst])]> limits
  end.

Definition getRateLimit `{TimeLib} (rootPath : string) : option RateLimit :=
  let extractorFunc := get "" [rootPath; pathFrontendRateLimitExtractorFunc] in
  if negb (nonempty extractorFunc) then None else
  Some (mkRateLimit (foldl add_limit ∅ (list_keys [rootPath; pathFrontendRateLimitRateSet])) extractorFunc).

Definition getHeaders (rootPath : string) : option Headers :=
  let headers := {|
    CustomRequestHeaders := getMap [rootPath; pathFrontendCustomRequestHeaders];
    CustomResponseHeaders := getMap [rootPath; pathFrontendCustomResponseHeaders];
    SSLProxyHeaders := getMap [rootPath; pathFrontendSSLProxyHeaders];
    AllowedHosts := getList [""; rootPath; pathFrontendAllowedHosts];
    HostsProxyHeaders := getList [rootPath; pathFrontendHostsProxyHeaders];
    SSLRedirect := getBool false [rootPath; pathFrontendSSLRedirect];
    SSLTemporaryRedirect := getBool false [rootPath; pathFrontendSSLTemporaryRedirect];
    SSLHost := get "" [rootPath; pathFrontendSSLHost];
    STSSeconds := getInt64 0 [rootPath; pathFrontendSTSSeconds];
    STSIncludeSubdomains := getBool false [rootPath; pathFrontendSTSIncludeSubdomains];
    STSPreload := getBool false [rootPath; pathFrontendSTSPreload];
    ForceSTSHeader := getBool false [rootPath; pathFrontendForceSTSHeader];
    FrameDeny := getBool false [rootPath; pathFrontendFrameDeny];
    CustomFrameOptionsValue := get "" [rootPath; pathFrontendCustomFrameOptionsValue];
    ContentTypeNosniff := getBool false [rootPath; pathFrontendContentTypeNosniff];
    BrowserXSSFilter := getBool false [rootPath; pathFrontendBrowserXSSFilter];
    CustomBrowserXSSValue := get "" [rootPath; pathFrontendCustomBrowserXSSValue];
    ContentSecurityPolicy := get "" [rootPath; pathFrontendContentSecurityPolicy];
    h_PublicKey := get "" [rootPath; pathFrontendPublicKey];
    ReferrerPolicy := get "" [rootPath; pathFrontendReferrerPolicy];
    IsDevelopment := getBool false [rootPath; pathFrontendIsDevelopment] |} in
  if negb (HasSecureHeadersDefined (Some headers)) && negb (HasCustomHeadersDefined (Some headers))
  then None else Some headers.

Definition getRoutes (rootPath : string) : gmap string Route :=
  foldl (fun routes rt =>
    let rule := get "" [rt; pathFrontendRule] in
    if negb (nonempty rule) then routes else <[last rt := mkRoute rule]> routes)
    ∅ (list_keys [rootPath; pathFrontendRoutes]).

(** ** Backends *)

Definition getSticky (rootPath : string) : bool :=
  let stickyValue := get "" [rootPath; pathBackendLoadBalancerSticky] in
  if nonempty stickyValue then
    match ParseBool stickyValue with Ok sticky => sticky | Err _ => false end
  else false.

Definition hasStickinessLabel (rootPath : string) : bool :=
  getBool false [rootPath; pathBackendLoadBalancerStickiness].

Definition getStickinessCookieName (rootPath : string) : string :=
  get "" [rootPath; pathBackendLoadBalancerStickinessCookieName].

Definition getLoadBalancer (rootPath : string) : LoadBalancer :=
  mkLoadBalancer (get DefaultBackendLoadBalancerMethod [rootPath; pathBackendLoadBalancerMethod]) (getSticky rootPath)
    (if getBool false [rootPath; pathBackendLoadBalancerStickiness]
     then Some (mkStickiness (get "" [rootPath; pathBackendLoadBalancerStickinessCookieName])) else None).

Definition getCircuitBreaker (rootPath : string) : option CircuitBreaker :=
  if negb (has [rootPath; pathBackendCircuitBreakerExpression]) then None else
  let circuitBreaker := get DefaultCircuitBreakerExpression [rootPath; pathBackendCircuitBreakerExpression] in
  if negb (nonempty circuitBreaker) then None else Some (mkCircuitBreaker circuitBreaker).

Definition getMaxConn (rootPath : string) : option MaxConn :=
  let amount := getInt64 min_int64 [rootPath; pathBackendMaxConnAmount] in
  let extractorFunc := get DefaultBackendMaxconnExtractorFunc [rootPath; pathBackendMaxConnExtractorFunc] in
  if (amount =? min_int64)%Z || negb (nonempty extractorFunc) then None
  else Some (mkMaxConn amount extractorFunc).

Definition getHealthCheck (rootPath : string) : option HealthCheck :=
  let path := get "" [rootPath; pathBackendHealthCheckPath] in
  if negb (nonempty path) then None else
  let port := getInt DefaultBackendHealthCheckPort [rootPath; pathBackendHealthCheckPort] in
  let interval := get "30s" [rootPath; pathBackendHealthCheckInterval] in
  Some (mkHealthCheck path port interval).

Definition getBuffering (rootPath : string) : option Buffering :=
  let pathsBuffering := list_keys [rootPath; pathBackendBuffering] in
  if negb (bool_decide (length pathsBuffering = 0)) then
    Some {|
      MaxRequestBodyBytes := getInt64 0 [rootPath; pathBackendBufferingMaxRequestBodyBytes];
      MaxResponseBodyBytes := getInt64 0 [rootPath; pathBackendBufferingMaxResponseBodyBytes];
      MemRequestBodyBytes := getInt64 0 [rootPath; pathBackendBufferingMemRequestBodyBytes];
      MemResponseBodyBytes := getInt64 0 [rootPath; pathBackendBufferingMemResponseBodyBytes];
      RetryExpression := get "" [rootPath; pathBackendBufferingRetryExpression] |}
  else None.

(** A tagged service is kept when its tags match the constraints; the value of
    a missing key is the empty string. *)
Definition checkConstraints (keys : list string) : bool :=
  let value := match kv_Get store (join keys "") with Ok (Some value) => value | _ => "" end in
  (MatchConstraints (Constraints p) (SplitAndTrimString value ",")).1.

Definition serverFilter (serverName : string) : bool :=
  match kv_Get store (serverName +:+ pathBackendServerURL) with
  | Err _ => false
  | Ok _ => checkConstraints [serverName; pathTags]
  end.

Definition listServers (backend : string) : list string :=
  filter (fun name => serverFilter name = true) (list_keys [backend; pathBackendServers]).

Definition add_server (servers : gmap string Server) (serverKey : string) : gmap string Server :=
  let serverURL := get "" [serverKey; pathBackendServerURL] in
  if negb (nonempty serverURL) then servers else
  <[last serverKey := mkServer serverURL (getInt DefaultWeight [serverKey; pathBackendServerWeight])]> servers.

Definition getServers (rootPath : string) : gmap string Server := foldl add_server ∅ (listServers rootPath).

(** ** TLS *)

Definition tls_section (tlsConfPath : string) : option TLSConfiguration :=
  let certFile := get "" [tlsConfPath; pathTLSCertFile] in
  let keyFile := get "" [tlsConfPath; pathTLSKeyFile] in
  if negb (nonempty certFile) && negb (nonempty keyFile) then None else
  let entryPoints := getList [tlsConfPath; pathTLSEntryPoints] in
  if bool_decide (length entryPoints = 0) then None else
  Some (mkTLSConfiguration entryPoints (Some (certFile, keyFile))).

Definition getTLSSection (prefix : string) : list TLSConfiguration := omap tls_section (list_keys [prefix; pathTLS]).

(** ** The template and the configuration *)

(** The tables of [templates/kv.tmpl] for one backend, one frontend, and all. *)
Definition template_backend (backend : string) : Backend :=
  mkBackend (getServers backend) (getCircuitBreaker backend) (Some (getLoadBalancer backend)) (getMaxConn backend)
    (getHealthCheck backend) (getBuffering backend).

Definition template_frontend `{TimeLib} (frontend : string) : Frontend := {|
  EntryPoints := getList [frontend; pathFrontendEntryPoints];
  fe_Backend := get "" [frontend; pathFrontendBackend];
  Routes := getRoutes frontend;
  PassHostHeader := getPassHostHeader frontend;
  PassTLSCert := getBool DefaultPassTLSCert [frontend; pathFrontendPassTLSCert];
  Priority := getInt DefaultFrontendPriority [frontend; pathFrontendPriority];
  BasicAuth := getList [frontend; pathFrontendBasicAuth];
  WhitelistSourceRange := [];
  fe_WhiteList := getWhiteList frontend;
  fe_Headers := getHeaders frontend;
  Errors := getErrorPages frontend;
  fe_RateLimit := getRateLimit frontend;
  fe_Redirect := getRedirect frontend |}.

Definition by_last {A} (f : string -> A) (keys : list string) : gmap string A :=
  list_to_map (map (fun key => (last key, f key)) keys).

(** Allow [/traefik/alias] to supersede the prefix. *)
Definition aliased_prefix : string := trim_suffix (get (Prefix p) [Prefix p +:+ pathAlias]) pathSeparator.

Definition template_configuration `{TimeLib} : Configuration :=
  mkConfiguration (by_last template_backend (list_keys [aliased_prefix; pathBackends]))
    (by_last template_frontend (list_keys [aliased_prefix; pathFrontends]))
    (getTLSSection aliased_prefix).

(** Executing the template and decoding its text: [Ok] with the configuration
    described when all goes well; a value that breaks a TOML string, or an
    unusual name, can give an error or another configuration. *)
Class TemplateEngine := GetConfiguration : Configuration -> result Configuration.

(** After an error the configuration is nil, and ranged over all the same. *)
Definition buildConfiguration `{TimeLib} `{TemplateEngine} : outcome Configuration :=
  match GetConfiguration template_configuration with
  | Err _ => Panic nil_dereference
  | Ok c =>
      Ret (mkConfiguration (Backends c)
             (filter (fun kv => is_Some (Backends c !! fe_Backend kv.2)) (Frontends c)) (TLSConfigs c))
  end.

End Build.

(** ** Watching ([kv.go]) *)

(** What the select of [watchKv] sees: the stop channel, an event of the watch
    (with the store as it is then), or the watch closed. *)
Inductive watch_event := Stop | Changed (store : KVStore) | Closed.

Section Watching.
Context (p : Provider) `{TimeLib} `{TemplateEngine}.

Definition send_message (c : Configuration) : M (list ConfigMessage) unit :=
  modify_state (fun l => l ++ [mkConfigMessage (storeType p) (Some c)]).

Definition lift_outcome {S A} (o : outcome A) : M S A := fun s => (o, s).

(** [None] when the events end while the loop is waiting. *)
Fixpoint watch_loop (events : list watch_event) : M (list ConfigMessage) (option (option error)) :=
  match events with
  | [] => mret None
  | Stop :: _ => mret (Some None)
  | Closed :: _ => mret (Some (Some "watchtree channel closed"))
  | Changed store :: events' =>
      configuration ← lift_outcome (buildConfiguration p store);
      _ ← send_message configuration;
      watch_loop events'
  end.

(** The operation of [watchKv]; [watch] is the answer of [WatchTree]. *)
Definition watch_operation (watch : result (list watch_event)) : M (list ConfigMessage) (option (option error)) :=
  match watch with
  | Err err => mret (Some (Some ("failed to KV WatchTree: " +:+ err)))
  | Ok events => watch_loop events
  end.

(** [backoff.RetryNotify]: a failed attempt is followed by another. *)
Fixpoint watchKv (attempts : list (result (list watch_event))) : M (list ConfigMessage) (option (option error)) :=
  match attempts with
  | [] => mret None
  | watch :: attempts' =>
      r ← OperationWithRecover (watch_operation watch);
      match r with
      | Some (Some _) => watchKv attempts'
      | r => mret r
      end
  end.

(** The operation of [Provide]: the connection is tested, a watcher is started,
    and the first configuration is sent.  The state counts the watchers. *)
Definition provide_operation (exists_ : option error) (store : KVStore) : M (nat * list ConfigMessage) (option (option error)) :=
  match exists_ with
  | Some err => mret (Some (Some ("failed to test KV store connection: " +:+ err)))
  | None =>
      _ ← (if Watch p then modify_state (fun s => (S s.1, s.2)) else mret tt);
      configuration ← lift_outcome (buildConfiguration p store);
      _ ← zoom snd (fun l s => (s.1, l)) (send_message configuration);
      mret (Some None)
  end.

Fixpoint Provide_loop (attempts : list (option error * KVStore)) : M (nat * list ConfigMessage) (option (option error)) :=
  match attempts with
  | [] => mret None
  | (exists_, store) :: attempts' =>
      r ← OperationWithRecover (provide_operation exists_ store);
      match r with
      | Some (Some _) => Provide_loop attempts'
      | r => mret r
      end
  end.

End Watching.

Definition Provide (p : Provider) (constraints : list Constraint) `{TimeLib} `{TemplateEngine}
    (attempts : list (option error * KVStore)) : M (nat * list ConfigMessage) (option (option error)) :=
  Provide_loop (mkProvider (Watch p) (Constraints p ++ constraints) (Prefix p) (storeType p)) attempts.
