(* ===== verification/KvFacts.v ===== *)
(** * What the key-value provider makes of a tree of keys

    For a store that answers from a map of keys, the backends, their servers
    and the frontends are read off the tree, name by name; and what is sent,
    and how many watchers run, when the template or the store fail. *)
From S2P Require Import Prelude GoStrings GoStringsFacts GoStrconv GoHttp OsioClient Types Domains Label OsioProvider Kv.

(** The store answers from [content]; whether a directory is listed in itself
    depends on the store. *)
Class KVStoreLaws (store : KVStore) (content : gmap string string) := {
  kv_Get_law key v : kv_Get store key = Ok (Some v) <-> content !! key = Some v;
  kv_Get_never_nil key : kv_Get store key <> Ok None;
  kv_List_error dir err key : kv_List store dir = Err err -> content !! key <> None -> has_prefix key dir = false;
  kv_List_prefix dir l key v : kv_List store dir = Ok l -> (key, v) ∈ l -> has_prefix key dir = true;
  kv_List_law dir l key v : kv_List store dir = Ok l -> key <> dir -> has_prefix key dir = true ->
    ((key, v) ∈ l <-> content !! key = Some v);
}.

(** A store of this kind. *)
Definition map_store (content : gmap string string) : KVStore := {|
  kv_Get key := match content !! key with Some v => Ok (Some v) | None => Err "Key not found in store" end;
  kv_List dir :=
    match filter (fun kv => has_prefix kv.1 dir = true) (map_to_list content) with
    | [] => Err "Key not found in store"
    | l => Ok l
    end |}.

#[export] Instance map_store_laws content : KVStoreLaws (map_store content) content.
Proof.
  assert (forall dir l key v, kv_List (map_store content) dir = Ok l -> (key, v) ∈ l <-> has_prefix key dir = true /\ content !! key = Some v) as Hlist.
  { simpl. intros dir l key v Hl. destruct (filter _ _) as [|x l'] eqn:E; [done|]. injection Hl as <-.
    rewrite <- E, list_elem_of_filter, elem_of_map_to_list. tauto. }
  split.
  - simpl. intros key v. destruct (content !! key); split; congruence.
  - simpl. intros key. by destruct (content !! key).
  - simpl. intros dir err key Hl [v Hv]%not_eq_None_Some. apply not_true_is_false. intros Hp.
    destruct (filter _ _) eqn:E; [|done]. apply (not_elem_of_nil (key, v)). rewrite <- E.
    apply list_elem_of_filter. by rewrite elem_of_map_to_list.
  - intros dir l key v Hl Hin. by apply (Hlist dir l) in Hin as [? _].
  - intros dir l key v Hl _ Hp. rewrite (Hlist dir l) by done. tauto.
Qed.

Lemma foldl_pointwise {A B} (f g : A -> B -> A) l a : (forall a b, f a b = g a b) -> foldl f a l = foldl g a l.
Proof. intros H. revert a. induction l as [|b l IH]; intros a; simpl; [done|]. by rewrite H. Qed.

(** A loop that adds an entry for some of the keys, under different names. *)
Lemma foldl_insert_lookup {A} (f : string -> string) (g : string -> option A) keys name a : NoDup (map f keys) ->
  foldl (fun m k => match g k with Some x => <[f k := x]> m | None => m end) (∅ : gmap string A) keys !! name = Some a <->
  exists k, k ∈ keys /\ f k = name /\ g k = Some a.
Proof.
  induction keys as [|k keys IH] using rev_ind; intros Hnd; simpl.
  { split; [done|]. by intros (? & ?%elem_of_nil & _). }
  rewrite foldl_app. simpl. rewrite fmap_app in Hnd. apply NoDup_app in Hnd as (Hnd & Hk & _). specialize (IH Hnd).
  assert (forall k', k' ∈ keys -> f k' <> f k) as Hne.
  { intros k' Hin E. apply (Hk (f k)); [rewrite <- E; by apply list_elem_of_fmap_2|by left]. }
  setoid_rewrite elem_of_app. setoid_rewrite list_elem_of_singleton.
  destruct (decide (f k = name)) as [<-|Hname], (g k) as [x|] eqn:Eg;
    rewrite ?lookup_insert_eq, ?lookup_insert_ne, ?IH by done; naive_solver.
Qed.

Section Tree.
Context (p : Provider) (store : KVStore) (content : gmap string string) `{laws : !KVStoreLaws store content}.

(** ** Reading keys *)

(** The value the provider reads under a key: with the version 2 of etcd the
    first slash of the key is left out. *)
Definition stored_key (key : string) : string := if bool_decide (storeType p = ETCD) then trim_prefix key pathSeparator else key.
Definition read (key : string) : option string := content !! stored_key key.

Lemma get_content d parts : get p store d parts = default d (read (join parts "")).
Proof using laws.
  unfold get, read. fold (stored_key (join parts "")). generalize (stored_key (join parts "")). intros key.
  destruct (kv_Get store key) as [[v|]|e] eqn:E.
  - by apply kv_Get_law in E as ->.
  - by apply kv_Get_never_nil in E.
  - destruct (content !! key) as [v|] eqn:Ev; [|done]. apply kv_Get_law in Ev. congruence.
Qed.

Lemma split_snoc root d : free "/"%char d = true -> split (root +:+ String "/" d) "/" = split root "/" ++ [d].
Proof.
  intros Hd. induction root as [root IH] using string_length_ind.
  destruct (split_cases "/" root) as [[Hf ->]|(a & b & -> & Ha & ->)].
  - by rewrite split_sep, split_free.
  - rewrite app_assoc_str, app_cons_str, split_sep by done. rewrite IH; [done|]. rewrite length_app_str. simpl. lia.
Qed.

Lemma last_directory root d : free "/"%char d = true -> last (root +:+ "/" +:+ d) = d.
Proof. intros Hd. unfold last, pathSeparator. change (root +:+ "/" +:+ d) with (root +:+ String "/" d).
  rewrite split_snoc by done. apply List.last_last. Qed.

Lemma directory_free root key : free "/"%char (directory root key) = true.
Proof.
  unfold directory, pathSeparator. pose proof (split_all_free "/" (trim_prefix key root)) as H.
  destruct (split _ _); [done|]. by inversion H.
Qed.

Lemma directory_app root d rest :
  free "/"%char d = true -> rest = "" \/ (exists r, rest = "/" +:+ r) -> directory root (root +:+ d +:+ rest) = d.
Proof.
  intros Hd Hr. unfold directory, pathSeparator. rewrite trim_prefix_app. destruct Hr as [->|[r ->]].
  - by rewrite app_nil_r_str, split_free.
  - change (d +:+ "/" +:+ r) with (d +:+ String "/" r). by rewrite split_sep.
Qed.

Lemma directory_inv root key : has_prefix key root = true ->
  exists rest, key = root +:+ directory root key +:+ rest /\ (rest = "" \/ exists r, rest = "/" +:+ r).
Proof.
  intros [s ->]%has_prefix_spec. unfold directory, pathSeparator. rewrite trim_prefix_app.
  destruct (split_cases "/" s) as [[Hf ->]|(a & b & -> & Hf & ->)].
  - exists "". rewrite app_nil_r_str. auto.
  - exists (String "/" b). split; [done|]. right. by exists b.
Qed.

Lemma directory_self root : directory root root = "".
Proof. rewrite <- (app_nil_r_str root) at 2. by apply (directory_app root "" ""); [|left]. Qed.

(** There is a key in the directory [d] of [root], or [d] is a key of it. *)
Definition holds (root d : string) : Prop :=
  exists rest, is_Some (content !! (root +:+ d +:+ rest)) /\ (rest = "" \/ exists r, rest = "/" +:+ r).

Lemma elem_of_list_keys parts d : d <> "" ->
  join parts "" +:+ d ∈ list_keys store parts <-> free "/"%char d = true /\ holds (join parts "") d.
Proof using laws.
  intros Hd. unfold list_keys. set (root := join parts ""). unfold holds. destruct (kv_List store root) as [l|e] eqn:El.
  - rewrite merge_sort_Permutation, elem_of_remove_dups, list_elem_of_fmap. split.
    + intros ([key v] & Heq & Hin). apply app_inv_l in Heq. simpl in Heq. subst d. split; [apply directory_free|].
      pose proof (kv_List_prefix _ _ _ _ El Hin) as Hp. destruct (directory_inv root key Hp) as (rest & Hk & Hr).
      exists rest. split; [|done]. rewrite <- Hk. exists v. apply (kv_List_law _ _ _ _ El); [|done|done].
      intros ->. apply Hd, directory_self.
    + intros [Hf (rest & [v Hv] & Hr)]. exists (root +:+ d +:+ rest, v). simpl. rewrite directory_app by done. split; [done|].
      apply (kv_List_law _ _ _ _ El); [| apply has_prefix_app |done].
      intros E. rewrite <- (app_nil_r_str root) in E at 2. apply app_inv_l in E. by destruct d.
  - split; [by intros ?%elem_of_nil|]. intros [_ (rest & [v Hv] & _)]. exfalso.
    pose proof (kv_List_error root e (root +:+ d +:+ rest) El ltac:(by rewrite Hv)) as H. by rewrite has_prefix_app in H.
Qed.

Lemma list_keys_shape parts x : x ∈ list_keys store parts -> exists d, x = join parts "" +:+ d /\ free "/"%char d = true.
Proof.
  unfold list_keys. destruct (kv_List _ _) as [l|e]; [|by intros ?%elem_of_nil].
  rewrite merge_sort_Permutation, elem_of_remove_dups, list_elem_of_fmap. intros ([key v] & -> & _).
  eexists. split; [done|]. apply directory_free.
Qed.

Lemma NoDup_list_keys parts : NoDup (list_keys store parts).
Proof.
  unfold list_keys. destruct (kv_List _ _) as [l|e]; [|constructor]. rewrite merge_sort_Permutation. apply NoDup_remove_dups.
Qed.

(** ** Maps by name *)

(** The keys of a listed directory have different last parts. *)
Lemma NoDup_last parts root : join parts "" = root +:+ "/" -> NoDup (map last (list_keys store parts)).
Proof.
  intros Hroot. apply NoDup_fmap_2_strong; [|apply NoDup_list_keys].
  intros x y (d & -> & Hd)%list_keys_shape (d' & -> & Hd')%list_keys_shape. rewrite Hroot, !app_assoc_str, !last_directory by done.
  by intros ->.
Qed.

Lemma by_last_lookup {A} (f : string -> A) parts root name a : join parts "" = root +:+ "/" -> name <> "" ->
  by_last f (list_keys store parts) !! name = Some a <->
  free "/"%char name = true /\ holds (root +:+ "/") name /\ a = f (root +:+ "/" +:+ name).
Proof using laws.
  intros Hroot Hname. unfold by_last. rewrite <- elem_of_list_to_map.
  2: { rewrite <- list_fmap_compose. by apply (NoDup_last parts root). }
  rewrite list_elem_of_fmap. split.
  - intros (x & Heq & Hx). injection Heq as Hn Ha. destruct (list_keys_shape _ _ Hx) as (d & -> & Hd).
    rewrite Hroot, app_assoc_str in Hn, Ha. rewrite last_directory in Hn by done. subst d.
    apply elem_of_list_keys in Hx as [_ Hh]; [|done]. by rewrite Hroot in Hh.
  - intros (Hf & Hh & ->). exists (join parts "" +:+ name). split.
    + by rewrite Hroot, app_assoc_str, last_directory.
    + apply elem_of_list_keys; [done|]. by rewrite Hroot.
Qed.

(** ** Servers *)

(** What a server is, key by key. *)
Definition weight_in (key : string) : Z :=
  match read key with
  | Some v => if nonempty v then match Atoi v with Ok n => n | Err _ => DefaultWeight end else DefaultWeight
  | None => DefaultWeight
  end.
Definition accepted (key : string) : bool :=
  (MatchConstraints (Constraints p) (SplitAndTrimString (default "" (content !! (key +:+ pathTags))) ",")).1.

Lemma serverFilter_content key :
  serverFilter p store key = true <-> is_Some (content !! (key +:+ pathBackendServerURL)) /\ accepted key = true.
Proof using laws.
  unfold serverFilter, checkConstraints, accepted.
  assert (join [key; pathTags] "" = key +:+ pathTags) as -> by done.
  assert ((match kv_Get store (key +:+ pathTags) with Ok (Some value) => value | _ => "" end) =
    default "" (content !! (key +:+ pathTags))) as ->.
  { destruct (kv_Get store (key +:+ pathTags)) as [[v|]|e] eqn:E.
    - by apply kv_Get_law in E as ->.
    - by apply kv_Get_never_nil in E.
    - destruct (content !! (key +:+ pathTags)) as [v|] eqn:Ev; [|done]. apply kv_Get_law in Ev. congruence. }
  destruct (kv_Get store (key +:+ pathBackendServerURL)) as [[v|]|e] eqn:E.
  - apply kv_Get_law in E as ->. split; [by split|by intros [_ ?]].
  - by apply kv_Get_never_nil in E.
  - split; [done|]. intros [[v Hv] _]. apply kv_Get_law in Hv. congruence.
Qed.

(** The server a key stands for. *)
Definition server_at (key : string) : option Server :=
  match read (key +:+ "/url") with
  | Some u => if nonempty u then Some (mkServer u (weight_in (key +:+ "/weight"))) else None
  | None => None
  end.

Lemma add_server_at m key : add_server p store m key = match server_at key with Some x => <[last key := x]> m | None => m end.
Proof using laws.
  unfold add_server, server_at, getInt, weight_in. rewrite !get_content by done.
  change (join [key; pathBackendServerURL] "") with (key +:+ "/url").
  change (join [key; pathBackendServerWeight] "") with (key +:+ "/weight").
  destruct (read (key +:+ "/url")) as [u|]; [|done]. simpl. destruct (nonempty u); [|done]. simpl.
  destruct (read (key +:+ "/weight")) as [w|]; [|done]. simpl. by destruct (nonempty w).
Qed.

Lemma getServers_content root name sv : name <> "" ->
  getServers p store root !! name = Some sv <->
  let key := root +:+ "/servers/" +:+ name in
  free "/"%char name = true /\ is_Some (content !! (key +:+ "/url")) /\ read (key +:+ "/url") = Some (URL sv) /\ URL sv <> "" /\
  Weight sv = weight_in (key +:+ "/weight") /\ accepted key = true.
Proof using laws.
  intros Hname. unfold getServers. set (parts := [root; pathBackendServers]).
  assert (join parts "" = (root +:+ "/servers") +:+ "/") as Hroot by (by rewrite app_assoc_str).
  pose proof (NoDup_last parts _ Hroot) as Hnd.
  rewrite (foldl_pointwise _ _ _ _ add_server_at).
  rewrite foldl_insert_lookup by (eapply sublist_NoDup; [exact Hnd|apply fmap_sublist, sublist_filter]).
  assert (forall x, x ∈ listServers p store root <-> serverFilter p store x = true /\ x ∈ list_keys store parts) as Hin.
  { intros x. unfold listServers. by rewrite list_elem_of_filter. }
  assert (free "/"%char name = true -> join parts "" +:+ name = root +:+ "/servers/" +:+ name /\ last (join parts "" +:+ name) = name) as Hat.
  { intros Hf. rewrite Hroot, !app_assoc_str. split; [done|]. by rewrite <- app_assoc_str, last_directory. }
  setoid_rewrite Hin. setoid_rewrite serverFilter_content. simpl. unfold server_at. split.
  - intros (key & [[Hex Ha] Hk] & Hl & Hs). destruct (list_keys_shape _ _ Hk) as (d & -> & Hd).
    assert (d = name) as ->. { rewrite <- Hl, Hroot, app_assoc_str. by rewrite last_directory. }
    destruct (Hat Hd) as [Ek _]. rewrite Ek in *. destruct (read _) as [u|] eqn:Eu; [|done].
    unfold nonempty in Hs. case_bool_decide; [done|]. simpl in Hs. injection Hs as <-. by split_and!.
  - intros (Hf & Hex & Hu & Hne & Hw & Ha). destruct (Hat Hf) as [Ek El]. exists (join parts "" +:+ name). rewrite El, Ek. split_and!.
    + exact Hex.
    + done.
    + rewrite <- Ek. apply elem_of_list_keys; [done|]. split; [done|]. exists "/url". split; [|right; by exists "url"].
      rewrite <- app_assoc_str, Ek. exact Hex.
    + done.
    + rewrite Hu. unfold nonempty. rewrite bool_decide_eq_false_2 by done. simpl. rewrite <- Hw. by destruct sv.
Qed.

(** ** The configuration *)

Lemma aliased_prefix_content :
  aliased_prefix p store = trim_suffix (default (Prefix p) (read (Prefix p +:+ "/alias"))) "/".
Proof using laws. unfold aliased_prefix. by rewrite get_content. Qed.

(** C16: of a store that answers from a map of keys, the configuration built
    has exactly the named servers whose address is set and whose tags match the
    constraints, under the directories of their backends; the backends are the
    named directories; and the frontends the named directories whose backend is
    among them, read key by key.  The empty name aside, and where the text of
    the template is decoded to what it describes.  Values are read under the key
    itself, but for the version 2 of etcd, which has its values read under the
    key without its first slash, while directories are listed and servers
    filtered under the key as it is. *)
Theorem kv_tree `{TimeLib} `{TemplateEngine} :
  GetConfiguration (template_configuration p store) = Ok (template_configuration p store) ->
  let root := trim_suffix (default (Prefix p) (read (Prefix p +:+ "/alias"))) "/" in
  exists c, buildConfiguration p store = Ret c /\
    (forall b s sv, b <> "" -> s <> "" ->
       (exists be, Backends c !! b = Some be /\ Servers be !! s = Some sv) <->
       let key := root +:+ "/backends/" +:+ b +:+ "/servers/" +:+ s in
       free "/"%char b = true /\ free "/"%char s = true /\
       is_Some (content !! (key +:+ "/url")) /\ read (key +:+ "/url") = Some (URL sv) /\ URL sv <> "" /\
       Weight sv = weight_in (key +:+ "/weight") /\ accepted key = true) /\
    (forall b, b <> "" -> is_Some (Backends c !! b) <-> free "/"%char b = true /\ holds (root +:+ "/backends/") b) /\
    (forall f fr, f <> "" ->
       Frontends c !! f = Some fr <->
       free "/"%char f = true /\ holds (root +:+ "/frontends/") f /\
       fr = template_frontend p store (root +:+ "/frontends/" +:+ f) /\
       is_Some (Backends c !! default "" (read (root +:+ "/frontends/" +:+ f +:+ "/backend")))).
Proof using laws.
  intros Hengine root. assert (aliased_prefix p store = root) as Er by (exact aliased_prefix_content). unfold buildConfiguration. rewrite Hengine. eexists. split; [done|].
  simpl Backends. simpl Frontends. rewrite Er.
  assert (join [root; pathBackends] "" = (root +:+ "/backends") +:+ "/") as Hb by (by rewrite app_assoc_str).
  assert (join [root; pathFrontends] "" = (root +:+ "/frontends") +:+ "/") as Hf by (by rewrite app_assoc_str).
  pose proof (fun b be => by_last_lookup (template_backend p store) _ _ b be Hb) as Hbe.
  pose proof (fun f fr => by_last_lookup (template_frontend p store) _ _ f fr Hf) as Hfr.
  simpl. rewrite !app_assoc_str in *. split_and!.
  - intros b s sv Hnb Hns. rewrite !app_assoc_str. split.
    + intros (be & (Hfree & _ & ->)%Hbe & Hs); [|done]. simpl in Hs. apply getServers_content in Hs; [|done].
      rewrite !app_assoc_str in Hs. destruct Hs as (Hfs & Hex & Hu & Hne & Hw & Ha).
      split_and!; [exact Hfree|exact Hfs|exact Hex|exact Hu|exact Hne|exact Hw|exact Ha].
    + intros (Hfb & Hfs & Hex & Hu & Hne & Hw & Ha). eexists. split.
      * apply Hbe; [done|]. split_and!; [done| |done]. exists ("/servers/" +:+ s +:+ "/url"). split; [|right; by eexists].
        rewrite !app_assoc_str. exact Hex.
      * simpl. apply getServers_content; [done|]. cbv zeta. rewrite !app_assoc_str. split_and!; [exact Hfs|exact Hex|exact Hu|exact Hne|exact Hw|exact Ha].
  - intros b Hnb. split.
    + intros [be (? & ? & _)%Hbe]; done.
    + intros [? ?]. eexists. by apply Hbe.
  - intros f fr Hnf. rewrite map_lookup_filter_Some. rewrite Hfr by done. simpl.
    assert (forall x, fe_Backend (template_frontend p store x) = default "" (read (x +:+ "/backend"))) as Hname.
    { intros x. simpl. by rewrite get_content. }
    split.
    + intros [(? & ? & ->) Hs]. rewrite Hname, !app_assoc_str in Hs. split_and!; [done|done|by rewrite app_assoc_str|exact Hs].
    + intros (? & ? & -> & Hs). split; [split_and!; [done|done|by rewrite app_assoc_str]|]. rewrite Hname, !app_assoc_str. exact Hs.
Qed.

End Tree.

(** ** What is sent *)

Lemma bind_Ret {W A B} (m : M W A) (f : A -> M W B) w a w' : m w = (Ret a, w') -> (m ≫= f) w = f a w'.
Proof. unfold mbind, M_bind. by intros ->. Qed.

Lemma build_no_crash p store `{TimeLib} `{TemplateEngine} :
  (exists c, buildConfiguration p store = Ret c) \/ (exists e, buildConfiguration p store = Panic e).
Proof. unfold buildConfiguration. destruct (GetConfiguration _); eauto. Qed.

(** The attempt gets no further than a configuration that is not built. *)
Definition attempt_fails p `{TimeLib} `{TemplateEngine} (attempt : option error * KVStore) : Prop :=
  attempt.1 <> None \/ exists e, buildConfiguration p attempt.2 = Panic e.

Lemma provide_attempt p `{TimeLib} `{TemplateEngine} exists_ store n l :
  let n' := n + (if Watch p then match exists_ with None => 1 | _ => 0 end else 0) in
  (attempt_fails p (exists_, store) /\
   exists e, OperationWithRecover (provide_operation p exists_ store) (n, l) = (Ret (Some (Some e)), (n', l))) \/
  (exists c, exists_ = None /\ buildConfiguration p store = Ret c /\
   OperationWithRecover (provide_operation p exists_ store) (n, l) =
     (Ret (Some None), (n', l ++ [mkConfigMessage (storeType p) (Some c)]))).
Proof.
  intros n'. unfold OperationWithRecover, provide_operation. destruct exists_ as [err|].
  { left. split; [by left|]. eexists. subst n'. destruct (Watch p); by rewrite Nat.add_0_r. }
  assert (((if Watch p then modify_state (fun s => (S s.1, s.2)) else mret tt) : M (nat * list ConfigMessage) unit) (n, l) = (Ret tt, (n', l))) as Hw.
  { subst n'. destruct (Watch p); cbn; [by rewrite Nat.add_1_r|by rewrite Nat.add_0_r]. }
  rewrite (bind_Ret _ _ _ _ _ Hw). destruct (build_no_crash p store) as [[c Hc]|[e He]]; [right; exists c|left].
  - rewrite (bind_Ret _ _ _ c (n', l)) by (unfold lift_outcome; by rewrite Hc). done.
  - split; [right; by exists e|]. unfold mbind at 1, M_bind at 1, lift_outcome at 1. rewrite He. by eexists.
Qed.

(** However the store answers, [Provide] ends without a panic; it starts a
    watcher in every attempt whose connection test succeeds, also when the
    attempt fails later, and sends at most one message: the configuration of
    the first attempt that succeeds, after which it stops. *)
Theorem provide_attempts p constraints `{TimeLib} `{TemplateEngine} attempts n l :
  let p' := mkProvider (Watch p) (Constraints p ++ constraints) (Prefix p) (storeType p) in
  exists r n' l' k,
    Provide p constraints attempts (n, l) = (Ret r, (n', l')) /\ k <= length attempts /\
    n' = n + (if Watch p then length (filter (fun a => a.1 = None) (take k attempts)) else 0) /\
    ((r = None /\ l' = l /\ k = length attempts /\ Forall (attempt_fails p') attempts) \/
     (r = Some None /\ exists j store c, k = S j /\ attempts !! j = Some (None, store) /\ Forall (attempt_fails p') (take j attempts) /\
        buildConfiguration p' store = Ret c /\ l' = l ++ [mkConfigMessage (storeType p) (Some c)])).
Proof.
  intros p'. unfold Provide. fold p'. change (Watch p) with (Watch p'). change (storeType p) with (storeType p'). clearbody p'.
  revert n l. induction attempts as [|[ex store] attempts IH]; intros n l.
  { exists None, n, l, 0. split_and!; [done|done|by destruct (Watch p')|]. left. by split_and!. }
  simpl. unfold mbind at 1, M_bind at 1. destruct (provide_attempt p' ex store n l) as [[Hf [e ->]]|(c & -> & Hc & ->)].
  - destruct (IH (n + (if Watch p' then match ex with None => 1 | _ => 0 end else 0)) l) as (r & n' & l' & k & -> & Hk & Hn & Hr).
    exists r, n', l', (S k). simpl. split_and!; [done|lia| |].
    + rewrite Hn, filter_cons. destruct (Watch p'), ex; simpl; lia.
    + destruct Hr as [(-> & -> & -> & Hall)|(-> & j & store' & c & -> & Hj & Hall & Hc & ->)].
      * left. split_and!; [done|done|done|]. by constructor.
      * right. split; [done|]. exists (S j), store', c. split_and!; try done. by constructor.
  - eexists _, _, _, 1. split; [done|]. simpl. split_and!; [lia| |].
    + by destruct (Watch p'), attempts.
    + right. split; [done|]. exists 0, store, c. by split_and!.
Qed.

(** What a run of the watch sends: the configurations built from the stores of
    its events, up to the first that is not built or the end of the watch. *)
Fixpoint built_before p `{TimeLib} `{TemplateEngine} (events : list watch_event) : list Configuration :=
  match events with
  | Changed store :: events' =>
      match buildConfiguration p store with Ret c => c :: built_before p events' | _ => [] end
  | _ => []
  end.

Lemma watch_loop_sends p `{TimeLib} `{TemplateEngine} events l :
  (watch_loop p events l).2 = l ++ map (fun c => mkConfigMessage (storeType p) (Some c)) (built_before p events).
Proof.
  revert l. induction events as [|[|store|] events IH]; intros l; simpl; rewrite ?app_nil_r; try done.
  unfold mbind at 1, M_bind at 1, lift_outcome. destruct (buildConfiguration p store) as [c| |] eqn:E; simpl; rewrite ?app_nil_r; try done.
  rewrite (bind_Ret _ _ _ tt (l ++ [mkConfigMessage (storeType p) (Some c)])) by done. by rewrite IH, <- app_assoc.
Qed.

(** ** Examples *)

Section Example.

Definition sample_content : gmap string string := list_to_map
  [("traefik/backends/b1/servers/s1/url", "http://10.0.0.1"); ("traefik/backends/b1/servers/s1/weight", "4");
   ("traefik/backends/b1/servers/s2/url", "http://10.0.0.2"); ("traefik/backends/b1/servers/s2/tags", "old");
   ("traefik/frontends/f1/backend", "b1"); ("traefik/frontends/f1/routes/r1/rule", "Host:example.org");
   ("traefik/frontends/f2/backend", "missing")].

Definition sample_provider : Provider := mkProvider true [mkConstraint "tag" false "old"] "traefik" "consul".
Local Instance sample_time : TimeLib := fun _ => Err "no duration".
Local Instance sound_engine : TemplateEngine := Ok.

Lemma kv_tree_witness :
  GetConfiguration (template_configuration sample_provider (map_store sample_content)) =
    Ok (template_configuration sample_provider (map_store sample_content)) /\
  exists c, buildConfiguration sample_provider (map_store sample_content) = Ret c /\
    (exists be, Backends c !! "b1" = Some be /\ Servers be !! "s1" = Some (mkServer "http://10.0.0.1" 4)).
Proof.
  split; [reflexivity|]. destruct (kv_tree sample_provider (map_store sample_content) sample_content eq_refl) as (c & Hc & Hs & _).
  exists c. split; [exact Hc|]. apply Hs; [done|done|].
  split_and!; first [by vm_compute|eexists; by vm_compute].
Defined.

(** Under the version 2 of etcd a key with a leading slash is listed as it is
    and read without it. *)
Example etcd_slash :
  getServers (mkProvider true [] "/traefik" ETCD)
    (map_store (list_to_map [("/traefik/backends/b1/servers/s1/url", "http://listed"); ("traefik/backends/b1/servers/s1/url", "http://read")]))
    "/traefik/backends/b1" = {["s1" := mkServer "http://read" DefaultWeight]}.
Proof. by vm_compute. Qed.

(** The tagged server and the frontend without a backend are left out. *)
Example sample_configuration :
  exists c, buildConfiguration sample_provider (map_store sample_content) = Ret c /\
    map_to_list (Servers <$> Backends c) = [("b1", {["s1" := mkServer "http://10.0.0.1" 4]})] /\
    map (fun kv => (kv.1, fe_Backend kv.2)) (map_to_list (Frontends c)) = [("f1", "b1")].
Proof. eexists. split; [reflexivity|]. by vm_compute. Qed.

End Example.

(** When the template's text is not decoded, every attempt leaves a watcher. *)
Example watchers_pile_up :
  Provide sample_provider [] (H := sample_time) (H0 := fun _ => Err "near line 2: expected '.'")
    (replicate 3 (None, map_store sample_content)) (0, []) = (Ret None, (3, [])).
Proof. reflexivity. Qed.
