(* ===== verification/KvStores.v ===== *)
(** * [provider/consul/], [boltdb/], [zk/], [etcd/]: the stores of the key-value provider

    Four providers that differ in the store they create.  Connecting to a store is
    a parameter. *)
From S2P Require Import Prelude GoStrings GoStringsFacts Types OsioClient OsioProvider Label Kv.

Inductive store_kind := Consul | BoltDB | Zookeeper | Etcd (UseAPIV3 : bool).

(** The constants of [valkeyrie]. *)
Definition store_name (k : store_kind) : string :=
  match k with
  | Consul => "consul" | BoltDB => "boltdb" | Zookeeper => "zk"
  | Etcd true => "etcdv3" | Etcd false => "etcd"
  end.

Record store_options := mkStoreOptions { Endpoint : string; Username : string; Password : string; TLS : option (result string) }.
Record store_config := mkStoreConfig { Bucket : string; cfg_Username : string; cfg_Password : string; cfg_TLS : option string }.

(** [valkeyrie.NewStore]: [None] when there is a store. *)
Class StoreLib := NewStore : string -> list string -> store_config -> option error.

Section Stores.
Context `{StoreLib} `{TimeLib} `{TemplateEngine}.

(** [Provider.CreateStore] of the key-value provider; the TLS configuration is what
    [CreateTLSConfig] answers. *)
Definition CreateStore (storeType : string) (o : store_options) : option error :=
  let connect tls := NewStore storeType (split (Endpoint o) ",") (mkStoreConfig "traefik" (Username o) (Password o) tls) in
  match TLS o with
  | None => connect None
  | Some (Err err) => Some err
  | Some (Ok tls) => connect (Some tls)
  end.

Definition SetStoreType (storeType : string) (p : Provider) : Provider := mkProvider (Watch p) (Constraints p) (Prefix p) storeType.

(** [Provide] of the four: an error, or what the key-value provider does. *)
Definition store_Provide (k : store_kind) (o : store_options) (p : Provider) (constraints : list Constraint)
    (attempts : list (option error * KVStore)) : result (M (nat * list ConfigMessage) (option (option error))) :=
  let p := SetStoreType (store_name k) p in
  match CreateStore (storeType p) o with
  | Some err => Err ("failed to Connect to KV store: " +:+ err)
  | None => Ok (Provide p constraints attempts)
  end.

(** The messages of the four have names of their own, so that none takes the place of
    another's configuration. *)
Theorem stores_have_names k k' : store_name k = store_name k' -> k = k'.
Proof. by destruct k as [| | |[]], k' as [| | |[]]. Qed.

Lemma store_Provide_type k o p constraints attempts run : store_Provide k o p constraints attempts = Ok run ->
  run = Provide (mkProvider (Watch p) (Constraints p) (Prefix p) (store_name k)) constraints attempts.
Proof. unfold store_Provide. destruct (CreateStore _ _); [done|]. by intros [= <-]. Qed.
End Stores.
