(* ===== verification/ProviderBase.v ===== *)
(** * [provider/provider.go]: what the providers share

    Names made fit for the generated configuration, the choice of the template,
    and the backend and the frontend that the templates of the providers with
    labels describe.  Executing a template and decoding its text is a parameter. *)
From S2P Require Import Prelude GoStrings GoStringsFacts GoStrconv Types LabelNames Label Cookie Kv.

(** ** Lists of what may panic *)

Lemma mapM_Ret {A B} (f : A -> outcome B) l k : mapM f l = Ret k -> Forall2 (fun x y => f x = Ret y) l k.
Proof.
  revert k. induction l as [|x l IH]; intros k; simpl; [by intros [= <-]; constructor|].
  intros (y & Hy & (k' & Hk' & [= <-])%outcome_bind_inv)%outcome_bind_inv. constructor; [done|by apply IH].
Qed.

(** ** [Normalize] *)

(** [unicode.IsLetter] and [unicode.IsNumber] on the runes of more than one byte. *)
Class UnicodeLib := name_rune : string -> bool.

Section Normalize.
Context `{UnicodeLib}.

(** The rune at the start of [String c s]: its bytes, and whether it is part of a
    name.  A byte that starts no rune is the replacement character. *)
Definition rune_at (c : ascii) (s : string) : string := String c (str_take (rune_tail c s) s).
Definition in_name (r : string) : bool :=
  match r with
  | String c "" => is_lower c || is_upper c || is_digit c
  | _ => name_rune r
  end.

(** [strings.FieldsFunc]: the runs of runes of a name, the first of them apart,
    as it may go on to the left; [skip] are the bytes left of a rune, [keep] tells
    whether it is part of a name. *)
Fixpoint rune_fields (s : string) (skip : nat) (keep : bool) : string * list string :=
  match s with
  | "" => ("", [])
  | String c s' =>
      match skip with
      | S k => let '(h, t) := rune_fields s' k keep in if keep then (String c h, t) else (h, t)
      | O =>
          if in_name (rune_at c s') then let '(h, t) := rune_fields s' (rune_tail c s') true in (String c h, t)
          else let '(h, t) := rune_fields s' (rune_tail c s') false in ("", if bool_decide (h = "") then t else h :: t)
      end
  end.

Definition Normalize (name : string) : string :=
  let '(h, t) := rune_fields name 0 true in join (if bool_decide (h = "") then t else h :: t) "-".
End Normalize.

Definition ascii_only : UnicodeLib := fun _ => false.

Example normalized : Normalize (H := ascii_only) "/host.name--a/" = "host-name-a".
Proof. reflexivity. Qed.

(** ** Templates *)

(** [getTemplateContent]: the file given, the asset of that name, or the text
    itself.  [read] and [asset] are the two libraries' answers. *)
Definition getTemplateContent (read asset : string -> result string) (Filename defaultTemplateFile : string) : result string :=
  if nonempty Filename then read Filename
  else if has_suffix defaultTemplateFile ".tmpl" then asset defaultTemplateFile
  else Ok defaultTemplateFile.

(** An error is logged, and the configuration is then nil. *)
Definition configuration_or_nil `{TemplateEngine} (c : Configuration) : option Configuration :=
  match GetConfiguration c with Ok c => Some c | Err _ => None end.

(** A template ranges over a map by its keys, in order, and a table that is
    written twice is an error of the decoder of TOML. *)
Definition key_le {A} (a b : string * A) : Prop := string_le a.1 b.1.
#[export] Instance key_le_dec {A} (a b : string * A) : Decision (key_le a b). Proof. unfold key_le. apply _. Defined.
Definition by_key {A} (m : gmap string A) : list (string * A) := merge_sort key_le (map_to_list m).
Definition tables {A} (l : list (string * A)) : result (gmap string A) :=
  if bool_decide (NoDup l.*1) then Ok (list_to_map l) else Err "Key has already been defined.".

Lemma by_key_lookup {A} (m : gmap string A) k x : (k, x) ∈ by_key m <-> m !! k = Some x.
Proof. unfold by_key. rewrite merge_sort_Permutation. by rewrite elem_of_map_to_list. Qed.

Lemma by_key_NoDup {A} (m : gmap string A) : NoDup (by_key m).*1.
Proof. unfold by_key. rewrite merge_sort_Permutation. apply NoDup_fst_map_to_list. Qed.

Lemma tables_lookup {A} (l : list (string * A)) m k x : tables l = Ok m -> m !! k = Some x <-> (k, x) ∈ l.
Proof.
  unfold tables. case_bool_decide; [|done]. intros [= <-].
  split; [apply elem_of_list_to_map_2|by apply elem_of_list_to_map_1].
Qed.

(** ** The tables of a template *)

Section Labels.
Context `{TimeLib} `{order : MapOrder}.

(** What the templates say of a backend whose labels these are. *)
Definition labels_backend (labels : Labels) (servers : gmap string Server) : Backend :=
  mkBackend servers (GetCircuitBreaker labels) (GetLoadBalancer labels) (GetMaxConn labels) (GetHealthCheck labels)
    (GetBuffering labels).

(** A table for a backend is written when it has one of these. *)
Definition has_options (b : Backend) : bool :=
  bool_decide (is_Some (be_CircuitBreaker b) \/ is_Some (be_LoadBalancer b) \/ is_Some (be_MaxConn b)
               \/ is_Some (be_HealthCheck b) \/ is_Some (be_Buffering b)).
Definition set_Servers (s : gmap string Server) (b : Backend) : Backend :=
  mkBackend s (be_CircuitBreaker b) (be_LoadBalancer b) (be_MaxConn b) (be_HealthCheck b) (be_Buffering b).

(** The pages of errors name a backend, which the template prefixes. *)
Definition prefixed_pages (prefix : string) (pages : gmap string ErrorPage) : gmap string ErrorPage :=
  (fun page => mkErrorPage (ep_Status page) (prefix +:+ ep_Backend page) (ep_Query page)) <$> pages.

(** What they say of a frontend. *)
Definition labels_frontend (errorPrefix : string) (labels : Labels) (backend : string) (routes : gmap string Route) : Frontend := {|
  EntryPoints := GetSliceStringValue labels TraefikFrontendEntryPoints;
  fe_Backend := backend;
  Routes := routes;
  PassHostHeader := GetBoolValue labels TraefikFrontendPassHostHeader DefaultPassHostHeader;
  PassTLSCert := GetBoolValue labels TraefikFrontendPassTLSCert DefaultPassTLSCert;
  Priority := GetIntValue labels TraefikFrontendPriority DefaultFrontendPriority;
  BasicAuth := GetSliceStringValue labels TraefikFrontendAuthBasic;
  WhitelistSourceRange := [];
  fe_WhiteList := GetWhiteList labels;
  fe_Headers := GetHeaders labels;
  Errors := prefixed_pages errorPrefix (GetErrorPages (range labels));
  fe_RateLimit := GetRateLimit labels (range labels);
  fe_Redirect := GetRedirect labels |}.
End Labels.

(** ** Fields of a name *)

Lemma fields_go_sep f a c b : f c = true ->
  fields_go f (a +:+ String c b) = ((fields_go f a).1, (fields_go f a).2 ++ fields_func f b).
Proof.
  intros Hc. induction a as [|x a IH].
  - rewrite app_nil_str. simpl. unfold fields_func. rewrite Hc. by destruct (fields_go f b).
  - rewrite app_cons_str. simpl. rewrite IH. destruct (fields_go f a) as [h t]. simpl.
    destruct (f x); [|done]. by case_bool_decide.
Qed.

Lemma fields_func_app f a c b : f c = true -> fields_func f (a +:+ String c b) = fields_func f a ++ fields_func f b.
Proof.
  intros Hc. unfold fields_func at 1 2. rewrite fields_go_sep by done. destruct (fields_go f a) as [h t]. simpl.
  by case_bool_decide.
Qed.

(** Changing letters into letters leaves the number of fields alone. *)
Lemma fields_func_map_length f g s : (forall c, f (g c) = f c) ->
  length (fields_func f (str_map g s)) = length (fields_func f s).
Proof.
  intros Hg. unfold fields_func.
  assert (length (fields_go f (str_map g s)).2 = length (fields_go f s).2 /\
    ((fields_go f (str_map g s)).1 = "" <-> (fields_go f s).1 = "")) as [Hl Hn].
  { induction s as [|c s IH]; [done|]. simpl. rewrite Hg. destruct (fields_go f s) as [h t], (fields_go f (str_map g s)) as [h' t'].
    simpl in IH. destruct IH as [IHl IHn]. destruct (f c); simpl; [|done]. repeat case_bool_decide; simpl; naive_solver. }
  destruct (fields_go f s) as [h t], (fields_go f (str_map g s)) as [h' t']. simpl in *.
  repeat case_bool_decide; simpl; naive_solver.
Qed.

Lemma pretty_N_digits x s : str_forall is_digit s = true -> str_forall is_digit (pretty_N_go x s) = true.
Proof.
  revert s. induction (N.lt_wf_0 x) as [x _ IH]; intros s Hs. destruct (decide (x = 0)%N) as [->|Hx].
  - by rewrite pretty_N_go_0.
  - rewrite pretty_N_go_step by lia. apply IH; [apply N.div_lt; lia|]. simpl. rewrite Hs, andb_true_r.
    unfold pretty_N_char. by repeat case_match.
Qed.

Lemma pretty_nat_digits (n : nat) : str_forall is_digit (pretty n) = true /\ pretty n <> "".
Proof.
  split.
  - unfold pretty, pretty_nat. unfold pretty, pretty_N. case_decide; [done|]. by apply pretty_N_digits.
  - intros Hn. destruct n as [|n]; [done|].
    assert (forall x s, s <> "" \/ (0 < x)%N -> pretty_N_go x s <> "") as Hgo.
    { intros x. induction (N.lt_wf_0 x) as [x _ IH]; intros s Hx. destruct (decide (x = 0)%N) as [->|Hd].
      - rewrite pretty_N_go_0. destruct Hx; [done|lia].
      - rewrite pretty_N_go_step by lia. apply IH; [apply N.div_lt; lia|by left]. }
    unfold pretty, pretty_nat in Hn. unfold pretty, pretty_N in Hn. case_decide; [lia|]. revert Hn. apply Hgo. right. lia.
Qed.

(** ** Names are stable *)

Section Facts.
Context `{UnicodeLib}.

Definition name_char (c : ascii) : bool := is_lower c || is_upper c || is_digit c.
Definition is_ascii (s : string) : bool := str_forall (fun c => in_range 0 0x7F c) s.

Lemma byte_of_of_byte z : (0 <= z < 256)%Z -> byte_of (of_byte z) = z.
Proof. intros Hz. unfold byte_of, of_byte. rewrite N_ascii_embedding by lia. lia. Qed.

Lemma ascii_tail c s : in_range 0 0x7F c = true -> rune_tail c s = 0%nat.
Proof.
  intros Hc. unfold in_range in Hc.
  assert (forall b, (0x80 <= b <= 0xFF)%Z -> Ascii.eqb c (of_byte b) = false) as Hne.
  { intros b Hb. apply Ascii.eqb_neq. intros ->. rewrite byte_of_of_byte in Hc by lia. lia. }
  assert (forall lo hi, (0x80 <= lo)%Z -> in_range lo hi c = false) as Hr.
  { intros lo hi Hlo. unfold in_range. lia. }
  unfold rune_tail. by rewrite !Hr, !Hne by lia.
Qed.

Lemma rune_fields_ascii s keep : is_ascii s = true ->
  rune_fields s 0 keep = fields_go (fun c => negb (name_char c)) s.
Proof.
  revert keep. induction s as [|c s IH]; intros keep Hs; [done|]. unfold is_ascii in Hs. simpl in Hs. bool_simpl.
  simpl. unfold rune_at. rewrite ascii_tail by done. simpl. fold (name_char c).
  rewrite !IH by done. destruct (fields_go _ s). by destruct (name_char c).
Qed.

Lemma Normalize_ascii s : is_ascii s = true -> Normalize s = join (fields_func (fun c => negb (name_char c)) s) "-".
Proof. intros Hs. unfold Normalize, fields_func. rewrite rune_fields_ascii by done. by destruct (fields_go _ s). Qed.

Lemma name_char_ascii c : name_char c = true -> in_range 0 0x7F c = true.
Proof. unfold name_char. destruct c as [[] [] [] [] [] [] [] []]; by vm_compute. Qed.

Definition is_field (a : string) : Prop := a <> "" /\ str_forall (fun c => negb (negb (name_char c))) a = true.

Lemma fields_join l : Forall is_field l -> fields_func (fun c => negb (name_char c)) (join l "-") = l.
Proof.
  induction 1 as [|a l [Ha Hf] Hl IH]; [done|]. destruct l as [|b l]; [by apply fields_func_one|].
  rewrite join_cons by done. change ("-" +:+ join (b :: l) "-") with (String "-" (join (b :: l) "-")).
  rewrite fields_func_sep by done. by rewrite IH.
Qed.

Lemma join_fields_inj l k : Forall is_field l -> Forall is_field k -> join l "-" = join k "-" -> l = k.
Proof. intros Hl Hk Hj. by rewrite <-(fields_join l), <-(fields_join k), Hj. Qed.

Lemma join_names l : Forall is_field l -> str_forall (fun c => name_char c || Ascii.eqb c "-") (join l "-") = true.
Proof.
  induction 1 as [|a l [Ha Hf] Hl IH]; [done|].
  assert (str_forall (fun c => name_char c || Ascii.eqb c "-") a = true) as Ha'.
  { eapply str_forall_impl; [|exact Hf]. intros c Hc. simpl in Hc. rewrite negb_involutive in Hc. by rewrite Hc. }
  destruct l as [|b l]; [done|]. rewrite join_cons by done. rewrite !str_forall_app, Ha', IH. done.
Qed.

(** What is made of an ASCII name has letters, digits and single dashes between
    them only, and making it again changes nothing: names that went through
    [Normalize] can be compared with each other, and go through TOML keys. *)
Theorem Normalize_stable s : is_ascii s = true ->
  str_forall (fun c => name_char c || Ascii.eqb c "-") (Normalize s) = true /\ Normalize (Normalize s) = Normalize s.
Proof.
  intros Hs. rewrite (Normalize_ascii s) by done.
  assert (Forall is_field (fields_func (fun c => negb (name_char c)) s)) as Hf by apply fields_func_spec.
  pose proof (join_names _ Hf) as Hn. split; [done|]. rewrite Normalize_ascii; [by rewrite fields_join|].
  eapply str_forall_impl; [|exact Hn]. intros c [Hc|Hc]%orb_true_iff; [by apply name_char_ascii|]. by apply Ascii.eqb_eq in Hc as ->.
Qed.

(** Different names may become one: a service called [a.b] and one called [a-b]
    share what is generated for them. *)
Example names_collide : Normalize "a.b" = Normalize "a-b".
Proof. reflexivity. Qed.
End Facts.
