(* ===== verification/FileProvider.v ===== *)
(** * [provider/file/file.go]: configurations from files

    A file, or a directory with everything below it, is read into one
    configuration; a watcher reads it again when the file system changes.
    A part of the file system is a tree, as [os.Lstat] shows it: a link is no
    directory.  The template engine and the TOML decoder are parameters. *)
From S2P Require Import Prelude GoStrings Types.

(** ** Files *)

(** A file with what reading it answers, a directory with what listing it answers. *)
#[warnings="-register-all"]
Inductive entry :=
  | File (content : result string)
  | Dir (items : result (list (string * entry))).

(** What is at a path, if anything is. *)
Definition FileSystem : Type := string -> option entry.

Definition ReadFile (fs : FileSystem) (filename : string) : result string :=
  match fs filename with
  | Some (File content) => content
  | Some (Dir _) => Err "is a directory"
  | None => Err "no such file or directory"
  end.

(** [filepath.Split]: the name after the last slash. *)
Fixpoint file_name (path : string) : string :=
  match path with
  | "" => ""
  | String _ rest => if contains path "/" then file_name rest else path
  end.

(** [filepath.Dir], of a clean path. *)
Definition file_dir (path : string) : string :=
  let dir := trim_suffix (trim_suffix path (file_name path)) "/" in
  if nonempty dir then dir else if has_prefix path "/" then "/" else ".".

Example names : (file_name "/etc/traefik/a.toml", file_dir "/etc/traefik/a.toml", file_name "a.toml", file_dir "a.toml")
  = ("a.toml", "/etc/traefik", "a.toml", ".").
Proof. reflexivity. Qed.

Record Provider := mkProvider {
  Watch : bool;
  Filename : string;
  Directory : string;
  TraefikFile : string;
}.

(** [CreateConfiguration] executes the file as a template first. *)
Class FileDecoder := {
  CreateConfiguration : string -> result Configuration;
  DecodeConfiguration : string -> result Configuration;
}.

Section Loading.
Context `{FileDecoder}.

Definition empty_configuration : Configuration := mkConfiguration ∅ ∅ [].

(** The error names the file; a configuration without any table is the empty one. *)
Definition decode_file (parseTemplate : bool) (content : result string) : result Configuration :=
  match content with
  | Err err => Err ("error reading configuration file: " +:+ err)
  | Ok fileContent => if parseTemplate then CreateConfiguration fileContent else DecodeConfiguration fileContent
  end.

Definition loadFileConfig (fs : FileSystem) (filename : string) (parseTemplate : bool) : result Configuration :=
  decode_file parseTemplate (if nonempty filename then ReadFile fs filename else Err "invalid filename: ").

(** ** A directory *)

Definition is_config_name (name : string) : bool := has_suffix name ".toml" || has_suffix name ".tmpl".

(** [for name, x := range c { if _, exists := conf[name]; !exists { conf[name] = x } }] *)
Definition add_missing {A} (conf : gmap string A) (kv : string * A) : gmap string A :=
  match conf !! kv.1 with Some _ => conf | None => <[kv.1 := kv.2]> conf end.

(** [order] is how the tables of a file are ranged over; [tls_order] is how the
    set of the TLS configurations of a directory is: every decoded one is an
    address of its own, so all are kept, in any order. *)
Context `{order : MapOrder} (tls_order : list TLSConfiguration -> list TLSConfiguration).

Definition add_file (configuration c : Configuration) : Configuration :=
  mkConfiguration (foldl add_missing (Backends configuration) (range (Backends c)))
    (foldl add_missing (Frontends configuration) (range (Frontends c))) (TLSConfigs configuration).

Definition append_tls (configuration : Configuration) (tls : list TLSConfiguration) : Configuration :=
  mkConfiguration (Backends configuration) (Frontends configuration) (TLSConfigs configuration ++ tls).

(** Every failure comes with the configuration as far as it was read. *)
Definition partial_result : Type := Configuration * option error.

Section Items.
Context (load : entry -> Configuration -> partial_result).

(** The loop over the items of a directory; [tls] is [configTLSMaps]. *)
Fixpoint load_items (fileList : list (string * entry)) (configuration : Configuration) (tls : list TLSConfiguration) :
    partial_result * list TLSConfiguration :=
  match fileList with
  | [] => (configuration, None, tls)
  | (name, Dir _ as item) :: fileList' =>
      match load item configuration with
      | (configuration, Some err) =>
          (configuration, Some ("unable to load content configuration from subdirectory: " +:+ err), tls)
      | (configuration, None) => load_items fileList' configuration tls
      end
  | (name, File content) :: fileList' =>
      if negb (is_config_name name) then load_items fileList' configuration tls else
      match decode_file true content with
      | Err err => (configuration, Some err, tls)
      | Ok c => load_items fileList' (add_file configuration c) (tls ++ TLSConfigs c)
      end
  end.
End Items.

Fixpoint load_directory (directory : entry) (configuration : Configuration) : partial_result :=
  match directory with
  | File _ => (configuration, Some "unable to read directory: not a directory")
  | Dir (Err err) => (configuration, Some ("unable to read directory: " +:+ err))
  | Dir (Ok fileList) =>
      match load_items load_directory fileList configuration [] with
      | (configuration, Some err, _) => (configuration, Some err)
      | (configuration, None, tls) => (append_tls configuration (tls_order tls), None)
      end
  end.

Definition loadFileConfigFromDirectory (fs : FileSystem) (directory : string) : partial_result :=
  match fs directory with
  | None => (empty_configuration, Some "unable to read directory: no such file or directory")
  | Some e => load_directory e empty_configuration
  end.

(** ** The provider *)

Definition to_result (r : partial_result) : result Configuration :=
  match r with (c, None) => Ok c | (_, Some err) => Err err end.

(** Both callers drop what comes with an error. *)
Definition BuildConfiguration (p : Provider) (fs : FileSystem) : result Configuration :=
  if nonempty (Directory p) then to_result (loadFileConfigFromDirectory fs (Directory p))
  else if nonempty (Filename p) then loadFileConfig fs (Filename p) true
  else if nonempty (TraefikFile p) then loadFileConfig fs (TraefikFile p) false
  else Err "Error using file configuration backend, no filename defined".

Definition configuration_message (c : Configuration) : ConfigMessage := mkConfigMessage "file" (Some c).

(** The file or directory that must be there, and what is watched. *)
Definition watch_item (p : Provider) : string :=
  if nonempty (Directory p) then Directory p
  else if nonempty (Filename p) then Filename p else TraefikFile p.
Definition watched_path (p : Provider) : string :=
  if nonempty (Directory p) then Directory p else file_dir (watch_item p).

Definition watcherCallback (p : Provider) (fs : FileSystem) : list ConfigMessage :=
  match fs (watch_item p) with
  | None => []
  | Some _ => match BuildConfiguration p fs with Err _ => [] | Ok c => [configuration_message c] end
  end.

(** What the select of the watcher sees: the stop channel, a change of the named
    file (with the files as they are then), an error. *)
Inductive watcher_event := Stop | Changed (name : string) (fs : FileSystem) | WatcherError (err : error).

Definition on_event (p : Provider) (name : string) (fs : FileSystem) : list ConfigMessage :=
  if negb (nonempty (Directory p)) then
    if bool_decide (file_name name = file_name (watch_item p)) then watcherCallback p fs else []
  else watcherCallback p fs.

Fixpoint watcher_loop (p : Provider) (events : list watcher_event) : list ConfigMessage :=
  match events with
  | [] | Stop :: _ => []
  | Changed name fs :: events' => on_event p name fs ++ watcher_loop p events'
  | WatcherError _ :: events' => watcher_loop p events'
  end.

(** [watching] is the library's answer on a watcher of the path.  The goroutine
    may send some configurations, the first [early], before the one of the start
    is sent. *)
Definition Provide (p : Provider) (fs : FileSystem) (watching : string -> option error) (early : nat) (events : list watcher_event) :
    list ConfigMessage * option error :=
  match BuildConfiguration p fs with
  | Err err => ([], Some err)
  | Ok c =>
      if Watch p then
        match watching (watched_path p) with
        | Some err => ([], Some err)
        | None =>
            let sent := watcher_loop p events in
            (take early sent ++ configuration_message c :: drop early sent, None)
        end
      else ([configuration_message c], None)
  end.
End Loading.

(** ** The files of a directory are one configuration *)

(** Induction on a tree through its lists of items. *)
Lemma entry_nested_ind (P : entry -> Prop) :
  (forall content, P (File content)) -> (forall err, P (Dir (Err err))) ->
  (forall l, Forall (fun item => P item.2) l -> P (Dir (Ok l))) -> forall e, P e.
Proof.
  intros Hfile Herr Hdir. fix IH 1. intros [content|[l|err]]; [apply Hfile| |apply Herr].
  apply Hdir. induction l as [|[name e] l IHl]; constructor; [apply IH|apply IHl].
Qed.

Section Facts.
Context `{FileDecoder} `{order : MapOrder} {laws : MapOrderLaws order}.

Lemma add_missing_list {A} (l : list (string * A)) conf :
  foldl add_missing conf l = conf ∪ list_to_map (M := gmap string A) l.
Proof.
  revert conf. induction l as [|[k v] l IH]; intros conf; simpl; [by rewrite (right_id_L ∅ (∪))|].
  rewrite IH. apply map_eq. intros i. rewrite !lookup_union. unfold add_missing. simpl.
  destruct (conf !! k) eqn:Hk; destruct (decide (i = k)) as [->|Hi].
  - rewrite Hk. by destruct (list_to_map l !! k), (<[k:=v]> (list_to_map (M := gmap string A) l) !! k).
  - by rewrite lookup_insert_ne by done.
  - rewrite !lookup_insert_eq, Hk. by destruct (list_to_map l !! k).
  - by rewrite !lookup_insert_ne by done.
Qed.

Lemma add_missing_range {A} (conf m : gmap string A) : foldl add_missing conf (range m) = conf ∪ m.
Proof using laws.
  rewrite add_missing_list. f_equal. rewrite (list_to_map_proper _ (map_to_list m)).
  - apply list_to_map_to_list.
  - apply range_NoDup.
  - apply range_perm.
Qed.

(** The configurations of a directory's files, in the order they are read; what
    cannot be listed or read is an error among them. *)
Definition item_files (gather : entry -> list (result Configuration)) (item : string * entry) : list (result Configuration) :=
  match item with
  | (_, Dir _ as e) => gather e
  | (name, File content) => if is_config_name name then [decode_file true content] else []
  end.
Fixpoint gather (e : entry) : list (result Configuration) :=
  match e with
  | File _ => [Err "not a directory"]
  | Dir (Err err) => [Err err]
  | Dir (Ok items) => flat_map (fun item => item_files gather item) items
  end.

(** [load] did with a configuration what its files [rs] ask for. *)
Definition merges (rs : list (result Configuration)) (c : Configuration) (tls : list TLSConfiguration) (r : partial_result) (tls' : list TLSConfiguration) : Prop :=
  match mapM id rs with
  | Err _ => exists err, r.2 = Some err
  | Ok cs =>
      r.2 = None /\ Backends r.1 = Backends c ∪ ⋃ (map Backends cs) /\ Frontends r.1 = Frontends c ∪ ⋃ (map Frontends cs) /\
      TLSConfigs r.1 ++ tls' ≡ₚ TLSConfigs c ++ tls ++ concat (map TLSConfigs cs)
  end.

Lemma map_union_assoc {A} (a b c : gmap string A) : a ∪ (b ∪ c) = (a ∪ b) ∪ c.
Proof. by rewrite (assoc_L (∪)). Qed.

Lemma mapM_app_result {A} (l k : list (result A)) :
  mapM id (l ++ k) = (x ← mapM id l; y ← mapM id k; Ok (x ++ y)).
Proof.
  induction l as [|[a|err] l IH]; simpl; [by destruct (mapM id k)| |done].
  rewrite IH. destruct (mapM id l); simpl; [|done]. by destruct (mapM id k).
Qed.

Lemma union_list_app {A} (l k : list (gmap string A)) : ⋃ (l ++ k) = ⋃ l ∪ ⋃ k.
Proof. induction l as [|m l IH]; simpl; [by rewrite (left_id_L ∅ (∪))|]. by rewrite IH, map_union_assoc. Qed.

Lemma load_items_merges (load : entry -> Configuration -> partial_result) items c tls :
  Forall (fun item => forall c, merges (gather item.2) c [] (load item.2 c) []) items ->
  exists r tls', load_items load items c tls = (r, tls') /\
    merges (flat_map (item_files gather) items) c tls r tls'.
Proof using laws.
  revert c tls. induction items as [|[name e] items IH]; intros c tls Hall.
  - eexists _, _. split; [done|]. unfold merges. simpl. rewrite !(right_id_L ∅ (∪)), app_nil_r. done.
  - apply Forall_cons in Hall as [He Hall]. simpl in He. simpl. destruct e as [content|dir].
    + destruct (is_config_name name); simpl; [|by apply IH].
      destruct (decode_file true content) as [c'|err].
      * destruct (IH (add_file c c') (tls ++ TLSConfigs c') Hall) as (r & tls' & -> & Hm). eexists _, _. split; [done|].
        revert Hm. unfold merges. simpl. destruct (mapM id _) as [cs|err]; simpl; [|done].
        intros (-> & -> & -> & HP). rewrite !add_missing_range, !map_union_assoc, <- !app_assoc in *. done.
      * eexists _, _. split; [done|]. unfold merges. simpl. eauto.
    + specialize (He c). change (item_files gather (name, Dir dir)) with (gather (Dir dir)).
      generalize dependent (gather (Dir dir)). intros files He. unfold merges in *. destruct (load (Dir dir) c) as [c' [err|]] eqn:Hl; simpl in He |- *.
      * eexists _, _. split; [done|]. rewrite mapM_app_result.
        destruct (mapM id files); [by destruct He|]. simpl. eauto.
      * destruct (IH c' tls Hall) as (r & tls' & -> & Hm). eexists _, _. split; [done|]. rewrite mapM_app_result.
        destruct (mapM id files) as [cs|]; [|by destruct He]. destruct He as (_ & HB & HF & HT).
        destruct (mapM id (flat_map _ items)) as [cs'|]; simpl; [|done]. destruct Hm as (-> & -> & -> & HP).
        rewrite !map_app, !union_list_app, concat_app, HB, HF, !map_union_assoc. split_and!; [done..|].
        rewrite HP. rewrite !app_nil_r in HT. rewrite HT. by solve_Permutation.
Qed.

Context (tls_order : list TLSConfiguration -> list TLSConfiguration) (tls_perm : forall l, tls_order l ≡ₚ l).

Lemma load_directory_merges e c : merges (gather e) c [] (load_directory tls_order e c) [].
Proof using laws tls_perm.
  revert c. induction e as [content|err|items IH] using entry_nested_ind; intros c.
  - unfold merges. simpl. eauto.
  - unfold merges. simpl. eauto.
  - destruct (load_items_merges (load_directory tls_order) items c [] IH) as (r & tls & Hl & Hm).
    change (load_directory tls_order (Dir (Ok items)) c) with
      (match load_items (load_directory tls_order) items c [] with
       | (configuration, Some err, _) => (configuration, Some err)
       | (configuration, None, tls) => (append_tls configuration (tls_order tls), None)
       end). rewrite Hl. change (gather (Dir (Ok items))) with (flat_map (item_files gather) items).
    revert Hm. unfold merges. destruct r as [c' [err|]]; simpl; (destruct (mapM id _) as [cs|]; [|by eauto]); intros (? & -> & -> & HP); [done|].
    rewrite app_nil_r, tls_perm. done.
Qed.

(** C19: reading a directory gives one configuration made of all the files below
    it: of the backends, and of the frontends, of a name the first that is met
    on the way through the tree is taken, and every TLS configuration is there;
    a file that cannot be read or decoded, or a directory that cannot be
    listed, gives no configuration at all. *)
Theorem directory_is_merged e :
  match mapM id (gather e) with
  | Err _ => is_ok (to_result (load_directory tls_order e empty_configuration)) = false
  | Ok cs =>
      exists c, to_result (load_directory tls_order e empty_configuration) = Ok c /\
        Backends c = ⋃ (map Backends cs) /\ Frontends c = ⋃ (map Frontends cs) /\
        TLSConfigs c ≡ₚ concat (map TLSConfigs cs)
  end.
Proof using laws tls_perm.
  pose proof (load_directory_merges e empty_configuration) as Hm. revert Hm. unfold merges.
  destruct (load_directory _ e _) as [c err]; simpl. destruct (mapM id _) as [cs|]; [|by intros [err' ->]].
  rewrite !(left_id_L ∅ (∪)), app_nil_r. intros (-> & ? & ? & ?). by exists c.
Qed.
End Facts.

Section WatcherFacts.
Context `{FileDecoder} `{order : MapOrder} (tls_order : list TLSConfiguration -> list TLSConfiguration).

(** A message of the watcher is a configuration read as a whole: a state of the
    files that cannot be read, as while one is being written, sends nothing, and
    the configuration before it stays. *)
Theorem watcher_sends_whole p events m : m ∈ watcher_loop tls_order p events ->
  exists name fs c, Changed name fs ∈ events /\ BuildConfiguration tls_order p fs = Ok c /\ m = configuration_message c.
Proof.
  induction events as [|[|name fs|err] events IH]; simpl; [by intros ?%elem_of_nil..| |].
  - intros [Hm|Hm]%elem_of_app.
    + assert (m ∈ watcherCallback tls_order p fs) as Hc by (revert Hm; unfold on_event; repeat case_match; set_solver).
      unfold watcherCallback in Hc. destruct (fs (watch_item p)); [|by apply elem_of_nil in Hc].
      destruct (BuildConfiguration tls_order p fs) as [c|] eqn:Hb; [|by apply elem_of_nil in Hc].
      apply list_elem_of_singleton in Hc as ->. exists name, fs, c. split_and!; [left|done|done].
    + destruct (IH Hm) as (n & fs' & c & ? & ? & ?). exists n, fs', c. split_and!; [by right|done|done].
  - intros Hm. destruct (IH Hm) as (n & fs' & c & ? & ? & ?). exists n, fs', c. split_and!; [by right|done|done].
Qed.
End WatcherFacts.

(** The addresses of the TLS configurations decide their order, so that reading
    the same files twice need not give equal configurations. *)
Theorem tls_order_matters `{FileDecoder} a b : a <> b ->
  let files := Dir (Ok [("a.toml", File (Ok "a"))]) in
  CreateConfiguration "a" = Ok (mkConfiguration ∅ ∅ [a; b]) ->
  load_directory (order := forward_order) id files empty_configuration
  <> load_directory (order := forward_order) reverse files empty_configuration.
Proof.
  intros Hab files Hc. subst files. simpl. rewrite Hc. simpl. unfold append_tls, id, reverse. simpl. intros Heq.
  injection Heq as Heq _. by apply Hab.
Qed.

Definition sample_decoder : FileDecoder := {|
  CreateConfiguration content := if bool_decide (content = "") then Err "empty" else
    Ok (mkConfiguration {["b" := backend_of {["s" := mkServer content 1]}]} ∅ [mkTLSConfiguration [content] None]);
  DecodeConfiguration _ := Err "not used" |}.
Definition sample_tree : entry := Dir (Ok [("a", Dir (Ok [("x.toml", File (Ok "first"))])); ("b.toml", File (Ok "second")); ("c", File (Ok ""))]).

Example merged_sample : 
  to_result (load_directory (order := forward_order) (H := sample_decoder) reverse sample_tree empty_configuration)
  = Ok (mkConfiguration {["b" := backend_of {["s" := mkServer "first" 1]}]} ∅
      [mkTLSConfiguration ["first"] None; mkTLSConfiguration ["second"] None]).
Proof. reflexivity. Qed.

Lemma directory_is_merged_witness : exists c, 
  to_result (load_directory (order := backward_order) (H := sample_decoder) reverse sample_tree empty_configuration) = Ok c /\
  Backends c !! "b" = Some (backend_of {["s" := mkServer "first" 1]}).
Proof.
  assert (forall l : list TLSConfiguration, reverse l ≡ₚ l) as Hr by (intros l; apply reverse_Permutation).
  pose proof (directory_is_merged (H := sample_decoder) (order := backward_order) reverse Hr sample_tree) as Hm.
  cbn [mapM gather sample_tree flat_map item_files] in Hm. simpl in Hm.
  destruct Hm as (c & Hc & HB & _). exists c. split; [exact Hc|]. rewrite HB. reflexivity.
Defined.
