(* ===== verification/ConsulCatalog.v ===== *)
(** * [provider/consulcatalog/]: configurations from the services of Consul

    The tags of a service are its labels; the healthy nodes of a service that
    pass the constraints are the servers of its backend.  What is asked of Consul
    is a parameter, and so are the template engine and the templates of the
    rules. *)
From S2P Require Import Prelude GoStrings GoStringsFacts GoStrconv Types LabelNames Label Base64 Sha256 Cookie Domains ProviderBase Kv.

(** ** Data *)

(** What is used of an [api.ServiceEntry]. *)
Record ServiceEntry := mkServiceEntry {
  node_Address : string;
  se_Service : string;
  se_Address : string;
  se_Port : Z;
  se_Tags : list string;
}.

Record serviceUpdate := mkServiceUpdate {
  ServiceName : string;
  Attributes : list string;
  TraefikLabels : Labels;
}.

(** [nil] for the service is what comes with an error only. *)
Record catalogUpdate := mkCatalogUpdate { cu_Service : serviceUpdate; cu_Nodes : list ServiceEntry }.

Record Provider := mkProvider {
  Domain : string;
  ExposedByDefault : bool;
  cc_Prefix : string;
  FrontEndRule : string;
  Constraints : list Constraint;
}.

(** ** Tags *)

Definition names_tag (lowerName tag : string) : bool :=
  let lowerTag := to_lower tag in has_prefix lowerTag (lowerName +:+ "=") || bool_decide (lowerTag = lowerName).

Definition hasTag (name : string) (tags : list string) : bool := existsb (names_tag (to_lower name)) tags.

Definition tag_value (tag : string) : string := match split2 tag "=" with [_; v] => v | _ => tag end.

Definition getTag (name : string) (tags : list string) (defaultValue : string) : string :=
  match List.find (names_tag (to_lower name)) tags with Some tag => tag_value tag | None => defaultValue end.

Definition tag_label (prefix : string) (labels : Labels) (tag : string) : Labels :=
  if has_prefix tag prefix then
    match split2 tag "=" with
    | [k; v] => <[LabelNames.Prefix +:+ trim_prefix k (prefix +:+ ".") := v]> labels
    | _ => labels
    end
  else labels.
Definition tagsToNeutralLabels (tags : list string) (prefix : string) : Labels := foldl (tag_label prefix) ∅ tags.

Section Attributes.
Context (p : Provider).

Definition getPrefixedName (name : string) : string :=
  if nonempty (cc_Prefix p) && nonempty name then cc_Prefix p +:+ "." +:+ name else name.
Definition hasAttribute (name : string) (tags : list string) : bool := hasTag (getPrefixedName name) tags.
Definition getAttribute (name : string) (tags : list string) (defaultValue : string) : string :=
  getTag (getPrefixedName name) tags defaultValue.

(** A value that does not parse, or is not there, is the default. *)
Definition parsed_attribute {A} (parse : string -> result A) (name : string) (tags : list string) (defaultValue : A) : A :=
  let rawValue := getTag (getPrefixedName name) tags "" in
  if negb (nonempty rawValue) then defaultValue else
  match parse rawValue with Err _ => defaultValue | Ok value => value end.
Definition getInt64Attribute (name : string) (tags : list string) (defaultValue : Z) : Z :=
  parsed_attribute ParseInt name tags defaultValue.
Definition getIntAttribute (name : string) (tags : list string) (defaultValue : Z) : Z :=
  parsed_attribute Atoi name tags defaultValue.
Definition getBoolAttribute (name : string) (tags : list string) (defaultValue : bool) : bool :=
  parsed_attribute ParseBool name tags defaultValue.
Definition getSliceAttribute (name : string) (tags : list string) : list string :=
  let rawValue := getTag (getPrefixedName name) tags "" in
  if negb (nonempty rawValue) then [] else SplitAndTrimString rawValue ",".

(** ** Nodes ([consul_catalog.go]) *)

Definition isServiceEnabled (node : ServiceEntry) : bool :=
  parsed_attribute ParseBool SuffixEnable (se_Tags node) (ExposedByDefault p).

Fixpoint str_drop (n : nat) (s : string) : string :=
  match n, s with S n', String _ s' => str_drop n' s' | _, _ => s end.

Definition getConstraintTags (tags : list string) : list string :=
  let prefix := getPrefixedName "tags=" in
  flat_map (fun tag =>
    if has_prefix (to_lower tag) prefix then SplitAndTrimString (str_drop (String.length prefix) tag) "," else []) tags.

Definition nodeFilter (node : ServiceEntry) : bool :=
  if negb (isServiceEnabled node) then false else
  match MatchConstraints (Constraints p) (getConstraintTags (se_Tags node)) with
  | (false, Some _) => false
  | _ => true
  end.

(** ** Sets of strings ([github.com/BurntSushi/ty/fun]) *)

Context `{order : MapOrder}.

Definition fun_Set (xs : list string) : gmap string bool := list_to_map (map (fun x => (x, true)) xs).
Definition fun_Keys {A} (m : gmap string A) : list string := (range m).*1.
Definition fun_Union (a b : gmap string bool) : gmap string bool := a ∪ b.
Definition fun_Difference (a b : gmap string bool) : gmap string bool := a ∖ b.

(** The tags of all the nodes, each once. *)
Definition merge_tags (nodes : list ServiceEntry) : list string :=
  foldl (fun set node => fun_Keys (fun_Union (fun_Set set) (fun_Set (se_Tags node)))) [] nodes.

(** [data] is what the health endpoint answers on the passing nodes. *)
Definition healthyNodes (health_Service : string -> result (list ServiceEntry)) (service : string) : result catalogUpdate :=
  data ← health_Service service;
  let nodes := List.filter nodeFilter data in
  let tags := merge_tags nodes in
  Ok (mkCatalogUpdate (mkServiceUpdate service tags (tagsToNeutralLabels tags (cc_Prefix p))) nodes).

(** The loop of [getNodes] over the names of the index. *)
Fixpoint getNodes_loop (health_Service : string -> result (list ServiceEntry)) (services visited : list string) : result (list catalogUpdate) :=
  match services with
  | [] => Ok []
  | service :: services' =>
      let name := to_lower service in
      if negb (contains name " ") && negb (bool_decide (name ∈ visited)) then
        healthy ← healthyNodes health_Service name;
        nodes ← getNodes_loop health_Service services' (name :: visited);
        Ok (match cu_Nodes healthy with [] => nodes | _ => healthy :: nodes end)
      else getNodes_loop health_Service services' visited
  end.
Definition getNodes (health_Service : string -> result (list ServiceEntry)) (index : gmap string (list string)) : result (list catalogUpdate) :=
  getNodes_loop health_Service (fun_Keys index) [].
End Attributes.

(** ** Backends and servers ([config.go]) *)

Definition getServiceBackendName (service : serviceUpdate) : string := to_lower (ServiceName service).
Definition getNodeBackendName (node : ServiceEntry) : string := to_lower (se_Service node).
Definition getBackendAddress (node : ServiceEntry) : string :=
  if nonempty (se_Address node) then se_Address node else node_Address node.

(** [base64.URLEncoding] *)
Definition b64_url (s : string) : string :=
  str_map (fun c => if Ascii.eqb c "+" then "-"%char else if Ascii.eqb c "/" then "_"%char else c) (b64_encode s).

Definition string_of_bytes (l : list Z) : string := String.string_of_list_ascii (map of_byte l).

Definition node_text (node : ServiceEntry) : string :=
  se_Service node +:+ se_Address node +:+ pretty (se_Port node) +:+ join (se_Tags node) "".

Definition getServerName `{UnicodeLib} (node : ServiceEntry) (index : nat) : string :=
  Normalize (se_Service node +:+ "-" +:+ pretty index +:+ "-" +:+ b64_url (string_of_bytes (sha1 (node_text node)))).

(** The names that [config_test.go] expects. *)
Example server_names :
  let name tags := getServerName (H := ascii_only) (mkServiceEntry "" "api" "10.0.0.1" 80 tags) in
  (name [] 0, name ["traefik.weight=42"; "traefik.enable=true"] 1, name ["a funny looking tag"] 2)
  = ("api-0-eUSiqD6uNvvh6zxsY-OeRi8ZbaE", "api-1-eJ8MR2JxjXyZgs1bhurVa0-9OI8", "api-2-lMCDCsG7sh0SCXOHo4oBOQB-9D4").
Proof. vm_compute. reflexivity. Qed.

(** The options of the backend given by names of before: they stand where the
    new ones are not given. *)
Definition deprecated_label (old new : string) (labels : Labels) : Labels :=
  match labels !! old with
  | Some v => if negb (Has labels new) then <[new := v]> labels else labels
  | None => labels
  end.
Definition getLoadBalancer (labels : Labels) : option LoadBalancer :=
  GetLoadBalancer (deprecated_label TraefikBackendLoadBalancer TraefikBackendLoadBalancerMethod labels).
Definition getCircuitBreaker (labels : Labels) : option CircuitBreaker :=
  GetCircuitBreaker (deprecated_label TraefikBackendCircuitBreaker TraefikBackendCircuitBreakerExpression labels).

Definition nodeSorter_Less (lEntry rEntry : ServiceEntry) : bool :=
  let ls := to_lower (se_Service lEntry) in
  let lr := to_lower (se_Service rEntry) in
  if negb (bool_decide (ls = lr)) then string_lt ls lr
  else if negb (bool_decide (se_Address lEntry = se_Address rEntry)) then string_lt (se_Address lEntry) (se_Address rEntry)
  else if negb (bool_decide (node_Address lEntry = node_Address rEntry)) then string_lt (node_Address lEntry) (node_Address rEntry)
  else (se_Port lEntry <? se_Port rEntry)%Z.

(** [text/template]: the trees a text is parsed to, the one of the template itself
    under [rule_root] and those of its [define]s under theirs, or nothing for a
    text with an error; whether a tree is empty; and the execution of the
    template, with the trees it is associated with, on the name of a service,
    the domain and the attributes. *)
Class RuleTemplate := {
  rule_tree : Type;
  rule_Parse : string -> option (gmap string rule_tree);
  rule_IsEmptyTree : rule_tree -> bool;
  rule_Execute : gmap string rule_tree -> string -> string -> list string -> result string;
}.
Definition rule_root : string := "consul catalog frontend rule".

Section Build.
Context (p : Provider) `{UnicodeLib} `{TimeLib} `{order : MapOrder} `{RuleTemplate}.

Definition getWeight (tags : list string) : Z :=
  let deprecatedWeightTag := "backend." +:+ SuffixWeight in
  if hasAttribute p deprecatedWeightTag tags then getIntAttribute p deprecatedWeightTag tags DefaultWeight
  else getIntAttribute p SuffixWeight tags DefaultWeight.

Definition getServer (node : ServiceEntry) : Server :=
  mkServer (getAttribute p SuffixProtocol (se_Tags node) DefaultProtocol +:+ "://"
            +:+ JoinHostPort (getBackendAddress node) (pretty (se_Port node)))
    (getWeight (se_Tags node)).

(** [AddParseTree] for every tree of a text: an empty one does not replace a tree
    that is there. *)
Definition add_trees (trees templates : gmap string rule_tree) : gmap string rule_tree :=
  union_with (fun tree old => Some (if rule_IsEmptyTree tree then old else tree)) trees templates.

(** The one template of the provider is parsed anew for every service: the trees
    it is associated with are a state of the loop. *)
Definition execute_rule (customFrontendRule : string) (service : serviceUpdate) (templates : gmap string rule_tree) :
    string * gmap string rule_tree :=
  match rule_Parse customFrontendRule with
  | None => ("", templates)
  | Some trees =>
      let templates := add_trees trees templates in
      (match rule_Execute templates (ServiceName service) (Domain p) (Attributes service) with Ok rule => rule | Err _ => "" end,
       templates)
  end.
Definition getFrontendRule (service : serviceUpdate) : gmap string rule_tree -> string * gmap string rule_tree :=
  let customFrontendRule := GetStringValue (TraefikLabels service) TraefikFrontendRule "" in
  execute_rule (if nonempty customFrontendRule then customFrontendRule else FrontEndRule p) service.

(** [sort.Sort] *)
Context (sort_nodes : list ServiceEntry -> list ServiceEntry).

Definition with_nodes (catalog : list catalogUpdate) : list catalogUpdate :=
  List.filter (fun info => match cu_Nodes info with [] => false | _ => true end) catalog.
Definition services (catalog : list catalogUpdate) : list serviceUpdate := map cu_Service (with_nodes catalog).
Definition allNodes (catalog : list catalogUpdate) : list ServiceEntry := sort_nodes (flat_map cu_Nodes (with_nodes catalog)).

(** ** The template [templates/consul_catalog.tmpl] *)

Definition backend_name (name : string) : string := "backend-" +:+ name.
Definition frontend_name (name : string) : string := "frontend-" +:+ name.

(** There is no table for a backend that has no options. *)
Definition service_backend (service : serviceUpdate) : Backend :=
  let labels := TraefikLabels service in
  mkBackend ∅ (getCircuitBreaker labels) (getLoadBalancer labels) (GetMaxConn labels) (GetHealthCheck labels) (GetBuffering labels).
Definition add_service (backends : gmap string Backend) (service : serviceUpdate) : gmap string Backend :=
  let b := service_backend service in
  if has_options b then <[backend_name (getServiceBackendName service) := b]> backends else backends.
Definition add_node (backends : gmap string Backend) (i_node : nat * ServiceEntry) : gmap string Backend :=
  let '(index, node) := i_node in
  let name := backend_name (getNodeBackendName node) in
  let b := default (backend_of ∅) (backends !! name) in
  <[name := set_Servers (<[getServerName node index := getServer node]> (Servers b)) b]> backends.

Definition template_backends (catalog : list catalogUpdate) : gmap string Backend :=
  foldl add_node (foldl add_service ∅ (services catalog)) (imap pair (allNodes catalog)).

Definition service_frontend (service : serviceUpdate) (rule : string) : Frontend :=
  labels_frontend "backend-" (TraefikLabels service) (backend_name (getServiceBackendName service))
    {["route-host-" +:+ ServiceName service := mkRoute rule]}.

Fixpoint template_frontends (l : list serviceUpdate) (templates : gmap string rule_tree) :
    gmap string Frontend * gmap string rule_tree :=
  match l with
  | [] => (∅, templates)
  | service :: l' =>
      let '(rule, templates) := getFrontendRule service templates in
      let '(frontends, templates) := template_frontends l' templates in
      (<[frontend_name (ServiceName service) := service_frontend service rule]> frontends, templates)
  end.

(** The trees of the rule's template are kept from one configuration to the next. *)
Definition buildConfigurationV2 `{TemplateEngine} (catalog : list catalogUpdate) (templates : gmap string rule_tree) :
    option Configuration * gmap string rule_tree :=
  let '(frontends, templates) := template_frontends (services catalog) templates in
  (configuration_or_nil (mkConfiguration (template_backends catalog) frontends []), templates).

(** ** The getters of [templates/consul_catalog-v1.tmpl] ([deprecated_config.go]) *)

Definition getFrontendRuleV1 (service : serviceUpdate) : gmap string rule_tree -> string * gmap string rule_tree :=
  let customFrontendRule := getAttribute p SuffixFrontendRule (Attributes service) "" in
  execute_rule (if nonempty customFrontendRule then customFrontendRule else FrontEndRule p) service.
Definition hasMaxConnAttributesV1 (attributes : list string) : bool :=
  nonempty (getAttribute p SuffixBackendMaxConnAmount attributes "")
  && nonempty (getAttribute p SuffixBackendMaxConnExtractorFunc attributes "").
Definition getEntryPointsV1 (entryPoints : string) : list string := split entryPoints ",".
Definition getStickyV1 (tags : list string) : string :=
  let stickyTag := getAttribute p SuffixBackendLoadBalancerSticky tags "" in
  if nonempty stickyTag then stickyTag else "false".
Definition hasStickinessLabelV1 (tags : list string) : bool :=
  let stickinessTag := getAttribute p SuffixBackendLoadBalancerStickiness tags "" in
  nonempty stickinessTag && equal_fold (trim_space stickinessTag) "true".
Definition getStickinessCookieNameV1 (tags : list string) : string :=
  getAttribute p SuffixBackendLoadBalancerStickinessCookieName tags "".
End Build.
