(* ===== verification/ConsulFacts.v ===== *)
(** * Properties of the configurations from Consul

    Every node is a server of its backend, under a name of its own; what is
    configured does not depend on the order in which Go enumerates the services;
    which services and nodes are taken. *)
From S2P Require Import Prelude GoStrings GoStringsFacts GoStrconv Types LabelNames Label Base64 Sha256 Cookie Domains ProviderBase Kv ConsulCatalog.

(** ** Names of servers *)

Lemma b64_value_ascii c n : b64_value c = Some n -> in_range 0 0x7F c = true.
Proof. destruct c as [[] [] [] [] [] [] [] []]; by vm_compute. Qed.

Lemma b64_encode_ascii s : is_ascii (b64_encode s) = true.
Proof.
  assert (forall n, (0 <= n < 64)%Z -> in_range 0 0x7F (b64_char n) = true) as Hc.
  { intros n Hn. eapply b64_value_ascii. by apply b64_value_char. }
  unfold is_ascii. induction s as [|a|a b|a b c s IH] using string_ind3; [done|..]; simpl.
  all: pose proof (byte_of_bounds a) as Ha.
  - pose proof (b64_bounds (byte_of a) 0 0 Ha ltac:(lia) ltac:(lia)). rewrite !Hc by tauto. done.
  - pose proof (b64_bounds (byte_of a) (byte_of b) 0 Ha (byte_of_bounds b) ltac:(lia)). rewrite !Hc by tauto. done.
  - pose proof (b64_bounds _ _ _ Ha (byte_of_bounds b) (byte_of_bounds c)). rewrite !Hc, IH by tauto. done.
Qed.

Lemma b64_url_ascii s : is_ascii (b64_url s) = true.
Proof.
  pose proof (b64_encode_ascii s) as Ha. revert Ha. unfold b64_url, is_ascii. generalize (b64_encode s) as t.
  induction t as [|c t IH]; [done|]. simpl. intros; bool_simpl. rewrite IH by done. by repeat case_match; rewrite ?H.
Qed.

Section Names.
Context `{UnicodeLib}.

Lemma digits_name s : str_forall is_digit s = true -> str_forall (fun c => negb (negb (name_char c))) s = true.
Proof. apply str_forall_impl. intros c Hc. rewrite negb_involutive. unfold name_char. by rewrite Hc, orb_true_r. Qed.

Lemma digits_ascii s : str_forall is_digit s = true -> is_ascii s = true.
Proof. apply str_forall_impl. intros c Hc. apply name_char_ascii. unfold name_char. by rewrite Hc, orb_true_r. Qed.

(** The name of a server, field by field. *)
Lemma getServerName_fields node index : is_ascii (se_Service node) = true ->
  exists rest, Forall is_field rest /\
    getServerName node index
    = join (fields_func (fun c => negb (name_char c)) (se_Service node) ++ pretty index :: rest) "-".
Proof.
  intros Hs. unfold getServerName. set (f := fun c => negb (name_char c)).
  set (hash := b64_url _). exists (fields_func f hash). split; [apply fields_func_spec|].
  destruct (pretty_nat_digits index) as [Hd Hne].
  assert (is_ascii hash = true) as Hh by apply b64_url_ascii.
  change ("-" +:+ hash) with (String "-" hash). rewrite Normalize_ascii.
  - change (fun c => negb (name_char c)) with f.
    change ("-" +:+ pretty index +:+ String "-" hash) with (String "-" (pretty index +:+ String "-" hash)).
    rewrite !fields_func_app by done. by rewrite (fields_func_one f (pretty index)) by (done || by apply digits_name).
  - pose proof (digits_ascii (pretty index) Hd) as Hp. unfold is_ascii in *. change ("-" +:+ pretty index +:+ String "-" hash) with (String "-" (pretty index +:+ String "-" hash)).
    rewrite str_forall_app. cbn [str_forall]. rewrite str_forall_app. cbn [str_forall].
    by rewrite Hs, Hp, Hh.
Qed.

Lemma lower_name_char c : name_char (lower c) = name_char c.
Proof. destruct c as [[] [] [] [] [] [] [] []]; by vm_compute. Qed.

Lemma getServerName_inj n1 n2 i j : is_ascii (se_Service n1) = true -> is_ascii (se_Service n2) = true ->
  getNodeBackendName n1 = getNodeBackendName n2 -> getServerName n1 i = getServerName n2 j -> i = j.
Proof.
  intros H1 H2 Hb Hn.
  destruct (getServerName_fields n1 i H1) as (r1 & Hr1 & Hn1), (getServerName_fields n2 j H2) as (r2 & Hr2 & Hn2).
  rewrite Hn1, Hn2 in Hn. set (f := fun c => negb (name_char c)) in *.
  assert (forall k : nat, is_field (pretty k)) as Hk.
  { intros k. destruct (pretty_nat_digits k). split; [done|by apply digits_name]. }
  apply join_fields_inj in Hn; [|apply Forall_app; split; [apply fields_func_spec|by constructor]..].
  assert (length (fields_func f (se_Service n1)) = length (fields_func f (se_Service n2))) as Hl.
  { unfold getNodeBackendName, to_lower in Hb. assert (forall c, f (lower c) = f c) as Hlow by (intros c; unfold f; by rewrite lower_name_char).
    rewrite <-(fields_func_map_length f lower (se_Service n1)), <-(fields_func_map_length f lower (se_Service n2)) by done. by rewrite Hb. }
  apply app_inj_1 in Hn as [_ Hn]; [|done]. injection Hn as Hn _. by apply (inj pretty) in Hn.
Qed.
End Names.

(** ** Backends *)

Section Backends.
Context (p : Provider) `{UnicodeLib} `{TimeLib} `{order : MapOrder}.

Definition node_backend (node : ServiceEntry) : string := backend_name (getNodeBackendName node).

(** The servers of the nodes, when names tell the nodes of a backend apart. *)
Lemma add_nodes_spec (l : list (nat * ServiceEntry)) m :
  (forall k b, m !! k = Some b -> Servers b = ∅) ->
  (forall x y, x ∈ l -> y ∈ l -> node_backend x.2 = node_backend y.2 -> getServerName x.2 x.1 = getServerName y.2 y.1 -> x = y) ->
  forall k name s,
  (exists b, foldl (add_node p) m l !! k = Some b /\ Servers b !! name = Some s)
  <-> (exists i n, (i, n) ∈ l /\ k = node_backend n /\ name = getServerName n i /\ s = getServer p n).
Proof.
  intros Hm. induction l as [|[i n] l IH] using rev_ind; intros Hinj k name s.
  - simpl. split; [|by intros (? & ? & ?%elem_of_nil & _)]. intros (b & Hb & Hs). by rewrite (Hm k b Hb) in Hs.
  - rewrite foldl_app. simpl. set (acc := foldl _ m l) in *.
    assert (forall x y, x ∈ l -> y ∈ l -> node_backend x.2 = node_backend y.2 -> getServerName x.2 x.1 = getServerName y.2 y.1 -> x = y) as Hinj'
      by (intros; apply Hinj; set_solver).
    specialize (IH Hinj'). fold (node_backend n). setoid_rewrite elem_of_app. setoid_rewrite list_elem_of_singleton.
    destruct (decide (k = node_backend n)) as [->|Hk].
    + rewrite lookup_insert_eq. destruct (decide (name = getServerName n i)) as [->|Hname].
      * transitivity (s = getServer p n).
        { split; [|intros ->; eexists; split; [done|simpl; by rewrite lookup_insert_eq]].
          intros (b & [= <-] & Hs). simpl in Hs. rewrite lookup_insert_eq in Hs. by simplify_eq. }
        split; [intros ->; exists i, n; eauto|]. intros (j & n' & Hin & Hb & Hsn & ->).
        destruct Hin as [Hin|[= -> ->]]; [|done].
        assert ((j, n') = (i, n)) as [= -> ->]; [|done]. apply Hinj; [set_solver|set_solver|done|done].
      * transitivity (exists b, acc !! node_backend n = Some b /\ Servers b !! name = Some s).
        { split.
          - intros (b & [= <-] & Hs). simpl in Hs. rewrite lookup_insert_ne in Hs by done.
            destruct (acc !! node_backend n) as [b|]; [by exists b|]. simpl in Hs. by rewrite lookup_empty in Hs.
          - intros (b & -> & Hs). eexists. split; [done|]. simpl. by rewrite lookup_insert_ne. }
        rewrite IH. split; intros (j & n' & Hin & ? & ? & ?); exists j, n'; [by eauto|].
        destruct Hin as [Hin|[= -> ->]]; [by eauto|done].
    + rewrite lookup_insert_ne by done. rewrite IH.
      split; intros (j & n' & Hin & ? & ? & ?); exists j, n'; [by eauto|].
      destruct Hin as [Hin|[= -> ->]]; [by eauto|done].
Qed.

Lemma add_services_empty l m : (forall k b, m !! k = Some b -> Servers b = ∅) ->
  forall k b, foldl (add_service) m l !! k = Some b -> Servers b = ∅.
Proof.
  revert m. induction l as [|s l IH]; intros m Hm; [done|]. simpl. apply IH.
  intros k b. unfold add_service. destruct (has_options _); [|apply Hm].
  destruct (decide (k = backend_name (getServiceBackendName s))) as [->|Hk].
  - rewrite lookup_insert_eq. by intros [= <-].
  - rewrite lookup_insert_ne by done. apply Hm.
Qed.

Context (sort_nodes : list ServiceEntry -> list ServiceEntry).

(** Every node of every service is a server of the backend of its service,
    with its address, port, protocol and weight, under a name no other node of
    the backend has, and there are no other servers. *)
Theorem servers_are_nodes catalog :
  (forall n, n ∈ allNodes sort_nodes catalog -> is_ascii (se_Service n) = true) ->
  forall k name s,
  (exists b, template_backends p sort_nodes catalog !! k = Some b /\ Servers b !! name = Some s)
  <-> (exists i n, allNodes sort_nodes catalog !! i = Some n /\ k = backend_name (getNodeBackendName n)
                   /\ name = getServerName n i /\ s = getServer p n).
Proof.
  intros Ha k name s. unfold template_backends. rewrite add_nodes_spec.
  - split; intros (i & n & Hin & Hr); exists i, n; (split; [|exact Hr]).
    + apply elem_of_lookup_imap in Hin as (j & n' & [= -> ->] & Hj). done.
    + apply elem_of_lookup_imap. eauto.
  - apply add_services_empty. intros k' b. by rewrite lookup_empty.
  - intros [i n] [j n'] Hx Hy. simpl. intros Hb Hn.
    apply elem_of_lookup_imap in Hx as (i' & m & [= -> ->] & Hi), Hy as (j' & m' & [= -> ->] & Hj).
    assert (i' = j') as ->; [|by simplify_eq].
    apply (getServerName_inj m m'); [apply Ha; by eapply list_elem_of_lookup_2|apply Ha; by eapply list_elem_of_lookup_2| |done].
    unfold node_backend, backend_name in Hb. by apply (inj (String.append "backend-")) in Hb.
Qed.
End Backends.

(** ** The order of the nodes *)

(** A comparison by two keys, one after the other. *)
Definition lex {A} (le : A -> A -> Prop) (x y : A) (R : Prop) : Prop := (x <> y /\ le x y) \/ (x = y /\ R).

Lemma lex_trans {A} (le : A -> A -> Prop) x y z (R1 R2 R3 : Prop) :
  Transitive le -> (forall a b, le a b -> le b a -> a = b) -> (R1 -> R2 -> R3) ->
  lex le x y R1 -> lex le y z R2 -> lex le x z R3.
Proof.
  intros Ht Ha HR [[Hn1 H1]|[-> H1]] [[Hn2 H2]|[-> H2]]; [|by left..|right; auto].
  left. split; [|by etrans]. intros ->. by apply Hn1, Ha.
Qed.

Lemma lex_antisymm {A} (le : A -> A -> Prop) x y (R1 R2 : Prop) :
  (forall a b, le a b -> le b a -> a = b) -> lex le x y R1 -> lex le y x R2 -> x = y /\ R1 /\ R2.
Proof. intros Ha [[Hn1 H1]|[E H1]] [[Hn2 H2]|[E2 H2]]; subst; try done. destruct Hn1. by apply Ha. Qed.

Lemma lex_iff {A} (le : A -> A -> Prop) x y (R R' : Prop) : (R <-> R') -> lex le x y R <-> lex le x y R'.
Proof. unfold lex. tauto. Qed.

Definition node_le (a b : ServiceEntry) : Prop := nodeSorter_Less b a = false.
#[export] Instance node_le_dec a b : Decision (node_le a b). Proof. unfold node_le. apply _. Defined.

(** What [Less] looks at. *)
Definition node_key (n : ServiceEntry) : string * string * string * Z :=
  (to_lower (se_Service n), se_Address n, node_Address n, se_Port n).

Lemma string_lex a b (r : bool) : (if negb (bool_decide (b = a)) then string_lt b a else r) = false <-> lex string_le a b (r = false).
Proof. unfold lex, string_le. case_bool_decide as E; simpl; [subst; naive_solver|]. naive_solver. Qed.

Lemma node_le_spec a b : node_le a b <->
  lex string_le (to_lower (se_Service a)) (to_lower (se_Service b))
    (lex string_le (se_Address a) (se_Address b)
      (lex string_le (node_Address a) (node_Address b) (se_Port a <= se_Port b)%Z)).
Proof.
  unfold node_le, nodeSorter_Less. do 3 (rewrite string_lex; apply lex_iff). apply Z.ltb_ge.
Qed.

#[export] Instance node_le_trans : Transitive node_le.
Proof.
  intros a b c. rewrite !node_le_spec. repeat (apply lex_trans; [apply _|apply string_le_antisymm|]). lia.
Qed.

Lemma node_le_antisymm a b : node_le a b -> node_le b a -> node_key a = node_key b.
Proof.
  rewrite !node_le_spec. intros H1 H2. unfold node_key.
  destruct (lex_antisymm _ _ _ _ _ string_le_antisymm H1 H2) as (-> & H3 & H4).
  destruct (lex_antisymm _ _ _ _ _ string_le_antisymm H3 H4) as (-> & H5 & H6).
  destruct (lex_antisymm _ _ _ _ _ string_le_antisymm H5 H6) as (-> & H7 & H8).
  assert (se_Port a = se_Port b) as -> by lia. done.
Qed.

(** What [sort.Sort] promises. *)
Class NodeSort (sort_nodes : list ServiceEntry -> list ServiceEntry) := {
  sort_nodes_perm l : sort_nodes l ≡ₚ l;
  sort_nodes_sorted l : Sorted node_le (sort_nodes l);
}.

Lemma sorted_nodes_unique sort_nodes `{!NodeSort sort_nodes} l1 l2 : l1 ≡ₚ l2 ->
  (forall a b, a ∈ l1 -> b ∈ l1 -> node_key a = node_key b -> a = b) -> sort_nodes l1 = sort_nodes l2.
Proof.
  intros HP Hk. apply (Sorted_unique_strong node_le); [|apply sort_nodes_sorted..|by rewrite !sort_nodes_perm].
  intros a b Ha Hb H1 H2. rewrite sort_nodes_perm in Ha. rewrite sort_nodes_perm, <-HP in Hb.
  apply Hk; [done|done|]. by apply node_le_antisymm.
Qed.

Lemma node_le_total a b : node_le a b \/ node_le b a.
Proof.
  assert (forall a b, string_le a b \/ string_le b a) as Hs by (intros; rewrite !string_le_spec; apply String.le_total).
  rewrite !node_le_spec. unfold lex.
  destruct (decide (to_lower (se_Service a) = to_lower (se_Service b))) as [->|];
    [|destruct (Hs (to_lower (se_Service a)) (to_lower (se_Service b))); [left|right]; left; by split].
  destruct (decide (se_Address a = se_Address b)) as [->|];
    [|destruct (Hs (se_Address a) (se_Address b)); [left|right]; right; (split; [done|]); left; by split].
  destruct (decide (node_Address a = node_Address b)) as [->|];
    [|destruct (Hs (node_Address a) (node_Address b)); [left|right]; right; (split; [done|]); right; (split; [done|]); left; by split].
  destruct (Z.le_ge_cases (se_Port a) (se_Port b)); [left|right]; tauto.
Qed.

#[export] Instance merge_sort_nodes : NodeSort (merge_sort node_le).
Proof.
  split; [intros l; apply merge_sort_Permutation|]. intros l. apply Sorted_merge_sort. intros a b. apply node_le_total.
Qed.

(** ** The order of the services *)

(** What a tree calls by name.  The execution of a template depends on the trees
    that are called, from the root on. *)
Class RuleLaws `{RuleTemplate} := {
  rule_calls : rule_tree -> gset string;
  rule_Execute_local (called : gset string) m1 m2 name domain attributes :
    rule_root ∈ called ->
    (forall n tree, n ∈ called -> m1 !! n = Some tree -> rule_calls tree ⊆ called) ->
    (forall n, n ∈ called -> m1 !! n = m2 !! n) ->
    rule_Execute m1 name domain attributes = rule_Execute m2 name domain attributes;
}.

(** A text that is not blank, has no empty definition, and calls only what it
    defines.  A text with an error is no rule at all. *)
Definition self_contained `{RuleLaws} (text : string) : Prop :=
  match rule_Parse text with
  | None => True
  | Some trees => rule_root ∈ dom trees /\
      forall n tree, trees !! n = Some tree -> rule_IsEmptyTree tree = false /\ rule_calls tree ⊆ dom trees
  end.

Section Order.
Context (p : Provider) `{UnicodeLib} `{TimeLib} `{order : MapOrder} `{rules : RuleTemplate} `{TemplateEngine}.
Context (sort_nodes : list ServiceEntry -> list ServiceEntry) `{sorts : !NodeSort sort_nodes}.

#[local] Instance serviceUpdate_eq_dec : EqDecision serviceUpdate.
Proof. solve_decision. Defined.

Definition rule_text (service : serviceUpdate) : string :=
  let customFrontendRule := GetStringValue (TraefikLabels service) TraefikFrontendRule "" in
  if nonempty customFrontendRule then customFrontendRule else FrontEndRule p.

Lemma add_trees_lookup trees templates n tree : trees !! n = Some tree -> rule_IsEmptyTree tree = false ->
  add_trees trees templates !! n = Some tree.
Proof. intros Ht He. unfold add_trees. rewrite lookup_union_with, Ht. by destruct (templates !! n); simpl; rewrite ?He. Qed.

Lemma rule_alone `{!RuleLaws} service templates : self_contained (rule_text service) ->
  (getFrontendRule p service templates).1 = (getFrontendRule p service ∅).1.
Proof.
  unfold getFrontendRule, execute_rule, self_contained. fold (rule_text service).
  destruct (rule_Parse (rule_text service)) as [trees|]; [|done]. intros [Hroot Hall]. simpl.
  rewrite (rule_Execute_local (dom trees) (add_trees trees templates) (add_trees trees ∅)); [done|done| |].
  - intros n tree [tree' Hn]%elem_of_dom Ht. destruct (Hall n tree' Hn) as [He Hc]. rewrite (add_trees_lookup _ _ _ _ Hn He) in Ht.
    by injection Ht as <-.
  - intros n [tree' Hn]%elem_of_dom. destruct (Hall n tree' Hn) as [He _]. by rewrite !(add_trees_lookup _ _ _ _ Hn He).
Qed.

Definition frontend_entry (service : serviceUpdate) : string * Frontend :=
  (frontend_name (ServiceName service), service_frontend service (getFrontendRule p service ∅).1).

Lemma template_frontends_alone `{!RuleLaws} l templates : (forall s, s ∈ l -> self_contained (rule_text s)) ->
  (template_frontends p l templates).1 = list_to_map (map frontend_entry l).
Proof.
  revert templates. induction l as [|s l IH]; intros templates Hr; [done|]. simpl.
  pose proof (rule_alone s templates ltac:(apply Hr; left)) as Hs. destruct (getFrontendRule p s templates) as [rule templates'].
  specialize (IH templates' ltac:(intros; apply Hr; by right)). destruct (template_frontends p l templates') as [fs templates''].
  simpl in *. by rewrite Hs, IH.
Qed.

Lemma add_services_permutation l1 l2 : l1 ≡ₚ l2 -> NoDup (map getServiceBackendName l1) ->
  foldl add_service ∅ l1 = foldl add_service ∅ l2.
Proof.
  intros HP Hd. apply foldl_permutation; [done|]. intros x y b Hx Hy Hxy. unfold add_service.
  assert (backend_name (getServiceBackendName x) <> backend_name (getServiceBackendName y)) as Hne.
  { intros Hb%(inj (String.append "backend-")). apply Hxy. by eapply (NoDup_map_inj getServiceBackendName). }
  destruct (has_options (service_backend x)), (has_options (service_backend y)); try done. by apply insert_insert_ne.
Qed.

Lemma with_nodes_permutation c1 c2 : c1 ≡ₚ c2 -> with_nodes c1 ≡ₚ with_nodes c2.
Proof.
  unfold with_nodes. induction 1 as [|x l1 l2 HP IH|x y l|]; simpl; [done| | |by etrans].
  - destruct (cu_Nodes x); [done|by constructor].
  - destruct (cu_Nodes x), (cu_Nodes y); try done. apply Permutation_swap.
Qed.

(** C18: the configuration does not depend on the order in which the services
    came, nor on the rules of the configurations before it, although the template
    of the rules is shared: with services of different names, nodes that the
    order of nodes tells apart and rules that are not blank and call no template
    they do not define themselves, the same services in another order give the
    same backends, servers and frontends. *)
Theorem configuration_order_independent `{!RuleLaws} c1 c2 templates1 templates2 :
  c1 ≡ₚ c2 ->
  NoDup (map getServiceBackendName (services c1)) ->
  (forall a b, a ∈ flat_map cu_Nodes (with_nodes c1) -> b ∈ flat_map cu_Nodes (with_nodes c1) -> node_key a = node_key b -> a = b) ->
  (forall s, s ∈ services c1 -> self_contained (rule_text s)) ->
  (buildConfigurationV2 p sort_nodes c1 templates1).1 = (buildConfigurationV2 p sort_nodes c2 templates2).1.
Proof using sorts.
  intros HP Hd Hk Hr. pose proof (with_nodes_permutation _ _ HP) as HW.
  assert (services c1 ≡ₚ services c2) as HS by (by apply Permutation_map).
  assert (allNodes sort_nodes c1 = allNodes sort_nodes c2) as HN.
  { apply sorted_nodes_unique; [done| |done]. by rewrite HW. }
  assert (template_backends p sort_nodes c1 = template_backends p sort_nodes c2) as HB.
  { unfold template_backends. by rewrite HN, (add_services_permutation _ _ HS Hd). }
  assert ((template_frontends p (services c1) templates1).1 = (template_frontends p (services c2) templates2).1) as HF.
  { rewrite !template_frontends_alone; [|intros s; rewrite <-HS; apply Hr|done].
    apply list_to_map_proper; [|by apply Permutation_map].
    rewrite map_map. simpl. revert Hd. generalize (services c1) as l. clear. intros l Hd.
    induction l as [|s l IH]; simpl in *; [constructor|]. apply NoDup_cons in Hd as [Hs Hd].
    constructor; [|by apply IH]. intros (s' & Hs' & Hin)%list_elem_of_fmap. apply Hs. apply list_elem_of_fmap. exists s'.
    split; [|done]. apply (inj (String.append "frontend-")) in Hs'. unfold getServiceBackendName. by rewrite Hs'. }
  unfold buildConfigurationV2. destruct (template_frontends p (services c1) templates1), (template_frontends p (services c2) templates2).
  simpl in *. by rewrite HB, HF.
Qed.

(** A blank rule is not a rule of its own: the service gets the one parsed before
    it, of whatever service that was. *)
Theorem blank_rule_is_another_service's service trees tree old templates :
  rule_Parse (rule_text service) = Some trees -> trees !! rule_root = Some tree -> rule_IsEmptyTree tree = true ->
  templates !! rule_root = Some old ->
  let '(rule, templates') := getFrontendRule p service templates in
  templates' !! rule_root = Some old /\
  rule = match rule_Execute templates' (ServiceName service) (Domain p) (Attributes service) with Ok rule => rule | Err _ => "" end.
Proof.
  unfold getFrontendRule, execute_rule. fold (rule_text service). intros -> Ht He Ho. split; [|done].
  unfold add_trees. by rewrite lookup_union_with, Ht, Ho; simpl; rewrite He.
Qed.
End Order.

(** ** The services taken *)

Section Services.
Context (p : Provider) `{order : MapOrder} {laws : MapOrderLaws order}.
Context (health_Service : string -> result (list ServiceEntry)).

Lemma getNodes_loop_spec l visited catalog : getNodes_loop p health_Service l visited = Ok catalog ->
  NoDup (map (fun u => ServiceName (cu_Service u)) catalog) /\
  forall u, u ∈ catalog <->
    exists service, service ∈ l /\ (to_lower service ∉ visited) /\ contains (to_lower service) " " = false /\
      healthyNodes p health_Service (to_lower service) = Ok u /\ cu_Nodes u <> [].
Proof.
  clear laws. assert (forall name u, healthyNodes p health_Service name = Ok u -> ServiceName (cu_Service u) = name) as Hname.
  { intros name u. unfold healthyNodes. destruct (health_Service name); simpl; [|done]. by intros [= <-]. }
  revert visited catalog. induction l as [|service l IH]; intros visited catalog; simpl.
  - intros [= <-]. split; [constructor|]. intros u. split; [by intros ?%elem_of_nil|]. by intros (? & ?%elem_of_nil & _).
  - destruct (contains (to_lower service) " ") eqn:Hc; simpl.
    { intros Hl. apply IH in Hl as [Hd Hu]. split; [done|]. intros u. rewrite Hu. setoid_rewrite elem_of_cons.
      split; [naive_solver|]. intros (s & [->|Hs] & ? & Hc' & ?); [congruence|]. eauto 10. }
    case_bool_decide as Hv; simpl.
    { intros Hl. apply IH in Hl as [Hd Hu]. split; [done|]. intros u. rewrite Hu. setoid_rewrite elem_of_cons. naive_solver. }
    destruct (healthyNodes p health_Service (to_lower service)) as [u0|] eqn:Hh; simpl; [|done].
    destruct (getNodes_loop p health_Service l (to_lower service :: visited)) as [nodes|] eqn:Hl; simpl; [|done].
    apply IH in Hl as [Hd Hu]. pose proof (Hname _ _ Hh) as Hn0.
    assert (forall u, u ∈ nodes -> ServiceName (cu_Service u) <> to_lower service) as Hnew.
    { intros u (s & _ & Hs & _ & Hu' & _)%Hu. rewrite (Hname _ _ Hu'). set_solver. }
    intros [= <-]. split.
    + destruct (cu_Nodes u0); [done|]. simpl. constructor; [|done].
      intros (u & Hu' & Hin)%list_elem_of_fmap. apply (Hnew u Hin). congruence.
    + intros u. transitivity ((u = u0 /\ cu_Nodes u0 <> []) \/ u ∈ nodes).
      { destruct (cu_Nodes u0); [naive_solver|]. rewrite elem_of_cons. naive_solver. }
      rewrite Hu. setoid_rewrite elem_of_cons. split.
      * intros [[-> Hne]|(s & ? & ? & ? & ? & ?)]; [exists service; eauto 10|exists s; naive_solver].
      * intros (s & Hs & Hv' & Hc' & Hh' & Hne). destruct (decide (to_lower s = to_lower service)) as [E|E].
        -- left. rewrite E in Hh'. split; congruence.
        -- right. exists s. destruct Hs as [->|Hs]; [done|]. split_and!; [done|set_solver|done|done|done].
Qed.

(** The services of a configuration are those of the index that have a node the
    filter lets through, each of them once whatever the case of its name; names
    with a blank are left out. *)
Theorem getNodes_spec index catalog : getNodes p health_Service index = Ok catalog ->
  NoDup (map getServiceBackendName (services catalog)) /\
  forall u, u ∈ catalog <->
    exists service, is_Some (index !! service) /\ contains (to_lower service) " " = false /\
      healthyNodes p health_Service (to_lower service) = Ok u /\ cu_Nodes u <> [].
Proof using laws.
  intros Hg. apply getNodes_loop_spec in Hg as [Hd Hu]. split.
  - assert (services catalog = map cu_Service catalog) as ->.
    { unfold services, with_nodes. f_equal. clear Hd. assert (forall u, u ∈ catalog -> cu_Nodes u <> []) as Hne by (intros u Hin; apply Hu in Hin; naive_solver).
      clear Hu. induction catalog as [|u c IH]; [done|]. simpl. specialize (Hne u ltac:(left)) as Hu.
      destruct (cu_Nodes u); [done|]. f_equal. apply IH. intros; apply Hne; by right. }
    rewrite map_map.
    assert (forall u, u ∈ catalog -> getServiceBackendName (cu_Service u) = ServiceName (cu_Service u)) as Hlow.
    { intros u (s & _ & _ & _ & Hh & _)%Hu. unfold healthyNodes in Hh. destruct (health_Service _); simpl in Hh; [|done].
      injection Hh as <-. simpl. unfold getServiceBackendName. simpl. apply to_lower_idem. }
    clear Hu. induction catalog as [|u c IH]; [constructor|]. simpl in *. apply NoDup_cons in Hd as [Hn Hd].
    constructor; [|apply IH; [done|intros; apply Hlow; by right]].
    intros (u' & Hu' & Hin)%list_elem_of_fmap. apply Hn. apply list_elem_of_fmap. exists u'. split; [|done].
    rewrite <-(Hlow u ltac:(left)), <-(Hlow u' ltac:(by right)). done.
  - intros u. rewrite Hu. unfold fun_Keys. split; intros (s & Hs & Hr); exists s.
    + split; [by apply range_keys|naive_solver].
    + split; [by apply range_keys|]. split; [apply not_elem_of_nil|done].
Qed.

(** What the filter asks of a node: enabled, by its own tag or by default, and
    its [tags] pass every constraint. *)
Theorem healthyNodes_filtered name u n : healthyNodes p health_Service name = Ok u -> n ∈ cu_Nodes u ->
  isServiceEnabled p n = true /\
  Forall (fun c => MatchConstraintWithAtLeastOneTag c (getConstraintTags p (se_Tags n)) = MustMatch c) (Constraints p).
Proof.
  unfold healthyNodes. destruct (health_Service name) as [data|]; simpl; [|done]. intros [= <-]. simpl.
  rewrite list_elem_of_In, filter_In. intros [_ Hf]. revert Hf. unfold nodeFilter.
  destruct (isServiceEnabled p n); [|done]. simpl. intros Hf. split; [done|].
  unfold MatchConstraints in Hf. revert Hf. destruct (_ && _) eqn:Hb.
  - apply andb_true_iff in Hb as [_ Hc%bool_decide_eq_true]. apply nil_length_inv in Hc as ->. constructor.
  - clear Hb. induction (Constraints p) as [|c cs IH]; [constructor|]. simpl.
    destruct (Bool.eqb _ _) eqn:He; simpl; [|done]. intros Hf. constructor; [by apply eqb_prop|auto].
Qed.
End Services.

(** Tags are compared in lower case, but the prefix as it is given: with a prefix
    that has a capital no node has constraint tags, though its other tags are
    found. *)
Lemma lowered_prefix s pre : has_prefix (to_lower s) pre = true -> to_lower pre = pre.
Proof.
  unfold has_prefix, to_lower. revert s. induction pre as [|c pre IH]; intros s; [done|]. destruct s as [|d s]; [done|]. simpl.
  destruct (Ascii.eqb_spec c (lower d)) as [->|]; [|done]. intros Hp. rewrite (IH s Hp).
  f_equal. destruct d as [[] [] [] [] [] [] [] []]; by vm_compute.
Qed.

Lemma to_lower_app_fixed a b : to_lower (a +:+ b) = a +:+ b -> to_lower a = a.
Proof.
  unfold to_lower. induction a as [|c a IH]; [done|]. rewrite app_cons_str. simpl. intros [= Hc Ha]. by rewrite Hc, IH.
Qed.

Theorem capital_prefix_has_no_tags p tags : to_lower (cc_Prefix p) <> cc_Prefix p -> getConstraintTags p tags = [].
Proof.
  intros Hp. unfold getConstraintTags. induction tags as [|tag tags IH]; [done|]. simpl. rewrite IH.
  destruct (has_prefix _ _) eqn:Ht; [|done]. exfalso. apply lowered_prefix in Ht. revert Ht. unfold getPrefixedName.
  destruct (nonempty (cc_Prefix p)) eqn:Hne; simpl.
  - intros Ht%to_lower_app_fixed. done.
  - unfold nonempty in Hne. rewrite negb_false_iff, bool_decide_eq_true in Hne. by rewrite Hne in Hp.
Qed.

(** ** A catalog of two services *)

Definition sample_node (service address : string) (port : Z) (tags : list string) : ServiceEntry :=
  mkServiceEntry "10.0.0.9" service address port tags.
Definition sample_health (service : string) : result (list ServiceEntry) :=
  if bool_decide (service = "web") then
    Ok [sample_node "web" "10.0.0.2" 80 ["traefik.weight=3"; "traefik.tags=a,b"]; sample_node "Web" "" 8080 ["traefik.enable=false"];
        sample_node "Web" "" 8081 ["traefik.tags=b"]]
  else if bool_decide (service = "db") then Ok [sample_node "db" "10.0.0.3" 5432 ["traefik.frontend.rule=Host:db"; "traefik.tags=b"]]
  else Err "unknown".
Definition sample_provider : Provider := mkProvider "local" true "traefik" "Host:{{.ServiceName}}" [mkConstraint "tag" true "b"].
Definition sample_catalog (l : list string) : list catalogUpdate :=
  match getNodes_loop sample_provider (order := forward_order) sample_health l [] with Ok c => c | Err _ => [] end.

#[local] Existing Instance ascii_only.
#[local] Existing Instance forward_order.
#[local] Instance sample_time : TimeLib := fun _ => Err "no duration".
#[local] Instance sample_rules : RuleTemplate := {|
  rule_tree := string;
  rule_Parse text := Some {[rule_root := text]};
  rule_IsEmptyTree text := bool_decide (trim_space text = "");
  rule_Execute m name domain _ :=
    match m !! rule_root with Some text => Ok (replace_all text "{{.ServiceName}}" name) | None => Err "incomplete or empty template" end |}.
#[local] Instance sample_rule_laws : RuleLaws.
Proof.
  refine {| rule_calls _ := ∅ |}. intros called m1 m2 name domain attributes Hr _ Hm.
  pose proof (Hm _ Hr) as E. cbn in E |- *. by rewrite E.
Defined.
#[local] Instance sample_engine : TemplateEngine := Ok.


Lemma servers_are_nodes_witness :
  exists b, template_backends sample_provider (merge_sort node_le) (sample_catalog ["Web"; "db"; "web"]) !! "backend-web" = Some b /\
    Servers b !! getServerName (sample_node "web" "10.0.0.2" 80 ["traefik.weight=3"; "traefik.tags=a,b"]) 2 = Some (mkServer "http://10.0.0.2:80" 3).
Proof.
  apply (servers_are_nodes sample_provider (merge_sort node_le) (sample_catalog ["Web"; "db"; "web"])).
  - assert (Forall (fun n => is_ascii (se_Service n) = true) (allNodes (merge_sort node_le) (sample_catalog ["Web"; "db"; "web"]))) as Hall
      by (vm_compute; repeat constructor).
    by apply Forall_forall.
  - exists 2, (sample_node "web" "10.0.0.2" 80 ["traefik.weight=3"; "traefik.tags=a,b"]). split_and!; by vm_compute.
Defined.

Lemma configuration_order_independent_witness :
  (buildConfigurationV2 sample_provider (merge_sort node_le) (sample_catalog ["Web"; "db"]) ∅).1
  = (buildConfigurationV2 sample_provider (merge_sort node_le) (sample_catalog ["db"; "web"]) {[rule_root := "Host:old"]}).1.
Proof.
  assert (exists a b, sample_catalog ["Web"; "db"] = [a; b] /\ sample_catalog ["db"; "web"] = [b; a]) as (a & b & H1 & H2)
    by (do 2 eexists; split; by vm_compute).
  apply (configuration_order_independent sample_provider (merge_sort node_le) (sample_catalog ["Web"; "db"]) (sample_catalog ["db"; "web"])).
  - rewrite H1, H2. apply Permutation_swap.
  - apply (bool_decide_unpack _). by vm_compute.
  - intros x y Hx Hy. apply (NoDup_map_inj node_key (flat_map cu_Nodes (with_nodes (sample_catalog ["Web"; "db"])))); [|done|done].
    apply (bool_decide_unpack _). vm_compute. exact I.
  - intros s Hs.
    assert (forallb (fun s => negb (rule_IsEmptyTree (rule_text sample_provider s))) (services (sample_catalog ["Web"; "db"])) = true) as Hall
      by (vm_compute; reflexivity).
    rewrite forallb_forall in Hall. specialize (Hall s (proj1 (list_elem_of_In _ _) Hs)).
    split; [apply elem_of_dom; eexists; apply lookup_singleton_eq|]. intros n tree [_ <-]%(lookup_singleton_Some (M := gmap string) (A := string)).
    split; [by apply negb_true_iff in Hall|apply empty_subseteq].
Defined.

(** The definitions of a rule stay in the template: a later rule that calls one of
    them without defining it depends on the services before it. *)
Definition defining : string := "{{define `x`}}Host:a{{end}}{{template `x`}}".
Definition calling : string := "{{template `x`}}".
#[local] Instance defining_rules : RuleTemplate := {|
  rule_tree := string;
  rule_Parse text := Some (if bool_decide (text = defining) then <["x" := "Host:a"]> {[rule_root := calling]} else {[rule_root := text]});
  rule_IsEmptyTree text := bool_decide (text = "");
  rule_Execute m _ _ _ :=
    match m !! "x" with Some text => Ok text | None => Err "template x not defined" end |}.

Example definitions_are_shared :
  let first := execute_rule sample_provider defining (mkServiceUpdate "a" [] ∅) ∅ in
  (execute_rule sample_provider calling (mkServiceUpdate "b" [] ∅) ∅).1 = "" /\
  (execute_rule sample_provider calling (mkServiceUpdate "b" [] ∅) first.2).1 = "Host:a".
Proof. by vm_compute. Qed.
