(* ===== verification/ConsulWatch.v ===== *)
(** * [provider/consulcatalog/consul_catalog.go]: watching Consul

    One goroutine watches the list of services, another the state of the health
    checks; each hands the list of services to the loop of [watch] when it found
    a change, and [watch] makes a configuration of it.  The rounds of the two are
    functions of Consul's answers; the three goroutines with their channels are a
    step relation. *)
From S2P Require Import Prelude GoStrings GoStringsFacts Types Domains Label Kv ProviderBase ConsulCatalog.

(** ** What has changed *)

Record Service := mkService {
  sv_Name : string;
  sv_Tags : list string;
  sv_Nodes : list string;
  sv_Addresses : list string;
  sv_Ports : list Z;
}.

Section Changes.
Context `{order : MapOrder}.

(** What was added and what was removed. *)
Definition changed_keys {A B} (curr : gmap string A) (prev : gmap string B) : list string * list string :=
  let currKeySet := fun_Set (fun_Keys curr) in
  let prevKeySet := fun_Set (fun_Keys prev) in
  (fun_Keys (fun_Difference currKeySet prevKeySet), fun_Keys (fun_Difference prevKeySet currKeySet)).
Definition getChangedServiceKeys (current previous : gmap string Service) : list string * list string :=
  changed_keys current previous.
Definition getChangedStringKeys (currState prevState : list string) : list string * list string :=
  (fun_Keys (fun_Difference (fun_Set currState) (fun_Set prevState)), fun_Keys (fun_Difference (fun_Set prevState) (fun_Set currState))).
Definition getChangedIntKeys (currState prevState : list Z) : list Z * list Z :=
  (elements (list_to_set currState ∖ list_to_set prevState :> gset Z), elements (list_to_set prevState ∖ list_to_set currState :> gset Z)).

(** [len(added) > 0 || len(removed) > 0] *)
Definition any_change {A} (added_removed : list A * list A) : bool :=
  match added_removed with ([], []) => false | _ => true end.

Definition service_changed (value prevValue : Service) : bool :=
  any_change (getChangedStringKeys (sv_Nodes value) (sv_Nodes prevValue))
  || any_change (getChangedStringKeys (sv_Tags value) (sv_Tags prevValue))
  || any_change (getChangedStringKeys (sv_Addresses value) (sv_Addresses prevValue))
  || any_change (getChangedIntKeys (sv_Ports value) (sv_Ports prevValue)).
Definition hasServiceChanged (current previous : gmap string Service) : bool :=
  existsb (fun kv => match previous !! kv.1 with Some prevValue => service_changed kv.2 prevValue | None => false end) (range current).
Definition hasChanged (current previous : gmap string Service) : bool :=
  negb (bool_decide (size current = size previous))
  || any_change (getChangedServiceKeys current previous) || hasServiceChanged current previous.

Definition getChangedHealth (current previous : gmap string (list string)) : list string * list string * list string :=
  (changed_keys current previous,
   (List.filter (fun kv => match previous !! kv.1 with
                           | Some prevValue => any_change (getChangedStringKeys kv.2 prevValue) | None => false end) (range current)).*1).

(** ** The watcher of the services *)

(** What is used of an [api.CatalogService]: [ID] is that of the node. *)
Record CatalogService := mkCatalogService { cs_ID : string; cs_ServiceAddress : string; cs_ServicePort : Z }.

Definition getServiceIds (services : list CatalogService) : list string := map cs_ID services.
Definition getServicePorts (services : list CatalogService) : list Z := map cs_ServicePort services.
Definition getServiceAddresses (services : list CatalogService) : list string := map cs_ServiceAddress services.

(** One round: the list of the services with its index, and the details asked
    for; or the stop channel is found closed. *)
Definition service_list : Type := gmap string (list string).
Inductive services_round :=
  | ServicesStop
  | ServicesAnswer (listing : result (option service_list * Z)) (details : string -> result (list CatalogService)).

Definition service_of (key : string) (value : list string) (nodes : list CatalogService) : Service :=
  mkService key value (getServiceIds nodes) (getServiceAddresses nodes) (getServicePorts nodes).

Fixpoint describe_services (details : string -> result (list CatalogService)) (data : list (string * list string)) : result (gmap string Service) :=
  match data with
  | [] => Ok ∅
  | (key, value) :: data' =>
      nodes ← details key;
      current ← describe_services details data';
      Ok (<[key := service_of key value nodes]> current)
  end.

(** [WaitIndex] and [flashback]. *)
Record services_watch := mkServicesWatch { sw_WaitIndex : Z; sw_flashback : gmap string Service }.

(** What a round sends, if anything; an error ends the watcher. *)
Definition services_answer (listing : result (option service_list * Z)) (details : string -> result (list CatalogService))
    (w : services_watch) : result (option service_list * services_watch) :=
  '(data, lastIndex) ← listing;
  if bool_decide (sw_WaitIndex w = lastIndex) then Ok (None, w) else
  match data with
  | None => Ok (None, mkServicesWatch lastIndex (sw_flashback w))
  | Some data =>
      current ← describe_services details (range data);
      if hasChanged current (sw_flashback w) then Ok (Some data, mkServicesWatch lastIndex current)
      else Ok (None, mkServicesWatch lastIndex (sw_flashback w))
  end.

(** The lists sent, and the error notified at the end, if any. *)
Fixpoint watchCatalogServices (rounds : list services_round) (w : services_watch) : list service_list * option error :=
  match rounds with
  | [] | ServicesStop :: _ => ([], None)
  | ServicesAnswer listing details :: rounds' =>
      match services_answer listing details w with
      | Err err => ([], Some err)
      | Ok (sent, w') => let '(l, e) := watchCatalogServices rounds' w' in (option_list sent ++ l, e)
      end
  end.

(** ** The watcher of the health checks *)

Record HealthState := mkHealthState { hs_Node : string; hs_CheckID : string; hs_Status : string; hs_ServiceID : string }.

Definition health_key (h : HealthState) : string := hs_Node h +:+ "-" +:+ hs_ServiceID h.
Definition is_maintenance (h : HealthState) : bool :=
  has_prefix (hs_CheckID h) "_service_maintenance" || has_prefix (hs_CheckID h) "_node_maintenance".
Definition is_passing (h : HealthState) : bool := bool_decide (hs_Status h = "passing").

(** [current], the keys of [currentFailing], [maintenance] *)
Record health_sets := mkHealthSets { hl_current : gmap string (list string); hl_failing : gset string; hl_maintenance : list string }.

Definition health_step (s : health_sets) (healthy : HealthState) : health_sets :=
  let key := health_key healthy in
  let failing := bool_decide (key ∈ hl_failing s) in
  if is_passing healthy && negb failing then
    mkHealthSets (<[key := default [] (hl_current s !! key) ++ [hs_Node healthy]]> (hl_current s)) (hl_failing s) (hl_maintenance s)
  else if is_maintenance healthy then mkHealthSets (hl_current s) (hl_failing s) (hl_maintenance s ++ [hs_CheckID healthy])
  else mkHealthSets (delete key (hl_current s)) ({[key]} ∪ hl_failing s) (hl_maintenance s).
Definition health_of (l : list HealthState) : health_sets := foldl health_step (mkHealthSets ∅ ∅ []) l.

Inductive health_round :=
  | HealthStop
  | HealthAnswer (state : result (list HealthState * Z)) (listing : result (option service_list)).

Record health_watch := mkHealthWatch {
  hw_WaitIndex : Z;
  hw_flashback : gmap string (list string);
  hw_flashbackMaintenance : list string;
}.

Definition health_changed (s : health_sets) (w : health_watch) : bool :=
  match getChangedHealth (hl_current s) (hw_flashback w) with
  | ([], [], []) => any_change (getChangedStringKeys (hl_maintenance s) (hw_flashbackMaintenance w))
  | _ => true
  end.

Definition health_answer (state : result (list HealthState * Z)) (listing : result (option service_list)) (w : health_watch) :
    result (option service_list * health_watch) :=
  '(healthyState, lastIndex) ← state;
  let s := health_of healthyState in
  if bool_decide (hw_WaitIndex w = lastIndex) then Ok (None, w) else
  data ← listing;
  let unchanged := mkHealthWatch lastIndex (hw_flashback w) (hw_flashbackMaintenance w) in
  match data with
  | None => Ok (None, unchanged)
  | Some data =>
      if health_changed s w then Ok (Some data, mkHealthWatch lastIndex (hl_current s) (hl_maintenance s))
      else Ok (None, unchanged)
  end.

Fixpoint watchHealthState (rounds : list health_round) (w : health_watch) : list service_list * option error :=
  match rounds with
  | [] | HealthStop :: _ => ([], None)
  | HealthAnswer state listing :: rounds' =>
      match health_answer state listing w with
      | Err err => ([], Some err)
      | Ok (sent, w') => let '(l, e) := watchHealthState rounds' w' in (option_list sent ++ l, e)
      end
  end.
End Changes.

(** ** The three goroutines ([watch])

    All three channels are unbuffered: a value is handed over when one side sends
    and the other receives.  [errorOnce] lets one goroutine send an error. *)
Inductive once := Fresh | Held | Spent.
Inductive watcher :=
  | Working
  | SendingList (index : service_list)
  | Notifying (err : error)      (* in [notifyError], before [errorOnce] *)
  | SendingError (err : error)   (* inside [errorOnce], at [errorCh <- err] *)
  | Ended.
Inductive looping :=
  | Selecting
  | LoopNotifying (err : error)
  | LoopSendingError (err : error)
  | LoopReturned (err : option error).

Record watching := mkWatching {
  w_loop : looping;
  w_watchers : list watcher;
  w_once : once;
  w_sent : list (option Configuration);
}.

Definition set_watcher (i : nat) (w : watcher) (s : watching) : watching :=
  mkWatching (w_loop s) (<[i := w]> (w_watchers s)) (w_once s) (w_sent s).
Definition set_loop (l : looping) (s : watching) : watching := mkWatching l (w_watchers s) (w_once s) (w_sent s).
Definition set_once (o : once) (s : watching) : watching := mkWatching (w_loop s) (w_watchers s) o (w_sent s).
Definition send_configuration (c : option Configuration) (s : watching) : watching :=
  mkWatching Selecting (w_watchers s) (w_once s) (w_sent s ++ [c]).

Section Watching.
(** [buildConfiguration], whatever the text of the rules is by then. *)
Context (buildConfiguration : list catalogUpdate -> option Configuration).

Definition watch_start : watching := mkWatching Selecting [Working; Working] Fresh [].

Inductive step (s : watching) : watching -> Prop :=
  | step_change i index : w_watchers s !! i = Some Working -> step s (set_watcher i (SendingList index) s)
  | step_error i err : w_watchers s !! i = Some Working -> step s (set_watcher i (Notifying err) s)
  | step_list i index nodes :
      (* the list is received, and [getNodes] answers *)
      w_loop s = Selecting -> w_watchers s !! i = Some (SendingList index) ->
      step s (match nodes with
              | Ok nodes => send_configuration (buildConfiguration nodes) (set_watcher i Working s)
              | Err err => set_loop (LoopNotifying err) (set_watcher i Working s)
              end)
  | step_once i err : w_watchers s !! i = Some (Notifying err) -> w_once s = Fresh ->
      step s (set_once Held (set_watcher i (SendingError err) s))
  | step_late i err : w_watchers s !! i = Some (Notifying err) -> w_once s = Spent -> step s (set_watcher i Ended s)
  | step_loop_once err : w_loop s = LoopNotifying err -> w_once s = Fresh -> step s (set_once Held (set_loop (LoopSendingError err) s))
  | step_loop_late err : w_loop s = LoopNotifying err -> w_once s = Spent -> step s (send_configuration (buildConfiguration []) s)
  | step_failed i err : w_loop s = Selecting -> w_watchers s !! i = Some (SendingError err) ->
      step s (set_once Spent (set_watcher i Ended (set_loop (LoopReturned (Some err)) s)))
  | step_stop : w_loop s = Selecting -> step s (set_loop (LoopReturned None) s)
  | step_closed i err w : w_loop s = LoopReturned err -> w_watchers s !! i = Some w ->
      (* [stopCh] and [watchCh] are closed: the one ends a round, the other a send *)
      match w with Working | SendingList _ => True | _ => False end -> step s (set_watcher i Ended s).

(** ** An error of the loop itself *)

Definition loop_blocked (s : watching) : bool :=
  match w_loop s with LoopNotifying _ | LoopSendingError _ => true | _ => false end.

Lemma spent_returned s : rtc step watch_start s -> w_once s = Spent -> exists err, w_loop s = LoopReturned err.
Proof.
  revert s. apply (rtc_ind_r (fun s => w_once s = Spent -> exists err, w_loop s = LoopReturned err) watch_start); [done|].
  intros s s' Hr Hs IH. assert (forall l, w_once s = Spent -> w_loop s = l -> match l with LoopReturned _ => True | _ => False end) as Hl
    by (intros l Ho <-; by destruct (IH Ho) as [? ->]).
  destruct Hs; simpl; intros Ho; try done; try (by apply IH); try (by eexists); try (exfalso; congruence);
    try (by destruct (Hl _ Ho ltac:(eassumption))).
  - destruct nodes; simpl in *; by destruct (Hl _ Ho ltac:(eassumption)).
Qed.

Lemma blocked_step s s' : loop_blocked s = true -> w_once s <> Spent -> step s s' ->
  loop_blocked s' = true /\ w_once s' <> Spent /\ w_sent s' = w_sent s.
Proof. unfold loop_blocked. intros Hb Ho Hs. destruct Hs as [| |? ? nodes| | | | | | |]; simpl in *; try done; by rewrite H in Hb. Qed.

(** [notifyError] hands its error to the very loop that calls it: once
    asking for the nodes of a list failed, the loop never goes on, however the
    goroutines are scheduled: no configuration is sent any more, the stop
    channel is not heeded, and the attempt does not end, so that it is not
    retried either. *)
Theorem failed_getNodes_blocks s s' :
  rtc step watch_start s -> loop_blocked s = true -> rtc step s s' ->
  loop_blocked s' = true /\ w_sent s' = w_sent s.
Proof.
  intros Hr Hb Hs. assert (w_once s <> Spent) as Ho.
  { intros Ho. destruct (spent_returned s Hr Ho) as [err He]. unfold loop_blocked in Hb. by rewrite He in Hb. }
  clear Hr. revert Hb Ho. induction Hs as [|s s1 s' H1 Hs IH]; intros Hb Ho; [done|].
  destruct (blocked_step s s1 Hb Ho H1) as (Hb1 & Ho1 & Hs1). rewrite <-Hs1. by apply IH.
Qed.

Lemma failed_getNodes_blocks_witness : exists s s',
  rtc step watch_start s /\ w_sent s = [] /\ step s s' /\ loop_blocked s' = true /\ w_sent s' = [].
Proof.
  set (s1 := set_watcher 0 (SendingList ∅) watch_start). set (s2 := set_loop (LoopNotifying "no answer") (set_watcher 0 Working s1)).
  set (s3 := set_once Held (set_loop (LoopSendingError "no answer") s2)).
  assert (rtc step watch_start s2) as Hr.
  { eapply rtc_l; [by apply (step_change watch_start 0 ∅)|]. fold s1. eapply rtc_once. by apply (step_list s1 0 ∅ (Err "no answer")). }
  assert (step s2 s3) as H3 by (by apply (step_loop_once s2 "no answer")).
  destruct (failed_getNodes_blocks s2 s3 Hr eq_refl (rtc_once _ _ H3)) as [Hb Hs]. by exists s2, s3.
Defined.

(** The error that ends the loop is one a watcher notified. *)
Theorem returned_error_is_a_watcher's s err : rtc step watch_start s -> w_loop s = LoopReturned (Some err) ->
  exists s0 i, rtc step watch_start s0 /\ rtc step s0 s /\ w_watchers s0 !! i = Some (SendingError err).
Proof.
  revert s. apply (rtc_ind_r (fun s => w_loop s = LoopReturned (Some err) -> exists s0 i,
    rtc step watch_start s0 /\ rtc step s0 s /\ w_watchers s0 !! i = Some (SendingError err)) watch_start); [done|].
  intros s s' Hr Hs IH He.
  assert (w_loop s = LoopReturned (Some err) \/ exists i, w_watchers s !! i = Some (SendingError err)) as [Hl|[i Hi]].
  { destruct Hs as [| |? ? nodes| | | | |i e| |]; simpl in He; try (by left); try done; try (destruct nodes; done); try congruence.
    right. injection He as <-. by exists i. }
  - destruct (IH Hl) as (s0 & i & ? & ? & ?). exists s0, i. split_and!; [done|by eapply rtc_r|done].
  - exists s, i. split_and!; [done|by apply rtc_once|done].
Qed.
End Watching.

(** * Facts: What the watchers of Consul find

    A list of services is handed over exactly when one of the sets that are
    compared is another one; a service counts as healthy when it has a passing
    check and none that fails. *)

Section Changes.
Context `{order : MapOrder} {laws : MapOrderLaws order}.

Lemma fun_Set_elem xs x : is_Some (fun_Set xs !! x) <-> x ∈ xs.
Proof.
  unfold fun_Set. induction xs as [|y xs IH]; simpl.
  - rewrite lookup_empty. split; [by intros []|by intros ?%elem_of_nil].
  - rewrite elem_of_cons, <-IH. destruct (decide (x = y)) as [->|Hne].
    + rewrite lookup_insert_eq. split; [by left|by eauto].
    + rewrite lookup_insert_ne by done. naive_solver.
Qed.

Lemma fun_Keys_nil {A} (m : gmap string A) : fun_Keys m = [] <-> m = ∅.
Proof using laws.
  unfold fun_Keys. split.
  - intros Hk. apply map_empty. intros i. destruct (m !! i) eqn:Hi; [|done].
    assert (i ∈ (range m).*1) as Hin by (apply range_keys; eauto). rewrite Hk in Hin. by apply elem_of_nil in Hin.
  - intros ->. pose proof (range_perm (∅ : gmap string A)) as HP. rewrite map_to_list_empty in HP. by apply Permutation_nil_r in HP as ->.
Qed.

Lemma difference_empty (a b : gmap string bool) : a ∖ b = ∅ <-> forall i, is_Some (a !! i) -> is_Some (b !! i).
Proof.
  split.
  - intros Hd i [v Hi]. destruct (b !! i) eqn:Hb; [by eauto|]. assert ((a ∖ b) !! i = Some v) as Hs by (by apply lookup_difference_Some).
    by rewrite Hd, lookup_empty in Hs.
  - intros Hs. apply map_empty. intros i. apply lookup_difference_None. destruct (a !! i) eqn:Ha; [right; by apply Hs; eauto|by left].
Qed.

Lemma any_change_false {A} (l k : list A) : any_change (l, k) = false <-> l = [] /\ k = [].
Proof. destruct l, k; naive_solver. Qed.

(** No change of a list is the same set. *)
Lemma same_strings curr prev : any_change (getChangedStringKeys curr prev) = false <-> forall x, x ∈ curr <-> x ∈ prev.
Proof using laws.
  unfold getChangedStringKeys, fun_Difference. rewrite any_change_false, !fun_Keys_nil, !difference_empty.
  setoid_rewrite fun_Set_elem. naive_solver.
Qed.

Lemma same_ints curr prev : any_change (getChangedIntKeys curr prev) = false <-> forall x, x ∈ curr <-> x ∈ prev.
Proof.
  unfold getChangedIntKeys. rewrite any_change_false, !elements_empty_iff. setoid_rewrite elem_of_equiv_empty.
  setoid_rewrite elem_of_difference. setoid_rewrite elem_of_list_to_set. split; [|naive_solver].
  intros [H1 H2] x. destruct (decide (x ∈ curr)), (decide (x ∈ prev)); naive_solver.
Qed.

Lemma same_keys {A B} (curr : gmap string A) (prev : gmap string B) :
  any_change (changed_keys curr prev) = false <-> dom curr = dom prev.
Proof using laws.
  unfold changed_keys, fun_Difference. rewrite any_change_false, !fun_Keys_nil, !difference_empty.
  setoid_rewrite fun_Set_elem. unfold fun_Keys. setoid_rewrite range_keys. setoid_rewrite <-elem_of_dom. set_solver.
Qed.

(** The same service, as far as it is compared. *)
Definition same_service (a b : Service) : Prop :=
  (forall x, x ∈ sv_Nodes a <-> x ∈ sv_Nodes b) /\ (forall x, x ∈ sv_Tags a <-> x ∈ sv_Tags b)
  /\ (forall x, x ∈ sv_Addresses a <-> x ∈ sv_Addresses b) /\ (forall x, x ∈ sv_Ports a <-> x ∈ sv_Ports b).

(** The comparison of two lists of services sees no change exactly when
    the same services are there, each with the same sets of nodes, tags,
    addresses and ports: the order in which Consul lists them never causes a
    new configuration. *)
Theorem hasChanged_spec current previous :
  hasChanged current previous = false <->
  dom current = dom previous /\
  forall key a b, current !! key = Some a -> previous !! key = Some b -> same_service a b.
Proof using laws.
  unfold hasChanged, getChangedServiceKeys. rewrite !orb_false_iff, same_keys, negb_false_iff, bool_decide_eq_true.
  assert (hasServiceChanged current previous = false <->
    forall key a b, current !! key = Some a -> previous !! key = Some b -> same_service a b) as ->.
  { unfold hasServiceChanged. rewrite <-not_true_iff_false, existsb_exists. split.
    - intros Hn key a b Ha Hb. destruct (service_changed a b) eqn:Hc.
      + exfalso. apply Hn. exists (key, a). simpl. rewrite Hb. split; [|done]. by apply list_elem_of_In, range_lookup.
      + unfold service_changed in Hc. rewrite !orb_false_iff, !same_strings, same_ints in Hc. unfold same_service. tauto.
    - intros Hs ([key a] & Hin%list_elem_of_In%range_lookup & Hc). simpl in Hc. destruct (previous !! key) as [b|] eqn:Hb; [|done].
      specialize (Hs key a b Hin Hb). assert (service_changed a b = false) as Hf; [|congruence].
      unfold service_changed. rewrite !orb_false_iff, !same_strings, same_ints. unfold same_service in Hs. tauto. }
  split; [tauto|]. intros [Hd Hs]. split_and!; [|done|done]. by rewrite <-!size_dom, Hd.
Qed.
End Changes.

(** ** Health *)

(** What a check says of its service. *)
Definition fails (h : HealthState) : Prop := is_passing h = false /\ is_maintenance h = false.

Lemma exists_snoc {A} (P : A -> Prop) l h : (exists x, x ∈ l ++ [h] /\ P x) <-> (exists x, x ∈ l /\ P x) \/ P h.
Proof. setoid_rewrite elem_of_app. setoid_rewrite list_elem_of_singleton. naive_solver. Qed.

Lemma health_step_spec l :
  (forall k, k ∈ hl_failing (health_of l) <-> exists h, h ∈ l /\ (health_key h = k /\ fails h)) /\
  (forall k, is_Some (hl_current (health_of l) !! k) <->
     (exists h, h ∈ l /\ (health_key h = k /\ is_passing h = true)) /\ ~ k ∈ hl_failing (health_of l)).
Proof.
  unfold health_of. induction l as [|h l IH] using rev_ind; simpl.
  - split; intros k; [set_solver|]. rewrite lookup_empty. split; [by intros []|]. by intros [(h & ?%elem_of_nil & _) _].
  - rewrite foldl_app. simpl. set (s := foldl health_step _ l) in *. destruct IH as [Hf Hc].
    assert (forall k, k ∈ hl_failing (health_step s h) <-> k ∈ hl_failing s \/ (health_key h = k /\ fails h)) as Hf'.
    { intros k. unfold health_step, fails. destruct (is_passing h) eqn:Hp; [case_bool_decide as Hk|]; simpl;
        destruct (is_maintenance h); simpl; rewrite ?elem_of_union, ?elem_of_singleton; intuition (subst; done || auto). }
    split; intros k; [by rewrite Hf', exists_snoc, Hf|]. rewrite exists_snoc, Hf'.
    specialize (Hc k). specialize (Hf k). unfold health_step, fails. destruct (decide (health_key h = k)) as [<-|Hne].
    + destruct (is_passing h) eqn:Hp; [case_bool_decide as Hk|]; simpl; destruct (is_maintenance h); simpl;
        rewrite ?lookup_insert_eq, ?lookup_delete_eq; try rewrite Hc;
        (split; [intros Hs|intros [Hs Hn]]); try (by destruct Hs); intuition (done || eauto).
    + assert (is_Some (hl_current (health_step s h) !! k) <-> is_Some (hl_current s !! k)) as Hsame.
      { unfold health_step. repeat case_match; simpl; rewrite ?lookup_insert_ne, ?lookup_delete_ne by done; done. }
      unfold health_step in Hsame. rewrite Hsame, Hc. intuition done.
Qed.

(** Whatever the order of the checks, a service of a node is recorded as
    healthy exactly when one of its checks passes and none fails, maintenance
    apart. *)
Theorem health_of_spec l key :
  is_Some (hl_current (health_of l) !! key) <->
  (exists h, h ∈ l /\ health_key h = key /\ is_passing h = true) /\
  (forall h, h ∈ l -> health_key h = key -> ~ fails h).
Proof.
  destruct (health_step_spec l) as [Hf Hc]. rewrite Hc, Hf. split.
  - intros [He Hn]. split; [exact He|]. intros h Hh Hk Hfail. apply Hn. by exists h.
  - intros [He Hn]. split; [exact He|]. intros (h & Hh & Hk & Hfail). by apply (Hn h).
Qed.

(** Two services share a record when their nodes and names run together. *)
Example health_keys_collide : health_key (mkHealthState "a-b" "" "" "c") = health_key (mkHealthState "a" "" "" "b-c").
Proof. reflexivity. Qed.
