(* ===== verification/Docker.v ===== *)
(** * [provider/docker/]: configurations from containers

    The containers of a Docker daemon, or the services and tasks of a swarm, are
    turned into data of one shape, filtered, and grouped by the names of the
    backends and frontends their labels ask for.  The client is a parameter, and
    so are the templates. *)
From S2P Require Import Prelude GoStrings GoStringsFacts GoHttp GoStrconv Types Domains GoNet LabelNames Label LabelSegment Cookie Kv ProviderBase.

(** ** Data *)

Record networkData := mkNetworkData { nd_ID : string; nd_Name : string; nd_Addr : string }.
Record networkSettings := mkNetworkSettings {
  NetworkMode : string;
  Ports : gmap string (list string);      (* [80/tcp] and the addresses it is bound to on the host *)
  Networks : gmap string networkData;
}.
Record dockerData := mkDockerData {
  ServiceName : string;
  dd_Name : string;
  dd_Labels : Labels;
  NetworkSettings : networkSettings;
  Health : string;
  Node : option string;                   (* the address of the node *)
  SegmentLabels : Labels;
  SegmentName : string;
}.
Definition set_segment (segmentName : string) (labels : Labels) (c : dockerData) : dockerData :=
  mkDockerData (ServiceName c) (dd_Name c) (dd_Labels c) (NetworkSettings c) (Health c) (Node c) labels segmentName.

Record Provider := mkProvider {
  Domain : string;
  ExposedByDefault : bool;
  UseBindPortIP : bool;
  SwarmMode : bool;
  Watch : bool;
  Constraints : list Constraint;
}.

Definition labelDockerNetwork : string := "traefik.docker.network".
Definition labelBackendLoadBalancerSwarm : string := "traefik.backend.loadbalancer.swarm".
Definition labelDockerComposeProject : string := "com.docker.compose.project".
Definition labelDockerComposeService : string := "com.docker.compose.service".

(** ** Names ([config.go]) *)

Definition getSubDomain (name : string) : string :=
  replace_all (replace_all (trim_prefix name "/") "/" "-") "_" "-".

(** The project and the service of [docker-compose], when both are given. *)
Definition compose (labels : Labels) : option (string * string) :=
  match GetStringMultipleStrict labels [labelDockerComposeProject; labelDockerComposeService] with
  | Ok values => Some (default "" (values !! labelDockerComposeProject), default "" (values !! labelDockerComposeService))
  | Err _ => None
  end.

Definition getServiceNameKey (container : dockerData) (swarmMode : bool) (segmentName : string) : string :=
  match compose (dd_Labels container) with
  | Some (project, service) => if negb swarmMode then service +:+ project +:+ segmentName else ServiceName container +:+ segmentName
  | None => ServiceName container +:+ segmentName
  end.

Definition isBackendLBSwarm (container : dockerData) : bool :=
  GetBoolValue (dd_Labels container) labelBackendLoadBalancerSwarm false.

Section Names.
Context `{UnicodeLib}.

Definition getDefaultBackendName (container : dockerData) : string :=
  let value := GetStringValue (SegmentLabels container) TraefikBackend "" in
  if nonempty value then Normalize value else
  match compose (dd_Labels container) with
  | Some (project, service) => Normalize (service +:+ "_" +:+ project)
  | None => Normalize (ServiceName container)
  end.

Definition getSegmentBackendName (container : dockerData) : string :=
  let serviceName := match compose (dd_Labels container) with
                     | Some (project, service) => Normalize (service +:+ "_" +:+ project)
                     | None => ServiceName container
                     end in
  let value := GetStringValue (SegmentLabels container) TraefikBackend "" in
  if nonempty value then Normalize (serviceName +:+ "-" +:+ value)
  else Normalize (serviceName +:+ "-" +:+ getDefaultBackendName container +:+ "-" +:+ SegmentName container).

Definition getBackendName (container : dockerData) : string :=
  if nonempty (SegmentName container) then getSegmentBackendName container else getDefaultBackendName container.
End Names.

(** ** Ports *)

(** [nat.Port] *)
Definition Port_Port (p : string) : string := hd "" (split p "/").
Definition Port_Int (p : string) : Z :=
  match ParseUint (Port_Port p) with Ok n => if (n <=? 65535)%Z then n else 0%Z | Err _ => 0%Z end.
Definition port_le (i j : string) : Prop := (Port_Int i <= Port_Int j)%Z.
#[export] Instance port_le_dec i j : Decision (port_le i j). Proof. unfold port_le. apply _. Defined.

Section Servers.
Context (p : Provider) `{UnicodeLib} `{order : MapOrder}.

Definition exposed_port (container : dockerData) : string :=
  match merge_sort port_le (range (Ports (NetworkSettings container))).*1 with [] => "" | min :: _ => Port_Port min end.
Definition getPort (container : dockerData) : string :=
  let value := GetStringValue (SegmentLabels container) TraefikPort "" in
  if nonempty value then value else exposed_port container.
Definition getPortV1 (container : dockerData) : string :=
  let value := GetStringValue (dd_Labels container) TraefikPort "" in
  if nonempty value then value else exposed_port container.

Definition checkSegmentPort (labels : Labels) : option error :=
  match labels !! TraefikPort with
  | Some port => match Atoi port with Ok _ => None | Err err => Some ("invalid port value: " +:+ err) end
  | None => Some "port label is missing"
  end.

Definition getFrontendRule (container : dockerData) (segmentLabels : Labels) : string :=
  let value := GetStringValue segmentLabels TraefikFrontendRule "" in
  if nonempty value then value else
  let domain := GetStringValue segmentLabels TraefikDomain (Domain p) in
  match compose (dd_Labels container) with
  | Some (project, service) => "Host:" +:+ getSubDomain (service +:+ "." +:+ project) +:+ "." +:+ domain
  | None => if nonempty domain then "Host:" +:+ getSubDomain (ServiceName container) +:+ "." +:+ domain else ""
  end.

Definition getFrontendName (container : dockerData) (idx : nat) : string :=
  Normalize (if nonempty (SegmentName container) then getBackendName container
             else getFrontendRule container (SegmentLabels container) +:+ "-" +:+ pretty idx).

(** ** The filter *)

(** The loop over the segments: it ends at one without a rule; the error of the
    port is that of the last segment. *)
Fixpoint check_segments (container : dockerData) (segments : list (string * Labels)) (errPort : option error) : bool * option error :=
  match segments with
  | [] => (true, errPort)
  | (segmentName, labels) :: segments' =>
      if negb (nonempty (getFrontendRule container labels)) then (false, checkSegmentPort labels)
      else check_segments container segments' (checkSegmentPort labels)
  end.

Definition containerFilter (container : dockerData) : bool :=
  if negb (IsEnabled (dd_Labels container) (ExposedByDefault p)) then false else
  match check_segments container (range (ExtractTraefikLabels (dd_Labels container))) None with
  | (false, _) => false
  | (true, errPort) =>
      if bool_decide (size (Ports (NetworkSettings container)) = 0) && bool_decide (is_Some errPort) then false else
      let constraintTags := SplitAndTrimString (default "" (dd_Labels container !! TraefikTags)) "," in
      if negb (MatchConstraints (Constraints p) constraintTags).1 then false
      else negb (nonempty (Health container) && negb (bool_decide (Health container = "healthy")))
  end.

(** ** Addresses *)

Definition network_mode (mode : string) : list string := split2 mode ":".
Definition IsHost (mode : string) : bool := bool_decide (mode = "host").
Definition IsContainer (mode : string) : bool :=
  match network_mode mode with ["container"; _] => true | _ => false end.
Definition ConnectedContainer (mode : string) : string :=
  match network_mode mode with [_; c] => c | _ => "" end.

Definition own_address (container : dockerData) : string :=
  let networks := range (Networks (NetworkSettings container)) in
  let bound :=
    if UseBindPortIP p then
      let port := getPortV1 container in
      flat_map (fun kv => if bool_decide (kv.1 = port +:+ "/TCP") || bool_decide (kv.1 = port +:+ "/UDP") then kv.2 else [])
        (range (Ports (NetworkSettings container)))
    else [] in
  match bound, networks with
  | ip :: _, _ => ip
  | [], (_, network) :: _ => nd_Addr network
  | [], [] => ""
  end.

Definition named_network (container : dockerData) : option string :=
  let value := GetStringValue (dd_Labels container) labelDockerNetwork "" in
  if nonempty value then nd_Addr <$> Networks (NetworkSettings container) !! value else None.

Definition host_address (container : dockerData) : string :=
  match Node container with Some ip => if nonempty ip then ip else "127.0.0.1" | None => "127.0.0.1" end.

(** [inspect] asks the daemon for the container whose network this one shares;
    [depth] is how many such steps are made at most, and [None] says that they
    were not enough. *)
Context (inspect : string -> result dockerData).

Fixpoint find_address (depth : nat) (container : dockerData) : option string :=
  match named_network container with
  | Some addr => Some addr
  | None =>
      let mode := NetworkMode (NetworkSettings container) in
      if IsHost mode then Some (host_address container)
      else if IsContainer mode then
        match depth with
        | O => None
        | S depth => match inspect (ConnectedContainer mode) with Err _ => Some "" | Ok c => find_address depth c end
        end
      else Some (own_address container)
  end.

Context (depth : nat).
Definition getIPAddress (container : dockerData) : string := default "" (find_address depth container).

Definition server_of (container : dockerData) (ip : string) : Server :=
  mkServer (GetStringValue (SegmentLabels container) TraefikProtocol DefaultProtocol +:+ "://" +:+ JoinHostPort ip (getPort container))
    (GetIntValue (SegmentLabels container) TraefikWeight DefaultWeight).
Definition server_name (i : nat) (container : dockerData) : string :=
  Normalize ("server-" +:+ SegmentName container +:+ "-" +:+ dd_Name container
             +:+ (if nonempty (SegmentName container) then "-" +:+ pretty i else "")).

Definition add_server (servers : gmap string Server) (i_container : nat * dockerData) : gmap string Server :=
  let '(i, container) := i_container in
  let ip := getIPAddress container in
  if negb (nonempty ip) then servers else <[server_name i container := server_of container ip]> servers.
Definition getServers (containers : list dockerData) : gmap string Server := foldl add_server ∅ (imap pair containers).

(** ** The configuration *)

Record grouped := mkGrouped {
  g_frontends : gmap string (list dockerData);
  g_servers : gmap string (list dockerData);
  g_serviceNames : gset string;
}.

(** [m[k] = append(m[k], v)] *)
Definition append_at (k : string) (v : dockerData) (m : gmap string (list dockerData)) : gmap string (list dockerData) :=
  <[k := default [] (m !! k) ++ [v]]> m.

Definition group_segment (idx : nat) (g : grouped) (container : dockerData) : grouped :=
  let serviceNamesKey := getServiceNameKey container (SwarmMode p) (SegmentName container) in
  let servers := append_at (getBackendName container) container (g_servers g) in
  if bool_decide (serviceNamesKey ∈ g_serviceNames g) then mkGrouped (g_frontends g) servers (g_serviceNames g) else
  mkGrouped (append_at (getFrontendName container idx) container (g_frontends g)) servers
    (if nonempty serviceNamesKey then {[serviceNamesKey]} ∪ g_serviceNames g else g_serviceNames g).

(** A container once for each of its segments. *)
Definition segments_of (container : dockerData) : list dockerData :=
  map (fun kv => set_segment kv.1 kv.2 container) (range (ExtractTraefikLabels (dd_Labels container))).

Definition group_containers (containers : list dockerData) : grouped :=
  foldl (fun g ic => foldl (group_segment ic.1) g (segments_of ic.2)) (mkGrouped ∅ ∅ ∅) (imap pair containers).

(** *** The template [templates/docker.tmpl] *)

Context `{TimeLib}.

Definition docker_backend (servers : list dockerData) : Backend :=
  labels_backend (match servers with c :: _ => SegmentLabels c | [] => ∅ end) (getServers servers).
Definition written (b : Backend) : bool := has_options b || negb (bool_decide (Servers b = ∅)).

Definition docker_frontend (frontendName : string) (containers : list dockerData) : option Frontend :=
  match containers with
  | [] => None
  | container :: _ =>
      Some (labels_frontend "backend-" (SegmentLabels container) ("backend-" +:+ getBackendName container)
              {["route-frontend-" +:+ frontendName := mkRoute (getFrontendRule container (SegmentLabels container))]})
  end.

Definition template_configuration (g : grouped) : Configuration :=
  mkConfiguration
    (list_to_map (List.filter (fun kb => written kb.2)
       (map (fun kc => ("backend-" +:+ kc.1, docker_backend kc.2)) (range (g_servers g)))))
    (list_to_map (omap (fun kc => pair ("frontend-" +:+ kc.1) <$> docker_frontend kc.1 kc.2) (range (g_frontends g))))
    [].

Definition buildConfigurationV2 `{TemplateEngine} (containersInspected : list dockerData) : option Configuration :=
  configuration_or_nil (template_configuration (group_containers (List.filter containerFilter containersInspected))).
End Servers.

(** ** Containers ([docker.go]) *)

(** What is used of the answer of an inspection: the base and its state may be
    missing, and so may the rest. *)
Record ContainerBase := mkContainerBase {
  cb_Name : string;
  cb_Node : option string;
  cb_NetworkMode : option string;                 (* of the host configuration *)
  cb_State : option (bool * option string);       (* running, the status of the health check *)
}.
Record ContainerJSON := mkContainerJSON {
  cj_Base : option ContainerBase;
  cj_Labels : option Labels;
  cj_Networks : option (gmap string (list string) * gmap string (string * string));   (* ports; identifier and address of a network *)
}.

Definition parseContainer (container : ContainerJSON) : dockerData :=
  let name := match cj_Base container with Some b => cb_Name b | None => "" end in
  mkDockerData name name (default ∅ (cj_Labels container))
    (mkNetworkSettings
       (match cj_Base container with Some b => default "" (cb_NetworkMode b) | None => "" end)
       (match cj_Networks container with Some (ports, _) => ports | None => ∅ end)
       (match cj_Networks container with
        | Some (_, networks) => map_imap (fun name network => Some (mkNetworkData network.1 name network.2)) networks
        | None => ∅
        end))
    (match cj_Base container with
     | Some b => match cb_State b with Some (_, health) => default "" health | None => "" end
     | None => ""
     end)
    (match cj_Base container with Some b => cb_Node b | None => None end) ∅ "".

Definition empty_data : dockerData := mkDockerData "" "" ∅ (mkNetworkSettings "" ∅ ∅) "" None ∅ "".

Section Lists.
Context (ContainerInspect : string -> result ContainerJSON).

(** A container that is not running, or cannot be inspected, is no data. *)
Definition is_running (c : ContainerJSON) : bool :=
  match cj_Base c with Some b => match cb_State b with Some (running, _) => running | None => false end | None => false end.
Definition inspectContainers (containerID : string) : dockerData :=
  match ContainerInspect containerID with
  | Err _ => empty_data
  | Ok c => if is_running c then parseContainer c else empty_data
  end.
Definition listContainers (ContainerList : result (list string)) : result (list dockerData) :=
  containerList ← ContainerList;
  Ok (List.filter (fun d => nonempty (dd_Name d)) (map inspectContainers containerList)).
Definition inspect_connected (containerID : string) : result dockerData :=
  c ← ContainerInspect containerID; Ok (parseContainer c).
End Lists.

(** *** Services of a swarm *)

Inductive ResolutionMode := ModeVIP | ModeDNSRR | OtherMode.
Record SwarmService := mkSwarmService {
  sw_ID : string;
  sw_Name : string;
  sw_Labels : Labels;
  sw_Mode : option ResolutionMode;               (* of the endpoint, when it has a specification *)
  sw_VirtualIPs : list (string * string);        (* the identifier of a network and an address *)
  sw_Global : bool;
}.
Record SwarmTask := mkSwarmTask {
  tk_ID : string;
  tk_Slot : Z;
  tk_Running : bool;
  tk_Networks : option (list (string * list string));
}.

Definition cidr_address (addr : string) : string := IP_String (match ParseCIDR addr with Ok (ip, _) => ip | Err _ => [] end).

(** [networkMap]: the name of a network by its identifier. *)
Definition add_network (networkMap : gmap string string) (id addr : string) (networks : gmap string networkData) : gmap string networkData :=
  match networkMap !! id with
  | Some name => if nonempty addr then <[name := mkNetworkData id name (cidr_address addr)]> networks else networks
  | None => networks
  end.

Definition parseService (service : SwarmService) (networkMap : gmap string string) : dockerData :=
  mkDockerData (sw_Name service) (sw_Name service) (sw_Labels service)
    (mkNetworkSettings "" ∅
       (match sw_Mode service with
        | Some ModeVIP => foldl (fun networks ip => add_network networkMap ip.1 ip.2 networks) ∅ (sw_VirtualIPs service)
        | _ => ∅
        end)) "" None ∅ "".

(** The address of a task is not tested for being empty. *)
Definition add_task_networks (networkMap : gmap string string) (networks : gmap string networkData) (attachment : string * list string) : gmap string networkData :=
  match networkMap !! attachment.1 with
  | Some name => foldl (fun networks addr => <[name := mkNetworkData attachment.1 name (cidr_address addr)]> networks) networks attachment.2
  | None => networks
  end.

Definition parseTasks (task : SwarmTask) (serviceDockerData : dockerData) (networkMap : gmap string string) (isGlobalSvc : bool) : dockerData :=
  mkDockerData (dd_Name serviceDockerData)
    (dd_Name serviceDockerData +:+ "." +:+ (if isGlobalSvc then tk_ID task else pretty (tk_Slot task)))
    (dd_Labels serviceDockerData)
    (mkNetworkSettings "" ∅ (foldl (add_task_networks networkMap) ∅ (default [] (tk_Networks task)))) "" None ∅ "".

Definition has_networks (d : dockerData) : bool := negb (bool_decide (Networks (NetworkSettings d) = ∅)).

Section Swarm.
Context (TaskList : string -> result (list SwarmTask)).

Definition listTasks (serviceID : string) (serviceDockerData : dockerData) (networkMap : gmap string string) (isGlobalSvc : bool) :
    result (list dockerData) :=
  taskList ← TaskList serviceID;
  Ok (List.filter has_networks
        (map (fun task => parseTasks task serviceDockerData networkMap isGlobalSvc) (List.filter tk_Running taskList))).

(** The loop over the services: [err] is the variable of the function, which the
    tasks of a service set. *)
Fixpoint list_services (serviceList : list SwarmService) (networkMap : gmap string string) (dockerDataList : list dockerData) (err : option error) :
    list dockerData * option error :=
  match serviceList with
  | [] => (dockerDataList, err)
  | service :: serviceList' =>
      let dData := parseService service networkMap in
      if isBackendLBSwarm dData then
        list_services serviceList' networkMap (if has_networks dData then dockerDataList ++ [dData] else dockerDataList) err
      else
        match listTasks (sw_ID service) dData networkMap (sw_Global service) with
        | Err err => list_services serviceList' networkMap dockerDataList (Some err)
        | Ok tasks => list_services serviceList' networkMap (dockerDataList ++ tasks) None
        end
  end.

(** The callers use the data only without an error.  The networks are listed
    with a filter that depends on the version of the server. *)
Definition listServices (ServiceList : result (list SwarmService)) (ServerVersion : result string)
    (NetworkList : string -> result (list (string * string))) : result (list dockerData) :=
  serviceList ← ServiceList;
  version ← ServerVersion;
  networkList ← NetworkList version;
  match list_services serviceList (foldl (fun m n => <[n.1 := n.2]> m) ∅ networkList) [] None with
  | (dockerDataList, None) => Ok dockerDataList
  | (_, Some err) => Err err
  end.
End Swarm.

(** ** Watching *)

(** What the loops see: an event of a container with the list of the containers
    then, the end of the events; a tick with the list of the services then, the
    stop channel. *)
Inductive docker_event :=
  | ContainerEvent (action : string) (containers : result (list dockerData))
  | EventsError (err : option error)
  | Tick (services : result (list dockerData))
  | StopTicks.

Definition is_watched (action : string) : bool :=
  bool_decide (action = "start") || bool_decide (action = "die") || has_prefix action "health_status".

Section Watching.
Context (buildConfiguration : list dockerData -> option Configuration).

Definition docker_message (c : option Configuration) : ConfigMessage := mkConfigMessage "docker" c.
Definition send_configuration (data : list dockerData) : list ConfigMessage :=
  match buildConfiguration data with Some c => [docker_message (Some c)] | None => [] end.

(** The messages, and the answer of the operation once it returned.  A list of
    containers that fails cancels the context, which ends the events with an
    error of the client's. *)
Fixpoint watch_loop (events : list docker_event) : list ConfigMessage * option (option error) :=
  match events with
  | [] => ([], None)
  | ContainerEvent action containers :: events' =>
      let '(l, r) := watch_loop events' in
      if is_watched action then
        match containers with Ok data => (send_configuration data ++ l, r) | Err _ => (l, r) end
      else (l, r)
  | EventsError err :: _ => ([], Some err)
  | Tick (Ok services) :: events' => let '(l, r) := watch_loop events' in (send_configuration services ++ l, r)
  | Tick (Err err) :: _ => ([], Some (Some err))
  | StopTicks :: _ => ([], Some None)
  end.

(** One attempt: the client and the version of the server, the list, the events.
    The first configuration is sent even when there is none. *)
Record attempt := mkAttempt { at_connected : option error; at_list : result (list dockerData); at_events : list docker_event }.

Definition operation (watch : bool) (a : attempt) : list ConfigMessage * option (option error) :=
  match at_connected a with
  | Some err => ([], Some (Some err))
  | None =>
      match at_list a with
      | Err err => ([], Some (Some err))
      | Ok data =>
          let '(l, r) := if watch then watch_loop (at_events a) else ([], Some None) in
          (docker_message (buildConfiguration data) :: l, r)
      end
  end.

Fixpoint Provide_loop (watch : bool) (attempts : list attempt) : list ConfigMessage * option (option error) :=
  match attempts with
  | [] => ([], None)
  | a :: attempts' =>
      match operation watch a with
      | (l, Some (Some _)) => let '(l', r) := Provide_loop watch attempts' in (l ++ l', r)
      | (l, r) => (l, r)
      end
  end.
End Watching.

(** The goroutines left in the pool: every attempt that watches containers starts
    one that waits for the end of the program. *)
Definition pool_goroutines (swarm : bool) (attempts : list attempt) : nat :=
  if swarm then 0 else length (List.filter (fun a => match at_connected a, at_list a with None, Ok _ => true | _, _ => false end) attempts).

(** * Facts: Properties of the configurations from Docker

    Every container that passes the filter is a server of a backend, and every
    frontend has the backend it names; the address of a container is found after
    as many inspections as containers share networks; what the filter asks; which
    errors of a swarm are reported. *)

(** ** Addresses *)

Section Addresses.
Context (p : Provider) `{order : MapOrder} (inspect : string -> result dockerData).

(** The networks are shared over at most [n] containers. *)
Inductive shares : nat -> dockerData -> Prop :=
  | shares_named n c addr : named_network c = Some addr -> shares n c
  | shares_own n c : IsContainer (NetworkMode (NetworkSettings c)) = false -> shares n c
  | shares_lost n c err : inspect (ConnectedContainer (NetworkMode (NetworkSettings c))) = Err err -> shares (S n) c
  | shares_next n c c' : inspect (ConnectedContainer (NetworkMode (NetworkSettings c))) = Ok c' -> shares n c' -> shares (S n) c.

Lemma find_address_more n m c addr : n <= m -> find_address p inspect n c = Some addr -> find_address p inspect m c = Some addr.
Proof.
  revert m c. induction n as [|n IH]; intros m c Hm; destruct m as [|m]; try lia; simpl; try done.
  - by repeat case_match.
  - repeat case_match; try done. apply IH. lia.
Qed.

(** The search for the address of a container ends: when networks are shared
    over [n] containers, [n] inspections are enough, and more change nothing. *)
Theorem address_found n c : shares n c ->
  exists addr, forall m, n <= m -> find_address p inspect m c = Some addr.
Proof.
  intros Hs. assert (exists addr, find_address p inspect n c = Some addr) as [addr Ha].
  { induction Hs as [n c addr Hn|n c Hc|n c err Hi|n c c' Hi Hs IH].
    - exists addr. destruct n; simpl; by rewrite Hn.
    - destruct n; simpl; rewrite Hc; repeat case_match; eauto.
    - simpl. rewrite Hi. repeat case_match; eauto.
    - simpl. rewrite Hi. repeat case_match; eauto. }
  exists addr. intros m Hm. by eapply find_address_more.
Qed.
End Addresses.

(** The ports of Docker end in [/tcp] and [/udp], in lower case: the address of a
    bound port is never found, and the option has no effect. *)
Definition set_UseBindPortIP (b : bool) (p : Provider) : Provider :=
  mkProvider (Domain p) (ExposedByDefault p) b (SwarmMode p) (Watch p) (Constraints p).

Lemma lower_not_upper_suffix a b : to_lower a = a -> to_lower b <> b -> forall x, a <> x +:+ b.
Proof.
  intros Ha Hb x ->. apply Hb. unfold to_lower in *. induction x as [|c x IH]; [done|].
  rewrite app_cons_str in Ha. simpl in Ha. injection Ha as _ Ha. by apply IH.
Qed.

Theorem bind_port_ignored (p : Provider) `{order : MapOrder} {laws : MapOrderLaws order} inspect n c b :
  (forall port, is_Some (Ports (NetworkSettings c) !! port) -> to_lower port = port) ->
  (forall c', inspect (ConnectedContainer (NetworkMode (NetworkSettings c))) = Ok c' -> False) ->
  find_address (set_UseBindPortIP b p) inspect n c = find_address p inspect n c.
Proof.
  intros Hl Hi. assert (forall b, own_address (set_UseBindPortIP b p) c = match range (Networks (NetworkSettings c)) with (_, nw) :: _ => nd_Addr nw | [] => "" end) as Ho.
  { intros b'. unfold own_address. simpl. destruct b'; [|done].
    assert (flat_map (fun kv => if bool_decide (kv.1 = getPortV1 c +:+ "/TCP") || bool_decide (kv.1 = getPortV1 c +:+ "/UDP") then kv.2 else [])
      (range (Ports (NetworkSettings c))) = []) as ->; [|done].
    assert (forall kv, kv ∈ range (Ports (NetworkSettings c)) -> to_lower kv.1 = kv.1) as Hk.
    { intros [k v] Hin. apply Hl. apply range_lookup in Hin. by exists v. }
    induction (range (Ports (NetworkSettings c))) as [|kv l IH]; [done|]. simpl. rewrite IH by (intros; apply Hk; by right).
    specialize (Hk kv ltac:(left)). rewrite !bool_decide_eq_false_2; [done| |]; by apply lower_not_upper_suffix. }
  assert (own_address p c = own_address (set_UseBindPortIP b p) c) as Hp.
  { rewrite Ho. rewrite <-(Ho (UseBindPortIP p)). by destruct p. }
  destruct n; simpl; rewrite <-Hp; [done|]. by repeat case_match; try (by edestruct Hi).
Qed.

(** ** Grouping *)

Section Grouping.
Context (p : Provider) `{UnicodeLib} `{order : MapOrder}.

Definition segment_key (c : dockerData) : string := getServiceNameKey c (SwarmMode p) (SegmentName c).

(** The containers of a backend, in their order. *)
Definition of_backend (b : string) (seen : list dockerData) : list dockerData := filter (fun c => getBackendName c = b) seen.
Definition known {A} (l : list A) : option (list A) := match l with [] => None | _ => Some l end.

(** What was grouped so far: [seen] are the containers with their segments. *)
Record grouped_ok (seen : list dockerData) (g : grouped) : Prop := {
  gr_servers : forall b, g_servers g !! b = known (of_backend b seen);
  gr_frontends : forall name l, g_frontends g !! name = Some l ->
    l <> [] /\ Forall (fun c => c ∈ seen /\ exists idx, getFrontendName p c idx = name) l;
  gr_names : forall k, k ∈ g_serviceNames g -> exists name l c, g_frontends g !! name = Some l /\ c ∈ l /\ segment_key c = k;
  gr_served : forall c, c ∈ seen -> exists name l c', g_frontends g !! name = Some l /\ c' ∈ l /\ segment_key c' = segment_key c;
}.

Lemma append_at_lookup k v m k' : append_at k v m !! k' = if bool_decide (k' = k) then Some (default [] (m !! k) ++ [v]) else m !! k'.
Proof.
  unfold append_at. destruct (decide (k' = k)) as [->|Hne].
  - by rewrite lookup_insert_eq, bool_decide_eq_true_2.
  - by rewrite lookup_insert_ne, bool_decide_eq_false_2.
Qed.

(** Nothing gets lost by appending. *)
Lemma append_at_keeps k v m k' l x : m !! k' = Some l -> x ∈ l -> exists l', append_at k v m !! k' = Some l' /\ x ∈ l'.
Proof.
  intros Hm Hx. rewrite append_at_lookup. case_bool_decide as Hk; [|by exists l]. subst k'. eexists. split; [done|].
  rewrite Hm. simpl. apply elem_of_app. by left.
Qed.

Lemma append_at_adds k v m : exists l', append_at k v m !! k = Some l' /\ v ∈ l'.
Proof. rewrite append_at_lookup, bool_decide_eq_true_2 by done. eexists. split; [done|]. apply elem_of_app. right. by left. Qed.

Lemma of_backend_snoc b seen c : of_backend b (seen ++ [c]) = of_backend b seen ++ (if bool_decide (getBackendName c = b) then [c] else []).
Proof. unfold of_backend. rewrite filter_app, filter_cons. case_bool_decide; [by rewrite decide_True|by rewrite decide_False]. Qed.

Lemma group_segment_ok idx seen g c : grouped_ok seen g -> grouped_ok (seen ++ [c]) (group_segment p idx g c).
Proof.
  intros [Hs Hf Hn Hd]. unfold group_segment. fold (segment_key c).
  assert (forall b, append_at (getBackendName c) c (g_servers g) !! b = known (of_backend b (seen ++ [c]))) as Hs'.
  { intros b. rewrite append_at_lookup, of_backend_snoc. destruct (decide (b = getBackendName c)) as [->|Hb].
    - rewrite !bool_decide_eq_true_2 by done. rewrite Hs. by destruct (of_backend _ seen).
    - rewrite !bool_decide_eq_false_2 by congruence. by rewrite app_nil_r. }
  assert (forall name l, g_frontends g !! name = Some l ->
    l <> [] /\ Forall (fun c0 => c0 ∈ seen ++ [c] /\ exists i, getFrontendName p c0 i = name) l) as Hf'.
  { intros name l Hl. destruct (Hf name l Hl) as [Hne Hall]. split; [done|]. eapply Forall_impl; [exact Hall|].
    intros c0 [Hc ?]. split; [apply elem_of_app; by left|done]. }
  case_bool_decide as Hk; split; simpl; try done.
  - intros c0 [Hc| ->%list_elem_of_singleton]%elem_of_app; [by apply Hd|]. by apply Hn.
  - intros name l. rewrite append_at_lookup. case_bool_decide as Hname; [|by apply Hf']. intros [= <-]. split; [by intros [_ ?]%app_nil|].
    apply Forall_app. split; [destruct (g_frontends g !! _) as [l0|] eqn:Hl0; [subst; by apply Hf'|constructor]|].
    constructor; [|constructor]. split; [apply elem_of_app; right; by left|by exists idx].
  - assert (forall k, k ∈ g_serviceNames g \/ k = segment_key c -> exists name l c0,
      append_at (getFrontendName p c idx) c (g_frontends g) !! name = Some l /\ c0 ∈ l /\ segment_key c0 = k) as Hall.
    { intros k [Hk'| ->].
      - destruct (Hn k Hk') as (name & l & c0 & Hl & Hc & <-). destruct (append_at_keeps (getFrontendName p c idx) c _ _ _ _ Hl Hc) as (l' & Hl' & ?).
        by exists name, l', c0.
      - destruct (append_at_adds (getFrontendName p c idx) c (g_frontends g)) as (l & Hl & ?). by eexists _, l, c. }
    intros k Hk'. apply Hall. destruct (nonempty (segment_key c)); set_solver.
  - intros c0 [Hc| ->%list_elem_of_singleton]%elem_of_app.
    + destruct (Hd c0 Hc) as (name & l & c' & Hl & Hc' & He).
      destruct (append_at_keeps (getFrontendName p c idx) c _ _ _ _ Hl Hc') as (l' & Hl' & ?). by exists name, l', c'.
    + destruct (append_at_adds (getFrontendName p c idx) c (g_frontends g)) as (l & Hl & ?). by eexists _, l, c.
Qed.

Lemma group_containers_ok containers : grouped_ok (flat_map segments_of containers) (group_containers p containers).
Proof.
  unfold group_containers.
  assert (forall cs idx seen g, grouped_ok seen g -> grouped_ok (seen ++ cs) (foldl (group_segment p idx) g cs)) as Hin.
  { induction cs as [|c cs IH]; intros idx seen g Hg; simpl; [by rewrite app_nil_r|].
    change (c :: cs) with ([c] ++ cs). rewrite (app_assoc seen [c] cs). by apply IH, group_segment_ok. }
  assert (forall (l : list (nat * dockerData)) seen g, grouped_ok seen g ->
    grouped_ok (seen ++ flat_map (fun ic => segments_of ic.2) l) (foldl (fun g ic => foldl (group_segment p ic.1) g (segments_of ic.2)) g l)) as Hout.
  { induction l as [|[i c] l IH]; intros seen g Hg; simpl; [by rewrite app_nil_r|]. rewrite app_assoc. by apply IH, Hin. }
  specialize (Hout (imap pair containers) [] (mkGrouped ∅ ∅ ∅)). simpl in Hout.
  assert (flat_map (fun ic => segments_of ic.2) (imap pair containers) = flat_map segments_of containers) as Hf.
  { rewrite !flat_map_concat_map. f_equal. rewrite <-(map_map snd segments_of). f_equal.
    clear. assert (forall (f : nat -> nat), map snd (imap (fun i c => (f i, c)) containers) = containers) as Hall.
    { induction containers as [|c cs IH]; intros f; [done|]. simpl. f_equal. apply (IH (f ∘ S)). }
    apply (Hall id). }
  rewrite Hf in Hout. apply Hout. split; simpl.
  - intros b. by rewrite lookup_empty.
  - intros name l. by rewrite lookup_empty.
  - set_solver.
  - by intros c ?%elem_of_nil.
Qed.
End Grouping.

(** ** The configuration *)

Section Configuration.
Context (p : Provider) `{UnicodeLib} `{order : MapOrder} {laws : MapOrderLaws order} `{TimeLib}.
Context (inspect : string -> result dockerData) (depth : nat).

(** A container is a server under its name unless its address is unknown, or a
    later one of the same backend has the same name. *)
Definition is_server (l : list dockerData) (n : string) (i : nat) (c : dockerData) : Prop :=
  l !! i = Some c /\ getIPAddress p inspect depth c <> "" /\ server_name i c = n.
Definition last_server (l : list dockerData) (n : string) (i : nat) (c : dockerData) : Prop :=
  is_server l n i c /\ forall j c', i < j -> ~ is_server l n j c'.

Lemma getServers_snoc l c :
  getServers p inspect depth (l ++ [c]) = add_server p inspect depth (getServers p inspect depth l) (length l, c).
Proof. unfold getServers. rewrite imap_app, foldl_app. simpl. by rewrite Nat.add_0_r. Qed.

Lemma is_server_snoc l c n i c' :
  is_server (l ++ [c]) n i c' <-> is_server l n i c' \/ i = length l /\ c' = c /\ getIPAddress p inspect depth c <> "" /\ server_name i c = n.
Proof.
  unfold is_server. destruct (decide (i < length l)) as [Hi|Hi].
  - rewrite lookup_app_l by done. split; [by left|]. intros [?|[-> _]]; [done|lia].
  - rewrite lookup_app_r by lia. split.
    + intros (Hc & ? & ?). right. destruct (i - length l) as [|k] eqn:Ei; [|by destruct k]. injection Hc as <-. split_and!; [lia|done..].
    + intros [[Hc _]|(-> & -> & ? & ?)]; [by apply lookup_lt_Some in Hc|]. by rewrite Nat.sub_diag.
Qed.

(** What [getServers] makes of the containers of a backend. *)
Lemma docker_servers_lookup l n sv :
  getServers p inspect depth l !! n = Some sv <->
  exists i c, last_server l n i c /\ sv = server_of c (getIPAddress p inspect depth c).
Proof.
  revert n sv. induction l as [|c l IH] using rev_ind; intros n sv.
  { split; [unfold getServers; simpl; by rewrite lookup_empty|]. by intros (i & c & [[[=] _] _] & _). }
  assert (forall i c', last_server l n i c' -> i < length l) as Hlt by (by intros i c' [[?%lookup_lt_Some _] _]).
  rewrite getServers_snoc. unfold add_server, nonempty.
  destruct (decide (getIPAddress p inspect depth c <> "" /\ server_name (length l) c = n)) as [[Hip Hn]|Hno].
  - rewrite bool_decide_eq_false_2 by done. simpl. rewrite Hn, lookup_insert_eq. split.
    + intros [= <-]. exists (length l), c. split; [|done]. split; [apply is_server_snoc; by right|].
      intros j c' Hj [[Hl%lookup_lt_Some _]|[-> _]]%is_server_snoc; lia.
    + intros (i & c' & [[Hs|(-> & -> & _)]%is_server_snoc Hlast] & ->); [|done].
      exfalso. apply (Hlast (length l) c); [destruct Hs as [Hs _]; by apply lookup_lt_Some in Hs|]. apply is_server_snoc. by right.
  - assert ((if negb (negb (bool_decide (getIPAddress p inspect depth c = ""))) then getServers p inspect depth l
             else <[server_name (length l) c := server_of c (getIPAddress p inspect depth c)]> (getServers p inspect depth l)) !! n
            = getServers p inspect depth l !! n) as ->.
    { case_bool_decide; simpl; [done|]. apply lookup_insert_ne. intros E. by apply Hno. }
    assert (forall i c', is_server (l ++ [c]) n i c' <-> is_server l n i c') as Hsame.
    { intros i c'. rewrite is_server_snoc. split; [|by left]. intros [?|(-> & -> & ? & ?)]; [done|]. by destruct Hno. }
    rewrite IH. unfold last_server. by setoid_rewrite Hsame.
Qed.

(** A container whose address is known is a server, or another is in its place. *)
Lemma server_named l n i c : is_server l n i c -> exists j c', i <= j /\ last_server l n j c'.
Proof.
  intros Hs. induction l as [|x l IH] using rev_ind; [by destruct Hs as [[=] _]|].
  destruct (decide (getIPAddress p inspect depth x <> "" /\ server_name (length l) x = n)) as [Hx|Hx].
  - exists (length l), x. split.
    + apply is_server_snoc in Hs as [[Hs%lookup_lt_Some _]|[-> _]]; lia.
    + split; [apply is_server_snoc; by right|]. intros j c' Hj [[Hl%lookup_lt_Some _]|[-> _]]%is_server_snoc; lia.
  - apply is_server_snoc in Hs as [Hs|(-> & -> & Hx')]; [|by destruct (Hx Hx')].
    destruct (IH Hs) as (j & c' & Hj & Hl & Hlast). exists j, c'. split; [done|]. split; [apply is_server_snoc; by left|].
    intros k c2 Hk [Hk'|(-> & -> & ?)]%is_server_snoc; [by eapply Hlast|done].
Qed.

Lemma NoDup_prefixed {A B} (pre : string) (f : string * A -> B) (keep : string * B -> bool) (l : list (string * A)) :
  NoDup l.*1 -> NoDup (List.filter keep (map (fun kc => (pre +:+ kc.1, f kc)) l)).*1.
Proof.
  induction l as [|[k v] l IH]; simpl; [constructor|]. intros [Hk Hd]%NoDup_cons.
  assert (forall x, (pre +:+ k, x) ∈ List.filter keep (map (fun kc => (pre +:+ kc.1, f kc)) l) -> False) as Hn.
  { intros x. rewrite list_elem_of_In, filter_In, in_map_iff. intros [([k' v'] & [= He _] & Hin) _].
    apply (inj (String.append pre)) in He as ->. apply Hk. apply list_elem_of_fmap. exists (k, v'). split; [done|]. by apply list_elem_of_In. }
  destruct (keep _); [|by apply IH]. simpl. constructor; [|by apply IH].
  intros ([k' x] & Hk' & Hin)%list_elem_of_fmap. simpl in Hk'. subst k'. by apply (Hn x).
Qed.

(** The backends and the frontends that are written. *)
Lemma written_backend g b be :
  Backends (template_configuration p inspect depth g) !! ("backend-" +:+ b) = Some be <->
  exists l, g_servers g !! b = Some l /\ be = docker_backend p inspect depth l /\ written be = true.
Proof using laws.
  simpl. rewrite <-elem_of_list_to_map by apply (NoDup_prefixed "backend-" (fun kc => docker_backend p inspect depth kc.2) (fun kb => written kb.2)), range_NoDup.
  rewrite list_elem_of_In, filter_In, in_map_iff. split.
  - intros [([k l] & Heq & Hin) Hw]. pose proof (f_equal fst Heq) as Hk. apply (f_equal snd) in Heq. cbn [fst snd] in *.
    apply (inj (String.append "backend-")) in Hk as ->. exists l. split; [by apply list_elem_of_In, range_lookup in Hin|done].
  - intros (l & Hl & -> & Hw). split; [|done]. exists (b, l). split; [done|]. by apply list_elem_of_In, range_lookup.
Qed.

Lemma written_frontend g name l : g_frontends g !! name = Some l -> l <> [] ->
  exists c, c ∈ l /\ docker_frontend p name l = docker_frontend p name [c] /\
    Frontends (template_configuration p inspect depth g) !! ("frontend-" +:+ name) = docker_frontend p name [c].
Proof using laws.
  intros Hl Hne. destruct l as [|c l]; [done|]. exists c. split; [by left|]. split; [done|]. simpl.
  apply elem_of_list_to_map.
  - assert (forall kcs : list (string * list dockerData), NoDup kcs.*1 ->
      NoDup (omap (fun kc => pair ("frontend-" +:+ kc.1) <$> docker_frontend p kc.1 kc.2) kcs).*1) as Hall; [|apply Hall, range_NoDup].
    induction kcs as [|[k v] kcs IH]; simpl; [constructor|]. intros [Hk Hd]%NoDup_cons.
    destruct (docker_frontend p k v) as [f|]; simpl; [|by apply IH]. constructor; [|by apply IH].
    intros ([k' f'] & Hk' & ([k2 v2] & Hin & Hf)%list_elem_of_omap)%list_elem_of_fmap. cbn [fst snd] in *. subst k'. apply Hk.
    destruct (docker_frontend p k2 v2); [|done]. apply (f_equal (fmap fst)) in Hf. cbn in Hf. apply (inj Some) in Hf.
    apply (inj (String.append "frontend-")) in Hf as ->. apply list_elem_of_fmap. by exists (k, v2).
  - apply list_elem_of_omap. exists (name, c :: l). split; [by apply range_lookup|done].
Qed.

(** C17: the configuration made of the containers that pass the filter, each
    taken once for each of its segments.  The backends are those of their labels,
    in which the servers are exactly the containers of that backend whose address
    is known; of several with the same server name, the last.  So each container
    with an address is a server of its backend, unless a later one has taken its
    name.  Every frontend is named for such a container, has its rule and names
    its backend; and for every container there is a frontend of one with the same
    service key. *)
Theorem containers_are_served containers :
  let seen := flat_map segments_of (List.filter (containerFilter p) containers) in
  let config := template_configuration p inspect depth (group_containers p (List.filter (containerFilter p) containers)) in
  (forall b n sv, (exists be, Backends config !! ("backend-" +:+ b) = Some be /\ Servers be !! n = Some sv) <->
     exists i c, last_server (of_backend b seen) n i c /\ sv = server_of c (getIPAddress p inspect depth c)) /\
  (forall c, c ∈ seen -> getIPAddress p inspect depth c <> "" -> exists i be j c',
     of_backend (getBackendName c) seen !! i = Some c /\
     Backends config !! ("backend-" +:+ getBackendName c) = Some be /\
     i <= j /\ last_server (of_backend (getBackendName c) seen) (server_name i c) j c' /\
     Servers be !! server_name i c = Some (server_of c' (getIPAddress p inspect depth c'))) /\
  (forall name f, Frontends config !! name = Some f -> exists c idx, c ∈ seen /\
     name = "frontend-" +:+ getFrontendName p c idx /\ fe_Backend f = "backend-" +:+ getBackendName c /\
     Routes f = {["route-frontend-" +:+ getFrontendName p c idx := mkRoute (getFrontendRule p c (SegmentLabels c))]}) /\
  (forall c, c ∈ seen -> exists c' idx, c' ∈ seen /\ segment_key p c' = segment_key p c /\
     is_Some (Frontends config !! ("frontend-" +:+ getFrontendName p c' idx))).
Proof using laws.
  intros seen config. unfold config. set (g := group_containers p _).
  destruct (group_containers_ok p (List.filter (containerFilter p) containers)) as [Hs Hf Hn Hd]. fold seen g in Hs, Hf, Hn, Hd.
  assert (forall b n sv, (exists be, Backends (template_configuration p inspect depth g) !! ("backend-" +:+ b) = Some be /\ Servers be !! n = Some sv) <->
     exists i c, last_server (of_backend b seen) n i c /\ sv = server_of c (getIPAddress p inspect depth c)) as Hserv.
  { intros b n sv. rewrite <-docker_servers_lookup. setoid_rewrite written_backend. split.
    - intros (be & (l & Hl & -> & _) & Hsv). rewrite Hs in Hl. unfold known in Hl. destruct (of_backend b seen); [done|]. by injection Hl as <-.
    - intros Hsv. exists (docker_backend p inspect depth (of_backend b seen)). split; [|done]. exists (of_backend b seen).
      split; [rewrite Hs; by destruct (of_backend b seen)|]. split; [done|]. unfold written. apply orb_true_iff. right.
      rewrite bool_decide_eq_false_2; [done|]. simpl. intros He. by rewrite He, lookup_empty in Hsv. }
  split_and!; [exact Hserv| | |].
  - intros c Hc Hip. assert (c ∈ of_backend (getBackendName c) seen) as [i Hi]%list_elem_of_lookup by (by apply list_elem_of_filter).
    destruct (server_named (of_backend (getBackendName c) seen) (server_name i c) i c) as (j & c' & Hj & Hlast); [done|].
    destruct (proj2 (Hserv (getBackendName c) (server_name i c) _) (ex_intro _ j (ex_intro _ c' (conj Hlast eq_refl)))) as (be & Hbe & Hsv).
    by exists i, be, j, c'.
  - intros name f Hname. pose proof Hname as Hin. simpl in Hin. apply elem_of_list_to_map_2, list_elem_of_omap in Hin as ([k l] & Hkl & Hdf).
    apply range_lookup in Hkl. simpl in Hdf. destruct (Hf k l Hkl) as [Hne Hall]. destruct l as [|c l]; [done|].
    apply Forall_cons in Hall as [[Hc (idx & <-)] _]. injection Hdf as <- <-. by exists c, idx.
  - intros c Hc. destruct (Hd c Hc) as (name & l & c' & Hl & Hc' & He). destruct (Hf name l Hl) as [Hne Hall].
    rewrite Forall_forall in Hall. destruct (Hall c' Hc') as [Hseen (idx & <-)]. exists c', idx. split_and!; [done|done|].
    destruct (written_frontend g _ l Hl Hne) as (c0 & _ & _ & ->). by eexists.
Qed.
End Configuration.

(** *** What runs together *)

(** The key of a service of [docker-compose] has nothing between the service and
    the project: two of them can share it, and the second gets no frontend. *)
Definition compose_container (name service project : string) : dockerData :=
  mkDockerData name name {[labelDockerComposeService := service; labelDockerComposeProject := project; "traefik.port" := "80"]}
    (mkNetworkSettings "bridge" ∅ {["bridge" := mkNetworkData "id" "bridge" "10.0.0.2"]}) "" None ∅ "".

Example service_keys_collide :
  let p := mkProvider "local" true false false true [] in
  let g := group_containers (order := forward_order) (H := ascii_only) p [compose_container "/a" "web" "1x"; compose_container "/b" "web1" "x"] in
  (size (g_servers g), size (g_frontends g)) = (2, 1).
Proof. by vm_compute. Qed.

(** Names that differ in what [Normalize] drops are one server. *)
Example server_names_collide :
  let p := mkProvider "local" true false false true [] in
  let container name := mkDockerData name name {["traefik.backend" := "web"]}
    (mkNetworkSettings "bridge" ∅ {["bridge" := mkNetworkData "id" "bridge" "10.0.0.2"]}) "" None ∅ "" in
  size (getServers p (order := forward_order) (H := ascii_only) (fun _ => Err "none") 0 [container "/web_1"; container "/web.1"]) = 1.
Proof. by vm_compute. Qed.

(** ** The filter *)

Section Filter.
Context (p : Provider) `{order : MapOrder} {laws : MapOrderLaws order}.

Lemma check_segments_rules c segments errPort :
  (check_segments p c segments errPort).1 = forallb (fun kv => nonempty (getFrontendRule p c kv.2)) segments.
Proof.
  revert errPort. induction segments as [|[k v] l IH]; intros e; [done|]. simpl.
  destruct (nonempty (getFrontendRule p c v)); simpl; [apply IH|done].
Qed.

(** A container that exposes a port passes exactly when it is enabled, every
    segment has a rule, its tags pass the constraints, and it is not reported
    as anything but healthy. *)
Theorem containerFilter_spec c : Ports (NetworkSettings c) <> ∅ ->
  containerFilter p c = true <->
  IsEnabled (dd_Labels c) (ExposedByDefault p) = true /\
  (forall name labels, ExtractTraefikLabels (dd_Labels c) !! name = Some labels -> getFrontendRule p c labels <> "") /\
  (MatchConstraints (Constraints p) (SplitAndTrimString (default "" (dd_Labels c !! TraefikTags)) ",")).1 = true /\
  (Health c = "" \/ Health c = "healthy").
Proof using laws.
  intros Hp. unfold containerFilter. destruct (IsEnabled _ _); simpl; [|naive_solver].
  pose proof (check_segments_rules c (range (ExtractTraefikLabels (dd_Labels c))) None) as Hr.
  destruct (check_segments p c _ None) as [ok errPort]. simpl in Hr.
  assert (ok = true <-> forall name labels, ExtractTraefikLabels (dd_Labels c) !! name = Some labels -> getFrontendRule p c labels <> "") as Hok.
  { rewrite Hr, forallb_forall. split.
    - intros Ha name labels Hl. specialize (Ha (name, labels)). rewrite <-list_elem_of_In, range_lookup in Ha. specialize (Ha Hl).
      unfold nonempty in Ha. simpl in Ha. apply negb_true_iff, bool_decide_eq_false in Ha. done.
    - intros Ha [name labels] Hin%list_elem_of_In%range_lookup. simpl. unfold nonempty. apply negb_true_iff, bool_decide_eq_false. by eapply Ha. }
  destruct ok; [|naive_solver]. rewrite (bool_decide_eq_false_2 (size _ = 0)) by (by rewrite map_size_empty_iff). simpl.
  destruct (MatchConstraints _ _).1; simpl; [|naive_solver]. unfold nonempty.
  destruct (decide (Health c = "")) as [->|]; [naive_solver|]. rewrite (bool_decide_eq_false_2 (Health c = "")) by done. simpl.
  case_bool_decide; naive_solver.
Qed.
End Filter.

(** Without an exposed port it is the segment that comes last whose port is asked
    for: with a port for one segment and none for the other, the order of a map
    decides whether the container is taken. *)
Example ports_of_last_segment :
  let p := mkProvider "local" true false false true [] in
  let c := mkDockerData "/c" "/c" (<["traefik.a.port" := "80"]> {["traefik.b.weight" := "1"]}) (mkNetworkSettings "" ∅ ∅) "" None ∅ "" in
  (containerFilter p (order := forward_order) c, containerFilter p (order := backward_order) c) = (false, true).
Proof. by vm_compute. Qed.

(** ** The services of a swarm *)

(** A failure to list the tasks of a service is reported when no later service
    lists its tasks, and lost otherwise: then the services before are configured
    without their tasks. *)
Lemma list_services_app TaskList l1 l2 networkMap data err :
  list_services TaskList (l1 ++ l2) networkMap data err
  = list_services TaskList l2 networkMap (list_services TaskList l1 networkMap data err).1 (list_services TaskList l1 networkMap data err).2.
Proof.
  revert data err. induction l1 as [|s l1 IH]; intros data err; [done|]. simpl.
  destruct (isBackendLBSwarm _); [apply IH|]. destruct (listTasks _ _ _ _ _); apply IH.
Qed.

Theorem last_tasks_decide TaskList l s networkMap data err :
  isBackendLBSwarm (parseService s networkMap) = false ->
  (list_services TaskList (l ++ [s]) networkMap data err).2
  = match TaskList (sw_ID s) with Ok _ => None | Err err => Some err end.
Proof.
  intros Hs. rewrite list_services_app. simpl. rewrite Hs. unfold listTasks. by destruct (TaskList (sw_ID s)).
Qed.

(** ** Witnesses *)

Definition served_provider : Provider := mkProvider "local" true false false true [].
Definition served_containers : list dockerData :=
  [mkDockerData "/web" "/web" {["traefik.port" := "80"]}
     (mkNetworkSettings "bridge" ∅ {["bridge" := mkNetworkData "id" "bridge" "10.0.0.2"]}) "" None ∅ ""].

(** The one container of the sample is the server of its backend. *)
Lemma containers_are_served_witness :
  exists be, Backends (template_configuration (order := forward_order) (H := ascii_only) (H0 := fun _ => Err "no duration") served_provider (fun _ => Err "none") 0
    (group_containers (order := forward_order) (H := ascii_only) served_provider
      (List.filter (containerFilter (order := forward_order) served_provider) served_containers))) !! "backend-web" = Some be /\ Servers be <> ∅.
Proof.
  destruct (containers_are_served (order := forward_order) (H := ascii_only) (H0 := fun _ => Err "no duration") served_provider
    (fun _ => Err "none") 0 served_containers) as (_ & Hseen & _).
  destruct (Hseen (set_segment "" {["traefik.port" := "80"]} (default empty_data (head served_containers)))) as (i & be & j & c' & _ & Hbe & _ & _ & Hsv).
  - apply list_elem_of_lookup. exists 0. by vm_compute.
  - by vm_compute.
  - exists be. split; [exact Hbe|]. intros He. rewrite He, lookup_empty in Hsv. discriminate Hsv.
Defined.

Lemma address_found_witness :
  let other := mkDockerData "/b" "/b" ∅ (mkNetworkSettings "bridge" ∅ {["bridge" := mkNetworkData "id" "bridge" "10.0.0.7"]}) "" None ∅ "" in
  let c := mkDockerData "/a" "/a" ∅ (mkNetworkSettings "container:b" ∅ ∅) "" None ∅ "" in
  let p := mkProvider "local" true false false true [] in
  exists addr, forall m, 1 <= m -> find_address p (order := forward_order) (fun id => if bool_decide (id = "b") then Ok other else Err "none") m c = Some addr.
Proof.
  intros other c p. apply (address_found p (order := forward_order) (fun id => if bool_decide (id = "b") then Ok other else Err "none") 1 c).
  apply shares_next with (c' := other); [done|]. by apply shares_own.
Defined.
