(* ===== verification/Marathon.v ===== *)
(** * [provider/marathon/]: configurations from the applications of Marathon

    The tasks of the applications are filtered, their labels cut into segments,
    and the segments gathered by the names of the backends they ask for.  The
    client of Marathon, the clock and the parsing of times are parameters. *)
From S2P Require Import Prelude GoStrings GoStringsFacts GoHttp OsioClient GoStrconv Types Domains OsioProvider LabelNames Label LabelSegment Cookie.
From S2P Require Import Kv ProviderBase.

(** ** Data ([go-marathon], what is used of it) *)

Record Task := mkTask {
  task_ID : string;
  Host : string;
  task_Ports : list Z;
  State : string;
  StartedAt : string;
  IPAddresses : list string;
}.
Record Discovery := mkDiscovery { Discovery_Ports : option (list Z) }.
Record IPAddressPerTask := mkIPAddressPerTask { ip_Discovery : option Discovery }.
Record ReadinessCheckResult := mkReadinessCheckResult { rr_TaskID : string; Ready : bool }.
Record Application := mkApplication {
  app_ID : string;
  app_Labels : option Labels;
  app_Constraints : option (list (list string));
  Tasks : list Task;
  PortDefinitions : option (list (option Z));
  app_IPAddressPerTask : option IPAddressPerTask;
  Deployments : nat;                                   (* how many *)
  ReadinessChecks : option (list Z);                   (* their timeouts, in seconds *)
  ReadinessCheckResults : option (list ReadinessCheckResult);
}.
Definition set_Tasks (l : list Task) (app : Application) : Application :=
  mkApplication (app_ID app) (app_Labels app) (app_Constraints app) l (PortDefinitions app) (app_IPAddressPerTask app)
    (Deployments app) (ReadinessChecks app) (ReadinessCheckResults app).

(** [appData]: an application with one of its segments, and those that were
    linked to it as they have the same backend. *)
#[warnings="-register-all"]
Inductive appData := mkAppData {
  Application_ : Application;
  SegmentLabels : Labels;
  SegmentName : string;
  LinkedApps : list appData;
}.

Record readinessChecker := mkReadinessChecker { checkDefaultTimeout : Z; checkSafetyMargin : Z }.
Record Provider := mkProvider {
  Watch : bool;
  Constraints : list Constraint;
  Domain : string;
  ExposedByDefault : bool;
  GroupsAsSubDomains : bool;
  MarathonLBCompatibility : bool;
  FilterMarathonConstraints : bool;
  ForceTaskHostname : bool;
  RespectReadinessChecks : bool;
  readyChecker : option readinessChecker;
}.
Definition set_readyChecker (rc : option readinessChecker) (p : Provider) : Provider :=
  mkProvider (Watch p) (Constraints p) (Domain p) (ExposedByDefault p) (GroupsAsSubDomains p) (MarathonLBCompatibility p)
    (FilterMarathonConstraints p) (ForceTaskHostname p) (RespectReadinessChecks p) rc.
Definition add_constraints (l : list Constraint) (p : Provider) : Provider :=
  mkProvider (Watch p) (Constraints p ++ l) (Domain p) (ExposedByDefault p) (GroupsAsSubDomains p) (MarathonLBCompatibility p)
    (FilterMarathonConstraints p) (ForceTaskHostname p) (RespectReadinessChecks p) (readyChecker p).

Definition taskStateRunning : string := "TASK_RUNNING".
Definition labelIPAddressIdx : string := "traefik.ipAddressIdx".
Definition labelLbCompatibilityGroup : string := "HAPROXY_GROUP".
Definition labelLbCompatibility : string := "HAPROXY_0_VHOST".

Definition stringValueMap (mp : option Labels) : Labels := default ∅ mp.

(** ** Readiness ([readiness.go]) *)

Definition second : Z := 1000000000.
Definition readinessCheckDefaultTimeout : Z := 10 * second.
Definition readinessCheckSafetyMargin : Z := 5 * second.
Definition defaultReadinessChecker : readinessChecker :=
  mkReadinessChecker readinessCheckDefaultTimeout readinessCheckSafetyMargin.

(** [time]: the nanoseconds at which a text in RFC 3339 is.  A difference that is no
    duration is the longest, or the shortest. *)
Class Rfc3339 := ParseTime : string -> result Z.
Definition time_Sub (t u : Z) : Z := Z.max (- 2 ^ 63) (Z.min (2 ^ 63 - 1) (t - u)).

Section Marathon.
Context `{Rfc3339}.

(** The time a check may take: that of the first one. *)
Definition readinessCheckTimeout (rc : readinessChecker) (readinessCheckTimeoutSecs : Z) : Z :=
  let timeout := wrap64 (readinessCheckTimeoutSecs * second) in
  if (timeout =? 0)%Z then checkDefaultTimeout rc else wrap64 (timeout + checkSafetyMargin rc).

(** [now] is what the clock says when the start of the task is looked at. *)
Definition readinessChecker_Do (rc : option readinessChecker) (now : Z) (task : Task) (app : Application) : bool :=
  match rc with
  | None => true
  | Some rc =>
      if bool_decide (Deployments app = 0) then true else
      match ReadinessChecks app with
      | None | Some [] => true
      | Some (timeout :: _) =>
          match List.find (fun r => bool_decide (rr_TaskID r = task_ID task)) (default [] (ReadinessCheckResults app)) with
          | Some r => Ready r
          | None =>
              match ParseTime (StartedAt task) with
              | Err _ => false
              | Ok startTime => negb (time_Sub now startTime <? readinessCheckTimeout rc timeout)%Z
              end
          end
      end
  end.

(** ** Filters ([config.go]) *)

Context (p : Provider) (now : Task -> Z) `{UnicodeLib} `{order : MapOrder}.

Definition app_tags (app : Application) : list string :=
  let labels := stringValueMap (app_Labels app) in
  GetSliceStringValue labels TraefikTags ++
  (let haGroup := GetStringValue labels labelLbCompatibilityGroup "" in
   if MarathonLBCompatibility p && nonempty haGroup then [haGroup] else []) ++
  (if FilterMarathonConstraints p then map (fun parts => join parts ":") (default [] (app_Constraints app)) else []).

Definition applicationFilter (app : Application) : bool :=
  IsEnabled (stringValueMap (app_Labels app)) (ExposedByDefault p) && (MatchConstraints (Constraints p) (app_tags app)).1.

Definition taskFilter (task : Task) (application : Application) : bool :=
  bool_decide (State task = taskStateRunning) && readinessChecker_Do (readyChecker p) (now task) task application.

(** ** Ports *)

Definition retrieveAvailablePorts (app : Application) (task : Task) : outcome (list Z) :=
  match task_Ports task with
  | _ :: _ => Ret (task_Ports task)
  | [] =>
      match PortDefinitions app with
      | Some ((_ :: _) as defs) => Ret (omap id defs)
      | _ =>
          match app_IPAddressPerTask app with
          | Some (mkIPAddressPerTask (Some d)) =>
              match Discovery_Ports d with None => Panic nil_dereference | Some ports => Ret ports end
          | _ => Ret []
          end
      end
  end.

Definition processPorts (app : Application) (task : Task) (labels : Labels) : outcome (result Z) :=
  if Has labels TraefikPort then
    let port := GetIntValue labels TraefikPort 0 in
    Ret (if (port <=? 0)%Z then Err ("explicitly specified port " +:+ pretty port +:+ " must be larger than zero") else Ok port)
  else
    ports ← retrieveAvailablePorts app task;
    Ret (match ports with
         | [] => Err "no port found"
         | _ =>
             let portIndex := GetIntValue labels TraefikPortIndex 0 in
             let last := (Z.of_nat (length ports) - 1)%Z in
             if (portIndex <? 0)%Z || (last <? portIndex)%Z
             then Err ("index " +:+ pretty portIndex +:+ " must be within range (0, " +:+ pretty last +:+ ")")
             else Ok (nth (Z.to_nat portIndex) ports 0%Z)
         end).

Definition getPort (task : Task) (app : appData) : outcome string :=
  port ← processPorts (Application_ app) task (SegmentLabels app);
  Ret (match port with Ok port => pretty port | Err _ => "" end).

(** What it does but for the log: it can panic. *)
Definition logIllegalServices (task : Task) (app : Application) : outcome unit :=
  _ ← mapM (fun kv => processPorts app task kv.2) (range (ExtractTraefikLabels (stringValueMap (app_Labels app))));
  Ret tt.

(** ** Names *)

Definition getSegmentNameSuffix (serviceName : string) : string :=
  if nonempty serviceName then "-service-" +:+ Normalize serviceName else "".

Definition getSubDomain (name : string) : string :=
  if GroupsAsSubDomains p then join (ReverseStringSlice (split (trim_prefix name "/") "/")) "."
  else replace_all (trim_prefix name "/") "/" "-".

Definition getBackendName (app : appData) : string :=
  let value := GetStringValue (SegmentLabels app) TraefikBackend "" in
  if nonempty value then Normalize ("backend" +:+ value)
  else Normalize ("backend" +:+ app_ID (Application_ app) +:+ getSegmentNameSuffix (SegmentName app)).

Definition getFrontendName (app : appData) : string :=
  Normalize ("frontend" +:+ app_ID (Application_ app) +:+ getSegmentNameSuffix (SegmentName app)).

Definition getFrontendRule (app : appData) : string :=
  let value := GetStringValue (SegmentLabels app) TraefikFrontendRule "" in
  if nonempty value then value else
  let host := GetStringValue (stringValueMap (app_Labels (Application_ app))) labelLbCompatibility "" in
  if MarathonLBCompatibility p && nonempty host then "Host:" +:+ host else
  let domain := GetStringValue (SegmentLabels app) TraefikDomain (Domain p) in
  if nonempty (SegmentName app)
  then "Host:" +:+ to_lower (Normalize (SegmentName app)) +:+ "." +:+ getSubDomain (app_ID (Application_ app)) +:+ "." +:+ domain
  else "Host:" +:+ getSubDomain (app_ID (Application_ app)) +:+ "." +:+ domain.

(** ** Servers *)

Definition index_out_of_range : string := "runtime error: index out of range".
Definition min_int32 : Z := (- 2 ^ 31)%Z.

(** The host and the error: there may be neither. *)
Definition getServerHost (task : Task) (app : appData) : outcome (string * option error) :=
  if negb (bool_decide (is_Some (app_IPAddressPerTask (Application_ app)))) || ForceTaskHostname p then
    Ret (if nonempty (Host task) then (Host task, None) else ("", Some "host is undefined"))
  else
    match IPAddresses task with
    | [] => Ret ("", Some "missing IP address")
    | [addr] => Ret (addr, None)
    | addrs =>
        let ipAddressIdx := GetIntValue (stringValueMap (app_Labels (Application_ app))) labelIPAddressIdx min_int32 in
        if (ipAddressIdx =? min_int32)%Z then Ret ("", Some "missing IP address index")
        else if (ipAddressIdx <? 0)%Z || (Z.of_nat (length addrs) <? ipAddressIdx)%Z then Ret ("", Some "cannot use IP address index")
        else match addrs !! Z.to_nat ipAddressIdx with Some addr => Ret (addr, None) | None => Panic index_out_of_range end
    end.

(** [Ok None]: no server, and no error. *)
Definition getServer (app : appData) (task : Task) : outcome (result (option (string * Server))) :=
  r ← getServerHost task app;
  let '(host, err) := r in
  if negb (nonempty host) then Ret (match err with Some err => Err err | None => Ok None end)
  else
    port ← getPort task app;
    let protocol := GetStringValue (SegmentLabels app) TraefikProtocol DefaultProtocol in
    let serverName := Normalize ("server-" +:+ app_ID (Application_ app) +:+ "-" +:+ task_ID task +:+ getSegmentNameSuffix (SegmentName app)) in
    Ret (Ok (Some (serverName,
      mkServer (protocol +:+ "://" +:+ JoinHostPort host port) (GetIntValue (SegmentLabels app) TraefikWeight DefaultWeight)))).

Fixpoint add_servers (servers : gmap string Server) (l : list (appData * Task)) : outcome (gmap string Server) :=
  match l with
  | [] => Ret servers
  | (app, task) :: l =>
      r ← getServer app task;
      match r with
      | Err _ => add_servers servers l
      | Ok None => Panic nil_dereference
      | Ok (Some (name, server)) => add_servers (<[name := server]> servers) l
      end
  end.

(** The tasks of an application, then those of what is linked to it. *)
Definition own_tasks (app : appData) : list (appData * Task) := map (pair app) (Tasks (Application_ app)).
Definition all_tasks (app : appData) : list (appData * Task) := own_tasks app ++ flat_map own_tasks (LinkedApps app).
Definition getServers (app : appData) : outcome (gmap string Server) := add_servers ∅ (all_tasks app).

(** ** Gathering *)

Definition filter_tasks (app : Application) : outcome Application :=
  let filteredTasks := List.filter (fun task => taskFilter task app) (Tasks app) in
  _ ← mapM (fun task => logIllegalServices task app) filteredTasks;
  Ret (set_Tasks filteredTasks app).

Definition link (base data : appData) : appData :=
  mkAppData (Application_ base) (SegmentLabels base) (SegmentName base) (LinkedApps base ++ [data]).

Definition add_app (apps : gmap string appData) (data : appData) : gmap string appData :=
  let backendName := getBackendName data in
  match apps !! backendName with
  | Some baseApp => <[backendName := link baseApp data]> apps
  | None => <[backendName := data]> apps
  end.

Definition segments_of (app : Application) : list appData :=
  map (fun kv => mkAppData app kv.2 kv.1 []) (range (ExtractTraefikLabels (stringValueMap (app_Labels app)))).

Definition gather (applications : list Application) : outcome (gmap string appData) :=
  filtered ← mapM filter_tasks (List.filter applicationFilter applications);
  Ret (foldl add_app ∅ (flat_map segments_of filtered)).

(** ** The template [templates/marathon.tmpl] *)

Context `{TimeLib}.

Definition marathon_backend (app : appData) : outcome Backend :=
  servers ← getServers app; Ret (labels_backend (SegmentLabels app) servers).

Definition route_name (app : appData) : string :=
  "route-host" +:+ replace_all (app_ID (Application_ app)) "/" "-" +:+ getSegmentNameSuffix (SegmentName app).
Definition marathon_frontend (backendName : string) (app : appData) : Frontend :=
  labels_frontend "backend" (SegmentLabels app) backendName {[route_name app := mkRoute (getFrontendRule app)]}.

Definition template_configuration (apps : gmap string appData) : outcome (result Configuration) :=
  backends ← mapM (fun kv => b ← marathon_backend kv.2; Ret (kv.1, b)) (by_key apps);
  Ret (backends ← tables backends;
       frontends ← tables (map (fun kv => (getFrontendName kv.2, marathon_frontend kv.1 kv.2)) (by_key apps));
       Ok (mkConfiguration backends frontends [])).

Definition buildConfigurationV2 `{TemplateEngine} (applications : list Application) : outcome (option Configuration) :=
  apps ← gather applications;
  c ← template_configuration apps;
  Ret (match c with Ok c => configuration_or_nil c | Err _ => None end).

(** [getConfiguration]: [answer] is what the client says of the applications. *)
Definition getConfiguration `{TemplateEngine} (answer : result (list Application)) : outcome (option Configuration) :=
  match answer with Err _ => Ret None | Ok applications => buildConfigurationV2 applications end.

End Marathon.

(** ** [Provide] ([marathon.go]) *)

(** What the loop selects: the stop channel, or an event, with the clock and the
    answer of the client at that time. *)
Inductive marathon_event := Stopped | Event (now : Task -> Z) (answer : result (list Application)).

Section Provide.
Context `{Rfc3339} `{UnicodeLib} `{order : MapOrder} `{TimeLib} `{TemplateEngine}.

Definition marathon_message (c : option Configuration) : ConfigMessage := mkConfigMessage "marathon" c.

(** The goroutine that listens: [true] when it was stopped. *)
Fixpoint event_loop (p : Provider) (events : list marathon_event) : M (list ConfigMessage) bool :=
  match events with
  | [] => mret false
  | Stopped :: _ => mret true
  | Event now answer :: events =>
      configuration ← lift_outcome (getConfiguration p now answer);
      _ ← (match configuration with
           | Some _ => modify_state (fun l => l ++ [marathon_message configuration])
           | None => mret tt
           end);
      event_loop p events
  end.

(** One attempt to connect: the TLS configuration, the client, the listener for
    events, and the answer to the first request. *)
Record attempt := mkAttempt {
  at_tls : option error;
  at_client : option error;
  at_listener : option error;
  at_now : Task -> Z;
  at_answer : result (list Application);
}.

Record provide_state := mkProvideState { listeners : nat; provided : list ConfigMessage; ps_checker : option readinessChecker }.

Definition provide_operation (p : Provider) (a : attempt) : M provide_state (option (option error)) :=
  let rc := if RespectReadinessChecks p then Some defaultReadinessChecker else None in
  _ ← modify_state (fun s => mkProvideState (listeners s) (provided s) rc);
  match at_tls a with Some err => mret (Some (Some err)) | None =>
  match at_client a with Some err => mret (Some (Some err)) | None =>
  match (if Watch p then at_listener a else None) with Some err => mret (Some (Some err)) | None =>
  _ ← (if Watch p then modify_state (fun s => mkProvideState (S (listeners s)) (provided s) (ps_checker s)) else mret tt);
  configuration ← lift_outcome (getConfiguration (set_readyChecker rc p) (at_now a) (at_answer a));
  _ ← modify_state (fun s => mkProvideState (listeners s) (provided s ++ [marathon_message configuration]) (ps_checker s));
  mret (Some None)
  end end end.

Fixpoint provide_attempts (p : Provider) (attempts : list attempt) : M provide_state (option (option error)) :=
  match attempts with
  | [] => mret None
  | a :: attempts =>
      r ← OperationWithRecover (provide_operation p a);
      match r with
      | Some (Some _) => provide_attempts p attempts
      | r => mret r
      end
  end.

Definition Provide (p : Provider) (constraints : list Constraint) (attempts : list attempt) : M provide_state (option (option error)) :=
  provide_attempts (add_constraints constraints p) attempts.
End Provide.

(** * Facts: which tasks are served

    Every server of a configuration is a running and ready task of an application
    that is enabled, every such task with a host is served, and frontends and
    backends belong together; what an application says of its addresses and ports
    can panic, and ends the listener. *)

(** ** Addresses *)

Section Facts.
Context (p : Provider) `{UnicodeLib}.

(** With several addresses the label says which, counted from 0.  The guard lets
    the number of the addresses through as well: then the task panics. *)
Theorem getServerHost_panics task app : (exists e, getServerHost p task app = Panic e) <->
  is_Some (app_IPAddressPerTask (Application_ app)) /\ ForceTaskHostname p = false /\ 2 <= length (IPAddresses task) /\
  GetIntValue (stringValueMap (app_Labels (Application_ app))) labelIPAddressIdx min_int32 = Z.of_nat (length (IPAddresses task)).
Proof.
  unfold getServerHost. destruct (app_IPAddressPerTask _) as [a|].
  2:{ simpl. split; [intros [e Hp]|intros ((? & ?) & _)]; [|done]. by destruct (nonempty _). }
  rewrite bool_decide_eq_true_2 by by exists a. destruct (ForceTaskHostname p); simpl.
  { split; [intros [e Hp]; by destruct (nonempty _)|naive_solver]. }
  destruct (IPAddresses task) as [|a1 [|a2 l]]; [split; [by intros [? ?]|simpl; intros (_ & _ & ? & _); lia]..|].
  lazy beta iota. change (S (S (length l))) with (length (a1 :: a2 :: l)). assert (2 <= length (a1 :: a2 :: l)) as H2 by (simpl; lia). revert H2. generalize (a1 :: a2 :: l). intros addrs H2.
  set (i := GetIntValue _ _ _). split.
  - intros [e Hp]. split; [by exists a|]. split; [done|]. split; [done|]. destruct (i =? min_int32)%Z eqn:E1; [done|].
    destruct ((i <? 0)%Z || _) eqn:E2; [done|]. apply orb_false_iff in E2 as [? ?].
    destruct (addrs !! Z.to_nat i) eqn:E3; [done|]. apply lookup_ge_None in E3. lia.
  - intros (_ & _ & _ & Hi). unfold min_int32. rewrite Hi.
    replace (_ =? _)%Z with false by lia. replace ((_ <? 0)%Z || _) with false by lia.
    exists index_out_of_range. rewrite Nat2Z.id. destruct (addrs !! length addrs) eqn:E; [|done]. apply lookup_lt_Some in E. lia.
Qed.

(** ** Servers *)

Lemma add_servers_spec l m m' : add_servers p m l = Ret m' ->
  (forall name s, m' !! name = Some s -> m !! name = Some s \/ exists app task, (app, task) ∈ l /\ getServer p app task = Ret (Ok (Some (name, s)))) /\
  (forall name, is_Some (m !! name) -> is_Some (m' !! name)) /\
  (forall app task name s, (app, task) ∈ l -> getServer p app task = Ret (Ok (Some (name, s))) -> is_Some (m' !! name)).
Proof.
  revert m. induction l as [|[app task] l IH]; intros m; simpl.
  { intros [= <-]. split_and!; [by left|done|]. by intros ? ? ? ? ?%elem_of_nil. }
  intros (r & Hr & Hl)%outcome_bind_inv. destruct r as [[[name server]|]|err]; [|done|].
  - destruct (IH _ Hl) as (H1 & H2 & H3). split_and!.
    + intros n s Hs. destruct (H1 n s Hs) as [Hm|(a & t & ? & ?)]; [|right; exists a, t; split; [by right|done]].
      destruct (decide (n = name)) as [->|Hne]; [|rewrite lookup_insert_ne in Hm by done; by left].
      rewrite lookup_insert_eq in Hm. simplify_eq. right. exists app, task. split; [by left|done].
    + intros n Hn. apply H2. destruct (decide (n = name)) as [->|]; [by rewrite lookup_insert_eq|by rewrite lookup_insert_ne].
    + intros a t n s [[= -> ->]|Hin]%elem_of_cons Hs; [|by eapply H3]. rewrite Hs in Hr. simplify_eq. apply H2. by rewrite lookup_insert_eq.
  - destruct (IH _ Hl) as (H1 & H2 & H3). split_and!; [|done|].
    + intros n s Hs. destruct (H1 n s Hs) as [?|(a & t & ? & ?)]; [by left|]. right. exists a, t. split; [by right|done].
    + intros a t n s [[= -> ->]|Hin]%elem_of_cons Hs; [|by eapply H3]. rewrite Hs in Hr. done.
Qed.

(** ** Gathering *)

(** The application itself, and what is linked to it. *)
Definition unlinked (a : appData) : appData := mkAppData (Application_ a) (SegmentLabels a) (SegmentName a) [].
Definition members (a : appData) : list appData := unlinked a :: LinkedApps a.

Lemma getServer_unlinked a task : getServer p (unlinked a) task = getServer p a task.
Proof. reflexivity. Qed.

Lemma elem_of_all_tasks a d task : (d, task) ∈ all_tasks a <-> (d = a \/ d ∈ LinkedApps a) /\ task ∈ Tasks (Application_ d).
Proof.
  unfold all_tasks, own_tasks. rewrite elem_of_app, list_elem_of_fmap, list_elem_of_In, in_flat_map. split.
  - intros [(t & [= -> ->] & ?)|(d' & Hd' & Ht)]; [by split; [left|]|].
    apply in_map_iff in Ht as (t & [= -> ->] & Ht). split; [right|]; by apply list_elem_of_In.
  - intros [[->|Hd] Ht]; [left; by exists task|]. right. exists d. split; [by apply list_elem_of_In|].
    apply in_map_iff. exists task. split; [done|by apply list_elem_of_In].
Qed.

Record gathered (seen : list appData) (apps : gmap string appData) : Prop := {
  ga_members : forall k a d, apps !! k = Some a -> d ∈ members a -> d ∈ seen /\ getBackendName d = k;
  ga_all : forall d, d ∈ seen -> exists a, apps !! getBackendName d = Some a /\ d ∈ members a;
}.

Lemma add_app_gathered seen apps d : LinkedApps d = [] -> gathered seen apps -> gathered (seen ++ [d]) (add_app apps d).
Proof.
  intros Hd [Hm Ha]. assert (unlinked d = d) as Hu by (destruct d; simpl in *; by subst).
  unfold add_app. set (bn := getBackendName d).
  assert (exists a', (match apps !! bn with Some base => <[bn := link base d]> apps | None => <[bn := d]> apps end) = <[bn := a']> apps /\
    d ∈ members a' /\ (forall e, e ∈ members a' -> e = d \/ exists a, apps !! bn = Some a /\ e ∈ members a) /\
    (forall a e, apps !! bn = Some a -> e ∈ members a -> e ∈ members a')) as (a' & -> & Hin & Hfrom & Hto).
  { destruct (apps !! bn) as [base|] eqn:Eb.
    - exists (link base d). unfold members, link, unlinked. simpl. split_and!; [done|set_solver| |set_solver].
      intros e He. assert (e = d \/ e ∈ members base) as [->|Hb]; [unfold members, unlinked; set_solver|by left|right; by exists base].
    - exists d. unfold members. rewrite Hu, Hd. split_and!; [done|by left| |done]. intros e ->%list_elem_of_singleton. by left. }
  split.
  - intros k a e Hk He. rewrite elem_of_app. destruct (decide (k = bn)) as [->|Hne].
    + rewrite lookup_insert_eq in Hk. simplify_eq. destruct (Hfrom e He) as [->|(a0 & Ha0 & He0)]; [set_solver|].
      destruct (Hm _ _ _ Ha0 He0). auto.
    + rewrite lookup_insert_ne in Hk by done. destruct (Hm _ _ _ Hk He). auto.
  - intros e [He| ->%list_elem_of_singleton]%elem_of_app; [|exists a'; by rewrite lookup_insert_eq].
    destruct (Ha e He) as (a0 & Ha0 & He0). destruct (decide (getBackendName e = bn)) as [E|Hne].
    + rewrite E in Ha0 |- *. exists a'. rewrite lookup_insert_eq. eauto.
    + exists a0. by rewrite lookup_insert_ne.
Qed.

Lemma fold_gathered l seen apps : Forall (fun d => LinkedApps d = []) l -> gathered seen apps -> gathered (seen ++ l) (foldl add_app apps l).
Proof.
  intros Hl. revert seen apps. induction Hl as [|d l Hd _ IH]; intros seen apps Hg; simpl; [by rewrite app_nil_r|].
  change (d :: l) with ([d] ++ l). rewrite (app_assoc seen [d] l). by apply IH, add_app_gathered.
Qed.

Context `{Rfc3339} (now : Task -> Z) `{order : MapOrder} {laws : MapOrderLaws order} `{TimeLib}.

(** What is looked at of an application: its tasks that run and are ready. *)
Definition looked_at (app : Application) : Application := set_Tasks (List.filter (fun task => taskFilter p now task app) (Tasks app)) app.
Definition segment (app : Application) (name : string) (labels : Labels) : appData := mkAppData (looked_at app) labels name [].

(** The segments of the applications that pass the filter. *)
Definition selected (applications : list Application) (d : appData) : Prop :=
  exists app name labels, app ∈ applications /\ applicationFilter p app = true /\
    ExtractTraefikLabels (stringValueMap (app_Labels app)) !! name = Some labels /\ d = segment app name labels.

Lemma gather_spec applications apps : gather p now applications = Ret apps ->
  exists seen, gathered seen apps /\ forall d, d ∈ seen <-> selected applications d.
Proof using laws.
  unfold gather. intros (filtered & Hf%mapM_Ret & [= <-])%outcome_bind_inv.
  exists (flat_map segments_of filtered). split.
  - apply (fold_gathered _ [] ∅).
    + apply Forall_forall. intros d (app & _ & Hd)%list_elem_of_In%in_flat_map. unfold segments_of in Hd. by apply in_map_iff in Hd as (kv & <- & _).
    + split; [intros k a d Hk; by rewrite lookup_empty in Hk|by intros ? ?%elem_of_nil].
  - assert (forall app app', filter_tasks p now app = Ret app' -> app' = looked_at app) as Hlook.
    { intros app app'. unfold filter_tasks. by intros (? & _ & [= <-])%outcome_bind_inv. }
    intros d. rewrite list_elem_of_In, in_flat_map. unfold selected, segments_of. split.
    + intros (app' & Hin%list_elem_of_In & ([name labels] & <- & Hr%list_elem_of_In%range_lookup)%in_map_iff).
      destruct (Forall2_in_r _ _ _ _ Hf Hin) as (app & Happ & Hft). apply Hlook in Hft as ->.
      apply list_elem_of_In, filter_In in Happ as [Happ Hok]. exists app, name, labels. split; [by apply list_elem_of_In|]. auto.
    + intros (app & name & labels & Happ & Hok & Hl & ->).
      assert (app ∈ List.filter (applicationFilter p) applications) as Hin by (by apply list_elem_of_In, filter_In; split; [apply list_elem_of_In|]).
      destruct (Forall2_in_l _ _ _ _ Hf Hin) as (app' & Happ' & Hft). apply Hlook in Hft as ->.
      exists (looked_at app). split; [by apply list_elem_of_In|]. apply in_map_iff. exists (name, labels). split; [done|]. by apply list_elem_of_In, range_lookup.
Qed.

(** ** The configuration *)

Lemma template_rendered apps c : template_configuration p apps = Ret (Ok c) ->
  (forall k b, Backends c !! k = Some b <-> exists a, apps !! k = Some a /\ marathon_backend p a = Ret b) /\
  (forall k a, apps !! k = Some a -> exists b, marathon_backend p a = Ret b) /\
  (forall name f, Frontends c !! name = Some f <-> exists k a, apps !! k = Some a /\ name = getFrontendName a /\ f = marathon_frontend p k a).
Proof.
  clear laws now. unfold template_configuration. intros (backends & Hb%mapM_Ret & [= Hc])%outcome_bind_inv.
  apply result_bind_inv in Hc as (mb & Hmb & (mf & Hmf & [= <-])%result_bind_inv).
  assert (Forall2 (fun kv kb => marathon_backend p kv.2 = Ret kb.2 /\ kb.1 = kv.1) (by_key apps) backends) as Hb'.
  { eapply Forall2_impl; [exact Hb|]. intros kv kb (b & Hkb & [= <-])%outcome_bind_inv. done. }
  split_and!.
  - intros k b. simpl. rewrite (tables_lookup _ _ _ _ Hmb). split.
    + intros Hin. destruct (Forall2_in_r _ _ _ _ Hb' Hin) as ([k' a] & Ha%by_key_lookup & ? & Hkk). simpl in *. subst. by exists a.
    + intros (a & Ha%by_key_lookup & Hab). destruct (Forall2_in_l _ _ _ _ Hb' Ha) as ([k' b'] & Hin & Hab' & Hkk).
      simpl in *. subst k'. rewrite Hab in Hab'. by injection Hab' as <-.
  - intros k a Ha%by_key_lookup. destruct (Forall2_in_l _ _ _ _ Hb' Ha) as ([k' b'] & _ & Hab' & _). by exists b'.
  - intros name f. simpl. rewrite (tables_lookup _ _ _ _ Hmf), list_elem_of_fmap. split.
    + intros ([k a] & [= -> ->] & Hk%by_key_lookup). by exists k, a.
    + intros (k & a & Hk%by_key_lookup & -> & ->). by exists (k, a).
Qed.

(** A backend of a configuration for Marathon serves exactly the tasks that
    run and are ready, of the applications that pass the filter, whose segment
    asks for that backend; a frontend names a backend that is there, and each
    backend has one. *)
Theorem ready_tasks_are_served applications apps c :
  gather p now applications = Ret apps -> template_configuration p apps = Ret (Ok c) ->
  (forall k b name s, Backends c !! k = Some b -> Servers b !! name = Some s ->
     exists d task, selected applications d /\ getBackendName d = k /\ task ∈ Tasks (Application_ d) /\
       getServer p d task = Ret (Ok (Some (name, s)))) /\
  (forall d, selected applications d -> exists b, Backends c !! getBackendName d = Some b /\
     forall task name s, task ∈ Tasks (Application_ d) -> getServer p d task = Ret (Ok (Some (name, s))) -> is_Some (Servers b !! name)) /\
  (forall k, is_Some (Backends c !! k) <-> exists name f, Frontends c !! name = Some f /\ fe_Backend f = k).
Proof using laws.
  intros Hg Hc. destruct (gather_spec _ _ Hg) as (seen & [Hm Ha] & Hseen). destruct (template_rendered _ _ Hc) as (Hb & Hbs & Hf). split_and!.
  - intros k b name s (a & Hk & Hab)%Hb Hs. apply outcome_bind_inv in Hab as (servers & Hsv & [= <-]).
    destruct (add_servers_spec _ _ _ Hsv) as (Hfrom & _). destruct (Hfrom name s Hs) as [Hn|(d & task & [Hd Ht]%elem_of_all_tasks & Hd')]; [done|].
    assert (exists d', d' ∈ members a /\ Application_ d' = Application_ d /\ getServer p d' task = getServer p d task) as (d' & Hin & Happ & Hsrv).
    { destruct Hd as [->|Hd]; [exists (unlinked a); split; [by left|done]|exists d; split; [by right|done]]. }
    destruct (Hm _ _ _ Hk Hin) as [Hsel%Hseen ?]. exists d', task. rewrite Happ, Hsrv. auto.
  - intros d Hd. apply Hseen in Hd. destruct (Ha d Hd) as (a & Hk & Hin). destruct (Hbs _ _ Hk) as (b & Hab). exists b.
    split; [by apply Hb; exists a|]. apply outcome_bind_inv in Hab as (servers & Hsv & [= <-]).
    destruct (add_servers_spec _ _ _ Hsv) as (_ & _ & Hto). intros task name s Ht Hs. simpl.
    apply elem_of_cons in Hin as [->|Hin]; [apply (Hto a task name s)|apply (Hto d task name s)]; try done; apply elem_of_all_tasks; auto.
  - intros k. split.
    + intros [b (a & Hk & _)%Hb]. exists (getFrontendName a), (marathon_frontend p k a). split; [|done]. apply Hf. by exists k, a.
    + intros (name & f & (k' & a & Hk & -> & ->)%Hf & <-). destruct (Hbs _ _ Hk) as (b & Hab). exists b. apply Hb. by exists a.
Qed.
End Facts.

(** ** Readiness *)

(** While an application with readiness checks is deployed, a task is ready when
    its first result says so; without a result, when it has been started for as
    long as the check may take. *)
Theorem readiness_spec `{Rfc3339} rc now task app timeout rest : Deployments app <> 0 -> ReadinessChecks app = Some (timeout :: rest) ->
  readinessChecker_Do (Some rc) now task app = true <->
  match List.find (fun r => bool_decide (rr_TaskID r = task_ID task)) (default [] (ReadinessCheckResults app)) with
  | Some r => Ready r = true
  | None => exists start, ParseTime (StartedAt task) = Ok start /\ (readinessCheckTimeout rc timeout <= time_Sub now start)%Z
  end.
Proof.
  intros Hd Hr. unfold readinessChecker_Do. rewrite bool_decide_eq_false_2 by done. rewrite Hr.
  destruct (List.find _ _); [done|]. destruct (ParseTime _) as [start|]; [|naive_solver].
  rewrite negb_true_iff, Z.ltb_ge. naive_solver.
Qed.

(** ** Connecting *)

(** Whatever panics is recovered: nothing here crashes the process. *)
Definition no_crash {A} (o : outcome A) : Prop := match o with Crash _ => False | _ => True end.
Create HintDb no_crash.
Lemma no_crash_bind {A B} (o : outcome A) (f : A -> outcome B) : no_crash o -> (forall a, no_crash (f a)) -> no_crash (o ≫= f).
Proof. intros Ho Hf. destruct o; [apply Hf|done..]. Qed.
Lemma no_crash_mapM {A B} (f : A -> outcome B) l : (forall x, no_crash (f x)) -> no_crash (mapM f l).
Proof. intros Hf. induction l as [|x l IH]; [done|]. simpl. apply no_crash_bind; [apply Hf|]. intros y. by apply no_crash_bind. Qed.
#[local] Hint Resolve no_crash_bind no_crash_mapM : no_crash.
#[local] Hint Extern 1 (no_crash (Ret _)) => exact I : no_crash.

Section Provide.
Context `{Rfc3339} `{UnicodeLib} `{order : MapOrder} `{TimeLib} `{TemplateEngine} (p : Provider).

Lemma no_crash_ports app task labels : no_crash (processPorts app task labels).
Proof. unfold processPorts. destruct (Has _ _); [done|]. apply no_crash_bind; [|done]. unfold retrieveAvailablePorts. by repeat case_match. Qed.
#[local] Hint Resolve no_crash_ports : no_crash.

Lemma no_crash_server app task : no_crash (getServer p app task).
Proof.
  unfold getServer. apply no_crash_bind.
  - unfold getServerHost. by repeat case_match.
  - intros [host err]. destruct (negb _); [done|]. unfold getPort. auto with no_crash.
Qed.

Lemma no_crash_servers l m : no_crash (add_servers p m l).
Proof.
  revert m. induction l as [|[app task] l IH]; intros m; [done|]. simpl. apply no_crash_bind; [apply no_crash_server|].
  intros [[[]|]|]; auto. done.
Qed.

Lemma no_crash_configuration now answer : no_crash (getConfiguration p now answer).
Proof.
  unfold getConfiguration. destruct answer as [applications|]; [|done]. unfold buildConfigurationV2. apply no_crash_bind.
  - unfold gather. apply no_crash_bind; [|done]. apply no_crash_mapM. intros app. unfold filter_tasks.
    apply no_crash_bind; [|done]. apply no_crash_mapM. intros task. unfold logIllegalServices. auto with no_crash.
  - intros apps. apply no_crash_bind; [|done]. unfold template_configuration. apply no_crash_bind; [|done].
    apply no_crash_mapM. intros [k a]. unfold marathon_backend, getServers.
    apply no_crash_bind; [|done]. apply no_crash_bind; [apply no_crash_servers|done].
Qed.
End Provide.

Section Listeners.
Context `{Rfc3339} `{UnicodeLib} `{order : MapOrder} `{TimeLib} `{TemplateEngine} (p : Provider).

(** An attempt that gets as far as the first request. *)
Definition connects (a : attempt) : bool :=
  match at_tls a, at_client a, (if Watch p then at_listener a else None) with None, None, None => true | _, _, _ => false end.
Definition started (a : attempt) : nat := if Watch p && connects a then 1 else 0.

Lemma provide_attempt_spec a s : exists r s', OperationWithRecover (provide_operation p a) s = (Ret (Some r), s') /\
  listeners s' = listeners s + started a /\
  match r with
  | None => connects a = true /\ exists c, provided s' = provided s ++ [marathon_message c]
  | Some _ => provided s' = provided s
  end.
Proof.
  unfold OperationWithRecover, provide_operation, started, connects, mbind, M_bind, modify_state. simpl.
  destruct (at_tls a); simpl; [by eexists _, _; rewrite andb_false_r; split_and!; [done|simpl; lia|done]|].
  destruct (at_client a); simpl; [by eexists _, _; rewrite andb_false_r; split_and!; [done|simpl; lia|done]|].
  destruct (Watch p) eqn:Hw; simpl; [destruct (at_listener a); simpl; [by eexists _, _; split_and!; [done|simpl; lia|done]|]|];
    unfold lift_outcome;
    pose proof (no_crash_configuration (set_readyChecker (if RespectReadinessChecks p then Some defaultReadinessChecker else None) p) (at_now a) (at_answer a)) as Hn;
    (destruct (getConfiguration _ _ _) as [c|e|e]; [| |done]);
    eexists _, _; (split; [reflexivity|]); (split; [simpl; lia|]); simpl; eauto.
Qed.

(** When [Provide] succeeds exactly one attempt did, and sent one message; but
    every attempt that registered for events and failed after that has left its
    listener behind, which goes on sending configurations of its own. *)
Theorem marathon_listeners attempts s s' : provide_attempts p attempts s = (Ret (Some None), s') ->
  exists failed a rest, attempts = failed ++ a :: rest /\ connects a = true /\
    listeners s' = listeners s + sum_list (started <$> failed) + started a /\
    exists c, provided s' = provided s ++ [marathon_message c].
Proof.
  revert s. induction attempts as [|a attempts IH]; intros s; [done|].
  destruct (provide_attempt_spec a s) as (r & s1 & Hr & Hl & Hp). unfold provide_attempts, mbind, M_bind. fold provide_attempts. rewrite Hr.
  destruct r as [err|].
  - intros Hs. destruct (IH _ Hs) as (failed & a' & rest & -> & Hc & Hl' & c & Hp'). exists (a :: failed), a', rest.
    split; [done|]. split; [done|]. split; [rewrite fmap_cons; simpl; lia|]. exists c. by rewrite Hp', Hp.
  - intros [= <-]. destruct Hp as (Hc & c & Hp). exists [], a, attempts. split; [done|]. split; [done|]. split; [simpl; lia|]. by exists c.
Qed.
End Listeners.

(** ** Examples *)

Section Examples.
#[local] Existing Instance ascii_only.
#[local] Existing Instance forward_order.
#[local] Instance no_times : Rfc3339 := fun _ => Err "no time".
#[local] Instance no_durations : TimeLib := fun _ => Err "no duration".
#[local] Instance plain_engine : TemplateEngine := Ok.

Definition sample_provider : Provider := mkProvider true [] "m.org" true false false false false false None.
Definition sample_task (id : string) : Task := mkTask id "host" [8080%Z] "TASK_RUNNING" "" ["10.0.0.1"; "10.0.0.2"].
Definition sample_app (id : string) (labels : Labels) : Application :=
  mkApplication id (Some labels) None [sample_task "t"] None None 0 None None.
Definition ip_app (id : string) (labels : Labels) (addrs : list string) : Application :=
  mkApplication id (Some labels) None [mkTask "t" "host" [] "TASK_RUNNING" "" addrs] None
    (Some (mkIPAddressPerTask (Some (mkDiscovery (Some [80%Z]))))) 0 None None.
Definition sample_names (o : outcome (option Configuration)) : outcome (option (list string * list string)) :=
  match o with
  | Ret c => Ret (option_map (fun c => ((map_to_list (Backends c)).*1, (map_to_list (Frontends c)).*1)) c)
  | Panic e => Panic e
  | Crash e => Crash e
  end.

(** Two applications whose names differ in their separators are one: the second has
    no frontend, and its tasks answer for the first. *)
Example applications_merge :
  sample_names (getConfiguration sample_provider (fun _ => 0%Z) (Ok [sample_app "/shop/api" ∅; sample_app "/shop-api" ∅]))
  = Ret (Some (["backend-shop-api"], ["frontend-shop-api"])).
Proof. by vm_compute. Qed.

(** With a backend of their own each they are two tables of one name, and the whole
    configuration is lost. *)
Example frontends_collide :
  sample_names (getConfiguration sample_provider (fun _ => 0%Z)
    (Ok [sample_app "/shop/api" {["traefik.backend" := "a"]}; sample_app "/shop-api" {["traefik.backend" := "b"]}; sample_app "/other" ∅]))
  = Ret None.
Proof. by vm_compute. Qed.

(** An index that is the number of the addresses, an empty address and a
    discovery without ports panic. *)
Example index_panics :
  sample_names (getConfiguration sample_provider (fun _ => 0%Z) (Ok [ip_app "/a" {["traefik.ipAddressIdx" := "2"]} ["10.0.0.1"; "10.0.0.2"]]))
  = Panic index_out_of_range.
Proof. by vm_compute. Qed.
Example empty_address_panics :
  sample_names (getConfiguration sample_provider (fun _ => 0%Z) (Ok [ip_app "/a" ∅ [""]])) = Panic nil_dereference.
Proof. by vm_compute. Qed.

(** A port that is none does not keep the server away: its address has no port. *)
Example server_without_port :
  getServers sample_provider (mkAppData (sample_app "/a" ∅) {["traefik.port" := "0"]} "" [])
  = Ret {["server-a-t" := mkServer "http://host:" 1]}.
Proof. by vm_compute. Qed.

Definition gathered_sample : gmap string appData :=
  match gather sample_provider (fun _ => 0%Z) [sample_app "/a" ∅] with Ret apps => apps | _ => ∅ end.
Definition configuration_sample : Configuration :=
  match template_configuration sample_provider gathered_sample with Ret (Ok c) => c | _ => mkConfiguration ∅ ∅ [] end.

Lemma ready_tasks_are_served_witness :
  exists b, Backends configuration_sample !! "backend-a" = Some b /\ is_Some (Servers b !! "server-a-t").
Proof.
  destruct (ready_tasks_are_served sample_provider (fun _ => 0%Z) [sample_app "/a" ∅] gathered_sample configuration_sample) as (_ & Hd & _).
  - by vm_compute.
  - by vm_compute.
  - destruct (Hd (segment sample_provider (fun _ => 0%Z) (sample_app "/a" ∅) "" ∅)) as (b & Hb & Hs).
    + exists (sample_app "/a" ∅), "", ∅. split_and!; [by left|by vm_compute|by vm_compute|done].
    + exists b. split; [exact Hb|]. apply (Hs (sample_task "t") "server-a-t" (mkServer "http://host:8080" 1)); [by left|by vm_compute].
Defined.

Definition attempts_sample : list attempt :=
  let a answer := mkAttempt None None None (fun _ => 0%Z) (Ok answer) in [a [ip_app "/a" ∅ [""]]; a []].
Definition provided_sample : provide_state :=
  (provide_attempts sample_provider attempts_sample (mkProvideState 0 [] None)).2.

(** The first answer panics after the registration, the second does not: two
    listeners are left. *)
Lemma marathon_listeners_witness : listeners provided_sample = 2 /\ exists c, provided provided_sample = [marathon_message c].
Proof.
  destruct (marathon_listeners sample_provider attempts_sample (mkProvideState 0 [] None) provided_sample)
    as (failed & b & rest & _ & _ & _ & Hp); [by vm_compute|]. split; [by vm_compute|exact Hp].
Defined.
End Examples.
