(* ===== verification/Mesos.v ===== *)
(** * [provider/mesos/]: configurations from the tasks of a Mesos cluster

    The tasks that run are filtered and gathered by the names of their services.
    The state of the master and the addresses of a task are those of
    [mesos-dns], a parameter. *)
From S2P Require Import Prelude GoStrings GoStringsFacts GoHttp OsioClient GoStrconv Types Domains OsioProvider LabelNames Label Cookie Kv.
From S2P Require Import ProviderBase.

(** ** Data ([mesos-dns], what is used of it) *)

Record Task := mkTask {
  task_ID : string;
  task_Name : string;
  SlaveID : string;
  State : string;
  Healthy : list (option bool);            (* of its statuses *)
  Discovery_Name : string;
  DiscoveryPorts : list Z;
  SlaveIP : string;
  task_Labels : list (string * string);
}.
Definition set_SlaveIP (ip : string) (t : Task) : Task :=
  mkTask (task_ID t) (task_Name t) (SlaveID t) (State t) (Healthy t) (Discovery_Name t) (DiscoveryPorts t) ip (task_Labels t).

(** A slave: its identifier, and the host of its process, if it has one. *)
Record MesosState := mkMesosState { Frameworks : list (list Task); Slaves : list (string * option string) }.

(** [Task.IP]: the first address of a task the sources give. *)
Class TaskIP := task_IP : Task -> list string -> string.

Record taskData := mkTaskData { td_Task : Task; TraefikLabels : Labels }.

Record Provider := mkProvider {
  Watch : bool;
  Endpoint : string;
  Domain : string;
  ExposedByDefault : bool;
  GroupsAsSubDomains : bool;
  IPSources : string;
  ZkDetectionTimeout : Z;
  Masters : list string;
}.
Definition set_Masters (l : list string) (p : Provider) : Provider :=
  mkProvider (Watch p) (Endpoint p) (Domain p) (ExposedByDefault p) (GroupsAsSubDomains p) (IPSources p) (ZkDetectionTimeout p) l.

(** ** Labels and ports ([config.go]) *)

Definition extractLabels (task : Task) : Labels := foldl (fun m kv => <[kv.1 := kv.2]> m) ∅ (task_Labels task).

Definition getIntValue (labels : Labels) (labelName : string) (defaultValue maxValue : Z) : Z :=
  let value := GetIntValue labels labelName defaultValue in
  if (value <=? maxValue)%Z then value else defaultValue.

Definition isEnabled (task : taskData) (exposedByDefault : bool) : bool := GetBoolValue (TraefikLabels task) TraefikEnable exposedByDefault.

Definition last_index (task : Task) : Z := (Z.of_nat (length (DiscoveryPorts task)) - 1)%Z.

(** The three checks of the labels of the port, each as the source has it. *)
Definition port_index_ok (task : Task) (portIndexLabel : string) : bool :=
  match Atoi portIndexLabel with Ok index => negb ((index <? 0)%Z || (last_index task <? index)%Z) | Err _ => false end.
Definition port_value_ok (task : Task) (portValueLabel : string) : bool :=
  match Atoi portValueLabel with Ok port => bool_decide (port ∈ DiscoveryPorts task) | Err _ => false end.

Definition taskFilter (task : taskData) (exposedByDefaultFlag : bool) : bool :=
  if bool_decide (DiscoveryPorts (td_Task task) = []) then false else
  if negb (isEnabled task exposedByDefaultFlag) then false else
  let portIndexLabel := GetStringValue (TraefikLabels task) TraefikPortIndex "" in
  let portValueLabel := GetStringValue (TraefikLabels task) TraefikPort "" in
  if nonempty portIndexLabel && nonempty portValueLabel then false else
  if nonempty portIndexLabel && negb (port_index_ok (td_Task task) portIndexLabel) then false else
  if nonempty portValueLabel && negb (port_value_ok (td_Task task) portValueLabel) then false else
  match Healthy (td_Task task) with Some false :: _ => false | _ => true end.

Definition min_int32 : Z := (- 2 ^ 31)%Z.
Definition max_int32 : Z := (2 ^ 31 - 1)%Z.

Definition getServerPort (task : taskData) : string :=
  let ports := DiscoveryPorts (td_Task task) in
  let plv := getIntValue (TraefikLabels task) TraefikPortIndex min_int32 (last_index (td_Task task)) in
  if (0 <=? plv)%Z then pretty (nth (Z.to_nat plv) ports 0%Z) else
  let pv := GetStringValue (TraefikLabels task) TraefikPort "" in
  if nonempty pv then pv else match ports with port :: _ => pretty port | [] => "" end.

(** ** Names and servers *)

Section Mesos.
Context (p : Provider) `{UnicodeLib} `{TaskIP}.

Definition getID (task : taskData) : string := Normalize (task_ID (td_Task task)).
Definition getBackendName (task : taskData) : string :=
  GetStringValue (TraefikLabels task) TraefikBackend (Normalize (Discovery_Name (td_Task task))).
Definition getFrontendName (task : taskData) : string := Normalize (task_ID (td_Task task)).

Definition getSubDomain (name : string) : string :=
  if GroupsAsSubDomains p then join (ReverseStringSlice (split (trim_prefix name "/") "/")) "."
  else replace_all (trim_prefix name "/") "/" "-".

Definition getFrontendRule (task : taskData) : string :=
  let v := GetStringValue (TraefikLabels task) TraefikFrontendRule "" in
  if nonempty v then v else
  let domain := GetStringValue (TraefikLabels task) TraefikDomain (Domain p) in
  "Host:" +:+ to_lower (replace_all (getSubDomain (Discovery_Name (td_Task task))) "_" "-") +:+ "." +:+ domain.

Definition getHost (task : taskData) : string := task_IP (td_Task task) (split (IPSources p) ",").

Definition mesos_server (task : taskData) : Server :=
  mkServer (GetStringValue (TraefikLabels task) TraefikProtocol DefaultProtocol +:+ "://" +:+ JoinHostPort (getHost task) (getServerPort task))
    (getIntValue (TraefikLabels task) TraefikWeight DefaultWeight max_int32).
Definition getServers (tasks : list taskData) : gmap string Server :=
  foldl (fun servers task => <["server-" +:+ getID task := mesos_server task]> servers) ∅ tasks.

(** ** The configuration *)

Definition taskData_of (task : Task) : taskData := mkTaskData task (extractLabels task).

Definition add_task (appsTasks : gmap string (list taskData)) (data : taskData) : gmap string (list taskData) :=
  let name := Discovery_Name (td_Task data) in
  match appsTasks !! name with
  | None => <[name := [data]]> appsTasks
  | Some tasks => <[name := tasks ++ [data]]> appsTasks
  end.

Definition gather (tasks : list Task) : gmap string (list taskData) :=
  foldl add_task ∅ (List.filter (fun data => taskFilter data (ExposedByDefault p)) (map taskData_of tasks)).

(** The template [templates/mesos.tmpl]: what an application is asked about is
    its first task. *)
Context `{TimeLib} `{order : MapOrder}.

Definition mesos_backend (tasks : list taskData) (app : taskData) : string * Backend :=
  ("backend-" +:+ getBackendName app, labels_backend (TraefikLabels app) (getServers tasks)).
Definition mesos_frontend (app : taskData) : string * Frontend :=
  ("frontend-" +:+ getFrontendName app,
   labels_frontend "backend-" (TraefikLabels app) ("backend-" +:+ getBackendName app)
     {["route-host-" +:+ getFrontendName app := mkRoute (getFrontendRule app)]}).

(** [index $tasks 0] *)
Definition applications (appsTasks : gmap string (list taskData)) : list (taskData * list taskData) :=
  omap (fun kv => match kv.2 with [] => None | app :: _ => Some (app, kv.2) end) (by_key appsTasks).

Definition template_configuration (appsTasks : gmap string (list taskData)) : result Configuration :=
  backends ← tables (map (fun at_ => mesos_backend at_.2 at_.1) (applications appsTasks));
  frontends ← tables (map (fun at_ => mesos_frontend at_.1) (applications appsTasks));
  Ok (mkConfiguration backends frontends []).

Definition buildConfigurationV2 `{TemplateEngine} (tasks : list Task) : option Configuration :=
  match template_configuration (gather tasks) with Ok c => configuration_or_nil c | Err _ => None end.

(** ** Tasks ([mesos.go]) *)

(** The slave of a task that is listed last decides; one without a process panics. *)
Fixpoint find_slave (task : Task) (slaves : list (string * option string)) : outcome Task :=
  match slaves with
  | [] => Ret task
  | (id, host) :: slaves =>
      if bool_decide (SlaveID task = id)
      then match host with None => Panic nil_dereference | Some host => find_slave (set_SlaveIP host task) slaves end
      else find_slave task slaves
  end.

Definition taskRecords (st : MesosState) : outcome (list Task) :=
  tasks ← mapM (fun task => find_slave task (Slaves st)) (concat (Frameworks st));
  Ret (List.filter (fun task => bool_decide (State task = "TASK_RUNNING")) tasks).

(** [answer] is the state the master that was found gives. *)
Definition getTasks (answer : result MesosState) : outcome (list Task) :=
  match answer with Err _ => Ret [] | Ok st => taskRecords st end.

Definition next_configuration `{TemplateEngine} (answer : result MesosState) : outcome (option Configuration) :=
  tasks ← getTasks answer; Ret (buildConfigurationV2 tasks).
End Mesos.

(** ** The loop of [Provide] *)

(** What it selects: the ticker, new masters, an error of the detection. *)
Inductive mesos_event :=
  | Tick (answer : result MesosState)
  | Changed (masters : list string) (answer : result MesosState)
  | Detection (err : error).

(** Whether the ticker and the timer of the detection run, and what was sent. *)
Record loop_state := mkLoopState { ticking : bool; timing : bool; provider : Provider; sent : list ConfigMessage }.

Section Provide.
Context `{UnicodeLib} `{TaskIP} `{TimeLib} `{order : MapOrder} `{TemplateEngine}.

Definition loop_start (p : Provider) : loop_state := mkLoopState (Watch p) (Watch p) p [].

(** A configuration that is not nil is sent. *)
Definition send_next (answer : result MesosState) : M loop_state unit := fun s =>
  match next_configuration (provider s) answer with
  | Ret (Some c) => (Ret tt, mkLoopState (ticking s) (timing s) (provider s) (sent s ++ [mkConfigMessage "mesos" (Some c)]))
  | Ret None => (Ret tt, s)
  | Panic e => (Panic e, s)
  | Crash e => (Crash e, s)
  end.

Definition no_leader (masters : list string) : bool := match masters with [] => true | m :: _ => negb (nonempty m) end.

Definition loop_step (e : mesos_event) : M loop_state unit :=
  match e with
  | Tick answer => send_next answer
  | Changed masters answer =>
      _ ← modify_state (fun s => mkLoopState (ticking s) (no_leader masters) (set_Masters masters (provider s)) (sent s));
      send_next answer
  | Detection _ => mret tt
  end.

Fixpoint provide_loop (events : list mesos_event) : M loop_state unit :=
  match events with
  | [] => mret tt
  | e :: events => _ ← loop_step e; provide_loop events
  end.

(** [util.HandleCrash] recovers what panics and logs it: the operation then returns
    nil, and is not tried again.  [None] is a loop that waits. *)
Definition HandleCrash (m : M loop_state unit) : M loop_state (option (option error)) := fun s =>
  match m s with
  | (Ret _, s) => (Ret None, s)
  | (Panic _, s) => (Ret (Some None), s)
  | (Crash e, s) => (Crash e, s)
  end.
(** The constraints are not looked at. *)
Definition Provide (p : Provider) (constraints : list Constraint) (events : list mesos_event) : outcome (option (option error)) * loop_state :=
  HandleCrash (provide_loop events) (loop_start p).

(** [detectMasters], without Zookeeper: the masters of the endpoint, at once. *)
Definition first_masters (p : Provider) : option (list string) :=
  if has_prefix (Endpoint p) "zk://" then None else Some (split (Endpoint p) ",").
End Provide.

(** * Facts: which tasks are served

    The servers of a configuration are the tasks that pass the filter, each with
    one of the ports it announced; two services that share a backend take the
    whole configuration away, and a panic ends the provider for good. *)

(** ** Ports *)

(** A task that passes the filter is served with a port it announced: the number
    of one, or the text of the label, which parses to one. *)
Theorem server_port_announced task exposed : taskFilter task exposed = true ->
  exists port, port ∈ DiscoveryPorts (td_Task task) /\
    (getServerPort task = pretty port \/ Atoi (getServerPort task) = Ok port).
Proof.
  unfold taskFilter. case_bool_decide as Hp; [done|]. destruct (isEnabled _ _); [|done]. simpl.
  set (i := GetStringValue _ TraefikPortIndex ""). set (v := GetStringValue _ TraefikPort "").
  destruct (nonempty i && nonempty v) eqn:Hiv; [done|]. destruct (nonempty i && negb _) eqn:Hi; [done|].
  destruct (nonempty v && negb _) eqn:Hv; [done|]. intros _. unfold getServerPort, getIntValue. fold v.
  destruct (0 <=? _)%Z eqn:Hplv.
  - eexists. split; [|by left]. apply list_elem_of_In, nth_In.
    destruct (_ <=? last_index _)%Z eqn:Hl in Hplv |- *; [|unfold min_int32 in Hplv; lia]. unfold last_index in Hl.
    lia.
  - destruct (nonempty v) eqn:Hnv.
    + simpl in Hv. apply negb_false_iff in Hv. unfold port_value_ok in Hv. destruct (Atoi v) as [port|] eqn:Ev; [|done].
      bool_simpl. exists port. auto.
    + destruct (DiscoveryPorts _) as [|port l]; [done|]. exists port. split; [by left|by left].
Qed.

(** ** Gathering *)

Section Facts.
Context (p : Provider) `{UnicodeLib} `{TaskIP}.

(** The services with their tasks, none empty, in the order of the tasks. *)
Record gathered (seen : list taskData) (apps : gmap string (list taskData)) : Prop := {
  ga_from : forall name l, apps !! name = Some l -> l <> [] /\ forall d, d ∈ l <-> d ∈ seen /\ Discovery_Name (td_Task d) = name;
  ga_to : forall d, d ∈ seen -> is_Some (apps !! Discovery_Name (td_Task d));
}.

Lemma add_task_gathered seen apps d : gathered seen apps -> gathered (seen ++ [d]) (add_task apps d).
Proof.
  intros [Hf Ht]. set (n := Discovery_Name (td_Task d)).
  assert (add_task apps d = <[n := default [] (apps !! n) ++ [d]]> apps) as -> by (unfold add_task; fold n; by destruct (apps !! n)).
  split.
  - intros name l. destruct (decide (name = n)) as [->|Hne].
    + rewrite lookup_insert_eq. intros [= <-]. split; [by destruct (default _ _)|]. intros e. rewrite !elem_of_app, list_elem_of_singleton.
      destruct (apps !! n) as [l|] eqn:Hl; simpl.
      * destruct (Hf _ _ Hl) as [_ Hin]. rewrite Hin. naive_solver.
      * split; [intros [?%elem_of_nil| ->]; naive_solver|]. intros [[He| ->] Hn]; [|by right].
        destruct (Ht e He) as [l' Hl']. rewrite Hn in Hl'. congruence.
    + rewrite lookup_insert_ne by done. intros Hl. destruct (Hf _ _ Hl) as [Hne' Hin]. split; [done|]. intros e.
      rewrite Hin, elem_of_app, list_elem_of_singleton. split; [naive_solver|]. intros [[?| ->] <-]; [done|]. by destruct Hne.
  - intros e He. destruct (decide (Discovery_Name (td_Task e) = n)) as [->|Hne]; [by rewrite lookup_insert_eq|].
    rewrite lookup_insert_ne by done. apply elem_of_app in He as [?| ->%list_elem_of_singleton]; [by apply Ht|done].
Qed.

(** The data of the tasks that pass the filter. *)
Definition selected (tasks : list Task) : list taskData :=
  List.filter (fun data => taskFilter data (ExposedByDefault p)) (map taskData_of tasks).

Lemma gather_gathered tasks : gathered (selected tasks) (gather p tasks).
Proof.
  unfold gather. fold (selected tasks).
  assert (forall l seen apps, gathered seen apps -> gathered (seen ++ l) (foldl add_task apps l)) as Hgo.
  { induction l as [|d l IH]; intros seen apps Hg; simpl; [by rewrite app_nil_r|].
    change (d :: l) with ([d] ++ l). rewrite (app_assoc seen [d] l). by apply IH, add_task_gathered. }
  apply (Hgo _ [] ∅). split; [intros ? ?; by rewrite lookup_empty|by intros ? ?%elem_of_nil].
Qed.

Lemma getServers_lookup l name s : getServers p l !! name = Some s -> exists d, d ∈ l /\ name = "server-" +:+ getID d /\ s = mesos_server p d.
Proof.
  unfold getServers. induction l as [|d l IH] using rev_ind; [done|]. rewrite foldl_app. simpl.
  destruct (decide (name = "server-" +:+ getID d)) as [->|Hne].
  - rewrite lookup_insert_eq. intros [= <-]. exists d. split; [set_solver|done].
  - rewrite lookup_insert_ne by done. intros Hs. destruct (IH Hs) as (d' & ? & ? & ?). exists d'. set_solver.
Qed.

Lemma getServers_in l d : d ∈ l -> is_Some (getServers p l !! ("server-" +:+ getID d)).
Proof.
  unfold getServers. induction l as [|d' l IH] using rev_ind; [by intros ?%elem_of_nil|]. rewrite foldl_app. simpl.
  intros Hd. destruct (decide ("server-" +:+ getID d = "server-" +:+ getID d')) as [->|Hne]; [by rewrite lookup_insert_eq|].
  rewrite lookup_insert_ne by done. apply elem_of_app in Hd as [?| ->%list_elem_of_singleton]; [by apply IH|done].
Qed.

(** ** The configuration *)

Context `{TimeLib} `{order : MapOrder}.

Lemma elem_of_applications apps app l : (app, l) ∈ applications apps <-> exists name l', apps !! name = Some l /\ l = app :: l'.
Proof.
  unfold applications. rewrite list_elem_of_omap. split.
  - intros ([name tasks] & Hk%by_key_lookup & Hm). simpl in Hm. destruct tasks as [|a l']; [done|]. injection Hm as <- <-. by exists name, l'.
  - intros (name & l' & Hk%by_key_lookup & ->). exists (name, app :: l'). done.
Qed.

Lemma template_spec apps c : template_configuration p apps = Ok c ->
  (forall k b, Backends c !! k = Some b <-> exists app l, (app, l) ∈ applications apps /\ (k, b) = mesos_backend p l app) /\
  (forall k f, Frontends c !! k = Some f <-> exists app l, (app, l) ∈ applications apps /\ (k, f) = mesos_frontend p app).
Proof.
  unfold template_configuration. intros (bs & Hbs & (fs & Hfs & [= <-])%result_bind_inv)%result_bind_inv. simpl. split; intros k x.
  - rewrite (tables_lookup _ _ _ _ Hbs), list_elem_of_fmap. split; [intros ([app l] & E & ?); by exists app, l|].
    intros (app & l & ? & E). by exists (app, l).
  - rewrite (tables_lookup _ _ _ _ Hfs), list_elem_of_fmap. split; [intros ([app l] & E & ?); by exists app, l|].
    intros (app & l & ? & E). by exists (app, l).
Qed.

(** When there is a configuration, each task that passes the filter is a server of
    the backend the first task of its service names, under the name of its
    identifier, and there are no other servers; a frontend names a backend that is
    there, and each backend has one. *)
Theorem mesos_tasks_are_served tasks c : template_configuration p (gather p tasks) = Ok c ->
  (forall k b name s, Backends c !! k = Some b -> Servers b !! name = Some s ->
     exists d, d ∈ selected tasks /\ name = "server-" +:+ getID d /\ s = mesos_server p d) /\
  (forall d, d ∈ selected tasks -> exists first b, first ∈ selected tasks /\
     Discovery_Name (td_Task first) = Discovery_Name (td_Task d) /\
     Backends c !! ("backend-" +:+ getBackendName first) = Some b /\ is_Some (Servers b !! ("server-" +:+ getID d))) /\
  (forall k, is_Some (Backends c !! k) <-> exists name f, Frontends c !! name = Some f /\ fe_Backend f = k).
Proof.
  intros Hc. destruct (template_spec _ _ Hc) as [Hb Hf]. destruct (gather_gathered tasks) as [Hg Hin]. split_and!.
  - intros k b name s (app & l & (n & l' & Hn & _)%elem_of_applications & [= _ ->])%Hb (d & Hd & -> & ->)%getServers_lookup.
    exists d. split; [|done]. by apply (Hg _ _ Hn) in Hd as [? _].
  - intros d Hd. destruct (Hin d Hd) as [l Hl]. destruct (Hg _ _ Hl) as [Hne Hiff]. destruct l as [|first l']; [done|].
    assert (first ∈ first :: l') as [Hf1 Hf2]%Hiff by left. exists first, (mesos_backend p (first :: l') first).2. split_and!; [done..| |].
    + apply Hb. exists first, (first :: l'). split; [|done]. apply elem_of_applications. by exists (Discovery_Name (td_Task d)), l'.
    + apply getServers_in. by apply Hiff.
  - intros k. split.
    + intros [b (app & l & Hal & [= -> _])%Hb]. eexists _, _. split; [apply Hf; exists app, l; split; [exact Hal|reflexivity]|done].
    + intros (name & f & (app & l & Hal & [= _ ->])%Hf & <-). eexists. apply Hb. exists app, l. split; [exact Hal|reflexivity].
Qed.

(** Services whose first tasks name the same backend leave no configuration at all. *)
Theorem shared_backend_loses_all `{TemplateEngine} tasks n1 n2 a1 a2 l1 l2 : n1 <> n2 ->
  gather p tasks !! n1 = Some (a1 :: l1) -> gather p tasks !! n2 = Some (a2 :: l2) -> getBackendName a1 = getBackendName a2 ->
  buildConfigurationV2 p tasks = None.
Proof.
  intros Hne H1' H2' Hb. unfold buildConfigurationV2, template_configuration.
  destruct (tables (map (fun at_ => mesos_backend p at_.2 at_.1) _)) as [m|e] eqn:Ht; [|done]. exfalso. unfold tables in Ht. case_bool_decide as Hnd; [|done]. clear Ht.
  assert (NoDup (by_key (gather p tasks)).*1) as Hk by apply by_key_NoDup.
  apply by_key_lookup in H1' as Hi1, H2' as Hi2. revert Hnd Hk Hi1 Hi2. unfold applications. generalize (by_key (gather p tasks)). clear -Hne Hb.
  intros l. induction l as [|[n tasks] l IH]; intros Hnd Hk Hi1 Hi2; [by apply elem_of_nil in Hi1|].
  assert (forall n a l0, (n, a :: l0) ∈ l -> "backend-" +:+ getBackendName a ∈ (map (fun at_ => mesos_backend p at_.2 at_.1)
    (omap (fun kv : string * list taskData => match kv.2 with [] => None | app :: _ => Some (app, kv.2) end) l)).*1) as Hin.
  { intros m a l0 Hm. apply list_elem_of_fmap. exists (mesos_backend p (a :: l0) a). split; [done|]. apply list_elem_of_fmap.
    exists (a, a :: l0). split; [done|]. apply list_elem_of_omap. by exists (m, a :: l0). }
  apply NoDup_cons in Hk as [Hn Hk]. apply elem_of_cons in Hi1, Hi2.
  destruct Hi1 as [Hi1|Hi1], Hi2 as [Hi2|Hi2]; simplify_eq; simpl in Hnd.
  - apply NoDup_cons in Hnd as [Hnot _]. apply Hnot. simpl. rewrite Hb. by eapply Hin.
  - apply NoDup_cons in Hnd as [Hnot _]. apply Hnot. simpl. rewrite <- Hb. by eapply Hin.
  - apply IH; try done. destruct tasks; [done|]. by apply NoDup_cons in Hnd as [_ ?].
Qed.
End Facts.

(** ** The loop *)

Section Loop.
Context `{UnicodeLib} `{TaskIP} `{TimeLib} `{order : MapOrder} `{TemplateEngine}.

(** The provider ends when something panics, without an error and for good: what was
    sent then is what the events before made it send. *)
Theorem mesos_provider_ends p constraints before e after s : provide_loop before (loop_start p) = (Ret tt, s) ->
  (exists err, (loop_step e s).1 = Panic err) ->
  exists s', Provide p constraints (before ++ e :: after) = (Ret (Some None), s') /\ sent s' = sent s.
Proof.
  intros Hb [err He]. unfold Provide, HandleCrash.
  assert (forall l1 l2 s0, provide_loop (l1 ++ l2) s0 = (provide_loop l1 ≫= fun _ => provide_loop l2) s0) as Happ.
  { induction l1 as [|e1 l1 IH]; intros l2 s0; [done|]. simpl. rewrite bind_assoc. unfold mbind, M_bind.
    destruct (loop_step e1 s0) as [[] s1]; [|done|done]. apply IH. }
  rewrite Happ. unfold mbind at 1, M_bind at 1. rewrite Hb. simpl. unfold mbind, M_bind.
  assert (forall answer s1, sent (send_next answer s1).2 = sent s1 \/ (send_next answer s1).1 = Ret tt) as Hs.
  { intros answer s1. unfold send_next. by destruct (next_configuration _ _) as [[]| |]; [right|left|left|left]. }
  destruct e as [answer|masters answer|e]; [| |done].
  - simpl in *. destruct (Hs answer s) as [Hk|Hr]; [|by rewrite Hr in He]. destruct (send_next answer s) as [o s1]. simpl in *. subst o. by exists s1.
  - simpl in *. unfold mbind, M_bind, modify_state in *. set (s0 := mkLoopState _ _ _ _) in *.
    destruct (Hs answer s0) as [Hk|Hr]; [|by rewrite Hr in He]. destruct (send_next answer s0) as [o s1]. simpl in *. subst o. by exists s1.
Qed.
End Loop.

(** ** Examples *)

Section Examples.
#[local] Existing Instance ascii_only.
#[local] Existing Instance forward_order.
#[local] Instance slave_ip : TaskIP := fun t _ => SlaveIP t.
#[local] Instance without_durations : TimeLib := fun _ => Err "no duration".
#[local] Instance same_text : TemplateEngine := Ok.

Definition mesos_sample : Provider := mkProvider true "zk://m" "m.org" true false "host" 30 [].
Definition task_named (id name : string) (labels : list (string * string)) : Task :=
  mkTask id name "s1" "TASK_RUNNING" [] name [8080%Z; 9090%Z] "" labels.

Lemma server_port_announced_witness :
  let d := taskData_of (task_named "t" "web" [("traefik.portIndex", "1")]) in
  exists port, port ∈ [8080%Z; 9090%Z] /\ (getServerPort d = pretty port \/ Atoi (getServerPort d) = Ok port).
Proof. apply (server_port_announced (taskData_of (task_named "t" "web" [("traefik.portIndex", "1")])) true). by vm_compute. Defined.

(** A label that is no plain number passes the filter, and is in the address. *)
Example port_text_is_kept : getServerPort (taskData_of (task_named "t" "web" [("traefik.port", "+8080")])) = "+8080"
  /\ taskFilter (taskData_of (task_named "t" "web" [("traefik.port", "+8080")])) true = true.
Proof. by vm_compute. Qed.

Lemma shared_backend_loses_all_witness :
  buildConfigurationV2 mesos_sample [task_named "a" "web" [("traefik.backend", "x")]; task_named "b" "api" [("traefik.backend", "x")]] = None.
Proof. by apply (shared_backend_loses_all mesos_sample _ "web" "api"
  (taskData_of (task_named "a" "web" [("traefik.backend", "x")])) (taskData_of (task_named "b" "api" [("traefik.backend", "x")])) [] []). Defined.

Definition mesos_tasks : list Task := [task_named "a" "web" []; task_named "b" "api" []; task_named "c" "web" []].
Definition mesos_configuration : Configuration :=
  match template_configuration mesos_sample (gather mesos_sample mesos_tasks) with Ok c => c | Err _ => mkConfiguration ∅ ∅ [] end.

Lemma mesos_tasks_are_served_witness :
  exists first b, Discovery_Name (td_Task first) = "web" /\
    Backends mesos_configuration !! ("backend-" +:+ getBackendName first) = Some b /\ is_Some (Servers b !! "server-c").
Proof.
  destruct (mesos_tasks_are_served mesos_sample mesos_tasks mesos_configuration) as (_ & Hd & _); [by vm_compute|].
  destruct (Hd (taskData_of (task_named "c" "web" []))) as (first & b & _ & Hn & Hb & Hs).
  - apply list_elem_of_lookup. exists 2. by vm_compute.
  - exists first, b. split_and!; [exact Hn|exact Hb|exact Hs].
Defined.

(** A slave without a process panics, and the task of another framework is never seen. *)
Example slave_without_process :
  taskRecords (mkMesosState [[task_named "a" "web" []]] [("s1", None)]) = Panic nil_dereference.
Proof. by vm_compute. Qed.
End Examples.
