(* ===== verification/Rancher.v ===== *)
(** * [provider/rancher/]: configurations from the services of Rancher

    The services come from the API or from the metadata service, with the
    addresses of their containers; they are filtered and cut into segments.  The
    two clients are parameters. *)
From S2P Require Import Prelude GoStrings GoStringsFacts GoHttp OsioClient GoStrconv Types Domains OsioProvider LabelNames Label LabelSegment Cookie.
From S2P Require Import Kv ProviderBase.

(** ** Data ([rancher.go]) *)

Record rancherData := mkRancherData {
  Name : string;
  rd_Labels : Labels;
  Containers : list string;
  Health : string;
  State : string;
  SegmentLabels : Labels;
  SegmentName : string;
}.
Definition set_segment (segmentName : string) (labels : Labels) (s : rancherData) : rancherData :=
  mkRancherData (Name s) (rd_Labels s) (Containers s) (Health s) (State s) labels segmentName.

Record Provider := mkProvider {
  Watch : bool;
  Constraints : list Constraint;
  Domain : string;
  ExposedByDefault : bool;
  EnableServiceHealthFilter : bool;
}.
Definition add_constraints (l : list Constraint) (p : Provider) : Provider :=
  mkProvider (Watch p) (Constraints p ++ l) (Domain p) (ExposedByDefault p) (EnableServiceHealthFilter p).

(** The states of services and containers. *)
Definition healthy : string := "healthy".
Definition updatingHealthy : string := "updating-healthy".
Definition active : string := "active".
Definition running : string := "running".
Definition upgraded : string := "upgraded".
Definition upgrading : string := "upgrading".
Definition updatingActive : string := "updating-active".
Definition updatingRunning : string := "updating-running".

Definition containerFilter (healthState state : string) : bool :=
  bool_decide (healthState ∈ [""; healthy; updatingHealthy]) && bool_decide (state ∈ [""; running; updatingRunning; upgraded]).

(** ** The API ([api.go]) *)

Record Stack := mkStack { st_Id : string; st_Name : string }.
Record Service := mkService {
  se_Name : string;
  se_StackId : string;
  se_HealthState : string;
  se_State : string;
  LaunchLabels : option (gmap string (option string));   (* [None] for a value that is no string *)
  PublicEndpoints : result (list string);                (* the addresses, as they decode *)
}.
Record Container := mkContainer {
  stack_service : option string;                         (* the label that names the service, if it is a string *)
  co_HealthState : string;
  co_State : string;
  co_NetworkMode : string;
  PrimaryIpAddress : string;
}.

Definition hostNetwork : string := "host".
Definition type_assertion : string := "interface conversion: interface {} is not string".

(** [value.(string)] on each value. *)
Definition launch_labels (labels : option (gmap string (option string))) : outcome Labels :=
  match labels with
  | None => Ret ∅
  | Some m => if bool_decide (map_Forall (fun _ v => is_Some v) m) then Ret (omap id m) else Panic type_assertion
  end.

Definition container_address (service : Service) (c : Container) : list string :=
  if bool_decide (co_NetworkMode c = hostNetwork) then
    match PublicEndpoints service with Ok (ip :: _) => [ip] | _ => [] end
  else [PrimaryIpAddress c].
Definition belongs_to (stack : Stack) (service : Service) (c : Container) : bool :=
  bool_decide (stack_service c = Some (st_Name stack +:+ "/" +:+ se_Name service)) && containerFilter (co_HealthState c) (co_State c).

Definition service_data (containers : list Container) (stack : Stack) (service : Service) : outcome rancherData :=
  labels ← launch_labels (LaunchLabels service);
  Ret (mkRancherData (se_Name service +:+ "/" +:+ st_Name stack) labels
         (flat_map (container_address service) (List.filter (belongs_to stack service) containers))
         (se_HealthState service) (se_State service) ∅ "").

Definition parseAPISourcedRancherData (stacks : list Stack) (services : list Service) (containers : list Container) :
    outcome (list rancherData) :=
  l ← mapM (fun stack => mapM (service_data containers stack) (List.filter (fun s => bool_decide (se_StackId s = st_Id stack)) services)) stacks;
  Ret (concat l).

(** [listRancherContainer]: the first page, and what [Next] answers: [Ok None] for no page. *)
Fixpoint container_pages (page : list Container) (next : list (result (option (list Container)))) : list Container :=
  page ++ match next with
          | Ok (Some ((_ :: _) as page')) :: next => container_pages page' next
          | _ => []
          end.

(** ** The metadata service ([metadata.go]) *)

Record MetaService := mkMetaService {
  ms_Name : string;
  ms_State : string;
  ms_Labels : Labels;
  ms_Containers : list (string * string * string);       (* health, state, address *)
}.
Record MetaStack := mkMetaStack { mt_Name : string; mt_Services : list MetaService }.

Definition parseMetadataSourcedRancherData (stacks : list MetaStack) : list rancherData :=
  flat_map (fun stack => map (fun service =>
    mkRancherData (ms_Name service +:+ "/" +:+ mt_Name stack) (ms_Labels service)
      (map snd (List.filter (fun c => containerFilter c.1.1 c.1.2) (ms_Containers service)))
      "" (ms_State service) ∅ "") (mt_Services stack)) stacks.

(** ** The configuration ([config.go]) *)

Definition checkSegmentPort (labels : Labels) : option error :=
  match labels !! TraefikPort with
  | Some rawPort => match Atoi rawPort with Ok _ => None | Err err => Some ("invalid port value: " +:+ err) end
  | None => Some "port label is missing"
  end.

Section Rancher.
Context (p : Provider) `{UnicodeLib} `{order : MapOrder}.

Definition getFrontendRule (serviceName : string) (labels : Labels) : string :=
  let domain := GetStringValue labels TraefikDomain (Domain p) in
  let defaultRule := "Host:" +:+ to_lower (replace_all serviceName "/" ".") +:+ "." +:+ domain in
  GetStringValue labels TraefikFrontendRule defaultRule.

Definition serviceFilter (service : rancherData) : bool :=
  if negb (forallb (fun kv => bool_decide (checkSegmentPort kv.2 = None) && nonempty (getFrontendRule (Name service) kv.2))
            (range (ExtractTraefikLabels (rd_Labels service)))) then false else
  if negb (IsEnabled (rd_Labels service) (ExposedByDefault p)) then false else
  if negb (MatchConstraints (Constraints p) (GetSliceStringValue (rd_Labels service) TraefikTags)).1 then false else
  if EnableServiceHealthFilter p
  then bool_decide (Health service ∈ [""; healthy; updatingHealthy])
       && bool_decide (State service ∈ [""; active; updatingActive; upgraded; upgrading])
  else true.

Definition getDefaultBackendName (service : rancherData) : string :=
  Normalize (GetStringValue (SegmentLabels service) TraefikBackend (Name service)).
Definition getSegmentBackendName (service : rancherData) : string :=
  let value := GetStringValue (SegmentLabels service) TraefikBackend "" in
  if nonempty value then Normalize (Name service +:+ "-" +:+ value)
  else Normalize (Name service +:+ "-" +:+ getDefaultBackendName service +:+ "-" +:+ SegmentName service).
Definition getBackendName (service : rancherData) : string :=
  if nonempty (SegmentName service) then getSegmentBackendName service else getDefaultBackendName service.
Definition getFrontendName (service : rancherData) : string :=
  Normalize (if nonempty (SegmentName service) then getBackendName service else getFrontendRule (Name service) (SegmentLabels service)).

Definition rancher_server (service : rancherData) (ip : string) : Server :=
  mkServer (GetStringValue (SegmentLabels service) TraefikProtocol DefaultProtocol +:+ "://"
            +:+ JoinHostPort ip (GetStringValue (SegmentLabels service) TraefikPort ""))
    (GetIntValue (SegmentLabels service) TraefikWeight DefaultWeight).
Definition getServers (service : rancherData) : gmap string Server :=
  foldl (fun servers (ic : nat * string) =>
    if nonempty ic.2 then <["server-" +:+ pretty ic.1 := rancher_server service ic.2]> servers else servers)
    ∅ (imap pair (Containers service)).

(** The segments of the services that pass, in the order they are looked at; of
    those with the same name the last is kept. *)
Definition segments_of (service : rancherData) : list rancherData :=
  map (fun kv => set_segment kv.1 kv.2 service) (range (ExtractTraefikLabels (rd_Labels service))).
Definition looked_at (services : list rancherData) : list rancherData := flat_map segments_of (List.filter serviceFilter services).
Definition frontends_of (l : list rancherData) : gmap string rancherData :=
  foldl (fun m s => <[getFrontendName s := s]> m) ∅ l.
Definition backends_of (l : list rancherData) : gmap string rancherData :=
  foldl (fun m s => <[getBackendName s := s]> m) ∅ l.

(** The template [templates/rancher.tmpl]. *)
Context `{TimeLib}.
Definition rancher_backend (s : rancherData) : Backend := labels_backend (SegmentLabels s) (getServers s).
Definition rancher_frontend (frontendName : string) (s : rancherData) : Frontend :=
  labels_frontend "backend-" (SegmentLabels s) ("backend-" +:+ getBackendName s)
    {["route-frontend-" +:+ frontendName := mkRoute (getFrontendRule (Name s) (SegmentLabels s))]}.

Definition template_configuration (l : list rancherData) : Configuration :=
  mkConfiguration
    (kmap (String.append "backend-") (rancher_backend <$> backends_of l))
    (kmap (String.append "frontend-") (map_imap (fun name s => Some (rancher_frontend name s)) (frontends_of l))) [].

Definition buildConfigurationV2 `{TemplateEngine} (services : list rancherData) : option Configuration :=
  configuration_or_nil (template_configuration (looked_at services)).
End Rancher.

(** ** Polling *)

Section Poll.
Context (p : Provider) `{UnicodeLib} `{order : MapOrder} `{TimeLib} `{TemplateEngine}.

Definition rancher_message (c : option Configuration) : ConfigMessage := mkConfigMessage "rancher" c.

(** What the API is asked for at a tick. *)
Record api_answer := mkApiAnswer {
  stacks : list Stack; services : list Service; first_page : list Container; next_pages : list (result (option (list Container)));
}.
Definition api_data (a : api_answer) : outcome (list rancherData) :=
  parseAPISourcedRancherData (stacks a) (services a) (container_pages (first_page a) (next_pages a)).

(** The ticks of the API: the check of the key, and the answers. *)
Inductive api_event := ApiTick (checkAPI : option error) (a : api_answer) | ApiStop.

Fixpoint api_loop (events : list api_event) : M (list ConfigMessage) bool :=
  match events with
  | [] => mret false
  | ApiStop :: _ => mret true
  | ApiTick (Some _) _ :: events => api_loop events
  | ApiTick None a :: events =>
      rancherData ← lift_outcome (api_data a);
      _ ← (match buildConfigurationV2 p rancherData with
           | Some c => modify_state (fun l => l ++ [rancher_message (Some c)])
           | None => mret tt
           end);
      api_loop events
  end.

(** [updateConfiguration] of the metadata service. *)
Definition updateConfiguration (answer : result (list MetaStack)) : M (list ConfigMessage) unit :=
  match answer with
  | Err _ => mret tt
  | Ok stacks => modify_state (fun l => l ++ [rancher_message (buildConfigurationV2 p (parseMetadataSourcedRancherData stacks))])
  end.

(** The ticks of the metadata service: its version, and its stacks if they are asked for. *)
Inductive meta_event := MetaTick (version : result string) (answer : result (list MetaStack)) | MetaStop.

Fixpoint intervalPoll_loop (version : string) (events : list meta_event) : M (list ConfigMessage) (option string) :=
  match events with
  | [] => mret (Some version)
  | MetaStop :: _ => mret None
  | MetaTick (Err _) _ :: events => intervalPoll_loop version events
  | MetaTick (Ok newVersion) answer :: events =>
      if bool_decide (version = newVersion) then intervalPoll_loop version events
      else _ ← updateConfiguration answer; intervalPoll_loop newVersion events
  end.
Definition intervalPoll (events : list meta_event) : M (list ConfigMessage) (option string) := intervalPoll_loop "" events.
End Poll.

(** * Facts: what a service is served by

    Of the services that share a backend the last decides, every frontend names a
    backend, servers are the containers that run, and an update that fails is not
    made again. *)

(** ** Who is kept *)

Lemma fold_insert_last {A} (f : A -> string) (l : list A) k :
  foldl (fun m s => <[f s := s]> m) (∅ : gmap string A) l !! k = list.last (List.filter (fun s => bool_decide (f s = k)) l).
Proof.
  induction l as [|s l IH] using rev_ind; [done|]. rewrite foldl_app, List.filter_app. simpl. case_bool_decide as Hk.
  - subst k. by rewrite lookup_insert_eq, last_snoc.
  - by rewrite lookup_insert_ne, app_nil_r.
Qed.

Lemma last_filter_Some {A} (P : A -> bool) l x : list.last (List.filter P l) = Some x -> x ∈ l /\ P x = true.
Proof.
  intros Hl. assert (x ∈ List.filter P l) as Hin.
  { apply last_Some in Hl as [l' ->]. apply elem_of_app. right. by left. }
  apply list_elem_of_In, filter_In in Hin as [? ?]. split; [by apply list_elem_of_In|done].
Qed.

Lemma last_filter_is_Some {A} (P : A -> bool) l x : x ∈ l -> P x = true -> is_Some (list.last (List.filter P l)).
Proof.
  intros Hx HP. apply last_is_Some. intros He. assert (x ∈ List.filter P l) as Hin; [|rewrite He in Hin; by apply elem_of_nil in Hin].
  apply list_elem_of_In, filter_In. split; [by apply list_elem_of_In|done].
Qed.

(** ** The addresses *)

Lemma address_of_container containers stack service d ip : service_data containers stack service = Ret d -> ip ∈ Containers d ->
  exists c, c ∈ containers /\ belongs_to stack service c = true /\ container_address service c = [ip].
Proof.
  unfold service_data. intros (labels & _ & [= <-])%outcome_bind_inv. simpl. rewrite list_elem_of_In, in_flat_map.
  intros (c & (Hc & Hb)%filter_In & Hip). exists c. split; [by apply list_elem_of_In|]. split; [done|].
  unfold container_address in *. case_bool_decide; [|by destruct Hip as [->|[]]].
  destruct (PublicEndpoints service) as [[|e ?]|]; simpl in Hip; naive_solver.
Qed.

(** What comes of the API is one service of one stack each, with containers of
    it that run and are not reported unhealthy. *)
Theorem api_services containers stacks services l d ip :
  parseAPISourcedRancherData stacks services containers = Ret l -> d ∈ l ->
  exists stack service, stack ∈ stacks /\ service ∈ services /\ se_StackId service = st_Id stack /\
    Name d = se_Name service +:+ "/" +:+ st_Name stack /\
    (ip ∈ Containers d -> exists c, c ∈ containers /\ stack_service c = Some (st_Name stack +:+ "/" +:+ se_Name service) /\
       containerFilter (co_HealthState c) (co_State c) = true /\ container_address service c = [ip]).
Proof.
  unfold parseAPISourcedRancherData. intros (ll & Hl%mapM_Ret & [= <-])%outcome_bind_inv Hd.
  apply list_elem_of_In, in_concat in Hd as (row & Hrow%list_elem_of_In & Hd%list_elem_of_In).
  destruct (Forall2_in_r _ _ _ _ Hl Hrow) as (stack & Hst & Hr%mapM_Ret).
  destruct (Forall2_in_r _ _ _ _ Hr Hd) as (service & Hse & Hsd).
  apply list_elem_of_In, filter_In in Hse as [Hse%list_elem_of_In Hid%bool_decide_eq_true]. exists stack, service. split_and!; try done.
  - unfold service_data in Hsd. by apply outcome_bind_inv in Hsd as (? & _ & [= <-]).
  - intros Hip. destruct (address_of_container _ _ _ _ _ Hsd Hip) as (c & Hc & Hb & Ha). unfold belongs_to in Hb. bool_simpl. by exists c.
Qed.

(** ** The configuration *)

Section Facts.
Context (p : Provider) `{UnicodeLib} `{order : MapOrder} `{TimeLib}.

(** Of the segments that have a backend's name the last one is the backend, the
    others are not served; every segment has a backend and a frontend of its names,
    and each frontend names a backend that is there. *)
Theorem last_segment_serves (l : list rancherData) :
  let c := template_configuration p l in
  (forall name, Backends c !! ("backend-" +:+ name) =
     rancher_backend <$> list.last (List.filter (fun s => bool_decide (getBackendName s = name)) l)) /\
  (forall s, s ∈ l -> is_Some (Backends c !! ("backend-" +:+ getBackendName s)) /\ is_Some (Frontends c !! ("frontend-" +:+ getFrontendName p s))) /\
  (forall name f, Frontends c !! name = Some f -> exists s, s ∈ l /\ fe_Backend f = "backend-" +:+ getBackendName s /\ is_Some (Backends c !! fe_Backend f)).
Proof.
  intros c. assert (forall name, Backends c !! ("backend-" +:+ name) =
     rancher_backend <$> list.last (List.filter (fun s => bool_decide (getBackendName s = name)) l)) as Hb.
  { intros name. simpl. rewrite lookup_kmap by apply _. rewrite lookup_fmap. unfold backends_of. by rewrite fold_insert_last. }
  assert (forall s, s ∈ l -> is_Some (Backends c !! ("backend-" +:+ getBackendName s))) as Hs.
  { intros s Hin. rewrite Hb, fmap_is_Some. apply (last_filter_is_Some _ _ s); [done|]. by apply bool_decide_eq_true_2. }
  split_and!; [exact Hb| |].
  - intros s Hin. split; [by apply Hs|]. simpl. rewrite lookup_kmap by apply _. rewrite map_lookup_imap. unfold frontends_of.
    rewrite fold_insert_last. destruct (last_filter_is_Some (fun s0 => bool_decide (getFrontendName p s0 = getFrontendName p s)) l s) as [x Hx];
      [done|by apply bool_decide_eq_true_2|]. rewrite Hx. simpl. by eexists.
  - intros name f Hf. simpl in Hf. apply lookup_kmap_Some in Hf as (n & -> & Hn); [|apply _]. rewrite map_lookup_imap in Hn.
    apply bind_Some in Hn as (s & Hlast & [= <-]). unfold frontends_of in Hlast. rewrite fold_insert_last in Hlast.
    apply last_filter_Some in Hlast as [Hin _]. exists s. split; [done|]. split; [done|]. by apply Hs.
Qed.
End Facts.

(** ** Polling *)

Section Poll.
Context (p : Provider) `{UnicodeLib} `{order : MapOrder} `{TimeLib} `{TemplateEngine}.

(** An update for which the stacks could not be had is lost: the version is
    remembered, and until there is another one nothing is sent. *)
Theorem lost_update version v err events l : v <> version ->
  Forall (fun e => match e with MetaTick (Ok v') _ => v' = v | MetaTick (Err _) _ => True | MetaStop => False end) events ->
  intervalPoll_loop p version (MetaTick (Ok v) (Err err) :: events) l = (Ret (Some v), l).
Proof.
  intros Hv He. simpl. rewrite bool_decide_eq_false_2 by congruence. unfold mbind, M_bind. simpl.
  induction He as [|e events He _ IH]; [done|]. destruct e as [[v'|] a|]; simpl; [|done|done]. subst v'. by rewrite bool_decide_eq_true_2.
Qed.

(** The first tick sends, whatever was sent when the provider started. *)
Theorem first_tick_sends v stacks events : v <> "" ->
  intervalPoll p (MetaTick (Ok v) (Ok stacks) :: events) [] =
  intervalPoll_loop p v events [rancher_message (buildConfigurationV2 p (parseMetadataSourcedRancherData stacks))].
Proof. intros Hv. unfold intervalPoll. simpl. by rewrite bool_decide_eq_false_2 by congruence. Qed.
End Poll.

(** ** Examples *)

Section Examples.
#[local] Existing Instance ascii_only.
#[local] Existing Instance forward_order.
#[local] Instance rancher_durations : TimeLib := fun _ => Err "no duration".

Definition rancher_sample : Provider := mkProvider true [] "local" true false.
Definition service_sample (name ip backend : string) : rancherData :=
  mkRancherData name {["traefik.port" := "80"; "traefik.backend" := backend]} [ip] "" "" ∅ "".

(** Two services with one backend: the containers of the first are not served. *)
Example first_service_dropped :
  let c := template_configuration rancher_sample (looked_at rancher_sample [service_sample "a/s" "10.0.0.1" "web"; service_sample "b/s" "10.0.0.2" "web"]) in
  Servers <$> Backends c !! "backend-web" = Some {["server-0" := mkServer "http://10.0.0.2:80" 1]}
  /\ size (Frontends c) = 2.
Proof. by vm_compute. Qed.

(** On the network of its hosts a service is served at the address of its first
    endpoint only, once for each container. *)
Example host_addresses :
  let service := mkService "web" "1" "healthy" "active" None (Ok ["10.0.0.1"; "10.0.0.2"]) in
  let container := mkContainer (Some "s/web") "healthy" "running" "host" "" in
  Containers <$> match service_data [container; container] (mkStack "1" "s") service with Ret d => Some d | _ => None end
  = Some ["10.0.0.1"; "10.0.0.1"].
Proof. by vm_compute. Qed.

(** The metadata service gives no health: the filter by health is none there. *)
Example unhealthy_passes :
  let p := mkProvider true [] "local" true true in
  let labels := {["traefik.port" := "80"]} in
  map (serviceFilter p) (parseMetadataSourcedRancherData [mkMetaStack "s" [mkMetaService "web" "active" labels []]]) = [true]
  /\ serviceFilter p (mkRancherData "web/s" labels [] "unhealthy" "active" ∅ "") = false.
Proof. by vm_compute. Qed.

Lemma lost_update_witness `{TemplateEngine} :
  intervalPoll_loop rancher_sample "1" [MetaTick (Ok "2") (Err "timeout"); MetaTick (Ok "2") (Ok [])] [] = (Ret (Some "2"), []).
Proof. apply (lost_update rancher_sample "1" "2" "timeout" [MetaTick (Ok "2") (Ok [])] []); [done|]. by repeat constructor. Defined.
End Examples.
