(* ===== verification/Ecs.v ===== *)
(** * [provider/ecs/]: configurations from the tasks of Amazon ECS

    The tasks of the clusters are listed and described, joined with the machines
    they run on and with the definitions of their containers, filtered, and
    gathered by service.  The two clients of AWS are a parameter, each operation
    with all the pages of its answer. *)
From S2P Require Import Prelude GoStrings GoStringsFacts GoHttp OsioClient GoStrconv Types Domains OsioProvider LabelNames Label Cookie Kv.
From S2P Require Import ProviderBase.

(** ** Data (what is used of it; a nil string is the empty one) *)

Record ContainerDefinition := mkContainerDefinition { def_Name : string; DockerLabels : Labels }.
Definition TaskDefinition := list ContainerDefinition.
Record Container := mkContainer {
  ct_Name : option string;
  NetworkBindings : list Z;               (* the ports of the host *)
}.
Record Task := mkTask {
  TaskArn : string;
  Group : string;
  ContainerInstanceArn : string;
  TaskDefinitionArn : string;
  task_Containers : list Container;
}.
Record Instance_ := mkInstance {
  InstanceId : option string;
  State : option (option string);         (* the state, and its name *)
  PrivateIpAddress : option string;
}.
Record ContainerInstance := mkContainerInstance { Ec2InstanceId : string; ci_Arn : string }.

Record ecsInstance := mkEcsInstance {
  Name : string;
  ID : string;
  container : Container;
  machine : option Instance_;
  TraefikLabels : Labels;
}.

Record Provider := mkProvider {
  Watch : bool;
  Constraints : list Constraint;
  Domain : string;
  ExposedByDefault : bool;
  Clusters : list string;
  Cluster : string;
  AutoDiscoverClusters : bool;
}.

(** [Clusters.Set] ([cluster.go]). *)
Definition Clusters_Set (c : list string) (str : string) : list string :=
  c ++ fields_func (fun r => Ascii.eqb r "," || Ascii.eqb r ";") str.

(** ** Chunks *)

(** [for i := 0; i < len(tasks); i += 100] *)
Fixpoint chunks_from {A} (fuel i : nat) (tasks : list A) : list (list A) :=
  match fuel with
  | O => []
  | S fuel =>
      if i <? length tasks then
        let sliceEnd := if i + 100 <? length tasks then i + 100 else length tasks in
        take (sliceEnd - i) (drop i tasks) :: chunks_from fuel (i + 100) tasks
      else []
  end.
Definition chunkedTaskArns {A} (tasks : list A) : list (list A) := chunks_from (S (length tasks)) 0 tasks.

(** ** The client *)

(** An answer with pages: an error ends it. *)
Class AwsClient := {
  ListClusters : list (result (list string));
  ListTasks : string -> list (result (list string));
  DescribeTasks : string -> list string -> result (list Task);
  DescribeContainerInstances : string -> list string -> list (result (list ContainerInstance));
  DescribeInstances : list string -> list (result (list Instance_));
  DescribeTaskDefinition : string -> result TaskDefinition;
}.

(** Pages read one after the other. *)
Fixpoint read_pages {A} (pages : list (result (list A))) : result (list A) :=
  match pages with
  | [] => Ok []
  | Err err :: _ => Err err
  | Ok page :: pages => rest ← read_pages pages; Ok (page ++ rest)
  end.

Definition index_out_of_range : string := "runtime error: index out of range".
Definition slice_out_of_range : string := "runtime error: slice bounds out of range".

(** [l[i] = x] *)
Definition set_index {A} (i : nat) (x : A) (l : list A) : outcome (list A) :=
  if i <? length l then Ret (<[i := x]> l) else Panic index_out_of_range.

Section Ecs.
Context `{AwsClient}.

(** *** Machines *)

(** A page of container instances: what they are the [order] of is known by the
    names of their machines from here on; the identifiers are written from the
    start of the list, whatever page it is. *)
Fixpoint container_page (i : nat) (page : list ContainerInstance) (order : gmap string nat) (instanceIds : list string) :
    outcome (gmap string nat * list string) :=
  match page with
  | [] => Ret (order, instanceIds)
  | c :: page =>
      let order := <[Ec2InstanceId c := default 0 (order !! ci_Arn c)]> order in
      instanceIds ← set_index i (Ec2InstanceId c) instanceIds;
      container_page (S i) page order instanceIds
  end.
Fixpoint container_pages (pages : list (result (list ContainerInstance))) (order : gmap string nat) (instanceIds : list string) :
    outcome (result (gmap string nat * list string)) :=
  match pages with
  | [] => Ret (Ok (order, instanceIds))
  | Err err :: _ => Ret (Err err)
  | Ok page :: pages => r ← container_page 0 page order instanceIds; container_pages pages r.1 r.2
  end.

Definition place (order : gmap string nat) (instances : list (option Instance_)) (i : Instance_) : outcome (list (option Instance_)) :=
  match InstanceId i with
  | Some id => set_index (default 0 (order !! id)) (Some i) instances
  | None => Ret instances
  end.
Fixpoint place_all (order : gmap string nat) (l : list Instance_) (instances : list (option Instance_)) : outcome (list (option Instance_)) :=
  match l with [] => Ret instances | i :: l => instances ← place order instances i; place_all order l instances end.
Fixpoint machine_pages (pages : list (result (list Instance_))) (order : gmap string nat) (instances : list (option Instance_)) :
    outcome (result (list (option Instance_))) :=
  match pages with
  | [] => Ret (Ok instances)
  | Err err :: _ => Ret (Err err)
  | Ok page :: pages => instances ← place_all order page instances; machine_pages pages order instances
  end.

Definition lookupEc2Instances (clusterName : string) (containerArns : list string) : outcome (result (list (option Instance_))) :=
  let order : gmap string nat := foldl (fun m ia => <[ia.2 := ia.1]> m) ∅ (imap pair containerArns) in
  r ← container_pages (DescribeContainerInstances clusterName containerArns) order (replicate (length containerArns) "");
  match r with
  | Err err => Ret (Err err)
  | Ok (order, instanceIds) => machine_pages (DescribeInstances instanceIds) order (replicate (length containerArns) None)
  end.

Definition lookupTaskDefinitions (taskDefArns : list string) : result (list TaskDefinition) :=
  foldr (fun arn rest => d ← DescribeTaskDefinition arn; l ← rest; Ok (d :: l)) (Ok []) taskDefArns.

(** *** The join *)

(** The list of what is new, and the index of each. *)
Definition number (by_ : gmap string nat * list string) (arn : string) : gmap string nat * list string :=
  match by_.1 !! arn with
  | Some _ => by_
  | None => (<[arn := length by_.2]> by_.1, by_.2 ++ [arn])
  end.
Definition number_all (arns : list string) : gmap string nat * list string := foldl number (∅, []) arns.

Definition index {A} (l : list A) (i : nat) : outcome A :=
  match l !! i with Some x => Ret x | None => Panic index_out_of_range end.

(** [arn[len(arn)-12:]] *)
Definition short_id (arn : string) : outcome string :=
  if 12 <=? String.length arn then Ret (String.substring (String.length arn - 12) 12 arn) else Panic slice_out_of_range.

Definition task_instance (machines : list (option Instance_)) (definitions : list TaskDefinition) (machineIdx taskDefIdx : nat)
    (task : Task) (c : Container) : outcome ecsInstance :=
  taskDefinition ← index definitions taskDefIdx;
  let definition := List.find (fun def => bool_decide (default "" (ct_Name c) = def_Name def)) taskDefinition in
  match ct_Name c with
  | None => Panic nil_dereference
  | Some name =>
      id ← short_id (TaskArn task);
      machine ← index machines machineIdx;
      match definition with
      | None => Panic nil_dereference
      | Some def => Ret (mkEcsInstance (join (split2 (Group task) ":") "-" +:+ "-" +:+ name) id c machine (DockerLabels def))
      end
  end.

Definition join_task machines definitions (byContainerInstance byTaskDefinition : gmap string nat) (task : Task) : outcome (list ecsInstance) :=
  mapM (task_instance machines definitions (default 0 (byContainerInstance !! ContainerInstanceArn task))
          (default 0 (byTaskDefinition !! TaskDefinitionArn task)) task) (task_Containers task).

(** *** The tasks of a cluster, [None] when it has none *)

Fixpoint describe_chunks (c : string) (chunks : list (list string)) : result (list Task) :=
  match chunks with
  | [] => Ok []
  | arns :: chunks => tasks ← DescribeTasks c arns; rest ← describe_chunks c chunks; Ok (tasks ++ rest)
  end.

Definition cluster_tasks (c : string) : result (list Task) :=
  taskArns ← read_pages (ListTasks c);
  describe_chunks c (chunkedTaskArns taskArns).

(** A cluster whose list of tasks is empty is left out, before anything is looked up. *)
Definition no_tasks (c : string) : bool := match read_pages (ListTasks c) with Ok [] => true | _ => false end.

Definition cluster_instances (c : string) : outcome (result (list ecsInstance)) :=
  if no_tasks c then Ret (Ok []) else
  match cluster_tasks c with
  | Err err => Ret (Err err)
  | Ok tasks =>
      let '(byContainerInstance, containerInstanceArns) := number_all (map ContainerInstanceArn tasks) in
      let '(byTaskDefinition, taskDefinitionArns) := number_all (map TaskDefinitionArn tasks) in
      machines ← lookupEc2Instances c containerInstanceArns;
      match machines with
      | Err err => Ret (Err err)
      | Ok machines =>
          match lookupTaskDefinitions taskDefinitionArns with
          | Err err => Ret (Err err)
          | Ok definitions =>
              l ← mapM (join_task machines definitions byContainerInstance byTaskDefinition) tasks;
              Ret (Ok (concat l))
          end
      end
  end.

Context (p : Provider).

Definition clusters : result (list string) :=
  if AutoDiscoverClusters p then read_pages ListClusters
  else Ok (if nonempty (Cluster p) then [Cluster p] else Clusters p).

Fixpoint list_clusters (l : list string) : outcome (result (list ecsInstance)) :=
  match l with
  | [] => Ret (Ok [])
  | c :: l =>
      r ← cluster_instances c;
      match r with
      | Err err => Ret (Err err)
      | Ok instances =>
          rest ← list_clusters l;
          Ret (match rest with Ok rest => Ok (instances ++ rest) | Err err => Err err end)
      end
  end.
Definition listInstances : outcome (result (list ecsInstance)) :=
  match clusters with Err err => Ret (Err err) | Ok l => list_clusters l end.

(** ** The configuration ([config.go]) *)

Context `{UnicodeLib} `{order : MapOrder} `{TimeLib}.

Definition isEnabled (i : ecsInstance) (exposedByDefault : bool) : bool := GetBoolValue (TraefikLabels i) TraefikEnable exposedByDefault.

Definition filterInstance (i : ecsInstance) : bool :=
  if bool_decide (NetworkBindings (container i) = []) && negb (nonempty (GetStringValue (TraefikLabels i) TraefikPort "")) then false else
  match machine i with
  | Some (mkInstance _ (Some (Some name)) (Some _)) => bool_decide (name = "running") && isEnabled i (ExposedByDefault p)
  | _ => false
  end.

Definition getFrontendRule (i : ecsInstance) : string :=
  let domain := GetStringValue (TraefikLabels i) TraefikDomain (Domain p) in
  GetStringValue (TraefikLabels i) TraefikFrontendRule ("Host:" +:+ to_lower (replace_all (Name i) "_" "-") +:+ "." +:+ domain).

Definition getHost (i : ecsInstance) : outcome string :=
  match machine i with None => Panic nil_dereference | Some m => Ret (default "" (PrivateIpAddress m)) end.
Definition getPort (i : ecsInstance) : outcome string :=
  let value := GetStringValue (TraefikLabels i) TraefikPort "" in
  if nonempty value then Ret value else
  port ← index (NetworkBindings (container i)) 0; Ret (pretty port).

Definition filterFrontends (instances : list ecsInstance) : list ecsInstance :=
  snd (foldl (fun (acc : gset string * list ecsInstance) i =>
    if bool_decide (Name i ∈ acc.1) then acc else ({[Name i]} ∪ acc.1, acc.2 ++ [i])) (∅, []) instances).

Definition add_server (servers : gmap string Server) (i : ecsInstance) : outcome (gmap string Server) :=
  host ← getHost i;
  port ← getPort i;
  Ret (<[Normalize ("server-" +:+ Name i +:+ "-" +:+ ID i) :=
         mkServer (GetStringValue (TraefikLabels i) TraefikProtocol DefaultProtocol +:+ "://" +:+ JoinHostPort host port)
           (GetIntValue (TraefikLabels i) TraefikWeight DefaultWeight)]> servers).
Fixpoint add_servers (servers : gmap string Server) (l : list ecsInstance) : outcome (gmap string Server) :=
  match l with [] => Ret servers | i :: l => servers ← add_server servers i; add_servers servers l end.
Definition getServers (instances : list ecsInstance) : outcome (gmap string Server) := add_servers ∅ instances.

Definition add_instance (services : gmap string (list ecsInstance)) (i : ecsInstance) : gmap string (list ecsInstance) :=
  match services !! Name i with
  | Some l => <[Name i := l ++ [i]]> services
  | None => <[Name i := [i]]> services
  end.
Definition gather (instances : list ecsInstance) : gmap string (list ecsInstance) :=
  foldl add_instance ∅ (List.filter filterInstance instances).

(** The template [templates/ecs.tmpl]: what a backend is asked about is the first
    instance; one with nothing to say has no table. *)
Definition ecs_backend (kv : string * list ecsInstance) : outcome (string * Backend) :=
  servers ← getServers kv.2;
  Ret ("backend-" +:+ kv.1, labels_backend (match kv.2 with i :: _ => TraefikLabels i | [] => ∅ end) servers).
Definition written (b : Backend) : bool := has_options b || negb (bool_decide (Servers b = ∅)).
Definition ecs_frontend (serviceName : string) (i : ecsInstance) : string * Frontend :=
  ("frontend-" +:+ serviceName,
   labels_frontend "backend-" (TraefikLabels i) ("backend-" +:+ serviceName)
     {["route-frontend-" +:+ serviceName := mkRoute (getFrontendRule i)]}).

Definition template_configuration (services : gmap string (list ecsInstance)) : outcome (result Configuration) :=
  backends ← mapM ecs_backend (by_key services);
  Ret (backends ← tables (List.filter (fun kb => written kb.2) backends);
       frontends ← tables (flat_map (fun kv => map (ecs_frontend kv.1) (filterFrontends kv.2)) (by_key services));
       Ok (mkConfiguration backends frontends [])).

Definition buildConfigurationV2 `{TemplateEngine} (instances : list ecsInstance) : outcome (result Configuration) :=
  c ← template_configuration (gather instances);
  Ret (c ← c; GetConfiguration c).

Definition loadECSConfig `{TemplateEngine} : outcome (result Configuration) :=
  instances ← listInstances;
  match instances with Err err => Ret (Err err) | Ok instances => buildConfigurationV2 instances end.
End Ecs.

(** ** The loop of [Provide] *)

(** One load is one answer of AWS to all that is asked; [None] ends the context. *)
Section Provide.
Context (p : Provider) `{UnicodeLib} `{order : MapOrder} `{TimeLib} `{TemplateEngine}.

Definition ecs_message (c : Configuration) : ConfigMessage := mkConfigMessage "ecs" (Some c).

(** An error after the context was cancelled is none. *)
Definition handleCanceled (canceled : bool) (err : error) : option error := if canceled then None else Some err.

(** A load: the answers, and whether the context is cancelled when they are there. *)
Definition load (client : AwsClient) (canceled : bool) : M (list ConfigMessage) (option (option error)) :=
  r ← lift_outcome (loadECSConfig (H := client) p);
  match r with
  | Err err => mret (Some (handleCanceled canceled err))
  | Ok c => _ ← modify_state (fun l => l ++ [ecs_message c]); mret None
  end.

Inductive ecs_event := Reload (client : AwsClient) (canceled : bool) | Done.

Fixpoint watch_loop (events : list ecs_event) : M (list ConfigMessage) (option (option error)) :=
  match events with
  | [] => mret None
  | Done :: _ => mret (Some None)
  | Reload client canceled :: events =>
      r ← load client canceled;
      match r with Some r => mret (Some r) | None => watch_loop events end
  end.

Record attempt := mkAttempt { at_client : result AwsClient; at_canceled : bool; at_events : list ecs_event }.

Definition operation (a : attempt) : M (list ConfigMessage) (option (option error)) :=
  match at_client a with
  | Err err => mret (Some (Some err))
  | Ok client =>
      r ← load client (at_canceled a);
      match r with
      | Some r => mret (Some r)
      | None => if Watch p then watch_loop (at_events a) else mret (Some None)
      end
  end.

Fixpoint retry_notify (attempts : list attempt) : M (list ConfigMessage) (option (option error)) :=
  match attempts with
  | [] => mret None
  | a :: attempts =>
      r ← OperationWithRecover (operation a);
      match r with Some (Some _) => retry_notify attempts | r => mret r end
  end.
End Provide.

(** * Facts: what an instance is joined with

    Chunks are a partition of bounded pieces; an instance has the labels of the
    definition of its container and the machine of its task, and what passes the
    filter always gives a configuration. *)

(** ** Chunks *)

Lemma chunks_from_spec {A} fuel i (tasks : list A) : length tasks <= i + 100 * fuel ->
  concat (chunks_from fuel i tasks) = drop i tasks /\
  Forall (fun chunk => 1 <= length chunk <= 100) (chunks_from fuel i tasks).
Proof.
  revert i. induction fuel as [|fuel IH]; intros i Hf; simpl; [rewrite drop_ge by lia; done|].
  destruct (i <? length tasks) eqn:Hi; [|rewrite drop_ge by (apply Nat.ltb_ge in Hi; lia); done]. apply Nat.ltb_lt in Hi.
  destruct (IH (i + 100)) as [Hc Hl]; [lia|]. simpl. rewrite Hc. destruct (i + 100 <? length tasks) eqn:He.
  - apply Nat.ltb_lt in He. replace (i + 100 - i) with 100 by lia. split.
    + rewrite <-(take_drop 100 (drop i tasks)) at 2. by rewrite drop_drop.
    + constructor; [|done]. rewrite length_take, length_drop. lia.
  - apply Nat.ltb_ge in He. rewrite (drop_ge tasks (i + 100)) by lia. rewrite app_nil_r. split.
    + rewrite take_ge; [done|]. rewrite length_drop. lia.
    + constructor; [|done]. rewrite length_take, length_drop. lia.
Qed.

(** C21: the tasks are described in chunks of at most a hundred, none is empty, and one
    after the other they are the tasks. *)
Theorem chunks_are_a_partition {A} (tasks : list A) :
  concat (chunkedTaskArns tasks) = tasks /\ Forall (fun chunk => 1 <= length chunk <= 100) (chunkedTaskArns tasks).
Proof. unfold chunkedTaskArns. apply (chunks_from_spec (S (length tasks)) 0). lia. Qed.

(** ** Numbering *)

Definition numbers (by_ : gmap string nat * list string) : Prop := forall arn i, by_.1 !! arn = Some i <-> by_.2 !! i = Some arn.

Lemma number_numbers by_ arn : numbers by_ -> numbers (number by_ arn) /\ (is_Some ((number by_ arn).1 !! arn)) /\
  forall a, is_Some (by_.1 !! a) -> is_Some ((number by_ arn).1 !! a).
Proof.
  intros Hn. unfold number. destruct (by_.1 !! arn) as [i|] eqn:Ha; [split_and!; [done|by rewrite Ha|done]|]. simpl. split_and!.
  - intros a i. simpl. destruct (decide (a = arn)) as [->|Hne].
    + rewrite lookup_insert_eq. split.
      * intros [= <-]. rewrite lookup_app_r by lia. by rewrite Nat.sub_diag.
      * intros Hi. apply lookup_app_Some in Hi as [Hi|[Hle Hi]]; [apply Hn in Hi; congruence|].
        apply list_lookup_singleton_Some in Hi as [Hi _]. f_equal. lia.
    + rewrite lookup_insert_ne by done. pose proof (Hn a i) as Hna; rewrite Hna. split; [intros Hi; by apply lookup_app_l_Some|].
      intros [Hi|[_ Hi]]%lookup_app_Some; [done|]. apply list_lookup_singleton_Some in Hi as [_ Hi]. congruence.
  - by rewrite lookup_insert_eq.
  - intros a Hs. destruct (decide (a = arn)) as [->|]; [by rewrite lookup_insert_eq|by rewrite lookup_insert_ne].
Qed.

(** Every one is in the list once, and its number says where. *)
Lemma number_all_numbers arns : numbers (number_all arns) /\ forall arn, arn ∈ arns -> is_Some ((number_all arns).1 !! arn).
Proof.
  unfold number_all.
  assert (forall l by_, numbers by_ -> numbers (foldl number by_ l) /\
    (forall arn, arn ∈ l \/ is_Some (by_.1 !! arn) -> is_Some ((foldl number by_ l).1 !! arn))) as Hgo.
  { induction l as [|a l IH]; intros by_ Hn; simpl; [split; [done|]; by intros arn [?%elem_of_nil|?]|].
    destruct (number_numbers by_ a Hn) as (Hn' & Ha & Hk). destruct (IH _ Hn') as [H1 H2]. split; [done|].
    intros arn [[->|Hin]%elem_of_cons|Hs]; apply H2; auto. }
  destruct (Hgo arns (∅, [])) as [H1 H2]; [intros a i; simpl; rewrite lookup_empty, lookup_nil; done|]. split; [done|]. intros arn Ha. apply H2. by left.
Qed.

(** ** Machines *)

Lemma imap_pair_snd {A} (l : list A) : (imap pair l).*2 = l.
Proof.
  assert (forall f : nat -> nat, (imap (fun i x => (f i, x)) l).*2 = l) as Hf; [|apply (Hf id)].
  induction l as [|x l IH]; intros f; [done|]. simpl. f_equal. apply (IH (f ∘ S)).
Qed.

Section Machines.
Context `{AwsClient}.

(** The client answers about what it is asked: container instances of the list,
    which have a name that is no identifier of a machine; and machines of the
    identifiers.  Without an identifier it is asked about all machines there
    are. *)
Class AwsLaws := {
  listed_asked c arns page ci : Ok page ∈ DescribeContainerInstances c arns -> ci ∈ page ->
    ci_Arn ci ∈ arns /\ ci_Arn ci <> "" /\ (Ec2InstanceId ci <> "" -> Ec2InstanceId ci ∉ arns);
  machines_asked ids page m id : (exists id, id ∈ ids /\ id <> "") ->
    Ok page ∈ DescribeInstances ids -> m ∈ page -> InstanceId m = Some id -> id ∈ ids /\ id <> "";
}.

(** The identifiers of the machines that are asked for. *)
Definition asked_ids (c : string) (arns : list string) : list string :=
  match container_pages (DescribeContainerInstances c arns) (foldl (fun m ia => <[ia.2 := ia.1]> m) ∅ (imap pair arns))
          (replicate (length arns) "") with
  | Ret (Ok (_, instanceIds)) => instanceIds
  | _ => []
  end.
Definition some_asked (c : string) (arns : list string) : Prop := exists id, id ∈ asked_ids c arns /\ id <> "".

Lemma set_index_Ret {A} i (x : A) l l' : set_index i x l = Ret l' -> i < length l /\ l' = <[i := x]> l.
Proof. unfold set_index. destruct (i <? length l) eqn:E; [|done]. apply Nat.ltb_lt in E. by intros [= <-]. Qed.

(** What is known after some container instances: [seen] are they. *)
Record order_ok (arns : list string) (seen : list ContainerInstance) (order : gmap string nat) (ids : list string) : Prop := {
  oo_arns : forall arn, arn ∈ arns -> arn <> "" -> exists i, order !! arn = Some i /\ arns !! i = Some arn;
  oo_ids : forall ci, ci ∈ seen -> exists ci' i, ci' ∈ seen /\ Ec2InstanceId ci' = Ec2InstanceId ci /\
     order !! Ec2InstanceId ci = Some i /\ arns !! i = Some (ci_Arn ci');
  oo_list : forall id, id ∈ ids -> id = "" \/ exists ci, ci ∈ seen /\ Ec2InstanceId ci = id;
}.

Lemma container_page_ok arns page i seen order ids order' ids' :
  (forall ci, ci ∈ page -> ci_Arn ci ∈ arns /\ ci_Arn ci <> "" /\ (Ec2InstanceId ci <> "" -> Ec2InstanceId ci ∉ arns)) -> order_ok arns seen order ids ->
  container_page i page order ids = Ret (order', ids') -> order_ok arns (seen ++ page) order' ids'.
Proof using.
  revert i seen order ids. induction page as [|c page IH]; intros i seen order ids Hp Ho; simpl.
  { intros [= <- <-]. by rewrite app_nil_r. }
  intros (ids1 & [_ ->]%set_index_Ret & Hrest)%outcome_bind_inv. destruct (Hp c) as (Hc1 & Hc0 & Hc2); [by left|]. destruct Ho as [Ha Hi Hl].
  destruct (Ha _ Hc1 Hc0) as (k & Hk & Hk'). rewrite Hk in Hrest. simpl in Hrest. change (c :: page) with ([c] ++ page). rewrite app_assoc.
  eapply IH; [intros ci ?; apply Hp; by right| |exact Hrest]. split.
  - intros arn Harn Hne. destruct (Ha _ Harn Hne) as (j & Hj & Hj'). exists j. split; [|done]. rewrite lookup_insert_ne; [done|].
    intros <-. by apply Hc2.
  - intros ci [Hci| ->%list_elem_of_singleton]%elem_of_app.
    + destruct (decide (Ec2InstanceId ci = Ec2InstanceId c)) as [->|Hne].
      * exists c, k. rewrite lookup_insert_eq. split; [set_solver|done].
      * destruct (Hi ci Hci) as (ci' & j & ? & ? & ? & ?). exists ci', j. rewrite lookup_insert_ne by done. split; [set_solver|done].
    + exists c, k. rewrite lookup_insert_eq. split; [set_solver|done].
  - intros id [j Hj]%list_elem_of_lookup. apply list_lookup_insert_Some in Hj as [(-> & <- & _)|[_ Hj]].
    + right. exists c. split; [set_solver|done].
    + apply list_elem_of_lookup_2 in Hj. destruct (Hl _ Hj) as [->|(ci & ? & <-)]; [by left|]. right. exists ci. split; [set_solver|done].
Qed.

Lemma container_pages_ok arns pages seen order ids order' ids' :
  (forall page ci, Ok page ∈ pages -> ci ∈ page -> ci_Arn ci ∈ arns /\ ci_Arn ci <> "" /\ (Ec2InstanceId ci <> "" -> Ec2InstanceId ci ∉ arns)) -> order_ok arns seen order ids ->
  container_pages pages order ids = Ret (Ok (order', ids')) ->
  exists seen', order_ok arns seen' order' ids' /\ forall ci, ci ∈ seen' -> ci ∈ seen \/ exists page, Ok page ∈ pages /\ ci ∈ page.
Proof using.
  revert seen order ids. induction pages as [|[page|err] pages IH]; intros seen order ids Hp Ho; simpl; [|intros Hr|done].
  { intros [= <- <-]. exists seen. split; [done|]. by left. }
  apply outcome_bind_inv in Hr as ([order1 ids1] & Hpage & Hr).
  destruct (IH (seen ++ page) order1 ids1) as (seen' & Ho' & Hs').
  - intros page' ci Hin. apply Hp. by right.
  - eapply container_page_ok; [|exact Ho|exact Hpage]. intros ci. apply Hp. by left.
  - done.
  - exists seen'. split; [done|]. intros ci Hci. destruct (Hs' ci Hci) as [[?|?]%elem_of_app|(pg & ? & ?)]; [by left|right|right].
    + exists page. split; [by left|done].
    + exists pg. split; [by right|done].
Qed.

(** The machine of a container instance is at the place of the instance. *)
Definition placed (arns : list string) (seen : list ContainerInstance) (instances : list (option Instance_)) : Prop :=
  forall k m, instances !! k = Some (Some m) -> exists ci, ci ∈ seen /\ InstanceId m = Some (Ec2InstanceId ci) /\ arns !! k = Some (ci_Arn ci).

Lemma place_all_ok arns seen order ids l instances instances' : order_ok arns seen order ids ->
  (forall m id, m ∈ l -> InstanceId m = Some id -> id ∈ ids /\ id <> "") -> placed arns seen instances ->
  place_all order l instances = Ret instances' -> placed arns seen instances'.
Proof using.
  intros Ho. revert instances. induction l as [|m l IH]; intros instances Hl Hp; simpl; [by intros [= <-]|].
  intros (i1 & Hi1 & Hr)%outcome_bind_inv. eapply IH; [intros ? ? ?; apply Hl; by right| |exact Hr]. unfold place in Hi1.
  destruct (InstanceId m) as [id|] eqn:Hid; [|by injection Hi1 as <-]. apply set_index_Ret in Hi1 as [_ ->].
  destruct (Hl m id) as [Hin Hne]; [by left|done|]. destruct (oo_list _ _ _ _ Ho _ Hin) as [?|(ci & Hci & <-)]; [done|].
  destruct (oo_ids _ _ _ _ Ho _ Hci) as (ci' & k & Hci' & Heq & -> & Hk). simpl.
  intros j m' Hj. apply list_lookup_insert_Some in Hj as [(<- & [= <-] & _)|[_ Hj]]; [|by apply Hp].
  exists ci'. rewrite Heq. auto.
Qed.

Lemma machine_pages_ok arns seen order ids pages instances instances' : order_ok arns seen order ids ->
  (forall page m id, Ok page ∈ pages -> m ∈ page -> InstanceId m = Some id -> id ∈ ids /\ id <> "") -> placed arns seen instances ->
  machine_pages pages order instances = Ret (Ok instances') -> placed arns seen instances'.
Proof using.
  intros Ho. revert instances. induction pages as [|[page|err] pages IH]; intros instances Hl Hp; simpl; [by intros [= <-]|intros Hr|done].
  apply outcome_bind_inv in Hr as (i1 & Hi1 & Hr). eapply IH; [|eapply place_all_ok; [exact Ho| |exact Hp|exact Hi1]|exact Hr].
  - intros pg m id Hin. apply Hl. by right.
  - intros m id. apply Hl. by left.
Qed.

Lemma lookupTaskDefinitions_ok arns l : lookupTaskDefinitions arns = Ok l -> Forall2 (fun arn d => DescribeTaskDefinition arn = Ok d) arns l.
Proof.
  revert l. induction arns as [|arn arns IH]; intros l; simpl; [by intros [= <-]; constructor|].
  intros (d & Hd & (rest & Hr & [= <-])%result_bind_inv)%result_bind_inv. constructor; [done|by apply IH].
Qed.

Lemma index_Ret {A} (l : list A) i x : index l i = Ret x -> l !! i = Some x.
Proof. unfold index. destruct (l !! i); [|done]. by intros [= ->]. Qed.

Context `{laws : !AwsLaws}.

Lemma lookupEc2Instances_ok c arns machines : NoDup arns -> some_asked c arns -> lookupEc2Instances c arns = Ret (Ok machines) ->
  exists seen, placed arns seen machines /\ forall ci, ci ∈ seen -> exists page, Ok page ∈ DescribeContainerInstances c arns /\ ci ∈ page.
Proof using laws.
  intros Hnd Hsome. unfold lookupEc2Instances. intros (r & Hr & Hm)%outcome_bind_inv. destruct r as [[order ids]|]; [|done].
  unfold some_asked, asked_ids in Hsome. rewrite Hr in Hsome.
  assert (order_ok arns [] (foldl (fun m ia => <[ia.2 := ia.1]> m) ∅ (imap pair arns)) (replicate (length arns) "")) as Ho0.
  { split; [|by intros ? ?%elem_of_nil|by intros id [-> _]%elem_of_replicate; left].
    intros arn [i Hi]%list_elem_of_lookup _. exists i. split; [|done].
    assert (forall l : list (nat * string), NoDup l.*2 -> (i, arn) ∈ l -> (foldl (fun m ia => <[ia.2 := ia.1]> m) (∅ : gmap string nat) l) !! arn = Some i) as Hf.
    { induction l as [|[j a] l IH] using rev_ind; [by intros _ ?%elem_of_nil|]. rewrite foldl_app, fmap_app. simpl.
      intros (Hl & Hd & _)%NoDup_app [Hin|[= -> ->]%list_elem_of_singleton]%elem_of_app; [|by rewrite lookup_insert_eq].
      rewrite lookup_insert_ne; [by apply IH|]. intros ->. apply (Hd arn); [|by left]. apply list_elem_of_fmap. by exists (i, arn). }
    apply Hf.
    + by rewrite imap_pair_snd.
    + apply elem_of_lookup_imap. eauto. }
  destruct (container_pages_ok arns _ [] _ _ _ _ (fun page ci => listed_asked c arns page ci) Ho0 Hr) as (seen & Ho & Hs).
  exists seen. split; [|intros ci Hci; by destruct (Hs ci Hci) as [?%elem_of_nil|]].
  eapply machine_pages_ok; [exact Ho|intros page m id; by apply machines_asked| |exact Hm].
  intros k m [Hk _]%lookup_replicate. done.
Qed.

(** ** The join *)

(** The container instances of the tasks, each once. *)
Definition container_arns (tasks : list Task) : list string := (number_all (map ContainerInstanceArn tasks)).2.

(** C20: an instance is one container of one task that was described; its labels are
    those of the definition of that name in the definition of its task.  Of a
    client that answers about the container instances and machines it is asked
    for, its machine, when there is one, is the machine of the container instance
    of its task: provided that some machine was asked for, since without an
    identifier EC2 describes all machines, whosoever they are. *)
Theorem instances_are_joined c l i : cluster_instances c = Ret (Ok l) -> i ∈ l ->
  exists tasks task d def, cluster_tasks c = Ok tasks /\ task ∈ tasks /\ container i ∈ task_Containers task /\
    DescribeTaskDefinition (TaskDefinitionArn task) = Ok d /\ def ∈ d /\ ct_Name (container i) = Some (def_Name def) /\
    TraefikLabels i = DockerLabels def /\
    forall m, machine i = Some m -> some_asked c (container_arns tasks) ->
      exists page ci, Ok page ∈ DescribeContainerInstances c (container_arns tasks) /\ ci ∈ page /\
      ci_Arn ci = ContainerInstanceArn task /\ InstanceId m = Some (Ec2InstanceId ci).
Proof using laws.
  unfold cluster_instances. destruct (no_tasks c); [intros [= <-]; by intros ?%elem_of_nil|].
  destruct (cluster_tasks c) as [tasks|] eqn:Ht; [|done].
  destruct (number_all (map ContainerInstanceArn tasks)) as [byC arns] eqn:En1. destruct (number_all (map TaskDefinitionArn tasks)) as [byT defs] eqn:En2.
  intros (r & Hr & Hrest)%outcome_bind_inv Hi. destruct r as [machines|]; [|done].
  destruct (lookupTaskDefinitions defs) as [definitions|] eqn:Ed; [|done]. apply outcome_bind_inv in Hrest as (ll & Hll%mapM_Ret & [= <-]).
  apply list_elem_of_In, in_concat in Hi as (row & Hrow%list_elem_of_In & Hi%list_elem_of_In).
  destruct (Forall2_in_r _ _ _ _ Hll Hrow) as (task & Htask & Hj%mapM_Ret). destruct (Forall2_in_r _ _ _ _ Hj Hi) as (ct & Hct & Hti).
  destruct (number_all_numbers (map ContainerInstanceArn tasks)) as [Hn1 Hs1]. destruct (number_all_numbers (map TaskDefinitionArn tasks)) as [Hn2 Hs2].
  rewrite En1 in Hn1, Hs1. rewrite En2 in Hn2, Hs2. simpl in *.
  destruct (Hs1 (ContainerInstanceArn task)) as [k1 Hk1]; [by apply list_elem_of_fmap_2|].
  destruct (Hs2 (TaskDefinitionArn task)) as [k2 Hk2]; [by apply list_elem_of_fmap_2|].
  rewrite Hk1, Hk2 in Hti. simpl in Hti. apply Hn1 in Hk1. apply Hn2 in Hk2. simpl in Hk1, Hk2.
  unfold task_instance in Hti. apply outcome_bind_inv in Hti as (d & Hd%index_Ret & Hti).
  destruct (ct_Name ct) as [name|] eqn:Hname; [|done]. apply outcome_bind_inv in Hti as (id & _ & (m & Hm%index_Ret & Hti)%outcome_bind_inv).
  simpl in Hti. destruct (List.find _ d) as [def|] eqn:Hfind; [|done]. injection Hti as <-. simpl.
  apply find_some in Hfind as [Hdef%list_elem_of_In Hdn%bool_decide_eq_true].
  destruct (Forall2_lookup_r _ _ _ _ _ (lookupTaskDefinitions_ok _ _ Ed) Hd) as (arn & Harn & Hdesc). rewrite Hk2 in Harn. injection Harn as <-.
  exists tasks, task, d, def. split_and!; try done; [by rewrite Hname, Hdn|].
  unfold container_arns. rewrite En1. simpl. intros m' -> Hsome. assert (NoDup arns) as Hnd.
  { apply NoDup_alt. intros a b x Ha Hb. apply Hn1 in Ha, Hb. simpl in *. congruence. }
  destruct (lookupEc2Instances_ok c arns machines Hnd Hsome Hr) as (seen & Hp & Hseen). destruct (Hp _ _ Hm) as (ci & Hci & Hid & Harn).
  destruct (Hseen ci Hci) as (page & Hpage & Hin). rewrite Hk1 in Harn. injection Harn as Harn. exists page, ci. auto.
Qed.
End Machines.

(** ** The configuration *)

Section Configuration.
Context (p : Provider) `{UnicodeLib} `{order : MapOrder} `{TimeLib}.

(** What passes the filter has a host and a port. *)
Lemma filtered_server m i : filterInstance p i = true -> exists m', add_server m i = Ret m' /\
  is_Some (m' !! Normalize ("server-" +:+ Name i +:+ "-" +:+ ID i)) /\ forall k, is_Some (m !! k) -> is_Some (m' !! k).
Proof.
  unfold filterInstance, add_server, getHost, getPort. intros Hf.
  destruct (bool_decide (NetworkBindings (container i) = [])) eqn:Hb, (nonempty (GetStringValue (TraefikLabels i) TraefikPort "")) eqn:Hp; simpl in Hf; try done;
    (destruct (machine i) as [[mid [[name|]|] [ip|]]|]; try done); simpl.
  3: { bool_simpl. unfold index. destruct (NetworkBindings (container i)) as [|port l]; [done|]. simpl.
       eexists. split; [reflexivity|]. split; [by rewrite lookup_insert_eq|]. intros k Hk. by apply lookup_insert_is_Some'; right. }
  all: eexists; split; [reflexivity|]; (split; [by rewrite lookup_insert_eq|]); intros k Hk; by apply lookup_insert_is_Some'; right.
Qed.

Lemma filtered_servers l m : Forall (fun i => filterInstance p i = true) l -> exists m', add_servers m l = Ret m' /\
  (forall i, i ∈ l -> is_Some (m' !! Normalize ("server-" +:+ Name i +:+ "-" +:+ ID i))) /\ forall k, is_Some (m !! k) -> is_Some (m' !! k).
Proof.
  intros Hl. revert m. induction Hl as [|i l Hi _ IH]; intros m; simpl; [exists m; split_and!; [done|by intros ? ?%elem_of_nil|done]|].
  destruct (filtered_server m i Hi) as (m1 & -> & Hin & Hk). simpl. destruct (IH m1) as (m2 & -> & Hin2 & Hk2). exists m2.
  split_and!; [done| |auto]. intros j [->|Hj]%elem_of_cons; auto.
Qed.

(** The services: none empty, and each with its instances. *)
Definition gathered (services : gmap string (list ecsInstance)) : Prop :=
  forall name l, services !! name = Some l -> l <> [] /\ Forall (fun i => Name i = name /\ filterInstance p i = true) l.

Lemma ecs_gathered instances : gathered (gather p instances).
Proof.
  unfold gather.
  assert (forall l services, Forall (fun i => filterInstance p i = true) l -> gathered services -> gathered (foldl add_instance services l)) as Hgo.
  { intros l services Hl. revert services. induction Hl as [|i l Hi _ IH]; intros services Hg; [done|]. simpl. apply IH.
    intros name l' Hn. unfold add_instance in Hn. destruct (services !! Name i) as [l0|] eqn:Hs.
    - destruct (decide (name = Name i)) as [->|Hne]; [|rewrite lookup_insert_ne in Hn by done; by apply Hg].
      rewrite lookup_insert_eq in Hn. injection Hn as <-. destruct (Hg _ _ Hs) as [_ Hall]. split; [by destruct l0|]. apply Forall_app. auto.
    - destruct (decide (name = Name i)) as [->|Hne]; [|rewrite lookup_insert_ne in Hn by done; by apply Hg].
      rewrite lookup_insert_eq in Hn. injection Hn as <-. auto. }
  apply Hgo; [|by intros ? ? ?]. apply Forall_forall. by intros i [_ Hi]%list_elem_of_In%filter_In.
Qed.

(** The instances of one service have one frontend, that of the first. *)
Lemma filterFrontends_one name i l : Forall (fun j => Name j = name) (i :: l) -> filterFrontends (i :: l) = [i].
Proof.
  intros [Hi Hl]%Forall_cons. unfold filterFrontends. simpl. rewrite Hi.
  assert (forall acc : gset string * list ecsInstance, name ∈ acc.1 -> foldl (fun acc j => if bool_decide (Name j ∈ acc.1) then acc
    else ({[Name j]} ∪ acc.1, acc.2 ++ [j])) acc l = acc) as Hk.
  { induction Hl as [|j l Hj _ IH]; intros acc Ha; [done|]. simpl. rewrite Hj, bool_decide_eq_true_2 by done. by apply IH. }
  rewrite Hk; [done|]. set_solver.
Qed.

Lemma map_prefix_NoDup {A} (pre : string) (l : list (string * A)) : NoDup l.*1 -> NoDup (map (fun kv => pre +:+ kv.1) l).
Proof. rewrite <-(map_map fst (String.append pre)). intros Hn. apply (NoDup_fmap_2 (String.append pre)). exact Hn. Qed.

Lemma tables_ok {A} (l : list (string * A)) : NoDup l.*1 -> tables l = Ok (list_to_map l).
Proof. intros Hn. unfold tables. by rewrite bool_decide_eq_true_2. Qed.

(** There always is a configuration: no instance that passes the filter panics, and
    no table is there twice; every service has a backend with a server for each of its
    instances, and a frontend that names it. *)
Theorem every_service_is_configured instances : exists c, template_configuration p (gather p instances) = Ret (Ok c) /\
  forall name l, gather p instances !! name = Some l ->
    (exists f, Frontends c !! ("frontend-" +:+ name) = Some f /\ fe_Backend f = "backend-" +:+ name) /\
    exists b, Backends c !! ("backend-" +:+ name) = Some b /\
      forall i, i ∈ l -> is_Some (Servers b !! Normalize ("server-" +:+ Name i +:+ "-" +:+ ID i)).
Proof.
  pose proof (ecs_gathered instances) as Hg. unfold template_configuration. set (services := gather p instances) in *.
  pose proof (by_key_NoDup services) as Hnd.
  assert (exists backends, mapM ecs_backend (by_key services) = Ret backends /\ Forall2 (fun kv kb => kb.1 = "backend-" +:+ kv.1 /\ written kb.2 = true /\
    forall i, i ∈ kv.2 -> is_Some (Servers kb.2 !! Normalize ("server-" +:+ Name i +:+ "-" +:+ ID i))) (by_key services) backends) as (backends & -> & Hb).
  { assert (forall k l, (k, l) ∈ by_key services -> services !! k = Some l) as Hin by (intros; by apply by_key_lookup).
    clear Hnd. induction (by_key services) as [|[k l] rest IH]; [by exists []|]. destruct IH as (bs & Hbs & Hf2); [intros; apply Hin; by right|].
    destruct (Hg k l) as [Hne Hall]; [apply Hin; by left|].
    destruct (filtered_servers l ∅) as (m & Hm & Hs & _); [by eapply Forall_impl; [exact Hall|intros ? [_ ?]]|].
    assert (ecs_backend (k, l) = Ret ("backend-" +:+ k, labels_backend (match l with i :: _ => TraefikLabels i | [] => ∅ end) m)) as Hek
      by (unfold ecs_backend, getServers; simpl; by rewrite Hm).
    change (mapM ecs_backend ((k, l) :: rest)) with (ecs_backend (k, l) ≫= fun y => mapM ecs_backend rest ≫= fun ys => Ret (y :: ys)).
    rewrite Hek, Hbs. eexists. split; [reflexivity|].
    constructor; [|done]. simpl. split_and!; [done| |exact Hs]. unfold written. apply orb_true_iff. right.
    apply negb_true_iff, bool_decide_eq_false. simpl. destruct l as [|i l]; [done|]. destruct (Hs i) as [s Hi]; [by left|]. intros ->. by rewrite lookup_empty in Hi. }
  assert (List.filter (fun kb => written kb.2) backends = backends) as Hfil.
  { clear -Hb. induction Hb as [|kv kb l k (_ & Hw & _) _ IH]; [done|]. simpl. by rewrite Hw, IH. }
  assert (flat_map (fun kv => map (ecs_frontend p kv.1) (filterFrontends kv.2)) (by_key services)
    = omap (fun kv => ecs_frontend p kv.1 <$> head kv.2) (by_key services)) as Hfr.
  { assert (forall k l, (k, l) ∈ by_key services -> l <> [] /\ Forall (fun i => Name i = k) l) as Hin.
    { intros k l Hk%by_key_lookup. destruct (Hg k l Hk) as [? Hall]. split; [done|]. by eapply Forall_impl; [exact Hall|intros ? [? _]]. }
    clear -Hin. induction (by_key services) as [|[k l] rest IH]; [done|]. destruct (Hin k l) as [Hne Hall]; [by left|].
    destruct l as [|i l]; [done|]. simpl. rewrite (filterFrontends_one k) by done. simpl. f_equal. apply IH. intros; apply Hin; by right. }
  assert (backends.*1 = map (fun kv => "backend-" +:+ kv.1) (by_key services)) as Hk1.
  { clear -Hb. induction Hb as [|kv kb l k (Hk & _) _ IH]; [done|]. by rewrite fmap_cons, Hk, IH. }
  assert ((omap (fun kv => ecs_frontend p kv.1 <$> head kv.2) (by_key services)).*1 = map (fun kv => "frontend-" +:+ kv.1) (by_key services)) as Hk2.
  { assert (forall k l, (k, l) ∈ by_key services -> l <> []) as Hin by (intros k l Hk%by_key_lookup; by destruct (Hg k l Hk)).
    clear -Hin. induction (by_key services) as [|[k l] rest IH]; [done|]. specialize (Hin k l (list_elem_of_here _ _)) as Hne.
    destruct l as [|i l]; [done|]. simpl. f_equal. apply IH. intros; eapply Hin. by right. }
  simpl. rewrite Hfil, Hfr. rewrite (tables_ok backends) by (rewrite Hk1; by apply map_prefix_NoDup). simpl.
  rewrite tables_ok by (rewrite Hk2; by apply map_prefix_NoDup). simpl. eexists. split; [reflexivity|]. intros name l Hl. simpl.
  assert ((name, l) ∈ by_key services) as Hin by (by apply by_key_lookup). split.
  - destruct (Hg name l Hl) as [Hne _]. destruct l as [|i l]; [done|]. exists (ecs_frontend p name i).2. split; [|done].
    apply elem_of_list_to_map_1; [rewrite Hk2; by apply map_prefix_NoDup|]. apply list_elem_of_omap. exists (name, i :: l). done.
  - destruct (Forall2_in_l _ _ _ _ Hb Hin) as ([k b] & Hkb & Hk & _ & Hs). simpl in *. subst k. exists b. split; [|done].
    apply elem_of_list_to_map_1; [|done]. rewrite Hk1. by apply map_prefix_NoDup.
Qed.
End Configuration.

(** ** Examples *)

Section Examples.
#[local] Existing Instance ascii_only.
#[local] Existing Instance forward_order.
#[local] Instance ecs_durations : TimeLib := fun _ => Err "no duration".

Definition ecs_sample : Provider := mkProvider true [] "local" true ["c"] "" false.
Definition task_on (arn instance : string) : Task := mkTask arn "service:web" instance "def" [mkContainer (Some "nginx") [32768%Z]].
Definition instance_of (id : string) : Instance_ := mkInstance (Some id) (Some (Some "running")) (Some ("10.0.0." +:+ id)).

(** A client whose machines answer to the identifiers it is asked for, all there
    are to none; the container instances come in the pages given. *)
Definition client_of (tasks : list Task) (pages : list (list ContainerInstance)) : AwsClient := {|
  ListClusters := [Ok ["c"]];
  ListTasks _ := [Ok (map TaskArn tasks)];
  DescribeTasks _ arns := Ok (List.filter (fun t => bool_decide (TaskArn t ∈ arns)) tasks);
  DescribeContainerInstances _ arns :=
    map (fun page => Ok (List.filter (fun ci => bool_decide (ci_Arn ci ∈ arns) && nonempty (ci_Arn ci) &&
      (bool_decide (Ec2InstanceId ci = "") || bool_decide (Ec2InstanceId ci ∉ arns))) page)) pages;
  DescribeInstances ids :=
    [Ok (map instance_of (match List.filter (fun id => nonempty id) ids with [] => ["7"; "8"] | ids => ids end))];
  DescribeTaskDefinition _ := Ok [mkContainerDefinition "nginx" {["traefik.weight" := "7"]}];
|}.

Lemma client_of_laws tasks pages : AwsLaws (H := client_of tasks pages).
Proof.
  split.
  - intros c arns page ci Hp Hci. simpl in Hp. apply list_elem_of_fmap in Hp as (page' & [= ->] & _).
    apply list_elem_of_In, filter_In in Hci as [_ Hci]. unfold nonempty in Hci. bool_simpl. split_and!; [done|done|]. intros Hne.
    match goal with H : (_ || _) = true |- _ => apply orb_true_iff in H as [?|?]; by bool_simpl end.
  - intros ids page m id (id0 & Hid0 & Hne0) Hp Hm. simpl in Hp. apply list_elem_of_singleton in Hp. injection Hp as ->.
    assert (id0 ∈ List.filter (fun id => nonempty id) ids) as Hin0.
    { apply list_elem_of_In, filter_In. split; [by apply list_elem_of_In|]. unfold nonempty. by rewrite bool_decide_eq_false_2. }
    destruct (List.filter _ ids) as [|x l] eqn:Hf; [by apply elem_of_nil in Hin0|]. rewrite <-Hf in Hm.
    apply list_elem_of_fmap in Hm as (id' & -> & Hin). simpl. intros [= <-]. apply list_elem_of_In, filter_In in Hin as [Hin Hne].
    split; [by apply list_elem_of_In|]. unfold nonempty in Hne. by bool_simpl.
Qed.

Definition two_tasks : list Task := [task_on "arn:aws:task/000000000001" "arn:i1"; task_on "arn:aws:task/000000000002" "arn:i2"].
Definition one_page : AwsClient := client_of two_tasks [[mkContainerInstance "1" "arn:i1"; mkContainerInstance "2" "arn:i2"]].
Definition two_pages : AwsClient := client_of two_tasks [[mkContainerInstance "1" "arn:i1"]; [mkContainerInstance "2" "arn:i2"]].
Definition machines_found (client : AwsClient) : option (list (string * option string)) :=
  match cluster_instances (H := client) "c" with
  | Ret (Ok l) => Some (map (fun i => (ID i, machine i ≫= InstanceId)) l)
  | _ => None
  end.

Example machines_of_one_page : machines_found one_page = Some [("000000000001", Some "1"); ("000000000002", Some "2")].
Proof. by vm_compute. Qed.

(** With a second page the identifiers of the first are written over: its machines
    are never asked for, and their tasks are filtered out. *)
Example machines_of_two_pages : machines_found two_pages = Some [("000000000001", None); ("000000000002", Some "2")].
Proof. by vm_compute. Qed.

(** When no container instance is described, or none has a machine, all machines
    there are are described: the last of them is taken for the machine of the
    first container instance. *)
Example machines_of_no_page : machines_found (client_of two_tasks []) = Some [("000000000001", Some "8"); ("000000000002", None)].
Proof. by vm_compute. Qed.

(** A container without a definition of its name panics, and so does a short name of
    a task. *)
Example definition_missing :
  task_instance [None] [[mkContainerDefinition "other" ∅]] 0 0 (task_on "arn:aws:task/000000000001" "") (mkContainer (Some "nginx") [])
  = Panic nil_dereference.
Proof. by vm_compute. Qed.
Example short_name_panics : short_id "task/1" = Panic slice_out_of_range.
Proof. by vm_compute. Qed.

Definition joined_sample : list ecsInstance := match cluster_instances (H := one_page) "c" with Ret (Ok l) => l | _ => [] end.
Definition first_joined : ecsInstance := default (mkEcsInstance "" "" (mkContainer None []) None ∅) (head joined_sample).

Lemma instances_are_joined_witness : exists task def, task ∈ two_tasks /\ container first_joined ∈ task_Containers task /\
  TraefikLabels first_joined = DockerLabels def /\ ct_Name (container first_joined) = Some (def_Name def) /\
  exists ci m, machine first_joined = Some m /\ ci_Arn ci = ContainerInstanceArn task /\ InstanceId m = Some (Ec2InstanceId ci).
Proof.
  destruct (instances_are_joined (H := one_page) (laws := client_of_laws _ _) "c" joined_sample first_joined)
    as (tasks & task & d & def & Ht & Hin & Hc & _ & _ & Hn & Hl & Hm); [by vm_compute|by left|].
  vm_compute in Ht. injection Ht as <-. exists task, def. split_and!; [exact Hin|exact Hc|exact Hl|exact Hn|].
  destruct (Hm (instance_of "1")) as (page & ci & _ & _ & Harn & Hid); [by vm_compute| |exists ci, (instance_of "1"); split_and!; [by vm_compute|exact Harn|exact Hid]].
  exists "1". split; [|discriminate]. vm_compute. by left.
Defined.
End Examples.
