(* ===== verification/PollingProviders.v ===== *)
(** * [provider/eureka/], [provider/dynamodb/]: two providers that poll

    The applications of Eureka go through a template; the items of a table of
    DynamoDB are backends and frontends themselves.  Both clients, and what makes
    Go values of an item, are parameters. *)
From S2P Require Import Prelude GoStrings GoStringsFacts GoStrconv GoHttp Types LabelNames Label Cookie Domains OsioClient OsioProvider ProviderBase Kv.

Module Eureka.

(** A pointer may be nil. *)
Record InstanceInfo := mkInstanceInfo {
  IpAddr : string;
  Port : option Z;
  SecurePort : option (Z * bool);          (* the port, and whether it is enabled *)
  Metadata : option Labels;
}.
Record Application := mkApplication { Name : string; Instances : list InstanceInfo }.

Section Eureka.
Context `{UnicodeLib}.

Definition getPort (instance : InstanceInfo) : outcome string :=
  match SecurePort instance with
  | None => Panic nil_dereference
  | Some (port, enabled) =>
      if enabled then Ret (pretty port)
      else match Port instance with None => Panic nil_dereference | Some port => Ret (pretty port) end
  end.
Definition getProtocol (instance : InstanceInfo) : outcome string :=
  match SecurePort instance with
  | None => Panic nil_dereference
  | Some (_, enabled) => Ret (if enabled then "https" else DefaultProtocol)
  end.
Definition getWeight (instance : InstanceInfo) : outcome Z :=
  match Metadata instance with None => Panic nil_dereference | Some m => Ret (GetIntValue m TraefikWeight DefaultWeight) end.
Definition getInstanceID (instance : InstanceInfo) : outcome string :=
  port ← getPort instance;
  match Metadata instance with
  | None => Panic nil_dereference
  | Some m => Ret (GetStringValue m TraefikBackendID (Normalize (IpAddr instance) +:+ "-" +:+ port))
  end.

(** The template [templates/eureka.tmpl]. *)
Definition eureka_server (instance : InstanceInfo) : outcome (string * Server) :=
  id ← getInstanceID instance;
  protocol ← getProtocol instance;
  port ← getPort instance;
  weight ← getWeight instance;
  Ret ("server-" +:+ id, mkServer (protocol +:+ "://" +:+ IpAddr instance +:+ ":" +:+ port) weight).

Definition eureka_backend (app : Application) : outcome (string * result Backend) :=
  servers ← mapM eureka_server (Instances app);
  Ret ("backend-" +:+ Name app, servers ← tables servers; Ok (mkBackend servers None None None None None)).

Definition eureka_frontend (app : Application) : string * Frontend :=
  ("frontend-" +:+ Name app, {|
    EntryPoints := ["http"];
    fe_Backend := "backend-" +:+ Name app;
    Routes := {["route-host" +:+ Name app := mkRoute ("Host:" +:+ to_lower (Name app))]};
    PassHostHeader := false; PassTLSCert := false; Priority := 0; BasicAuth := []; WhitelistSourceRange := [];
    fe_WhiteList := None; fe_Headers := None; Errors := ∅; fe_RateLimit := None; fe_Redirect := None |}).

Definition all_ok {A} (l : list (string * result A)) : result (list (string * A)) :=
  foldr (fun kr rest => x ← kr.2; rest ← rest; Ok ((kr.1, x) :: rest)) (Ok []) l.

Definition template_configuration (apps : list Application) : outcome (result Configuration) :=
  backends ← mapM eureka_backend apps;
  Ret (backends ← all_ok backends;
       backends ← tables backends;
       frontends ← tables (map eureka_frontend apps);
       Ok (mkConfiguration backends frontends [])).

(** [buildConfiguration]: an error is logged, the configuration is nil then. *)
Definition eureka_configuration `{TemplateEngine} (apps : list Application) : outcome (option Configuration) :=
  c ← template_configuration apps;
  Ret (match c with Ok c => configuration_or_nil c | Err _ => None end).
End Eureka.

Section Provide.
Context `{UnicodeLib} `{TemplateEngine}.
Definition eureka_message (c : option Configuration) : ConfigMessage := mkConfigMessage "eureka" c.

(** A tick, with the applications that are answered. *)
Inductive eureka_event := Tick (answer : result (list Application)) | Stopped.

(** Whatever comes of a tick is sent, nil too; [true] when it was stopped. *)
Fixpoint refresh_loop (events : list eureka_event) : M (list ConfigMessage) bool :=
  match events with
  | [] => mret false
  | Stopped :: _ => mret true
  | Tick (Err _) :: events => refresh_loop events
  | Tick (Ok applications) :: events =>
      configuration ← lift_outcome (eureka_configuration applications);
      _ ← modify_state (fun l => l ++ [eureka_message configuration]);
      refresh_loop events
  end.

(** The first answers: those that fail are followed by another try.  Nothing here
    recovers a panic but the goroutine of the provider. *)
Fixpoint eureka_operation (answers : list (result (list Application))) : M (list ConfigMessage) (option unit) :=
  match answers with
  | [] => mret None
  | Err _ :: answers => eureka_operation answers
  | Ok applications :: _ =>
      configuration ← lift_outcome (eureka_configuration applications);
      _ ← modify_state (fun l => l ++ [eureka_message configuration]);
      mret (Some tt)
  end.
End Provide.
End Eureka.

Module DynamoDB.

(** An attribute, what is used of it: its string, if it has one. *)
Class DynamoLib (attribute : Type) := {
  attribute_S : attribute -> option string;
  unmarshal_backend : attribute -> result Backend;
  unmarshal_frontend : attribute -> result Frontend;
}.

Section Dynamo.
Context {attribute : Type} `{DynamoLib attribute}.
Abbreviation item := (gmap string attribute).

(** [scanTable]: the pages, up to the last, and the error of the scan. *)
Definition scanTable (pages : list (list item)) (err : option error) : result (list item) :=
  match err with Some err => Err err | None => Ok (concat pages) end.

(** [*item["name"].S] *)
Definition item_name (i : item) : outcome string :=
  match (i !! "name" : option attribute) with
  | Some a => match attribute_S a with Some s => Ret s | None => Panic nil_dereference end
  | None => Panic nil_dereference
  end.

Definition add_item (m : gmap string Backend * gmap string Frontend) (i : item) : outcome (gmap string Backend * gmap string Frontend) :=
  match (i !! "backend" : option attribute) with
  | Some backend =>
      match unmarshal_backend backend with
      | Err _ => Ret m
      | Ok b => name ← item_name i; Ret (<[name := b]> m.1, m.2)
      end
  | None =>
      match (i !! "frontend" : option attribute) with
      | Some frontend =>
          match unmarshal_frontend frontend with
          | Err _ => Ret m
          | Ok f => name ← item_name i; Ret (m.1, <[name := f]> m.2)
          end
      | None => Ret m
      end
  end.

Fixpoint add_items (m : gmap string Backend * gmap string Frontend) (l : list item) : outcome (gmap string Backend * gmap string Frontend) :=
  match l with [] => Ret m | i :: l => m ← add_item m i; add_items m l end.

Definition dynamo_configuration (pages : list (list item)) (err : option error) : outcome (result Configuration) :=
  match scanTable pages err with
  | Err err => Ret (Err err)
  | Ok items => m ← add_items (∅, ∅) items; Ret (Ok (mkConfiguration m.1 m.2 []))
  end.

(** ** The loop of [Provide] *)

Definition dynamo_message (c : Configuration) : ConfigMessage := mkConfigMessage "dynamodb" (Some c).
Definition handleCanceled (canceled : bool) (err : error) : option error := if canceled then None else Some err.

(** A scan, and whether the context is cancelled when it is done. *)
Record scan := mkScan { sc_pages : list (list item); sc_err : option error; sc_canceled : bool }.
Definition load (s : scan) : M (list ConfigMessage) (option (option error)) :=
  r ← lift_outcome (dynamo_configuration (sc_pages s) (sc_err s));
  match r with
  | Err err => mret (Some (handleCanceled (sc_canceled s) err))
  | Ok c => _ ← modify_state (fun l => l ++ [dynamo_message c]); mret None
  end.

Inductive dynamo_event := Reload (s : scan) | Done.
Fixpoint watch_loop (events : list dynamo_event) : M (list ConfigMessage) (option (option error)) :=
  match events with
  | [] => mret None
  | Done :: _ => mret (Some None)
  | Reload s :: events => r ← load s; match r with Some r => mret (Some r) | None => watch_loop events end
  end.

(** An attempt: the error of creating the client, and the first scan. *)
Record attempt := mkAttempt { at_client : option error; at_scan : scan; at_events : list dynamo_event }.
Definition dynamo_operation (watch : bool) (a : attempt) : M (list ConfigMessage) (option (option error)) :=
  match at_client a with
  | Some err => mret (Some (handleCanceled (sc_canceled (at_scan a)) err))
  | None =>
      r ← load (at_scan a);
      match r with
      | Some r => mret (Some r)
      | None => if watch then watch_loop (at_events a) else mret (Some None)
      end
  end.
Fixpoint retry_notify (watch : bool) (attempts : list attempt) : M (list ConfigMessage) (option (option error)) :=
  match attempts with
  | [] => mret None
  | a :: attempts =>
      r ← OperationWithRecover (dynamo_operation watch a);
      match r with Some (Some _) => retry_notify watch attempts | r => mret r end
  end.
End Dynamo.
End DynamoDB.

(** ** Facts *)

Section DynamoFacts.
Import DynamoDB.
Context {attribute : Type} `{DynamoLib attribute}.

(** What an item is: a backend or a frontend under a name, or nothing. *)
Definition backend_item (i : gmap string attribute) : option Backend :=
  match i !! "backend" with Some a => match unmarshal_backend a with Ok b => Some b | Err _ => None end | None => None end.
Definition frontend_item (i : gmap string attribute) : option Frontend :=
  match i !! "backend" with
  | Some _ => None
  | None => match i !! "frontend" with Some a => match unmarshal_frontend a with Ok f => Some f | Err _ => None end | None => None end
  end.

Lemma add_item_spec m i : add_item m i =
  match backend_item i, frontend_item i with
  | Some b, _ => name ← item_name i; Ret (<[name := b]> m.1, m.2)
  | None, Some f => name ← item_name i; Ret (m.1, <[name := f]> m.2)
  | None, None => Ret m
  end.
Proof. unfold add_item, backend_item, frontend_item. by repeat case_match; simplify_eq. Qed.

(** The table gives a configuration exactly when every item that is a backend or a
    frontend has a name: one without panics, and no configuration comes of the
    table until it is mended. *)
Theorem table_needs_names items : (exists m, add_items (∅, ∅) items = Ret m) <->
  forall i, i ∈ items -> is_Some (backend_item i) \/ is_Some (frontend_item i) -> exists name, item_name i = Ret name.
Proof.
  generalize ((∅, ∅) : gmap string Backend * gmap string Frontend). induction items as [|i items IH]; intros m0; simpl.
  { split; [by intros _ i ?%elem_of_nil|by exists m0]. }
  rewrite add_item_spec. split.
  - intros (m & (m1 & H1 & H2)%outcome_bind_inv) j [->|Hj]%elem_of_cons Hs; [|by eapply (proj1 (IH m1)); [exists m|..]].
    destruct (item_name i) as [name|e|e]; [by exists name|..]; destruct (backend_item i), (frontend_item i); simpl in H1; try done;
      destruct Hs as [[? Hs]|[? Hs]]; done.
  - intros Hall. assert (exists m1, match backend_item i, frontend_item i with
        | Some b, _ => name ← item_name i; Ret (<[name := b]> m0.1, m0.2)
        | None, Some f => name ← item_name i; Ret (m0.1, <[name := f]> m0.2)
        | None, None => Ret m0 end = Ret m1) as [m1 ->].
    { destruct (backend_item i) eqn:Hb; [|destruct (frontend_item i) eqn:Hf; [|by exists m0]];
        (destruct (Hall i) as [name ->]; [by left|rewrite ?Hb, ?Hf; eauto|by eexists]). }
    simpl. apply IH. intros j Hj. apply Hall. by right.
Qed.
End DynamoFacts.

(** ** Examples *)

Section Examples.
#[local] Existing Instance ascii_only.
#[local] Instance text_attributes : DynamoDB.DynamoLib string := {|
  DynamoDB.attribute_S a := Some a;
  DynamoDB.unmarshal_backend _ := Ok (mkBackend ∅ None None None None None);
  DynamoDB.unmarshal_frontend _ := Err "not a map";
|}.

(** One backend without a name takes the named one with it; an item that does not
    decode is left out. *)
Example nameless_backend :
  DynamoDB.add_items (∅, ∅) [{["backend" := "{}"; "name" := "a"]}; {["backend" := "{}"]}] = Panic nil_dereference.
Proof. by vm_compute. Qed.
Example undecodable_frontend :
  match DynamoDB.add_items (∅, ∅) [{["backend" := "{}"; "name" := "a"]}; {["frontend" := "{}"]}] with
  | Ret m => Some (size m.1, size m.2) | _ => None end = Some (1, 0).
Proof. by vm_compute. Qed.

(** Two instances with one identifier are one table twice: no configuration is left,
    and it is sent all the same. *)
Example identifier_twice :
  let i := Eureka.mkInstanceInfo "10.0.0.1" (Some 80%Z) (Some (443%Z, false)) (Some {["traefik.backend.id" := "a"]}) in
  Eureka.template_configuration [Eureka.mkApplication "APP" [i; i]] = Ret (Err "Key has already been defined.").
Proof. by vm_compute. Qed.
(** An instance without a secure port, or without metadata, panics. *)
Example without_metadata :
  Eureka.template_configuration [Eureka.mkApplication "APP" [Eureka.mkInstanceInfo "10.0.0.1" (Some 80%Z) (Some (443%Z, false)) None]]
  = Panic nil_dereference.
Proof. by vm_compute. Qed.
End Examples.
