(* ===== verification/Kubernetes.v ===== *)
(** * [provider/kubernetes/]: ingresses become frontends and backends

    The client shows the ingresses, services, secrets and endpoints of the
    cluster ([Client], [client.go] and the library behind it); [loadIngresses]
    makes a frontend and a backend of every host and path, named by both, and
    the template [templates/kubernetes.tmpl] writes them down again.  The
    objects have the fields the provider reads. *)
From S2P Require Import Prelude GoStrings GoStringsFacts GoHttp OsioClient GoStrconv Types OsioProvider LabelNames Label Reload HealthCheck Kv.

Definition ruleTypePathPrefix : string := "PathPrefix".
Definition ruleTypeReplacePath : string := "ReplacePath".
Definition traefikDefaultRealm : string := "traefik".
Definition traefikDefaultIngressClass : string := "traefik".

(** ** Annotations ([annotations.go]) *)

Definition annotationKubernetesIngressClass : string := "kubernetes.io/ingress.class".
Definition annotationKubernetesAuthRealm : string := "ingress.kubernetes.io/auth-realm".
Definition annotationKubernetesAuthType : string := "ingress.kubernetes.io/auth-type".
Definition annotationKubernetesAuthSecret : string := "ingress.kubernetes.io/auth-secret".
Definition annotationKubernetesRewriteTarget : string := "ingress.kubernetes.io/rewrite-target".
Definition annotationKubernetesWhiteListSourceRange : string := "ingress.kubernetes.io/whitelist-source-range".
Definition annotationKubernetesWhiteListUseXForwardedFor : string := "ingress.kubernetes.io/whitelist-x-forwarded-for".
Definition annotationKubernetesPreserveHost : string := "ingress.kubernetes.io/preserve-host".
Definition annotationKubernetesPassTLSCert : string := "ingress.kubernetes.io/pass-tls-cert".
Definition annotationKubernetesFrontendEntryPoints : string := "ingress.kubernetes.io/frontend-entry-points".
Definition annotationKubernetesPriority : string := "ingress.kubernetes.io/priority".
Definition annotationKubernetesCircuitBreakerExpression : string := "ingress.kubernetes.io/circuit-breaker-expression".
Definition annotationKubernetesLoadBalancerMethod : string := "ingress.kubernetes.io/load-balancer-method".
Definition annotationKubernetesAffinity : string := "ingress.kubernetes.io/affinity".
Definition annotationKubernetesSessionCookieName : string := "ingress.kubernetes.io/session-cookie-name".
Definition annotationKubernetesRuleType : string := "ingress.kubernetes.io/rule-type".
Definition annotationKubernetesRedirectEntryPoint : string := "ingress.kubernetes.io/redirect-entry-point".
Definition annotationKubernetesRedirectPermanent : string := "ingress.kubernetes.io/redirect-permanent".
Definition annotationKubernetesRedirectRegex : string := "ingress.kubernetes.io/redirect-regex".
Definition annotationKubernetesRedirectReplacement : string := "ingress.kubernetes.io/redirect-replacement".
Definition annotationKubernetesMaxConnAmount : string := "ingress.kubernetes.io/max-conn-amount".
Definition annotationKubernetesMaxConnExtractorFunc : string := "ingress.kubernetes.io/max-conn-extractor-func".
Definition annotationKubernetesRateLimit : string := "ingress.kubernetes.io/rate-limit".
Definition annotationKubernetesErrorPages : string := "ingress.kubernetes.io/error-pages".
Definition annotationKubernetesBuffering : string := "ingress.kubernetes.io/buffering".
Definition annotationKubernetesAppRoot : string := "ingress.kubernetes.io/app-root".
Definition annotationKubernetesSSLRedirect : string := "ingress.kubernetes.io/ssl-redirect".
Definition annotationKubernetesHSTSMaxAge : string := "ingress.kubernetes.io/hsts-max-age".
Definition annotationKubernetesHSTSIncludeSubdomains : string := "ingress.kubernetes.io/hsts-include-subdomains".
Definition annotationKubernetesCustomRequestHeaders : string := "ingress.kubernetes.io/custom-request-headers".
Definition annotationKubernetesCustomResponseHeaders : string := "ingress.kubernetes.io/custom-response-headers".
Definition annotationKubernetesAllowedHosts : string := "ingress.kubernetes.io/allowed-hosts".
Definition annotationKubernetesProxyHeaders : string := "ingress.kubernetes.io/proxy-headers".
Definition annotationKubernetesSSLTemporaryRedirect : string := "ingress.kubernetes.io/ssl-temporary-redirect".
Definition annotationKubernetesSSLHost : string := "ingress.kubernetes.io/ssl-host".
Definition annotationKubernetesSSLProxyHeaders : string := "ingress.kubernetes.io/ssl-proxy-headers".
Definition annotationKubernetesHSTSPreload : string := "ingress.kubernetes.io/hsts-preload".
Definition annotationKubernetesForceHSTSHeader : string := "ingress.kubernetes.io/force-hsts".
Definition annotationKubernetesFrameDeny : string := "ingress.kubernetes.io/frame-deny".
Definition annotationKubernetesCustomFrameOptionsValue : string := "ingress.kubernetes.io/custom-frame-options-value".
Definition annotationKubernetesContentTypeNosniff : string := "ingress.kubernetes.io/content-type-nosniff".
Definition annotationKubernetesBrowserXSSFilter : string := "ingress.kubernetes.io/browser-xss-filter".
Definition annotationKubernetesCustomBrowserXSSValue : string := "ingress.kubernetes.io/custom-browser-xss-value".
Definition annotationKubernetesContentSecurityPolicy : string := "ingress.kubernetes.io/content-security-policy".
Definition annotationKubernetesPublicKey : string := "ingress.kubernetes.io/public-key".
Definition annotationKubernetesReferrerPolicy : string := "ingress.kubernetes.io/referrer-policy".
Definition annotationKubernetesIsDevelopment : string := "ingress.kubernetes.io/is-development".

(** The label names of earlier versions. *)
Definition compatibilityMapping : gmap string string := list_to_map
  [(annotationKubernetesPreserveHost, "traefik.frontend.passHostHeader");
   (annotationKubernetesPassTLSCert, "traefik.frontend.passTLSCert");
   (annotationKubernetesFrontendEntryPoints, "traefik.frontend.entryPoints");
   (annotationKubernetesPriority, "traefik.frontend.priority");
   (annotationKubernetesCircuitBreakerExpression, "traefik.backend.circuitbreaker");
   (annotationKubernetesLoadBalancerMethod, "traefik.backend.loadbalancer.method");
   (annotationKubernetesAffinity, "traefik.backend.loadbalancer.stickiness");
   (annotationKubernetesSessionCookieName, "traefik.backend.loadbalancer.stickiness.cookieName");
   (annotationKubernetesRuleType, "traefik.frontend.rule.type");
   (annotationKubernetesRedirectEntryPoint, "traefik.frontend.redirect.entrypoint");
   (annotationKubernetesRedirectRegex, "traefik.frontend.redirect.regex");
   (annotationKubernetesRedirectReplacement, "traefik.frontend.redirect.replacement")].

Definition getAnnotationName (annotations : Labels) (name : string) : string :=
  match annotations !! name with
  | Some _ => name
  | None =>
      match annotations !! (LabelNames.Prefix +:+ name) with
      | Some _ => LabelNames.Prefix +:+ name
      | None =>
          match compatibilityMapping !! name with
          | Some lbl => match annotations !! lbl with Some _ => lbl | None => name end
          | None => name
          end
      end
  end.

Definition getStringValue (annotations : Labels) (annotation defaultValue : string) : string :=
  GetStringValue annotations (getAnnotationName annotations annotation) defaultValue.
Definition getBoolValue (annotations : Labels) (annotation : string) (defaultValue : bool) : bool :=
  GetBoolValue annotations (getAnnotationName annotations annotation) defaultValue.
Definition getIntValue (annotations : Labels) (annotation : string) (defaultValue : Z) : Z :=
  GetIntValue annotations (getAnnotationName annotations annotation) defaultValue.
Definition getInt64Value (annotations : Labels) (annotation : string) (defaultValue : Z) : Z :=
  GetInt64Value annotations (getAnnotationName annotations annotation) defaultValue.
Definition getSliceStringValue (annotations : Labels) (annotation : string) : list string :=
  GetSliceStringValue annotations (getAnnotationName annotations annotation).
Definition getMapValue (annotations : Labels) (annotation : string) : gmap string string :=
  GetMapValue annotations (getAnnotationName annotations annotation).

(** [Namespaces.Set] *)
Definition Namespaces_Set (ns : list string) (str : string) : list string :=
  ns ++ fields_func (fun c => Ascii.eqb c "," || Ascii.eqb c ";") str.

(** ** Objects of the cluster *)

Inductive IntOrString := IntPort (n : Z) | StringPort (s : string).

(** [IntOrString.IntValue] ignores the error of [Atoi], which comes with 0, or
    with the bound that was passed; [IntOrString.String]. *)
Definition IntValue (x : IntOrString) : Z :=
  match x with
  | IntPort n => n
  | StringPort s =>
      match Atoi s with
      | Ok n => n
      | Err e => if bool_decide (e = ErrRange) then (if (unsign s).1 then min_int64 else max_int64) else 0
      end
  end.
Definition IntOrString_String (x : IntOrString) : string :=
  match x with IntPort n => pretty n | StringPort s => s end.

Record HTTPIngressPath := mkPath { pa_Path : string; ServiceName : string; pa_ServicePort : IntOrString }.
Record IngressRule := mkRule { r_Host : string; r_HTTP : option (list HTTPIngressPath) }.
Record Ingress := mkIngress {
  i_Namespace : string;
  i_Name : string;
  i_Annotations : Labels;
  i_TLS : list string; (* the names of the secrets *)
  i_Rules : list IngressRule;
}.
Record ServicePort := mkServicePort { sp_Name : string; sp_Port : Z }.
Record Service := mkService {
  svc_Namespace : string;
  svc_Name : string;
  svc_Annotations : Labels;
  svc_Type : string;
  ExternalName : string;
  Ports : list ServicePort;
}.
(** The address and, when there is one, the name of its target. *)
Record EndpointAddress := mkAddress { IP : string; TargetRef : option string }.
Record EndpointSubset := mkSubset { Addresses : list EndpointAddress; ss_Ports : list ServicePort }.
Abbreviation Secret := (gmap string string).

(** A [(object, exists, error)] of the source is a [result (option object)]. *)
Record Client := mkClient {
  GetIngresses : list Ingress;
  GetService : string -> string -> result (option Service);
  GetSecret : string -> string -> result (option Secret);
  GetEndpoints : string -> string -> result (option (list EndpointSubset));
}.

(** [gopkg.in/yaml.v2], for the three annotations in that format. *)
Class Yaml := {
  yaml_Buffering : string -> result Buffering;
  yaml_ErrorPages : string -> result (gmap string ErrorPage);
  yaml_RateLimit : string -> result RateLimit;
}.

Record Provider := mkProvider {
  DisablePassHostHeaders : bool;
  EnablePassTLSCert : bool;
  IngressClass : string;
}.

Definition shouldProcessIngress (p : Provider) (annotationIngressClass : string) : bool :=
  if negb (nonempty (IngressClass p))
  then negb (nonempty annotationIngressClass) || bool_decide (annotationIngressClass = traefikDefaultIngressClass)
  else bool_decide (annotationIngressClass = IngressClass p).

(** ** Rules *)

Definition getRuleForPath (pa : HTTPIngressPath) (i : Ingress) : result string :=
  if negb (nonempty (pa_Path pa)) then Ok "" else
  let ruleType := getStringValue (i_Annotations i) annotationKubernetesRuleType ruleTypePathPrefix in
  let rules := [ruleType +:+ ":" +:+ pa_Path pa] in
  let pathReplaceAnnotation := if bool_decide (ruleType = ruleTypeReplacePath) then annotationKubernetesRuleType else "" in
  let rewriteTarget := getStringValue (i_Annotations i) annotationKubernetesRewriteTarget "" in
  let rootPath := getStringValue (i_Annotations i) annotationKubernetesAppRoot "" in
  let app_root rules pathReplaceAnnotation :=
    if nonempty rootPath && bool_decide (pa_Path pa = "/") then
      if nonempty pathReplaceAnnotation
      then Err ("app-root must not be used together with annotation " +:+ pathReplaceAnnotation)
      else Ok (join (rules ++ [ruleTypeReplacePath +:+ ":" +:+ rootPath]) ";")
    else Ok (join rules ";") in
  if nonempty rewriteTarget then
    if nonempty pathReplaceAnnotation
    then Err ("rewrite-target must not be used together with annotation " +:+ pathReplaceAnnotation)
    else app_root (rules ++ [ruleTypeReplacePath +:+ ":" +:+ rewriteTarget]) annotationKubernetesRewriteTarget
  else app_root rules pathReplaceAnnotation.

Definition getRuleForHost (host : string) : string :=
  match cut host "*" with
  | Some (a, b) => "HostRegexp:" +:+ a +:+ "{subdomain:[A-Za-z0-9-_]+}" +:+ b
  | None => "Host:" +:+ host
  end.

(** ** Credentials and certificates

    Errors are only logged; the quotes of their texts are left out. *)

(** The lines of [bufio.ScanLines]: without a final carriage return, and up to
    the first that does not fit the scanner's buffer. *)
Definition scan_lines (s : string) : list string :=
  let lines := split s (String "010" "") in
  let lines := match rev lines with "" :: l => rev l | _ => lines end in
  let fits line := (Z.of_nat (String.length line) <? 65536)%Z in
  let n := match list_find (fun line => fits line = false) lines with Some (n, _) => n | None => length lines end in
  map (fun line => trim_suffix line (String "013" "")) (take n lines).

Definition loadAuthCredentials (client : Client) (namespace secretName : string) : result (list string) :=
  match GetSecret client namespace secretName with
  | Err err => Err ("failed to fetch secret " +:+ namespace +:+ "/" +:+ secretName +:+ ": " +:+ err)
  | Ok None => Err ("secret " +:+ namespace +:+ "/" +:+ secretName +:+ " not found")
  | Ok (Some secret) =>
      match map_to_list secret with
      | [(_, firstSecret)] =>
          let creds := filter (fun cred => cred <> "") (scan_lines firstSecret) in
          if bool_decide (length creds = 0)
          then Err ("secret " +:+ namespace +:+ "/" +:+ secretName +:+ " does not contain any credentials")
          else Ok creds
      | l => Err ("found " +:+ pretty (length l) +:+ " elements for secret " +:+ namespace +:+ "/" +:+ secretName)
      end
  end.

Definition handleBasicAuthConfig (client : Client) (i : Ingress) : result (list string) :=
  match i_Annotations i !! getAnnotationName (i_Annotations i) annotationKubernetesAuthType with
  | None => Ok []
  | Some authType =>
      if negb (bool_decide (to_lower authType = "basic")) then Err ("unsupported auth-type: " +:+ authType) else
      let authSecret := getStringValue (i_Annotations i) annotationKubernetesAuthSecret "" in
      if negb (nonempty authSecret) then Err "auth-secret annotation must be set" else
      match loadAuthCredentials client (i_Namespace i) authSecret with
      | Err err => Err ("failed to load auth credentials: " +:+ err)
      | Ok basicAuthCreds => Ok basicAuthCreds
      end
  end.

Definition tls_of_secret (client : Client) (i : Ingress) (secretName : string) : result TLSConfiguration :=
  let name := i_Namespace i +:+ "/" +:+ secretName in
  match GetSecret client (i_Namespace i) secretName with
  | Err err => Err ("failed to fetch secret " +:+ name +:+ ": " +:+ err)
  | Ok None => Err ("secret " +:+ name +:+ " does not exist")
  | Ok (Some data) =>
      match data !! "tls.crt", data !! "tls.key" with
      | Some crt, Some key =>
          Ok (mkTLSConfiguration (getSliceStringValue (i_Annotations i) annotationKubernetesFrontendEntryPoints) (Some (crt, key)))
      | tlsCrt, tlsKey =>
          let missingEntries :=
            match tlsCrt with None => ["tls.crt"] | _ => [] end ++ match tlsKey with None => ["tls.key"] | _ => [] end in
          Err ("secret " +:+ name +:+ " is missing the following TLS data entries: " +:+ join missingEntries ", ")
      end
  end.

Fixpoint tls_loop (client : Client) (i : Ingress) (secrets : list string) : result (list TLSConfiguration) :=
  match secrets with
  | [] => Ok []
  | s :: l => c ← tls_of_secret client i s; cs ← tls_loop client i l; Ok (c :: cs)
  end.
Definition getTLS (client : Client) (i : Ingress) : result (list TLSConfiguration) := tls_loop client i (i_TLS i).

(** ** Parts of frontends *)

Definition getFrontendRedirect (i : Ingress) : option Redirect :=
  let permanent := getBoolValue (i_Annotations i) annotationKubernetesRedirectPermanent false in
  let redirectEntryPoint := getStringValue (i_Annotations i) annotationKubernetesRedirectEntryPoint "" in
  if nonempty redirectEntryPoint then Some (mkRedirect redirectEntryPoint "" "" permanent) else
  let redirectRegex := getStringValue (i_Annotations i) annotationKubernetesRedirectRegex "" in
  let redirectReplacement := getStringValue (i_Annotations i) annotationKubernetesRedirectReplacement "" in
  if nonempty redirectRegex && nonempty redirectReplacement
  then Some (mkRedirect "" redirectRegex redirectReplacement permanent) else None.

Definition getWhiteList (i : Ingress) : option WhiteList :=
  let ranges := getSliceStringValue (i_Annotations i) annotationKubernetesWhiteListSourceRange in
  if bool_decide (length ranges = 0) then None else
  Some (mkWhiteList ranges (getBoolValue (i_Annotations i) annotationKubernetesWhiteListUseXForwardedFor false)).

Definition getHeader (i : Ingress) : option Headers :=
  let annotations := i_Annotations i in
  let headers := {|
    CustomRequestHeaders := getMapValue annotations annotationKubernetesCustomRequestHeaders;
    CustomResponseHeaders := getMapValue annotations annotationKubernetesCustomResponseHeaders;
    AllowedHosts := getSliceStringValue annotations annotationKubernetesAllowedHosts;
    HostsProxyHeaders := getSliceStringValue annotations annotationKubernetesProxyHeaders;
    SSLRedirect := getBoolValue annotations annotationKubernetesSSLRedirect false;
    SSLTemporaryRedirect := getBoolValue annotations annotationKubernetesSSLTemporaryRedirect false;
    SSLHost := getStringValue annotations annotationKubernetesSSLHost "";
    SSLProxyHeaders := getMapValue annotations annotationKubernetesSSLProxyHeaders;
    STSSeconds := getInt64Value annotations annotationKubernetesHSTSMaxAge 0;
    STSIncludeSubdomains := getBoolValue annotations annotationKubernetesHSTSIncludeSubdomains false;
    STSPreload := getBoolValue annotations annotationKubernetesHSTSPreload false;
    ForceSTSHeader := getBoolValue annotations annotationKubernetesForceHSTSHeader false;
    FrameDeny := getBoolValue annotations annotationKubernetesFrameDeny false;
    CustomFrameOptionsValue := getStringValue annotations annotationKubernetesCustomFrameOptionsValue "";
    ContentTypeNosniff := getBoolValue annotations annotationKubernetesContentTypeNosniff false;
    BrowserXSSFilter := getBoolValue annotations annotationKubernetesBrowserXSSFilter false;
    CustomBrowserXSSValue := getStringValue annotations annotationKubernetesCustomBrowserXSSValue "";
    ContentSecurityPolicy := getStringValue annotations annotationKubernetesContentSecurityPolicy "";
    h_PublicKey := getStringValue annotations annotationKubernetesPublicKey "";
    ReferrerPolicy := getStringValue annotations annotationKubernetesReferrerPolicy "";
    IsDevelopment := getBoolValue annotations annotationKubernetesIsDevelopment false |} in
  if negb (HasSecureHeadersDefined (Some headers)) && negb (HasCustomHeadersDefined (Some headers))
  then None else Some headers.

Definition getErrorPages `{Yaml} (i : Ingress) : gmap string ErrorPage :=
  let pagesRaw := getStringValue (i_Annotations i) annotationKubernetesErrorPages "" in
  if negb (nonempty pagesRaw) then ∅ else
  match yaml_ErrorPages pagesRaw with Ok errorPages => errorPages | Err _ => ∅ end.

Definition getRateLimit `{Yaml} (i : Ingress) : option RateLimit :=
  let rateRaw := getStringValue (i_Annotations i) annotationKubernetesRateLimit "" in
  if negb (nonempty rateRaw) then None else
  match yaml_RateLimit rateRaw with Ok rateLimit => Some rateLimit | Err _ => None end.

(** ** Parts of backends *)

Definition getBuffering `{Yaml} (service : Service) : option Buffering :=
  let bufferingRaw := getStringValue (svc_Annotations service) annotationKubernetesBuffering "" in
  if negb (nonempty bufferingRaw) then None else
  match yaml_Buffering bufferingRaw with Ok buffering => Some buffering | Err _ => None end.

Definition getStickiness (service : Service) : option Stickiness :=
  if getBoolValue (svc_Annotations service) annotationKubernetesAffinity false
  then Some (mkStickiness (getStringValue (svc_Annotations service) annotationKubernetesSessionCookieName ""))
  else None.

Definition getLoadBalancer (service : Service) : LoadBalancer :=
  let method :=
    if bool_decide (getStringValue (svc_Annotations service) annotationKubernetesLoadBalancerMethod "" = "drr")
    then "drr" else "wrr" in
  let sticky := default "" (svc_Annotations service !! TraefikBackendLoadBalancerSticky) in
  mkLoadBalancer method (nonempty sticky && equal_fold (trim_space sticky) "true") (getStickiness service).

Definition getMaxConn (service : Service) : option MaxConn :=
  let amount := getInt64Value (svc_Annotations service) annotationKubernetesMaxConnAmount (-1) in
  let extractorFunc := getStringValue (svc_Annotations service) annotationKubernetesMaxConnExtractorFunc "" in
  if (0 <=? amount)%Z && nonempty extractorFunc then Some (mkMaxConn amount extractorFunc) else None.

Definition getCircuitBreaker (service : Service) : option CircuitBreaker :=
  let expression := getStringValue (svc_Annotations service) annotationKubernetesCircuitBreakerExpression "" in
  if nonempty expression then Some (mkCircuitBreaker expression) else None.

Definition equalPorts (servicePort : ServicePort) (ingressPort : IntOrString) : bool :=
  (sp_Port servicePort =? IntValue ingressPort)%Z ||
  (nonempty (sp_Name servicePort) && bool_decide (sp_Name servicePort = IntOrString_String ingressPort)).

(** The last endpoint port of the service port's name, or the first. *)
Definition endpointPortNumber (servicePort : ServicePort) (endpointPorts : list ServicePort) : Z :=
  match endpointPorts with
  | [] => sp_Port servicePort
  | port :: _ =>
      sp_Port (foldl (fun port endpointPort =>
        if bool_decide (sp_Name servicePort = sp_Name endpointPort) then endpointPort else port) port endpointPorts)
  end.

(** ** Servers *)

Definition endpoint_server (protocol : string) (port : ServicePort) (subset : EndpointSubset) (address : EndpointAddress) :
    string * Server :=
  let url := protocol +:+ "://" +:+ JoinHostPort (IP address) (pretty (endpointPortNumber port (ss_Ports subset))) in
  let name := match TargetRef address with Some name => if nonempty name then name else url | None => url end in
  (name, mkServer url DefaultWeight).

Definition endpoint_servers (protocol : string) (port : ServicePort) (subsets : list EndpointSubset) : list (string * Server) :=
  subset ← subsets; address ← Addresses subset; [endpoint_server protocol port subset address].

(** The servers that the service adds for the first port that is the ingress's. *)
Definition service_servers (client : Client) (service : Service) (ingressPort : IntOrString) : result (list (string * Server)) :=
  match list_find (fun port => equalPorts port ingressPort = true) (Ports service) with
  | None => Ok []
  | Some (_, port) =>
      let protocol := if (sp_Port port =? 443)%Z then "https" else DefaultProtocol in
      if bool_decide (svc_Type service = "ExternalName") then
        let url := protocol +:+ "://" +:+ ExternalName service in
        Ok [(url, mkServer url DefaultWeight)]
      else
        match GetEndpoints client (svc_Namespace service) (svc_Name service) with
        | Err err => Err err
        | Ok None => Ok []
        | Ok (Some subsets) => Ok (endpoint_servers protocol port subsets)
        end
  end.

(** ** Ingresses *)

Section Load.
Context `{Yaml} (p : Provider) (client : Client).

Definition set_backend (name : string) (b : Backend) (c : Configuration) : Configuration :=
  mkConfiguration (<[name := b]> (Backends c)) (Frontends c) (TLSConfigs c).
Definition set_frontend (name : string) (f : Frontend) (c : Configuration) : Configuration :=
  mkConfiguration (Backends c) (<[name := f]> (Frontends c)) (TLSConfigs c).
Definition delete_backend (name : string) (c : Configuration) : Configuration :=
  mkConfiguration (delete name (Backends c)) (Frontends c) (TLSConfigs c).
Definition delete_frontend (name : string) (c : Configuration) : Configuration :=
  mkConfiguration (Backends c) (delete name (Frontends c)) (TLSConfigs c).
Definition set_routes (r : gmap string Route) (f : Frontend) : Frontend :=
  mkFrontend (EntryPoints f) (fe_Backend f) r (PassHostHeader f) (PassTLSCert f) (Priority f) (BasicAuth f)
    (WhitelistSourceRange f) (fe_WhiteList f) (fe_Headers f) (Errors f) (fe_RateLimit f) (fe_Redirect f).

Definition new_backend : Backend := mkBackend ∅ None (Some (mkLoadBalancer "wrr" false None)) None None None.

Definition new_frontend (i : Ingress) (baseName : string) (basicAuthCreds : list string) : Frontend := {|
  fe_Backend := baseName;
  PassHostHeader := getBoolValue (i_Annotations i) annotationKubernetesPreserveHost (negb (DisablePassHostHeaders p));
  PassTLSCert := getBoolValue (i_Annotations i) annotationKubernetesPassTLSCert (EnablePassTLSCert p);
  Routes := ∅;
  Priority := getIntValue (i_Annotations i) annotationKubernetesPriority 0;
  BasicAuth := basicAuthCreds;
  WhitelistSourceRange := [];
  fe_WhiteList := getWhiteList i;
  fe_Redirect := getFrontendRedirect i;
  EntryPoints := getSliceStringValue (i_Annotations i) annotationKubernetesFrontendEntryPoints;
  fe_Headers := getHeader i;
  Errors := getErrorPages i;
  fe_RateLimit := getRateLimit i |}.

Definition add_host (host : string) (f : Frontend) : Frontend :=
  if nonempty host then
    match Routes f !! host with
    | Some _ => f
    | None => set_routes (<[host := mkRoute (getRuleForHost host)]> (Routes f)) f
    end
  else f.

(** What the service says of the backend. *)
Definition describe_backend (service : Service) (servers : list (string * Server)) (b : Backend) : Backend :=
  mkBackend (foldl (fun m kv => <[kv.1 := kv.2]> m) (Servers b) servers) (getCircuitBreaker service)
    (Some (getLoadBalancer service)) (getMaxConn service) (be_HealthCheck b) (getBuffering service).

(** The body of the innermost loop: [Ok] for [continue] and for its end. *)
Definition load_path (i : Ingress) (r : IngressRule) (pa : HTTPIngressPath) (c : Configuration) : result Configuration :=
  let baseName := r_Host r +:+ pa_Path pa in
  let c := match Backends c !! baseName with Some _ => c | None => set_backend baseName new_backend c end in
  let realm := default "" (i_Annotations i !! getAnnotationName (i_Annotations i) annotationKubernetesAuthRealm) in
  if nonempty realm && negb (bool_decide (realm = traefikDefaultRealm)) then Ok (delete_backend baseName c) else
  match (match Frontends c !! baseName with
         | Some frontend => Some frontend
         | None =>
             match handleBasicAuthConfig client i with
             | Err _ => None
             | Ok basicAuthCreds => Some (new_frontend i baseName basicAuthCreds)
             end
         end) with
  | None => Ok c
  | Some frontend =>
      let frontend := add_host (r_Host r) frontend in
      match getRuleForPath pa i with
      | Err _ => Ok (delete_frontend baseName c)
      | Ok rule =>
          let frontend :=
            if nonempty rule then set_routes (<[pa_Path pa := mkRoute rule]> (Routes frontend)) frontend else frontend in
          let c := set_frontend baseName frontend c in
          match GetService client (i_Namespace i) (ServiceName pa) with
          | Err err => Err err
          | Ok None => Ok (delete_frontend baseName c)
          | Ok (Some service) =>
              servers ← service_servers client service (pa_ServicePort pa);
              let b := default new_backend (Backends c !! baseName) in
              Ok (set_backend baseName (describe_backend service servers b) c)
          end
      end
  end.

Fixpoint fold_result {A B} (f : A -> B -> result B) (l : list A) (b : B) : result B :=
  match l with
  | [] => Ok b
  | a :: l => b ← f a b; fold_result f l b
  end.

Definition load_rule (i : Ingress) (r : IngressRule) (c : Configuration) : result Configuration :=
  match r_HTTP r with
  | None => Ok c
  | Some paths => fold_result (load_path i r) paths c
  end.

Definition ingress_class (i : Ingress) : string :=
  default "" (i_Annotations i !! getAnnotationName (i_Annotations i) annotationKubernetesIngressClass).

Definition load_ingress (i : Ingress) (c : Configuration) : result Configuration :=
  if negb (shouldProcessIngress p (ingress_class i)) then Ok c else
  match getTLS client i with
  | Err _ => Ok c
  | Ok tlsSection =>
      fold_result (load_rule i) (i_Rules i)
        (mkConfiguration (Backends c) (Frontends c) (TLSConfigs c ++ tlsSection))
  end.

Definition loadIngresses : result Configuration :=
  fold_result load_ingress (GetIngresses client) (mkConfiguration ∅ ∅ []).

End Load.

(** ** Watching *)

(** A configuration is decoded from the template's text; a nil one is sent
    when that fails. *)
Definition loadConfig `{TemplateEngine} (templateObjects : Configuration) : option Configuration :=
  match GetConfiguration templateObjects with Ok c => Some c | Err _ => None end.

Record PState := mkPState { lastConfiguration : option Configuration; sent : list ConfigMessage }.

(** What the select of the loop sees: the stop channel, or an event of the
    watch, with the cluster as the client then shows it. *)
Inductive event := Stop | Event (client : Client).

#[export] Instance Configuration_eq_dec : EqDecision Configuration. Proof. solve_decision. Defined.

(** The answer of [WatchAll], with what the select then sees; an error is
    returned after a second, unless the stop channel is first. *)
Inductive watch := Watching (events : list event) | NotWatching (err : error) (stopped : bool).

Section Watching.
Context `{Yaml} `{TemplateEngine} (p : Provider).

(** [None] when the events end while the loop is waiting. *)
Fixpoint event_loop (events : list event) : M PState (option (option error)) :=
  match events with
  | [] => mret None
  | Stop :: _ => mret (Some None)
  | Event client :: events' =>
      match loadIngresses p client with
      | Err err => mret (Some (Some err))
      | Ok templateObjects =>
          s ← get_state;
          _ ← (if bool_decide (lastConfiguration s = Some templateObjects) then mret tt
               else modify_state (fun s =>
                 mkPState (Some templateObjects) (sent s ++ [mkConfigMessage "kubernetes" (loadConfig templateObjects)])));
          event_loop events'
      end
  end.

Definition operation (w : watch) : M PState (option (option error)) :=
  match w with
  | NotWatching err stopped => mret (Some (if stopped then None else Some err))
  | Watching events => event_loop events
  end.

(** [backoff.RetryNotify]: a failed attempt is followed by another, on the state
    as it was left. *)
Fixpoint retry (attempts : list watch) : M PState (option (option error)) :=
  match attempts with
  | [] => mret None
  | w :: attempts' =>
      r ← OperationWithRecover (operation w);
      match r with
      | Some (Some _) => retry attempts'
      | r => mret r
      end
  end.

(** The class of the ingresses is checked before anything is started;
    [k8sClient] is the answer of [newK8sClient]. *)
Definition Provide (k8sClient : result unit) (attempts : list watch) : M PState (option error) :=
  if nonempty (IngressClass p) && negb (has_prefix (IngressClass p) traefikDefaultIngressClass)
  then mret (Some ("value for IngressClass has to be empty or start with the prefix " +:+ traefikDefaultIngressClass
                     +:+ ", instead found " +:+ IngressClass p))
  else
    match k8sClient with
    | Err err => mret (Some err)
    | Ok _ => _ ← retry attempts; mret None
    end.

End Watching.

(** * Facts: What the Kubernetes provider makes of ingresses

    Where frontends, their routes and the servers of their backends come from;
    what ingresses that share a host and a path do to each other; and what is
    sent. *)

Lemma fold_result_inv {A B} (P : B -> Prop) (f : A -> B -> result B) l : forall b b',
  (forall a b b', a ∈ l -> P b -> f a b = Ok b' -> P b') -> P b -> fold_result f l b = Ok b' -> P b'.
Proof.
  induction l as [|a l IH]; intros b b' Hf Hb; simpl; [by intros [= <-]|].
  intros (b1 & H1 & H2)%result_bind_inv. apply (IH b1); [|eapply Hf; [by left|done..]|done].
  intros a' ? ? Hin. apply Hf. by right.
Qed.

Section Origin.
Context `{Yaml} (p : Provider) (client : Client).

(** ** Where things come from *)

(** The path [pa] of the rule [r] of the ingress [i] is one the provider reads
    for the frontend and the backend [name]. *)
Record origin (name : string) (i : Ingress) (r : IngressRule) (pa : HTTPIngressPath) : Prop := mkOrigin {
  or_listed : i ∈ GetIngresses client;
  or_class : shouldProcessIngress p (ingress_class i) = true;
  or_tls : is_ok (getTLS client i) = true;
  or_rule : r ∈ i_Rules i;
  or_path : exists paths, r_HTTP r = Some paths /\ pa ∈ paths;
  or_name : name = r_Host r +:+ pa_Path pa;
}.

Definition route_from (name key : string) (route : Route) : Prop :=
  exists i r pa, origin name i r pa /\
    (key = r_Host r /\ key <> "" /\ Rule route = getRuleForHost key \/
     key = pa_Path pa /\ Rule route <> "" /\ getRuleForPath pa i = Ok (Rule route)).

(** Everything but the routes is of one ingress, the credentials included. *)
Definition frontend_from (name : string) (fr : Frontend) : Prop :=
  exists i r pa creds, origin name i r pa /\ handleBasicAuthConfig client i = Ok creds /\
    set_routes ∅ fr = new_frontend p i name creds.

Definition server_from (name key : string) (sv : Server) : Prop :=
  exists i r pa svc servers, origin name i r pa /\ GetService client (i_Namespace i) (ServiceName pa) = Ok (Some svc) /\
    service_servers client svc (pa_ServicePort pa) = Ok servers /\ (key, sv) ∈ servers.

Record well_made (c : Configuration) : Prop := mkWellMade {
  wm_frontend name fr : Frontends c !! name = Some fr -> frontend_from name fr;
  wm_route name fr key route : Frontends c !! name = Some fr -> Routes fr !! key = Some route -> route_from name key route;
  wm_server name b key sv : Backends c !! name = Some b -> Servers b !! key = Some sv -> server_from name key sv;
}.

Lemma well_made_backend name b c : well_made c -> (forall key sv, Servers b !! key = Some sv -> server_from name key sv) ->
  well_made (set_backend name b c).
Proof.
  intros [Hf Hr Hs] Hb. split; simpl; [done..|]. intros name' b' key sv [[<- <-]|[_ ?]]%lookup_insert_Some; eauto.
Qed.

Lemma well_made_delete_backend name c : well_made c -> well_made (delete_backend name c).
Proof. intros [Hf Hr Hs]. split; simpl; [done..|]. intros name' b' key sv [_ ?]%lookup_delete_Some; eauto. Qed.

Lemma well_made_delete_frontend name c : well_made c -> well_made (delete_frontend name c).
Proof. intros [Hf Hr Hs]. split; simpl; [..|done]; intros name' fr; [|intros ? ?]; intros [_ ?]%lookup_delete_Some; eauto. Qed.

Lemma well_made_frontend name fr c : well_made c -> frontend_from name fr ->
  (forall key route, Routes fr !! key = Some route -> route_from name key route) -> well_made (set_frontend name fr c).
Proof.
  intros [Hf Hr Hs] Hfr Hroutes. split; simpl; [..|done]; intros name' fr'; [|intros ? ?];
    intros [[<- <-]|[_ ?]]%lookup_insert_Some; eauto.
Qed.

Lemma added_servers l (m : gmap string Server) key sv : foldl (fun m kv => <[kv.1 := kv.2]> m) m l !! key = Some sv ->
  m !! key = Some sv \/ (key, sv) ∈ l.
Proof.
  revert m. induction l as [|[k v] l IH]; intros m; simpl; [by left|].
  intros [[[<- <-]|[_ ?]]%lookup_insert_Some|?]%IH; [right; by left|by left|right; by right].
Qed.

Lemma load_path_well_made i r pa c c' : origin (r_Host r +:+ pa_Path pa) i r pa ->
  well_made c -> load_path p client i r pa c = Ok c' -> well_made c'.
Proof.
  intros Ho Hc. unfold load_path. set (name := r_Host r +:+ pa_Path pa) in *.
  set (c1 := match Backends c !! name with Some _ => c | None => set_backend name new_backend c end).
  assert (well_made c1) as Hc1.
  { unfold c1. destruct (Backends c !! name); [done|]. apply well_made_backend; [done|]. intros key sv. simpl. by rewrite lookup_empty. }
  assert (Frontends c1 = Frontends c) as Ef by (unfold c1; by destruct (Backends c !! name)).
  clearbody c1. destruct (_ && _); [intros [= <-]; by apply well_made_delete_backend|].
  match goal with |- context [match ?x with Some _ => _ | None => Ok _ end] => destruct x as [fr|] eqn:Efr end; [|by intros [= <-]].
  assert (frontend_from name fr /\ forall key route, Routes fr !! key = Some route -> route_from name key route) as [Hfr Hroutes].
  { destruct (Frontends c1 !! name) as [fr'|] eqn:E.
    - injection Efr as ->. split; [by apply (wm_frontend c1)|]. intros key route. by apply (wm_route c1 Hc1 name fr).
    - destruct (handleBasicAuthConfig client i) as [creds|] eqn:Ec; [|done]. injection Efr as <-. split.
      + exists i, r, pa, creds. by split_and!.
      + intros key route. simpl. by rewrite lookup_empty. }
  assert (frontend_from name (add_host (r_Host r) fr) /\
    forall key route, Routes (add_host (r_Host r) fr) !! key = Some route -> route_from name key route) as [Hfr2 Hroutes2].
  { unfold add_host, nonempty. case_bool_decide as Hh; simpl; [done|]. destruct (Routes fr !! r_Host r) eqn:E; [done|].
    split; [done|]. intros key route. simpl. intros [[<- <-]|[_ ?]]%lookup_insert_Some; [|by apply Hroutes].
    exists i, r, pa. split; [done|]. by left. }
  clear Hfr Hroutes Efr. destruct (getRuleForPath pa i) as [rule|] eqn:Erule; [|intros [= <-]; by apply well_made_delete_frontend].
  match goal with |- context [set_frontend name ?f c1] => set (fr3 := f) end.
  assert (well_made (set_frontend name fr3 c1)) as Hc3.
  { unfold fr3, nonempty. case_bool_decide as Hr; simpl; [by apply well_made_frontend|].
    apply well_made_frontend; [done|done|]. intros key route. simpl. intros [[<- <-]|[_ ?]]%lookup_insert_Some; [|by apply Hroutes2].
    exists i, r, pa. split; [done|]. by right. }
  destruct (GetService client (i_Namespace i) (ServiceName pa)) as [[svc|]|] eqn:Es; [|intros [= <-]; by apply well_made_delete_frontend|done].
  intros (servers & Hsv & [= <-])%result_bind_inv. apply well_made_backend; [done|]. intros key sv. simpl.
  intros [Hold|Hnew]%added_servers.
  - destruct (Backends c1 !! name) as [b|] eqn:Eb; simpl in Hold; [by apply (wm_server c1 Hc1 name b)|by rewrite lookup_empty in Hold].
  - by exists i, r, pa, svc, servers.
Qed.

Lemma load_well_made c : loadIngresses p client = Ok c -> well_made c.
Proof.
  unfold loadIngresses. apply fold_result_inv.
  2: { by split; intros ? ?; simpl; [|intros ? ?|intros ? ?]; rewrite lookup_empty. }
  intros i c0 c1 Hi Hc0. unfold load_ingress. destruct (shouldProcessIngress p (ingress_class i)) eqn:Ecl; simpl; [|by intros [= <-]].
  destruct (getTLS client i) as [tls|] eqn:Et; [|by intros [= <-]]. apply fold_result_inv.
  2: { destruct Hc0 as [Hf Hr Hs]. by split. }
  intros r c2 c3 Hr Hc2. unfold load_rule. destruct (r_HTTP r) as [paths|] eqn:Ep; [|by intros [= <-]].
  apply fold_result_inv; [|done]. intros pa c4 c5 Hpa Hc4. apply load_path_well_made; [|done].
  split; try done; [by rewrite Et|by exists paths].
Qed.

(** ** Credentials *)

Lemma loadAuthCredentials_nonempty namespace name creds : loadAuthCredentials client namespace name = Ok creds -> creds <> [].
Proof.
  unfold loadAuthCredentials. destruct (GetSecret _ _ _) as [[secret|]|]; [|done..].
  destruct (map_to_list secret) as [|[k v] [|]]; [done| |done]. case_bool_decide as E; [done|]. intros [= <-] E0. apply E. by rewrite E0.
Qed.

Lemma handleBasicAuthConfig_nonempty i creds : handleBasicAuthConfig client i = Ok creds ->
  is_Some (i_Annotations i !! getAnnotationName (i_Annotations i) annotationKubernetesAuthType) -> creds <> [].
Proof.
  unfold handleBasicAuthConfig. intros Hb [a Ha]. rewrite Ha in Hb. destruct (negb _); [done|]. destruct (negb _); [done|].
  destruct (loadAuthCredentials _ _ _) as [l|] eqn:E; [|done]. injection Hb as <-. by eapply loadAuthCredentials_nonempty.
Qed.

(** C15: every frontend the provider makes is named by the host and path of an
    ingress of its class whose TLS secrets are complete, and has that ingress's
    settings; when the ingress asks for authentication the frontend has
    credentials, never none.  Its routes are the hosts and paths of such
    ingresses of the same name, and every server of its backend is one of the
    service that such an ingress names, in that ingress's namespace. *)
Theorem frontends_from_ingresses c : loadIngresses p client = Ok c ->
  (forall name fr, Frontends c !! name = Some fr ->
     fe_Backend fr = name /\
     exists i r pa, origin name i r pa /\ handleBasicAuthConfig client i = Ok (BasicAuth fr) /\
       set_routes ∅ fr = new_frontend p i name (BasicAuth fr) /\
       (is_Some (i_Annotations i !! getAnnotationName (i_Annotations i) annotationKubernetesAuthType) -> BasicAuth fr <> []) /\
       (forall key route, Routes fr !! key = Some route -> route_from name key route)) /\
  (forall name b key sv, Backends c !! name = Some b -> Servers b !! key = Some sv -> server_from name key sv).
Proof.
  intros Hc%load_well_made. split; [|by apply (wm_server c)].
  intros name fr Hfr. destruct (wm_frontend c Hc _ _ Hfr) as (i & r & pa & creds & Ho & Hcreds & Heq).
  assert (BasicAuth fr = creds) as Hba by exact (f_equal BasicAuth Heq).
  split; [exact (f_equal fe_Backend Heq)|]. exists i, r, pa. rewrite Hba. split_and!; try done.
  - by apply handleBasicAuthConfig_nonempty.
  - intros key route. by apply (wm_route c Hc name fr).
Qed.

End Origin.

(** ** What is sent *)

Section Sends.
Context `{Yaml} `{TemplateEngine} (p : Provider).

(** The configurations an attempt loads, and whether it then fails. *)
Fixpoint event_loads (events : list event) : list Configuration :=
  match events with
  | Event client :: events' => match loadIngresses p client with Ok c => c :: event_loads events' | Err _ => [] end
  | _ => []
  end.
Fixpoint events_fail (events : list event) : bool :=
  match events with
  | Event client :: events' => match loadIngresses p client with Ok _ => events_fail events' | Err _ => true end
  | _ => false
  end.
Fixpoint loads (attempts : list watch) : list Configuration :=
  match attempts with
  | Watching events :: l => event_loads events ++ (if events_fail events then loads l else [])
  | NotWatching _ false :: l => loads l
  | _ => []
  end.

(** Without what equals the one before, starting from [last]. *)
Fixpoint changes (last : option Configuration) (l : list Configuration) : list Configuration :=
  match l with
  | [] => []
  | c :: l => if decide (last = Some c) then changes last l else c :: changes (Some c) l
  end.
Definition final (last : option Configuration) (l : list Configuration) : option Configuration :=
  foldl (fun _ c => Some c) last l.
Definition message (c : Configuration) : ConfigMessage := mkConfigMessage "kubernetes" (loadConfig c).

Definition after (s : PState) (l : list Configuration) : PState :=
  mkPState (final (lastConfiguration s) l) (sent s ++ map message (changes (lastConfiguration s) l)).

Lemma after_nil s : after s [] = s.
Proof. destruct s. unfold after. simpl. by rewrite app_nil_r. Qed.

Lemma changes_app last l1 l2 : changes last (l1 ++ l2) = changes last l1 ++ changes (final last l1) l2.
Proof.
  revert last. induction l1 as [|c l1 IH]; intros last; simpl; [done|]. rewrite !IH. case_decide as E; [by rewrite <- E|done].
Qed.

Lemma after_app s l1 l2 : after s (l1 ++ l2) = after (after s l1) l2.
Proof. unfold after. simpl. rewrite changes_app, map_app, app_assoc. unfold final. by rewrite foldl_app. Qed.

Lemma event_loop_after events s : exists r, event_loop p events s = (Ret r, after s (event_loads events)) /\
  (if events_fail events then exists err, r = Some (Some err) else r = None \/ r = Some None).
Proof.
  revert s. induction events as [|[|client] events IH]; intros s; simpl.
  - exists None. rewrite after_nil. auto.
  - exists (Some None). rewrite after_nil. auto.
  - destruct (loadIngresses p client) as [c|err]; [|exists (Some (Some err)); rewrite after_nil; eauto].
    change (c :: event_loads events) with ([c] ++ event_loads events). rewrite after_app.
    destruct (IH (after s [c])) as (r & Hr & Hf). exists r. split; [|done]. rewrite <- Hr.
    unfold mbind, M_bind, get_state. simpl. destruct s as [last l]. unfold after. simpl.
    case_bool_decide as E; case_decide; try done. simpl. by rewrite app_nil_r, E.
Qed.

(** A configuration is sent whenever, and only when, the ingresses make
    another one than before: over any number of watches, failed and taken up
    again, what is sent are the loaded configurations without repetitions of
    the one before, and the run neither panics nor crashes. *)
Theorem sends_changes attempts s :
  exists r, retry p attempts s =
    (Ret r, mkPState (final (lastConfiguration s) (loads attempts))
              (sent s ++ map message (changes (lastConfiguration s) (loads attempts)))).
Proof.
  fold (after s (loads attempts)). revert s. induction attempts as [|[events|err stopped] attempts IH]; intros s; simpl.
  - exists None. by rewrite after_nil.
  - destruct (event_loop_after events s) as (r & Hr & Hf). unfold mbind, M_bind, OperationWithRecover. simpl. rewrite Hr.
    rewrite after_app. destruct (events_fail events); [destruct Hf as [err ->]; apply IH|].
    rewrite after_nil. destruct Hf as [-> | ->]; by eexists.
  - unfold mbind, M_bind, OperationWithRecover. simpl. destruct stopped; [exists (Some None); by rewrite after_nil|apply IH].
Qed.

End Sends.

(** ** Examples *)

Section Example.

Definition no_yaml : Yaml := {|
  yaml_Buffering _ := Err "no document"; yaml_ErrorPages _ := Err "no document"; yaml_RateLimit _ := Err "no document" |}.
Local Existing Instance no_yaml.

Definition http := mkServicePort "http" 80.
Definition web_service := mkService "default" "web" ∅ "ClusterIP" "" [http].
Definition sample_client (ingresses : list Ingress) : Client := {|
  GetIngresses := ingresses;
  GetService ns name :=
    if bool_decide (name = "web") then Ok (Some web_service) else Ok None;
  GetSecret ns name := if bool_decide (name = "users") then Ok (Some {["auth" := "ann:x" +:+ String "010" "bob:y"]}) else Ok None;
  GetEndpoints ns name := Ok (Some [mkSubset [mkAddress "10.0.0.1" None; mkAddress "10.0.0.2" (Some "pod")] [mkServicePort "http" 8080]]) |}.
Definition ingress_of (ns name : string) (annotations : list (string * string)) (service : string) : Ingress :=
  mkIngress ns name (list_to_map annotations) [] [mkRule "example.org" (Some [mkPath "/app" service (StringPort "http")])].
Definition any_class : Provider := mkProvider false false "".

Definition guarded_ingress : Ingress := ingress_of "default" "app"
  [(annotationKubernetesAuthType, "basic"); (annotationKubernetesAuthSecret, "users")] "web".

Definition names {A} (m : gmap string A) : list string := map fst (map_to_list m).

Lemma frontends_from_ingresses_witness :
  exists c, loadIngresses any_class (sample_client [guarded_ingress]) = Ok c /\
    forall name fr, Frontends c !! name = Some fr -> fe_Backend fr = name.
Proof.
  destruct (loadIngresses any_class (sample_client [guarded_ingress])) as [c|e] eqn:E; [|by vm_compute in E].
  exists c. split; [done|]. intros name fr Hfr. by apply (proj1 (frontends_from_ingresses _ _ c E) name fr).
Defined.

Example guarded_ingress_loaded :
  exists c, loadIngresses any_class (sample_client [guarded_ingress]) = Ok c /\
    map (fun kv => (kv.1, BasicAuth kv.2, map (fun r => (r.1, Rule r.2)) (map_to_list (Routes kv.2)))) (map_to_list (Frontends c)) =
      [("example.org/app", ["ann:x"; "bob:y"], [("/app", "PathPrefix:/app"); ("example.org", "Host:example.org")])] /\
    (fun b => map (fun kv => (kv.1, URL kv.2)) (map_to_list (Servers b))) <$> (Backends c !! "example.org/app") =
      Some [("http://10.0.0.1:8080", "http://10.0.0.1:8080"); ("pod", "http://10.0.0.2:8080")].
Proof. eexists. split; [vm_compute; reflexivity|]. by split; vm_compute. Qed.

(** An ingress of any namespace can take away another's frontend, by naming a
    service that does not exist, or the backend alone, by asking for a realm. *)
Example missing_service_removes :
  (fun c => (names (Frontends c), names (Backends c))) <$>
    (match loadIngresses any_class (sample_client [guarded_ingress; ingress_of "other" "app" [] "gone"]) with Ok c => Some c | _ => None end) =
  Some ([], ["example.org/app"]).
Proof. by vm_compute. Qed.

Example realm_leaves_a_frontend :
  (fun c => (names (Frontends c), names (Backends c))) <$>
    (match loadIngresses any_class (sample_client [guarded_ingress; ingress_of "other" "app" [(annotationKubernetesAuthRealm, "mine")] "web"])
     with Ok c => Some c | _ => None end) =
  Some (["example.org/app"], []).
Proof. by vm_compute. Qed.

(** And an ingress without authentication that comes first decides that the
    guarded one of the same name is served without. *)
Example first_ingress_decides :
  (fun c => map BasicAuth (map snd (map_to_list (Frontends c)))) <$>
    (match loadIngresses any_class (sample_client [ingress_of "other" "app" [] "web"; guarded_ingress]) with Ok c => Some c | _ => None end) =
  Some [[]].
Proof. by vm_compute. Qed.

End Example.
