(* ===== verification/AcmeDomains.v ===== *)
(** * [provider/acme/provider.go]: which domains a certificate is asked for

    The names of a certificate are checked before it is asked for, those some
    certificate or the configuration already has are left out, and the
    configured domains are freed of what others of them cover.  Nothing is lost
    thereby: every configured name keeps a domain that covers it. *)
From S2P Require Import Prelude GoStrings GoStringsFacts Types Domains.

(** A [types.Domain], and whether its slice of alternative names is nil:
    [reflect.DeepEqual] tells a nil slice from an empty one. *)
Abbreviation domain := (Domain * bool)%type.

#[export] Instance Domain_eq_dec : EqDecision Domain. Proof. solve_decision. Defined.

(** [Domain.Set] on the variable of the loop: the slice of the rest is not nil. *)
Definition domain_Set (d : domain) (domains : list string) : domain :=
  match domains with [] => d | _ => (Domain_Set d.1 domains, false) end.

(** [types.Domain{Main: domains[0], SANs: domains[1:]}], or without the second
    field when there is nothing more. *)
Definition domain_of (domains : list string) : domain :=
  match domains with
  | [] => (mkDomain "" [], true)
  | [main] => (mkDomain main [], true)
  | main :: sans => (mkDomain main sans, false)
  end.

(** ** Checked domains *)

Definition isDomainAlreadyChecked (domainToCheck : string) (existentDomains : list string) : bool :=
  existsb (fun certDomains => existsb (MatchDomain domainToCheck) (split certDomains ",")) existentDomains.

Definition searchUncheckedDomains (domainsToCheck existentDomains : list string) : list string :=
  filter (fun domainToCheck => isDomainAlreadyChecked domainToCheck existentDomains = false) domainsToCheck.

(** Errors name the domains joined by commas. *)
Definition getValidDomains (dnsChallenge : bool) (domain : Domain) (wildcardAllowed : bool) : result (list string) :=
  let domains := ToStrArray domain in
  let all := join domains "," in
  if bool_decide (length domains = 0)
  then Err "unable to generate a certificate in ACME provider when no domain is given" else
  if has_prefix (Main domain) "*" && negb wildcardAllowed
  then Err ("unable to generate a wildcard certificate in ACME provider for domain " +:+ all +:+ " from a 'Host' rule") else
  if has_prefix (Main domain) "*" && negb dnsChallenge
  then Err ("unable to generate a wildcard certificate in ACME provider for domain " +:+ all +:+ " : ACME needs a DNSChallenge") else
  if has_prefix (Main domain) "*.*"
  then Err ("unable to generate a wildcard certificate in ACME provider for domain " +:+ all +:+ " : ACME does not allow '*.*' wildcard domain") else
  if existsb (fun san => has_prefix san "*") (SANs domain)
  then Err ("unable to generate a certificate in ACME provider for domains " +:+ all +:+ ": SAN can not be a wildcard domain")
  else Ok (map CanonicalDomain domains).

(** ** Unnecessary domains *)

(** A name of the domain at [idxDomainToCheck] is left out because of [domain]. *)
Definition unnecessary (idxDomainToCheck idxDomain : nat) (domain : Domain) (domainProcessed : string) : bool :=
  (bool_decide (idxDomain < idxDomainToCheck) && isDomainAlreadyChecked domainProcessed (ToStrArray domain)) ||
  (negb (bool_decide (Main domain = domainProcessed)) && has_prefix (Main domain) "*" &&
   isDomainAlreadyChecked domainProcessed [Main domain]).

(** The inner loop, over the domains from index [idxDomain] on: what is left of
    the domain, or [None] when it is not kept. *)
Fixpoint reduce_domain (idxDomainToCheck idxDomain : nat) (domains : list domain) (domainToCheck : domain) : option domain :=
  match domains with
  | [] => Some domainToCheck
  | domain :: domains =>
      if bool_decide (idxDomainToCheck = idxDomain) then reduce_domain idxDomainToCheck (S idxDomain) domains domainToCheck else
      if bool_decide (domain = domainToCheck) then
        if bool_decide (idxDomain < idxDomainToCheck) then None else Some domainToCheck
      else
        match filter (fun name => unnecessary idxDomainToCheck idxDomain domain.1 name = false) (ToStrArray domainToCheck.1) with
        | [] => None
        | newDomainsToCheck => reduce_domain idxDomainToCheck (S idxDomain) domains (domain_Set domainToCheck newDomainsToCheck)
        end
  end.

Definition deleteUnnecessaryDomains (domains : list domain) : list domain :=
  omap (fun id => reduce_domain id.1 0 domains id.2) (imap pair domains).

(** ** Names and labels *)

Definition labels (name : string) : list string := split name ".".

Lemma join_labels name : join (labels name) "." = name.
Proof. apply join_split. Qed.

Lemma labels_inj a b : labels a = labels b -> a = b.
Proof. intros H. by rewrite <- (join_labels a), <- (join_labels b), H. Qed.

Lemma labels_starred k l : l <> [] -> Forall (fun x => free "."%char x = true) l -> labels (join (starred k l) ".") = starred k l.
Proof.
  intros Hl Hfree. unfold labels. apply split_join.
  - unfold starred. destruct k; [by rewrite drop_0|done].
  - unfold starred. apply Forall_app. split; [by apply Forall_replicate|]. by apply Forall_drop.
Qed.

(** Names as they are written: not empty, without comma or trailing dots. *)
Definition good_name (name : string) : Prop := name <> "" /\ free ","%char name = true /\ trim_dots name = name.

Lemma covers_labels n m : good_name m ->
  MatchDomain n m = true <-> exists k, k <= length (labels n) /\ labels m = starred k (labels n).
Proof.
  intros (_ & _ & Hm). rewrite MatchDomain_spec, Hm. fold (labels n).
  assert (forall k, labels (join (starred k (labels n)) ".") = starred k (labels n)) as Hl.
  { intros k. apply labels_starred; [apply split_nonempty|apply split_all_free]. }
  split.
  - intros [->|(k & Hk & Heq)]; [exists 0; split; [lia|done]|]. exists k. split; [lia|].
    change (replicate k "*" ++ drop k (labels n)) with (starred k (labels n)) in Heq. by rewrite Heq, Hl.
  - intros (k & Hk & Heq). destruct k as [|k]; [left; by apply labels_inj|right]. exists (S k). split; [lia|].
    change (replicate (S k) "*" ++ drop (S k) (labels n)) with (starred (S k) (labels n)). by rewrite <- Heq, join_labels.
Qed.

Lemma length_starred k l : k <= length l -> length (starred k l) = length l.
Proof. intros. unfold starred. rewrite length_app, length_replicate, length_drop. lia. Qed.

Lemma starred_starred j k l : k <= length l -> starred j (starred k l) = starred (max j k) l.
Proof.
  intros Hk. unfold starred. rewrite drop_app, length_replicate, drop_replicate, drop_drop. 
  destruct (decide (j <= k)).
  - replace (max j k) with k by lia. replace (k + (j - k)) with k by lia. rewrite app_assoc, <- replicate_add. do 2 f_equal. lia.
  - replace (max j k) with j by lia. replace (k - j) with 0 by lia. simpl. do 2 f_equal. lia.
Qed.

Lemma covers_trans n m k : good_name m -> good_name k -> MatchDomain n m = true -> MatchDomain m k = true -> MatchDomain n k = true.
Proof.
  intros Hm Hk (i & Hi & E1)%covers_labels (j & Hj & E2)%covers_labels; [|done..]. apply covers_labels; [done|].
  exists (max j i). rewrite E1, length_starred in Hj by done. split; [lia|]. by rewrite E2, E1, starred_starred.
Qed.

(** How many labels of a name are not stars. *)
Definition plain_labels (name : string) : nat := length (filter (fun l => l <> "*") (labels name)).

Lemma plain_starred k l : length (filter (fun x => x <> "*") (starred k l)) <= length (filter (fun x => x <> "*") l) /\
  (k <= length l -> starred k l <> l ->
   length (filter (fun x => x <> "*") (starred k l)) < length (filter (fun x => x <> "*") l)).
Proof.
  revert k. induction l as [|x l IH]; intros [|k].
  - split; [done|]. intros _ H. by destruct H.
  - split; [|simpl; lia]. unfold starred. rewrite drop_nil, app_nil_r. clear. induction k; simpl in *; [done|]. by rewrite filter_cons.
  - rewrite (eq_refl : starred 0 (x :: l) = x :: l). split; [done|]. intros _ H. by destruct H.
  - change (starred (S k) (x :: l)) with ("*" :: starred k l). rewrite !filter_cons. destruct (IH k) as [Hle Hlt].
    rewrite decide_False by (intros H; by apply H). case_decide as Hx; simpl; [split; [lia|]; intros; lia|].
    split; [lia|]. intros Hk Hne. apply Hlt; [lia|]. intros E. apply Hne. rewrite E. f_equal. by destruct (decide (x = "*")).
Qed.

Lemma covers_plain n m : good_name m -> MatchDomain n m = true ->
  plain_labels m <= plain_labels n /\ (m <> n -> plain_labels m < plain_labels n).
Proof.
  intros Hm (k & Hk & E)%covers_labels; [|done]. unfold plain_labels. rewrite E. destruct (plain_starred k (labels n)) as [Hle Hlt].
  split; [done|]. intros Hne. apply Hlt; [done|]. intros E'. apply Hne, labels_inj. by rewrite E.
Qed.

(** ** Nothing is lost *)

Section Covered.
Context (domains : list domain).
Context (Hgood : forall i d n, domains !! i = Some d -> n ∈ ToStrArray d.1 -> good_name n).

(** The name [n] of the domain at [i] can be left out because of [m], of the
    domain at [j]. *)
Definition gives_way (i : nat) (n : string) (j : nat) (m : string) : Prop :=
  (exists e, domains !! j = Some e /\ m ∈ ToStrArray e.1) /\ MatchDomain n m = true /\ (j < i \/ m <> n).

Lemma unnecessary_spec i j e n : domains !! j = Some e ->
  unnecessary i j e.1 n = true -> exists m, gives_way i n j m.
Proof using Hgood.
  intros He. unfold unnecessary, isDomainAlreadyChecked. rewrite orb_true_iff. intros [H|H]; bool_simpl.
  - apply existsb_exists in H0 as (m & Hin%list_elem_of_In & Hm). pose proof (Hgood _ _ _ He Hin) as (_ & Hc & _).
    rewrite split_free in Hm by done. simpl in Hm. rewrite orb_false_r in Hm. exists m. split_and!; [by exists e|done|by left].
  - assert (Main e.1 ∈ ToStrArray e.1) as Hin.
    { assert (Main e.1 <> "") by (intros E; by rewrite E in *). unfold ToStrArray, nonempty. rewrite bool_decide_eq_false_2 by done. by left. }
    pose proof (Hgood _ _ _ He Hin) as (_ & Hc & _). simpl in H0. rewrite split_free in H0 by done. simpl in H0. rewrite !orb_false_r in H0.
    exists (Main e.1). split_and!; [by exists e|done|by right].
Qed.
Lemma names_Set d l : l <> [] -> (forall x, x ∈ l -> x <> "") -> ToStrArray (domain_Set d l).1 = l.
Proof.
  intros Hl Hne. destruct l as [|x l]; [done|]. unfold ToStrArray, nonempty. simpl.
  rewrite bool_decide_eq_false_2 by (apply Hne; by left). done.
Qed.

Lemma reduce_names i j es d d' : reduce_domain i j es d = Some d' -> (forall n, n ∈ ToStrArray d.1 -> good_name n) ->
  forall n, n ∈ ToStrArray d'.1 -> n ∈ ToStrArray d.1.
Proof.
  revert j d. induction es as [|e es IH]; intros j d; simpl; [by intros [= ->]|].
  case_bool_decide; [apply IH|]. case_bool_decide; [case_bool_decide; [done|by intros [= ->]]|].
  destruct (filter _ _) as [|x l] eqn:E; [done|]. intros Hr Hd n Hn.
  assert (forall y, y ∈ x :: l -> y ∈ ToStrArray d.1) as Hsub.
  { intros y Hy. rewrite <- E in Hy. by apply list_elem_of_filter in Hy as [_ ?]. }
  assert (ToStrArray (domain_Set d (x :: l)).1 = x :: l) as Eset.
  { apply names_Set; [done|]. intros y Hy. by apply Hd, Hsub. }
  apply Hsub. rewrite <- Eset. apply (IH _ _ Hr); [|done]. intros y Hy. apply Hd, Hsub. rewrite <- Eset. exact Hy.
Qed.

Lemma reduce_covers i j es d n : es = drop j domains -> (forall n, n ∈ ToStrArray d.1 -> good_name n) -> n ∈ ToStrArray d.1 ->
  (exists d', reduce_domain i j es d = Some d' /\ n ∈ ToStrArray d'.1) \/ (exists j' m, gives_way i n j' m).
Proof using Hgood.
  revert j d. induction es as [|e es IH]; intros j d Hes Hd Hn; simpl; [left; by exists d|].
  assert (domains !! j = Some e /\ es = drop (S j) domains) as [He Hes'].
  { split.
    - rewrite <- (Nat.add_0_r j), <- lookup_drop, <- Hes. done.
    - rewrite <- Nat.add_1_r, <- drop_drop, <- Hes. done. }
  case_bool_decide; [by apply (IH (S j))|]. case_bool_decide as Heq.
  { subst e. case_bool_decide; [right; exists j, n|left; by exists d]. split_and!; [by exists d| |by left].
    unfold MatchDomain. by rewrite bool_decide_eq_true_2. }
  destruct (unnecessary i j e.1 n) eqn:Eu; [right; exists j; by apply (unnecessary_spec _ _ e)|].
  assert (forall y, y ∈ filter (fun name => unnecessary i j e.1 name = false) (ToStrArray d.1) -> y ∈ ToStrArray d.1) as Hsub.
  { intros y Hy. by apply list_elem_of_filter in Hy as [_ ?]. }
  assert (n ∈ filter (fun name => unnecessary i j e.1 name = false) (ToStrArray d.1)) as Hin by (by apply list_elem_of_filter).
  destruct (filter _ _) as [|x l]; [by apply elem_of_nil in Hin|].
  assert (ToStrArray (domain_Set d (x :: l)).1 = x :: l) as Eset.
  { apply names_Set; [done|]. intros y Hy. by apply Hd, Hsub. }
  rewrite <- Eset in Hin. apply (IH (S j)); [done| |exact Hin]. intros y Hy. apply Hd, Hsub. rewrite <- Eset. exact Hy.
Qed.

Lemma elem_of_kept d' : d' ∈ deleteUnnecessaryDomains domains <->
  exists i d, domains !! i = Some d /\ reduce_domain i 0 domains d = Some d'.
Proof.
  unfold deleteUnnecessaryDomains. rewrite list_elem_of_omap. split.
  - intros ([i d] & Hin & Hr). apply elem_of_lookup_imap in Hin as (i' & d'' & [= -> ->] & Hi). by exists i', d''.
  - intros (i & d & Hi & Hr). exists (i, d). split; [|done]. apply elem_of_lookup_imap. by exists i, d.
Qed.

(** C23: freeing the configured domains of what others of them cover loses
    nothing and invents nothing: each configured name is still matched by a
    name of a domain that is kept, even where several domains cover each other,
    and every name kept was configured. *)
Theorem deleteUnnecessaryDomains_covers :
  (forall d n, d ∈ domains -> n ∈ ToStrArray d.1 ->
     exists d' m, d' ∈ deleteUnnecessaryDomains domains /\ m ∈ ToStrArray d'.1 /\ MatchDomain n m = true) /\
  (forall d' m, d' ∈ deleteUnnecessaryDomains domains -> m ∈ ToStrArray d'.1 -> exists d, d ∈ domains /\ m ∈ ToStrArray d.1).
Proof using Hgood.
  split.
  - intros d n [i Hi]%list_elem_of_lookup Hn. remember (plain_labels n * S (length domains) + i) as w eqn:Hw.
    revert i d n Hi Hn Hw. induction (lt_wf w) as [w _ IH]. intros i d n Hi Hn ->.
    destruct (reduce_covers i 0 domains d n) as [(d' & Hr & Hin)|(j & m & (e & Hj & Hm) & Hmatch & Hless)]; [done|by intros; eapply Hgood|done| |].
    + exists d', n. split_and!; [apply elem_of_kept; eauto|done|]. unfold MatchDomain. by rewrite bool_decide_eq_true_2.
    + destruct (covers_plain n m) as [Hle Hlt]; [by eapply Hgood|done|]. pose proof (lookup_lt_Some _ _ _ Hj) as Hlen.
      destruct (IH (plain_labels m * S (length domains) + j)) with (i := j) (d := e) (n := m) as (d' & k & Hd' & Hk & Hmk); [|done..|].
      { destruct Hless as [?|Hne%Hlt]; nia. }
      exists d', k. split_and!; [done|done|]. apply covers_trans with m; [by eapply Hgood| |done|done].
      apply elem_of_kept in Hd' as (i' & d0 & Hi' & Hr'). eapply Hgood; [done|]. eapply reduce_names; [done| |done]. by intros; eapply Hgood.
  - intros d' m (i & d & Hi & Hr)%elem_of_kept Hm. exists d. split; [by eapply list_elem_of_lookup_2|].
    eapply reduce_names; [done| |done]. by intros; eapply Hgood.
Qed.

End Covered.

(** ** Valid domains *)

Lemma getValidDomains_spec dns d allowed domains :
  getValidDomains dns d allowed = Ok domains <->
  domains = map CanonicalDomain (ToStrArray d) /\ ToStrArray d <> [] /\
  Forall (fun san => has_prefix san "*" = false) (SANs d) /\
  (has_prefix (Main d) "*" = true -> allowed = true /\ dns = true /\ has_prefix (Main d) "*.*" = false).
Proof.
  unfold getValidDomains. assert (existsb (fun san => has_prefix san "*") (SANs d) = false <-> Forall (fun san => has_prefix san "*" = false) (SANs d)) as He.
  { rewrite <- not_true_iff_false, existsb_exists, Forall_forall. split.
    - intros H x Hx. apply not_true_is_false. intros Hs. apply H. exists x. by rewrite <- list_elem_of_In.
    - intros H (x & Hx%list_elem_of_In & Hs). rewrite H in Hs by done. done. }
  rewrite <- He. case_bool_decide as Hn.
  { split; [done|]. intros (_ & H & _). by apply length_zero_iff_nil in Hn. }
  assert (ToStrArray d <> []) by (intros E; apply Hn; by rewrite E).
  assert (has_prefix (Main d) "*.*" = true -> has_prefix (Main d) "*" = true).
  { intros Hp. by apply (has_prefix_trans _ "*.*"). }
  destruct (has_prefix (Main d) "*"), allowed, dns, (has_prefix (Main d) "*.*"), (existsb _ _); simpl;
    split; intros; simplify_eq; naive_solver.
Qed.

(** ** Examples *)

Definition sample_domains : list domain :=
  map (fun l => domain_of l) [["a.com"; "b.com"]; ["*.a.com"]; ["x.a.com"; "c.com"]; ["a.com"; "b.com"]].

Example sample_kept : deleteUnnecessaryDomains sample_domains =
  [domain_of ["a.com"; "b.com"]; (mkDomain "*.a.com" [], false); (mkDomain "c.com" [], false)].
Proof. by vm_compute. Qed.

Lemma sample_good i d n : sample_domains !! i = Some d -> n ∈ ToStrArray d.1 -> good_name n.
Proof.
  intros Hi%list_elem_of_lookup_2 Hn. unfold sample_domains in Hi. simpl in Hi.
  repeat (apply elem_of_cons in Hi as [->|Hi]; [simpl in Hn; set_unfold in Hn; destruct_or?; subst; try done; by split_and!|]).
  by apply elem_of_nil in Hi.
Qed.

Lemma deleteUnnecessaryDomains_covers_witness :
  exists d' m, d' ∈ deleteUnnecessaryDomains sample_domains /\ m ∈ ToStrArray d'.1 /\ MatchDomain "x.a.com" m = true.
Proof.
  apply (proj1 (deleteUnnecessaryDomains_covers sample_domains sample_good) (domain_of ["x.a.com"; "c.com"])).
  - apply list_elem_of_lookup. by exists 2.
  - simpl. by left.
Defined.
