(* ===== verification/AcmeStore.v ===== *)
(** * [provider/acme/store.go], [local_store.go], [challenge.go]: what ACME keeps

    The account, the certificates and the challenges being answered are kept
    behind an interface ([Store]); the local store holds them in memory and
    writes account and certificates to a file.  The goroutine that writes is
    taken to write what it is sent before the sender goes on. *)
From S2P Require Import Prelude GoStrings GoStringsFacts Types OsioClient Domains AcmeDomains.

(** ** Data *)

(** A registration is the URI it is known by. *)
Record Account := mkAccount { acc_Email : string; Registration : option string; acc_PrivateKey : string }.
Record Certificate := mkCertificate { crt_Domain : domain; crt_Certificate : string; crt_Key : string }.
Abbreviation challenges := (gmap string (gmap string string)).
Record StoredData := mkStoredData {
  sd_Account : option Account;
  sd_Certificates : list Certificate;
  HTTPChallenges : challenges;
}.

(** The interface; a method that returns only an error answers [None] without. *)
Class Store (S : Type) := {
  GetAccount : M S (result (option Account));
  SaveAccount : Account -> M S (option error);
  GetCertificates : M S (result (list Certificate));
  SaveCertificates : list Certificate -> M S (option error);
  GetHTTPChallenges : M S (result challenges);
  SaveHTTPChallenges : challenges -> M S (option error);
}.

(** ** The challenges *)

Section Challenges.
Context {S : Type} `{!Store S}.

Definition presentHTTPChallenge (domain token keyAuth : string) : M S (option error) :=
  r ← GetHTTPChallenges;
  match r with
  | Err err => mret (Some ("unable to get HTTPChallenges : " +:+ err))
  | Ok httpChallenges =>
      SaveHTTPChallenges (<[token := <[domain := keyAuth]> (default ∅ (httpChallenges !! token))]> httpChallenges)
  end.

Definition cleanUpHTTPChallenge (domain token : string) : M S (option error) :=
  r ← GetHTTPChallenges;
  match r with
  | Err err => mret (Some ("unable to get HTTPChallenges : " +:+ err))
  | Ok httpChallenges =>
      match httpChallenges !! token with
      | None => mret None
      | Some m =>
          let m := delete domain m in
          SaveHTTPChallenges (if bool_decide (size m = 0) then delete token httpChallenges else <[token := m]> httpChallenges)
      end
  end.

(** One attempt of the operation in [getTokenValue]; it is repeated for a
    minute. *)
Definition token_value (token domain : string) : M S (result string) :=
  r ← GetHTTPChallenges;
  mret (match r with
  | Err err => Err ("HTTPChallenges not available : " +:+ err)
  | Ok httpChallenges =>
      match httpChallenges !! token ≫= fun m => m !! domain with
      | Some v => Ok v
      | None => Err ("cannot find challenge for token " +:+ token)
      end
  end).

(** [safe.OperationWithRecover]: a panic is an error of the attempt.  What
    happens between two attempts is any change of the store. *)
Fixpoint getTokenValue (token domain : string) (between : list (S -> S)) : M S string := fun s =>
  match token_value token domain s with
  | (Ret (Ok v), s') => (Ret v, s')
  | (Crash e, s') => (Crash e, s')
  | (_, s') => match between with [] => (Ret "", s') | f :: l => getTokenValue token domain l (f s') end
  end.

End Challenges.

(** ** The local store *)

(** The file: not there, there (with other users' permissions or not), or not
    to be opened. *)
Inductive file := Missing | Present (content : string) (too_open : bool) | Broken (err : error).

Record LocalStore := mkLocalStore { storedData : option StoredData; store_file : file }.

(** [encoding/json] on the stored data: reading fills a value and may fail on
    the way. *)
Class StoredJson := {
  json_unmarshal : string -> StoredData -> StoredData * option error;
  json_marshal : StoredData -> string;
}.

Section LocalStore.
Context `{StoredJson}.

Definition CheckFile : M LocalStore (result bool) := fun s =>
  match store_file s with
  | Missing => (Ret (Ok false), mkLocalStore (storedData s) (Present "" false))
  | Broken err => (Ret (Err err), s)
  | Present content too_open =>
      (Ret (if too_open then Err "permissions are too open, please use 600" else Ok (nonempty content)), s)
  end.

Definition set_data (d : StoredData) : M LocalStore unit := modify_state (fun s => mkLocalStore (Some d) (store_file s)).

(** What the goroutine of [listenSaveAction] does with the data it is sent. *)
Definition write_file (d : StoredData) : M LocalStore unit := modify_state (fun s =>
  mkLocalStore (storedData s)
    (match store_file s with
     | Missing => Present (json_marshal d) false
     | Present _ too_open => Present (json_marshal d) too_open
     | Broken err => Broken err
     end)).

(** [^.*/acme/reg/\d+$] *)
Definition is_v1_registration (uri : string) : bool :=
  existsb (fun n =>
    match strip_prefix "/acme/reg/" (String.substring n (String.length uri) uri) with
    | Some digits => nonempty digits && str_forall is_digit digits && free "010"%char (String.substring 0 n uri)
    | None => false
    end) (seq 0 (String.length uri)).

Definition v1_account (d : StoredData) : bool :=
  match sd_Account d with
  | Some a => match Registration a with Some uri => is_v1_registration uri | None => false end
  | None => false
  end.

Definition has_value (c : Certificate) : bool := nonempty (crt_Certificate c) && nonempty (crt_Key c).

Definition read_file : M LocalStore (option error) :=
  s ← get_state;
  match store_file s with
  | Present content _ =>
      let '(d, err) := json_unmarshal content (default (mkStoredData None [] ∅) (storedData s)) in
      _ ← set_data d;
      match err with
      | Some err => mret (Some err)
      | None =>
          let v1 := v1_account d in
          let d := if v1 then mkStoredData None (sd_Certificates d) (HTTPChallenges d) else d in
          _ ← ((if v1 then set_data d else mret tt) : M LocalStore unit);
          _ ← ((if v1 then write_file d else mret tt) : M LocalStore unit);
          let certificates := filter (fun c => has_value c = true) (sd_Certificates d) in
          let fewer := bool_decide (length certificates < length (sd_Certificates d)) in
          let d := if fewer then mkStoredData (sd_Account d) certificates (HTTPChallenges d) else d in
          _ ← ((if fewer then set_data d else mret tt) : M LocalStore unit);
          _ ← ((if fewer then write_file d else mret tt) : M LocalStore unit);
          mret None
      end
  | _ => mret (Some "file does not exist")
  end.

(** The data are there after the first call, whether or not it failed. *)
Definition get : M LocalStore (result StoredData) :=
  s ← get_state;
  match storedData s with
  | Some d => mret (Ok d)
  | None =>
      _ ← set_data (mkStoredData None [] ∅);
      hasData ← CheckFile;
      match hasData with
      | Err err => mret (Err err)
      | Ok hasData =>
          err ← ((if (hasData : bool) then read_file else mret None) : M LocalStore (option error));
          match err with
          | Some err => mret (Err err)
          | None => s ← get_state; mret (Ok (default (mkStoredData None [] ∅) (storedData s)))
          end
      end
  end.

(** A save of the account or the certificates. *)
Definition save_with (f : StoredData -> StoredData) : M LocalStore (option error) :=
  r ← get;
  match r with
  | Err err => mret (Some err)
  | Ok d => _ ← set_data (f d); _ ← write_file (f d); mret None
  end.

Definition LocalStore_GetAccount : M LocalStore (result (option Account)) :=
  r ← get; mret (match r with Ok d => Ok (sd_Account d) | Err err => Err err end).
Definition LocalStore_SaveAccount (account : Account) : M LocalStore (option error) :=
  save_with (fun d => mkStoredData (Some account) (sd_Certificates d) (HTTPChallenges d)).
Definition LocalStore_GetCertificates : M LocalStore (result (list Certificate)) :=
  r ← get; mret (match r with Ok d => Ok (sd_Certificates d) | Err err => Err err end).
Definition LocalStore_SaveCertificates (certificates : list Certificate) : M LocalStore (option error) :=
  save_with (fun d => mkStoredData (sd_Account d) certificates (HTTPChallenges d)).

(** The challenges are neither loaded nor written to the file. *)
Definition LocalStore_GetHTTPChallenges : M LocalStore (result challenges) := fun s =>
  match storedData s with
  | None => (Panic nil_dereference, s)
  | Some d => (Ret (Ok (HTTPChallenges d)), s)
  end.
Definition LocalStore_SaveHTTPChallenges (httpChallenges : challenges) : M LocalStore (option error) := fun s =>
  match storedData s with
  | None => (Panic nil_dereference, s)
  | Some d => (Ret None, mkLocalStore (Some (mkStoredData (sd_Account d) (sd_Certificates d) httpChallenges)) (store_file s))
  end.

#[export] Instance local_store : Store LocalStore := {|
  GetAccount := LocalStore_GetAccount;
  SaveAccount := LocalStore_SaveAccount;
  GetCertificates := LocalStore_GetCertificates;
  SaveCertificates := LocalStore_SaveCertificates;
  GetHTTPChallenges := LocalStore_GetHTTPChallenges;
  SaveHTTPChallenges := LocalStore_SaveHTTPChallenges |}.

End LocalStore.

(** ** What is kept is found again *)

Section Facts.
Context `{StoredJson}.

Lemma get_loaded d f : get (mkLocalStore (Some d) f) = (Ret (Ok d), mkLocalStore (Some d) f).
Proof. reflexivity. Qed.

(** Writing is reading: the data written are read back whole. *)
Class StoredJsonLaws := {
  json_roundtrip d : json_unmarshal (json_marshal d) (mkStoredData None [] ∅) = (d, None);
  json_nonempty d : json_marshal d <> "";
}.

(** Data that a reader leaves as they are: certificates with a value, and an
    account of the current version of the protocol. *)
Definition kept_data (d : StoredData) : Prop :=
  Forall (fun c => has_value c = true) (sd_Certificates d) /\ v1_account d = false.

Lemma filter_all {A} (P : A -> Prop) `{forall x, Decision (P x)} l : Forall P l -> filter P l = l.
Proof. induction 1 as [|x l Hx _ IH]; [done|]. by rewrite filter_cons_True, IH. Qed.

(** What is saved is found again, by the same store and, for data of the
    current format, by a new store over the same file. *)
Lemma store_finds_again `{!StoredJsonLaws} d too_open content certificates :
  kept_data d -> Forall (fun c => has_value c = true) certificates ->
  let d' := mkStoredData (sd_Account d) certificates (HTTPChallenges d) in
  exists s, SaveCertificates certificates (mkLocalStore (Some d) (Present content too_open)) = (Ret None, s) /\
    GetCertificates s = (Ret (Ok certificates), s) /\ GetAccount s = (Ret (Ok (sd_Account d)), s) /\
    (too_open = false -> get (mkLocalStore None (store_file s)) = (Ret (Ok d'), mkLocalStore (Some d') (store_file s))).
Proof.
  intros [_ Ha] Hc d'. eexists. split; [reflexivity|]. split_and!; [reflexivity..|]. intros ->.
  unfold get. simpl. unfold mbind, M_bind, get_state, set_data, modify_state, CheckFile, nonempty. simpl.
  rewrite bool_decide_eq_false_2 by apply json_nonempty. simpl. unfold read_file, mbind, M_bind, get_state. simpl. rewrite json_roundtrip.
  unfold set_data, modify_state. simpl.
  assert (v1_account (mkStoredData (sd_Account d) certificates (HTTPChallenges d)) = false) as -> by exact Ha.
  simpl. rewrite filter_all by done. rewrite bool_decide_eq_false_2 by lia. done.
Qed.

(** A store whose file could not be read answers the next call as if there were
    nothing to read, and the next save replaces the file. *)
Lemma read_error_forgotten content account :
  let s := mkLocalStore None (Present content true) in
  exists s', GetAccount s = (Ret (Err "permissions are too open, please use 600"), s') /\
    GetAccount s' = (Ret (Ok None), s') /\
    exists s'', SaveAccount account s' = (Ret None, s'') /\
      store_file s'' = Present (json_marshal (mkStoredData (Some account) [] ∅)) true.
Proof. intros s. eexists. split; [reflexivity|]. split; [reflexivity|]. eexists. by split. Qed.

(** The challenges as one map from tokens and domains. *)
Definition challenge (ch : challenges) (token domain : string) : option string := ch !! token ≫= fun m => m !! domain.
Definition present (domain token keyAuth : string) (ch : challenges) : challenges :=
  <[token := <[domain := keyAuth]> (default ∅ (ch !! token))]> ch.
Definition clean (domain token : string) (m : gmap string string) (ch : challenges) : challenges :=
  let m := delete domain m in
  if bool_decide (size m = 0) then delete token ch else <[token := m]> ch.

Lemma challenge_present domain token keyAuth ch token' domain' :
  challenge (present domain token keyAuth ch) token' domain' =
  if decide ((token', domain') = (token, domain)) then Some keyAuth else challenge ch token' domain'.
Proof.
  unfold challenge, present. destruct (decide (token' = token)) as [->|Ht].
  - rewrite lookup_insert_eq. simpl. case_decide as E; [injection E as ->; by rewrite lookup_insert_eq|].
    rewrite lookup_insert_ne by congruence. by destruct (ch !! token).
  - rewrite lookup_insert_ne by done. by rewrite decide_False by congruence.
Qed.

Lemma challenge_clean domain token m ch token' domain' : ch !! token = Some m ->
  challenge (clean domain token m ch) token' domain' =
  if decide ((token', domain') = (token, domain)) then None else challenge ch token' domain'.
Proof.
  intros Hm. unfold challenge, clean. destruct (decide (token' = token)) as [->|Ht].
  - assert (delete domain m !! domain' = if decide ((token, domain') = (token, domain)) then None else m !! domain') as Hd.
    { case_decide as E; [injection E as ->; by rewrite lookup_delete_eq|]. by rewrite lookup_delete_ne by congruence. }
    rewrite Hm. simpl. rewrite <- Hd. case_bool_decide as Hs; [|by rewrite lookup_insert_eq].
    apply map_size_empty_inv in Hs. by rewrite lookup_delete_eq, Hs.
  - rewrite decide_False by congruence. case_bool_decide; [by rewrite lookup_delete_ne|by rewrite lookup_insert_ne].
Qed.

Lemma token_value_eq acc certs ch f token domain :
  token_value token domain (mkLocalStore (Some (mkStoredData acc certs ch)) f) =
  (Ret (match challenge ch token domain with Some v => Ok v | None => Err ("cannot find challenge for token " +:+ token) end),
   mkLocalStore (Some (mkStoredData acc certs ch)) f).
Proof. reflexivity. Qed.

Lemma cleanUp_eq acc certs ch f domain token m : ch !! token = Some m ->
  cleanUpHTTPChallenge domain token (mkLocalStore (Some (mkStoredData acc certs ch)) f) =
  (Ret None, mkLocalStore (Some (mkStoredData acc certs (clean domain token m ch))) f).
Proof. intros Hm. unfold cleanUpHTTPChallenge, mbind, M_bind. cbn. by rewrite Hm. Qed.

(** A challenge that is presented is found under its token and its domain,
    and no longer once it is cleaned up; the other challenges stay as they are. *)
Lemma challenge_life domain token keyAuth d f between :
  let s := mkLocalStore (Some d) f in
  exists s', presentHTTPChallenge domain token keyAuth s = (Ret None, s') /\
    getTokenValue token domain between s' = (Ret keyAuth, s') /\
    (forall token' domain', (token', domain') <> (token, domain) -> token_value token' domain' s' =
       ((token_value token' domain' s).1, s')) /\
    exists s'', cleanUpHTTPChallenge domain token s' = (Ret None, s'') /\
      (exists err, token_value token domain s'' = (Ret (Err err), s'')) /\
      (forall token' domain', (token', domain') <> (token, domain) -> token_value token' domain' s'' =
         ((token_value token' domain' s).1, s'')).
Proof.
  destruct d as [acc certs ch]. intros s. subst s. exists (mkLocalStore (Some (mkStoredData acc certs (present domain token keyAuth ch))) f).
  split; [reflexivity|]. split_and!.
  - assert (token_value token domain (mkLocalStore (Some (mkStoredData acc certs (present domain token keyAuth ch))) f) =
      (Ret (Ok keyAuth), mkLocalStore (Some (mkStoredData acc certs (present domain token keyAuth ch))) f)) as E.
    { by rewrite token_value_eq, challenge_present, decide_True. }
    destruct between; cbn [getTokenValue]; by rewrite E.
  - intros token' domain' Hne. by rewrite !token_value_eq, challenge_present, decide_False.
  - pose proof (lookup_insert_eq ch token (<[domain := keyAuth]> (default ∅ (ch !! token)))) as Et. fold (present domain token keyAuth ch) in Et.
    eexists. split; [by apply cleanUp_eq|].
    split; [rewrite token_value_eq, (challenge_clean _ _ _ _ _ _ Et), decide_True by done; by eexists|].
    intros token' domain' Hne. rewrite !token_value_eq, (challenge_clean _ _ _ _ _ _ Et), decide_False by done.
    by rewrite challenge_present, decide_False.
Qed.

End Facts.
