(* ===== verification/AcmeProvider.v ===== *)
(** * [provider/acme/provider.go]: certificates from an ACME server

    The provider asks the server for certificates of the configured domains,
    of the hosts of new configurations and of requests, keeps them in a store
    and sends them to the proxy as a configuration.  The server, its client and
    the reading of certificates are parameters; so is the time.  The goroutine
    that receives certificates is taken to store one before its sender goes
    on. *)
From S2P Require Import Prelude GoStrings GoStringsFacts GoNet GoHttp Types Rules Domains GlobalConfig AcmeDomains AcmeStore.

(** [github.com/xenolf/lego/acme] and the libraries it comes with, over a world
    of their own.  A certificate is its text and its key. *)
Class AcmeLib (W : Type) := {
  GenerateKey : M W (result string);
  NewClient : string -> Account -> M W (result unit);
  Register : M W (result string);
  NewDNSChallengeProviderByName : string -> M W (result unit);
  SetChallengeProvider : bool -> M W (option error); (* DNS-01, or else HTTP-01 *)
  ObtainCertificate : list string -> M W (result (string * string));
  RenewCertificate : string -> string * string -> M W (result (string * string));
}.

(** The end of a certificate's validity, in seconds: the error of loading or
    parsing it. *)
Class X509 := certificate_NotAfter : string * string -> result Z.

Record Provider := mkProvider {
  Configuration_ : option ACMEConfiguration;
  p_Domains : list domain;
  certificates : list Certificate;
  p_account : option Account;
  has_client : bool;
  staticCerts : list string; (* the keys of the map *)
  dynamicCerts : list string;
}.

Section Provider.
Context {W S : Type} `{lib : !AcmeLib W} `{store : !Store S} `{x509 : !X509}.

Record PState := mkPState { prov : Provider; p_store : S; world : W; sent : list ConfigMessage }.

Definition on_store {A} (m : M S A) : M PState A := zoom p_store (fun s st => mkPState (prov st) s (world st) (sent st)) m.
Definition on_world {A} (m : M W A) : M PState A := zoom world (fun w st => mkPState (prov st) (p_store st) w (sent st)) m.
Definition modify_prov (f : Provider -> Provider) : M PState unit :=
  modify_state (fun st => mkPState (f (prov st)) (p_store st) (world st) (sent st)).

Definition set_certificates (l : list Certificate) (p : Provider) : Provider :=
  mkProvider (Configuration_ p) (p_Domains p) l (p_account p) (has_client p) (staticCerts p) (dynamicCerts p).
Definition set_account (a : option Account) (p : Provider) : Provider :=
  mkProvider (Configuration_ p) (p_Domains p) (certificates p) a (has_client p) (staticCerts p) (dynamicCerts p).
Definition set_client (p : Provider) : Provider :=
  mkProvider (Configuration_ p) (p_Domains p) (certificates p) (p_account p) true (staticCerts p) (dynamicCerts p).
Definition set_domains (l : list domain) (p : Provider) : Provider :=
  mkProvider (Configuration_ p) l (certificates p) (p_account p) (has_client p) (staticCerts p) (dynamicCerts p).

(** The embedded configuration: a nil one panics. *)
Definition conf : M PState ACMEConfiguration := fun st =>
  match Configuration_ (prov st) with Some c => (Ret c, st) | None => (Panic OsioClient.nil_dereference, st) end.

(** ** Certificates *)

Definition certificates_message (entryPoint : string) (certs : list Certificate) : ConfigMessage :=
  mkConfigMessage "ACME" (Some (mkConfiguration ∅ ∅
    (map (fun cert => mkTLSConfiguration [entryPoint] (Some (crt_Certificate cert, crt_Key cert))) certs))).

Definition refreshCertificates : M PState unit :=
  c ← conf;
  modify_state (fun st => mkPState (prov st) (p_store st) (world st)
    (sent st ++ [certificates_message (ap_EntryPoint c) (certificates (prov st))])).

(** An error of the store is logged. *)
Definition saveCertificates : M PState unit :=
  st ← get_state;
  _ ← on_store (SaveCertificates (certificates (prov st)));
  refreshCertificates.

(** The first certificate of the same domain is replaced, or the new one added. *)
Fixpoint update_certificate (cert : Certificate) (certs : list Certificate) : option (list Certificate) :=
  match certs with
  | [] => None
  | c :: l =>
      if bool_decide (crt_Domain cert = crt_Domain c)
      then Some (mkCertificate (crt_Domain c) (crt_Certificate cert) (crt_Key cert) :: l)
      else match update_certificate cert l with Some l' => Some (c :: l') | None => None end
  end.
Definition store_certificate (cert : Certificate) (certs : list Certificate) : list Certificate :=
  match update_certificate cert certs with Some certs => certs | None => certs ++ [cert] end.

(** [addCertificateForDomain] sends the certificate, [watchCertificate] receives it. *)
Definition addCertificateForDomain (domain : domain) (certificate : string * string) : M PState unit :=
  _ ← modify_prov (fun p => set_certificates (store_certificate (mkCertificate domain certificate.1 certificate.2) (certificates p)) p);
  saveCertificates.

(** ** The account and the client *)

Definition NewAccount (email : string) : M W (result Account) :=
  r ← GenerateKey; mret (match r with Ok key => Ok (mkAccount email None key) | Err err => Err err end).

Definition initAccount : M PState (result Account) :=
  st ← get_state; c ← conf;
  match p_account (prov st) with
  | Some a =>
      if nonempty (acc_Email a) then mret (Ok a) else
      r ← on_world (NewAccount (ap_Email c));
      match r with
      | Err err => _ ← modify_prov (set_account None); mret (Err err)
      | Ok a => _ ← modify_prov (set_account (Some a)); mret (Ok a)
      end
  | None =>
      r ← on_world (NewAccount (ap_Email c));
      match r with
      | Err err => mret (Err err)
      | Ok a => _ ← modify_prov (set_account (Some a)); mret (Ok a)
      end
  end.

Definition dnsOverrideDelay (delay : Z) : option error :=
  if (delay <? 0)%Z then Some ("delayBeforeCheck: " +:+ pretty delay +:+ " cannot be less than 0") else None.

Definition default_server : string := "https://acme-v02.api.letsencrypt.org/directory".

Definition http_challenge (c : ACMEConfiguration) : M PState (option error) :=
  if match ap_HTTPChallenge c with Some http => nonempty (http_EntryPoint http) | None => false end
  then on_world (SetChallengeProvider false)
  else mret (Some "ACME challenge not specified, please select HTTP or DNS Challenge").

Definition set_challenge (c : ACMEConfiguration) : M PState (option error) :=
  match ap_DNSChallenge c with
  | Some dns =>
      if nonempty (dns_Provider dns) then
        match dnsOverrideDelay (DelayBeforeCheck dns) with
        | Some err => mret (Some err)
        | None =>
            r ← on_world (NewDNSChallengeProviderByName (dns_Provider dns));
            match r with Err err => mret (Some err) | Ok _ => on_world (SetChallengeProvider true) end
        end
      else http_challenge c
  | None => http_challenge c
  end.

(** The registration of a new account, and the account with it.  The account is
    the provider's own, which is changed through the pointer. *)
Definition register (a : Account) : M PState (result Account) :=
  match Registration a with
  | Some _ => mret (Ok a)
  | None =>
      r ← on_world Register;
      match r with
      | Err err => mret (Err err)
      | Ok uri =>
          let a := mkAccount (acc_Email a) (Some uri) (acc_PrivateKey a) in
          _ ← modify_prov (set_account (Some a)); mret (Ok a)
      end
  end.

(** The client is built once; that it is there is all the provider keeps of it. *)
Definition getClient : M PState (option error) :=
  st ← get_state;
  if has_client (prov st) then mret None else
  r ← initAccount;
  match r with
  | Err err => mret (Some err)
  | Ok a =>
      c ← conf;
      r ← on_world (NewClient (if nonempty (ap_CAServer c) then ap_CAServer c else default_server) a);
      match r with
      | Err err => mret (Some err)
      | Ok _ =>
          r ← register a;
          match r with
          | Err err => mret (Some err)
          | Ok a =>
              r ← on_store (SaveAccount a);
              match r with
              | Some err => mret (Some err)
              | None =>
                  r ← set_challenge c;
                  match r with
                  | Some err => mret (Some err)
                  | None => _ ← modify_prov set_client; mret None
                  end
              end
          end
      end
  end.

(** ** Asking for certificates *)

(** The names that are taken care of, as lists joined by commas. *)
Definition checked_domains (p : Provider) (checkConfigurationDomains : bool) : list string :=
  staticCerts p ++ dynamicCerts p ++
  map (fun c => join (ToStrArray (crt_Domain c).1) ",") (certificates p) ++
  (if checkConfigurationDomains then map (fun d => join (ToStrArray d.1) ",") (p_Domains p) else []).

Definition getUncheckedDomains (p : Provider) (domainsToCheck : list string) (checkConfigurationDomains : bool) : list string :=
  searchUncheckedDomains domainsToCheck (checked_domains p checkConfigurationDomains).

Definition obtain (uncheckedDomains : list string) : M PState (result (option (string * string))) :=
  r ← getClient;
  match r with
  | Some err => mret (Err ("cannot get ACME client " +:+ err))
  | None =>
      r ← on_world (ObtainCertificate uncheckedDomains);
      match r with
      | Err err => mret (Err ("cannot obtain certificates: " +:+ err))
      | Ok certificate =>
          if negb (nonempty certificate.1) || negb (nonempty certificate.2)
          then mret (Err ("domains " +:+ join uncheckedDomains " " +:+ " generate certificate with no value"))
          else _ ← addCertificateForDomain (domain_of uncheckedDomains) certificate; mret (Ok (Some certificate))
      end
  end.

Definition resolveCertificate (domain : Domain) (domainFromConfigurationFile : bool) :
    M PState (result (option (string * string))) :=
  c ← conf;
  match getValidDomains (bool_decide (is_Some (ap_DNSChallenge c))) domain domainFromConfigurationFile with
  | Err err => mret (Err err)
  | Ok domains =>
      st ← get_state;
      match getUncheckedDomains (prov st) domains (negb domainFromConfigurationFile) with
      | [] => mret (Ok None)
      | uncheckedDomains => obtain uncheckedDomains
      end
  end.

(** [ListenRequest]: the certificate to answer a handshake with. *)
Definition ListenRequest (domain : string) : M PState (result (option (string * string))) :=
  resolveCertificate (mkDomain domain []) false.

(** ** Renewing *)

Definition month : Z := 24 * 30 * 3600.

(** A certificate that does not load is renewed too. *)
Definition needs_renewal (now : Z) (c : Certificate) : bool :=
  match certificate_NotAfter (crt_Certificate c, crt_Key c) with
  | Err _ => true
  | Ok notAfter => (notAfter <? now + month)%Z
  end.

Definition renew (now : Z) (c : Certificate) : M PState unit :=
  if negb (needs_renewal now c) then mret tt else
  r ← getClient;
  match r with
  | Some _ => mret tt
  | None =>
      r ← on_world (RenewCertificate (Main (crt_Domain c).1) (crt_Certificate c, crt_Key c));
      match r with
      | Err _ => mret tt
      | Ok renewedCert =>
          if negb (nonempty renewedCert.1) || negb (nonempty renewedCert.2) then mret tt
          else addCertificateForDomain (crt_Domain c) renewedCert
      end
  end.

(** The loop is over the slice as it was; its entries are read when their turn
    comes. *)
Fixpoint renew_loop (now : Z) (n i : nat) : M PState unit :=
  match n with
  | O => mret tt
  | Datatypes.S n =>
      st ← get_state;
      _ ← (match certificates (prov st) !! i with Some c => renew now c | None => mret tt end : M PState unit);
      renew_loop now n (Datatypes.S i)
  end.

Definition renewCertificates (now : Z) : M PState unit :=
  st ← get_state; renew_loop now (length (certificates (prov st))) 0.

(** ** Starting *)

Definition acme_init : M PState (option error) :=
  c ← conf;
  r ← on_store GetAccount;
  match r with
  | Err err => _ ← modify_prov (set_account None); mret (Some ("unable to get ACME account : " +:+ err))
  | Ok a =>
      let keep := match a with
        | Some a => match Registration a with Some uri => has_prefix uri (ap_CAServer c) | None => true end
        | None => true
        end in
      _ ← modify_prov (set_account (if keep then a else None));
      r ← on_store GetCertificates;
      match r with
      | Err err => _ ← modify_prov (set_certificates []); mret (Some ("unable to get ACME certificates : " +:+ err))
      | Ok certs => _ ← modify_prov (set_certificates certs); mret None
      end
  end.

Fixpoint resolve_all (domains : list domain) : M PState unit :=
  match domains with
  | [] => mret tt
  | d :: l => _ ← resolveCertificate d.1 true; resolve_all l
  end.

(** The goroutines that resolve the domains are run one after the other. *)
Definition Provide (now : Z) : M PState (option error) :=
  r ← acme_init;
  match r with
  | Some err => mret (Some err)
  | None =>
      _ ← refreshCertificates;
      _ ← modify_prov (fun p => set_domains (deleteUnnecessaryDomains (p_Domains p)) p);
      st ← get_state;
      _ ← resolve_all (p_Domains (prov st));
      _ ← renewCertificates now;
      mret None
  end.

End Provider.
Arguments PState : clear implicits.

(** ** New hosts and challenges *)

(** The domains [watchNewDomains] finds in a configuration, in the order of its
    maps; each is resolved in a goroutine of its own. *)
Definition new_domains `{mux : Mux} `{order : MapOrder} (config : Configuration) : list Domain :=
  name_frontend ← range (Frontends config);
  name_route ← range (Routes name_frontend.2);
  match ParseDomains (Rule name_route.2) with
  | Ok (main :: sans) => [mkDomain main sans]
  | _ => []
  end.

(** The handler of the challenges' route: the answer's status and body. *)
Definition serve_challenge {S} `{!Store S} (token req_Host : string) (between : list (S -> S)) : M S (Z * string) :=
  let domain := match SplitHostPort req_Host with Ok (host, _) => host | Err _ => req_Host end in
  tokenValue ← getTokenValue token domain between;
  mret (if nonempty tokenValue then (200%Z, tokenValue) else (404%Z, "")).
