(* ===== verification/AcmeFacts.v ===== *)
(** * What asking for certificates does

    A domain is asked for once; what is obtained is stored and sent; renewing
    touches no certificate that is still good, and no domain. *)
From S2P Require Import Prelude GoStrings GoStringsFacts GoNet GoHttp Types Rules Domains GlobalConfig AcmeDomains AcmeStore AcmeProvider.

Section Facts.
Context {W S : Type} `{lib : !AcmeLib W} `{store : !Store S} `{x509 : !X509}.
Implicit Types st : PState W S.

(** ** Steps that leave the certificates alone *)

Record keeps st st' : Prop := mkKeeps {
  k_conf : Configuration_ (prov st') = Configuration_ (prov st);
  k_domains : p_Domains (prov st') = p_Domains (prov st);
  k_certs : certificates (prov st') = certificates (prov st);
  k_static : staticCerts (prov st') = staticCerts (prov st);
  k_dynamic : dynamicCerts (prov st') = dynamicCerts (prov st);
  k_sent : sent st' = sent st;
}.

Definition steady {A} (m : M (PState W S) A) : Prop := forall st, keeps st (m st).2.

Lemma keeps_refl st : keeps st st. Proof. by split. Qed.
Lemma keeps_trans st1 st2 st3 : keeps st1 st2 -> keeps st2 st3 -> keeps st1 st3.
Proof. intros [] []. split; by etrans. Qed.

Lemma steady_ret {A} (a : A) : steady (mret a). Proof. intros st. apply keeps_refl. Qed.
Lemma steady_bind {A B} (m : M (PState W S) A) (f : A -> M (PState W S) B) : steady m -> (forall a, steady (f a)) -> steady (m ≫= f).
Proof.
  intros Hm Hf st. specialize (Hm st). unfold mbind, M_bind. destruct (m st) as [[a|e|e] st1]; [|done..].
  eapply keeps_trans; [exact Hm|apply Hf].
Qed.
Lemma steady_get : steady get_state. Proof. intros st. apply keeps_refl. Qed.
Lemma steady_conf : steady conf. Proof. intros st. unfold conf. destruct (Configuration_ (prov st)); apply keeps_refl. Qed.
Lemma steady_world {A} (m : M W A) : steady (on_world m).
Proof. intros st. unfold on_world, zoom. by destruct (m (world st)). Qed.
Lemma steady_store {A} (m : M S A) : steady (on_store m).
Proof. intros st. unfold on_store, zoom. by destruct (m (p_store st)). Qed.
Lemma steady_account a : steady (modify_prov (set_account a)). Proof. intros st. by split. Qed.
Lemma steady_client : steady (modify_prov set_client). Proof. intros st. by split. Qed.

Create HintDb acme.
Hint Resolve steady_ret steady_bind steady_get steady_conf steady_world steady_store steady_account steady_client : acme.

Ltac steady := repeat first [apply steady_ret | apply steady_get | apply steady_conf | apply steady_world | apply steady_store
  | apply steady_account | apply steady_client | (apply steady_bind; [|intros ?]) | case_match].

Lemma getClient_steady : steady getClient.
Proof. unfold getClient, initAccount, register, set_challenge, http_challenge. steady. Qed.

Lemma steady_run {A} (m : M (PState W S) A) st a st' : steady m -> m st = (Ret a, st') -> keeps st st'.
Proof. intros Hm H. specialize (Hm st). by rewrite H in Hm. Qed.

(** ** Storing a certificate *)

Lemma update_certificate_domains cert certs certs' : update_certificate cert certs = Some certs' ->
  map crt_Domain certs' = map crt_Domain certs.
Proof.
  revert certs'. induction certs as [|c l IH]; intros certs'; simpl; [done|]. case_bool_decide; [by intros [= <-]|].
  destruct (update_certificate cert l) as [l'|]; [|done]. intros [= <-]. simpl. by rewrite (IH l').
Qed.

Lemma update_certificate_None cert certs : update_certificate cert certs = None <-> crt_Domain cert ∉ map crt_Domain certs.
Proof.
  induction certs as [|c l IH]; simpl; [split; [intros _; apply not_elem_of_nil|done]|]. rewrite not_elem_of_cons.
  case_bool_decide as E; [naive_solver|]. destruct (update_certificate cert l); naive_solver.
Qed.

Lemma store_certificate_domains cert certs d :
  d ∈ map crt_Domain (store_certificate cert certs) <-> d = crt_Domain cert \/ d ∈ map crt_Domain certs.
Proof.
  unfold store_certificate. destruct (update_certificate cert certs) as [certs'|] eqn:E.
  - rewrite (update_certificate_domains _ _ _ E). split; [by right|]. intros [->|?]; [|done].
    destruct (decide (crt_Domain cert ∈ map crt_Domain certs)) as [|Hn]; [done|]. apply update_certificate_None in Hn. congruence.
  - rewrite map_app, elem_of_app. simpl. rewrite list_elem_of_singleton. tauto.
Qed.

Lemma addCertificate_run domain certificate st a st' : addCertificateForDomain domain certificate st = (Ret a, st') ->
  exists c, Configuration_ (prov st) = Some c /\
    prov st' = set_certificates (store_certificate (mkCertificate domain certificate.1 certificate.2) (certificates (prov st))) (prov st) /\
    sent st' = sent st ++ [certificates_message (ap_EntryPoint c) (certificates (prov st'))] /\
    exists s o, SaveCertificates (certificates (prov st')) (p_store st) = (Ret o, s) /\ p_store st' = s.
Proof.
  unfold addCertificateForDomain. intros (u1 & st1 & [= <- <-] & H)%bind_Ret_inv.
  unfold saveCertificates in H. apply bind_Ret_inv in H as (st2 & st2' & [= <- <-] & H).
  apply bind_Ret_inv in H as (o & st3 & Hs & H). simpl in Hs. unfold on_store, zoom in Hs. simpl in Hs.
  destruct (SaveCertificates _ _) as [o' s] eqn:Es. injection Hs as -> <-.
  unfold refreshCertificates in H. apply bind_Ret_inv in H as (c & st4 & Hc & H). unfold conf in Hc. simpl in Hc.
  destruct (Configuration_ (prov st)) as [c'|] eqn:Ec; [|done]. injection Hc as -> <-. injection H as <- <-.
  exists c. split_and!; [done..|]. by exists s, o.
Qed.

(** ** Asking once *)

Definition good_domains (l : list string) : Prop := Forall (fun n => n <> "" /\ free ","%char n = true) l.

Lemma checked_in n l : good_domains l -> n ∈ l -> existsb (MatchDomain n) (split (join l ",") ",") = true.
Proof.
  intros Hl Hn. rewrite split_join; [|by intros ->; apply elem_of_nil in Hn|by eapply Forall_impl; [exact Hl|intros x [_ ?]]].
  apply existsb_exists. exists n. split; [by apply list_elem_of_In|]. unfold MatchDomain. by rewrite bool_decide_eq_true_2.
Qed.

Lemma ToStrArray_domain_of l : l <> [] -> good_domains l -> ToStrArray (domain_of l).1 = l.
Proof.
  intros Hl Hg. destruct l as [|x [|y l]]; [done|..]; unfold ToStrArray, nonempty; simpl;
    (rewrite bool_decide_eq_false_2; [done|]); inversion Hg as [|? ? [Hx _]]; exact Hx.
Qed.

Lemma unchecked_subset p domains b : getUncheckedDomains p domains b ⊆ domains.
Proof. intros x. unfold getUncheckedDomains, searchUncheckedDomains. rewrite list_elem_of_filter. tauto. Qed.

Lemma obtain_run un st c st' : obtain un st = (Ret (Ok (Some c)), st') ->
  exists conf, Configuration_ (prov st) = Some conf /\
    (exists w w', ObtainCertificate un w = (Ret (Ok c), w')) /\
    certificates (prov st') = store_certificate (mkCertificate (domain_of un) c.1 c.2) (certificates (prov st)) /\
    Configuration_ (prov st') = Configuration_ (prov st) /\ p_Domains (prov st') = p_Domains (prov st) /\
    staticCerts (prov st') = staticCerts (prov st) /\ dynamicCerts (prov st') = dynamicCerts (prov st) /\
    sent st' = sent st ++ [certificates_message (ap_EntryPoint conf) (certificates (prov st'))].
Proof.
  unfold obtain. intros (r & st1 & Hc & H)%bind_Ret_inv. pose proof (steady_run _ _ _ _ getClient_steady Hc) as Hk1.
  destruct r; [by apply mret_Ret_inv in H as [[=] _]|]. apply bind_Ret_inv in H as (r & st2 & Ho & H).
  pose proof (steady_run _ _ _ _ (steady_world _) Ho) as Hk2. unfold on_world, zoom in Ho.
  destruct (ObtainCertificate un (world st1)) as [o w'] eqn:Ew. injection Ho as -> _.
  destruct r as [certificate|]; [|by apply mret_Ret_inv in H as [[=] _]]. destruct (_ || _); [by apply mret_Ret_inv in H as [[=] _]|].
  apply bind_Ret_inv in H as (u & st3 & Ha & H). apply mret_Ret_inv in H as [[= <-] <-].
  destruct (addCertificate_run _ _ _ _ _ Ha) as (cf & Hcf & Hp & Hs & _). destruct (keeps_trans _ _ _ Hk1 Hk2) as [K1 K2 K3 K4 K5 K6].
  exists cf. rewrite Hs, Hp. simpl. rewrite <- K1, <- K2, <- K3, <- K4, <- K5, <- K6. split_and!; try done. by eexists _, _.
Qed.

(** Once a certificate of the uncovered names is stored, all names are covered. *)
Lemma all_covered p p' cert domains b :
  certificates p' = store_certificate cert (certificates p) -> p_Domains p' = p_Domains p ->
  staticCerts p' = staticCerts p -> dynamicCerts p' = dynamicCerts p ->
  good_domains (ToStrArray (crt_Domain cert).1) -> ToStrArray (crt_Domain cert).1 = getUncheckedDomains p domains b ->
  getUncheckedDomains p' domains b = [].
Proof.
  intros Hcerts Hd Hst Hdy Hg Hun.
  assert (forall d, d = crt_Domain cert \/ d ∈ map crt_Domain (certificates p) -> join (ToStrArray d.1) "," ∈ checked_domains p' b) as Hcert.
  { intros d Hin%store_certificate_domains. unfold checked_domains. rewrite !elem_of_app, Hcerts. right; right; left.
    apply list_elem_of_fmap in Hin as (ct & -> & Hct). by apply (list_elem_of_fmap_2 (fun c => join (ToStrArray (crt_Domain c).1) ",")). }
  assert (forall e, e ∈ checked_domains p b -> e ∈ checked_domains p' b) as Hgrow.
  { intros e He. unfold checked_domains in He. rewrite !elem_of_app in He. destruct He as [?|[?|[He|?]]].
    3: { apply list_elem_of_fmap in He as (ct & -> & Hct). apply Hcert. right. by apply list_elem_of_fmap_2. }
    all: unfold checked_domains; rewrite Hd, Hst, Hdy, !elem_of_app; tauto. }
  apply elem_of_nil_inv. intros x [Hx Hin]%list_elem_of_filter. apply not_true_iff_false in Hx. apply Hx. clear Hx.
  apply existsb_exists. destruct (isDomainAlreadyChecked x (checked_domains p b)) eqn:Eold.
  - apply existsb_exists in Eold as (e & He%list_elem_of_In & Hm). exists e. rewrite <- list_elem_of_In. split; [by apply Hgrow|done].
  - exists (join (ToStrArray (crt_Domain cert).1) ","). rewrite <- list_elem_of_In. split; [apply Hcert; by left|].
    apply checked_in; [done|]. rewrite Hun. by apply list_elem_of_filter.
Qed.

(** C24: when a certificate is obtained, it is for the names of the domain that
    nothing covered before, exactly these; it is stored, replacing one of the
    same names if there is one, and all certificates are sent as a
    configuration.  Asked for again, the domain is covered: the server is not
    asked, and nothing changes. *)
Theorem resolve_once domain fromFile st c st' :
  resolveCertificate domain fromFile st = (Ret (Ok (Some c)), st') ->
  good_domains (map CanonicalDomain (ToStrArray domain)) ->
  exists conf un, Configuration_ (prov st) = Some conf /\ un <> [] /\
    un = getUncheckedDomains (prov st) (map CanonicalDomain (ToStrArray domain)) (negb fromFile) /\
    (exists w w', ObtainCertificate un w = (Ret (Ok c), w')) /\
    certificates (prov st') = store_certificate (mkCertificate (domain_of un) c.1 c.2) (certificates (prov st)) /\
    sent st' = sent st ++ [certificates_message (ap_EntryPoint conf) (certificates (prov st'))] /\
    resolveCertificate domain fromFile st' = (Ret (Ok None), st').
Proof.
  intros H Hg. unfold resolveCertificate in H. apply bind_Ret_inv in H as (cf & st1 & Hcf & H). unfold conf in Hcf.
  destruct (Configuration_ (prov st)) as [cf'|] eqn:Ecf; [|done]. injection Hcf as -> <-.
  destruct (getValidDomains _ domain fromFile) as [ds|] eqn:Ev; [|by apply mret_Ret_inv in H as [[=] _]].
  pose proof (proj1 (getValidDomains_spec _ _ _ _) Ev) as (Eds & _).
  apply bind_Ret_inv in H as (st1 & st2 & [= <- <-] & H).
  set (un := getUncheckedDomains (prov st) ds (negb fromFile)) in *. assert (un <> [] /\ obtain un st = (Ret (Ok (Some c)), st')) as [Hun Ho].
  { destruct un; [by apply mret_Ret_inv in H as [[=] _]|done]. }
  destruct (obtain_run _ _ _ _ Ho) as (cf' & Ecf' & Hask & Hcerts & Hc & Hd & Hst & Hdy & Hsent). rewrite Ecf in Ecf'. injection Ecf' as <-.
  exists cf, un. subst ds. split_and!; try done. unfold resolveCertificate, mbind, M_bind, conf. rewrite Hc, Ecf, Ev. unfold get_state.
  assert (getUncheckedDomains (prov st') (map CanonicalDomain (ToStrArray domain)) (negb fromFile) = []) as ->; [|done].
  assert (good_domains un); [|by apply (all_covered (prov st) _ (mkCertificate (domain_of un) c.1 c.2)); try done; simpl; rewrite ToStrArray_domain_of].
  apply Forall_forall. intros y Hy. unfold good_domains in Hg. rewrite Forall_forall in Hg. by apply Hg, (unchecked_subset _ _ _ _ Hy).
Qed.

(** ** Renewing *)

Lemma update_certificate_lookup cert certs certs' i c : NoDup (map crt_Domain certs) -> update_certificate cert certs = Some certs' ->
  certs !! i = Some c ->
  certs' !! i = Some (if decide (crt_Domain c = crt_Domain cert) then cert else c).
Proof.
  revert certs' i. induction certs as [|c0 l IH]; intros certs' i Hnd; simpl; [done|]. apply NoDup_cons in Hnd as [Hn Hnd].
  case_bool_decide as E.
  - intros [= <-]. destruct i as [|i]; simpl; [intros [= ->]|intros Hi].
    + rewrite decide_True by done. rewrite <- E. by destruct cert.
    + rewrite decide_False; [done|]. intros E'. apply Hn. rewrite <- E, <- E'. by eapply list_elem_of_fmap_2, list_elem_of_lookup_2.
  - destruct (update_certificate cert l) as [l'|] eqn:El; [|done]. intros [= <-]. destruct i as [|i]; simpl; [intros [= ->]|intros Hi; by apply IH].
    by rewrite decide_False.
Qed.

(** The certificates are those of [st], of the same domains, and unchanged where
    they do not end within a month; some may be new. *)
Definition renewed_from now st st' : Prop :=
  map crt_Domain (certificates (prov st')) = map crt_Domain (certificates (prov st)) /\
  forall i c, certificates (prov st) !! i = Some c -> needs_renewal now c = false -> certificates (prov st') !! i = Some c.

Lemma renewed_refl now st : renewed_from now st st. Proof. by split. Qed.
Lemma renewed_trans now st1 st2 st3 : renewed_from now st1 st2 -> renewed_from now st2 st3 -> renewed_from now st1 st3.
Proof. intros [E1 H1] [E2 H2]. split; [by rewrite E2|]. eauto. Qed.
Lemma renewed_keeps now st st' : keeps st st' -> renewed_from now st st'.
Proof. intros []. unfold renewed_from. rewrite k_certs0. by split. Qed.

Lemma addCertificate_state domain certificate st :
  let certs := store_certificate (mkCertificate domain certificate.1 certificate.2) (certificates (prov st)) in
  certificates (prov (addCertificateForDomain domain certificate st).2) = certs.
Proof.
  unfold addCertificateForDomain, saveCertificates, refreshCertificates, modify_prov, modify_state, on_store, zoom, mbind, M_bind, get_state. simpl.
  destruct (SaveCertificates _ _) as [[] s]; simpl; [|done..]. unfold conf. simpl. by destruct (Configuration_ (prov st)).
Qed.

Lemma renew_renewed now i c st : NoDup (map crt_Domain (certificates (prov st))) -> certificates (prov st) !! i = Some c ->
  renewed_from now st (renew now c st).2.
Proof.
  intros Hnd Hi. unfold renew. destruct (needs_renewal now c) eqn:En; simpl; [|apply renewed_refl].
  unfold mbind at 1, M_bind at 1. pose proof (getClient_steady st) as Hk. destruct (getClient st) as [[r|e|e] st1]; simpl in Hk; [|by apply renewed_keeps..].
  destruct r; [by apply renewed_keeps|].
  unfold mbind at 1, M_bind at 1. pose proof (steady_world (RenewCertificate (Main (crt_Domain c).1) (crt_Certificate c, crt_Key c)) st1) as Hk2.
  destruct (on_world _ st1) as [[r|e|e] st2]; simpl in Hk2; pose proof (keeps_trans _ _ _ Hk Hk2) as Hk3; [|by apply renewed_keeps..].
  destruct r as [cert|]; [|by apply renewed_keeps]. destruct (_ || _); [by apply renewed_keeps|].
  unfold renewed_from. rewrite addCertificate_state, (k_certs _ _ Hk3). set (new := mkCertificate _ _ _). unfold store_certificate.
  assert (crt_Domain new ∈ map crt_Domain (certificates (prov st))) as Hin by (apply (list_elem_of_fmap_2 crt_Domain _ c); by eapply list_elem_of_lookup_2).
  destruct (update_certificate new (certificates (prov st))) as [certs'|] eqn:Eu; [|by apply update_certificate_None in Eu].
  split; [by eapply update_certificate_domains|]. intros j c' Hj Hgood. rewrite (update_certificate_lookup _ _ _ _ _ Hnd Eu Hj).
  rewrite decide_False; [done|]. intros E. assert (i = j) as <-; [|congruence].
  apply (NoDup_lookup _ i j (crt_Domain c) Hnd); rewrite list_lookup_fmap; [by rewrite Hi|rewrite Hj; simpl; by rewrite E].
Qed.

Lemma renew_loop_renewed now n i st : NoDup (map crt_Domain (certificates (prov st))) -> renewed_from now st (renew_loop now n i st).2.
Proof.
  revert i st. induction n as [|n IH]; intros i st Hnd; simpl; [apply renewed_refl|].
  unfold mbind, M_bind, get_state. destruct (certificates (prov st) !! i) as [c|] eqn:Ei; [|by apply IH].
  pose proof (renew_renewed now i c st Hnd Ei) as Hr. destruct (renew now c st) as [[|e|e] st1]; simpl in *; [|done..].
  eapply renewed_trans; [exact Hr|]. apply IH. by rewrite (proj1 Hr).
Qed.

(** C25: whatever the server and the store answer, and also when the run
    panics, renewing leaves the domains that have certificates as they are, in
    number and order, and every certificate that loads and is valid for a month
    more. *)
Theorem renewals now st : NoDup (map crt_Domain (certificates (prov st))) -> renewed_from now st (renewCertificates now st).2.
Proof. apply renew_loop_renewed. Qed.

(** What makes it so: every way a certificate is stored keeps the domains different. *)
Lemma store_certificate_NoDup cert certs : NoDup (map crt_Domain certs) -> NoDup (map crt_Domain (store_certificate cert certs)).
Proof.
  intros Hnd. unfold store_certificate. destruct (update_certificate cert certs) as [certs'|] eqn:E.
  - by rewrite (update_certificate_domains _ _ _ E).
  - rewrite map_app. apply NoDup_app. split; [done|]. split; [|by apply NoDup_singleton].
    intros d Hd ->%list_elem_of_singleton. by apply update_certificate_None in E.
Qed.

End Facts.

(** ** Examples *)

Section Example.

(** The world is the list of what was asked for. *)
Definition sample_lib : AcmeLib (list (list string)) := {|
  GenerateKey := mret (Ok "key");
  NewClient _ _ := mret (Ok tt);
  Register := mret (Ok "https://ca/acct/1");
  NewDNSChallengeProviderByName _ := mret (Ok tt);
  SetChallengeProvider _ := mret None;
  ObtainCertificate domains := fun w => (Ret (Ok ("cert of " +:+ join domains ",", "its key")), w ++ [domains]);
  RenewCertificate main _ := fun w => (Ret (Ok ("new cert of " +:+ main, "its key")), w ++ [[main]]) |}.
Definition sample_json : StoredJson := {| json_unmarshal _ d := (d, Some "no data"); json_marshal _ := "{}" |}.
Definition sample_x509 : X509 := fun c => if bool_decide (c.1 = "old") then Ok 0%Z else Ok 100000000%Z.
Local Existing Instances sample_lib sample_json sample_x509.

Definition sample_conf : ACMEConfiguration :=
  mkACMEConfiguration "ops@example.org" false "" "acme.json" "https" true false None (Some (mkHTTPChallenge "http")) [].
Definition sample_certs : list Certificate :=
  [mkCertificate (domain_of ["a.com"]) "good" "k"; mkCertificate (domain_of ["b.com"]) "old" "k"].
Definition sample_state : PState (list (list string)) LocalStore :=
  mkPState (mkProvider (Some sample_conf) [] sample_certs None false ["*.static.com"] [])
    (mkLocalStore (Some (mkStoredData None sample_certs ∅)) Missing) [] [].
Definition asked_domain : Domain := mkDomain "c.com" ["x.static.com"; "A.com"].

Lemma resolve_once_witness :
  exists st' c, resolveCertificate asked_domain false sample_state = (Ret (Ok (Some c)), st') /\
    world st' = [["c.com"]] /\ resolveCertificate asked_domain false st' = (Ret (Ok None), st').
Proof.
  destruct (resolveCertificate asked_domain false sample_state) as [[[[c|]|]| |] st'] eqn:E;
    [|exfalso; vm_compute in E; discriminate..]. exists st', c.
  destruct (resolve_once asked_domain false sample_state c st' E) as (conf & un & _ & _ & _ & _ & _ & _ & H).
  { repeat constructor; done. }
  split_and!; [done| |done]. apply (f_equal (fun r => world r.2)) in E. simpl in E. rewrite <- E. by vm_compute.
Defined.

Lemma renewals_witness : NoDup (map crt_Domain sample_certs) /\
  renewed_from 50000000 sample_state (renewCertificates 50000000 sample_state).2.
Proof.
  assert (NoDup (map crt_Domain (certificates (prov sample_state)))) as H by (apply (bool_decide_unpack _); by vm_compute).
  split; [done|]. by apply renewals.
Defined.

(** Only the certificate that ends is asked for again. *)
Example one_renewed :
  (renewCertificates 50000000 sample_state).2.(world) = [["b.com"]] /\
  map crt_Certificate (certificates (prov (renewCertificates 50000000 sample_state).2)) = ["good"; "new cert of b.com"].
Proof. by split; vm_compute. Qed.

End Example.
