(* ===== verification/Datastore.v ===== *)
(** * [cluster/datastore.go]: an object shared through a key-value store

    The nodes of a cluster share one object.  A node keeps a decoded copy of it
    ([Load], [Get]) and changes it in transactions: [Begin] takes a lock of the
    store, waits until the copy is the one of the lock's period and hands the
    copy out; [Commit] writes it back and releases the lock.

    Part one translates the operations; part two interleaves the transactions
    of all nodes as a step relation.  The key-value store is a parameter, with
    what the code relies on as laws. *)
From stdpp Require Import functions.
From S2P Require Import Prelude GoStrings Types.

(** ** Data *)

(** [Metadata]: the pointer to the decoded object, its encoding, and the id of
    the transaction that took the lock last.  The last two are the keys
    [<prefix>/object] and [<prefix>/lock] of the store. *)
Record Metadata := mkMetadata { object : nat; Object : string; Lock : string }.

(** [encoding/json] on the object: decoding goes into an object that is there
    already, and may fill part of it before it fails. *)
Class ObjectJson (Obj : Type) := {
  Marshal : Obj -> result string;
  Unmarshal : string -> Obj -> Obj * option error;
}.

(** The store: [staert.KvSource] and its lock.  [acquire id] is an attempt to
    get the lock with the value [id] that does not fail; none while the caller
    has to wait.  Only what is exported is stored, so the pointer is not. *)
Class KvSource (K : Type) := {
  LoadConfig : K -> Metadata -> Metadata * option error;
  StoreConfig : Metadata -> K -> K * option error;
  acquire : string -> K -> option K;
  Unlock : string -> K -> K * option error;
}.

(** What the code relies on.  Loading reads both keys at once and leaves alone a
    field whose key is missing; a load that fails has read nothing (what
    [StoreConfig] wrote can be decoded).  A store that fails may have written
    any of the keys.  The lock excludes others and carries the id as the value
    of its key; an [Unlock] that fails releases nothing. *)
Class KvLaws (K : Type) `{KvSource K} := {
  stored : K -> option string;
  lock_value : K -> option string;
  holder : K -> option string;
  LoadConfig_ok k m m' : LoadConfig k m = (m', None) ->
    m' = mkMetadata (object m) (default (Object m) (stored k)) (default (Lock m) (lock_value k));
  LoadConfig_err k m m' e : LoadConfig k m = (m', Some e) -> m' = m;
  StoreConfig_ok k m k' : StoreConfig m k = (k', None) ->
    stored k' = Some (Object m) /\ lock_value k' = Some (Lock m) /\ holder k' = holder k;
  StoreConfig_err k m k' e : StoreConfig m k = (k', Some e) ->
    (lock_value k' = lock_value k \/ lock_value k' = Some (Lock m)) /\ holder k' = holder k;
  acquire_ok id k k' : acquire id k = Some k' ->
    holder k = None /\ holder k' = Some id /\ lock_value k' = Some id /\ stored k' = stored k;
  Unlock_ok id k k' : Unlock id k = (k', None) ->
    holder k = Some id /\ holder k' = None /\ stored k' = stored k /\ (lock_value k' = lock_value k \/ lock_value k' = None);
  Unlock_err id k k' e : Unlock id k = (k', Some e) ->
    holder k' = holder k /\ stored k' = stored k /\ lock_value k' = lock_value k;
}.

(** ** Operations of one node *)

Section Operations.
Context {Obj K : Type} `{!ObjectJson Obj} `{!KvSource K}.

(** [Datastore]: what changes of it, and the objects its pointers point to. *)
Record Datastore := mkDatastore { meta : Metadata; heap : nat -> Obj }.

Definition Marshall (m : Metadata) (h : nat -> Obj) : Metadata * option error :=
  match Marshal (h (object m)) with
  | Ok bytes => (mkMetadata (object m) bytes (Lock m), None)
  | Err err => (mkMetadata (object m) "" (Lock m), Some err)
  end.

Definition unmarshall (m : Metadata) (h : nat -> Obj) : (nat -> Obj) * option error :=
  if nonempty (Object m)
  then let '(o, err) := Unmarshal (Object m) (h (object m)) in (<[object m := o]> h, err)
  else (h, None).

Definition Load (k : K) (d : Datastore) : Datastore * option error :=
  match LoadConfig k (mkMetadata (object (meta d)) "" (Lock (meta d))) with
  | (m, Some err) => (mkDatastore m (heap d), Some err)
  | (m, None) => let '(h, err) := unmarshall m (heap d) in (mkDatastore m h, err)
  end.

Definition reload : K -> Datastore -> Datastore * option error := Load.

Definition Get (d : Datastore) : nat := object (meta d).

(** The operation [Begin] repeats once it has the lock. *)
Definition synced (id : string) (d : Datastore) : option error :=
  if bool_decide (Lock (meta d) = id) then None
  else Some ("Object lock value: expected " +:+ id +:+ ", got " +:+ Lock (meta d)).

(** [Commit] of the transaction [id]: the datastore, the store and the flag
    after it, and what it returns. *)
Definition Commit (id : string) (obj : nat) (dirty : bool) (d : Datastore) (k : K) : Datastore * K * bool * option error :=
  if dirty then (d, k, dirty, Some "Transaction already used, please begin a new one") else
  let (m, err) := Marshall (mkMetadata obj (Object (meta d)) (Lock (meta d))) (heap d) in
  let d := mkDatastore m (heap d) in
  match err with
  | Some err => (d, k, dirty, Some ("Marshall error: " +:+ err))
  | None =>
      match StoreConfig m k with
      | (k, Some err) => (d, k, dirty, Some ("StoreConfig error: " +:+ err))
      | (k, None) =>
          match Unlock id k with
          | (k, Some err) => (d, k, dirty, Some ("Unlock error: " +:+ err))
          | (k, None) => (d, k, true, None)
          end
      end
  end.

(** ** The watch

    What the goroutine of [watchChanges] can receive: the end of the context, a
    change of the lock's key (and what the store holds when it is read), or the
    closing of the channel. *)
Inductive watch_event := Done | Changed (k : K) | ChannelClosed.

(** The listener works on the object in place; its error is logged. *)
Context (listener : option (nat -> (nat -> Obj) -> (nat -> Obj) * option error)).

Definition notify_listener (d : Datastore) : Datastore :=
  match listener with
  | None => d
  | Some f => mkDatastore (meta d) (f (object (meta d)) (heap d)).1
  end.

(** One run of the operation: the events that are left, the datastore, and the
    error it returns, none while it waits for a next event.  [err] is the
    variable of the enclosing function, which keeps the last error of [reload]. *)
Fixpoint watch_operation (events : list watch_event) (err : option error) (d : Datastore) :
    list watch_event * Datastore * option (option error) :=
  match events with
  | [] => ([], d, None)
  | Done :: events => (events, d, Some None)
  | ChannelClosed :: events => (events, d, Some err)
  | Changed k :: events =>
      match reload k d with
      | (d, Some err) => (events, d, Some (Some err))
      | (d, None) => watch_operation events None (notify_listener d)
      end
  end.

(** [backoff.RetryNotify] runs it again after an error. *)
Fixpoint watch_retry (fuel : nat) (events : list watch_event) (err : option error) (d : Datastore) :
    list watch_event * Datastore :=
  match fuel with
  | 0 => (events, d)
  | S fuel =>
      match watch_operation events err d with
      | (events, d, Some (Some err)) => watch_retry fuel events (Some err) d
      | (events, d, _) => (events, d)
      end
  end.

(** An operation uses up an event when it returns. *)
Definition watchChanges (events : list watch_event) (d : Datastore) : list watch_event * Datastore :=
  watch_retry (S (length events)) events None d.

End Operations.
Arguments Datastore Obj : clear implicits.
Arguments watch_event K : clear implicits.

(** ** The transactions of a cluster *)

(** What the goroutine started by [Begin] has got from [remoteLock.Lock]. *)
Inductive lock_state := Requested | Granted | Refused.

(** Where a transaction is: [Begin] waiting for the lock, [Begin] waiting for the
    copy, returned and in the hands of the caller, over: committed, or [Begin]
    returned an error. *)
Inductive phase := Locking | Syncing | Opened | Over.

(** [tx_base] notes what the store held when [Begin] returned. *)
Record Transaction := mkTransaction {
  tx_node : nat;
  tx_lock : lock_state;
  tx_phase : phase;
  tx_dirty : bool;
  tx_base : option string;
}.

(** A committed transaction: its id, what it began with, and what it wrote. *)
Record commit := mkCommit { c_id : string; c_base : option string; c_bytes : string }.

Section Cluster.
Context {Obj K : Type} `{!ObjectJson Obj} `{!KvSource K}.

Record cluster := mkCluster {
  kv : K;
  nodes : nat -> Datastore Obj;
  txs : gmap string Transaction;
  commits : list commit;
}.

Definition set_tx (id : string) (t : Transaction) (c : cluster) : cluster :=
  mkCluster (kv c) (nodes c) (<[id := t]> (txs c)) (commits c).
Definition set_node (n : nat) (d : Datastore Obj) (c : cluster) : cluster :=
  mkCluster (kv c) (<[n := d]> (nodes c)) (txs c) (commits c).
Definition set_kv (k : K) (c : cluster) : cluster := mkCluster k (nodes c) (txs c) (commits c).
Definition add_commit (x : commit) (c : cluster) : cluster :=
  mkCluster (kv c) (nodes c) (txs c) (commits c ++ [x]).

Definition in_phase (p : phase) (t : Transaction) : Transaction :=
  mkTransaction (tx_node t) (tx_lock t) p (tx_dirty t) (tx_base t).
Definition with_lock (l : lock_state) (t : Transaction) : Transaction :=
  mkTransaction (tx_node t) l (tx_phase t) (tx_dirty t) (tx_base t).

Definition reload_node (n : nat) (c : cluster) : cluster := set_node n (reload (kv c) (nodes c n)).1 c.

(** [Commit] of an open transaction by its caller, with any object of the node. *)
Definition commit_tx (id : string) (obj : nat) (t : Transaction) (c : cluster) : cluster * option error :=
  let '(d, k, dirty, err) := Commit id obj (tx_dirty t) (nodes c (tx_node t)) (kv c) in
  let c := set_kv k (set_node (tx_node t) d c) in
  match err with
  | Some err => (set_tx id (mkTransaction (tx_node t) (tx_lock t) (tx_phase t) dirty (tx_base t)) c, Some err)
  | None => (add_commit (mkCommit id (tx_base t) (Object (meta d)))
               (set_tx id (mkTransaction (tx_node t) (tx_lock t) Over dirty (tx_base t)) c), None)
  end.

Context {laws : KvLaws K}.

(** A [uuid] nobody has used. *)
Definition fresh_id (id : string) (c : cluster) : Prop :=
  txs c !! id = None /\ lock_value (kv c) <> Some id /\ holder (kv c) <> Some id /\ forall n, Lock (meta (nodes c n)) <> id.

Inductive step : cluster -> cluster -> Prop :=
  (** [Begin]: [NewLock] and the goroutine that asks for the lock *)
  | step_begin c n id : fresh_id id c -> step c (set_tx id (mkTransaction n Requested Locking false None) c)
  (** the lock's goroutine *)
  | step_grant c id t k : txs c !! id = Some t -> tx_lock t = Requested -> acquire id (kv c) = Some k ->
      step c (set_kv k (set_tx id (with_lock Granted t) c))
  | step_refuse c id t : txs c !! id = Some t -> tx_lock t = Requested -> step c (set_tx id (with_lock Refused t) c)
  (** the [select]: the goroutine is done, without or with an error; or the
      context has ended, and which of the two cases is taken is open *)
  | step_locked c id t : txs c !! id = Some t -> tx_phase t = Locking -> tx_lock t <> Refused ->
      step c (set_tx id (in_phase Syncing t) c)
  | step_lock_error c id t : txs c !! id = Some t -> tx_phase t = Locking -> tx_lock t = Refused ->
      step c (set_tx id (in_phase Over t) c)
  | step_cancelled c id t : txs c !! id = Some t -> tx_phase t = Locking -> tx_lock t = Requested ->
      step c (set_tx id (in_phase Over (with_lock Refused t)) c)
  (** the synchronisation: done, another attempt after a reload, given up *)
  | step_synced c id t : txs c !! id = Some t -> tx_phase t = Syncing -> synced id (nodes c (tx_node t)) = None ->
      step c (set_tx id (mkTransaction (tx_node t) (tx_lock t) Opened (tx_dirty t) (stored (kv c))) c)
  | step_retry c id t : txs c !! id = Some t -> tx_phase t = Syncing -> synced id (nodes c (tx_node t)) <> None ->
      step c (reload_node (tx_node t) c)
  | step_give_up c id t : txs c !! id = Some t -> tx_phase t = Syncing -> synced id (nodes c (tx_node t)) <> None ->
      step c (set_tx id (in_phase Over t) c)
  (** the callers' code and the listeners work on the nodes' objects *)
  | step_work c n h : step c (set_node n (mkDatastore (meta (nodes c n)) h) c)
  | step_commit c id obj t : txs c !! id = Some t -> tx_phase t = Opened -> step c (commit_tx id obj t c).1
  (** the watch, or a call of [Load] *)
  | step_reload c n : step c (reload_node n c).

(** The lock is held for twenty seconds at a time and renewed; when the store
    could not be reached, it is lost.  [Begin] drops the channel that tells. *)
Inductive step_lost : cluster -> cluster -> Prop :=
  | lost c id k : holder (kv c) = Some id -> holder k = None -> stored k = stored (kv c) -> lock_value k = lock_value (kv c) ->
      step_lost c (set_kv k c).

(** A cluster before its first transaction. *)
Definition initial (c : cluster) : Prop := txs c = ∅ /\ commits c = [] /\ holder (kv c) = None.

Definition reachable (c : cluster) : Prop := exists c0, initial c0 /\ rtc step c0 c.

End Cluster.
Arguments cluster Obj K : clear implicits.

(** * Facts: transactions are serialised

    As long as no lock is lost, the transactions of all nodes form a chain: each
    began with the bytes the one before it wrote, and no two are open at once.
    A transaction that is begun and not committed keeps the lock for ever. *)

(** ** Operations *)

Section Operations.
Context {Obj K : Type} `{!ObjectJson Obj} `{!KvSource K}.

Lemma unmarshall_meta (m : Metadata) (h : nat -> Obj) h' err : unmarshall m h = (h', err) ->
  forall l, l <> object m -> h' l = h l.
Proof.
  unfold unmarshall. destruct (nonempty _); [|by intros [= <- _]]. destruct (Unmarshal _ _) as [o e].
  intros [= <- _] l Hl. by rewrite fn_lookup_insert_ne.
Qed.

(** A commit that is refused because the transaction is used touches nothing. *)
Lemma Commit_used id obj (d : Datastore Obj) (k : K) :
  Commit id obj true d k = (d, k, true, Some "Transaction already used, please begin a new one").
Proof. done. Qed.

Lemma Commit_dirty id obj dirty (d : Datastore Obj) (k : K) d' k' dirty' err :
  Commit id obj dirty d k = (d', k', dirty', err) -> dirty' = (if err is None then true else dirty).
Proof.
  unfold Commit, Marshall. destruct dirty; [by intros [= _ _ <- <-]|]. simpl.
  destruct (Marshal _); [|by intros [= _ _ <- <-]]. destruct (StoreConfig _ _) as [? [|]]; [by intros [= _ _ <- <-]|].
  destruct (Unlock _ _) as [? [|]]; by intros [= _ _ <- <-].
Qed.

Context {laws : KvLaws K}.

(** What a commit does to the store, under the lock or not. *)
Lemma Commit_spec id obj dirty (d : Datastore Obj) (k : K) d' k' dirty' err :
  Commit id obj dirty d k = (d', k', dirty', err) ->
  Lock (meta d') = Lock (meta d) /\
  (lock_value k' = lock_value k \/ lock_value k' = Some (Lock (meta d)) \/ lock_value k' = None) /\
  match err with
  | Some _ => holder k' = holder k /\ (lock_value k' = lock_value k \/ lock_value k' = Some (Lock (meta d)))
  | None => dirty = false /\ holder k = Some id /\ holder k' = None /\ stored k' = Some (Object (meta d')) /\
            Marshal (heap d obj) = Ok (Object (meta d')) /\ object (meta d') = obj
  end.
Proof.
  unfold Commit, Marshall. destruct dirty; [intros [= <- <- <- <-]; tauto|]. simpl.
  destruct (Marshal (heap d obj)) as [bytes|e] eqn:HM; [|intros [= <- <- <- <-]; simpl; tauto].
  destruct (StoreConfig _ _) as [k1 [e|]] eqn:HS; simpl.
  { apply StoreConfig_err in HS as [HL Hh]. intros [= <- <- <- <-]. simpl in *. tauto. }
  apply StoreConfig_ok in HS as (Hst & HL & Hh). simpl in *.
  destruct (Unlock _ _) as [k2 [e|]] eqn:HU.
  - apply Unlock_err in HU as (Hh2 & _ & HL2). intros [= <- <- <- <-]. simpl. rewrite HL2, HL, Hh2, Hh. tauto.
  - apply Unlock_ok in HU as (Hh1 & Hh2 & Hs2 & HL2). intros [= <- <- <- <-]. simpl. rewrite HL in HL2.
    split; [done|]. split; [tauto|]. repeat split; congruence.
Qed.

(** A reload takes the lock's value, if it takes anything, and then the copy's
    encoding is the one that is stored. *)
Lemma reload_spec (k : K) (d d' : Datastore Obj) err : reload k d = (d', err) ->
  meta d' = mkMetadata (object (meta d)) "" (Lock (meta d)) \/
  meta d' = mkMetadata (object (meta d)) (default "" (stored k)) (default (Lock (meta d)) (lock_value k)).
Proof.
  unfold reload, Load. destruct (LoadConfig _ _) as [m [e|]] eqn:HL.
  - apply LoadConfig_err in HL as ->. intros [= <- <-]. by left.
  - apply LoadConfig_ok in HL as ->. simpl. destruct (unmarshall _ _) as [h e]. intros [= <- <-]. by right.
Qed.
End Operations.

(** ** The watch *)

Section Watch.
Context {Obj K : Type} `{!ObjectJson Obj} `{!KvSource K}.
Context (listener : option (nat -> (nat -> Obj) -> (nat -> Obj) * option error)).

(** What one change does to the datastore and to the error that is kept. *)
Definition handle (x : Datastore Obj * option error) (k : K) : Datastore Obj * option error :=
  match reload k x.1 with
  | (d, None) => (notify_listener listener d, None)
  | (d, Some err) => (d, Some err)
  end.

Lemma watch_retry_changes ks rest fuel err d : length ks < fuel -> exists fuel',
  watch_retry listener fuel (map Changed ks ++ rest) err d =
  watch_retry listener (S fuel') rest (foldl handle (d, err) ks).2 (foldl handle (d, err) ks).1.
Proof.
  revert fuel err d. induction ks as [|k ks IH]; intros [|fuel] err d Hf; simpl in Hf; try lia; [by exists fuel|].
  assert (foldl handle (d, err) (k :: ks) = foldl handle (handle (d, err) k) ks) as -> by done.
  unfold handle at 2 4. simpl. destruct (reload k d) as [d' [e|]] eqn:HR.
  - apply (IH fuel (Some e) d'). lia.
  - apply (IH (S fuel) None (notify_listener listener d')). lia.
Qed.

(** Every change is read, and the listener hears of each that could be read: a
    reload that fails does not end the watch.  The closing of the channel does:
    unless the last reload failed, nothing is watched after it, and the copy
    changes no more. *)
Theorem watch_follows (ks : list K) events d :
  watchChanges listener (map Changed ks) d = ([], (foldl handle (d, None) ks).1) /\
  ((foldl handle (d, None) ks).2 = None ->
   watchChanges listener (map Changed ks ++ ChannelClosed :: events) d = (events, (foldl handle (d, None) ks).1)).
Proof.
  unfold watchChanges. split.
  - rewrite <- (app_nil_r (map Changed ks)) at 2. destruct (watch_retry_changes ks [] (S (length (map Changed ks))) None d) as [f ->]; [|done].
    rewrite length_map. lia.
  - intros Herr. destruct (watch_retry_changes ks (ChannelClosed :: events) (S (length (map Changed ks ++ ChannelClosed :: events))) None d)
      as [f ->]; [rewrite length_app, length_map; lia|]. simpl. by rewrite Herr.
Qed.
End Watch.

(** ** The invariant *)

Section Cluster.
Context {Obj K : Type} `{!ObjectJson Obj} `{!KvSource K} {laws : KvLaws K}.
Implicit Types (c : cluster Obj K) (t : Transaction).

(** What the store held at the start of the chain is [v0]; [last_written] is what
    its last element wrote. *)
Definition last_written (v0 : option string) (l : list commit) : option string :=
  foldl (fun _ x => Some (c_bytes x)) v0 l.

(** Every commit began with what the one before it wrote. *)
Definition chain (v0 : option string) (l : list commit) : Prop :=
  forall l1 x l2, l = l1 ++ x :: l2 -> c_base x = last_written v0 l1.

Lemma chain_snoc v0 l x : chain v0 l -> c_base x = last_written v0 l -> chain v0 (l ++ [x]).
Proof.
  intros Hc Hx l1 y l2 Heq. destruct l2 as [|z l2 _] using rev_ind.
  - apply app_inj_tail in Heq as [-> ->]. done.
  - rewrite app_comm_cons, app_assoc in Heq. apply app_inj_tail in Heq as [-> _]. by eapply Hc.
Qed.

Lemma last_written_snoc v0 l x : last_written v0 (l ++ [x]) = Some (c_bytes x).
Proof. unfold last_written. by rewrite foldl_app. Qed.

(** A transaction whose [Begin] has not returned. *)
Definition beginning t : Prop := tx_phase t = Locking \/ tx_phase t = Syncing.

Definition opened c (id : string) : Prop := exists t, txs c !! id = Some t /\ tx_phase t = Opened.

Record serial (v0 : option string) c : Prop := {
  opened_holds id t : txs c !! id = Some t -> tx_phase t = Opened ->
    holder (kv c) = Some id /\ Lock (meta (nodes c (tx_node t))) = id /\ tx_base t = last_written v0 (commits c);
  holder_value id : holder (kv c) = Some id -> lock_value (kv c) = Some id /\ is_Some (txs c !! id);
  (** the id of a transaction that is beginning is seen only while it has the lock *)
  seen_holds id t : txs c !! id = Some t -> beginning t ->
    (lock_value (kv c) = Some id -> holder (kv c) = Some id) /\
    (forall n, Lock (meta (nodes c n)) = id ->
       holder (kv c) = Some id /\ (Object (meta (nodes c n)) = default "" (stored (kv c)) \/ Object (meta (nodes c n)) = ""));
  untouched : (forall id, ~ opened c id) -> stored (kv c) = last_written v0 (commits c);
  in_chain : chain v0 (commits c);
}.

Lemma serial_initial c : initial c -> serial (stored (kv c)) c.
Proof.
  intros (Ht & Hc & Hh). split.
  - intros id t. by rewrite Ht, lookup_empty.
  - intros id. by rewrite Hh.
  - intros id t. by rewrite Ht, lookup_empty.
  - intros _. by rewrite Hc.
  - rewrite Hc. by intros [] x l2 [=].
Qed.

Lemma opened_unique v0 c id id' : serial v0 c -> opened c id -> opened c id' -> id = id'.
Proof.
  intros HI (t & Ht & Hp) (t' & Ht' & Hp').
  destruct (opened_holds _ _ HI id t Ht Hp) as [H _]. destruct (opened_holds _ _ HI id' t' Ht' Hp') as [H' _]. congruence.
Qed.

(** Changing a transaction without handing it out or taking it back. *)
Lemma serial_set_tx v0 c id t t' : serial v0 c -> txs c !! id = Some t ->
  (tx_phase t' = Opened <-> tx_phase t = Opened) -> tx_node t' = tx_node t -> tx_base t' = tx_base t ->
  (beginning t' -> beginning t) -> serial v0 (set_tx id t' c).
Proof.
  intros HI Ht Hp Hn' Hbase Hb.
  assert (forall id'' : string, opened c id'' -> opened (set_tx id t' c) id'') as Ho.
  { intros id'' (x & Hx & Hxp). unfold opened. simpl. destruct (decide (id'' = id)) as [->|Hne].
    - rewrite lookup_insert_eq. simplify_eq. exists t'. by rewrite Hp.
    - rewrite lookup_insert_ne; [by exists x|done]. }
  split; simpl.
  - intros id'' t'' Hl Hop. apply lookup_insert_Some in Hl as [[<- <-]|[_ Hl]]; [|by eapply opened_holds].
    rewrite Hn', Hbase. eapply opened_holds; [done..|by apply Hp].
  - intros id'' Hh. destruct (holder_value _ _ HI id'' Hh) as [Hv Hs]. split; [done|]. by apply lookup_insert_is_Some'; right.
  - intros id'' t'' Hl Hbe. apply lookup_insert_Some in Hl as [[<- <-]|[_ Hl]].
    + eapply seen_holds; eauto.
    + by eapply seen_holds.
  - intros Hn. apply untouched; [done|]. intros id'' ?%Ho. by eapply Hn.
  - by apply in_chain.
Qed.

(** While a transaction is open nobody sees the id of one that is beginning. *)
Lemma opened_hides v0 c id id' t : serial v0 c -> opened c id -> txs c !! id' = Some t -> beginning t ->
  lock_value (kv c) <> Some id' /\ forall n, Lock (meta (nodes c n)) <> id'.
Proof.
  intros HI (t0 & Ht0 & Hp0) Ht Hb. destruct (opened_holds _ _ HI id t0 Ht0 Hp0) as [Hh _].
  destruct (seen_holds _ _ HI id' t Ht Hb) as [Hv Hn].
  assert (holder (kv c) <> Some id') as Hne.
  { rewrite Hh. intros [= ->]. simplify_eq. destruct Hb; congruence. }
  split; [by intros ?%Hv|]. intros n Hl. by destruct (Hn n Hl).
Qed.

Lemma serial_begin v0 c n id : serial v0 c -> fresh_id id c ->
  serial v0 (set_tx id (mkTransaction n Requested Locking false None) c).
Proof.
  intros HI (Hid & Hv & Hh & Hn).
  assert (forall id'' : string, opened (set_tx id (mkTransaction n Requested Locking false None) c) id'' -> opened c id'') as Ho.
  { intros id'' (x & Hl & Hx). simpl in Hl. apply lookup_insert_Some in Hl as [[<- <-]|[_ Hl]]; [done|]. by exists x. }
  split; simpl.
  - intros id'' t'' [[<- <-]|[_ Hl]]%lookup_insert_Some Hop; [done|]. by eapply opened_holds.
  - intros id'' Hho. destruct (holder_value _ _ HI id'' Hho) as [? Hs]. split; [done|]. by apply lookup_insert_is_Some'; right.
  - intros id'' t'' [[<- <-]|[_ Hl]]%lookup_insert_Some Hb; [|by eapply seen_holds]. split; [done|]. by intros n' ?%Hn.
  - intros Hno. apply untouched; [done|]. intros id'' (x & Hl & Hx). apply (Hno id''). exists x. split; [|done]. simpl.
    rewrite lookup_insert_ne; [done|]. intros ->. congruence.
  - by apply in_chain.
Qed.

Lemma serial_set_kv v0 c id t k : serial v0 c -> txs c !! id = Some t ->
  acquire id (kv c) = Some k -> serial v0 (set_kv k c).
Proof.
  intros HI Ht (Hfree & Hh & Hv & Hs)%acquire_ok.
  assert (forall id'' : string, ~ opened c id'') as Hno.
  { intros id'' (x & Hl & Hx). destruct (opened_holds _ _ HI id'' x Hl Hx) as [? _]. congruence. }
  split; simpl.
  - intros id'' t'' Hl Hop. destruct (Hno id''). by exists t''.
  - intros id''. rewrite Hh. by intros [= <-].
  - intros id'' t'' Hl Hb. rewrite Hv, Hh. split; [done|]. intros n Hn.
    destruct (seen_holds _ _ HI id'' t'' Hl Hb) as [_ Hx]. destruct (Hx n Hn). congruence.
  - intros _. rewrite Hs. by apply untouched.
  - by apply in_chain.
Qed.

Lemma serial_synced v0 c id t : serial v0 c -> txs c !! id = Some t -> tx_phase t = Syncing ->
  Lock (meta (nodes c (tx_node t))) = id ->
  serial v0 (set_tx id (mkTransaction (tx_node t) (tx_lock t) Opened (tx_dirty t) (stored (kv c))) c).
Proof.
  intros HI Ht Hp Hl. destruct (seen_holds _ _ HI id t Ht (or_intror Hp)) as [_ Hx]. destruct (Hx _ Hl) as [Hh _].
  assert (forall id'' : string, ~ opened c id'') as Hno.
  { intros id'' (x & Hlx & Hpx). destruct (opened_holds _ _ HI id'' x Hlx Hpx) as [? _]. simplify_eq. congruence. }
  split; simpl.
  - intros id'' t'' [[<- <-]|[_ Hl'']]%lookup_insert_Some Hop.
    + simpl. split; [done|]. split; [done|]. by apply untouched.
    + destruct (Hno id''). by exists t''.
  - intros id'' Hho. destruct (holder_value _ _ HI id'' Hho) as [? Hs]. split; [done|]. by apply lookup_insert_is_Some'; right.
  - intros id'' t'' [[<- <-]|[_ Hl'']]%lookup_insert_Some Hb; [by destruct Hb|]. by eapply seen_holds.
  - intros Hn. destruct (Hn id). exists (mkTransaction (tx_node t) (tx_lock t) Opened (tx_dirty t) (stored (kv c))).
    simpl. by rewrite lookup_insert_eq.
  - by apply in_chain.
Qed.

(** A node whose metadata stays, or is read again. *)
Lemma serial_set_node v0 c n (d : Datastore Obj) : serial v0 c ->
  Lock (meta d) = Lock (meta (nodes c n)) /\ (Object (meta d) = Object (meta (nodes c n)) \/ Object (meta d) = "") \/
  Lock (meta d) = default (Lock (meta (nodes c n))) (lock_value (kv c)) /\ Object (meta d) = default "" (stored (kv c)) ->
  serial v0 (set_node n d c).
Proof.
  intros HI Hd. split; simpl.
  - intros id t Hl Hop. destruct (opened_holds _ _ HI id t Hl Hop) as (Hh & HL & Hb). split; [done|]. split; [|done].
    destruct (decide (tx_node t = n)) as [<-|]; [|by rewrite fn_lookup_insert_ne]. rewrite fn_lookup_insert.
    destruct (holder_value _ _ HI id Hh) as [Hv _]. destruct Hd as [[-> _]|[-> _]]; [done|]. by rewrite Hv.
  - apply HI.
  - intros id t Hl Hb. destruct (seen_holds _ _ HI id t Hl Hb) as [Hv Hn]. split; [done|]. intros n' Hn'.
    destruct (decide (n' = n)) as [->|]; [|rewrite fn_lookup_insert_ne in Hn' |- * by done; by apply Hn].
    rewrite fn_lookup_insert in Hn' |- *. destruct Hd as [[HL HO]|[HL HO]].
    + rewrite HL in Hn'. destruct (Hn n Hn') as [Hh Hst]. split; [done|]. destruct HO as [->| ->]; [done|]. by right.
    + split; [|by left]. rewrite HL in Hn'. destruct (lock_value (kv c)); simpl in Hn'; [apply Hv; congruence|]. by destruct (Hn n Hn').
  - apply HI.
  - apply HI.
Qed.

Lemma serial_commit v0 c id obj t : serial v0 c -> txs c !! id = Some t -> tx_phase t = Opened ->
  serial v0 (commit_tx id obj t c).1.
Proof.
  intros HI Ht Hp. destruct (opened_holds _ _ HI id t Ht Hp) as (Hh & HL & Hb).
  assert (opened c id) as Hop by (by exists t).
  unfold commit_tx. destruct (Commit _ _ _ _ _) as [[[d k] dirty] err] eqn:HC. apply Commit_spec in HC as (HLd & Hv & Herr).
  rewrite HL in Hv, Herr.
  assert (forall id'' t'', txs c !! id'' = Some t'' -> beginning t'' -> lock_value k <> Some id'' /\
    forall n, Lock (meta (<[tx_node t := d]> (nodes c) n)) <> id'') as Hhide.
  { intros id'' t'' Hl'' Hb''. destruct (opened_hides _ _ _ _ _ HI Hop Hl'' Hb'') as [Hv'' Hn'']. split.
    - assert (id <> id'') by (intros ->; simplify_eq; destruct Hb''; congruence).
      destruct Hv as [-> |[-> | ->]]; [done|congruence|done].
    - intros n. destruct (decide (n = tx_node t)) as [->|]; [|by rewrite fn_lookup_insert_ne]. rewrite fn_lookup_insert, HLd. apply Hn''. }
  destruct err as [err|]; split; simpl.
  - intros id'' t'' [[<- <-]|[Hne Hl]]%lookup_insert_Some Hp''; simpl; [|destruct Hne; eapply opened_unique; [done..|by exists t'']].
    destruct Herr as [-> _]. by rewrite fn_lookup_insert, HLd.
  - intros id'' Hh''. destruct Herr as [Heq HLv]. rewrite Heq, Hh in Hh''. injection Hh'' as <-.
    destruct (holder_value _ _ HI id Hh) as [Hvv _]. split; [destruct HLv as [-> | ->]; done|]. by rewrite lookup_insert_eq.
  - intros id'' t'' [[<- <-]|[_ Hl]]%lookup_insert_Some Hb''; [destruct Hb''; simpl in *; congruence|].
    destruct (Hhide _ _ Hl Hb'') as [H1 H2]. split; [done|]. by intros n ?%H2.
  - intros Hno. destruct (Hno id). eexists. simpl. rewrite lookup_insert_eq. by split.
  - by apply in_chain.
  - intros id'' t'' [[<- <-]|[Hne Hl]]%lookup_insert_Some Hp''; [done|]. destruct Hne. eapply opened_unique; [done..|by exists t''].
  - destruct Herr as (_ & _ & Hnone & _). rewrite Hnone. done.
  - intros id'' t'' [[<- <-]|[_ Hl]]%lookup_insert_Some Hb''; [by destruct Hb''|].
    destruct (Hhide _ _ Hl Hb'') as [H1 H2]. split; [done|]. by intros n ?%H2.
  - intros _. rewrite last_written_snoc. by destruct Herr as (_ & _ & _ & ? & _).
  - apply chain_snoc; [by apply in_chain|done].
Qed.

Lemma synced_Lock id (d : Datastore Obj) : synced id d = None <-> Lock (meta d) = id.
Proof. unfold synced. case_bool_decide; naive_solver. Qed.

Lemma serial_reload v0 c n : serial v0 c -> serial v0 (reload_node n c).
Proof.
  intros HI. unfold reload_node. destruct (reload (kv c) (nodes c n)) as [d err] eqn:HR. apply serial_set_node; [done|].
  apply reload_spec in HR as [Hm|Hm]; simpl; rewrite Hm; simpl; [left; split; [done|by right]|by right].
Qed.

Lemma serial_step v0 c c' : step c c' -> serial v0 c -> serial v0 c'.
Proof.
  destruct 1 as [c n id Hf|c id t k Ht HL Ha|c id t Ht HL|c id t Ht Hp HL|c id t Ht Hp HL|c id t Ht Hp HL
                |c id t Ht Hp Hs|c id t Ht Hp Hs|c id t Ht Hp Hs|c n h|c id obj t Ht Hp|c n]; intros HI.
  - by apply serial_begin.
  - apply (serial_set_kv _ (set_tx id (with_lock Granted t) c) id (with_lock Granted t)); [|by simpl; rewrite lookup_insert_eq|done].
    by eapply serial_set_tx.
  - by eapply serial_set_tx.
  - eapply serial_set_tx; try done; simpl; rewrite ?Hp; try done. intros _. by left.
  - eapply serial_set_tx; try done; simpl; rewrite ?Hp; try done. by intros [].
  - eapply serial_set_tx; try done; simpl; rewrite ?Hp; try done. by intros [].
  - eapply serial_synced; try done. by apply synced_Lock.
  - by apply serial_reload.
  - eapply serial_set_tx; try done; simpl; rewrite ?Hp; try done. by intros [].
  - apply serial_set_node; [done|]. eauto.
  - by apply serial_commit.
  - by apply serial_reload.
Qed.
Lemma serial_steps v0 c c' : rtc step c c' -> serial v0 c -> serial v0 c'.
Proof. induction 1 as [|? ? ? Hs _ IH]; [done|]. intros HI. apply IH. by eapply serial_step. Qed.

(** ** The theorems *)

(** C26: from its start on, as long as no lock is lost, whatever the nodes do
    between: at most one transaction is in the hands of a caller; each committed
    transaction began with exactly the bytes the one before it wrote; while none
    is open the store holds what the last one wrote; and [Begin] returns only
    when it has the lock, even when the context ended while it waited, with a
    copy read from what is stored unless the last reload failed. *)
Theorem transactions_serial (c0 c : cluster Obj K) : initial c0 -> rtc step c0 c ->
  (forall id id', opened c id -> opened c id' -> id = id') /\
  chain (stored (kv c0)) (commits c) /\
  ((forall id, ~ opened c id) -> stored (kv c) = last_written (stored (kv c0)) (commits c)) /\
  (forall id t, txs c !! id = Some t -> tx_phase t = Syncing -> synced id (nodes c (tx_node t)) = None ->
     holder (kv c) = Some id /\
     (Object (meta (nodes c (tx_node t))) = default "" (stored (kv c)) \/ Object (meta (nodes c (tx_node t))) = "")).
Proof.
  intros Hi%serial_initial Hs. pose proof (serial_steps _ _ _ Hs Hi) as HI. split; [|split; [|split]].
  - intros id id'. by apply opened_unique with (v0 := stored (kv c0)).
  - apply HI.
  - apply HI.
  - intros id t Ht Hp Hsy. apply synced_Lock in Hsy.
    destruct (seen_holds _ _ HI id t Ht (or_intror Hp)) as [_ Hn]. by apply Hn.
Qed.

(** A lock that nobody is going to release. *)
Definition abandoned c (id : string) : Prop :=
  holder (kv c) = Some id /\ exists t, txs c !! id = Some t /\ tx_phase t = Over.

Lemma abandoned_set_tx c id id' t t' : txs c !! id' = Some t -> (tx_phase t = Over -> tx_phase t' = Over) ->
  abandoned c id -> abandoned (set_tx id' t' c) id.
Proof.
  intros Ht Hp (Hh & t0 & Ht0 & Hp0). split; [done|]. simpl. destruct (decide (id = id')) as [->|].
  - rewrite lookup_insert_eq. simplify_eq. eauto.
  - rewrite lookup_insert_ne; eauto.
Qed.

Lemma abandoned_step v0 c c' id : serial v0 c -> step c c' -> abandoned c id -> abandoned c' id.
Proof.
  intros HI. destruct 1 as [c n id' Hf|c id' t k Ht HL Ha|c id' t Ht HL|c id' t Ht Hp HL|c id' t Ht Hp HL|c id' t Ht Hp HL
                |c id' t Ht Hp Hs|c id' t Ht Hp Hs|c id' t Ht Hp Hs|c n h|c id' obj t Ht Hp|c n]; intros Hab; try done.
  all: try (eapply abandoned_set_tx; [done| |done]; simpl; congruence).
  - destruct Hab as (Hh & t & Ht & Hp). split; [done|]. exists t. simpl. destruct Hf as [Hf _]. rewrite lookup_insert_ne; [done|congruence].
  - destruct Hab as (Hh & _). apply acquire_ok in Ha as (Hfree & _). congruence.
  - destruct Hab as (Hh & t0 & Ht0 & Hp0). destruct (opened_holds _ _ HI id' t Ht Hp) as [Hh' _]. congruence.
Qed.

(** When [Begin] has given up synchronising and returned an error, the lock it
    has got, or still gets, is held for ever: no transaction of any node is open
    again, and none commits. *)
Theorem abandoned_lock c0 c c' id : initial c0 -> rtc step c0 c -> abandoned c id -> rtc step c c' ->
  abandoned c' id /\ (forall id', ~ opened c' id') /\ commits c' = commits c.
Proof.
  intros Hi%serial_initial Hs Hab Hs'. pose proof (serial_steps _ _ _ Hs Hi) as HI. clear Hs.
  assert (forall v0 c'', serial v0 c'' -> abandoned c'' id -> forall id', ~ opened c'' id') as Hno.
  { intros v0 c'' HI'' (Hh & t & Ht & Hp) id' (t' & Ht' & Hp'). destruct (opened_holds _ _ HI'' id' t' Ht' Hp') as [Hh' _]. congruence. }
  induction Hs' as [c|c c1 c' Hst _ IH]; [by eauto|].
  destruct IH as (H1 & H2 & H3); [by eapply abandoned_step|by eapply serial_step|]. split; [done|]. split; [done|].
  rewrite H3. destruct Hst as [| | | | | | | | | |c id' obj t Ht Hp|]; try done. destruct (Hno _ _ HI Hab id'). by exists t.
Qed.

(** A transaction is open until it commits: when its caller returns without, no
    other transaction is ever open. *)
Lemma opened_step c c' id : step c c' -> opened c id -> opened c' id \/ exists x, x ∈ commits c' /\ c_id x = id.
Proof.
  assert (forall c id' t t', txs c !! id' = Some t -> (tx_phase t = Opened -> tx_phase t' = Opened) ->
    opened c id -> opened (set_tx id' t' c) id) as Hset.
  { intros c1 id' t t' Ht Hp (t0 & Ht0 & Hp0). destruct (decide (id = id')) as [->|].
    - exists t'. simpl. rewrite lookup_insert_eq. simplify_eq. auto.
    - exists t0. simpl. by rewrite lookup_insert_ne. }
  destruct 1 as [c n id' Hf|c id' t k Ht HL Ha|c id' t Ht HL|c id' t Ht Hp HL|c id' t Ht Hp HL|c id' t Ht Hp HL
                |c id' t Ht Hp Hs|c id' t Ht Hp Hs|c id' t Ht Hp Hs|c n h|c id' obj t Ht Hp|c n]; intros Hop; try (by left).
  all: try (left; eapply (Hset c); [done| |done]; simpl; congruence).
  - left. destruct Hop as (t & Ht & Hp). exists t. simpl. destruct Hf as [Hf _]. rewrite lookup_insert_ne; [done|congruence].
  - unfold commit_tx. destruct (Commit _ _ _ _ _) as [[[d k] dirty] [err|]]; simpl.
    + left. by apply (Hset (set_kv k (set_node (tx_node t) d c)) id' t).
    + destruct (decide (id = id')) as [->|]; [right; eexists; split; [apply elem_of_app; right; by apply list_elem_of_singleton|done]|].
      left. destruct Hop as (t0 & Ht0 & Hp0). exists t0. simpl. by rewrite lookup_insert_ne.
Qed.

Lemma commits_kept c c' : step c c' -> forall x, x ∈ commits c -> x ∈ commits c'.
Proof.
  destruct 1; try done. intros x Hx. unfold commit_tx. destruct (Commit _ _ _ _ _) as [[[? ?] ?] [?|]]; simpl; [done|].
  apply elem_of_app. by left.
Qed.

Theorem open_until_committed c c' id : rtc step c c' -> opened c id -> opened c' id \/ exists x, x ∈ commits c' /\ c_id x = id.
Proof.
  induction 1 as [|c c1 c' Hs Hr IH]; [by left|]. intros [Hop|(x & Hx & Hid)]%(opened_step _ _ _ Hs); [by apply IH|].
  right. exists x. split; [|done]. clear -Hr Hx. induction Hr; [done|]. eauto using commits_kept.
Qed.

(** Every transaction of the chain is over, and is in it once. *)
Definition once c : Prop :=
  NoDup (map c_id (commits c)) /\ forall x, x ∈ commits c -> exists t, txs c !! c_id x = Some t /\ tx_phase t = Over.

Lemma once_set_tx c id t t' : txs c !! id = Some t -> (tx_phase t = Over -> tx_phase t' = Over) -> once c -> once (set_tx id t' c).
Proof.
  intros Ht Hp [Hnd Ho]. split; [done|]. intros x Hx. destruct (Ho x Hx) as (t0 & Ht0 & Hp0). simpl.
  destruct (decide (c_id x = id)) as [<-|].
  - rewrite lookup_insert_eq. simplify_eq. eauto.
  - rewrite lookup_insert_ne; eauto.
Qed.

Lemma once_commit c id obj t : once c -> txs c !! id = Some t -> tx_phase t = Opened -> once (commit_tx id obj t c).1.
Proof.
  intros Ho Ht Hp. unfold commit_tx. destruct (Commit _ _ _ _ _) as [[[d k] dirty] [err|]]; simpl.
  - by apply (once_set_tx (set_kv k (set_node (tx_node t) d c)) id t); [|simpl; congruence|].
  - destruct Ho as [Hnd Ho]. split; simpl.
    + rewrite map_app. apply NoDup_app. split; [done|]. split; [|apply NoDup_singleton].
      intros y (x & -> & Hx)%list_elem_of_fmap Hy%list_elem_of_singleton. simpl in Hy.
      destruct (Ho x Hx) as (t' & Ht' & Hp'). congruence.
    + intros x [Hx| ->%list_elem_of_singleton]%elem_of_app; simpl; [|rewrite lookup_insert_eq; eauto].
      destruct (Ho x Hx) as (t' & Ht' & Hp'). rewrite lookup_insert_ne; [eauto|congruence].
Qed.

Lemma once_step c c' : step c c' -> once c -> once c'.
Proof.
  destruct 1 as [c n id' Hf|c id' t k Ht HL Ha|c id' t Ht HL|c id' t Ht Hp HL|c id' t Ht Hp HL|c id' t Ht Hp HL
                |c id' t Ht Hp Hs|c id' t Ht Hp Hs|c id' t Ht Hp Hs|c n h|c id' obj t Ht Hp|c n]; intros Ho; try done.
  all: try (eapply once_set_tx; [done| |done]; simpl; congruence).
  - destruct Ho as [Hnd Ho]. split; [done|]. intros x Hx. destruct (Ho x Hx) as (t & Ht & Hp). simpl.
    destruct Hf as [Hf _]. rewrite lookup_insert_ne; [by eauto|congruence].
  - by apply once_commit.
Qed.

(** A transaction commits at most once. *)
Theorem commits_once c0 c : initial c0 -> rtc step c0 c -> NoDup (map c_id (commits c)).
Proof.
  intros (_ & Hc & _) Hs. assert (once c0) as Ho by (split; rewrite Hc; [apply NoDup_nil_2|by intros x ?%elem_of_nil]).
  assert (once c) as [? _]; [|done]. clear Hc. induction Hs as [|? ? ? Hst _ IH]; [done|]. apply IH. by eapply once_step.
Qed.
End Cluster.

(** ** A store, and what the laws leave out *)

Module Sample.

(** The three keys of a store whose requests never fail. *)
Record store := mkStore { s_object : option string; s_lock : option string; s_holder : option string }.

#[global] Instance store_source : KvSource store := {
  LoadConfig k m := (mkMetadata (object m) (default (Object m) (s_object k)) (default (Lock m) (s_lock k)), None);
  StoreConfig m k := (mkStore (Some (Object m)) (Some (Lock m)) (s_holder k), None);
  acquire id k := if s_holder k is Some _ then None else Some (mkStore (s_object k) (Some id) (Some id));
  Unlock id k :=
    if bool_decide (s_holder k = Some id) then (mkStore (s_object k) (s_lock k) None, None) else (k, Some "not held");
}.

#[global] Program Instance store_laws : KvLaws store := {| stored := s_object; lock_value := s_lock; holder := s_holder |}.
Next Obligation. by intros k m m' [= <-]. Qed.
Next Obligation. by intros k m m' e [=]. Qed.
Next Obligation. by intros k m k' [= <-]. Qed.
Next Obligation. by intros k m k' e [=]. Qed.
Next Obligation. simpl. intros id [o l [h|]] k' Ha; simplify_eq/=. done. Qed.
Next Obligation. simpl. intros id k k'. case_bool_decide; intros [= <-]. naive_solver. Qed.
Next Obligation. simpl. intros id k k' e. case_bool_decide; by intros [= <-]. Qed.

(** Strings are their own encoding. *)
#[global] Instance string_json : ObjectJson string := { Marshal o := Ok o; Unmarshal bytes _ := (bytes, None) }.

Definition node0 : Datastore string := mkDatastore (mkMetadata 0 "" "") (fun _ => "").
Definition start : cluster string store := mkCluster (mkStore (Some "old") None None) (fun _ => node0) ∅ [].

(** A transaction of node [n] up to the return of [Begin], its lock free and its
    copy behind. *)
Definition begun (n : nat) (id : string) (c : cluster string store) : cluster string store :=
  let t := mkTransaction n Requested Locking false None in
  let c := set_tx id t c in
  let c := set_kv (mkStore (s_object (kv c)) (Some id) (Some id)) (set_tx id (with_lock Granted t) c) in
  let t := in_phase Syncing (with_lock Granted t) in
  let c := reload_node n (set_tx id t c) in
  set_tx id (mkTransaction n Granted Opened false (s_object (kv c))) c.

Lemma sync_step n id (c : cluster string store) :
  txs c !! id = Some (mkTransaction n Granted Syncing false None) -> Lock (meta (nodes c n)) = id ->
  step c (set_tx id (mkTransaction n Granted Opened false (s_object (kv c))) c).
Proof.
  intros Ht HL. exact (step_synced c id (mkTransaction n Granted Syncing false None) Ht eq_refl (proj2 (synced_Lock _ _) HL)).
Qed.

Lemma begun_steps n id c : fresh_id id c -> s_holder (kv c) = None -> rtc step c (begun n id c).
Proof.
  intros Hf Hh. unfold begun.
  set (t := mkTransaction n Requested Locking false None).
  eapply rtc_l. { apply (step_begin c n id Hf). } fold t.
  eapply rtc_l.
  { apply (step_grant _ id t (mkStore (s_object (kv c)) (Some id) (Some id))); [apply lookup_insert_eq|done|].
    simpl. by rewrite Hh. }
  eapply rtc_l. { apply (step_locked _ id (with_lock Granted t)); [apply lookup_insert_eq|done..]. }
  eapply rtc_l.
  { apply (step_retry _ id (in_phase Syncing (with_lock Granted t))); [apply lookup_insert_eq|done|].
    intros H%synced_Lock. by destruct Hf as (_ & _ & _ & Hn); destruct (Hn n). }
  eapply rtc_l; [|apply rtc_refl].
  apply sync_step; [apply lookup_insert_eq|]. simpl. rewrite fn_lookup_insert. unfold reload, Load. simpl. by destruct (unmarshall _ _).
Qed.

Lemma start_initial : initial start.
Proof. done. Qed.

Definition update (n : nat) (o : string) (c : cluster string store) : cluster string store :=
  set_node n (mkDatastore (meta (nodes c n)) (fun _ => o)) c.

Definition commit_all (id : string) (c : cluster string store) : cluster string store :=
  match txs c !! id with Some t => (commit_tx id 0 t c).1 | None => c end.

Definition opened1 : cluster string store := begun 0 "1" start.

Lemma fresh_start id : id <> "" -> fresh_id id start.
Proof. intros Hne. split; [done|]. split; [done|]. split; [done|]. intros n Heq. by apply Hne. Qed.

Lemma opened1_steps : rtc step start opened1.
Proof. apply begun_steps; [by apply fresh_start|done]. Qed.

Lemma opened1_tx : txs opened1 !! "1" = Some (mkTransaction 0 Granted Opened false (Some "old")).
Proof. by vm_compute. Qed.

Definition committed1 : cluster string store := commit_all "1" (update 0 "new" opened1).

Lemma committed1_steps : rtc step start committed1.
Proof.
  etrans; [apply opened1_steps|]. eapply rtc_l; [apply (step_work _ 0 (fun _ => "new"))|].
  eapply rtc_l; [|apply rtc_refl]. unfold committed1, commit_all. change (txs (update 0 "new" opened1)) with (txs opened1).
  rewrite opened1_tx. by apply (step_commit _ "1" 0 (mkTransaction 0 Granted Opened false (Some "old"))).
Qed.
End Sample.

(** The chain of an update: begun with the old bytes, it wrote the new. *)
Lemma transactions_serial_witness :
  commits Sample.committed1 = [mkCommit "1" (Some "old") "new"] /\ chain (Some "old") (commits Sample.committed1).
Proof.
  split; [by vm_compute|].
  exact (proj1 (proj2 (transactions_serial Sample.start Sample.committed1 Sample.start_initial Sample.committed1_steps))).
Defined.

(** [Begin] takes the lock, cannot read the copy in time, and returns an error. *)
Definition given_up : cluster string Sample.store :=
  let t := mkTransaction 0 Requested Locking false None in
  let c := set_tx "1" t Sample.start in
  let c := set_tx "1" (in_phase Syncing t) c in
  let c := set_tx "1" (in_phase Over (in_phase Syncing t)) c in
  set_kv (Sample.mkStore (Some "old") (Some "1") (Some "1")) (set_tx "1" (with_lock Granted (in_phase Over (in_phase Syncing t))) c).

Lemma given_up_steps : rtc step Sample.start given_up.
Proof.
  set (t := mkTransaction 0 Requested Locking false None).
  eapply rtc_l. { apply (step_begin Sample.start 0 "1"). by apply Sample.fresh_start. }
  eapply rtc_l. { apply (step_locked _ "1" t); [apply lookup_insert_eq|done..]. }
  eapply rtc_l. { by apply (step_give_up _ "1" (in_phase Syncing t)); [apply lookup_insert_eq|done|]. }
  eapply rtc_l; [|apply rtc_refl].
  by apply (step_grant _ "1" (in_phase Over (in_phase Syncing t))); [apply lookup_insert_eq|done|].
Qed.

Lemma abandoned_lock_witness : abandoned given_up "1" /\ commits given_up = [].
Proof.
  assert (abandoned given_up "1") as Hab.
  { split; [done|]. eexists. split; [apply lookup_insert_eq|done]. }
  destruct (abandoned_lock Sample.start given_up given_up "1" Sample.start_initial given_up_steps Hab (rtc_refl _ _)) as (H & _ & _).
  by split.
Defined.

(** A transaction may lose its update and commit all the same: taking the lock is
    itself a change of the watched key, and the reload it makes, when it comes
    after the caller's work, decodes the stored object over it. *)
Theorem own_reload_undoes_update : exists c1 c2 : cluster string Sample.store,
  rtc step Sample.start c1 /\ opened c1 "1" /\ heap (nodes c1 0) 0 = "old" /\
  step c1 c2 /\ heap (nodes c2 0) 0 = "new" /\
  exists c3 t, step c2 c3 /\ txs c3 !! "1" = Some t /\
    (commit_tx "1" 0 t c3).2 = None /\ commits (commit_tx "1" 0 t c3).1 = [mkCommit "1" (Some "old") "old"].
Proof.
  exists Sample.opened1, (Sample.update 0 "new" Sample.opened1).
  split; [apply Sample.opened1_steps|]. split; [eexists; split; [apply Sample.opened1_tx|done]|]. split; [by vm_compute|].
  split; [apply step_work|]. split; [by vm_compute|].
  exists (reload_node 0 (Sample.update 0 "new" Sample.opened1)), (mkTransaction 0 Granted Opened false (Some "old")).
  split; [apply step_reload|]. split; [apply Sample.opened1_tx|]. by vm_compute.
Qed.

(** A transaction that lost its lock is not told: another one of another node
    begins and commits, and then the first one writes over it, and returns only
    the error of its [Unlock]. *)
Definition lost1 : cluster string Sample.store :=
  Sample.update 0 "mine" (set_kv (Sample.mkStore (Some "old") (Some "1") None) Sample.opened1).
Definition other2 : cluster string Sample.store := Sample.commit_all "2" (Sample.update 1 "theirs" (Sample.begun 1 "2" lost1)).

Lemma lost1_fresh : fresh_id "2" lost1.
Proof.
  split; [by vm_compute|]. split; [by vm_compute|]. split; [done|]. intros n. unfold lost1, Sample.update. simpl.
  assert (forall n, Lock (meta (nodes Sample.opened1 n)) <> "2") as Hn.
  { intros n'. unfold Sample.opened1, Sample.begun, reload_node. simpl.
    destruct (decide (n' = 0)) as [->|]; [|by rewrite fn_lookup_insert_ne]. rewrite fn_lookup_insert. by vm_compute. }
  destruct (decide (n = 0)) as [->|]; [rewrite fn_lookup_insert; apply (Hn 0)|rewrite fn_lookup_insert_ne by done; apply Hn].
Qed.

Theorem lost_lock_overwrites :
  rtc (fun c c' => step c c' \/ step_lost c c') Sample.start other2 /\
  commits other2 = [mkCommit "2" (Some "old") "theirs"] /\ Sample.s_object (kv other2) = Some "theirs" /\
  exists t, txs other2 !! "1" = Some t /\ tx_phase t = Opened /\
    Sample.s_object (kv (commit_tx "1" 0 t other2).1) = Some "mine" /\ (commit_tx "1" 0 t other2).2 = Some "Unlock error: not held".
Proof.
  split; [|split; [by vm_compute|split; [by vm_compute|]]].
  2: { exists (mkTransaction 0 Granted Opened false (Some "old")). by vm_compute. }
  etrans; [eapply rtc_subrel; [|apply Sample.opened1_steps]; by left|].
  eapply rtc_l. { right. by apply (lost _ "1" (Sample.mkStore (Some "old") (Some "1") None)). }
  eapply rtc_l. { left. apply (step_work _ 0 (fun _ => "mine")). }
  etrans.
  { eapply (rtc_subrel step); [|apply (Sample.begun_steps 1 "2" lost1 lost1_fresh); done]. by left. }
  eapply rtc_l. { left. apply (step_work _ 1 (fun _ => "theirs")). }
  eapply rtc_l; [|apply rtc_refl]. left. unfold other2, Sample.commit_all.
  assert (txs (Sample.update 1 "theirs" (Sample.begun 1 "2" lost1)) !! "2" = Some (mkTransaction 1 Granted Opened false (Some "old"))) as E by by vm_compute.
  rewrite E. by apply (step_commit _ "2" 0 (mkTransaction 1 Granted Opened false (Some "old"))).
Qed.
