(* ===== verification/Leadership.v ===== *)
(** * [cluster/leadership.go], [job/job.go]: the election of a leader

    A node runs for election with the candidate of a library, which reports on
    one channel when it is elected or demoted and on another when the election
    failed.  The node keeps the last report for [/api/cluster/leader], starts or
    stops the jobs of a leader, and tells its listeners. *)
From S2P Require Import Prelude GoStrings Types OsioProvider.

(** ** Leadership *)

(** What the pool of the leader's jobs is told. *)
Inductive pool_call := PoolStart | PoolStop.

#[export] Instance pool_call_eq_dec : EqDecision pool_call. Proof. solve_decision. Defined.

Section Leadership.
(** The world the listeners work on. *)
Context {W : Type}.

(** A listener is told whether the node was elected; it returns an error or none. *)
Abbreviation LeaderListener := (bool -> M W (option error)).

Record Leadership := mkLeadership {
  leader : bool;
  pool_calls : list pool_call;
  listeners : list LeaderListener;
  resigned : nat;
  world : W;
}.

Definition NewLeadership (w : W) : Leadership := mkLeadership false [] [] 0 w.

Definition AddListener (listener : LeaderListener) (l : Leadership) : Leadership :=
  mkLeadership (leader l) (pool_calls l) (listeners l ++ [listener]) (resigned l) (world l).

(** [l.leader.Set] and [l.Start] or [l.Stop]. *)
Definition set_leader (elected : bool) (l : Leadership) : Leadership :=
  mkLeadership elected (pool_calls l ++ [if elected then PoolStart else PoolStop]) (listeners l) (resigned l) (world l).

Definition Resign (l : Leadership) : Leadership :=
  mkLeadership (leader l) (pool_calls l) (listeners l) (S (resigned l)) (world l).

Definition in_world {A} (m : M W A) : M Leadership A :=
  zoom world (fun w l => mkLeadership (leader l) (pool_calls l) (listeners l) (resigned l) w) m.

(** The loop over the listeners: an error is logged and the next is called. *)
Fixpoint call_listeners (elected : bool) (l : list LeaderListener) : M W unit :=
  match l with
  | [] => mret tt
  | listener :: l => _ ← listener elected; call_listeners elected l
  end.

Definition onElection (elected : bool) : M Leadership unit :=
  _ ← modify_state (set_leader elected);
  l ← get_state;
  in_world (call_listeners elected (listeners l)).

(** What the loop of [run] receives: a report of the election, an error (none
    when the channel is closed), or the end of the context. *)
Inductive event := Elected (elected : bool) | ElectionEnded (err : option error) | CtxDone.

(** [run]: none while it waits for a next event. *)
Fixpoint run (events : list event) : M Leadership (option (option error)) :=
  match events with
  | [] => mret None
  | Elected elected :: events => _ ← onElection elected; run events
  | ElectionEnded err :: _ => mret (Some err)
  | CtxDone :: _ => _ ← modify_state Resign; mret (Some None)
  end.

(** ** Back-off

    [backoff.ExponentialBackOff] gives up when more than [MaxElapsedTime]
    nanoseconds went by since it was started, never when that is zero.
    [job.NewBackOff] makes it zero. *)
Definition gives_up (MaxElapsedTime elapsed : Z) : bool :=
  negb (MaxElapsedTime =? 0)%Z && (MaxElapsedTime <? elapsed)%Z.
Definition DefaultMaxElapsedTime : Z := 15 * 60 * 1000000000.

(** The policy of a job: its [MaxElapsedTime], and the time it was last reset. *)
Record BackOff := mkBackOff { bo_MaxElapsedTime : Z; bo_MinJobInterval : Z; bo_start : Z }.
Definition defaultMinJobInterval : Z := 30 * 1000000000.
Definition NewBackOff (now : Z) : BackOff := mkBackOff 0 defaultMinJobInterval now.

(** [NextBackOff] at the time [now]: the policy after it, and whether it gives up. *)
Definition NextBackOff (now : Z) (b : BackOff) : BackOff * bool :=
  let b := if (bo_MinJobInterval b <=? now - bo_start b)%Z then mkBackOff (bo_MaxElapsedTime b) (bo_MinJobInterval b) now else b in
  (b, gives_up (bo_MaxElapsedTime b) (now - bo_start b)).

(** [Participate]: the attempts, each with its events and the time at which it
    ends, counted from the start.  The policy is the plain one; what it answers
    is the attempts that are left. *)
Fixpoint Participate (attempts : list (list event * Z)) : M Leadership (list (list event * Z)) :=
  match attempts with
  | [] => mret []
  | (events, elapsed) :: attempts =>
      r ← OperationWithRecover (run events);
      match r with
      | Some (Some _) => if gives_up DefaultMaxElapsedTime elapsed then mret attempts else Participate attempts
      | _ => mret attempts
      end
  end.

(** ** The route *)

Definition IsLeader (l : Leadership) : bool := leader l.

(** The status and the field of the JSON answer. *)
Definition getLeaderHandler (l : Leadership) : Z * bool :=
  (if IsLeader l then 200%Z else 429%Z, IsLeader l).

(** ** Theorems *)

(** A listener that returns. *)
Definition returns (f : LeaderListener) : Prop := forall b w, exists e w', f b w = (Ret e, w').

Lemma call_listeners_ret b l w : Forall returns l -> exists w', call_listeners b l w = (Ret tt, w').
Proof.
  intros Hl. revert w. induction Hl as [|f l Hf _ IH]; intros w; [by exists w|]. simpl.
  destruct (Hf b w) as (e & w' & E). unfold mbind, M_bind. rewrite E. apply IH.
Qed.

Definition elections (events : list event) : list bool :=
  omap (fun e => match e with Elected b => Some b | _ => None end) events.

Lemma run_elected_cons b events l : Forall returns (listeners l) -> exists w,
  run (Elected b :: events) l =
  run events (mkLeadership b (pool_calls l ++ [if b then PoolStart else PoolStop]) (listeners l) (resigned l) w).
Proof.
  intros Hl. destruct (call_listeners_ret b (listeners l) (world l) Hl) as [w E]. exists w.
  simpl. unfold onElection, in_world, zoom, get_state, modify_state, mbind, M_bind. simpl. by rewrite E.
Qed.

(** Whatever was reported: the node holds what was reported last, the jobs were
    started and stopped as often as it was elected and demoted, in that order,
    and its answer is 200 when it leads and 429 when it does not, so that a load
    balancer in front follows the leader. *)
Theorem leader_follows_election (bs : list bool) l : Forall returns (listeners l) -> exists l',
  run (map Elected bs) l = (Ret None, l') /\
  IsLeader l' = foldl (fun _ b => b) (IsLeader l) bs /\
  pool_calls l' = pool_calls l ++ map (fun b : bool => if b then PoolStart else PoolStop) bs /\
  getLeaderHandler l' = (if foldl (fun _ b => b) (IsLeader l) bs then (200, true) else (429, false))%Z.
Proof.
  assert (forall l0, getLeaderHandler l0 = (if IsLeader l0 then (200, true) else (429, false))%Z) as Hg.
  { intros l0. unfold getLeaderHandler. by destruct (IsLeader l0). }
  revert l. induction bs as [|b bs IH]; intros l Hl.
  - exists l. rewrite app_nil_r. simpl. auto.
  - destruct (run_elected_cons b (map Elected bs) l Hl) as [w E]. simpl map. rewrite E.
    destruct (IH (mkLeadership b (pool_calls l ++ [if b then PoolStart else PoolStop]) (listeners l) (resigned l) w) Hl)
      as (l' & Hr & Hi & Hp & _). exists l'. split; [done|]. split; [done|].
    split; [|by rewrite Hg, Hi]. rewrite Hp. simpl. by rewrite <- app_assoc.
Qed.

(** Every listener hears of an election, the errors of those before it
    notwithstanding. *)
Theorem listeners_all_called (b : bool) l (f : LeaderListener) l1 l2 : listeners l = l1 ++ f :: l2 -> Forall returns (listeners l) ->
  exists w w', call_listeners b l1 (world l) = (Ret tt, w) /\
    (_ ← f b; call_listeners b l2) w = (Ret tt, w') /\ world (onElection b l).2 = w'.
Proof.
  intros El Hall. rewrite El in Hall. apply Forall_app in Hall as [H1 H2].
  destruct (call_listeners_ret b l1 (world l) H1) as [w E1]. destruct (call_listeners_ret b (f :: l2) w H2) as [w' E2].
  exists w, w'. split; [done|]. split; [done|]. unfold onElection, in_world, zoom, get_state, modify_state, mbind, M_bind. simpl.
  assert (call_listeners b (listeners l) (world l) = (Ret tt, w')) as ->; [|done].
  rewrite El. clear -E1 E2. revert E1. generalize (world l). induction l1 as [|g l1 IH]; intros w0; simpl.
  - intros [= ->]. apply E2.
  - unfold mbind, M_bind. destruct (g b w0) as [[?|?|?] w1]; [apply IH|done..].
Qed.

(** The end of the context resigns and reports nothing: a leader keeps answering
    that it leads, and its jobs go on. *)
Theorem ended_still_leads l : run [CtxDone] l = (Ret (Some None), Resign l) /\ IsLeader (Resign l) = IsLeader l /\
  pool_calls (Resign l) = pool_calls l.
Proof. done. Qed.

(** The policy of [Participate] is never reset: an error of the election that comes
    more than fifteen minutes after the start ends the node's part in it, and
    what would have been reported later is never seen.  Before that it tries
    again. *)
Theorem late_error_ends_participation (bs : list bool) err elapsed attempts l : Forall returns (listeners l) -> exists l',
  run (map Elected bs ++ [ElectionEnded (Some err)]) l = (Ret (Some (Some err)), l') /\
  Participate ((map Elected bs ++ [ElectionEnded (Some err)], elapsed) :: attempts) l =
    (if (DefaultMaxElapsedTime <? elapsed)%Z then (Ret attempts, l') else Participate attempts l').
Proof.
  intros Hl. assert (exists l', run (map Elected bs ++ [ElectionEnded (Some err)]) l = (Ret (Some (Some err)), l')) as [l' E].
  { revert l Hl. induction bs as [|b bs IH]; intros l Hl; [by exists l|].
    destruct (run_elected_cons b (map Elected bs ++ [ElectionEnded (Some err)]) l Hl) as [w E]. simpl map. simpl app. rewrite E. by apply IH. }
  exists l'. split; [done|]. simpl. unfold OperationWithRecover, mbind, M_bind. rewrite E. unfold gives_up.
  assert ((DefaultMaxElapsedTime =? 0)%Z = false) as -> by done. simpl. by destruct (_ <? _)%Z.
Qed.

(** The policy of a job, which the providers retry with, never gives up. *)
Theorem job_never_gives_up now (times : list Z) :
  Forall (fun g => g = false) (snd (foldl (fun x t => let '(b, g) := NextBackOff t x.1 in (b, x.2 ++ [g])) (NewBackOff now, []) times)).
Proof.
  assert (forall b l, bo_MaxElapsedTime b = 0%Z -> Forall (fun g => g = false) l ->
    Forall (fun g => g = false) (snd (foldl (fun x t => let '(b, g) := NextBackOff t x.1 in (b, x.2 ++ [g])) (b, l) times))) as H.
  { induction times as [|t times IH]; intros b l Hb Hl; [done|]. simpl. apply IH.
    - by case_match.
    - apply Forall_app. split; [done|]. apply Forall_singleton. case_match; unfold gives_up; simpl; by rewrite Hb. }
  by apply H.
Qed.

End Leadership.
Arguments Leadership W : clear implicits.

(** Elected, demoted and elected again. *)
Definition noop_listener : bool -> M nat (option error) := fun _ n => (Ret (Some "ignored"), S n).

Lemma noop_returns : Forall returns [noop_listener].
Proof. apply Forall_singleton. intros b w. eauto. Qed.

Lemma leader_follows_election_witness : exists l',
  run (map Elected [true; false; true]) (AddListener noop_listener (NewLeadership 0)) = (Ret None, l') /\ IsLeader l' = true /\ world l' = 3.
Proof.
  destruct (leader_follows_election [true; false; true] (AddListener noop_listener (NewLeadership 0)) noop_returns) as (l' & E & Hl & _).
  exists l'. split; [done|]. split; [done|]. change (world l') with (world (@Ret nat 0, l').2). by vm_compute in E; simplify_eq.
Defined.
