(* ===== verification/AcmeAccount.v ===== *)
(** * [acme/account.go], [challenge_http_provider.go]: the account a cluster shares

    The account of the ACME server, the certificates obtained with it and the
    challenges being answered, as one object of the key-value store.  The
    certificates are a list of pointers: each entry here carries the name of
    the cell it is in, and its certificate the name of the structure it is, so
    that what compares pointers can be told from what compares contents. *)
From S2P Require Import Prelude GoStrings GoStringsFacts Types Domains AcmeDomains AcmeStore.

(** ** Data *)

(** [tls.Certificate]: the chain, and the end of validity of the parsed leaf. *)
Record tls_certificate := mkTls { tls_chain : list string; tls_Leaf : option Z }.

(** [crypto/tls] and [crypto/x509]: a pair that loads has a chain and no parsed
    leaf; a certificate parses to the end of its validity. *)
Class TlsLib := {
  X509KeyPair : string -> string -> result tls_certificate;
  ParseCertificate : string -> result Z;
}.

(** [Certificate] of this package, with the name of its structure. *)
Record AcmeCertificate := mkAcmeCertificate {
  ac_ptr : nat;
  ac_Domain : string; ac_CertURL : string; ac_CertStableURL : string;
  ac_PrivateKey : string; ac_Certificate : string;
}.

Record DomainsCertificate := mkDomainsCertificate {
  dc_cell : nat;
  dc_Domains : domain;
  dc_Certificate : option AcmeCertificate;
  dc_tlsCert : option tls_certificate;
}.

Record ChallengeCert := mkChallengeCert {
  cc_Certificate : string; cc_PrivateKey : string; cc_certificate : option tls_certificate;
}.

(** [ClusterAccount] is this package's [Account]; a registration is its URI, and
    the map of challenges may be nil. *)
Record ClusterAccount := mkClusterAccount {
  ca_Email : string;
  ca_Registration : option string;
  ca_PrivateKey : string;
  ca_Certs : list DomainsCertificate;
  ca_ChallengeCerts : gmap string ChallengeCert;
  ca_HTTPChallenge : option (gmap string (gmap string string));
}.

Definition set_Certs (l : list DomainsCertificate) (a : ClusterAccount) : ClusterAccount :=
  mkClusterAccount (ca_Email a) (ca_Registration a) (ca_PrivateKey a) l (ca_ChallengeCerts a) (ca_HTTPChallenge a).
Definition set_HTTPChallenge (h : option (gmap string (gmap string string))) (a : ClusterAccount) : ClusterAccount :=
  mkClusterAccount (ca_Email a) (ca_Registration a) (ca_PrivateKey a) (ca_Certs a) (ca_ChallengeCerts a) h.
Definition set_Registration (r : option string) (a : ClusterAccount) : ClusterAccount :=
  mkClusterAccount (ca_Email a) r (ca_PrivateKey a) (ca_Certs a) (ca_ChallengeCerts a) (ca_HTTPChallenge a).
Definition set_ChallengeCerts (m : gmap string ChallengeCert) (a : ClusterAccount) : ClusterAccount :=
  mkClusterAccount (ca_Email a) (ca_Registration a) (ca_PrivateKey a) (ca_Certs a) m (ca_HTTPChallenge a).

Definition set_tlsCert (t : option tls_certificate) (c : DomainsCertificate) : DomainsCertificate :=
  mkDomainsCertificate (dc_cell c) (dc_Domains c) (dc_Certificate c) t.

Definition account_reset (a : ClusterAccount) : ClusterAccount :=
  mkClusterAccount "" None "" (ca_Certs a) (ca_ChallengeCerts a) (ca_HTTPChallenge a).

Definition RemoveAccountV1Values (a : ClusterAccount) : ClusterAccount :=
  match ca_Registration a with
  | Some uri => if is_v1_registration uri then account_reset a else a
  | None => a
  end.

(** ** The certificates *)

Section Certificates.
Context `{TlsLib}.

Definition NotAfter (c : DomainsCertificate) : Z :=
  match dc_tlsCert c with Some t => default 0%Z (tls_Leaf t) | None => 0%Z end.

(** [Less], on certificates whose leaves are parsed. *)
Definition Less (a b : DomainsCertificate) : bool :=
  let da := dc_Domains a in let db := dc_Domains b in
  if bool_decide (da = db) then (NotAfter b <? NotAfter a)%Z else
  if bool_decide (Main da.1 = Main db.1) then string_lt (join (SANs da.1) ",") (join (SANs db.1) ",")
  else string_lt (Main da.1) (Main db.1).

(** The inner loop deletes what is equal to the entry it is run for. *)
Definition delete_equal (c : DomainsCertificate) (l : list DomainsCertificate) : list DomainsCertificate :=
  filter (fun c' => dc_Domains c' <> dc_Domains c) l.
Fixpoint delete_duplicates (fuel : nat) (l : list DomainsCertificate) : list DomainsCertificate :=
  match fuel, l with
  | S fuel, c :: l => c :: delete_duplicates fuel (delete_equal c l)
  | _, _ => []
  end.

(** [sort.Sort] puts the entries in an order by [Less]; it is not stable. *)
Context (sort_Certs : list DomainsCertificate -> list DomainsCertificate).

Definition removeDuplicates (l : list DomainsCertificate) : list DomainsCertificate :=
  let l := sort_Certs l in delete_duplicates (length l) l.

Definition removeEmpty (l : list DomainsCertificate) : list DomainsCertificate :=
  filter (fun c => match dc_Certificate c with
    | Some cert => nonempty (ac_Certificate cert) && nonempty (ac_PrivateKey cert)
    | None => false
    end = true) l.

(** Loading the pair of one entry and parsing its leaf. *)
Definition load_cert (c : DomainsCertificate) : DomainsCertificate * option error :=
  match dc_Certificate c with
  | None => (c, Some "nil pointer")
  | Some cert =>
      match X509KeyPair (ac_Certificate cert) (ac_PrivateKey cert) with
      | Err err => (c, Some err)
      | Ok t =>
          match tls_Leaf t with
          | Some _ => (set_tlsCert (Some t) c, None)
          | None =>
              match ParseCertificate (hd "" (tls_chain t)) with
              | Err err => (set_tlsCert (Some t) c, Some err)
              | Ok leaf => (set_tlsCert (Some (mkTls (tls_chain t) (Some leaf))) c, None)
              end
          end
      end
  end.
Fixpoint load_certs (l : list DomainsCertificate) : list DomainsCertificate * option error :=
  match l with
  | [] => ([], None)
  | c :: l =>
      match load_cert c with
      | (c, Some err) => (c :: l, Some err)
      | (c, None) => let '(l, err) := load_certs l in (c :: l, err)
      end
  end.

Definition DomainsCertificates_Init (l : list DomainsCertificate) : list DomainsCertificate * option error :=
  match load_certs (removeEmpty l) with
  | (l, Some err) => (l, Some err)
  | (l, None) => (removeDuplicates l, None)
  end.

(** The first entry of these domains gets the certificate, if it loads. *)
Fixpoint DomainsCertificates_renewCertificates (acmeCert : AcmeCertificate) (d : domain) (l : list DomainsCertificate) :
    list DomainsCertificate * option error :=
  match l with
  | [] => ([], Some ("certificate to renew not found for domain " +:+ Main d.1))
  | c :: l =>
      if bool_decide (d = dc_Domains c) then
        match X509KeyPair (ac_Certificate acmeCert) (ac_PrivateKey acmeCert) with
        | Err err => (c :: l, Some err)
        | Ok t => (mkDomainsCertificate (dc_cell c) (dc_Domains c) (Some acmeCert) (Some t) :: l, None)
        end
      else let '(l, err) := DomainsCertificates_renewCertificates acmeCert d l in (c :: l, err)
  end.

(** [cell] is the cell of the new entry. *)
Definition addCertificateForDomains (cell : nat) (acmeCert : AcmeCertificate) (d : domain) (l : list DomainsCertificate) :
    list DomainsCertificate * result DomainsCertificate :=
  match X509KeyPair (ac_Certificate acmeCert) (ac_PrivateKey acmeCert) with
  | Err err => (l, Err err)
  | Ok t => let c := mkDomainsCertificate cell d (Some acmeCert) (Some t) in (l ++ [c], Ok c)
  end.

(** A name of an entry answers for a host name: a wildcard by matching it. *)
Definition answers_for (domainToFind : string) (name : string) : bool :=
  (has_prefix name "*." && MatchDomain domainToFind name) || bool_decide (name = domainToFind).

Definition getCertificateForDomain (domainToFind : string) (l : list DomainsCertificate) : option DomainsCertificate :=
  List.find (fun c => existsb (answers_for domainToFind) (ToStrArray (dc_Domains c).1)) l.

Definition domains_exist (domainToFind : domain) (l : list DomainsCertificate) : option DomainsCertificate :=
  List.find (fun c => bool_decide (domainToFind = dc_Domains c)) l.

(** [toDomainsMap] sorts the alternative names of every entry in place; a key is
    the main name and the alternative ones that differ from it. *)
Definition sort_strings (l : list string) : list string := merge_sort string_le l.

Definition sort_SANs (c : DomainsCertificate) : DomainsCertificate :=
  mkDomainsCertificate (dc_cell c) (mkDomain (Main (dc_Domains c).1) (sort_strings (SANs (dc_Domains c).1)), (dc_Domains c).2)
    (dc_Certificate c) (dc_tlsCert c).

Definition certKey (d : Domain) : string :=
  foldl (fun key dnsName => if bool_decide (dnsName = Main d) then key else key +:+ "," +:+ dnsName) (Main d) (SANs d).

Definition toDomainsMap (l : list DomainsCertificate) : list DomainsCertificate * gmap string (option tls_certificate) :=
  let l := map sort_SANs l in
  (l, foldl (fun m c => <[certKey (dc_Domains c).1 := dc_tlsCert c]> m) ∅ l).

(** A certificate of the chain that does not parse needs renewal; a certificate
    that was never loaded makes it panic. *)
Definition month_seconds : Z := 24 * 30 * 3600.
Definition needRenew (now : Z) (c : DomainsCertificate) : outcome bool :=
  match dc_tlsCert c with
  | None => Panic "runtime error: invalid memory address or nil pointer dereference"
  | Some t => Ret (existsb (fun der => match ParseCertificate der with
      | Err _ => true
      | Ok notAfter => (notAfter <? now + month_seconds)%Z
      end) (tls_chain t))
  end.

(** ** The account *)

Section Account.
Context `{order : MapOrder}.

Definition load_challenge (cc : ChallengeCert) : ChallengeCert * option error :=
  let '(t, err) := match cc_certificate cc with
    | Some t => (Some t, None)
    | None => match X509KeyPair (cc_Certificate cc) (cc_PrivateKey cc) with Err err => (None, Some err) | Ok t => (Some t, None) end
    end in
  match t, err with
  | Some t, None =>
      match tls_Leaf t with
      | Some _ => (mkChallengeCert (cc_Certificate cc) (cc_PrivateKey cc) (Some t), None)
      | None =>
          match ParseCertificate (hd "" (tls_chain t)) with
          | Err err => (mkChallengeCert (cc_Certificate cc) (cc_PrivateKey cc) (Some t), Some err)
          | Ok leaf => (mkChallengeCert (cc_Certificate cc) (cc_PrivateKey cc) (Some (mkTls (tls_chain t) (Some leaf))), None)
          end
      end
  | _, err => (cc, err)
  end.

(** The loop over the map, which ends at the first error. *)
Fixpoint load_challenges (keys : list (string * ChallengeCert)) (m : gmap string ChallengeCert) :
    gmap string ChallengeCert * option error :=
  match keys with
  | [] => (m, None)
  | (k, cc) :: keys =>
      match load_challenge cc with
      | (cc, Some err) => (<[k := cc]> m, Some err)
      | (cc, None) => load_challenges keys (<[k := cc]> m)
      end
  end.

Definition Account_Init (a : ClusterAccount) : ClusterAccount * option error :=
  match DomainsCertificates_Init (ca_Certs a) with
  | (l, Some err) => (set_Certs l a, Some err)
  | (l, None) =>
      let a := RemoveAccountV1Values (set_Certs l a) in
      let '(m, err) := load_challenges (range (ca_ChallengeCerts a)) (ca_ChallengeCerts a) in
      (set_ChallengeCerts m a, err)
  end.

(** [generated] is what [rsa.GenerateKey] gave. *)
Definition ClusterAccount_New (generated : result string) (email : string) (certs : list DomainsCertificate) : result ClusterAccount :=
  match generated with
  | Err err => Err err
  | Ok privateKey =>
      match DomainsCertificates_Init certs with
      | (_, Some err) => Err err
      | (l, None) => Ok (mkClusterAccount email None privateKey l ∅ None)
      end
  end.
End Account.
End Certificates.

(** ** Challenges of the account *)

(** What [Present] and [CleanUp] do to the account between [Begin] and [Commit]. *)
Definition account_present (domain token keyAuth : string) (a : ClusterAccount) : ClusterAccount :=
  let h := default ∅ (ca_HTTPChallenge a) in
  set_HTTPChallenge (Some (<[token := <[domain := keyAuth]> (default ∅ (h !! token))]> h)) a.

Definition account_cleanup (domain token : string) (a : ClusterAccount) : ClusterAccount :=
  match ca_HTTPChallenge a ≫= fun h => h !! token with
  | None => a
  | Some m =>
      let h := default ∅ (ca_HTTPChallenge a) in
      let m := delete domain m in
      set_HTTPChallenge (Some (if bool_decide (size m = 0) then delete token h else <[token := m]> h)) a
  end.

(** [encoding/json] reads an object into a map that is there by setting the keys
    it has: those the map had stay.  A null makes it nil. *)
Definition merge_challenges (read : option (gmap string (gmap string string))) (old : option (gmap string (gmap string string))) :
    option (gmap string (gmap string string)) :=
  match read with
  | None => None
  | Some new => Some (new ∪ default ∅ old)
  end.

(** * Facts: what becomes of the certificates and the challenges

    Duplicates go and the longest-lived stay, initialising leaves every entry
    loaded, a certificate is found for the names it was asked for; sorting the
    alternative names loses a certificate to its own domain, and a challenge
    that was cleaned up on one node comes back from another. *)

Section Facts.
Context `{TlsLib} (sort_Certs : list DomainsCertificate -> list DomainsCertificate).

(** ** Duplicates *)

Lemma delete_equal_in c c' l : c' ∈ delete_equal c l <-> dc_Domains c' <> dc_Domains c /\ c' ∈ l.
Proof. unfold delete_equal. by rewrite list_elem_of_filter. Qed.

Lemma delete_equal_length c l : length (delete_equal c l) <= length l.
Proof. unfold delete_equal. apply length_filter. Qed.

Lemma StronglySorted_filter {A} (R : A -> A -> Prop) (P : A -> Prop) `{forall x, Decision (P x)} l :
  StronglySorted R l -> StronglySorted R (filter P l).
Proof.
  induction 1 as [|a l Hs IH Ha]; [constructor|]. rewrite filter_cons. case_decide; [|done]. constructor; [done|].
  apply Forall_forall. intros x Hx. apply list_elem_of_filter in Hx as [_ Hx]. rewrite Forall_forall in Ha. by apply Ha.
Qed.

Lemma delete_duplicates_in n l c : c ∈ delete_duplicates n l -> c ∈ l.
Proof.
  revert l. induction n as [|n IH]; intros [|c0 l]; simpl; try (by intros ?%elem_of_nil).
  intros [->|Hc]%elem_of_cons; [by left|]. right. apply IH in Hc. by apply delete_equal_in in Hc as [_ ?].
Qed.

Lemma delete_duplicates_nodup n l : NoDup (map dc_Domains (delete_duplicates n l)).
Proof.
  revert l. induction n as [|n IH]; intros [|c l]; simpl; [apply NoDup_nil_2..|]. apply NoDup_cons. split; [|apply IH].
  intros (c' & E & Hin%delete_duplicates_in)%list_elem_of_fmap. apply delete_equal_in in Hin as [Hne _]. by apply Hne.
Qed.

(** The first entry of every domain is left. *)
Lemma delete_duplicates_first n l c (R : DomainsCertificate -> DomainsCertificate -> Prop) :
  length l <= n -> StronglySorted R l -> c ∈ l ->
  exists c', c' ∈ delete_duplicates n l /\ dc_Domains c' = dc_Domains c /\ (c' = c \/ R c' c).
Proof.
  revert l. induction n as [|n IH]; intros [|c0 l] Hn Hs Hc; simpl in Hn; try lia; [by apply elem_of_nil in Hc..|].
  simpl. inversion_clear Hs as [|? ? Hs' Hall]. apply elem_of_cons in Hc as [->|Hc]; [exists c0; split; [by left|auto]|].
  destruct (decide (dc_Domains c = dc_Domains c0)) as [E|E].
  - exists c0. split; [by left|]. split; [done|]. right. rewrite Forall_forall in Hall. by apply Hall.
  - destruct (IH (delete_equal c0 l)) as (c' & Hc' & Hrest).
    + pose proof (delete_equal_length c0 l). lia.
    + by apply StronglySorted_filter.
    + by apply delete_equal_in.
    + exists c'. split; [by right|done].
Qed.

(** What is left has every domain once, none is lost and none is invented. *)
Lemma removeDuplicates_domains (l : list DomainsCertificate) : sort_Certs l ≡ₚ l ->
  NoDup (map dc_Domains (removeDuplicates sort_Certs l)) /\
  (forall c, c ∈ removeDuplicates sort_Certs l -> c ∈ l) /\
  (forall c, c ∈ l -> exists c', c' ∈ removeDuplicates sort_Certs l /\ dc_Domains c' = dc_Domains c).
Proof.
  intros Hp. unfold removeDuplicates. split; [apply delete_duplicates_nodup|]. split.
  - intros c Hc%delete_duplicates_in. by rewrite <- Hp.
  - intros c Hc. rewrite <- Hp in Hc.
    destruct (delete_duplicates_first (length (sort_Certs l)) (sort_Certs l) c (fun _ _ => True)) as (c' & H1 & H2 & _); [done| |done|by exists c'].
    clear. induction (sort_Certs l); constructor; [done|]. by apply Forall_true.
Qed.

(** When a list of certificates is cleared of the domains it has twice, no
    domain is lost and none is invented, every one is left once, and the
    certificate left of each is the one that is valid longest, when the entries
    were sorted by [Less]. *)
Theorem removeDuplicates_keeps_longest (l : list DomainsCertificate) : sort_Certs l ≡ₚ l ->
  NoDup (map dc_Domains (removeDuplicates sort_Certs l)) /\
  (forall d, d ∈ map dc_Domains (removeDuplicates sort_Certs l) <-> d ∈ map dc_Domains l) /\
  (StronglySorted (fun a b => Less b a = false) (sort_Certs l) ->
   forall c c', c ∈ l -> c' ∈ removeDuplicates sort_Certs l -> dc_Domains c' = dc_Domains c -> (NotAfter c <= NotAfter c')%Z).
Proof.
  intros Hp. destruct (removeDuplicates_domains l Hp) as (Hnd & Hsub & Hall). split; [done|]. split.
  - intros d. split; intros (c & -> & Hc)%list_elem_of_fmap; apply list_elem_of_fmap; [|destruct (Hall c Hc) as (c' & ? & <-)]; eauto.
  - intros Hs c c' Hc Hc' E. rewrite <- Hp in Hc.
    destruct (delete_duplicates_first (length (sort_Certs l)) (sort_Certs l) c _ (le_n _) Hs Hc) as (c'' & Hin & E' & HR).
    assert (c'' = c') as -> by (eapply (NoDup_map_inj dc_Domains); [exact Hnd|done|done|congruence]).
    destruct HR as [->|HR]; [lia|]. unfold Less in HR. rewrite bool_decide_eq_true_2 in HR by done. lia.
Qed.

(** ** Initialising *)

Definition loaded (c : DomainsCertificate) : Prop := exists t leaf, dc_tlsCert c = Some t /\ tls_Leaf t = Some leaf.

Lemma load_cert_ok c c' : load_cert c = (c', None) -> loaded c' /\ dc_Domains c' = dc_Domains c /\ dc_cell c' = dc_cell c /\ dc_Certificate c' = dc_Certificate c.
Proof.
  unfold load_cert. destruct (dc_Certificate c) as [cert|] eqn:Ec; [|done]. destruct (X509KeyPair _ _) as [t|e]; [|done].
  destruct (tls_Leaf t) as [leaf|] eqn:El.
  - intros [= <-]. simpl. split; [by exists t, leaf|done].
  - destruct (ParseCertificate _) as [leaf|e]; [|done]. intros [= <-]. simpl. split; [by eexists _, leaf|done].
Qed.

Lemma load_certs_ok l l' : load_certs l = (l', None) ->
  Forall loaded l' /\ map dc_Domains l' = map dc_Domains l /\ map dc_cell l' = map dc_cell l.
Proof.
  revert l'. induction l as [|c l IH]; intros l'; simpl; [by intros [= <-]|].
  destruct (load_cert c) as [c' [e|]] eqn:Ec; [done|]. destruct (load_certs l) as [l'' [e|]] eqn:El; [done|]. intros [= <-].
  destruct (IH l'' eq_refl) as (H1 & H2 & H3). apply load_cert_ok in Ec as (H4 & H5 & H6 & _). simpl.
  split; [by constructor|]. by rewrite H2, H3, H5, H6.
Qed.

Lemma removeEmpty_in l c : c ∈ removeEmpty l -> exists cert, dc_Certificate c = Some cert /\ ac_Certificate cert <> "" /\ ac_PrivateKey cert <> "".
Proof.
  unfold removeEmpty. intros [Hc _]%list_elem_of_filter. destruct (dc_Certificate c) as [cert|]; [|done].
  unfold nonempty in Hc. bool_simpl. by exists cert.
Qed.

(** After an initialisation that succeeds every entry can be served, has a leaf to
    compare, and no domain is there twice. *)
Theorem Init_loads (l l' : list DomainsCertificate) : (forall l, sort_Certs l ≡ₚ l) ->
  DomainsCertificates_Init sort_Certs l = (l', None) ->
  Forall loaded l' /\ NoDup (map dc_Domains l') /\
  (forall d, d ∈ map dc_Domains l' <-> d ∈ map dc_Domains (removeEmpty l)).
Proof.
  intros Hp. unfold DomainsCertificates_Init. destruct (load_certs (removeEmpty l)) as [l1 [e|]] eqn:El; [done|]. intros [= <-].
  apply load_certs_ok in El as (Hl & Hd & _). destruct (removeDuplicates_domains l1 (Hp l1)) as (Hnd & Hsub & Hall).
  split; [|split; [done|]].
  - apply Forall_forall. intros c Hc%Hsub. rewrite Forall_forall in Hl. by apply Hl.
  - intros d. rewrite <- Hd. split; intros (c & -> & Hc)%list_elem_of_fmap.
    + apply list_elem_of_fmap. exists c. auto.
    + destruct (Hall c Hc) as (c' & Hc' & <-). apply list_elem_of_fmap. by exists c'.
Qed.

(** ** Finding certificates *)

(** A certificate that was added is found for each of its names, unless an entry
    before it answers for the name. *)
Theorem added_certificate_found cell cert d l l' c n : addCertificateForDomains cell cert d l = (l', Ok c) ->
  n ∈ ToStrArray d.1 ->
  domains_exist d l' <> None /\
  (getCertificateForDomain n l = None -> getCertificateForDomain n l' = Some c).
Proof.
  unfold addCertificateForDomains. destruct (X509KeyPair _ _) as [t|]; [|done]. intros [= <- <-] Hn. split.
  - unfold domains_exist. induction l as [|c l IH]; simpl; [by rewrite bool_decide_eq_true_2|]. by case_bool_decide.
  - unfold getCertificateForDomain. induction l as [|c l IH]; simpl.
    + intros _. assert (existsb (answers_for n) (ToStrArray d.1) = true) as ->; [|done].
      apply existsb_exists. exists n. split; [by apply list_elem_of_In|]. unfold answers_for.
      rewrite (bool_decide_eq_true_2 (n = n)) by done. by rewrite orb_true_r.
    + destruct (existsb _ _); [done|]. apply IH.
Qed.

(** A renewal replaces the certificate of the first entry of the domain, in its
    place, and touches no other entry. *)
Theorem renewCertificates_spec cert d (l : list DomainsCertificate) :
  match DomainsCertificates_renewCertificates cert d l with
  | (l', None) => exists l1 c l2 t, l = l1 ++ c :: l2 /\ dc_Domains c = d /\ Forall (fun c => dc_Domains c <> d) l1 /\
      X509KeyPair (ac_Certificate cert) (ac_PrivateKey cert) = Ok t /\
      l' = l1 ++ mkDomainsCertificate (dc_cell c) d (Some cert) (Some t) :: l2
  | (l', Some _) => l' = l
  end.
Proof.
  induction l as [|c l IH]; simpl; [done|]. case_bool_decide as E.
  - destruct (X509KeyPair _ _) as [t|] eqn:Et; [|done]. exists [], c, l, t. subst d. by split_and!.
  - destruct (DomainsCertificates_renewCertificates cert d l) as [l' [e|]]; [by subst|].
    destruct IH as (l1 & c0 & l2 & t & -> & Hd & Hf & Ht & ->). exists (c :: l1), c0, l2, t. split_and!; try done. constructor; [congruence|done].
Qed.

(** ** Alternative names out of order *)

Lemma sort_SANs_domains c : (dc_Domains (sort_SANs c)).1 = mkDomain (Main (dc_Domains c).1) (sort_strings (SANs (dc_Domains c).1)).
Proof. done. Qed.

(** Looking for the names that have a certificate sorts the alternative names of
    the entries: a domain whose alternative names are configured in another
    order is not found any more, although its certificate is there. *)
Theorem sorting_loses_domain (c : DomainsCertificate) :
  domains_exist (dc_Domains c) [c] = Some c /\
  (sort_strings (SANs (dc_Domains c).1) <> SANs (dc_Domains c).1 -> domains_exist (dc_Domains c) (toDomainsMap [c]).1 = None).
Proof.
  unfold domains_exist. split; simpl; [by rewrite bool_decide_eq_true_2|]. intros Hne.
  rewrite bool_decide_eq_false_2; [done|]. intros E. apply Hne. rewrite E at 2. done.
Qed.

End Facts.

(** ** Challenges between nodes *)

(** What [CleanUp] takes away, and nothing else. *)
Lemma account_cleanup_challenge domain token a token' domain' :
  challenge (default ∅ (ca_HTTPChallenge (account_cleanup domain token a))) token' domain' =
  if decide ((token', domain') = (token, domain)) then None else challenge (default ∅ (ca_HTTPChallenge a)) token' domain'.
Proof.
  unfold account_cleanup. destruct (ca_HTTPChallenge a ≫= fun h => h !! token) as [m|] eqn:E.
  - destruct (ca_HTTPChallenge a) as [h|]; [|done]. simpl in *. by apply challenge_clean.
  - case_decide as Ed; [|done]. injection Ed as -> ->. unfold challenge. destruct (ca_HTTPChallenge a) as [h|]; simpl in *; by rewrite ?E, ?lookup_empty.
Qed.

Lemma account_present_challenge domain token keyAuth a token' domain' :
  challenge (default ∅ (ca_HTTPChallenge (account_present domain token keyAuth a))) token' domain' =
  if decide ((token', domain') = (token, domain)) then Some keyAuth else challenge (default ∅ (ca_HTTPChallenge a)) token' domain'.
Proof. unfold account_present. simpl. apply challenge_present. Qed.

(** A challenge that one node has cleaned up, so that the stored account does not
    have it, stays in the account of a node that had read it: its next reload
    keeps it, and what it presents next, it commits with it. *)
Theorem cleanup_undone domain token keyAuth a b domain' token' keyAuth' :
  challenge (default ∅ (ca_HTTPChallenge b)) token domain = Some keyAuth -> token' <> token ->
  challenge (default ∅ (ca_HTTPChallenge a)) token domain = Some keyAuth ->
  (forall d, d <> domain -> challenge (default ∅ (ca_HTTPChallenge a)) token d = None) ->
  let stored := ca_HTTPChallenge (account_cleanup domain token a) in
  challenge (default ∅ stored) token domain = None /\
  let b' := set_HTTPChallenge (merge_challenges stored (ca_HTTPChallenge b)) b in
  challenge (default ∅ (ca_HTTPChallenge b')) token domain = Some keyAuth /\
  challenge (default ∅ (ca_HTTPChallenge (account_present domain' token' keyAuth' b'))) token domain = Some keyAuth.
Proof.
  intros Hb Ht Ha Hother stored. split; [unfold stored; rewrite account_cleanup_challenge; by rewrite decide_True|].
  intros b'. assert (challenge (default ∅ (ca_HTTPChallenge b')) token domain = Some keyAuth) as Hkept.
  { unfold b', stored, account_cleanup. unfold challenge in Ha, Hother. destruct (ca_HTTPChallenge a) as [h|] eqn:Eh; simpl in *; [|done].
    destruct (h !! token) as [m|] eqn:Em; simpl in *; [|done]. unfold challenge. simpl.
    assert (delete domain m = ∅) as ->.
    { apply map_eq. intros d. rewrite lookup_empty. destruct (decide (d = domain)) as [->|]; [by rewrite lookup_delete_eq|].
      rewrite lookup_delete_ne by done. by apply Hother. }
    rewrite bool_decide_eq_true_2 by apply map_size_empty. simpl.
    rewrite lookup_union_r by apply lookup_delete_eq. exact Hb. }
  split; [done|]. rewrite account_present_challenge, decide_False; [done|congruence].
Qed.

(** A renewed certificate takes the place of the one it renews. *)
Lemma removeDuplicates_keeps_longest_witness :
  let cert e := mkDomainsCertificate 0 (domain_of ["a.com"]) None (Some (mkTls [] (Some e))) in
  removeDuplicates id [cert 9%Z; cert 3%Z] = [cert 9%Z] /\ (NotAfter (cert 3%Z) <= NotAfter (cert 9%Z))%Z.
Proof.
  intros cert. split; [reflexivity|].
  apply (removeDuplicates_keeps_longest id [cert 9%Z; cert 3%Z]); [reflexivity| |by right; left|by left|reflexivity].
  repeat constructor.
Defined.
