(* ===== verification/AcmeCluster.v ===== *)
(** * [acme/acme.go]: certificates of a cluster

    The leader of a cluster asks for certificates and renews them; all nodes
    serve them from the account in the key-value store.  What is done to the
    account goes through the pointer the store hands out, so it is visible on
    the node before it is committed.  The store, the ACME library and TLS are
    parameters. *)
From S2P Require Import Prelude GoStrings GoStringsFacts OsioClient Types TypesFacts Domains GoNet GlobalConfig AcmeDomains AcmeStore AcmeAccount.

(** ** Parameters *)

(** [cluster.Store] with an account in it: the account the pointer of [Get]
    points to, changing it through the pointer, and the transactions. *)
Class AccountStore (S : Type) := {
  store_Get : S -> ClusterAccount;
  store_work : ClusterAccount -> S -> S;
  store_Load : M S (option error);
  store_Begin : M S (result nat);
  store_Commit : nat -> ClusterAccount -> M S (option error);
}.

(** [acme.CertificateResource] *)
Record CertificateResource := mkCertificateResource {
  cr_Domain : string; cr_CertURL : string; cr_CertStableURL : string; cr_PrivateKey : string; cr_Certificate : string;
}.

(** [github.com/xenolf/lego/acme]. *)
Class LegoLib (W : Type) := {
  lego_GenerateKey : M W (result string);
  lego_NewClient : string -> ClusterAccount -> M W (result unit);
  lego_Register : M W (result string);
  lego_DNSProvider : string -> M W (result unit);
  lego_SetChallengeProvider : bool -> M W (option error); (* DNS-01, or else HTTP-01 *)
  lego_Obtain : list string -> M W (result CertificateResource);
  lego_Renew : CertificateResource -> M W (result CertificateResource);
}.

(** ** Domains *)

(** The names [domain] takes care of: its main name, and its alternative names
    as one key. *)
Definition domain_keys (d : Domain) : list string :=
  Main d :: match SANs d with [] => [] | sans => [join sans ","] end.

Definition unnecessary_name (idxDomainToCheck idxDomain : nat) (domain : Domain) (domainProcessed : string) : bool :=
  (bool_decide (idxDomain < idxDomainToCheck) && isDomainAlreadyChecked domainProcessed (domain_keys domain)) ||
  (negb (bool_decide (Main domain = domainProcessed)) && has_prefix (Main domain) "*" && MatchDomain domainProcessed (Main domain)).

Fixpoint shrink_domain (idxDomainToCheck idxDomain : nat) (domains : list domain) (domainToCheck : domain) : option domain :=
  match domains with
  | [] => Some domainToCheck
  | domain :: domains =>
      if bool_decide (idxDomainToCheck = idxDomain) then shrink_domain idxDomainToCheck (S idxDomain) domains domainToCheck else
      if bool_decide (domain = domainToCheck) then
        if bool_decide (idxDomain < idxDomainToCheck) then None else Some domainToCheck
      else
        match filter (fun name => unnecessary_name idxDomainToCheck idxDomain domain.1 name = false) (ToStrArray domainToCheck.1) with
        | [] => None
        | newDomainsToCheck => shrink_domain idxDomainToCheck (S idxDomain) domains (domain_Set domainToCheck newDomainsToCheck)
        end
  end.

Definition cluster_deleteUnnecessaryDomains (domains : list domain) : list domain :=
  omap (fun id => shrink_domain id.1 0 domains id.2) (imap pair domains).

(** [dns] tells whether a DNS challenge or a DNS provider is configured. *)
Definition cluster_getValidDomains (dns : bool) (domains : list string) (wildcardAllowed : bool) : result (list string) :=
  let all := join domains "," in
  match domains with
  | [] => Err "unable to generate a certificate when no domain is given"
  | d :: sans =>
      if bool_decide (sans = []) && bool_decide (d = "") then Err "unable to generate a certificate when no domain is given" else
      if has_prefix d "*" && negb wildcardAllowed
      then Err ("unable to generate a wildcard certificate for domain " +:+ all +:+ " from a 'Host' rule") else
      if has_prefix d "*" && negb dns
      then Err ("unable to generate a wildcard certificate for domain " +:+ all +:+ " : ACME needs a DNSChallenge") else
      if has_prefix d "*" && has_prefix d "*.*"
      then Err ("unable to generate a wildcard certificate for domain " +:+ all +:+ " : ACME does not allow '*.*' wildcard domain") else
      if existsb (fun san => has_prefix san "*") sans
      then Err ("unable to generate a certificate for domains " +:+ all +:+ ": SANs can not be a wildcard domain")
      else Ok (map CanonicalDomain domains)
  end.

(** The first certificate, in the order of the map, one of whose names matches. *)
Definition searchProvidedCertificateForDomains `{MapOrder} (domain : string) (certs : gmap string tls_certificate) : option tls_certificate :=
  option_map snd (List.find (fun kv => existsb (MatchDomain domain) (split kv.1 ",")) (range certs)).

(** ** State *)

Record ClusterACME := mkClusterACME {
  cm_conf : ACME;
  cm_Domains : list domain;
  cm_client : bool; (* there is one *)
  cm_challengeProvider : bool;
  cm_NameToCertificate : gmap string tls_certificate;
  cm_dynamicCerts : option (gmap string tls_certificate);
  cm_checkOnDemandDomain : option (string -> bool);
}.

(** The jobs of the queue. *)
Inductive job := JobRetrieve | JobRenew | JobLoad (domains : list string).

Section Cluster.
Context {W S : Type} `{lego : !LegoLib W} `{store : !AccountStore S} `{tls : !TlsLib} `{order : MapOrder}.
Context (sort_Certs : list DomainsCertificate -> list DomainsCertificate).

(** [a_fresh] numbers the cells and structures that are allocated, [a_runners]
    the goroutines of [runJobs]. *)
Record AState := mkAState {
  a_acme : ClusterACME; a_store : S; a_world : W; a_fresh : nat; a_jobs : list job; a_runners : nat;
}.

Definition at_store {A} (m : M S A) : M AState A :=
  zoom a_store (fun s st => mkAState (a_acme st) s (a_world st) (a_fresh st) (a_jobs st) (a_runners st)) m.
Definition at_world {A} (m : M W A) : M AState A :=
  zoom a_world (fun w st => mkAState (a_acme st) (a_store st) w (a_fresh st) (a_jobs st) (a_runners st)) m.
Definition modify_acme (f : ClusterACME -> ClusterACME) : M AState unit :=
  modify_state (fun st => mkAState (f (a_acme st)) (a_store st) (a_world st) (a_fresh st) (a_jobs st) (a_runners st)).
Definition allocate : M AState nat :=
  st ← get_state;
  _ ← modify_state (fun st => mkAState (a_acme st) (a_store st) (a_world st) (Datatypes.S (a_fresh st)) (a_jobs st) (a_runners st));
  mret (a_fresh st).
Definition enqueue (j : job) : M AState unit :=
  modify_state (fun st => mkAState (a_acme st) (a_store st) (a_world st) (a_fresh st) (a_jobs st ++ [j]) (a_runners st)).
Definition runJobs : M AState unit :=
  modify_state (fun st => mkAState (a_acme st) (a_store st) (a_world st) (a_fresh st) (a_jobs st) (Datatypes.S (a_runners st))).

Definition set_Domains (l : list domain) (a : ClusterACME) : ClusterACME :=
  mkClusterACME (cm_conf a) l (cm_client a) (cm_challengeProvider a) (cm_NameToCertificate a) (cm_dynamicCerts a) (cm_checkOnDemandDomain a).
Definition set_cm_client (c : bool) (a : ClusterACME) : ClusterACME :=
  mkClusterACME (cm_conf a) (cm_Domains a) c (cm_challengeProvider a) (cm_NameToCertificate a) (cm_dynamicCerts a) (cm_checkOnDemandDomain a).
Definition set_challengeProvider (a : ClusterACME) : ClusterACME :=
  mkClusterACME (cm_conf a) (cm_Domains a) (cm_client a) true (cm_NameToCertificate a) (cm_dynamicCerts a) (cm_checkOnDemandDomain a).

(** The account of the node, and changing it in place. *)
Definition account : M AState ClusterAccount := st ← get_state; mret (store_Get (a_store st)).
Definition work (f : ClusterAccount -> ClusterAccount) : M AState unit :=
  at_store (modify_state (fun s => store_work (f (store_Get s)) s)).

(** ** The client *)

Definition override_delay (delay : Z) : option error :=
  if (delay <? 0)%Z then Some ("invalid negative DelayBeforeCheck: " +:+ pretty delay) else None.

Definition set_http_challenge (conf : ACME) : M AState (option error) :=
  if match ac_HTTPChallenge conf with Some http => nonempty (http_EntryPoint http) | None => false end
  then _ ← modify_acme set_challengeProvider; at_world (lego_SetChallengeProvider false)
  else mret (Some "ACME challenge not specified, please select HTTP or DNS Challenge").

Definition challenge_of (conf : ACME) : M AState (option error) :=
  match ac_DNSChallenge conf with
  | Some dns =>
      if nonempty (dns_Provider dns) then
        match override_delay (DelayBeforeCheck dns) with
        | Some err => mret (Some err)
        | None =>
            r ← at_world (lego_DNSProvider (dns_Provider dns));
            match r with Err err => mret (Some err) | Ok _ => at_world (lego_SetChallengeProvider true) end
        end
      else set_http_challenge conf
  | None => set_http_challenge conf
  end.

Definition default_caServer : string := "https://acme-v02.api.letsencrypt.org/directory".

(** [a.client, err = a.buildACMEClient(account)]: without a client when it fails. *)
Definition buildACMEClient (acc : ClusterAccount) : M AState (option error) :=
  st ← get_state;
  let conf := cm_conf (a_acme st) in
  r ← at_world (lego_NewClient (if nonempty (ac_CAServer conf) then ac_CAServer conf else default_caServer) acc);
  match r with
  | Err err => _ ← modify_acme (set_cm_client false); mret (Some err)
  | Ok _ =>
      r ← challenge_of conf;
      match r with
      | Some err => _ ← modify_acme (set_cm_client false); mret (Some err)
      | None => _ ← modify_acme (set_cm_client true); mret None
      end
  end.

(** ** Certificates *)

Definition certificate_of (ptr : nat) (r : CertificateResource) : AcmeCertificate :=
  mkAcmeCertificate ptr (cr_Domain r) (cr_CertURL r) (cr_CertStableURL r) (cr_PrivateKey r) (cr_Certificate r).

(** A method of a nil client panics. *)
Definition client_call {A} (m : M W A) : M AState A :=
  st ← get_state; if cm_client (a_acme st) then at_world m else panic nil_dereference.

Definition getDomainsCertificates (domains : list string) : M AState (result AcmeCertificate) :=
  r ← client_call (lego_Obtain (map CanonicalDomain domains));
  match r with
  | Err err => mret (Err ("cannot obtain certificates: " +:+ err))
  | Ok certificate => ptr ← allocate; mret (Ok (certificate_of ptr certificate))
  end.

(** [Begin], the addition to the account, and [Commit]; the error of any ends it,
    with the transaction left as it is. *)
Definition add_in_transaction (certificate : AcmeCertificate) (d : domain) : M AState (result DomainsCertificate) :=
  r ← at_store store_Begin;
  match r with
  | Err err => mret (Err err)
  | Ok transaction =>
      acc ← account;
      cell ← allocate;
      match addCertificateForDomains cell certificate d (ca_Certs acc) with
      | (_, Err err) => mret (Err err)
      | (l, Ok cert) =>
          _ ← work (set_Certs l);
          acc ← account;
          r ← at_store (store_Commit transaction acc);
          match r with Some err => mret (Err err) | None => mret (Ok cert) end
      end
  end.

(** Names that have a certificate: the keys of the maps. *)
Definition cluster_checked (a : ClusterACME) (acc : ClusterAccount) : list string :=
  (map_to_list (cm_NameToCertificate a)).*1 ++ (map_to_list (default ∅ (cm_dynamicCerts a))).*1 ++
  map (fun c => certKey (dc_Domains (sort_SANs c)).1) (ca_Certs acc) ++
  mjoin (map (fun d : domain => Main d.1 :: SANs d.1) (cm_Domains a)).

Definition cluster_getUncheckedDomains (domains : list string) : M AState (list string) :=
  st ← get_state;
  acc ← account;
  _ ← work (fun acc => set_Certs (toDomainsMap (ca_Certs acc)).1 acc);
  mret (searchUncheckedDomains domains (cluster_checked (a_acme st) acc)).

(** ** Serving *)

Definition getProvidedCertificate (a : ClusterACME) (domain : string) : option tls_certificate :=
  match searchProvidedCertificateForDomains domain (cm_NameToCertificate a) with
  | Some cert => Some cert
  | None => match cm_dynamicCerts a with Some certs => searchProvidedCertificateForDomains domain certs | None => None end
  end.

Definition loadCertificateOnDemand (serverName : string) : M AState (result (option tls_certificate)) :=
  let domain := CanonicalDomain serverName in
  acc ← account;
  match getCertificateForDomain domain (ca_Certs acc) with
  | Some c => mret (Ok (dc_tlsCert c))
  | None =>
      r ← getDomainsCertificates [domain];
      match r with
      | Err err => mret (Err err)
      | Ok certificate =>
          r ← add_in_transaction certificate (domain_of [domain]);
          mret (match r with Err err => Err err | Ok cert => Ok (dc_tlsCert cert) end)
      end
  end.

(** [getCertificate]: the certificate of a handshake, none when the default one
    is to be used. *)
Definition cluster_getCertificate (serverName : string) : M AState (result (option tls_certificate)) :=
  let domain := CanonicalDomain serverName in
  st ← get_state;
  acc ← account;
  match getProvidedCertificate (a_acme st) domain with
  | Some cert => mret (Ok (Some cert))
  | None =>
      match getCertificateForDomain domain (ca_Certs acc) with
      | Some c => mret (Ok (dc_tlsCert c))
      | None =>
          if ac_OnDemand (cm_conf (a_acme st)) then
            if match cm_checkOnDemandDomain (a_acme st) with Some check => negb (check domain) | None => false end
            then mret (Ok None) else loadCertificateOnDemand serverName
          else mret (Ok None)
      end
  end.

(** ** Jobs *)

Definition dns_configured (conf : ACME) : bool :=
  bool_decide (is_Some (ac_DNSChallenge conf)) || nonempty (ac_DNSProvider conf).

(** The body of the loop of [retrieveCertificates]; what fails is logged. *)
Definition retrieve_domain (d : domain) : M AState unit :=
  st ← get_state;
  acc ← account;
  match domains_exist d (ca_Certs acc) with
  | Some _ => mret tt
  | None =>
      match cluster_getValidDomains (dns_configured (cm_conf (a_acme st))) (Main d.1 :: SANs d.1) true with
      | Err _ => mret tt
      | Ok domains =>
          r ← getDomainsCertificates domains;
          match r with
          | Err _ => mret tt
          | Ok certificateResource => _ ← add_in_transaction certificateResource d; mret tt
          end
      end
  end.
Fixpoint retrieve_all (l : list domain) : M AState unit :=
  match l with [] => mret tt | d :: l => _ ← retrieve_domain d; retrieve_all l end.
Definition retrieveCertificates_job : M AState unit :=
  _ ← modify_acme (fun a => set_Domains (cluster_deleteUnnecessaryDomains (cm_Domains a)) a);
  st ← get_state;
  retrieve_all (cm_Domains (a_acme st)).

Definition renewACMECertificate (c : DomainsCertificate) : M AState (result AcmeCertificate) :=
  match dc_Certificate c with
  | None => panic nil_dereference
  | Some cert =>
      r ← client_call (lego_Renew (mkCertificateResource (ac_Domain cert) (ac_CertURL cert) (ac_CertStableURL cert)
            (ac_PrivateKey cert) (ac_Certificate cert)));
      match r with
      | Err err => mret (Err err)
      | Ok renewedCert => ptr ← allocate; mret (Ok (certificate_of ptr renewedCert))
      end
  end.

(** What a pointer to an entry points to: the entry of the account in that cell,
    or, when the account no longer has the cell, what it was. *)
Definition deref (c : DomainsCertificate) (l : list DomainsCertificate) : DomainsCertificate :=
  default c (List.find (fun c' => bool_decide (dc_cell c' = dc_cell c)) l).

Definition same_names (a b : domain) : bool :=
  bool_decide (Main a.1 = Main b.1) && bool_decide (join (SANs a.1) "," = join (SANs b.1) ",").

Definition has_ptr (c : DomainsCertificate) (p : nat) : bool :=
  match dc_Certificate c with Some cert => bool_decide (ac_ptr cert = p) | None => false end.

(** [certificateResource] is a pointer taken before the transaction. *)
Definition storeRenewedCertificate (certificateResource : DomainsCertificate) (renewedACMECert : AcmeCertificate) : M AState (option error) :=
  r ← at_store store_Begin;
  match r with
  | Err err => mret (Some ("error during transaction initialization for renewing certificate: " +:+ err))
  | Ok transaction =>
      acc ← account;
      let d := dc_Domains (deref certificateResource (ca_Certs acc)) in
      match DomainsCertificates_renewCertificates renewedACMECert d (ca_Certs acc) with
      | (_, Some err) => mret (Some ("error renewing certificate in datastore: " +:+ err))
      | (l, None) =>
          _ ← work (set_Certs l);
          acc ← account;
          r ← at_store (store_Commit transaction acc);
          match r with
          | Some err => mret (Some ("error saving ACME account: " +:+ err))
          | None =>
              oldAccount ← account;
              let c := deref certificateResource (ca_Certs oldAccount) in
              mret (if existsb (fun old => same_names (dc_Domains old) (dc_Domains c) && negb (has_ptr c (ac_ptr renewedACMECert))) (ca_Certs oldAccount)
                    then Some "renewed certificate not stored" else None)
          end
      end
  end.

(** The attempts to store it; what happens between two is any change of the
    store. *)
Fixpoint store_attempts (between : list (S -> S)) (c : DomainsCertificate) (cert : AcmeCertificate) : M AState unit :=
  r ← storeRenewedCertificate c cert;
  match r, between with
  | Some _, f :: between => _ ← at_store (modify_state f); store_attempts between c cert
  | _, _ => mret tt
  end.

Definition renew_cert (now : Z) (between : list (S -> S)) (c : DomainsCertificate) : M AState unit :=
  acc ← account;
  let c := deref c (ca_Certs acc) in
  match needRenew now c with
  | Panic e | Crash e => panic e
  | Ret false => mret tt
  | Ret true =>
      r ← renewACMECertificate c;
      match r with
      | Err _ => mret tt
      | Ok renewed => store_attempts between c renewed
      end
  end.
Fixpoint renew_certs (now : Z) (between : list (S -> S)) (l : list DomainsCertificate) : M AState unit :=
  match l with [] => mret tt | c :: l => _ ← renew_cert now between c; renew_certs now between l end.
Definition renewCertificates_job (now : Z) (between : list (S -> S)) : M AState unit :=
  acc ← account; renew_certs now between (ca_Certs acc).

(** [waited] tells whether some other goroutine builds the client within the half
    minute the job waits for it. *)
Definition LoadCertificateForDomains_job (waited : bool) (domains : list string) : M AState unit :=
  st ← get_state;
  match cluster_getValidDomains (dns_configured (cm_conf (a_acme st))) domains false with
  | Err _ => mret tt
  | Ok domains =>
      _ ← modify_acme (fun a => set_cm_client (cm_client a || waited) a);
      st ← get_state;
      if negb (cm_client (a_acme st)) then mret tt else
      uncheckedDomains ← cluster_getUncheckedDomains domains;
      match uncheckedDomains with
      | [] => mret tt
      | _ =>
          r ← getDomainsCertificates uncheckedDomains;
          match r with
          | Err _ => mret tt
          | Ok certificate => _ ← add_in_transaction certificate (domain_of uncheckedDomains); mret tt
          end
      end
  end.

Definition run_job (now : Z) (between : list (S -> S)) (waited : bool) (j : job) : M AState unit :=
  match j with
  | JobRetrieve => retrieveCertificates_job
  | JobRenew => renewCertificates_job now between
  | JobLoad domains => LoadCertificateForDomains_job waited domains
  end.

(** One goroutine of [runJobs] on the jobs it receives: a panic in one is
    recovered by [safe.Go], and ends the goroutine. *)
Fixpoint job_loop (now : Z) (between : list (S -> S)) (waited : bool) (jobs : list job) : M AState unit :=
  match jobs with
  | [] => mret tt
  | j :: jobs => _ ← run_job now between waited j; job_loop now between waited jobs
  end.

(** ** The cluster *)

Definition register_account (needRegister : bool) (acc : ClusterAccount) : M AState (result ClusterAccount) :=
  if needRegister then
    r ← client_call lego_Register;
    mret (match r with Err err => Err err | Ok reg => Ok (set_Registration (Some reg) acc) end)
  else mret (Ok acc).

(** The account of [leadershipListener]: the stored one, initialised and, when the
    server changed, reset; or a new one, to register. *)
Definition leader_account : M AState (result (ClusterAccount * bool)) :=
  st ← get_state;
  let conf := cm_conf (a_acme st) in
  _ ← work (fun acc =>
    let acc := (Account_Init sort_Certs acc).1 in
    match ca_Registration acc with
    | Some uri => if has_prefix uri (ac_CAServer conf) then acc else account_reset acc
    | None => acc
    end);
  acc ← account;
  if nonempty (ca_Email acc) then mret (Ok (acc, false)) else
  key ← at_world lego_GenerateKey;
  mret (match ClusterAccount_New sort_Certs key (ac_Email conf) (ca_Certs acc) with
        | Err err => Err err
        | Ok acc => Ok (acc, true)
        end).

(** [leadershipListener]: an error after [Begin] leaves the transaction open. *)
Definition leadershipListener (elected : bool) : M AState (option error) :=
  if negb elected then mret None else
  r ← at_store store_Load;
  match r with
  | Some err => mret (Some err)
  | None =>
      r ← at_store store_Begin;
      match r with
      | Err err => mret (Some err)
      | Ok transaction =>
          r ← leader_account;
          match r with
          | Err err => mret (Some err)
          | Ok (acc, needRegister) =>
              r ← buildACMEClient acc;
              match r with
              | Some err => mret (Some err)
              | None =>
                  r ← register_account needRegister acc;
                  match r with
                  | Err err => mret (Some err)
                  | Ok acc =>
                      r ← at_store (store_Commit transaction acc);
                      match r with
                      | Some err => mret (Some err)
                      | None => _ ← enqueue JobRetrieve; _ ← enqueue JobRenew; _ ← runJobs; mret None
                      end
                  end
              end
          end
      end
  end.

(** The listener of the datastore: the account is initialised, and a node that
    does not lead builds a client for it. *)
Definition datastore_listener (isLeader : bool) : M AState unit :=
  _ ← work (fun acc => (Account_Init sort_Certs acc).1);
  if isLeader then mret tt else acc ← account; _ ← buildACMEClient acc; mret tt.

(** ** Challenges *)

Definition in_transaction (f : ClusterAccount -> ClusterAccount) : M AState (option error) :=
  r ← at_store store_Begin;
  match r with
  | Err err => mret (Some err)
  | Ok transaction => _ ← work f; acc ← account; at_store (store_Commit transaction acc)
  end.
Definition cluster_Present (domain token keyAuth : string) : M AState (option error) :=
  in_transaction (account_present domain token keyAuth).
Definition cluster_CleanUp (domain token : string) : M AState (option error) :=
  in_transaction (account_cleanup domain token).

(** [getTokenValue] holds the provider's lock for reading while it tries, and
    does not try when the account has no map of challenges. *)
Fixpoint try_token (token domain : string) (between : list (S -> S)) : M AState string :=
  acc ← account;
  match challenge (default ∅ (ca_HTTPChallenge acc)) token domain, between with
  | Some v, _ => mret v
  | None, [] => mret ""
  | None, f :: between => _ ← at_store (modify_state f); try_token token domain between
  end.
Definition cluster_getTokenValue (token domain : string) (between : list (S -> S)) : M AState string :=
  acc ← account;
  match ca_HTTPChallenge acc with None => mret "" | Some _ => try_token token domain between end.

(** The handler of the challenges' route. *)
Definition serve_cluster_challenge (token req_Host : string) (between : list (S -> S)) : M AState (Z * string) :=
  st ← get_state;
  if negb (cm_challengeProvider (a_acme st)) then mret (404%Z, "") else
  let domain := match SplitHostPort req_Host with Ok (host, _) => host | Err _ => req_Host end in
  tokenValue ← cluster_getTokenValue token domain between;
  mret (if nonempty tokenValue then (200%Z, tokenValue) else (404%Z, "")).

End Cluster.
Arguments AState : clear implicits.

(** * Facts: what a cluster's node does with its account

    The rules about domains are those of the provider in [provider/acme]; a
    failure between [Begin] and [Commit] leaves the transaction open; whether a
    renewal is reported as stored depends on where the entry is kept; serving
    asks for nothing unless it is told to. *)

(** ** The rules about domains *)

Lemma existsb_ext {A} (f g : A -> bool) l : (forall x, x ∈ l -> f x = g x) -> existsb f l = existsb g l.
Proof.
  induction l as [|x l IH]; intros H; [done|]. simpl. rewrite (H x) by by left. f_equal. apply IH. intros y Hy. apply H. by right.
Qed.

Lemma checked_free name names : Forall (fun m => free ","%char m = true) names ->
  isDomainAlreadyChecked name names = existsb (MatchDomain name) names.
Proof.
  intros Hf. apply existsb_ext. intros m Hm. rewrite Forall_forall in Hf. rewrite split_free by by apply Hf. simpl. by rewrite orb_false_r.
Qed.

Lemma checked_joined name names : names <> [] -> Forall (fun m => free ","%char m = true) names ->
  isDomainAlreadyChecked name [join names ","] = existsb (MatchDomain name) names.
Proof. intros Hne Hf. unfold isDomainAlreadyChecked. simpl. rewrite orb_false_r, split_join by done. done. Qed.

Lemma unnecessary_name_eq i j d name : Main d <> "" -> (forall m, m ∈ ToStrArray d -> good_name m) ->
  unnecessary_name i j d name = unnecessary i j d name.
Proof.
  intros Hne Hg. assert (ToStrArray d = Main d :: SANs d) as Ed.
  { unfold ToStrArray, nonempty. by rewrite bool_decide_eq_false_2. }
  rewrite Ed in Hg. assert (Forall (fun m => free ","%char m = true) (Main d :: SANs d)) as Hf.
  { apply Forall_forall. intros m Hm. by destruct (Hg m Hm) as (_ & ? & _). }
  inversion_clear Hf as [|? ? Hm Hs].
  assert (isDomainAlreadyChecked name (domain_keys d) = isDomainAlreadyChecked name (ToStrArray d)) as Hk.
  { rewrite Ed, (checked_free name (Main d :: SANs d)) by by constructor. unfold domain_keys.
    change (isDomainAlreadyChecked name (Main d :: ?l)) with
      (existsb (MatchDomain name) (split (Main d) ",") || isDomainAlreadyChecked name l).
    rewrite split_free by done. cbn [existsb]. rewrite orb_false_r. f_equal.
    destruct (SANs d) as [|s l] eqn:Es; [done|]. by apply checked_joined. }
  unfold unnecessary_name, unnecessary. rewrite Hk. do 2 f_equal.
  rewrite (checked_free name [Main d]) by by constructor. cbn [existsb]. by rewrite orb_false_r.
Qed.

Lemma shrink_domain_eq i j (l : list domain) d :
  (forall e, e ∈ l -> Main e.1 <> "" /\ forall m, m ∈ ToStrArray e.1 -> good_name m) ->
  shrink_domain i j l d = reduce_domain i j l d.
Proof.
  revert j d. induction l as [|e l IH]; intros j d Hl; [done|]. simpl.
  assert (forall e', e' ∈ l -> Main e'.1 <> "" /\ forall m, m ∈ ToStrArray e'.1 -> good_name m) as Hl' by (intros; apply Hl; by right).
  case_bool_decide; [by apply IH|]. case_bool_decide; [done|].
  assert (filter (fun name => unnecessary_name i j e.1 name = false) (ToStrArray d.1) =
          filter (fun name => unnecessary i j e.1 name = false) (ToStrArray d.1)) as ->.
  { destruct (Hl e) as [Hne Hg]; [by left|]. apply list_filter_iff. intros name. by rewrite unnecessary_name_eq. }
  destruct (filter _ _); [done|]. by apply IH.
Qed.

(** C27: the two implementations of ACME free the configured domains of the same
    ones, although this one looks names up in a map whose keys are joined
    alternative names; so nothing is lost here either. *)
Theorem cluster_domains_agree (domains : list domain) :
  (forall d, d ∈ domains -> Main d.1 <> "" /\ forall m, m ∈ ToStrArray d.1 -> good_name m) ->
  cluster_deleteUnnecessaryDomains domains = deleteUnnecessaryDomains domains.
Proof.
  intros Hg. unfold cluster_deleteUnnecessaryDomains, deleteUnnecessaryDomains. generalize (imap pair domains). intros l.
  induction l as [|x l IH]; [done|]. simpl. rewrite shrink_domain_eq by done. destruct (reduce_domain _ _ _ _); [f_equal|]; exact IH.
Qed.

(** A name under a wildcard of another domain goes, in both implementations. *)
Lemma cluster_domains_agree_witness :
  cluster_deleteUnnecessaryDomains sample_domains = deleteUnnecessaryDomains sample_domains.
Proof.
  apply (cluster_domains_agree sample_domains). intros d Hd. split.
  - revert d Hd. apply Forall_forall. by repeat constructor.
  - intros m. apply list_elem_of_lookup_1 in Hd as [i Hi]. by apply (sample_good i).
Defined.

(** So do the two checks of the names of one certificate. *)
Theorem cluster_valid_agree dns (d : Domain) allowed l : Main d <> "" ->
  cluster_getValidDomains dns (ToStrArray d) allowed = Ok l <-> getValidDomains dns d allowed = Ok l.
Proof.
  intros Hne. rewrite getValidDomains_spec. assert (ToStrArray d = Main d :: SANs d) as Ed.
  { unfold ToStrArray, nonempty. by rewrite bool_decide_eq_false_2. }
  rewrite Ed. unfold cluster_getValidDomains. rewrite (bool_decide_eq_false_2 (Main d = "")) by done. rewrite andb_false_r.
  assert (existsb (fun san => has_prefix san "*") (SANs d) = false <-> Forall (fun san => has_prefix san "*" = false) (SANs d)) as He.
  { rewrite <- not_true_iff_false, existsb_exists, Forall_forall. split.
    - intros H x Hx. apply not_true_is_false. intros Hs. apply H. exists x. by rewrite <- list_elem_of_In.
    - intros H (x & Hx%list_elem_of_In & Hs). rewrite H in Hs by done. done. }
  rewrite <- He. destruct (has_prefix (Main d) "*"), allowed, dns, (has_prefix (Main d) "*.*"), (existsb _ _); simpl;
    split; intros; simplify_eq; naive_solver.
Qed.

(** ** Transactions *)

Section Facts.
Context {W S : Type} `{lego : !LegoLib W} `{store : !AccountStore S} `{tls : !TlsLib} `{order : MapOrder}.
Context (sort_Certs : list DomainsCertificate -> list DomainsCertificate).
Implicit Types (st : AState W S).

Definition with_store (s : S) st : AState W S := mkAState (a_acme st) s (a_world st) (a_fresh st) (a_jobs st) (a_runners st).
Definition with_fresh (n : nat) st : AState W S := mkAState (a_acme st) (a_store st) (a_world st) n (a_jobs st) (a_runners st).

(** A certificate that does not load after the transaction was begun leaves
    it begun: the store is as [Begin] left it, nothing is committed and nothing
    is released. *)
Theorem failed_add_leaves_transaction certificate d st transaction s err :
  store_Begin (a_store st) = (Ret (Ok transaction), s) ->
  X509KeyPair (ac_Certificate certificate) (ac_PrivateKey certificate) = Err err ->
  add_in_transaction certificate d st = (Ret (Err err), with_fresh (Datatypes.S (a_fresh st)) (with_store s st)).
Proof.
  intros Hb Hx. unfold add_in_transaction, at_store, zoom, account, allocate, get_state, modify_state, mbind, M_bind. simpl. rewrite Hb. simpl.
  unfold addCertificateForDomains. by rewrite Hx.
Qed.

(** The laws of a store: what is changed through the pointer is what it points
    to, and committing an object makes it the one that is pointed to. *)
Class AccountStoreLaws := {
  Get_work a s : store_Get (store_work a s) = a;
  Get_Commit t a s s' : store_Commit t a s = (Ret None, s') -> store_Get s' = a;
}.
Context {laws : AccountStoreLaws}.

(** A certificate that is added and committed is in the account, last. *)
Theorem added_is_kept certificate d st st' cert : add_in_transaction certificate d st = (Ret (Ok cert), st') ->
  exists l, ca_Certs (store_Get (a_store st')) = l ++ [cert] /\ dc_Domains cert = d /\ dc_Certificate cert = Some certificate /\
    dc_tlsCert cert <> None.
Proof using laws.
  unfold add_in_transaction, at_store, zoom, account, work, allocate, get_state, modify_state, mbind, M_bind. simpl.
  destruct (store_Begin _) as [[[t|]| |] s1]; simpl; [|done..].
  unfold addCertificateForDomains. destruct (X509KeyPair _ _) as [tc|]; simpl; [|done].
  unfold zoom. simpl. rewrite Get_work. destruct (store_Commit _ _ _) as [[[e|]| |] s3] eqn:Ec; [done| |done..]. intros [= <- <-]. simpl.
  apply Get_Commit in Ec as ->. simpl. eauto.
Qed.

(** ** Renewals *)

Lemma find_cell l1 (c : DomainsCertificate) l2 n : NoDup (map dc_cell (l1 ++ c :: l2)) -> dc_cell c = n ->
  List.find (fun c' => bool_decide (dc_cell c' = n)) (l1 ++ c :: l2) = Some c.
Proof.
  intros Hnd <-. induction l1 as [|c1 l1 IH]; simpl; [by rewrite bool_decide_eq_true_2|].
  simpl in Hnd. apply NoDup_cons in Hnd as [Hn Hnd]. rewrite bool_decide_eq_false_2; [by apply IH|].
  intros E. apply Hn. rewrite E. apply list_elem_of_fmap. exists c. split; [done|]. apply elem_of_app. right. by left.
Qed.

Lemma find_no_cell l n : n ∉ map dc_cell l -> List.find (fun c' => bool_decide (dc_cell c' = n)) l = None.
Proof.
  induction l as [|c l IH]; simpl; [done|]. intros Hn. rewrite bool_decide_eq_false_2 by (intros E; apply Hn, elem_of_cons; left; congruence).
  apply IH. intros Hin. apply Hn, elem_of_cons. by right.
Qed.

(** A renewed certificate that was committed: it is in the account, in place of
    the one it renews; it is reported as stored when the pointer of the caller
    still is to that entry, and as not stored when the account has been read
    into other entries since, and the commit is made again. *)
Theorem renewal_report c renewed st s1 t acc s3 l :
  store_Begin (a_store st) = (Ret (Ok t), s1) -> store_Get s1 = acc ->
  DomainsCertificates_renewCertificates renewed (dc_Domains (deref c (ca_Certs acc))) (ca_Certs acc) = (l, None) ->
  store_Commit t (set_Certs l acc) (store_work (set_Certs l acc) s1) = (Ret None, s3) ->
  exists c0, c0 ∈ l /\ dc_Domains c0 = dc_Domains (deref c (ca_Certs acc)) /\ dc_Certificate c0 = Some renewed /\
    ca_Certs (store_Get s3) = l /\
    (NoDup (map dc_cell (ca_Certs acc)) -> dc_cell c0 = dc_cell c ->
     storeRenewedCertificate c renewed st = (Ret None, with_store s3 st)) /\
    (dc_cell c ∉ map dc_cell (ca_Certs acc) -> has_ptr c (ac_ptr renewed) = false ->
     storeRenewedCertificate c renewed st = (Ret (Some "renewed certificate not stored"), with_store s3 st)).
Proof using laws.
  intros Hb Hg Hr Hc. pose proof (renewCertificates_spec renewed (dc_Domains (deref c (ca_Certs acc))) (ca_Certs acc)) as Hspec.
  rewrite Hr in Hspec. destruct Hspec as (l1 & c1 & l2 & tc & El & Ed & _ & _ & El').
  exists (mkDomainsCertificate (dc_cell c1) (dc_Domains (deref c (ca_Certs acc))) (Some renewed) (Some tc)).
  assert (forall b : bool, (if existsb (fun old => same_names (dc_Domains old) (dc_Domains (deref c l)) && negb (has_ptr (deref c l) (ac_ptr renewed))) l
            then Some "renewed certificate not stored" else None) = (if b then Some "renewed certificate not stored" else None) ->
            storeRenewedCertificate c renewed st = (Ret (if b then Some "renewed certificate not stored" else None), with_store s3 st)) as Hrun.
  { intros b Hcheck. unfold storeRenewedCertificate, at_store, zoom, account, work, get_state, modify_state, mbind, M_bind. simpl.
    rewrite Hb. simpl. rewrite Hg, Hr. unfold zoom. simpl. rewrite Hg, Get_work, Hc. simpl. rewrite (Get_Commit _ _ _ _ Hc). simpl. by rewrite <- Hcheck. }
  assert (map dc_cell l = map dc_cell (ca_Certs acc)) as Hcells by (rewrite El, El', !map_app; done).
  split; [rewrite El'; apply elem_of_app; right; by left|]. split; [done|]. split; [done|].
  split; [by rewrite (Get_Commit _ _ _ _ Hc)|]. split.
  - intros Hnd Hcell. simpl in Hcell. apply (Hrun false).
    assert (deref c l = mkDomainsCertificate (dc_cell c1) (dc_Domains (deref c (ca_Certs acc))) (Some renewed) (Some tc)) as ->.
    { unfold deref at 1. rewrite El' at 1. rewrite find_cell; [done|by rewrite <- El', Hcells|done]. }
    unfold has_ptr. simpl. rewrite bool_decide_eq_true_2 by done. simpl.
    rewrite (existsb_ext _ (fun _ => false)) by (intros; by rewrite andb_false_r). clear. by induction l.
  - intros Hno Hptr. apply (Hrun true). assert (deref c l = c) as -> by (unfold deref; by rewrite find_no_cell by by rewrite Hcells).
    assert (deref c (ca_Certs acc) = c) as Ed' by (unfold deref; by rewrite find_no_cell). rewrite Ed' in *. rewrite Hptr. simpl.
    assert (existsb (fun old => same_names (dc_Domains old) (dc_Domains c) && true) l = true) as ->; [|done].
    apply existsb_exists. eexists. split; [apply list_elem_of_In; rewrite El'; apply elem_of_app; right; by left|].
    simpl. unfold same_names. by rewrite !bool_decide_eq_true_2.
Qed.

(** ** Serving *)

(** Unless certificates are asked for on demand, a handshake changes nothing and
    gets a certificate that was provided before one of the account. *)
Theorem serving_asks_nothing serverName st : ac_OnDemand (cm_conf (a_acme st)) = false ->
  cluster_getCertificate serverName st =
  (Ret (Ok (match getProvidedCertificate (a_acme st) (CanonicalDomain serverName) with
            | Some cert => Some cert
            | None => getCertificateForDomain (CanonicalDomain serverName) (ca_Certs (store_Get (a_store st))) ≫= dc_tlsCert
            end)), st).
Proof.
  intros Hd. unfold cluster_getCertificate, account, get_state, mbind, M_bind. simpl.
  destruct (getProvidedCertificate _ _); [done|]. destruct (getCertificateForDomain _ _); [done|]. by rewrite Hd.
Qed.

(** A challenge this node has presented is served to the host it is for. *)
Theorem presented_is_served domain token keyAuth req_Host st st' between :
  cm_challengeProvider (a_acme st) = true -> keyAuth <> "" ->
  (match SplitHostPort req_Host with Ok (host, _) => host | Err _ => req_Host end) = domain ->
  cluster_Present domain token keyAuth st = (Ret None, st') ->
  serve_cluster_challenge token req_Host between st' = (Ret (200%Z, keyAuth), st').
Proof using laws.
  intros Hp Hk Hh. unfold cluster_Present, in_transaction, at_store, zoom, work, account, get_state, modify_state, mbind, M_bind. simpl.
  destruct (store_Begin _) as [[[t|]| |] s1]; simpl; [|done..]. unfold zoom. simpl. rewrite Get_work.
  destruct (store_Commit _ _ _) as [[[e|]| |] s3] eqn:Ec; [done| |done..]. intros [= <-]. apply Get_Commit in Ec.
  unfold serve_cluster_challenge, cluster_getTokenValue, try_token, account, get_state, mbind, M_bind. simpl. rewrite Hp. simpl.
  rewrite Ec, Hh.
  assert (ca_HTTPChallenge (account_present domain token keyAuth (store_Get s1)) <> None) as Hsome by done.
  pose proof (account_present_challenge domain token keyAuth (store_Get s1) token domain) as Hch. rewrite decide_True in Hch by done.
  destruct (ca_HTTPChallenge (account_present _ _ _ _)) as [h|] eqn:Eh; [|done].
  destruct between; cbn; unfold account, get_state, mbind, M_bind; cbn; rewrite Ec, Eh; cbn in Hch |- *; rewrite Hch;
    unfold mret, M_ret, nonempty; by rewrite bool_decide_eq_false_2.
Qed.

(** ** Jobs *)

(** An entry that was read from the store and not yet initialised makes the
    renewal panic; what is recovered is the goroutine of all jobs, and none of
    the jobs after it is run. *)
Theorem panic_ends_jobs now between waited jobs c l st :
  ca_Certs (store_Get (a_store st)) = c :: l -> dc_tlsCert c = None ->
  job_loop now between waited (JobRenew :: jobs) st = (Panic nil_dereference, st).
Proof.
  intros Hc Ht. simpl. unfold renewCertificates_job, account, get_state, mbind, M_bind. simpl. rewrite Hc. simpl.
  unfold renew_cert, account, get_state, mbind, M_bind. simpl. rewrite Hc. unfold deref. simpl.
  rewrite bool_decide_eq_true_2 by done. simpl. unfold needRenew. by rewrite Ht.
Qed.

(** What leaves the queue of jobs alone. *)
Definition quiet {A} (m : M (AState W S) A) : Prop :=
  forall st o st', m st = (o, st') -> a_jobs st' = a_jobs st /\ a_runners st' = a_runners st.

Lemma quiet_bind {A B} (m : M (AState W S) A) (k : A -> M (AState W S) B) : quiet m -> (forall a, quiet (k a)) -> quiet (m ≫= k).
Proof.
  intros Hm Hk st o st'. unfold mbind, M_bind. destruct (m st) as [[a|e|e] st1] eqn:E; apply Hm in E as [H1 H2].
  - intros H. apply Hk in H as [H3 H4]. by rewrite H3, H4.
  - by intros [= <- <-].
  - by intros [= <- <-].
Qed.
Lemma quiet_ret {A} (a : A) : quiet (mret a).
Proof. by intros st o st' [= <- <-]. Qed.
Lemma quiet_panic {A} e : quiet (panic (A := A) e).
Proof. by intros st o st' [= <- <-]. Qed.
Lemma quiet_get : quiet get_state.
Proof. by intros st o st' [= <- <-]. Qed.
Lemma quiet_store {A} (m : M S A) : quiet (at_store m).
Proof. intros st o st'. unfold at_store, zoom. destruct (m (a_store st)). by intros [= <- <-]. Qed.
Lemma quiet_world {A} (m : M W A) : quiet (at_world m).
Proof. intros st o st'. unfold at_world, zoom. destruct (m (a_world st)). by intros [= <- <-]. Qed.
Lemma quiet_acme f : quiet (modify_acme f).
Proof. by intros st o st' [= <- <-]. Qed.
Lemma quiet_work f : quiet (work f).
Proof. apply quiet_store. Qed.

Ltac quiet_step := repeat first
  [ apply quiet_ret | apply quiet_panic | apply quiet_get | apply quiet_store | apply quiet_world | apply quiet_acme | apply quiet_work
  | apply quiet_bind; [|intros ?] | case_match ].

Lemma quiet_build acc : quiet (buildACMEClient acc).
Proof. unfold buildACMEClient, challenge_of, set_http_challenge. quiet_step. Qed.
Lemma quiet_account : quiet (leader_account sort_Certs).
Proof. unfold leader_account, account. quiet_step. Qed.
Lemma quiet_register b acc : quiet (register_account b acc).
Proof. unfold register_account, client_call. quiet_step. Qed.

(** Being elected, when all goes well, queues the two jobs and starts one more
    goroutine that runs jobs; an error queues nothing.  Nothing ends a goroutine
    of an earlier election: a node elected again runs two jobs at a time. *)
Theorem election_starts_jobs st r st' : leadershipListener sort_Certs true st = (Ret r, st') ->
  match r with
  | None => a_jobs st' = a_jobs st ++ [JobRetrieve; JobRenew] /\ a_runners st' = Datatypes.S (a_runners st)
  | Some _ => a_jobs st' = a_jobs st /\ a_runners st' = a_runners st
  end.
Proof.
  unfold leadershipListener. simpl.
  intros (r1 & st1 & E1 & H)%bind_Ret_inv. apply quiet_store in E1 as [J1 R1].
  destruct r1 as [e|]; [apply mret_Ret_inv in H as [-> ->]; by rewrite J1, R1|].
  apply bind_Ret_inv in H as (r2 & st2 & E2 & H). apply quiet_store in E2 as [J2 R2].
  destruct r2 as [t|e]; [|apply mret_Ret_inv in H as [-> ->]; by rewrite J2, R2, J1, R1].
  apply bind_Ret_inv in H as (r3 & st3 & E3 & H). apply quiet_account in E3 as [J3 R3].
  destruct r3 as [[acc b]|e]; [|apply mret_Ret_inv in H as [-> ->]; by rewrite J3, R3, J2, R2, J1, R1].
  apply bind_Ret_inv in H as (r4 & st4 & E4 & H). apply quiet_build in E4 as [J4 R4].
  destruct r4 as [e|]; [apply mret_Ret_inv in H as [-> ->]; by rewrite J4, R4, J3, R3, J2, R2, J1, R1|].
  apply bind_Ret_inv in H as (r5 & st5 & E5 & H). apply quiet_register in E5 as [J5 R5].
  destruct r5 as [acc'|e]; [|apply mret_Ret_inv in H as [-> ->]; by rewrite J5, R5, J4, R4, J3, R3, J2, R2, J1, R1].
  apply bind_Ret_inv in H as (r6 & st6 & E6 & H). apply quiet_store in E6 as [J6 R6].
  assert (a_jobs st6 = a_jobs st /\ a_runners st6 = a_runners st) as [J R] by (split; congruence).
  destruct r6 as [e|]; [apply mret_Ret_inv in H as [-> ->]; done|].
  unfold enqueue, runJobs, modify_state, mbind, M_bind in H. simpl in H. apply mret_Ret_inv in H as [-> ->]. simpl. rewrite J, R.
  by rewrite <- app_assoc.
Qed.

End Facts.
