(* ===== verification/AcmeConvert.v ===== *)
(** * [acme/localStore.go]: the two formats of the file of ACME

    The file of a single node once held the account this package uses, and holds
    the data of [provider/acme] now.  The old format is converted when the proxy
    starts, and the new one read back into an account when a cluster's store is
    filled from it. *)
From S2P Require Import Prelude GoStrings GoStringsFacts Types OsioClient Domains AcmeDomains AcmeStore AcmeAccount.

(** [encoding/json] on the old format: an account, none for a null. *)
Class OldJson := { old_unmarshal : string -> result (option ClusterAccount) }.

Section Convert.
Context `{stored : StoredJson} `{old : OldJson} `{tls : TlsLib}.

(** [LocalStore.Get] of this package. *)
Definition old_Get : M LocalStore (result (option ClusterAccount)) :=
  hasData ← CheckFile;
  match hasData with
  | Err err => mret (Err err)
  | Ok false => mret (Ok (Some (mkClusterAccount "" None "" [] ∅ None)))
  | Ok true =>
      s ← get_state;
      mret (match store_file s with
            | Present content _ => old_unmarshal content
            | Missing => Err "file does not exist"
            | Broken err => Err err
            end)
  end.

(** One certificate in the new format; an entry without certificate panics. *)
Fixpoint new_certificates (l : list DomainsCertificate) : outcome (list Certificate) :=
  match l with
  | [] => Ret []
  | cert :: l =>
      match dc_Certificate cert with
      | None => Panic nil_dereference
      | Some c => l ← new_certificates l; Ret (mkCertificate (dc_Domains cert) (ac_Certificate c) (ac_PrivateKey c) :: l)
      end
  end.

(** [backup] is the error of writing the copy of the old file. *)
Definition ConvertToNewFormat (backup : option error) : M LocalStore unit :=
  r ← LocalStore_GetAccount;
  match r with
  | Err _ => mret tt
  | Ok storeAccount =>
      r ← LocalStore_GetCertificates;
      match r with
      | Err _ => mret tt
      | Ok storeCertificates =>
          match storeAccount with
          | Some _ => mret tt
          | None =>
              r ← old_Get;
              match r with
              | Err _ => mret tt
              | Ok account =>
                  match account with
                  | Some a =>
                      if nonempty (ca_Email a) then
                        match backup with
                        | Some _ => mret tt
                        | None =>
                            let a := RemoveAccountV1Values a in
                            match new_certificates (ca_Certs a) with
                            | Panic e | Crash e => panic e
                            | Ret newCertificates =>
                                write_file (mkStoredData (Some (mkAccount (ca_Email a) (ca_Registration a) (ca_PrivateKey a))) newCertificates ∅)
                            end
                        end
                      else write_file (mkStoredData (Some (mkAccount "" None "")) storeCertificates ∅)
                  | None => write_file (mkStoredData (Some (mkAccount "" None "")) storeCertificates ∅)
                  end
              end
          end
      end
  end.

(** The certificates of the store, added to the account one by one; the cells and
    structures are numbered as they come. *)
Fixpoint old_certificates (n : nat) (certs : list Certificate) (l : list DomainsCertificate) : result (list DomainsCertificate) :=
  match certs with
  | [] => Ok l
  | cert :: certs =>
      match addCertificateForDomains n (mkAcmeCertificate n (Main (crt_Domain cert).1) "" "" (crt_Key cert) (crt_Certificate cert))
              (crt_Domain cert) l with
      | (_, Err err) => Err err
      | (l, Ok _) => old_certificates (S n) certs l
      end
  end.

Definition FromNewToOldFormat : M LocalStore (result (option ClusterAccount)) :=
  r ← LocalStore_GetAccount;
  match r with
  | Err err => mret (Err err)
  | Ok storeAccount =>
      r ← LocalStore_GetCertificates;
      match r with
      | Err err => mret (Err err)
      | Ok storeCertificates =>
          let account := option_map (fun a => mkClusterAccount (acc_Email a) (Registration a) (acc_PrivateKey a) [] ∅ None) storeAccount in
          mret (match storeCertificates with
          | [] => Ok account
          | _ =>
              match old_certificates 0 storeCertificates [] with
              | Err err => Err err
              | Ok l => Ok (Some (set_Certs l (default (mkClusterAccount "" None "" [] ∅ None) account)))
              end
          end)
      end
  end.

(** ** Back and forth *)

(** What an entry is in both formats: the names and the pair. *)
Definition content_of (c : DomainsCertificate) : domain * option (string * string) :=
  (dc_Domains c, option_map (fun c => (ac_Certificate c, ac_PrivateKey c)) (dc_Certificate c)).

(** An entry the new format keeps, and TLS can load. *)
Definition convertible (c : DomainsCertificate) : Prop :=
  exists cert, dc_Certificate c = Some cert /\ ac_Certificate cert <> "" /\ ac_PrivateKey cert <> "" /\
    exists t, X509KeyPair (ac_Certificate cert) (ac_PrivateKey cert) = Ok t.

Lemma new_certificates_ok l : Forall convertible l -> exists certs, new_certificates l = Ret certs /\
  Forall (fun c => has_value c = true) certs /\
  map (fun c => (crt_Domain c, Some (crt_Certificate c, crt_Key c))) certs = map content_of l /\
  Forall (fun c => exists t, X509KeyPair (crt_Certificate c) (crt_Key c) = Ok t) certs.
Proof.
  induction 1 as [|c l (cert & Ec & H1 & H2 & t & Ht) _ IH]; [by exists []|].
  destruct IH as (certs & E & Hv & Hm & Hx). exists (mkCertificate (dc_Domains c) (ac_Certificate cert) (ac_PrivateKey cert) :: certs).
  simpl. rewrite Ec, E. simpl. split; [done|]. split; [|split].
  - constructor; [|done]. unfold has_value, nonempty. simpl. by rewrite !bool_decide_eq_false_2.
  - unfold content_of at 1. by rewrite Ec, Hm.
  - constructor; [by exists t|done].
Qed.

Lemma old_certificates_ok n certs l : Forall (fun c => exists t, X509KeyPair (crt_Certificate c) (crt_Key c) = Ok t) certs ->
  exists l', old_certificates n certs l = Ok (l ++ l') /\
    map content_of l' = map (fun c => (crt_Domain c, Some (crt_Certificate c, crt_Key c))) certs.
Proof.
  intros H. revert n l. induction H as [|c certs (t & Ht) _ IH]; intros n l; [exists []; by rewrite app_nil_r|].
  simpl. unfold addCertificateForDomains. simpl. rewrite Ht. simpl.
  destruct (IH (S n) (l ++ [mkDomainsCertificate n (crt_Domain c)
    (Some (mkAcmeCertificate n (Main (crt_Domain c).1) "" "" (crt_Key c) (crt_Certificate c))) (Some t)])) as (l' & E & Hm).
  eexists (_ :: l'). split; [by rewrite E, <- app_assoc|]. simpl. by rewrite Hm.
Qed.

(** What is left of the account once the values of the first version of the
    protocol are removed. *)
Lemma removed_values a :
  ca_Certs (RemoveAccountV1Values a) = ca_Certs a /\
  match ca_Registration (RemoveAccountV1Values a) with Some uri => is_v1_registration uri = false | None => True end.
Proof.
  unfold RemoveAccountV1Values. destruct (ca_Registration a) as [uri|] eqn:E; [|by rewrite E].
  destruct (is_v1_registration uri) eqn:Ev; [done|]. by rewrite E.
Qed.

(** C28: a file of the old format with an account that has an address, and with
    certificates that TLS can load, converted when the proxy starts and read back
    by a node that fills a cluster's store: the certificates are as they were, and
    so is the account, unless it was registered with the first version of the
    protocol, when its address, registration and key are dropped.  (The URLs of
    the certificates are not: the new format has no place for them.)  The file is
    of the old format when it is not empty and read in the new one as no data. *)
Theorem convert_roundtrip `{laws : !StoredJsonLaws} content (a : ClusterAccount) :
  content <> "" ->
  json_unmarshal content (mkStoredData None [] ∅) = (mkStoredData None [] ∅, None) ->
  old_unmarshal content = Ok (Some a) ->
  ca_Email a <> "" -> Forall convertible (ca_Certs a) ->
  exists s, ConvertToNewFormat None (mkLocalStore None (Present content false)) = (Ret tt, s) /\
  exists a' s', FromNewToOldFormat (mkLocalStore None (store_file s)) = (Ret (Ok (Some a')), s') /\
    (ca_Email a', ca_Registration a', ca_PrivateKey a') =
      (if from_option is_v1_registration false (ca_Registration a) then ("", None, "")
       else (ca_Email a, ca_Registration a, ca_PrivateKey a)) /\
    map content_of (ca_Certs a') = map content_of (ca_Certs a).
Proof.
  intros Hc Hj Ho He Hl.
  assert ((if from_option is_v1_registration false (ca_Registration a) then ("", None, "") else (ca_Email a, ca_Registration a, ca_PrivateKey a))
    = (ca_Email (RemoveAccountV1Values a), ca_Registration (RemoveAccountV1Values a), ca_PrivateKey (RemoveAccountV1Values a))) as ->.
  { unfold RemoveAccountV1Values. destruct (ca_Registration a) as [uri|] eqn:E; simpl; [|by rewrite E]. destruct (is_v1_registration uri); [done|by rewrite E]. }
  destruct (removed_values a) as [Hcerts Hr]. rewrite <-Hcerts in Hl |- *.
  set (a0 := RemoveAccountV1Values a) in *.
  destruct (new_certificates_ok _ Hl) as (certs & Ec & Hval & Hm & Hx).
  set (d := mkStoredData (Some (mkAccount (ca_Email a0) (ca_Registration a0) (ca_PrivateKey a0))) certs ∅).
  assert (get (mkLocalStore None (Present content false)) =
    (Ret (Ok (mkStoredData None [] ∅)), mkLocalStore (Some (mkStoredData None [] ∅)) (Present content false))) as Hget.
  { unfold get, mbind, M_bind, get_state, set_data, modify_state, CheckFile, nonempty. simpl.
    rewrite bool_decide_eq_false_2 by done. simpl. unfold read_file, mbind, M_bind, get_state. simpl. by rewrite Hj. }
  exists (mkLocalStore (Some (mkStoredData None [] ∅)) (Present (json_marshal d) false)). split.
  - unfold ConvertToNewFormat, LocalStore_GetAccount, LocalStore_GetCertificates, old_Get, CheckFile, mbind, M_bind, get_state, mret, M_ret.
    rewrite Hget. simpl. unfold nonempty. rewrite (bool_decide_eq_false_2 (content = "")) by done. simpl. rewrite Ho.
    rewrite (bool_decide_eq_false_2 (ca_Email a = "")) by done. simpl. fold a0. by rewrite Ec.
  - assert (get (mkLocalStore None (Present (json_marshal d) false)) =
      (Ret (Ok d), mkLocalStore (Some d) (Present (json_marshal d) false))) as Hget'.
    { unfold get, mbind, M_bind, get_state, set_data, modify_state, CheckFile, nonempty. simpl.
      rewrite bool_decide_eq_false_2 by apply json_nonempty. simpl. unfold read_file, mbind, M_bind, get_state. simpl. rewrite json_roundtrip. simpl.
      assert (v1_account d = false) as ->. { unfold v1_account, d. simpl. by destruct (ca_Registration a0). }
      simpl. rewrite filter_all by done. by rewrite bool_decide_eq_false_2 by lia. }
    destruct (old_certificates_ok 0 certs [] Hx) as (l' & El & Hl').
    exists (mkClusterAccount (ca_Email a0) (ca_Registration a0) (ca_PrivateKey a0) l' ∅ None), (mkLocalStore (Some d) (Present (json_marshal d) false)).
    split; [|split_and!; [done..|simpl; by rewrite Hl', Hm]].
    unfold FromNewToOldFormat, LocalStore_GetAccount, LocalStore_GetCertificates, mbind, M_bind, mret, M_ret. simpl. rewrite Hget'.
    simpl. destruct certs as [|c0 certs]; [|simpl in El |- *; by rewrite El].
    simpl in El. injection El as <-. done.
Qed.

End Convert.

(** ** A sample of the formats *)

Fixpoint bits (p : positive) : string :=
  match p with xH => "" | xO p => String "0" (bits p) | xI p => String "1" (bits p) end.
Fixpoint of_bits (s : string) : positive :=
  match s with EmptyString => xH | String "0" s => xO (of_bits s) | String _ s => xI (of_bits s) end.
Lemma of_bits_bits p : of_bits (bits p) = p.
Proof. induction p; simpl; congruence. Qed.

Definition stored_tuple (d : StoredData) :=
  (option_map (fun a => (acc_Email a, Registration a, acc_PrivateKey a)) (sd_Account d),
   map (fun c => (Main (crt_Domain c).1, SANs (crt_Domain c).1, (crt_Domain c).2, crt_Certificate c, crt_Key c)) (sd_Certificates d),
   HTTPChallenges d).
Definition of_stored_tuple t : StoredData :=
  let '(account, certs, ch) := t in
  mkStoredData (option_map (fun '(e, r, k) => mkAccount e r k) account)
    (map (fun '(m, sans, b, c, k) => mkCertificate (mkDomain m sans, b) c k) certs) ch.
Lemma of_stored_tuple_stored_tuple d : of_stored_tuple (stored_tuple d) = d.
Proof.
  destruct d as [[[]|] l ch]; unfold of_stored_tuple, stored_tuple; simpl; f_equal;
    rewrite map_map; rewrite <- (map_id l) at 2; apply map_ext; by intros [[[] ?] ? ?].
Qed.

(** A format that numbers the data; the text "old" is of the other format. *)
#[local] Instance sample_stored : StoredJson := {|
  json_marshal d := "j" +:+ bits (encode (stored_tuple d));
  json_unmarshal content e :=
    match content with
    | String "j" s => match decode (of_bits s) with Some t => (of_stored_tuple t, None) | None => (e, Some "invalid") end
    | _ => (e, None)
    end;
|}.
#[local] Instance sample_stored_laws : StoredJsonLaws.
Proof.
  split; [|done]. intros d.
  change (match decode (of_bits (bits (encode (stored_tuple d)))) with
    Some t => (of_stored_tuple t, None) | None => (mkStoredData None [] ∅, Some "invalid") end = (d, None)).
  by rewrite of_bits_bits, decode_encode, of_stored_tuple_stored_tuple.
Qed.
Definition sample_account : ClusterAccount :=
  mkClusterAccount "me@a.com" (Some "https://acme/acct/7") "KEY"
    [mkDomainsCertificate 0 (domain_of ["a.com"; "b.com"]) (Some (mkAcmeCertificate 0 "a.com" "" "" "key" "cert")) None] ∅ None.
#[local] Instance sample_old : OldJson := {| old_unmarshal _ := Ok (Some sample_account) |}.
#[local] Instance sample_tls : TlsLib := {| X509KeyPair c _ := Ok (mkTls [c] None); ParseCertificate _ := Ok 7%Z |}.

(** The account of the sample survives both conversions. *)
Lemma convert_roundtrip_witness :
  exists s, ConvertToNewFormat None (mkLocalStore None (Present "old" false)) = (Ret tt, s) /\
  exists a' s', FromNewToOldFormat (mkLocalStore None (store_file s)) = (Ret (Ok (Some a')), s') /\
    ca_Email a' = "me@a.com" /\ map content_of (ca_Certs a') = [(domain_of ["a.com"; "b.com"], Some ("cert", "key"))].
Proof.
  destruct (convert_roundtrip "old" sample_account) as (s & H1 & a' & s' & H2 & H3 & H4); try done.
  - repeat constructor. eexists. split_and!; [reflexivity|done|done|]. by eexists.
  - exists s. split; [exact H1|]. exists a', s'. injection H3 as H3 _ _. split_and!; [exact H2|exact H3|exact H4].
Defined.
