(* ===== verification/ServerSetup.v ===== *)
(** * [server/server.go]: the servers of the entry points

    What is built once, before any dynamic configuration: the transport to the
    backends, the TLS configuration of an entry point, its middlewares, its
    internal routes; how a configuration is swapped in; and how a request is
    then served, from the internal routes through the middlewares and the
    router to a backend.  The cluster ACME of an entry point and the listening
    socket are parameters. *)
From S2P Require Import Prelude GoStrings GoNet GoHttp Types OsioClient Rules Whitelist Middlewares EntryPoints Redirect.
From S2P Require Import Label ErrorPages Authenticator Certs GlobalConfig Cookie Handlers HealthCheck LoadConfig.
From S2P Require Wiring Balancer Api.
Open Scope go_scope.

(** ** The transport to the backends *)

(** The [tls.Config] of the transport. *)
Record TransportTLS := mkTransportTLS { tt_InsecureSkipVerify : bool; tt_RootCAs : option (list string) }.

Record HTTPTransport := mkHTTPTransport {
  ht_DialTimeout : Z;
  ht_MaxIdleConnsPerHost : Z;
  ht_IdleConnTimeout : Z;
  ht_TLSHandshakeTimeout : Z;
  ht_ExpectContinueTimeout : Z;
  ht_ResponseHeaderTimeout : Z;
  ht_TLS : option TransportTLS;
}.

Section Transport.
Context {Certificate : Type} `{files : !TLSFiles Certificate} `{oxy : Oxy}.

(** The contents in the pool; one that cannot be read is logged, one without a
    certificate adds nothing. *)
Definition createRootCACertPool (rootCAs : list string) : list string :=
  filter (fun c => valid_pem c = true) (omap (fun cert => match Read (Certificate := Certificate) cert with Ok c => Some c | Err _ => None end) rootCAs).

Definition createHTTPTransport (s : ServerSettings) : HTTPTransport :=
  let dial := match gs_ForwardingTimeouts s with Some t => DialTimeout t | None => DefaultDialTimeout end in
  let header := match gs_ForwardingTimeouts s with Some t => ResponseHeaderTimeout t | None => 0%Z end in
  let tls := if gs_InsecureSkipVerify s then Some (mkTransportTLS true None) else None in
  let tls := match gs_RootCAs s with
    | [] => tls
    | rootCAs => Some (mkTransportTLS false (Some (createRootCACertPool rootCAs)))
    end in
  mkHTTPTransport dial (MaxIdleConnsPerHost s) (90 * second) (10 * second) (1 * second) header tls.

(** The second assignment forgets the first: with authorities of its own, a
    server told not to verify its backends verifies them. *)
Lemma createHTTPTransport_verifies s :
  gs_RootCAs s <> [] ->
  ht_TLS (createHTTPTransport s) = Some (mkTransportTLS false (Some (createRootCACertPool (gs_RootCAs s)))).
Proof. intros H. unfold createHTTPTransport. simpl. by destruct (gs_RootCAs s). Qed.

End Transport.

(** ** The TLS configuration of an entry point *)

(** Where a certificate that is not among the static ones comes from. *)
Inductive getter := NoGetter | DynamicCertificates | ACMECertificates.

Record ServerTLS (Certificate : Type) := mkServerTLS {
  st_Certificates : list Certificate;
  st_NextProtos : list string;
  st_ClientCAs : option (list string);
  st_ClientAuth : ClientAuthType;
  st_GetCertificate : getter;
  st_PreferServerCipherSuites : bool;
  st_MinVersion : option Z;
  st_CipherSuites : option (list Z);
}.
Arguments mkServerTLS {Certificate}.
Arguments st_Certificates {Certificate}.
Arguments st_NextProtos {Certificate}.
Arguments st_ClientCAs {Certificate}.
Arguments st_ClientAuth {Certificate}.
Arguments st_GetCertificate {Certificate}.
Arguments st_PreferServerCipherSuites {Certificate}.
Arguments st_MinVersion {Certificate}.
Arguments st_CipherSuites {Certificate}.

(** What the server's code asks of others: [CreateClusterConfig] gives its
    default certificate; whether the router has set a redirection to the path
    with or without its last slash; [acme.Get()], if any. *)
Class ServerEnv (Certificate : Type) := {
  CreateClusterConfig : ACME -> result Certificate;
  slash_redirected : list (installed Certificate) -> Request -> bool;
  acme_provider : option ACMEConfiguration;
  net_Listen : string -> option error;
}.

Fixpoint cipher_suites (names : list string) : result (list Z) :=
  match names with
  | [] => Ok []
  | cipher :: names' =>
      match CipherSuiteIDs !! cipher with
      | None => Err ("Invalid CipherSuite: " +:+ cipher)
      | Some cipherConst => l ← cipher_suites names'; mret (cipherConst :: l)
      end
  end.

Section Setup.
Context {Certificate : Type} `{files : !TLSFiles Certificate} `{leafs : !Leaf Certificate} `{order : MapOrder}.
Context `{oxy : Oxy} `{env : !ServerEnv Certificate} (DefaultCertificate : result Certificate).

(** The configuration is made anew for the acme package when it serves this
    entry point; a nil list of cipher suites leaves the defaults. *)
Definition createTLSConfig (s : server) (entryPointName : string) (tlsOption : option EntryPoints.TLS) :
    result (option (ServerTLS Certificate)) :=
  match tlsOption with
  | None => Ok None
  | Some t =>
      certificates ← Certificates_CreateTLSConfig DefaultCertificate (tls_Certificates t) entryPointName;
      client ← match client_ca_files t with
        | [] => Ok (None, NoClientCert)
        | caFiles =>
            pool ← read_pool caFiles;
            let optional := match tls_ClientCAFiles t with [] => Optional (tls_ClientCA t) | _ => false end in
            mret (Some pool, if optional then VerifyClientCertIfGiven else RequireAndVerifyClientCert)
        end;
      '(certificates, get) ← match gc_ACME (globalConfiguration s) with
        | Some a =>
            if bool_decide (entryPointName = ac_EntryPoint a) then
              default ← CreateClusterConfig a; mret (certificates ++ [default], ACMECertificates)
            else mret (certificates, NoGetter)
        | None => mret (certificates, DynamicCertificates)
        end;
      match certificates with
      | [] => Err ("No certificates found for TLS entrypoint " +:+ entryPointName)
      | _ =>
          let min := MinVersions !! MinVersion t in
          ciphers ← match CipherSuites t with [] => Ok None | names => l ← cipher_suites names; mret (Some l) end;
          mret (Some (mkServerTLS certificates ["h2"; "http/1.1"] client.1 client.2 get (bool_decide (is_Some min)) min ciphers))
      end
  end.

(** ** Internal routes *)

(** A route under a path, and the middlewares in front of its handler. *)
Record internal_route := mkInternalRoute { ir_prefix : string; ir_route : Api.route; ir_middlewares : chain Certificate }.

Definition entry_is (o : option string) (entryPointName : string) : bool := bool_decide (o = Some entryPointName).

Definition addInternalRoutes (s : server) (entryPointName : string) : list Api.route :=
  let g := globalConfiguration s in
  (if entry_is (m ← gc_Metrics g; pr_EntryPoint <$> me_Prometheus m) entryPointName then Api.metrics_AddRoutes else []) ++
  (if entry_is (Rest (gc_Providers g)) entryPointName then Api.rest_AddRoutes else []) ++
  match gc_API g with
  | Some api => if bool_decide (api_EntryPoint api = entryPointName) then Api.api_AddRoutes (api_Debug api) (Dashboard api) else []
  | None => []
  end.

Definition addInternalPublicRoutes (s : server) (entryPointName : string) : list Api.route :=
  let g := globalConfiguration s in
  match gc_Ping g with
  | Some p => if nonempty (ping_EntryPoint p) && bool_decide (ping_EntryPoint p = entryPointName) then Api.ping_AddRoutes else []
  | None => []
  end ++
  (if entry_is (api_EntryPoint <$> gc_API g) entryPointName && gc_Cluster g then Api.leadership_AddRoutes else []).

Definition addACMERoutes (s : server) (entryPointName : string) : list Api.route :=
  if entry_is (a ← gc_ACME (globalConfiguration s); http_EntryPoint <$> ac_HTTPChallenge a) entryPointName then Api.acme_AddRoutes
  else if entry_is (a ← acme_provider; http_EntryPoint <$> ap_HTTPChallenge a) entryPointName then Api.acme_AddRoutes
  else [].

(** Only the routes there are when the router is walked get the middlewares. *)
Definition buildInternalRouter (s : server) (entryPointName path : string) (internalMiddlewares : chain Certificate) :
    list internal_route :=
  map (fun r => mkInternalRoute path r internalMiddlewares) (addInternalRoutes s entryPointName) ++
  map (fun r => mkInternalRoute path r []) (addInternalPublicRoutes s entryPointName) ++
  map (fun r => mkInternalRoute "/" r []) (addACMERoutes s entryPointName).

(** The path of the web provider, taken literally, precedes the routes. *)
Definition internal_path (s : server) : string :=
  match gc_Web (globalConfiguration s) with
  | Some web => if nonempty (web_Path web) then web_Path web else "/"
  | None => "/"
  end.

Fixpoint drop_slashes (s : string) : string :=
  match s with String "/" s' => drop_slashes s' | _ => s end.

Definition internal_matches (ir : internal_route) (path : string) : option (list (string * string)) :=
  if has_prefix (ir_prefix ir) "/" && has_prefix path (ir_prefix ir) then
    match strip_prefix (String.rev (drop_slashes (String.rev (ir_prefix ir)))) path with
    | Some rest => Api.path_matches (Api.rt_path (ir_route ir)) rest
    | None => None
    end
  else None.

Fixpoint find_internal (l : list internal_route) (method path : string) : option (internal_route * list (string * string)) :=
  match l with
  | [] => None
  | ir :: l' =>
      match internal_matches ir path with
      | Some vars => if bool_decide (method ∈ Api.rt_methods (ir_route ir)) then Some (ir, vars) else find_internal l' method path
      | None => find_internal l' method path
      end
  end.

(** ** The middlewares of an entry point *)

(** [log.Fatal] ends the process. *)
Definition or_fatal {A} (context : string) (r : result A) : outcome A :=
  match r with Ok a => Ret a | Err err => Crash (context +:+ err) end.

Definition entry_middlewares (s : server) (entryPointName : string) (entryPoint : EntryPoint) :
    outcome (chain Certificate * chain Certificate) :=
  auth ← match ep_Auth entryPoint with
    | Some a => m ← or_fatal "Error starting server: " (NewAuthenticator (Certificate := Certificate) (Some a)); mret (Some m)
    | None => Ret None
    end;
  ipWhitelistMiddleware ←
    or_fatal "Error starting server: " (Wiring.buildIPWhiteLister (ep_WhiteList entryPoint) (ep_WhitelistSourceRange entryPoint));
  let stats := match gc_API (globalConfiguration s) with
    | Some api =>
        MStats :: match api_Statistics api with Some st => [MStatsRecorder (RecentErrors st)] | None => [] end
    | None => []
    end in
  let logged m name := wrapNegroniHandlerWithAccessLog s m (name +:+ " for entrypoint " +:+ entryPointName) in
  mret ([MRecover; MOsioRequest] ++
        (if tracingEnabled s then [MTracingEntryPoint entryPointName] else []) ++
        (if accessLogger s then [MAccessLog] else []) ++
        (if metricsEnabled s then [MMetrics entryPointName] else []) ++
        stats ++
        match auth with Some m => [logged (MAuth m) "Auth"] | None => [] end ++
        (if Compress entryPoint then [MCompress] else []) ++
        match ipWhitelistMiddleware with Some wl => [logged (MWhiteList wl) "ipwhitelister"] | None => [] end ++
        [MOsioAuth],
        [MRecover] ++
        match auth with Some m => [MAuth m] | None => [] end ++
        match ipWhitelistMiddleware with Some wl => [MWhiteList wl] | None => [] end).

(** A server that listens: [sv_ProxyProtocol] checks the senders of the proxy
    protocol. *)
Record running_server := mkRunning {
  sv_Addr : string;
  sv_chain : chain Certificate;
  sv_internal : list internal_route;
  sv_TLS : option (ServerTLS Certificate);
  sv_timeouts : Z * Z * Z;
  sv_ProxyProtocol : option WhiteIP;
}.

Definition prepareServer (s : server) (entryPointName : string) (entryPoint : EntryPoint)
    (middlewares internalMiddlewares : chain Certificate) : result running_server :=
  let settings := gc_Settings (globalConfiguration s) in
  tlsConfig ← createTLSConfig s entryPointName (ep_TLS entryPoint);
  match net_Listen (ep_Address entryPoint) with
  | Some err => Err err
  | None =>
      proxy ← match ep_ProxyProtocol entryPoint with
        | Some pp =>
            match NewIP (pp_TrustedIPs pp) (pp_Insecure pp) false with
            | Ok IPs => Ok (Some IPs)
            | Err err => Err ("error creating whitelist: " +:+ err)
            end
        | None => Ok None
        end;
      mret (mkRunning (ep_Address entryPoint) (middlewares ++ [MRouter])
        (buildInternalRouter s entryPointName (internal_path s) internalMiddlewares) tlsConfig
        (Wiring.buildServerTimeouts (gs_RespondingTimeouts settings) (gs_IdleTimeout settings)) proxy)
  end.

Definition setupServerEntryPoint (s : server) (entryPointName : string) : outcome running_server :=
  match gc_EntryPoints (globalConfiguration s) !! entryPointName with
  | None => Panic nil_dereference
  | Some entryPoint =>
      chains ← entry_middlewares s entryPointName entryPoint;
      or_fatal "Error preparing server: " (prepareServer s entryPointName entryPoint chains.1 chains.2)
  end.

(** The source check of the proxy protocol's listener; [None] is an address
    that is not a TCP one. *)
Definition SourceCheck (IPs : WhiteIP) (addr : option GoNet.IP) : result bool :=
  match addr with Some ip => Ok (ContainsIP IPs ip) | None => Err "type error" end.

(** ** Swapping a configuration in *)

(** What of the server a reload changes. *)
Record dynamic := mkDynamic {
  currentConfigurations : Configurations;
  serverEntryPoints : gmap string (serverEntryPoint (Certificate := Certificate));
}.

(** Before the first configuration: empty routers, and the certificates
    [createTLSConfig] sets. *)
Definition startHTTPServers (s : server) : dynamic :=
  mkDynamic ∅ ((fun ep => mkServerEntryPoint [] (match ep_TLS ep with Some _ => Some ∅ | None => None end)) <$>
    gc_EntryPoints (globalConfiguration s)).

Definition update_entry_point (s : server) (loaded_entries : gmap string (serverEntryPoint (Certificate := Certificate))) (ep : string)
    (old : serverEntryPoint (Certificate := Certificate)) : serverEntryPoint (Certificate := Certificate) :=
  match loaded_entries !! ep with
  | None => old
  | Some new =>
      mkServerEntryPoint (httpRouter new)
        match gc_EntryPoints (globalConfiguration s) !! ep ≫= ep_TLS with Some _ => certs new | None => certs old end
  end.

(** The loaded configurations are those in force with the new one; when loading
    fails they stay, but the others share what loading changed in them. *)
Definition loadConfiguration `{UrlLib} `{RegexpLib} `{Mux} `{TimeLib} `{RouteSort Certificate} (s : server) (d : dynamic)
    (providerName : string) (configuration : Configuration) : outcome dynamic :=
  ld ← loadConfig DefaultCertificate s (<[providerName := configuration]> (currentConfigurations d));
  match ld_error ld with
  | None =>
      mret (mkDynamic (ld_configurations ld) (map_imap (fun ep old => Some (update_entry_point s (ld_entry_points ld) ep old)) (serverEntryPoints d)))
  | Some _ =>
      mret (mkDynamic (map_imap (fun p old => if bool_decide (p = providerName) then Some old else ld_configurations ld !! p)
                         (currentConfigurations d)) (serverEntryPoints d))
  end.

(** [postLoadConfiguration]: the domains of the frontends on the entry point of
    the cluster's ACME, for the leader to get certificates for. *)
Definition acme_enabled (s : server) (a : ACME) (frontend : Frontend) : bool :=
  existsb (fun ep => bool_decide (ac_EntryPoint a = ep) &&
    bool_decide (is_Some (gc_EntryPoints (globalConfiguration s) !! ep ≫= ep_TLS))) (EntryPoints frontend).

Definition frontend_domains `{Mux} (frontend : Frontend) : list (list string) :=
  omap (fun route => match ParseDomains route.2.(Rule) with Ok domains => Some domains | Err _ => None end) (range (Routes frontend)).

Definition postLoadConfiguration `{Mux} (s : server) (isLeader : bool) (d : dynamic) : list (list string) :=
  match gc_ACME (globalConfiguration s) with
  | Some a =>
      if gc_Cluster (globalConfiguration s) && isLeader && ac_OnHostRule a then
        mjoin (map (fun config : string * Configuration =>
          mjoin (map (fun frontend : string * Frontend => if acme_enabled s a frontend.2 then frontend_domains frontend.2 else [])
            (range (Frontends config.2)))) (range (currentConfigurations d)))
      else []
  | None => []
  end.

(** ** Serving *)

Inductive served :=
  | ServedAnswer
  | ServedInternal (e : Api.endpoint) (vars : list (string * string)) (r : Request)
  | ServedBackend (lb : handler Certificate) (r : Request).

Context {W : Type} `{handlers : !ServerHandlers Certificate W} `{regexps : RegexpLib} `{prefixes : PrefixRouter}.

(** The first route that matches, its path handlers, its chain. *)
Definition serve_router (router : list (installed Certificate)) (r : Request) : M W served :=
  match list_find (fun i => route_matches (sr_Route (in_route i)) r = true) router with
  | None => mret ServedAnswer
  | Some (_, i) =>
      if slash_redirected router r then mret ServedAnswer else
      match in_handler i with
      | None => mret ServedAnswer
      | Some c =>
          match Wiring.wireFrontendBackend (in_route i) (fun r => Handled (CallNext r)) r with
          | Handled (CallNext r') =>
              p ← run_chain c r';
              mret (match p with Balanced lb r'' => ServedBackend lb r'' | _ => ServedAnswer end)
          | SlicePanic => panic "slice bounds out of range"
          | _ => mret ServedAnswer
          end
      end
  end.

(** The internal routes come before everything else; a redirection for a slash
    is sent without their middlewares. *)
Definition serve (sv : running_server) (router : list (installed Certificate)) (r : Request) : M W served :=
  match find_internal (sv_internal sv) (Method r) (req_path r) with
  | Some (ir, vars) =>
      if Api.slash_redirect (Api.rt_path (ir_route ir)) (req_path r) then mret ServedAnswer else
      p ← run_chain (ir_middlewares ir ++ [MRouter]) r;
      mret (match p with Routed r' => ServedInternal (Api.rt_endpoint (ir_route ir)) vars r' | _ => ServedAnswer end)
  | None =>
      p ← run_chain (sv_chain sv) r;
      match p with Routed r' => serve_router router r' | _ => mret ServedAnswer end
  end.

End Setup.
