(* ===== verification/ServerFacts.v ===== *)
(** * What the servers of the entry points promise

    A request that reaches a backend, or an internal route, went through the
    guards of its entry point and of its frontend; with the configuration of
    the OSIO provider it reaches the cluster the middleware chose for its
    token, and carries that cluster's token. *)
From S2P Require Import Prelude GoStrings GoStringsFacts GoNet GoHttp GoHttpFacts Types OsioClient OsioServices OsioCache OsioAuth OsioAuthFacts.
From S2P Require Import OsioProvider OsioProviderFacts Rules Whitelist Middlewares EntryPoints Redirect Routing.
From S2P Require Import Label ErrorPages Authenticator Certs GlobalConfig Cookie Handlers HealthCheck LoadConfig LoadConfigFacts ServerSetup.
From S2P Require Wiring Balancer Api Reload.
Open Scope go_scope.

(** The internal routes that have no middlewares. *)
Definition public_endpoint (e : Api.endpoint) : bool :=
  match e with Api.EPing | Api.ELeader | Api.EChallenge => true | _ => false end.

Section Facts.
Context {Certificate : Type} `{files : !TLSFiles Certificate} `{leafs : !Leaf Certificate}.
Context `{order : MapOrder} {laws : MapOrderLaws order}.
Context `{urls : UrlLib} `{mux : Mux} `{times : TimeLib} `{oxy : Oxy} `{env : !ServerEnv Certificate}.
Context (DefaultCertificate : result Certificate) (s : server) (configurations : Configurations).
Context {W : Type} `{handlers : !ServerHandlers Certificate W} `{regexps : RegexpLib} `{prefixes : PrefixRouter}.

(** ** The guards of an entry point *)

(** The authenticator of the entry point, if it has one, is given the request
    [r] and lets it through as [r']. *)
Definition authenticated_by (entryPoint : EntryPoint) (r : Request) (w : W) (r' : Request) (w' : W) : Prop :=
  match ep_Auth entryPoint with
  | None => r' = r /\ w' = w
  | Some a => exists m, NewAuthenticator (Certificate := Certificate) (Some a) = Ok m /\
      authenticate (Certificate := Certificate) m r w = (Ret (Goes r'), w')
  end.

Lemma authenticated_method entryPoint r w r' w' : authenticated_by entryPoint r w r' w' -> Method r' = Method r.
Proof.
  unfold authenticated_by. destruct (ep_Auth entryPoint) as [a|]; [|by intros [-> _]]. intros (m & _ & H). revert H.
  destruct m as [users field|users field|config|]; simpl; [| |intros ([] & w1 & Hf & [[= <-] _]%mret_Ret_inv)%bind_Ret_inv|done].
  1,2: unfold basic_handler, digest_handler, mark_user; case_bool_decide; simpl; [by intros [=]|]; intros [= <- _]; by destruct (nonempty field).
  by apply Forward_passed in Hf as ->.
Qed.

(** Its white list accepts the request. *)
Definition accepted_by (entryPoint : EntryPoint) (r : Request) : Prop :=
  match Wiring.buildIPWhiteLister (ep_WhiteList entryPoint) (ep_WhitelistSourceRange entryPoint) with
  | Ok (Some wl) => IsAuthorized wl r = None
  | Ok None => True
  | Err _ => False
  end.

Lemma or_fatal_inv {A} context (r : result A) a : or_fatal context r = Ret a -> r = Ok a.
Proof. by destruct r; intros [= ->]. Qed.

(** What comes before the guards of an entry point, after the OSIO request
    middleware. *)
Definition guards_before (entryPointName : string) : chain Certificate :=
  (if tracingEnabled s then [MTracingEntryPoint entryPointName] else []) ++
  (if accessLogger s then [MAccessLog] else []) ++
  (if metricsEnabled s then [MMetrics entryPointName] else []) ++
  match gc_API (globalConfiguration s) with
  | Some handler => MStats :: match api_Statistics handler with Some st => [MStatsRecorder (RecentErrors st)] | None => [] end
  | None => []
  end.

(** A middleware that passes every request as it is. *)
Definition transparent (m : middleware Certificate) : Prop :=
  is_end m = false /\ forall r (w : W), pass m r w = (Ret (Goes r), w).

Lemma guards_before_transparent entryPointName : Forall transparent (guards_before entryPointName).
Proof.
  unfold guards_before. rewrite !Forall_app.
  split_and!; repeat case_match; repeat constructor.
Qed.

Lemma through_transparent l r w r' w' : Forall transparent l -> through l r w r' w' -> r' = r /\ w' = w.
Proof.
  intros Hl Ht. induction Ht as [|m n r r1 r2 w w1 w2 Hp Ht IH]; [done|]. apply Forall_cons in Hl as [[_ Hm] Hl].
  rewrite Hm in Hp. injection Hp as <- <-. by apply IH.
Qed.

(** The two chains are made of the same guards. *)
Lemma entry_middlewares_inv entryPointName entryPoint c ic :
  entry_middlewares (Certificate := Certificate) s entryPointName entryPoint = Ret (c, ic) ->
  exists auth wl logged pre,
    c = [MRecover; MOsioRequest] ++ pre ++ match auth with Some m => [logged (MAuth m) "Auth"] | None => [] end ++
        (if Compress entryPoint then [MCompress] else []) ++
        match wl with Some wl => [logged (MWhiteList wl) "ipwhitelister"] | None => [] end ++ [MOsioAuth] /\
    ic = [MRecover] ++ match auth with Some m => [MAuth m] | None => [] end ++
         match wl with Some wl => [MWhiteList wl] | None => [] end /\
    Forall transparent pre /\ (forall m n, unwrap (logged m n) = unwrap m) /\
    match ep_Auth entryPoint with None => auth = None | Some a => exists m, NewAuthenticator (Certificate := Certificate) (Some a) = Ok m /\ auth = Some m end /\
    Wiring.buildIPWhiteLister (ep_WhiteList entryPoint) (ep_WhitelistSourceRange entryPoint) = Ok wl.
Proof.
  unfold entry_middlewares. intros (auth & Ha & (wl & Hw%or_fatal_inv & H)%outcome_bind_inv)%outcome_bind_inv.
  cbv zeta in H. injection H as <- <-.
  exists auth, wl, (fun m name => wrapNegroniHandlerWithAccessLog s m (name +:+ " for entrypoint " +:+ entryPointName)).
  exists (guards_before entryPointName). split; [unfold guards_before; rewrite <-!app_assoc; reflexivity|]. split; [reflexivity|].
  split; [|split; [|split; [|exact Hw]]].
  - apply guards_before_transparent.
  - intros m n. unfold wrapNegroniHandlerWithAccessLog. by destruct (accessLogger s).
  - destruct (ep_Auth entryPoint) as [a|]; [|by injection Ha as <-].
    apply outcome_bind_inv in Ha as (m & Hm%or_fatal_inv & [= <-]). by exists m.
Qed.

Lemma pass_auth m a r w r' w' :
  unwrap m = MAuth a -> pass m r w = (Ret (Goes r'), w') -> authenticate (Certificate := Certificate) a r w = (Ret (Goes r'), w').
Proof. intros Hm. by rewrite pass_unwrap, Hm. Qed.

(** Going through a chain that has the authenticator in it. *)
Lemma through_auth entryPoint auth (f : middleware Certificate -> middleware Certificate) r w r' w' :
  (forall m, unwrap (f m) = unwrap m) ->
  match ep_Auth entryPoint with None => auth = None | Some a => exists m, NewAuthenticator (Certificate := Certificate) (Some a) = Ok m /\ auth = Some m end ->
  through match auth with Some m => [f (MAuth m)] | None => [] end r w r' w' -> authenticated_by entryPoint r w r' w'.
Proof.
  intros Hf Ha Ht. unfold authenticated_by. destruct (ep_Auth entryPoint) as [a|]; [|subst; by inversion Ht].
  destruct Ha as (m & Hm & ->). exists m. split; [done|]. inversion Ht as [|? ? ? ? ? ? ? ? Hp Hrest]; subst.
  inversion Hrest; subst. refine (pass_auth (f (MAuth m)) _ _ _ _ _ _ Hp). by rewrite Hf.
Qed.

Lemma through_wl entryPoint wl (f : middleware Certificate -> middleware Certificate) r (w : W) r' w' :
  (forall m, unwrap (f m) = unwrap m) ->
  Wiring.buildIPWhiteLister (ep_WhiteList entryPoint) (ep_WhitelistSourceRange entryPoint) = Ok wl ->
  through match wl with Some wl => [f (MWhiteList wl)] | None => [] end r w r' w' ->
  r' = r /\ w' = w /\ accepted_by entryPoint r.
Proof.
  intros Hf Hwl Ht. unfold accepted_by. rewrite Hwl. destruct wl as [wl|]; [|by inversion Ht].
  inversion Ht as [|? ? ? r1 ? ? w1 ? Hp Hrest]; subst. inversion Hrest; subst.
  by apply (pass_white_list _ wl) in Hp as (-> & -> & Hp); [|rewrite Hf].
Qed.

(** What the router of an entry point gets: the client's request, changed by the
    OSIO request middleware, let through by the authenticator, accepted by the
    white list, and then passed on by the OSIO middleware. *)
Definition admitted (entryPoint : EntryPoint) (r : Request) (w : W) (r2 : Request) (w2 : W) : Prop :=
  exists r0 r1 w1, osio_request r = CallNext r0 /\ authenticated_by entryPoint r0 w r1 w1 /\ accepted_by entryPoint r1 /\
    osio_auth r1 w1 = (Ret (CallNext r2), w2).

Lemma pass_osio_request r (w : W) r' w' :
  pass (Certificate := Certificate) MOsioRequest r w = (Ret (Goes r'), w') -> osio_request r = CallNext r' /\ w' = w.
Proof. simpl. destruct (osio_request r); simpl; try done. by intros [= -> ->]. Qed.

Lemma entry_chain_guards entryPointName entryPoint c ic r w r' w' :
  entry_middlewares (Certificate := Certificate) s entryPointName entryPoint = Ret (c, ic) ->
  run_chain (c ++ [MRouter]) r w = (Ret (Routed r'), w') ->
  admitted entryPoint r w r' w'.
Proof.
  intros (auth & wl & logged & pre & -> & _ & Hpre & Hlog & Ha & Hwl)%entry_middlewares_inv Hr.
  eapply run_to_last in Hr as (r2 & w2 & Ht & [= -> ->]); [| |done].
  2: { rewrite !Forall_app. split_and!; [by repeat constructor|by eapply Forall_impl; [exact Hpre|intros ? []]| | | |by repeat constructor].
    - destruct auth; [|done]. constructor; [|done]. unfold is_end. by rewrite Hlog.
    - destruct (Compress entryPoint); by repeat constructor.
    - destruct wl; [|done]. constructor; [|done]. unfold is_end. by rewrite Hlog. }
  apply through_app in Ht as (r0 & w0 & H0 & Ht). apply through_app in Ht as (ra & wa & Hp & Ht).
  apply through_app in Ht as (rb & wb & Hta & Ht). apply through_app in Ht as (rc & wc & Hcomp & Ht).
  apply through_app in Ht as (rd & wd & Htw & Ht).
  inversion H0 as [|? ? ? rr ? ? wr ? Hrec H1]; subst. injection Hrec as <- <-.
  inversion H1 as [|? ? ? rr ? ? wr ? Hreq H2]; subst. inversion H2; subst. apply pass_osio_request in Hreq as [Hreq ->].
  apply (through_transparent _ _ _ _ _ Hpre) in Hp as [-> ->].
  apply through_transparent in Hcomp as [-> ->]; [|destruct (Compress entryPoint); by repeat constructor].
  destruct (through_wl _ _ (fun m => logged m "ipwhitelister") _ _ _ _ (fun m => Hlog m _) Hwl Htw) as (-> & -> & Hacc).
  exists r0, rb, wb. split; [done|]. split; [exact (through_auth _ _ (fun m => logged m "Auth") _ _ _ _ (fun m => Hlog m _) Ha Hta)|].
  split; [done|]. inversion Ht as [|? ? ? re ? ? we ? Hend Hrest]; subst. inversion Hrest; subst.
  simpl in Hend. apply bind_Ret_inv in Hend as (h & w3 & Ho & Hend). apply mret_Ret_inv in Hend as [Hend ->].
  destruct h; try done. by injection Hend as ->.
Qed.

(** The server is made of the two chains. *)
Lemma setup_inv entryPointName sv :
  setupServerEntryPoint DefaultCertificate s entryPointName = Ret sv ->
  exists entryPoint c ic, gc_EntryPoints (globalConfiguration s) !! entryPointName = Some entryPoint /\
    entry_middlewares (Certificate := Certificate) s entryPointName entryPoint = Ret (c, ic) /\ sv_chain sv = c ++ [MRouter] /\
    sv_internal sv = buildInternalRouter s entryPointName (internal_path s) ic.
Proof.
  unfold setupServerEntryPoint. destruct (gc_EntryPoints _ !! entryPointName) as [entryPoint|] eqn:He; [|done].
  intros ([c ic] & Hc & H%or_fatal_inv)%outcome_bind_inv. exists entryPoint, c, ic. split; [done|]. split; [done|].
  unfold prepareServer in H. apply result_bind_inv in H as (tls & _ & H).
  destruct (net_Listen _); [done|]. apply result_bind_inv in H as (proxy & _ & H). by injection H as <-.
Qed.

(** ** Internal routes *)

Lemma find_internal_elem (l : list (internal_route (Certificate := Certificate))) method path ir vars : find_internal l method path = Some (ir, vars) -> ir ∈ l.
Proof.
  induction l as [|x l IH]; simpl; [done|]. destruct (internal_matches x path); [|intros ?; right; by apply IH].
  case_bool_decide; [|intros ?; right; by apply IH]. intros [= <- _]. by left.
Qed.

Lemma internal_router_inv entryPointName path ic ir :
  ir ∈ buildInternalRouter (Certificate := Certificate) s entryPointName path ic ->
  ir_middlewares ir = ic \/ ir_middlewares ir = [] /\ public_endpoint (Api.rt_endpoint (ir_route ir)) = true.
Proof.
  unfold buildInternalRouter. rewrite !elem_of_app, !list_elem_of_fmap. intros [(r & -> & _)|[(r & -> & Hr)|(r & -> & Hr)]].
  - by left.
  - right. split; [done|]. simpl. unfold addInternalPublicRoutes in Hr. apply elem_of_app in Hr as [Hr|Hr].
    + destruct (gc_Ping _) as [p|]; [|by apply elem_of_nil in Hr]. destruct (nonempty _ && _); [|by apply elem_of_nil in Hr].
      by apply list_elem_of_singleton in Hr as ->.
    + destruct (entry_is _ _ && _); [|by apply elem_of_nil in Hr]. by apply list_elem_of_singleton in Hr as ->.
  - right. split; [done|]. simpl. unfold addACMERoutes in Hr.
    destruct (entry_is _ _); [|destruct (entry_is _ _); [|by apply elem_of_nil in Hr]]; by apply list_elem_of_singleton in Hr as ->.
Qed.

(** C6: who may use the routes an entry point serves itself.  A request that
    gets to the handler of the metrics, the API, the dashboard or the REST
    provider is what the authenticator of the entry point, asked about the
    client's own request, let through, and the white list accepts it; ping, the
    leadership and the challenges of ACME are open to everybody. *)
Theorem internal_requests_are_guarded entryPointName sv router r (w : W) e vars r' w' :
  setupServerEntryPoint DefaultCertificate s entryPointName = Ret sv ->
  serve sv router r w = (Ret (ServedInternal e vars r'), w') ->
  public_endpoint e = true \/
  exists entryPoint, gc_EntryPoints (globalConfiguration s) !! entryPointName = Some entryPoint /\
    authenticated_by entryPoint r w r' w' /\ accepted_by entryPoint r'.
Proof.
  intros (entryPoint & c & ic & He & Hc & _ & Hi)%setup_inv Hs. unfold serve in Hs.
  destruct (find_internal _ _ _) as [[ir vs]|] eqn:Hf.
  2: { apply bind_Ret_inv in Hs as (p & w1 & _ & Hs). destruct p; try (by apply mret_Ret_inv in Hs as [[=] _]).
       unfold serve_router in Hs. destruct (list_find _ _) as [[? i]|]; [|by apply mret_Ret_inv in Hs as [[=] _]].
       destruct (slash_redirected _ _); [by apply mret_Ret_inv in Hs as [[=] _]|].
       destruct (in_handler i) as [h|]; [|by apply mret_Ret_inv in Hs as [[=] _]].
       destruct (Wiring.wireFrontendBackend _ _ _) as [[]| |]; try (by apply mret_Ret_inv in Hs as [[=] _]); [|done].
       apply bind_Ret_inv in Hs as ([] & w2 & _ & Hs); by apply mret_Ret_inv in Hs as [[=] _]. }
  destruct (Api.slash_redirect _ _); [by apply mret_Ret_inv in Hs as [[=] _]|].
  apply bind_Ret_inv in Hs as (p & w1 & Hr & Hs). apply mret_Ret_inv in Hs as [Hs ->].
  destruct p as [| | |r1]; try done. injection Hs as -> -> ->.
  rewrite Hi in Hf. destruct (internal_router_inv _ _ _ _ (find_internal_elem _ _ _ _ _ Hf)) as [E|[_ ?]]; [right|by left].
  exists entryPoint. split; [done|]. apply entry_middlewares_inv in Hc as (auth & wl & _ & _ & _ & -> & _ & _ & Ha & Hwl).
  rewrite E in Hr. eapply run_to_last in Hr as (r2 & w2 & Ht & [= -> ->]); [| |done].
  2: { rewrite !Forall_app. split_and!; [by repeat constructor|by destruct auth; repeat constructor|by destruct wl; repeat constructor]. }
  apply through_app in Ht as (ra & wa & Hrec & Ht). apply through_app in Ht as (rb & wb & Hta & Htw).
  apply through_transparent in Hrec as [-> ->]; [|by repeat constructor].
  destruct (through_wl _ _ (fun m => m) _ _ _ _ (fun m => eq_refl) Hwl Htw) as (-> & -> & Hacc).
  split; [exact (through_auth _ _ (fun m => m) _ _ _ _ (fun m => eq_refl) Ha Hta)|done].
Qed.

(** ** Backends *)

Lemma serve_router_inv router r (w : W) lb r' w' :
  serve_router router r w = (Ret (ServedBackend lb r'), w') ->
  exists n i c r1, list_find (fun i => route_matches (sr_Route (in_route i)) r = true) router = Some (n, i) /\
    in_handler i = Some c /\ Wiring.wireFrontendBackend (in_route i) (fun r => Handled (CallNext r)) r = Handled (CallNext r1) /\
    run_chain c r1 w = (Ret (Balanced lb r'), w').
Proof.
  unfold serve_router. destruct (list_find _ _) as [[n i]|]; [|by intros [[=] _]%mret_Ret_inv].
  destruct (slash_redirected _ _); [by intros [[=] _]%mret_Ret_inv|].
  destruct (in_handler i) as [c|] eqn:Hc; [|by intros [[=] _]%mret_Ret_inv].
  destruct (Wiring.wireFrontendBackend _ _ _) as [[| | |r1]| |] eqn:Hw; try (by intros [[=] _]%mret_Ret_inv); [|done].
  intros (p & w2 & Hp & [Hs ->]%mret_Ret_inv)%bind_Ret_inv. destruct p; try done. injection Hs as -> ->. by exists n, i, c, r1.
Qed.

Lemma serve_backend_inv entryPointName sv router r (w : W) lb r' w' :
  setupServerEntryPoint DefaultCertificate s entryPointName = Ret sv ->
  serve sv router r w = (Ret (ServedBackend lb r'), w') ->
  exists entryPoint r2 w2, gc_EntryPoints (globalConfiguration s) !! entryPointName = Some entryPoint /\
    admitted entryPoint r w r2 w2 /\ serve_router router r2 w2 = (Ret (ServedBackend lb r'), w').
Proof.
  intros (entryPoint & c & ic & He & Hc & Hch & _)%setup_inv Hs. unfold serve in Hs.
  destruct (find_internal _ _ _) as [[ir vs]|].
  { destruct (Api.slash_redirect _ _); [by apply mret_Ret_inv in Hs as [[=] _]|].
    apply bind_Ret_inv in Hs as ([] & w1 & _ & Hs); by apply mret_Ret_inv in Hs as [[=] _]. }
  apply bind_Ret_inv in Hs as (p & w1 & Hp & Hs). destruct p as [| | |r1]; try (by apply mret_Ret_inv in Hs as [[=] _]).
  rewrite Hch in Hp. exists entryPoint, r1, w1. split; [done|]. split; [|done]. by eapply entry_chain_guards.
Qed.

(** C3: who may reach a backend of a running entry point.  The client's request,
    as the OSIO request middleware left it, was let through by the
    authenticator of the entry point; what that let through was accepted by its
    white list and passed on by the OSIO middleware after it; what that
    middleware passed on is routed by the first route that matches it, made of
    the rules of a frontend of the entry point; its path handlers pass a request
    that satisfies the white list of a frontend with the same chain, and the
    very request the balancer gets satisfies that frontend's users. *)
Theorem served_requests_are_guarded `{sort : !RouteSort (Certificate := Certificate)} entryPointName sv ld e r (w : W) lb r' w' :
  (forall l, sort_routes l ≡ₚ l) ->
  setupServerEntryPoint DefaultCertificate s entryPointName = Ret sv ->
  loadConfig DefaultCertificate s configurations = Ret ld -> ld_entry_points ld !! entryPointName = Some e ->
  serve sv (httpRouter e) r w = (Ret (ServedBackend lb r'), w') ->
  exists entryPoint r2 w2 n i r3 p f p' name' ep' f',
    gc_EntryPoints (globalConfiguration s) !! entryPointName = Some entryPoint /\ admitted entryPoint r w r2 w2 /\
    list_find (fun i => route_matches (sr_Route (in_route i)) r2 = true) (httpRouter e) = Some (n, i) /\
    a_frontend configurations p (in_name i) f /\ entryPointName ∈ EntryPoints f /\ made_of f (in_route i) /\
    Wiring.wireFrontendBackend (in_route i) (fun r => Handled (CallNext r)) r2 = Handled (CallNext r3) /\
    a_frontend configurations p' name' f' /\
    backend_key entryPointName p (fe_Backend f) = backend_key ep' p' (fe_Backend f') /\
    match white_list f' with Some wl => IsAuthorized wl r3 = None | None => True end /\
    match basic_users f' with Some users => basic_CheckAuth (secretBasic users) r' <> "" | None => True end.
Proof using laws.
  intros Hsort Hsv Hld He Hs.
  destruct (serve_backend_inv _ _ _ _ _ _ _ _ Hsv Hs) as (entryPoint & r2 & w2 & Hep & Ha & Hr).
  destruct (serve_router_inv _ _ _ _ _ _ Hr) as (n & i & c & r3 & Hf & Hc & Hw & Hrun).
  pose proof Hf as (Hi & _ & _)%list_find_Some. apply list_elem_of_lookup_2 in Hi.
  destruct (loaded_route DefaultCertificate s configurations ld entryPointName e i c Hsort Hld He Hi Hc)
    as (p & f & p' & name' & ep' & f' & nn & pages & last & Hfr & Hin & Hmade & Hbuilt).
  pose proof (built_guard _ _ _ _ _ _ _ _ _ _ _ _ _ _ _ _ Hbuilt Hrun) as [Hwl Hau]. destruct Hbuilt.
  exists entryPoint, r2, w2, n, i, r3, p, f, p', name', ep', f'. split_and!; assumption.
Qed.

(** ** Reloads *)

(** The routes that are served are those of frontends in force, made of their
    rules, on the entry points of the static configuration. *)
Definition consistent (d : dynamic (Certificate := Certificate)) : Prop :=
  dom (serverEntryPoints d) = dom (gc_EntryPoints (globalConfiguration s)) /\
  forall ep e i, serverEntryPoints d !! ep = Some e -> i ∈ httpRouter e -> is_Some (in_handler i) ->
    exists p config f, currentConfigurations d !! p = Some config /\ Frontends config !! in_name i = Some f /\ made_of f (in_route i).

Lemma start_consistent : consistent (startHTTPServers s).
Proof.
  split; [simpl; by rewrite dom_fmap_L|]. intros ep e i He Hi. simpl in He. apply lookup_fmap_Some in He as (x & <- & _).
  by apply elem_of_nil in Hi.
Qed.

(** Frontends with other entry points are made of the same rules. *)
Lemma same_parts_frontend config config' name f sr :
  same_parts config config' -> Frontends config !! name = Some f -> made_of f sr ->
  exists f', Frontends config' !! name = Some f' /\ made_of f' sr.
Proof.
  intros [_ H] Hf Hm. specialize (H name). rewrite Hf in H. destruct (Frontends config' !! name) as [f'|]; [|done].
  exists f'. split; [done|]. destruct H as [-> _]. exact Hm.
Qed.

(** A served route stays one when the configurations keep their parts. *)
Lemma kept_route (old new : Configurations) p config f name sr :
  keeps_configurations old new -> old !! p = Some config -> Frontends config !! name = Some f -> made_of f sr ->
  exists config' f', new !! p = Some config' /\ Frontends config' !! name = Some f' /\ made_of f' sr.
Proof.
  intros Hk Hc Hf Hm. specialize (Hk p). rewrite Hc in Hk. destruct (new !! p) as [config'|]; [|done].
  destruct (same_parts_frontend _ _ _ _ _ Hk Hf Hm) as (f' & ? & ?). eauto.
Qed.

Lemma lookup_imap_configurations (f : string -> Configuration -> option Configuration) (m : Configurations) p c :
  m !! p = Some c -> (map_imap f m : Configurations) !! p = f p c.
Proof. intros H. refine (eq_trans (map_lookup_imap f (m : gmap string Configuration) p) _). exact (f_equal (mbind (f p)) H). Qed.

(** C7: a reload is all or nothing, and what is served agrees with the
    configurations that are in force, which the API shows: when a configuration
    is swapped in, every entry point gets the router made of it; when loading
    fails every entry point keeps its router and certificates; in both cases
    every route with a handler is one of a frontend in force and of its rules.
    An entry point without TLS keeps its certificates as they are. *)
Theorem reload_consistent `{sort : !RouteSort (Certificate := Certificate)} (d d' : dynamic) providerName configuration :
  (forall l, sort_routes l ≡ₚ l) -> consistent d ->
  loadConfiguration DefaultCertificate s d providerName configuration = Ret d' ->
  consistent d' /\
  ((exists ld, loadConfig DefaultCertificate s (<[providerName := configuration]> (currentConfigurations d)) = Ret ld /\
      ld_error ld = None /\ currentConfigurations d' = ld_configurations ld /\
      forall ep, httpRouter <$> (serverEntryPoints d' !! ep) = httpRouter <$> (ld_entry_points ld !! ep)) \/
   serverEntryPoints d' = serverEntryPoints d) /\
  (forall ep entryPoint, gc_EntryPoints (globalConfiguration s) !! ep = Some entryPoint -> ep_TLS entryPoint = None ->
     certs <$> (serverEntryPoints d' !! ep) = certs <$> (serverEntryPoints d !! ep)).
Proof using laws.
  intros Hsort [Hdom Hroutes] (ld & Hld & H)%outcome_bind_inv.
  destruct (loaded_configurations DefaultCertificate s _ ld Hld) as [Hk Hd].
  destruct (ld_error ld) as [err|] eqn:Herr; injection H as <-.
  - split; [|split; [by right|done]]. split; [exact Hdom|]. intros ep e i He Hi Hh.
    destruct (Hroutes ep e i He Hi Hh) as (p & config & f & Hc & Hf & Hm). simpl. exists p.
    destruct (decide (p = providerName)) as [Hp|Hp].
    + exists config, f. split; [|done]. rewrite (lookup_imap_configurations _ _ _ _ Hc). by rewrite bool_decide_eq_true_2.
    + destruct (kept_route _ _ p config f _ _ Hk ltac:(by etrans; [apply lookup_insert_ne|]) Hf Hm) as (config' & f' & Hc' & Hf' & Hm').
      exists config', f'. split; [|done]. rewrite (lookup_imap_configurations _ _ _ _ Hc). by rewrite bool_decide_eq_false_2.
  - assert (forall ep, is_Some (ld_entry_points ld !! ep) <-> is_Some (serverEntryPoints d !! ep)) as Hsome
      by (intros ep; by rewrite <-!elem_of_dom, Hd, Hdom).
    split; [split|split].
    + simpl. rewrite <-Hdom. apply dom_imap_L. intros ep. rewrite elem_of_dom. split; [intros [x Hx]; by exists x; eauto|].
      intros (x & Hx & _). by exists x.
    + intros ep e i He Hi Hh. simpl in He. rewrite map_lookup_imap in He. unfold update_entry_point in He.
      destruct (serverEntryPoints d !! ep) as [old|] eqn:Eo; [|done]. simpl in He.
      destruct (ld_entry_points ld !! ep) as [new|] eqn:En.
      2: { exfalso. destruct (proj2 (Hsome ep)) as [x Hx]; [by rewrite Eo|]. by rewrite En in Hx. }
      injection He as <-. simpl in Hi. destruct Hh as [c Hc].
      destruct (loaded_route _ _ _ ld ep new i c Hsort Hld En Hi Hc) as (p & f & ? & ? & ? & ? & ? & ? & ? & (config & Hcf & Hf) & _ & Hm & _).
      exists p. simpl. exact (kept_route _ _ p config f _ _ Hk Hcf Hf Hm).
    + left. exists ld. split; [done|]. split; [done|]. split; [done|]. intros ep. simpl. rewrite map_lookup_imap.
      unfold update_entry_point. specialize (Hsome ep). destruct (ld_entry_points ld !! ep), (serverEntryPoints d !! ep); try done; simpl.
      * destruct Hsome as [Hs _]. by destruct (Hs (mk_is_Some _ _ eq_refl)).
      * destruct Hsome as [_ Hs]. by destruct (Hs (mk_is_Some _ _ eq_refl)).
    + intros ep entryPoint He Htls. simpl. rewrite map_lookup_imap. destruct (serverEntryPoints d !! ep) as [old|]; [|done]. simpl.
      unfold update_entry_point. destruct (ld_entry_points ld !! ep); [|done]. rewrite He. simpl. by rewrite Htls.
Qed.

(** ** TLS *)

Lemma read_pool_Ok caFiles pool :
  read_pool (Certificate := Certificate) caFiles = Ok pool <->
  Forall2 (fun f c => ReadFile f = Ok c /\ valid_pem c = true) caFiles pool.
Proof.
  revert pool. induction caFiles as [|f l IH]; intros pool; cbn [read_pool].
  - split; [by intros [= <-]|by inversion 1].
  - destruct (ReadFile f) as [c|e] eqn:Ef; simpl; [|split; [done|by inversion 1 as [|? ? ? ? [? _]]; congruence]].
    destruct (valid_pem c) eqn:Ev; simpl; [|split; [done|inversion 1 as [|? ? ? ? [? ?]]; congruence]]. split.
    + intros (p & Hp & [= <-])%result_bind_inv. constructor; [done|]. by apply IH.
    + inversion 1 as [|? c' ? p [Hc _] Hp]; subst. apply IH in Hp. rewrite Hp. rewrite Ef in Hc. by injection Hc as ->.
Qed.

Lemma cipher_suites_Ok names l : cipher_suites names = Ok l <-> Forall2 (fun n c => CipherSuiteIDs !! n = Some c) names l.
Proof.
  revert l. induction names as [|n names IH]; intros l; cbn [cipher_suites].
  - split; [by intros [= <-]|by inversion 1].
  - destruct (CipherSuiteIDs !! n) as [c|] eqn:E; [|split; [done|inversion 1; congruence]]. split.
    + intros (l' & Hl & [= <-])%result_bind_inv. constructor; [done|]. by apply IH.
    + inversion 1 as [|? c' ? l' Hc Hl]; subst. apply IH in Hl. rewrite Hl. rewrite E in Hc. by injection Hc as ->.
Qed.

(** The TLS configuration of an entry point that could be made.  It has a
    certificate; when authorities for client certificates are configured,
    under the current or the deprecated name, each of their files was read and
    has a certificate, and clients have to present one, except where the
    current name says it is optional; the cipher suites are those that were
    named, in their order, each a known one; the minimal version is the one
    that was named, if it is known.  Dynamic certificates are served exactly
    when the cluster's ACME is not configured, on any entry point. *)
Theorem createTLSConfig_spec entryPointName t c :
  createTLSConfig DefaultCertificate s entryPointName (Some t) = Ok (Some c) ->
  st_Certificates c <> [] /\
  match tls_ClientCAFiles t ++ ca_Files (tls_ClientCA t) with
  | [] => st_ClientCAs c = None /\ st_ClientAuth c = NoClientCert
  | _ => (exists pool, st_ClientCAs c = Some pool /\
            Forall2 (fun f content => ReadFile f = Ok content /\ valid_pem content = true) (client_ca_files t) pool) /\
         (st_ClientAuth c = RequireAndVerifyClientCert \/
          st_ClientAuth c = VerifyClientCertIfGiven /\ Optional (tls_ClientCA t) = true /\ tls_ClientCAFiles t = [])
  end /\
  match CipherSuites t with
  | [] => st_CipherSuites c = None
  | names => exists l, st_CipherSuites c = Some l /\ Forall2 (fun n i => CipherSuiteIDs !! n = Some i) names l
  end /\
  st_MinVersion c = MinVersions !! MinVersion t /\
  (st_GetCertificate c = DynamicCertificates <-> gc_ACME (globalConfiguration s) = None).
Proof.
  cbn [createTLSConfig]. intros (certificates & _ & (client & Hclient & ([cs get] & Hget & H)%result_bind_inv)%result_bind_inv)%result_bind_inv.
  destruct cs as [|cert cs]; [done|]. apply result_bind_inv in H as (ciphers & Hciphers & [= <-]). simpl. split; [done|]. split; [|split; [|split; [done|]]].
  - unfold client_ca_files in *. destruct (tls_ClientCAFiles t) as [|f l]; simpl.
    + destruct (ca_Files (tls_ClientCA t)) as [|f l]; [by injection Hclient as <-|].
      apply result_bind_inv in Hclient as (pool & Hpool%read_pool_Ok & [= <-]). split; [by exists pool|]. simpl.
      destruct (Optional (tls_ClientCA t)); [by right|by left].
    + apply result_bind_inv in Hclient as (pool & Hpool%read_pool_Ok & [= <-]). split; [by exists pool|]. by left.
  - destruct (CipherSuites t) as [|n l]; [by injection Hciphers as <-|].
    apply result_bind_inv in Hciphers as (ids & Hids%cipher_suites_Ok & [= <-]). by exists ids.
  - destruct (gc_ACME _) as [acme|]; [|by injection Hget as _ <-]. split; [|done]. case_bool_decide; [|by injection Hget as _ <-].
    by apply result_bind_inv in Hget as (d & _ & [= _ <-]).
Qed.

End Facts.

(** ** Witnesses *)

#[local] Existing Instances sample_files sample_leaf sample_urls no_regexps no_times sample_oxy sample_sort sample_mux forward_order.

Definition sample_env : ServerEnv unit :=
  {| CreateClusterConfig _ := Ok tt; slash_redirected _ _ := false; acme_provider := None; net_Listen _ := None |}.
Definition sample_prefixes : PrefixRouter := fun _ _ => None.
#[local] Existing Instances sample_env sample_prefixes.

(** One entry point with a white list, the API and ping. *)
Definition guarded_entry : EntryPoint := mkEntryPoint ":80" None None None ["10.0.0.0/8"] None false None (Some insecure_forwarding).
Definition guarded_server : server :=
  mkServer (mkGlobal {["http" := guarded_entry]} ["http"] false None 0 None (Some (mkAPI "http" false false None)) (Some (mkPing "http"))
    None None false None (gc_Providers empty_global) (sample_settings (Some 30%Z))) false false false.
Definition guarded_setup : outcome (running_server (Certificate := unit)) := setupServerEntryPoint (Err "no default") guarded_server "http".
Definition request_from (path host remote : string) : Request := mkRequest "GET" (mkURL "" "" "" path "" false "") ∅ host path remote false.

Lemma internal_requests_are_guarded_witness :
  exists sv r', guarded_setup = Ret sv /\
    serve (handlers := sample_handlers) sv [] (request_from "/api" "a.com" "10.9.9.9:1234") tt = (Ret (ServedInternal Api.EConfig [] r'), tt) /\
    accepted_by guarded_entry r'.
Proof.
  destruct guarded_setup as [sv| |] eqn:E; [|by vm_compute in E|by vm_compute in E].
  assert (exists r', serve (handlers := sample_handlers) sv [] (request_from "/api" "a.com" "10.9.9.9:1234") tt =
    (Ret (ServedInternal Api.EConfig [] r'), tt)) as [r' Hs].
  { vm_compute in E. injection E as <-. eexists. vm_compute. reflexivity. }
  exists sv, r'. split; [reflexivity|]. split; [exact Hs|].
  destruct (internal_requests_are_guarded (handlers := sample_handlers) (Err "no default") guarded_server "http" sv []
    (request_from "/api" "a.com" "10.9.9.9:1234") tt Api.EConfig [] r' tt E Hs) as [Hp|(entryPoint & Hep & _ & Hacc)]; [discriminate Hp|].
  injection Hep as <-. exact Hacc.
Defined.

(** From elsewhere the API is not answered, ping is. *)
Example outside_refused :
  match guarded_setup with
  | Ret sv =>
      (serve (handlers := sample_handlers) sv [] (request_from "/api" "a.com" "192.168.0.1:1") tt).1 = Ret ServedAnswer /\
      exists r, (serve (handlers := sample_handlers) sv [] (request_from "/ping" "a.com" "192.168.0.1:1") tt).1 = Ret (ServedInternal Api.EPing [] r)
  | _ => False
  end.
Proof. vm_compute. split; [reflexivity|]. by eexists. Qed.

Definition guarded_load := loadConfig (Err "no default") guarded_server guarded_config.

(** What a request gets from a server and a loaded configuration. *)
Definition reaches_backend {W} `{ServerHandlers unit W} (setup : outcome (running_server (Certificate := unit))) (load : outcome (loaded (Certificate := unit)))
    (r : Request) (w : W) : bool :=
  match setup, load with
  | Ret sv, Ret ld =>
      match ld_entry_points ld !! "http" with
      | Some e => match serve sv (httpRouter e) r w with (Ret (ServedBackend _ _), _) => true | _ => false end
      | None => false
      end
  | _, _ => false
  end.

Lemma reaches_backend_inv {W} `{ServerHandlers unit W} setup load r (w : W) :
  reaches_backend setup load r w = true -> exists sv ld e lb r' w',
    setup = Ret sv /\ load = Ret ld /\ ld_entry_points ld !! "http" = Some e /\ serve sv (httpRouter e) r w = (Ret (ServedBackend lb r'), w').
Proof.
  unfold reaches_backend. destruct setup as [sv| |]; [|done|done]. destruct load as [ld| |]; [|done|done].
  destruct (ld_entry_points ld !! "http") as [e|] eqn:He; [|done].
  destruct (serve sv (httpRouter e) r w) as [[[| |lb r']| |] w'] eqn:Hs; try done. intros _. by exists sv, ld, e, lb, r', w'.
Qed.

Lemma served_requests_are_guarded_witness :
  reaches_backend (H := sample_handlers) guarded_setup guarded_load client_request tt = true /\
  exists r2, admitted (handlers := sample_handlers) guarded_entry client_request tt r2 tt /\ accepted_by guarded_entry client_request.
Proof.
  assert (reaches_backend (H := sample_handlers) guarded_setup guarded_load client_request tt = true) as Hr by (vm_compute; reflexivity).
  split; [exact Hr|]. apply reaches_backend_inv in Hr as (sv & ld & e & lb & r' & w' & E & El & He & Hs).
  destruct (served_requests_are_guarded (handlers := sample_handlers) (Err "no default") guarded_server guarded_config "http" sv ld e
    client_request tt lb r' w') as (entryPoint & r2 & w2 & n & i & r3 & p & f & p' & name' & ep' & f' & Hep & Hadm & _).
  - intros l. apply merge_sort_Permutation.
  - exact E.
  - exact El.
  - exact He.
  - exact Hs.
  - destruct w2. injection Hep as <-. exists r2. split; [exact Hadm|].
    destruct Hadm as (r0 & r1 & w1 & [= <-] & [-> ->] & Hacc & _). exact Hacc.
Defined.

Lemma reload_consistent_witness :
  exists d, loadConfiguration (Err "no default") guarded_server (startHTTPServers guarded_server) "file"
      (mkConfiguration {["web" := web_backend]} {["a" := on_http "Host:a.com" "web" []]} []) = Ret d /\
    consistent guarded_server d.
Proof.
  destruct (loadConfiguration (Err "no default") guarded_server (startHTTPServers guarded_server) "file"
    (mkConfiguration {["web" := web_backend]} {["a" := on_http "Host:a.com" "web" []]} [])) as [d| |] eqn:E;
    [|by vm_compute in E|by vm_compute in E].
  exists d. split; [reflexivity|].
  refine (proj1 (reload_consistent (Err "no default") guarded_server (startHTTPServers guarded_server) d "file"
    (mkConfiguration {["web" := web_backend]} {["a" := on_http "Host:a.com" "web" []]} []) _ _ E)).
  - intros l. apply merge_sort_Permutation.
  - apply start_consistent.
Defined.

(** An entry point with a deprecated list of authorities and named suites. *)
Definition pem_files : TLSFiles unit :=
  {| file_exists _ := true; ReadFile n := Ok n; LoadX509KeyPair _ _ := Ok tt; X509KeyPair _ _ := Ok tt |}.
Definition pem_oxy : Oxy :=
  {| forward_New := None; buffer_New _ := None; breaker_New _ := None; os_Hostname := Ok "proxy"; oxy_rewriter _ _ r := r; valid_pem _ := true |}.
Definition mutual_tls : EntryPoints.TLS :=
  EntryPoints.mkTLS "VersionTLS12" ["TLS_ECDHE_RSA_WITH_AES_128_GCM_SHA256"] [("a.crt", "a.key")] ["ca.pem"] (mkClientCA [] true).

Lemma createTLSConfig_spec_witness :
  exists c, createTLSConfig (files := pem_files) (oxy := pem_oxy) (Err "no default") guarded_server "https" (Some mutual_tls) = Ok (Some c) /\
    st_ClientCAs c = Some ["ca.pem"] /\ st_ClientAuth c = RequireAndVerifyClientCert.
Proof.
  destruct (createTLSConfig (files := pem_files) (oxy := pem_oxy) (Err "no default") guarded_server "https" (Some mutual_tls))
    as [[c|]|] eqn:E; [|by vm_compute in E|by vm_compute in E].
  exists c. split; [reflexivity|].
  destruct (createTLSConfig_spec (files := pem_files) (oxy := pem_oxy) (Err "no default") guarded_server "https" mutual_tls c E)
    as (_ & [(pool & Hp & Hf) Hauth] & _).
  split.
  - rewrite Hp. apply Forall2_cons_inv_l in Hf as (x & l & [Hx _] & Hl%Forall2_nil_inv_l & ->). injection Hx as <-. by rewrite Hl.
  - destruct Hauth as [H|(_ & _ & H)]; [exact H|discriminate H].
Defined.
