(* ===== verification/Lifecycle.v ===== *)
(** * [server/server.go], [server_signals.go], [log/logger.go]: starting anew and ending

    [Rotation]: on SIGUSR1 the access log and the log are closed and opened again,
    while lines go on being written.  [Shutdown]: on SIGINT and SIGTERM the proxy
    stops accepting, lets its connections finish and ends.  Both are step
    relations: one goroutine follows the code, the others may come between any
    two of its steps. *)
From S2P Require Import Prelude GoStrings Types.
From S2P Require Api.

Module Rotation.

(** ** Files

    Every successful open gives a new handle; the standard output is the handle 0.
    A line written to a closed handle is lost. *)
Record files := mkFiles { next : nat; closed : gset nat; lines : list (nat * string); lost : list string }.

Definition stdout : nat := 0.

Definition write (h : nat) (line : string) (w : files) : files :=
  if bool_decide (h ∈ closed w) then mkFiles (next w) (closed w) (lines w) (lost w ++ [line])
  else mkFiles (next w) (closed w) (lines w ++ [(h, line)]) (lost w).
Definition open (w : files) : nat * files := (next w, mkFiles (S (next w)) (closed w) (lines w) (lost w)).
Definition close (h : option nat) (w : files) : files :=
  match h with Some h => mkFiles (next w) ({[h]} ∪ closed w) (lines w) (lost w) | None => w end.

(** ** The logs

    [LogHandler]: the path of its configuration, its file, and where its logger
    writes; of the package [log] the variables [logFilePath] and [logFile], and
    where logrus writes. *)
Record LogHandler := mkLogHandler { FilePath : string; file : option nat; Out : nat }.

(** Where the goroutine of [listenSignals] is: waiting for a signal, or inside
    [Rotate] or [RotateFile], with the file that the deferred call will close. *)
Inductive rotation :=
  | Listening
  | AccessOpened (old : option nat)
  | AccessSwapped (old : option nat)
  | LogDue
  | LogOpened (old : option nat)
  | LogSwapped (old : option nat).

Record logging := mkLogging {
  fs : files;
  accessLoggerMiddleware : option LogHandler;
  logFilePath : string;
  logFile : option nat;
  output : nat;
  at_ : rotation;
}.

(** ** Opening at the start: [NewLogHandler], [OpenFile], [CloseFile]

    [ok]: whether the operating system opens the file; it never opens the empty
    path. *)
Definition can_open (path : string) (ok : bool) : bool := nonempty path && ok.

Definition NewLogHandler_file (path : string) (ok : bool) (w : files) : result (LogHandler * files) :=
  if nonempty path then
    if can_open path ok then let '(h, w) := open w in Ok (mkLogHandler path (Some h) h, w)
    else Err "error opening access log file"
  else Ok (mkLogHandler path (Some stdout) stdout, w).

Definition OpenFile (path : string) (ok : bool) (l : logging) : logging * option error :=
  if can_open path ok then
    let '(h, w) := open (fs l) in (mkLogging w (accessLoggerMiddleware l) path (Some h) h (at_ l), None)
  else (mkLogging (fs l) (accessLoggerMiddleware l) path None (output l) (at_ l), Some "open").

Definition CloseFile (l : logging) : logging :=
  mkLogging (close (logFile l) (fs l)) (accessLoggerMiddleware l) (logFilePath l) (logFile l) stdout (at_ l).

(** ** The steps of [listenSignals] *)

Definition go_to (a : rotation) (l : logging) : logging :=
  mkLogging (fs l) (accessLoggerMiddleware l) (logFilePath l) (logFile l) (output l) a.

(** [Rotate]: what its file was is closed when it returns; the logger keeps its
    output when the file cannot be opened. *)
Definition Rotate_open (h : LogHandler) (ok : bool) (l : logging) : logging :=
  if can_open (FilePath h) ok then
    let '(f, w) := open (fs l) in
    mkLogging w (Some (mkLogHandler (FilePath h) (Some f) (Out h))) (logFilePath l) (logFile l) (output l) (AccessOpened (file h))
  else
    mkLogging (fs l) (Some (mkLogHandler (FilePath h) None (Out h))) (logFilePath l) (logFile l) (output l) (AccessSwapped (file h)).

(** The assignment under the lock. *)
Definition Rotate_swap (h : LogHandler) (f : nat) (old : option nat) (l : logging) : logging :=
  mkLogging (fs l) (Some (mkLogHandler (FilePath h) (file h) f)) (logFilePath l) (logFile l) (output l) (AccessSwapped old).

(** [RotateFile]. *)
Definition RotateFile_open (ok : bool) (l : logging) : logging :=
  if bool_decide (logFile l = None) && negb (nonempty (logFilePath l)) then go_to Listening l
  else if can_open (logFilePath l) ok then
    let '(f, w) := open (fs l) in
    mkLogging w (accessLoggerMiddleware l) (logFilePath l) (Some f) (output l) (LogOpened (logFile l))
  else mkLogging (fs l) (accessLoggerMiddleware l) (logFilePath l) None (output l) (LogSwapped (logFile l)).

Definition RotateFile_swap (f : nat) (old : option nat) (l : logging) : logging :=
  mkLogging (fs l) (accessLoggerMiddleware l) (logFilePath l) (logFile l) f (LogSwapped old).

Definition close_old (old : option nat) (a : rotation) (l : logging) : logging :=
  mkLogging (close old (fs l)) (accessLoggerMiddleware l) (logFilePath l) (logFile l) (output l) a.

Definition write_line (h : nat) (line : string) (l : logging) : logging :=
  mkLogging (write h line (fs l)) (accessLoggerMiddleware l) (logFilePath l) (logFile l) (output l) (at_ l).

(** [step oks]: [oks] are the answers of the operating system that are possible. *)
Inductive step (oks : bool -> Prop) : logging -> logging -> Prop :=
  | step_signal l h ok : at_ l = Listening -> accessLoggerMiddleware l = Some h -> oks ok -> step oks l (Rotate_open h ok l)
  | step_signal_log l : at_ l = Listening -> accessLoggerMiddleware l = None -> step oks l (go_to LogDue l)
  | step_swap l h f old : at_ l = AccessOpened old -> accessLoggerMiddleware l = Some h -> file h = Some f ->
      step oks l (Rotate_swap h f old l)
  | step_close l old : at_ l = AccessSwapped old -> step oks l (close_old old LogDue l)
  | step_log_open l ok : at_ l = LogDue -> oks ok -> step oks l (RotateFile_open ok l)
  | step_log_swap l f old : at_ l = LogOpened old -> logFile l = Some f -> step oks l (RotateFile_swap f old l)
  | step_log_close l old : at_ l = LogSwapped old -> step oks l (close_old old Listening l)
  | step_access l h line : accessLoggerMiddleware l = Some h -> step oks l (write_line (Out h) line l)
  | step_line l line : step oks l (write_line (output l) line l).

(** ** Rotating files loses nothing *)

(** The files in use: those of the two logs, and the one that is about to be
    closed. *)
Definition pending_access (a : rotation) : list nat :=
  match a with AccessOpened (Some o) | AccessSwapped (Some o) => [o] | _ => [] end.
Definition pending_log (a : rotation) : list nat :=
  match a with LogOpened (Some o) | LogSwapped (Some o) => [o] | _ => [] end.
Definition access_files (l : logging) : list nat :=
  match accessLoggerMiddleware l with Some h => option_list (file h) ++ pending_access (at_ l) | None => [] end.
Definition log_files (l : logging) : list nat :=
  match logFile l with Some g => g :: pending_log (at_ l) | None => [output l] end.

(** What holds while every file can be opened: the files in use are open and
    told apart, and what a log writes to is one of them. *)
Record kept (l : logging) : Prop := {
  kept_apart : NoDup (access_files l ++ log_files l);
  kept_closed x : x ∈ closed (fs l) -> x < next (fs l);
  kept_open : Forall (fun x => x < next (fs l) /\ x ∉ closed (fs l)) (access_files l ++ log_files l);
  kept_access : match accessLoggerMiddleware l with
    | Some h => nonempty (FilePath h) = true /\ exists f, file h = Some f /\
        match at_ l with AccessOpened old => old = Some (Out h) | AccessSwapped old => is_Some old /\ Out h = f | _ => Out h = f end
    | None => match at_ l with AccessOpened _ | AccessSwapped _ => False | _ => True end
    end;
  kept_log : match logFile l with
    | Some g => nonempty (logFilePath l) = true /\
        match at_ l with LogOpened old => old = Some (output l) | LogSwapped old => is_Some old /\ output l = g | _ => output l = g end
    | None => nonempty (logFilePath l) = false /\ match at_ l with LogOpened _ | LogSwapped _ => False | _ => True end
    end;
  kept_lost : lost (fs l) = [];
}.

Definition opens (ok : bool) : Prop := ok = true.

Lemma write_open h line w : h ∉ closed w -> write h line w = mkFiles (next w) (closed w) (lines w ++ [(h, line)]) (lost w).
Proof. intros Hh. unfold write. by rewrite bool_decide_eq_false_2. Qed.

(** Opening adds a file that is in no use, closing takes one away. *)
Definition apart (n : nat) (c : gset nat) (l : list nat) : Prop := NoDup l /\ Forall (fun y => y < n /\ y ∉ c) l.

Lemma apart_perm n c l l' : l ≡ₚ l' -> apart n c l -> apart n c l'.
Proof. intros Hl [Hn Hf]. split; [by rewrite <- Hl|by rewrite <- Hl]. Qed.
Lemma apart_open n c l : (forall y, y ∈ c -> y < n) -> apart n c l -> apart (S n) c (n :: l).
Proof.
  intros Hc [Hn Hl]. rewrite Forall_forall in Hl. split.
  - constructor; [|done]. intros Hx%Hl. lia.
  - rewrite Forall_forall. intros y [->|Hy]%elem_of_cons; [split; [lia|intros ?%Hc; lia]|]. apply Hl in Hy as [? ?]. split; [lia|done].
Qed.
Lemma apart_close n c x l : apart n c (x :: l) -> x < n /\ apart n ({[x]} ∪ c) l.
Proof.
  intros [[Hx Hn]%NoDup_cons [[? _] Hl]%Forall_cons]. split; [done|]. split; [done|]. rewrite Forall_forall in *. intros y Hy.
  destruct (Hl _ Hy). split; [done|]. intros [->%elem_of_singleton|?]%elem_of_union; done.
Qed.

Lemma kept_apart_open l : kept l -> apart (next (fs l)) (closed (fs l)) (access_files l ++ log_files l).
Proof. intros K. split; [apply (kept_apart _ K)|apply (kept_open _ K)]. Qed.

(** One step of a rotation in which files can be opened. *)
Ltac kept_intro K := pose proof (kept_apart_open _ K) as KA; destruct K as [_ KC _ Kacc Klog KL].

Lemma kept_Rotate_open l h : kept l -> at_ l = Listening -> accessLoggerMiddleware l = Some h -> kept (Rotate_open h true l).
Proof.
  intros K Ha Hh. kept_intro K. unfold access_files, log_files in KA. rewrite Hh, Ha in *. destruct Kacc as (Hp & f & Hf & Ho).
  unfold Rotate_open, can_open. rewrite Hp. simpl. rewrite Hf in *. simpl in KA. apply apart_open in KA as [? ?]; [|done].
  split; unfold access_files, log_files; simpl; try done.
  - intros y ?%KC. lia.
  - split; [done|]. exists (next (fs l)). by subst f.
Qed.

Lemma kept_Rotate_swap l h f old : kept l -> at_ l = AccessOpened old -> accessLoggerMiddleware l = Some h -> file h = Some f ->
  kept (Rotate_swap h f old l).
Proof.
  intros K Ha Hh Hf. kept_intro K. unfold access_files, log_files in KA. rewrite Hh, Ha, Hf in *. destruct Kacc as (Hp & f' & [= <-] & ->).
  destruct KA as [? ?]. split; unfold access_files, log_files; simpl; rewrite ?Hf; simpl; try done; eauto 6.
Qed.

Lemma kept_close_access l old : kept l -> at_ l = AccessSwapped old -> kept (close_old old LogDue l).
Proof.
  intros K Ha. kept_intro K. unfold access_files, log_files in KA. rewrite Ha in *.
  destruct (accessLoggerMiddleware l) as [h|] eqn:Hh; [|done]. destruct Kacc as (Hp & f & Hf & [o ->] & Ho). rewrite Hf in KA. simpl in KA.
  eapply apart_perm in KA; [|apply Permutation_swap]. apply apart_close in KA as (? & ? & ?).
  split; unfold access_files, log_files; simpl; rewrite ?Hh, ?Hf; simpl; try done; eauto.
  intros y [->%elem_of_singleton|?]%elem_of_union; [done|by apply KC].
Qed.

Lemma kept_go_to l : kept l -> at_ l = Listening -> accessLoggerMiddleware l = None -> kept (go_to LogDue l).
Proof.
  intros K Ha Hh. kept_intro K. unfold access_files, log_files in KA. rewrite Hh, Ha in *. destruct KA as [? ?].
  split; unfold access_files, log_files; simpl; rewrite ?Hh; simpl; done.
Qed.

Lemma kept_RotateFile_open l : kept l -> at_ l = LogDue -> kept (RotateFile_open true l).
Proof.
  intros K Ha. kept_intro K. unfold access_files, log_files in KA. rewrite Ha in *. unfold RotateFile_open.
  destruct (logFile l) as [g|] eqn:Hg.
  - destruct Klog as [Hp Ho]. simpl. unfold can_open. rewrite Hp. simpl.
    apply apart_open in KA; [|done]. eapply apart_perm in KA as [? ?]; [|apply Permutation_middle].
    split; unfold access_files, log_files; simpl; try done.
    + intros y ?%KC. lia.
    + split; [done|]. by rewrite Ho.
  - destruct Klog as [Hp _]. rewrite Hp. simpl. destruct KA as [? ?].
    split; unfold access_files, log_files; simpl; rewrite ?Hg; try done.
Qed.

Lemma kept_RotateFile_swap l f old : kept l -> at_ l = LogOpened old -> logFile l = Some f -> kept (RotateFile_swap f old l).
Proof.
  intros K Ha Hf. kept_intro K. unfold access_files, log_files in KA. rewrite Ha, Hf in *. destruct Klog as [Hp ->], KA as [? ?].
  split; unfold access_files, log_files; simpl; rewrite ?Hf; simpl; try done; eauto.
Qed.

Lemma kept_close_log l old : kept l -> at_ l = LogSwapped old -> kept (close_old old Listening l).
Proof.
  intros K Ha. kept_intro K. unfold access_files, log_files in KA. rewrite Ha in *.
  destruct (logFile l) as [g|] eqn:Hg; [|by destruct Klog]. destruct Klog as (Hp & [o ->] & Ho). simpl in KA.
  eapply apart_perm in KA; [|symmetry; rewrite (Permutation_swap o g []); apply Permutation_middle].
  apply apart_close in KA as (? & ? & ?).
  split; unfold access_files, log_files; simpl; rewrite ?Hg; simpl; try done; eauto.
  intros y [->%elem_of_singleton|?]%elem_of_union; [done|by apply KC].
Qed.

(** What a log writes to is one of the files in use. *)
Lemma kept_write l h line : kept l -> h ∈ access_files l ++ log_files l -> kept (write_line h line l).
Proof.
  intros K Hin. assert (h ∉ closed (fs l)) as Hc by by apply (proj1 (Forall_forall _ _) (kept_open _ K) _ Hin).
  destruct K. by split; simpl; rewrite ?write_open by done.
Qed.

Lemma kept_step l l' : kept l -> step opens l l' -> kept l'.
Proof.
  intros K Hs. destruct Hs as [l h ok Ha Hh ->|l Ha Hh|l h f old Ha Hh Hf|l old Ha|l ok Ha ->|l f old Ha Hf|l old Ha|l h line Hh|l line].
  - by apply kept_Rotate_open.
  - by apply kept_go_to.
  - by apply kept_Rotate_swap.
  - by apply kept_close_access.
  - by apply kept_RotateFile_open.
  - by apply kept_RotateFile_swap.
  - by apply kept_close_log.
  - apply kept_write; [done|]. destruct K as [_ _ _ Kacc _ _]. unfold access_files. rewrite Hh in *.
    destruct Kacc as (_ & f & -> & Ho). apply elem_of_app. left. destruct (at_ l); subst; set_solver.
  - apply kept_write; [done|]. destruct K as [_ _ _ _ Klog _]. unfold log_files. destruct (logFile l) as [g|]; [|set_solver].
    destruct Klog as [_ Ho]. apply elem_of_app. right. destruct (at_ l); subst; set_solver.
Qed.

(** ** From the start on *)

(** The logs of a proxy that was started with an access log at [path], and a log
    at [logPath], or at the standard output when it is empty. *)
Definition no_files : files := mkFiles 1 ∅ [] [].
Definition start (path : option string) (logPath : string) : option logging :=
  match match path with
        | None => Some (None, no_files)
        | Some path => match NewLogHandler_file path true no_files with Ok (h, w) => Some (Some h, w) | Err _ => None end
        end with
  | Some (h, w) =>
      let l := mkLogging w h "" None stdout Listening in
      Some (if nonempty logPath then (OpenFile logPath true l).1 else l)
  | None => None
  end.

Lemma kept_start path logPath l : start path logPath = Some l -> path <> Some "" -> kept l.
Proof.
  unfold start, OpenFile, can_open. intros Hs Hp. destruct path as [path|].
  - unfold NewLogHandler_file, can_open in Hs. destruct (nonempty path) eqn:Hn.
    2:{ unfold nonempty in Hn. bool_simpl. by subst. }
    simpl in Hs. destruct (nonempty logPath) eqn:Hl; simplify_eq/=; split; unfold access_files, log_files; simpl; rewrite ?Hn, ?Hl; eauto;
      try set_solver; try (repeat constructor; set_solver).
    all: repeat (apply Forall_cons; split); try (split; [unfold stdout; lia|set_solver]); try apply Forall_nil_2.
  - destruct (nonempty logPath) eqn:Hl; simplify_eq/=; split; unfold access_files, log_files; simpl; rewrite ?Hl; eauto;
      try set_solver; try (repeat constructor; set_solver).
    all: repeat (apply Forall_cons; split); try (split; [unfold stdout; lia|set_solver]); try apply Forall_nil_2.
Qed.

Lemma write_lines h line w : lines w `prefix_of` lines (write h line w).
Proof. unfold write. case_bool_decide; simpl; [done|]. by eexists. Qed.

Lemma close_lines h w : lines (close h w) = lines w.
Proof. by destruct h. Qed.

Lemma step_lines oks l l' : step oks l l' -> lines (fs l) `prefix_of` lines (fs l').
Proof.
  destruct 1; simpl; try done; try apply write_lines.
  - unfold Rotate_open. by case_match.
  - by rewrite close_lines.
  - unfold RotateFile_open, go_to. by destruct (_ && _), (can_open (logFilePath l) ok).
  - by rewrite close_lines.
Qed.

(** However lines and rotations interleave, no line is lost and none that was
    written is taken back, as long as the files can be opened. *)
Theorem rotation_keeps_lines path logPath l l' : start path logPath = Some l -> path <> Some "" -> rtc (step opens) l l' ->
  lost (fs l') = [] /\ lines (fs l) `prefix_of` lines (fs l').
Proof.
  intros Hs Hp Hr. assert (kept l) as K by by eapply kept_start. clear Hs. split.
  - apply kept_lost. induction Hr as [|l l1 l' Hl _ IH]; [done|]. apply IH. by eapply kept_step.
  - clear K. induction Hr as [|l l1 l' Hl _ IH]; [done|]. etransitivity; [by eapply step_lines|done].
Qed.

(** ** A rotation that cannot open *)

(** An access log whose output is closed and whose file cannot be opened, and
    with it a log that shares the output. *)
Record silenced (l : logging) : Prop := {
  silenced_access : exists h, accessLoggerMiddleware l = Some h /\ FilePath h = "" /\ Out h = stdout /\ file h = None;
  silenced_log : logFilePath l = "" /\ logFile l = None /\ output l = stdout;
  silenced_at : match at_ l with Listening | LogDue => True | AccessSwapped old => old = None | _ => False end;
  silenced_closed : stdout ∈ closed (fs l);
}.

Lemma silenced_step oks l l' : silenced l -> step oks l l' -> silenced l'.
Proof.
  intros [(h & Hh & Hp & Ho & Hf) (Hlp & Hlf & Hlo) Ha Hc] Hs.
  destruct Hs as [l h' ok Hat Hh' _|l Hat _|l h' f old Hat|l old Hat|l ok Hat _|l f old Hat|l old Hat|l h' line Hh'|l line];
    rewrite ?Hat in Ha; try done; simplify_eq/=.
  - unfold Rotate_open, can_open. rewrite Hp. simpl. split; simpl; eauto 10.
  - split; simpl; eauto 10.
  - split; simpl; eauto 10.
  - unfold RotateFile_open. rewrite Hlf, Hlp. simpl. split; simpl; eauto 10.
  - split; simpl; eauto 10. unfold write. by case_bool_decide.
  - split; simpl; eauto 10. unfold write. by case_bool_decide.
Qed.

(** An access log on the standard output: the first rotation closes it, and no
    line of the access log, nor of a log that is not in a file, is ever written
    again, whatever the operating system answers. *)
Theorem rotation_silences_stdout l : start (Some "") "" = Some l ->
  exists l2, rtc (step (fun _ => True)) l l2 /\ forall l', rtc (step (fun _ => True)) l2 l' ->
    forall h line, accessLoggerMiddleware l' = Some h ->
      lost (fs (write_line (Out h) line l')) = lost (fs l') ++ [line] /\ lost (fs (write_line (output l') line l')) = lost (fs l') ++ [line].
Proof.
  intros [= <-]. eexists. split.
  { eapply rtc_l; [by eapply (step_signal _ _ _ true)|]. eapply rtc_l; [by eapply step_close|]. apply rtc_refl. }
  intros l' Hr. assert (silenced l') as [(h0 & Hh0 & _ & Ho & _) (_ & _ & Hlo) _ Hc].
  { eapply (rtc_ind_r silenced); [..|exact Hr]; [|intros ? ? _ ? ?; by eapply silenced_step].
    split; simpl; eauto 10. set_solver. }
  intros h line Hh. simplify_eq. unfold write_line, write. simpl. rewrite Ho, Hlo. by rewrite bool_decide_eq_true_2.
Qed.

(** A file that cannot be opened once: the lines until the next rotation are lost,
    which then opens it again. *)
Definition handled_lines (l : logging) : list string * list string := (snd <$> lines (fs l), lost (fs l)).
Definition rotate (ok : bool) (l : logging) : logging :=
  match accessLoggerMiddleware l with
  | Some h =>
      let l := Rotate_open h ok l in
      let l := match accessLoggerMiddleware l, at_ l with
        | Some h, AccessOpened old => match file h with Some f => Rotate_swap h f old l | None => l end
        | _, _ => l
        end in
      match at_ l with AccessSwapped old => RotateFile_open ok (close_old old LogDue l) | _ => l end
  | None => l
  end.
Definition log_access (line : string) (l : logging) : logging :=
  match accessLoggerMiddleware l with Some h => write_line (Out h) line l | None => l end.

Example lines_lost_until_reopened :
  handled_lines <$> ((fun l => log_access "c" (rotate true (log_access "b" (rotate false (log_access "a" l))))) <$> start (Some "access.log") "")
  = Some (["a"; "c"], ["b"]).
Proof. by vm_compute. Qed.

Definition sample_logs : logging := default (mkLogging no_files None "" None stdout Listening) (start (Some "access.log") "traefik.log").
Lemma rotation_keeps_lines_witness : lost (fs (log_access "a" sample_logs)) = [].
Proof.
  destruct (rotation_keeps_lines (Some "access.log") "traefik.log" sample_logs (log_access "a" sample_logs)) as [Hl _]; [by vm_compute|done| |exact Hl].
  apply rtc_once. by apply (step_access opens sample_logs (mkLogHandler "access.log" (Some 1) 1) "a").
Defined.

End Rotation.

Module Shutdown.

(** ** What is done when the context ends

    The goroutine of [StartWithContext], with [Stop] and the deferred [Close]
    written out, is a list of operations; the conditions it looks at do not
    change while it runs. *)
Inductive op :=
  | AwaitDone | SetTerminating | SleepGrace
  | SpawnShutdown (entryPoint : string) | WaitShutdowns | SendStop
  | WatchDeadline | StopMetrics | StopLeadership | CleanupPool
  | CloseConfigurations | CloseValidated | StopSignals | CloseSignals | CloseStop
  | CloseAccessLog | CancelDeadline.

#[export] Instance op_eq_dec : EqDecision op. Proof. solve_decision. Defined.

(** The configuration: whether there is a ping handler, the time for requests to
    cease, whether the proxy takes part in an election and has an access log. *)
Record settings := mkSettings { Ping : bool; RequestAcceptGraceTimeout : Z; Leadership : bool; AccessLogger : bool }.

(** [entryPoints] in the order in which [Stop] ranges over them. *)
Definition Stop (entryPoints : list string) : list op := map SpawnShutdown entryPoints ++ [WaitShutdowns; SendStop].

Definition Close (c : settings) : list op :=
  [WatchDeadline; StopMetrics] ++ (if Leadership c then [StopLeadership] else []) ++
  [CleanupPool; CloseConfigurations; CloseValidated; StopSignals; CloseSignals; CloseStop] ++
  (if AccessLogger c then [CloseAccessLog] else []) ++ [CancelDeadline].

Definition StartWithContext (c : settings) (entryPoints : list string) : list op :=
  AwaitDone ::
  (if Ping c && (0 <? RequestAcceptGraceTimeout c)%Z then [SetTerminating] else []) ++
  (if (0 <? RequestAcceptGraceTimeout c)%Z then [SleepGrace] else []) ++
  Stop entryPoints ++ Close c.

(** ** The process *)

(** The server of an entry point: its requests that are not answered, those that
    were cut off, whether [GraceTimeOut] has passed since [Shutdown], and the
    connections that were taken over from it, as WebSockets are: neither
    [Shutdown] nor [Close] of Go's server knows of these any more. *)
Inductive status := Serving | Draining | Down.
Record entry := mkEntry { ep_status : status; active : nat; cut : nat; elapsed : bool; hijacked : nat }.

Inductive timer := Inactive | Armed | Canceled.
Inductive process := Running | Exited | Killed.

#[export] Instance status_eq_dec : EqDecision status. Proof. solve_decision. Defined.

(** [stop_values]: what is in the channel [stopChan], which has room for one. *)
Record world := mkWorld {
  cancelled : bool;
  serverEntryPoints : gmap string entry;
  terminating : bool;
  stop_values : nat;
  stop_closed : bool;
  participates : bool;
  pool_ended : bool;
  deadline : timer;
}.

Record system := mkSystem { todo : list op; finished : list op; w : world; proc : process }.

Definition begin_shutdown (e : entry) : entry := mkEntry Draining (active e) (cut e) (elapsed e) (hijacked e).

(** One operation of the goroutine, none when it blocks. *)
Definition perform (o : op) (w : world) : option world :=
  let '(mkWorld c eps t v cl p pe d) := w in
  match o with
  | AwaitDone => if c then Some w else None
  | SetTerminating => Some (mkWorld c eps true v cl p pe d)
  | SpawnShutdown ep => Some (mkWorld c (alter begin_shutdown ep eps) t v cl p pe d)
  | WaitShutdowns => if bool_decide (map_Forall (fun _ e => ep_status e <> Draining) eps) then Some w else None
  | SendStop => if Nat.eqb v 0 then Some (mkWorld c eps t 1 cl p pe d) else None
  | WatchDeadline => Some (mkWorld c eps t v cl p pe Armed)
  | StopLeadership => Some (mkWorld c eps t v cl false pe d)
  | CleanupPool => if pe then Some w else None
  | CloseStop => Some (mkWorld c eps t v true p pe d)
  | CancelDeadline => Some (mkWorld c eps t v cl p pe Canceled)
  | SleepGrace | StopMetrics | CloseConfigurations | CloseValidated | StopSignals | CloseSignals | CloseAccessLog => Some w
  end.

Definition with_entry (ep : string) (e : entry) (w : world) : world :=
  mkWorld (cancelled w) (<[ep := e]> (serverEntryPoints w)) (terminating w) (stop_values w) (stop_closed w) (participates w)
    (pool_ended w) (deadline w).

(** What else happens: the signal; requests that arrive, where they are accepted,
    are answered, or take their connection over, which ends some time later;
    [Shutdown] returning when nothing is active, or when its time is over, when
    [Close] cuts off the rest; the end of the pool. *)
Inductive event : world -> world -> Prop :=
  | event_signal w : event w (mkWorld true (serverEntryPoints w) (terminating w) (stop_values w) (stop_closed w) (participates w)
      (pool_ended w) (deadline w))
  | event_request w ep n k h : serverEntryPoints w !! ep = Some (mkEntry Serving n k false h) ->
      event w (with_entry ep (mkEntry Serving (S n) k false h) w)
  | event_answer w ep st n k el h : serverEntryPoints w !! ep = Some (mkEntry st (S n) k el h) ->
      event w (with_entry ep (mkEntry st n k el h) w)
  | event_hijack w ep st n k el h : serverEntryPoints w !! ep = Some (mkEntry st (S n) k el h) ->
      event w (with_entry ep (mkEntry st n k el (S h)) w)
  | event_hijacked_end w ep st n k el h : serverEntryPoints w !! ep = Some (mkEntry st n k el (S h)) ->
      event w (with_entry ep (mkEntry st n k el h) w)
  | event_drained w ep k el h : serverEntryPoints w !! ep = Some (mkEntry Draining 0 k el h) ->
      event w (with_entry ep (mkEntry Down 0 k el h) w)
  | event_elapsed w ep n k el h : serverEntryPoints w !! ep = Some (mkEntry Draining n k el h) ->
      event w (with_entry ep (mkEntry Draining n k true h) w)
  | event_cut w ep n k h : serverEntryPoints w !! ep = Some (mkEntry Draining n k true h) ->
      event w (with_entry ep (mkEntry Down 0 (k + n) true h) w)
  | event_pool w : event w (mkWorld (cancelled w) (serverEntryPoints w) (terminating w) (stop_values w) (stop_closed w)
      (participates w) true (deadline w)).

(** [main] waits on [stopChan] and exits; the goroutine of the deadline kills the
    process. *)
Inductive shutdown_step : system -> system -> Prop :=
  | step_op s o l w' : proc s = Running -> todo s = o :: l -> perform o (w s) = Some w' ->
      shutdown_step s (mkSystem l (finished s ++ [o]) w' Running)
  | step_event s w' : proc s = Running -> event (w s) w' -> shutdown_step s (mkSystem (todo s) (finished s) w' Running)
  | step_exit s : proc s = Running -> 0 < stop_values (w s) \/ stop_closed (w s) = true ->
      shutdown_step s (mkSystem (todo s) (finished s) (w s) Exited)
  | step_deadline s : proc s = Running -> deadline (w s) = Armed -> shutdown_step s (mkSystem (todo s) (finished s) (w s) Killed).

Definition fresh : entry := mkEntry Serving 0 0 false 0.
Definition started (c : settings) (entryPoints : list string) : system :=
  mkSystem (StartWithContext c entryPoints) []
    (mkWorld false (list_to_map (map (fun ep => (ep, fresh)) entryPoints)) false 0 false (Leadership c) false Inactive) Running.

Definition reachable (c : settings) (entryPoints : list string) (s : system) : Prop := rtc shutdown_step (started c entryPoints) s.

(** ** What was done before *)

(** Of a list done from its start, all of a first part is done when something is
    that is not in it. *)
Lemma done_split {A} (l1 l2 d t : list A) (b : A) : d ++ t = l1 ++ l2 -> b ∈ d -> b ∉ l1 -> exists d', d = l1 ++ d' /\ d' ++ t = l2.
Proof.
  revert d. induction l1 as [|x l1 IH]; intros d He Hb Hn; [by exists d|].
  destruct d as [|y d]; [by apply elem_of_nil in Hb|]. simplify_eq/=. apply not_elem_of_cons in Hn as [? ?].
  apply elem_of_cons in Hb as [->|Hb]; [done|]. destruct (IH d) as (d' & -> & Hd); try done. by exists d'.
Qed.
Lemma done_before {A} (l1 l2 d t : list A) (a b : A) : d ++ t = l1 ++ l2 -> b ∈ d -> b ∉ l1 -> a ∈ l1 -> a ∈ d.
Proof. intros He Hb Hn Ha. destruct (done_split _ _ _ _ _ He Hb Hn) as (d' & -> & _). apply elem_of_app. by left. Qed.

Section Facts.
Context (c : settings) (eps : list string).

Definition prologue : list op :=
  AwaitDone :: (if Ping c && (0 <? RequestAcceptGraceTimeout c)%Z then [SetTerminating] else []) ++
  (if (0 <? RequestAcceptGraceTimeout c)%Z then [SleepGrace] else []).

Lemma script_split : StartWithContext c eps = prologue ++ map SpawnShutdown eps ++ [WaitShutdowns] ++ SendStop :: Close c.
Proof. unfold StartWithContext, Stop, prologue. simpl. by rewrite <- !app_assoc. Qed.

(** [Stop] and [Close] come in the order of the code. *)
Ltac not_before := rewrite ?not_elem_of_app; split_and?;
  first [by intros (? & ? & ?)%list_elem_of_fmap | unfold prologue; destruct (Ping c), (0 <? RequestAcceptGraceTimeout c)%Z; set_solver | set_solver].

Lemma waited d t : d ++ t = StartWithContext c eps -> SendStop ∈ d -> WaitShutdowns ∈ d.
Proof.
  rewrite script_split, !app_assoc. intros Hd Hs. eapply (done_before _ _ _ _ _ _ Hd); [exact Hs|not_before|set_solver].
Qed.
Lemma spawned d t ep : d ++ t = StartWithContext c eps -> WaitShutdowns ∈ d -> ep ∈ eps -> SpawnShutdown ep ∈ d.
Proof.
  rewrite script_split, app_assoc. intros Hd Hw Hep. eapply (done_before _ _ _ _ _ _ Hd); [exact Hw|not_before|].
  apply elem_of_app. right. apply list_elem_of_fmap. by exists ep.
Qed.
Lemma announced d t ep : d ++ t = StartWithContext c eps -> Ping c = true -> (0 < RequestAcceptGraceTimeout c)%Z ->
  SpawnShutdown ep ∈ d -> SetTerminating ∈ d.
Proof.
  rewrite script_split. intros Hd Hp Hg Hs. eapply (done_before _ _ _ _ _ _ Hd); [exact Hs|not_before|].
  unfold prologue. rewrite Hp. replace (0 <? _)%Z with true by lia. set_solver.
Qed.
Lemma sent_before_close d t o : d ++ t = StartWithContext c eps -> o ∈ [WatchDeadline; CloseStop] -> o ∈ d -> SendStop ∈ d.
Proof.
  rewrite script_split, (cons_middle SendStop), !app_assoc. intros Hd Ho Hod.
  eapply (done_before _ _ _ _ _ _ Hd); [exact Hod| |set_solver].
  apply elem_of_cons in Ho as [->| ->%list_elem_of_singleton]; not_before.
Qed.

Lemma spawns_come_first d t ep : d ++ SpawnShutdown ep :: t = StartWithContext c eps -> WaitShutdowns ∈ d -> False.
Proof.
  rewrite script_split, app_assoc. intros Hd Hw. edestruct (done_split _ _ _ _ _ Hd Hw) as (d' & _ & Hd'); [not_before|].
  assert (SpawnShutdown ep ∈ [WaitShutdowns] ++ SendStop :: Close c) as Hin by (rewrite <- Hd'; set_solver).
  unfold Close in Hin. destruct (Leadership c), (AccessLogger c); set_solver.
Qed.

(** ** What holds at every moment *)

Record orderly (s : system) : Prop := {
  o_script : finished s ++ todo s = StartWithContext c eps;
  o_entries ep : is_Some (serverEntryPoints (w s) !! ep) <-> ep ∈ eps;
  o_serving ep e : serverEntryPoints (w s) !! ep = Some e -> ep_status e <> Serving <-> SpawnShutdown ep ∈ finished s;
  o_waited : WaitShutdowns ∈ finished s -> forall ep e, serverEntryPoints (w s) !! ep = Some e -> ep_status e = Down;
  o_down ep e : serverEntryPoints (w s) !! ep = Some e -> (ep_status e = Down -> active e = 0) /\ (0 < cut e -> elapsed e = true /\ ep_status e <> Serving);
  o_terminating : SetTerminating ∈ finished s -> terminating (w s) = true;
  o_sent : 0 < stop_values (w s) \/ proc s = Exited -> SendStop ∈ finished s;
  o_closed : stop_closed (w s) = true -> CloseStop ∈ finished s;
  o_deadline : deadline (w s) = Armed \/ proc s = Killed -> WatchDeadline ∈ finished s;
}.
Lemma started_entry ep : serverEntryPoints (w (started c eps)) !! ep = if bool_decide (ep ∈ eps) then Some fresh else None.
Proof.
  simpl. induction eps as [|x l IH]; simpl; [done|]. destruct (decide (ep = x)) as [->|].
  - rewrite lookup_insert_eq, bool_decide_eq_true_2 by by left. done.
  - rewrite lookup_insert_ne by done. rewrite IH. repeat case_bool_decide; try done; set_solver.
Qed.

Lemma orderly_started : orderly (started c eps).
Proof.
  split; try done; try (simpl; intros ?%elem_of_nil; done).
  - intros ep. rewrite started_entry. destruct (bool_decide_reflect (ep ∈ eps)); by split.
  - intros ep e. rewrite started_entry. destruct (bool_decide_reflect (ep ∈ eps)); [|done]. intros [= <-]. simpl. split; [done|by intros ?%elem_of_nil].
  - intros ep e. rewrite started_entry. destruct (bool_decide_reflect (ep ∈ eps)); [|done]. intros [= <-]. simpl. split; [done|lia].
  - simpl. intros [?|?]; [lia|done].
  - simpl. by intros [?|?].
Qed.

(** A change of one entry point's server that keeps what was said of it. *)
Lemma orderly_entry s ep st n k el h st' n' k' el' h' : orderly s -> serverEntryPoints (w s) !! ep = Some (mkEntry st n k el h) ->
  (st' = Serving <-> st = Serving) -> (st = Down -> st' = Down) -> (st' = Down -> n' = 0) -> (0 < k' -> el' = true /\ st' <> Serving) ->
  orderly (mkSystem (todo s) (finished s) (with_entry ep (mkEntry st' n' k' el' h') (w s)) Running).
Proof.
  intros [O1 O2 O3 O4 O5 O6 O7 O8 O9] He Hs Hd Hn Hk. split; simpl; try done.
  - intros ep'. destruct (decide (ep' = ep)) as [->|]; [|by rewrite lookup_insert_ne].
    rewrite lookup_insert_eq, <- O2, He. split; by eexists.
  - intros ep' e. destruct (decide (ep' = ep)) as [->|]; [|rewrite lookup_insert_ne by done; apply O3].
    rewrite lookup_insert_eq. intros [= <-]. rewrite <- (O3 _ _ He). simpl. naive_solver.
  - intros Hw ep' e. destruct (decide (ep' = ep)) as [->|]; [|rewrite lookup_insert_ne by done; by apply O4].
    rewrite lookup_insert_eq. intros [= <-]. simpl. apply Hd. apply (O4 Hw _ _ He).
  - intros ep' e. destruct (decide (ep' = ep)) as [->|]; [|rewrite lookup_insert_ne by done; apply O5].
    rewrite lookup_insert_eq. by intros [= <-].
  - intros [?|?]; [|done]. apply O7. by left.
  - intros [?|?]; [|done]. apply O9. by left.
Qed.

Lemma orderly_event s w' : orderly s -> proc s = Running -> event (w s) w' -> orderly (mkSystem (todo s) (finished s) w' Running).
Proof.
  intros O Hr He. destruct s as [t d ws pr]. simpl in *. destruct He as [|? ep n k h He|? ep st n k el h He|? ep st n k el h He|? ep st n k el h He|? ep k el h He|? ep n k el h He|? ep n k h He|].
  1, 9: by destruct O; split; simpl in *; subst; try done; naive_solver.
  all: eapply (orderly_entry (mkSystem t d _ pr)); try done; simpl in *; try (by destruct (o_down _ O _ _ He); simpl in *; naive_solver).
Qed.
(** An operation keeps what is said of flags, channels and deadline; what is said
    of the entry points is shown apart. *)
Lemma orderly_operation s o l w' : orderly s -> proc s = Running -> todo s = o :: l ->
  (forall ep, is_Some (serverEntryPoints w' !! ep) <-> ep ∈ eps) ->
  (forall ep e, serverEntryPoints w' !! ep = Some e -> ep_status e <> Serving <-> SpawnShutdown ep ∈ finished s ++ [o]) ->
  (WaitShutdowns ∈ finished s ++ [o] -> forall ep e, serverEntryPoints w' !! ep = Some e -> ep_status e = Down) ->
  (forall ep e, serverEntryPoints w' !! ep = Some e -> (ep_status e = Down -> active e = 0) /\ (0 < cut e -> elapsed e = true /\ ep_status e <> Serving)) ->
  (terminating (w s) = true \/ o = SetTerminating -> terminating w' = true) ->
  (0 < stop_values w' -> 0 < stop_values (w s) \/ o = SendStop) ->
  (stop_closed w' = true -> stop_closed (w s) = true \/ o = CloseStop) ->
  (deadline w' = Armed -> deadline (w s) = Armed \/ o = WatchDeadline) ->
  orderly (mkSystem l (finished s ++ [o]) w' Running).
Proof.
  intros O Hr Ht H2 H3 H4 H5 Ht' Hs Hc Hd. destruct O. split; simpl; try done.
  - rewrite <- app_assoc. simpl. by rewrite <- Ht.
  - intros [Hin|Hin%list_elem_of_singleton]%elem_of_app; auto.
  - intros [[Hv|Hv]%Hs|?]; [|set_solver|done]. apply elem_of_app. auto.
  - intros [Hv|Hv]%Hc; [|set_solver]. apply elem_of_app. auto.
  - intros [[Hv|Hv]%Hd|?]; [|set_solver|done]. apply elem_of_app. auto.
Qed.

Lemma orderly_spawn s ep l w' : orderly s -> proc s = Running -> todo s = SpawnShutdown ep :: l -> perform (SpawnShutdown ep) (w s) = Some w' ->
  orderly (mkSystem l (finished s ++ [SpawnShutdown ep]) w' Running).
Proof.
  intros O Hr Ht Hp. pose proof (o_script _ O) as Hd. rewrite Ht in Hd.
  assert (serverEntryPoints w' = alter begin_shutdown ep (serverEntryPoints (w s)) /\ terminating w' = terminating (w s) /\
    stop_values w' = stop_values (w s) /\ stop_closed w' = stop_closed (w s) /\ deadline w' = deadline (w s)) as (He & E1 & E2 & E3 & E4)
    by (destruct (w s); simpl in Hp; by simplify_eq).
  eapply orderly_operation; try done; rewrite ?E1, ?E2, ?E3, ?E4; auto; rewrite ?He.
  - intros ep'. rewrite lookup_alter_is_Some. apply (o_entries _ O).
  - intros ep' e. rewrite elem_of_app, list_elem_of_singleton. destruct (decide (ep' = ep)) as [->|Hn].
    + rewrite lookup_alter_eq. intros (e0 & He0 & ->)%fmap_Some. simpl. split; [by right|done].
    + rewrite lookup_alter_ne by done. intros Hl%(o_serving _ O). rewrite Hl. split; [by left|]. by intros [?|[= ?]].
  - intros [Hw|?%list_elem_of_singleton]%elem_of_app; [|done]. by destruct (spawns_come_first _ _ _ Hd Hw).
  - intros ep' e. destruct (decide (ep' = ep)) as [->|Hn].
    + rewrite lookup_alter_eq. intros (e0 & He0 & ->)%fmap_Some. simpl. split; [done|]. intros Hk. by apply (o_down _ O _ _ He0) in Hk as [? _].
    + rewrite lookup_alter_ne by done. apply (o_down _ O).
  - by intros [?|?].
Qed.

Lemma orderly_wait s l w' : orderly s -> proc s = Running -> todo s = WaitShutdowns :: l -> perform WaitShutdowns (w s) = Some w' ->
  orderly (mkSystem l (finished s ++ [WaitShutdowns]) w' Running).
Proof.
  intros O Hr Ht Hp. pose proof (o_script _ O) as Hd. rewrite Ht in Hd.
  assert (w' = w s /\ map_Forall (fun _ e => ep_status e <> Draining) (serverEntryPoints (w s))) as [-> Hm].
  { destruct (w s). simpl in *. destruct (bool_decide_reflect (map_Forall (fun _ e => ep_status e <> Draining) serverEntryPoints0)); by simplify_eq. }
  eapply orderly_operation; try done; auto.
  - apply (o_entries _ O).
  - intros ep e Hl. rewrite (o_serving _ O _ _ Hl), elem_of_app, list_elem_of_singleton. split; [by left|]. by intros [?|?].
  - intros _ ep e Hl. assert (ep_status e <> Serving) as Hs.
    { apply (o_serving _ O _ _ Hl). assert (SpawnShutdown ep ∈ finished s ++ [WaitShutdowns]) as Hin.
      { eapply (spawned _ l); [by rewrite <- app_assoc|set_solver|]. apply (o_entries _ O). by eexists. }
      by apply elem_of_app in Hin as [?|?%list_elem_of_singleton]. }
    specialize (Hm _ _ Hl). simpl in Hm. destruct (ep_status e); congruence.
  - apply (o_down _ O).
  - by intros [?|?].
Qed.

Lemma orderly_perform s o l w' : orderly s -> proc s = Running -> todo s = o :: l -> perform o (w s) = Some w' ->
  orderly (mkSystem l (finished s ++ [o]) w' Running).
Proof.
  intros O Hr Ht Hp. destruct (decide (o = WaitShutdowns)) as [->|Hw]; [by apply orderly_wait|].
  assert ((exists ep, o = SpawnShutdown ep) \/ ~ exists ep, o = SpawnShutdown ep) as [[ep ->]|Hs]
    by (destruct o; try (by right; intros [? ?]); left; by eexists); [by eapply orderly_spawn|].
  assert (serverEntryPoints w' = serverEntryPoints (w s)) as He.
  { destruct (w s), o; simpl in *; repeat case_match; simplify_eq/=; try done. destruct Hs; by eexists. }
  eapply orderly_operation; try done; rewrite ?He.
  - apply (o_entries _ O).
  - intros ep e Hl. rewrite (o_serving _ O _ _ Hl), elem_of_app, list_elem_of_singleton. split; [by left|]. intros [?|<-]; [done|]. destruct Hs; by eexists.
  - intros [Hin|Hin%list_elem_of_singleton]%elem_of_app; [|done]. by apply (o_waited _ O).
  - apply (o_down _ O).
  - clear -Hp. intros Hor. destruct (w s), o; simpl in *; repeat case_match; simplify_eq/=; try done; by destruct Hor.
  - clear -Hp. intros Hor. destruct (w s), o; simpl in *; repeat case_match; simplify_eq/=; auto.
  - clear -Hp. intros Hor. destruct (w s), o; simpl in *; repeat case_match; simplify_eq/=; auto.
  - clear -Hp. intros Hor. destruct (w s), o; simpl in *; repeat case_match; simplify_eq/=; auto.
Qed.

Lemma orderly_reachable s : reachable c eps s -> orderly s.
Proof.
  intros Hr. eapply (rtc_ind_r orderly); [exact orderly_started| |exact Hr]. intros s1 s2 _ Hs O.
  destruct Hs as [s1 o l w' Hp Ht Hw|s1 w' Hp He|s1 Hp Hst|s1 Hp Hd].
  - by eapply orderly_perform.
  - by apply orderly_event.
  - destruct O as [O1 O2 O3 O4 O5 O6 O7 O8 O9]. split; simpl; try done.
    + intros _. destruct Hst as [?|Hc]; [by apply O7; left|]. eapply sent_before_close; [exact O1| |by apply O8]. set_solver.
    + intros [?|?]; [|done]. apply O9. by left.
  - destruct O as [O1 O2 O3 O4 O5 O6 O7 O8 O9]. split; simpl; try done.
    + intros [?|?]; [|done]. apply O7. by left.
    + intros _. apply O9. by left.
Qed.

(** C29: The process never ends, normally or killed by its own deadline, before
    the server of every entry point is down with no request left: each was
    answered, cut off after the grace time, or had taken its connection over, as
    a WebSocket does; and no request is cut off before.  Connections that were
    taken over are not waited for. *)
Theorem ends_drained s : reachable c eps s -> forall ep e, serverEntryPoints (w s) !! ep = Some e ->
  (proc s <> Running -> ep_status e = Down /\ active e = 0) /\ (0 < cut e -> elapsed e = true /\ ep_status e <> Serving).
Proof.
  intros O%orderly_reachable ep e He. split; [|by apply (o_down _ O _ _ He)]. intros Hp.
  assert (SendStop ∈ finished s) as Hs.
  { destruct (proc s) eqn:Hr; [done| |].
    - apply (o_sent _ O). by right.
    - eapply sent_before_close; [apply (o_script _ O)| |apply (o_deadline _ O); by right]. set_solver. }
  assert (ep_status e = Down) as Hd by (eapply (o_waited _ O); [by eapply waited; [apply (o_script _ O)|]|done]).
  split; [done|]. by apply (o_down _ O _ _ He).
Qed.

(** With a time for requests to cease, ping tells that the proxy is going before
    any entry point stops accepting. *)
Theorem announces_termination s ep e : reachable c eps s -> Ping c = true -> (0 < RequestAcceptGraceTimeout c)%Z ->
  serverEntryPoints (w s) !! ep = Some e -> ep_status e <> Serving -> Api.ping_status (Api.mkPingState (terminating (w s))) = 503%Z.
Proof.
  intros O%orderly_reachable Hp Hg He Hs. apply (o_serving _ O _ _ He) in Hs.
  unfold Api.ping_status. simpl. rewrite (o_terminating _ O); [done|]. eapply announced; [apply (o_script _ O)|done..].
Qed.

(** ** The process can always end *)

Definition drained (ws : world) : Prop := map_Forall (fun _ e => ep_status e <> Draining) (serverEntryPoints ws).

Lemma drain_all (l : list string) t d ws : (forall ep e, serverEntryPoints ws !! ep = Some e -> ep_status e = Draining -> ep ∈ l) ->
  exists ws', rtc shutdown_step (mkSystem t d ws Running) (mkSystem t d ws' Running) /\ drained ws' /\
    cancelled ws' = cancelled ws /\ stop_values ws' = stop_values ws.
Proof.
  revert ws. induction l as [|x l IH]; intros ws Hl.
  { exists ws. split; [apply rtc_refl|]. split; [|done]. intros ep e He Hd. by apply (Hl _ _ He), elem_of_nil in Hd. }
  destruct (serverEntryPoints ws !! x) as [[[] n k el h]|] eqn:Hx.
  1, 3, 4: apply IH; intros ep e He Hd; specialize (Hl _ _ He Hd); apply elem_of_cons in Hl as [->|]; [by simplify_eq/=|done].
  set (w1 := with_entry x (mkEntry Draining n k true h) ws). set (w2 := with_entry x (mkEntry Down 0 (k + n) true h) w1).
  destruct (IH w2) as (w3 & Hr & Hd & Hc & Hv).
  - intros ep e. simpl. destruct (decide (ep = x)) as [->|]; [rewrite lookup_insert_eq; by intros [= <-]|].
    rewrite !lookup_insert_ne by done. intros He Hd. specialize (Hl _ _ He Hd). by apply elem_of_cons in Hl as [->|].
  - exists w3. split_and!; try done. eapply rtc_l; [apply (step_event (mkSystem t d ws Running) w1); [done|by eapply event_elapsed]|].
    eapply rtc_l; [apply (step_event (mkSystem t d w1 Running) w2); [done|]|exact Hr].
    apply (event_cut w1 x n k h). simpl. apply lookup_insert_eq.
Qed.

(** Every operation but the wait for the pool can be brought to its end. *)
Lemma run_op o t d ws : cancelled ws = true -> o <> CleanupPool -> (o = SendStop -> stop_values ws = 0) ->
  exists ws', rtc shutdown_step (mkSystem (o :: t) d ws Running) (mkSystem t (d ++ [o]) ws' Running) /\ cancelled ws' = true /\
    stop_values ws' = if decide (o = SendStop) then 1 else stop_values ws.
Proof.
  intros Hc Hp Hs. destruct (drain_all (elements (dom (serverEntryPoints ws))) (o :: t) d ws) as (w1 & Hr & Hd & Hc1 & Hv1).
  { intros ep e He _. apply elem_of_elements, elem_of_dom. by eexists. }
  assert (exists w2, perform o w1 = Some w2 /\ cancelled w2 = true /\ stop_values w2 = if decide (o = SendStop) then 1 else stop_values ws) as (w2 & Hw & Hc2 & Hv2).
  { destruct w1 as [cn en tm v cl p pe dl]. simpl in *. rewrite Hc in Hc1. subst cn v. destruct o; simpl; try (eexists; by split_and!); try done.
    - rewrite bool_decide_eq_true_2 by done. by eexists.
    - rewrite Hs by done. by eexists. }
  exists w2. split_and!; [|done..]. eapply rtc_trans; [exact Hr|]. eapply rtc_l; [by eapply step_op|]. apply rtc_refl.
Qed.

Lemma run_ops l t d ws : cancelled ws = true -> CleanupPool ∉ l -> SendStop ∉ l ->
  exists ws', rtc shutdown_step (mkSystem (l ++ t) d ws Running) (mkSystem t (d ++ l) ws' Running) /\ cancelled ws' = true /\
    stop_values ws' = stop_values ws.
Proof.
  revert d ws. induction l as [|o l IH]; intros d ws Hc Hp Hs.
  { exists ws. rewrite app_nil_r. split_and!; [apply rtc_refl|done..]. }
  apply not_elem_of_cons in Hp as [Hp1 Hp2], Hs as [Hs1 Hs2].
  destruct (run_op o (l ++ t) d ws) as (w1 & Hr & Hc1 & Hv); [done|by intros ->|by intros ->|].
  destruct (IH (d ++ [o]) w1) as (w2 & Hr2 & Hc2 & Hv2); try done. exists w2. split_and!; [|done|].
  - rewrite <- app_assoc in Hr2. by eapply rtc_trans.
  - rewrite Hv2, Hv. by rewrite decide_False by by intros ->.
Qed.

(** What comes before the message to [main]. *)
Definition before_stop : list op := prologue ++ map SpawnShutdown eps ++ [WaitShutdowns].

Lemma before_stop_split : StartWithContext c eps = before_stop ++ SendStop :: Close c.
Proof. rewrite script_split. unfold before_stop. by rewrite <- !app_assoc. Qed.

Lemma before_stop_plain o : o ∈ [CleanupPool; SendStop] -> o ∉ before_stop.
Proof. intros Ho. unfold before_stop. apply elem_of_cons in Ho as [->| ->%list_elem_of_singleton]; not_before. Qed.

(** [Stop] can be brought to its end from any moment after the signal. *)
Lemma run_to_stop s : reachable c eps s -> proc s = Running -> cancelled (w s) = true -> SendStop ∉ finished s ->
  exists ws, rtc shutdown_step s (mkSystem (Close c) (before_stop ++ [SendStop]) ws Running) /\ stop_values ws = 1.
Proof.
  intros O%orderly_reachable Hr Hc Hn. pose proof (o_script _ O) as Hd. rewrite before_stop_split in Hd.
  assert (exists l, before_stop = finished s ++ l /\ todo s = l ++ SendStop :: Close c) as (l & Hl & Ht).
  { destruct (app_eq_app _ _ _ _ Hd) as (k & [[Hk1 Hk2]|[Hk1 Hk2]]); [|by exists k].
    destruct k as [|o k]; [exists []; rewrite app_nil_r in *; simpl in *; by rewrite Hk2|].
    simplify_eq/=. destruct Hn. rewrite Hk1. set_solver. }
  destruct s as [t d ws pr]. cbn [todo finished w proc] in *. subst t pr.
  assert (forall o, o ∈ [CleanupPool; SendStop] -> o ∉ l) as Hpl.
  { intros o Ho Hin. apply (before_stop_plain o Ho). rewrite Hl. apply elem_of_app. by right. }
  destruct (run_ops l (SendStop :: Close c) d ws) as (w1 & Hr1 & Hc1 & Hv1); [done|apply Hpl; set_solver|apply Hpl; set_solver|].
  assert (stop_values ws = 0) as Hv.
  { destruct (stop_values ws) eqn:Hv; [done|]. destruct Hn. apply (o_sent _ O). left. simpl. lia. }
  destruct (run_op SendStop (Close c) (d ++ l) w1) as (w2 & Hr2 & _ & Hv2); [done|done|by intros _; rewrite Hv1|].
  exists w2. rewrite decide_True in Hv2 by done. split; [|done]. rewrite Hl. by eapply rtc_trans.
Qed.

(** Once the message is sent it stays until [main] has read it. *)
Lemma sent_stays s : reachable c eps s -> SendStop ∈ finished s -> proc s = Running -> 0 < stop_values (w s).
Proof.
  intros Hr. cut (SendStop ∈ finished s -> 0 < stop_values (w s)); [auto|].
  apply (rtc_ind_r (R := shutdown_step) (fun s => SendStop ∈ finished s -> 0 < stop_values (w s)) (started c eps)); [by intros ?%elem_of_nil| |exact Hr].
  intros s1 s2 _ Hs IH. destruct Hs as [s1 o l w' Hp Ht Hw|s1 w' Hp He|s1 Hp Hst|s1 Hp Hd]; simpl; [|by destruct He|done..].
  intros [Hin|Hin%list_elem_of_singleton]%elem_of_app.
  - specialize (IH Hin). destruct (w s1), o; simpl in *; repeat case_match; simplify_eq/=; done || lia.
  - subst o. destruct (w s1); simpl in *. case_match; simplify_eq/=. lia.
Qed.

(** After the signal the process can end from wherever it is, unless it was
    killed: neither requests nor the pool can hold it up. *)
Theorem can_exit s : reachable c eps s -> cancelled (w s) = true -> proc s <> Killed -> exists s', rtc shutdown_step s s' /\ proc s' = Exited.
Proof.
  intros Hr Hc Hk. destruct (proc s) eqn:Hp; [|by exists s|done].
  destruct (decide (SendStop ∈ finished s)) as [Hs|Hs].
  - eexists. split; [apply rtc_once, step_exit; [done|left; by apply sent_stays]|done].
  - destruct (run_to_stop s) as (ws & Hr' & Hv); try done. eexists. split; [eapply rtc_r; [exact Hr'|apply step_exit; [done|]]|done].
    left. simpl. lia.
Qed.

(** It may do so before anything of [Close] is done: [main] does not wait for the
    goroutine that closes, so a leader may leave without resigning, the goroutines
    of the pool without being told, and the access log without being closed. *)
Theorem exits_before_closing : exists s, reachable c eps s /\ proc s = Exited /\ todo s = Close c.
Proof.
  pose (s1 := mkSystem (StartWithContext c eps) [] (mkWorld true (serverEntryPoints (w (started c eps))) false 0 false (Leadership c) false Inactive) Running).
  assert (reachable c eps s1) as Hr1 by (apply rtc_once; by apply (step_event (started c eps)), event_signal).
  destruct (run_to_stop s1) as (ws & Hr & Hv); [done|done|done|by intros ?%elem_of_nil|].
  eexists. split; [eapply rtc_r; [eapply rtc_trans; [exact Hr1|exact Hr]|apply step_exit; [done|left; simpl; lia]]|]. by split.
Qed.
End Facts.

(** ** Example: one entry point with a request in flight when the signal comes *)

Definition quiet : settings := mkSettings false 0 false false.

Lemma ends_drained_witness : exists s, reachable quiet ["http"] s /\ proc s = Exited /\
  forall e, serverEntryPoints (w s) !! "http" = Some e -> cut e = 1 /\ elapsed e = true.
Proof.
  eexists. assert (forall P Q : Prop, P -> (P -> Q) -> P /\ Q) as both by auto. apply both.
  - eapply rtc_l; [eapply step_event; [reflexivity|by apply (event_request _ "http" 0 0 0)]|].
    eapply rtc_l; [eapply step_event; [reflexivity|apply event_signal]|].
    do 2 (eapply rtc_l; [eapply step_op; reflexivity|]).
    eapply rtc_l; [eapply step_event; [reflexivity|by apply (event_elapsed _ "http" 1 0 false 0)]|].
    eapply rtc_l; [eapply step_event; [reflexivity|by apply (event_cut _ "http" 1 0 0)]|].
    do 2 (eapply rtc_l; [eapply step_op; reflexivity|]).
    eapply rtc_l; [apply step_exit; [reflexivity|by left; apply Nat.lt_0_succ]|]. apply rtc_refl.
  - intros Hr. split; [reflexivity|]. intros e He. pose proof (ends_drained quiet ["http"] _ Hr "http" e He) as [_ Hc].
    vm_compute in He. injection He as <-. split; [reflexivity|]. by apply Hc, Nat.lt_0_succ.
Defined.

(** A WebSocket is cut off by the end of the process, with no grace time at all. *)
Example hijacked_not_waited : exists s e, reachable quiet ["http"] s /\ proc s = Exited /\
  serverEntryPoints (w s) !! "http" = Some e /\ hijacked e = 1 /\ elapsed e = false.
Proof.
  do 2 eexists. split.
  - eapply rtc_l; [eapply step_event; [reflexivity|by apply (event_request _ "http" 0 0 0)]|].
    eapply rtc_l; [eapply step_event; [reflexivity|by apply (event_hijack _ "http" Serving 0 0 false 0)]|].
    eapply rtc_l; [eapply step_event; [reflexivity|apply event_signal]|].
    do 2 (eapply rtc_l; [eapply step_op; reflexivity|]).
    eapply rtc_l; [eapply step_event; [reflexivity|by apply (event_drained _ "http" 0 false 1)]|].
    do 2 (eapply rtc_l; [eapply step_op; reflexivity|]).
    eapply rtc_l; [apply step_exit; [reflexivity|by left; apply Nat.lt_0_succ]|]. apply rtc_refl.
  - split; [reflexivity|]. split; [reflexivity|]. by split.
Qed.

End Shutdown.
