(* ===== verification/Commands.v ===== *)
(** * [cmd/]: the command line

    The settings of the log; the command that asks for the proxy's health; and
    the command that stores the static configuration in a key-value store.  The
    HTTP client, the store and the encoders are parameters. *)
From S2P Require Import Prelude GoStrings GoStringsFacts GoNet GoHttp Types OsioClient OsioProvider Rules Whitelist Middlewares EntryPoints Redirect.
From S2P Require Import Label ErrorPages Authenticator Certs GlobalConfig Cookie Handlers HealthCheck LoadConfig ServerSetup.
From S2P Require Api FileProvider KvStores AcmeStore AcmeAccount AcmeConvert Lifecycle.
Open Scope go_scope.

(** ** [cmd/traefik/traefik.go]: the settings of the log *)

Module Logging.

Inductive Level := PanicLevel | FatalLevel | ErrorLevel | WarnLevel | InfoLevel | DebugLevel.

(** [logrus.ParseLevel]: the zero level comes with an error. *)
Definition ParseLevel (lvl : string) : Level * option error :=
  let l := to_lower lvl in
  if bool_decide (l = "panic") then (PanicLevel, None)
  else if bool_decide (l = "fatal") then (FatalLevel, None)
  else if bool_decide (l = "error") then (ErrorLevel, None)
  else if bool_decide (l = "warn") || bool_decide (l = "warning") then (WarnLevel, None)
  else if bool_decide (l = "info") then (InfoLevel, None)
  else if bool_decide (l = "debug") then (DebugLevel, None)
  else (PanicLevel, Some ("not a valid logrus Level: " +:+ lvl)).

Record TraefikLog := mkTraefikLog { FilePath : string; Format : string }.
Record LogSettings := mkLogSettings { LogLevel : string; Debug : bool; TraefikLogsFile : string; log_TraefikLog : option TraefikLog }.

Inductive Formatter := JSONFormatter | TextFormatter (DisableColors : bool).

(** What logrus is left with: level, formatter, the file that is opened, and
    whether an exit handler closes it. *)
Record configured := mkConfigured { level : Level; formatter : Formatter; opened : option string; closed_at_exit : bool }.

Definition log_file (g : LogSettings) : string :=
  match log_TraefikLog g with
  | Some l => if nonempty (FilePath l) then FilePath l else TraefikLogsFile g
  | None => TraefikLogsFile g
  end.

Definition configureLogging (g : LogSettings) : configured :=
  let levelStr := to_lower (LogLevel g) in
  let levelStr := if bool_decide (levelStr = "") then (if Debug g then "debug" else "error") else levelStr in
  let '(level, _) := ParseLevel levelStr in
  let logFile := log_file g in
  let formatter := match log_TraefikLog g with
    | Some l => if bool_decide (Format l = "json") then JSONFormatter else TextFormatter (nonempty logFile)
    | None => TextFormatter (nonempty logFile)
    end in
  mkConfigured level formatter (if nonempty logFile then Some logFile else None) (nonempty logFile).

(** The level that is given has precedence over [Debug]. *)
Theorem configureLogging_level g : level (configureLogging g) =
  if bool_decide (LogLevel g = "") then (if Debug g then DebugLevel else ErrorLevel) else (ParseLevel (LogLevel g)).1.
Proof.
  unfold configureLogging. assert (to_lower (LogLevel g) = "" <-> LogLevel g = "") as Hl by (destruct (LogLevel g); [done|by split]).
  case_bool_decide as H1; case_bool_decide as H2; try (exfalso; tauto); [by destruct (Debug g)|].
  destruct (ParseLevel (to_lower (LogLevel g))) as [l e] eqn:E. simpl. revert E. unfold ParseLevel. rewrite to_lower_idem.
  repeat (destruct (bool_decide _ || bool_decide _) || destruct (bool_decide _)); by intros [= <- _].
Qed.

(** A level that is none leaves the zero level, which hides everything but
    panics, also when [Debug] is set. *)
Example unknown_level_silences :
  level (configureLogging (mkLogSettings "verbose" true "" None)) = PanicLevel.
Proof. by vm_compute. Qed.
End Logging.

(** ** [cmd/healthcheck/healthcheck.go]: asking the proxy for its health *)

Module Health.

(** The URL that is asked, and whether the certificate is left unchecked. *)
Definition ping_url (gc : GlobalConfiguration) : Prelude.result (bool * string) :=
  match gc_Ping gc with
  | None => Err "please enable `ping` to use health check"
  | Some ping =>
      match gc_EntryPoints gc !! ping_EntryPoint ping with
      | None => Err "missing `ping` entrypoint"
      | Some pingEntryPoint =>
          let tls := bool_decide (is_Some (ep_TLS pingEntryPoint)) in
          let protocol := if tls then "https" else "http" in
          let path := match gc_Web gc with Some web => web_Path web | None => "/" end in
          Ok (tls, protocol +:+ "://" +:+ ep_Address pingEntryPoint +:+ path +:+ "ping")
      end
  end.

Section Do.
(** What the client gets for a HEAD request: a status, or an error. *)
Context (client_Head : bool -> string -> Prelude.result Z).

Definition Do (gc : GlobalConfiguration) : Prelude.result Z := '(tls, url) ← ping_url gc; client_Head tls url.

(** The exit code of the command. *)
Definition runCmd (getenv : string -> string) (configFile : string) (gc : GlobalConfiguration) (singleton : option ACMEConfiguration) :
    outcome Z :=
  r ← SetEffectiveConfiguration getenv configFile gc singleton;
  mret (match Do r.1 with Ok status => if (status =? 200)%Z then 0 else 1 | Err _ => 1 end)%Z.
End Do.

(** *** The command asks where ping is served *)

(** A path for the web provider that the router takes literally. *)
Definition rooted (path : string) : bool := has_prefix path "/" && negb (has_suffix path "//").

Section Reaches.
Context {Certificate : Type} `{files : !TLSFiles Certificate} `{leafs : !Leaf Certificate}.
Context `{order : MapOrder} `{urls : UrlLib} `{mux : Mux} `{times : TimeLib} `{oxy : Oxy} `{env : !ServerEnv Certificate}.
Context {W : Type} `{handlers : !ServerHandlers Certificate W} `{regexps : RegexpLib} `{prefixes : PrefixRouter}.
Context (DefaultCertificate : Prelude.result Certificate) (s : server).

Lemma find_internal_skip (l l' : list (internal_route (Certificate := Certificate))) method path :
  Forall (fun ir => method ∉ Api.rt_methods (ir_route ir)) l -> find_internal (l ++ l') method path = find_internal l' method path.
Proof.
  induction 1 as [|ir l Hm _ IH]; [done|]. simpl. destruct (internal_matches ir path); [|done].
  by rewrite bool_decide_eq_false_2.
Qed.

(** No other internal route answers a HEAD request. *)
Lemma only_ping_answers_head entryPointName : Forall (fun r => "HEAD" ∉ Api.rt_methods r) (addInternalRoutes s entryPointName).
Proof.
  assert (forall l, forallb (fun r => negb (bool_decide ("HEAD" ∈ Api.rt_methods r))) l = true -> Forall (fun r => "HEAD" ∉ Api.rt_methods r) l) as Hf.
  { intros l. rewrite forallb_forall, Forall_forall. intros Hl r Hr%list_elem_of_In%Hl. by bool_simpl. }
  unfold addInternalRoutes. rewrite !Forall_app. split_and!; [destruct (entry_is _ _); by apply Hf|destruct (entry_is _ _); by apply Hf|].
  destruct (gc_API _) as [a|]; [|constructor]. destruct (bool_decide _); [|constructor]. apply Hf. by destruct (api_Debug a), (Dashboard a).
Qed.

(** The route of ping below a rooted path. *)
Lemma ping_matches path mws : rooted path = true -> has_suffix path "/" = true ->
  internal_matches (Certificate := Certificate) (mkInternalRoute path (hd (Api.mkApiRoute [] (Api.Under "") Api.EPing) Api.ping_AddRoutes) mws) (path +:+ "ping") = Some [].
Proof.
  unfold rooted. intros Hr [p ->]%has_suffix_spec. bool_simpl. unfold internal_matches. simpl.
  rewrite (proj2 (has_prefix_spec (p +:+ "/") "/")) by by apply has_prefix_spec.
  rewrite (proj2 (has_prefix_spec ((p +:+ "/") +:+ "ping") (p +:+ "/"))) by by eexists. simpl.
  rewrite rev_app_str. change (String.rev "/" +:+ String.rev p) with (String "/" (String.rev p)).
  change (drop_slashes (String "/" (String.rev p))) with (drop_slashes (String.rev p)).
  assert (drop_slashes (String.rev p) = String.rev p) as Hd.
  { destruct (String.rev p) as [|c t] eqn:E; [done|]. apply (f_equal String.rev) in E. rewrite rev_involutive_str, rev_cons_str in E.
    simpl. destruct (decide (c = "/"%char)) as [->|Hc].
    - exfalso. assert (has_suffix (p +:+ "/") "//" = true) as Hs; [|congruence].
      apply has_suffix_spec. exists (String.rev t). rewrite E. by str_simpl.
    - destruct c as [[] [] [] [] [] [] [] []]; done. }
  rewrite Hd, rev_involutive_str, app_assoc_str, strip_prefix_app. by vm_compute.
Qed.

(** The web path of an effective configuration ends with a slash. *)
Lemma effective_web_path getenv configFile gc singleton gc' singleton' :
  SetEffectiveConfiguration getenv configFile gc singleton = Ret (gc', singleton') ->
  gc_Web gc' = None \/ exists web, gc_Web gc' = Some web /\ has_suffix (web_Path web) "/" = true.
Proof.
  unfold SetEffectiveConfiguration. destruct (init_acme _ _ _) as [acme single].
  destruct (match OSIO _ with Some p => _ | None => _ end) as [osio|e|e]; [|done..]. intros [= <- _]. simpl.
  destruct (gc_Web _) as [web|]; [right|by left]. eexists. split; [done|]. unfold set_web_path. simpl.
  destruct (negb (nonempty (web_Path web)) || _) eqn:E; [apply has_suffix_spec; by eexists|]. by bool_simpl.
Qed.

(** With an effective configuration in which ping has an entry point, and a web
    path that is plain if there is one, a HEAD request for the path of the URL
    that the command asks for is answered by ping, whatever else the entry point
    serves and guards. *)
Theorem health_reaches_ping getenv configFile gc singleton singleton' ping sv ep tls url r w router middlewares internalMiddlewares :
  SetEffectiveConfiguration getenv configFile gc singleton = Ret (globalConfiguration s, singleton') ->
  gc_Ping (globalConfiguration s) = Some ping -> ping_EntryPoint ping <> "" ->
  rooted (internal_path s) = true ->
  ping_url (globalConfiguration s) = Ok (tls, url) ->
  gc_EntryPoints (globalConfiguration s) !! ping_EntryPoint ping = Some ep ->
  prepareServer DefaultCertificate s (ping_EntryPoint ping) ep middlewares internalMiddlewares = Ok sv ->
  Method r = "HEAD" -> url = (if tls then "https" else "http") +:+ "://" +:+ ep_Address ep +:+ req_path r ->
  serve (Certificate := Certificate) sv router r w = (Ret (ServedInternal Api.EPing [] r), w).
Proof.
  intros He Hp Hn Hr Hu Hep Hs Hm Hurl.
  assert (has_suffix (internal_path s) "/" = true /\ match gc_Web (globalConfiguration s) with Some web => web_Path web | None => "/" end = internal_path s) as [Hsuf Hpath].
  { destruct (effective_web_path _ _ _ _ _ _ He) as [Hw|(web & Hw & Hsl)]; unfold internal_path; rewrite Hw; [by split|].
    assert (nonempty (web_Path web) = true) as -> by (destruct (web_Path web); [by vm_compute in Hsl|done]). by split. }
  unfold ping_url in Hu. rewrite Hp, Hep, Hpath in Hu. injection Hu as <- <-.
  assert (req_path r = internal_path s +:+ "ping") as Hreq by by repeat apply (inj (String.append _)) in Hurl.
  unfold prepareServer in Hs. apply result_bind_inv in Hs as (tc & _ & Hs). destruct (net_Listen _); [done|].
  apply result_bind_inv in Hs as (pp & _ & [= <-]).
  unfold serve, sv_internal, buildInternalRouter. rewrite Hm, find_internal_skip.
  2:{ apply Forall_map. eapply Forall_impl; [apply only_ping_answers_head|done]. }
  unfold addInternalPublicRoutes. rewrite Hp, bool_decide_eq_true_2 by done. rewrite (nonempty_true _ Hn).
  pose proof (ping_matches _ [] Hr Hsuf) as Hmatch. unfold Api.ping_AddRoutes, Api.get in *. cbn [hd andb app map find_internal] in *.
  rewrite Hreq, Hmatch. cbn [Api.rt_methods ir_route]. rewrite bool_decide_eq_true_2 by set_solver.
  unfold Api.slash_redirect. cbn [ir_route Api.rt_path ir_middlewares app run_chain].
  destruct (has_suffix (internal_path s +:+ "ping") "/") eqn:Hslash; [|done]. exfalso.
  apply has_suffix_spec in Hslash as [x Hx]. apply (f_equal String.rev) in Hx. by rewrite !rev_app_str in Hx.
Qed.
End Reaches.

(** A web path that does not start with a slash is read into the address. *)
Definition with_web (path : string) : GlobalConfiguration :=
  mkGlobal {["traefik" := plain_entry_point ":8080" None]} [] false None 0 (Some (mkWeb "" "" "" None None path None false)) None
    (Some (mkPing "traefik")) None None false None no_providers no_settings.
Example rooted_path : ping_url (with_web "/traefik/") = Ok (false, "http://:8080/traefik/ping").
Proof. by vm_compute. Qed.
Example unrooted_path : ping_url (with_web "traefik/") = Ok (false, "http://:8080traefik/ping").
Proof. by vm_compute. Qed.
End Health.

(** ** [cmd/storeconfig/storeconfig.go]: the configuration in a key-value store *)

Module StoreConfig.
Import AcmeStore AcmeAccount AcmeConvert.

(** *** The store *)

(** The stores a configuration may name, with what connecting to each answers. *)
Record stores := mkStores {
  Consul : option KvStores.store_options; Etcd : option KvStores.store_options;
  Zookeeper : option KvStores.store_options; Boltdb : option KvStores.store_options;
}.

(** The first that is named, with the error of creating it. *)
Definition CreateKvSource (create : KvStores.store_kind -> KvStores.store_options -> option error) (etcd3 : bool) (c : stores) :
    option KvStores.store_kind * option error :=
  let source k o := (Some k, create k o) in
  match Consul c, Etcd c, Zookeeper c, Boltdb c with
  | Some o, _, _, _ => source KvStores.Consul o
  | None, Some o, _, _ => source (KvStores.Etcd etcd3) o
  | None, None, Some o, _ => source KvStores.Zookeeper o
  | None, None, None, Some o => source KvStores.BoltDB o
  | None, None, None, None => (None, None)
  end.

(** *** The account *)

Section Account.
Context `{stored_json : StoredJson} `{old : OldJson} `{tls : TlsLib} `{order : MapOrder}.
Context (sort_Certs : list DomainsCertificate -> list DomainsCertificate).

Definition empty_account : ClusterAccount := mkClusterAccount "" None "" [] ∅ None.

(** What is read of the file, in the new format if it is one, else in the old;
    both stores read the file anew. *)
Definition read_account : M LocalStore (Prelude.result ClusterAccount) :=
  r ← FromNewToOldFormat;
  match r with
  | Err err => mret (Err err)
  | Ok (Some account) => mret (Ok account)
  | Ok None =>
      modify_state (fun s => mkLocalStore None (store_file s)) ;;
      r ← old_Get;
      match r with
      | Err err => mret (Err err)
      | Ok None => panic nil_dereference
      | Ok (Some account) => mret (Ok (RemoveAccountV1Values account))
      end
  end.

Definition migrateACMEData (f : AcmeStore.file) : outcome (Prelude.result ClusterAccount) :=
  match f with
  | Missing => Ret (Err "no such file or directory")
  | Broken err => Ret (Err err)
  | Present content _ =>
      r ← (if nonempty content then (read_account (mkLocalStore None f)).1 else Ret (Ok empty_account));
      Ret (account ← r;
        match Account_Init sort_Certs account with (account, None) => Ok account | (_, Some err) => Err err end)
  end.
End Account.
(** *** The command *)

(** What is written to the store, in full or not at all. *)
Inductive stored :=
  | StoreGlobal (gc : GlobalConfiguration)
  | StoreConfiguration (config : Configuration)
  | StoreAccount (prefix object : string)
  | DeleteKey (key : string).

(** The settings with those of the file provider, of which [GlobalConfiguration]
    here only has [TraefikFile]. *)
Record TraefikConfiguration := mkTraefikConfiguration {
  tc_Global : GlobalConfiguration;
  tc_File : option FileProvider.Provider;
  ConfigFile : string;
}.

Definition set_File (f : option string) (p : Providers) : Providers :=
  mkProviders (Docker p) (Marathon p) (Mesos p) (ECS p) (ConsulCatalog p) (pv_Eureka p) (pv_Rancher p) f (Rest p)
    (GlobalConfig.Consul p) (GlobalConfig.Etcd p) (GlobalConfig.Zookeeper p) (GlobalConfig.Boltdb p) (Kubernetes p) (DynamoDB p)
    (ServiceFabric p) (OSIO p).
Definition without_file (gc : GlobalConfiguration) : GlobalConfiguration :=
  mkGlobal (gc_EntryPoints gc) (gc_DefaultEntryPoints gc) (gc_Debug gc) (gc_LifeCycle gc) (gc_GraceTimeOut gc) (gc_Web gc) (gc_API gc)
    (gc_Ping gc) (gc_Metrics gc) (gc_Tracing gc) (gc_Cluster gc) (gc_ACME gc) (set_File None (gc_Providers gc)) (gc_Settings gc).

(** The file provider's own file is the default of what it reads. *)
Definition effective_file (configFile : string) (f : FileProvider.Provider) : FileProvider.Provider :=
  if negb (nonempty (FileProvider.Filename f)) && negb (nonempty (FileProvider.Directory f))
  then FileProvider.mkProvider (FileProvider.Watch f) configFile (FileProvider.Directory f) (FileProvider.TraefikFile f)
  else f.

Section Run.
Context `{stored_json : StoredJson} `{old : OldJson} `{tls : TlsLib} `{order : MapOrder}.
Context (sort_Certs : list DomainsCertificate -> list DomainsCertificate).
Context `{decoder : FileProvider.FileDecoder} (tls_order : list TLSConfiguration -> list TLSConfiguration).
(** The encoders, the answer of the store to each write, the files. *)
Context (marshal_global : GlobalConfiguration -> option error) (marshal_file : FileProvider.Provider -> option error).
Context (marshal_account : ClusterAccount -> Prelude.result string) (kv_answer : stored -> option error).
Context (fs : FileProvider.FileSystem) (acme_file : string -> AcmeStore.file).

(** The error returned, and what was written before it. *)
Definition outcome_of_run : Type := outcome (option error * list stored).

Definition fails (err : error) : outcome_of_run := Ret (Some err, []).
Definition or_fail (err : option error) (rest : outcome_of_run) : outcome_of_run :=
  match err with Some err => fails err | None => rest end.
Definition write (x : stored) (rest : outcome_of_run) : outcome_of_run :=
  or_fail (kv_answer x) ('(err, l) ← rest; Ret (err, x :: l)).

Definition store_acme (kv_Prefix : string) (a : ACME) : outcome_of_run :=
  r ← (if nonempty (ac_StorageFile a) then migrateACMEData sort_Certs (acme_file (ac_StorageFile a)) else Ret (Ok empty_account));
  match r with
  | Err err => fails err
  | Ok account =>
      match marshal_account account with
      | Err err => fails err
      | Ok object => write (StoreAccount (ac_Storage a) object) (write (DeleteKey (kv_Prefix +:+ "/acme/storagefile")) (Ret (None, [])))
      end
  end.

Definition Run (kv : option string) (tc : TraefikConfiguration) : outcome_of_run :=
  match kv with
  | None => fails "error using command storeconfig, no Key-value store defined"
  | Some kv_Prefix =>
      let gc := match tc_File tc with Some _ => without_file (tc_Global tc) | None => tc_Global tc end in
      let acme := match gc_ACME gc with Some a => store_acme kv_Prefix a | None => Ret (None, []) end in
      or_fail (marshal_global gc) (write (StoreGlobal gc)
        match tc_File tc with
        | None => acme
        | Some f =>
            let fileConfig := effective_file (ConfigFile tc) f in
            or_fail (marshal_file fileConfig)
              match FileProvider.BuildConfiguration tls_order fileConfig fs with
              | Err err => fails err
              | Ok config => write (StoreConfiguration config) acme
              end
        end)
  end.

(** *** What was stored when the command is done *)

(** The account that ends up in the store. *)
Definition account_to_store (a : ACME) (account : ClusterAccount) : Prop :=
  if nonempty (ac_StorageFile a) then migrateACMEData sort_Certs (acme_file (ac_StorageFile a)) = Ret (Ok account) else account = empty_account.

(** Everything that is to be stored, in the order of the writes. *)
Definition everything (kv_Prefix : string) (tc : TraefikConfiguration) (l : list stored) : Prop :=
  exists file acme,
    l = StoreGlobal (match tc_File tc with Some _ => without_file (tc_Global tc) | None => tc_Global tc end) :: file ++ acme /\
    match tc_File tc with
    | Some f => exists config, FileProvider.BuildConfiguration tls_order (effective_file (ConfigFile tc) f) fs = Ok config /\ file = [StoreConfiguration config]
    | None => file = []
    end /\
    match gc_ACME (tc_Global tc) with
    | Some a => exists account object, account_to_store a account /\ marshal_account account = Ok object /\
        acme = [StoreAccount (ac_Storage a) object; DeleteKey (kv_Prefix +:+ "/acme/storagefile")]
    | None => acme = []
    end.

Lemma write_done x rest l : write x rest = Ret (None, l) <-> kv_answer x = None /\ exists l', l = x :: l' /\ rest = Ret (None, l').
Proof.
  unfold write, or_fail. destruct (kv_answer x) as [err|]; [split; [done|by intros [? _]]|]. split.
  - intros ([err l'] & -> & [= -> <-])%outcome_bind_inv. split; [done|]. by exists l'.
  - intros (_ & l' & -> & ->). done.
Qed.
Lemma or_fail_done err rest l : or_fail err rest = Ret (None, l) <-> err = None /\ rest = Ret (None, l).
Proof. destruct err; simpl; [split; [done|by intros [? _]]|]. split; [done|by intros [_ ?]]. Qed.

Lemma store_acme_done kv_Prefix a l : store_acme kv_Prefix a = Ret (None, l) -> exists account object,
  account_to_store a account /\ marshal_account account = Ok object /\
  l = [StoreAccount (ac_Storage a) object; DeleteKey (kv_Prefix +:+ "/acme/storagefile")].
Proof.
  unfold store_acme, account_to_store. intros (r & Hr & Hs)%outcome_bind_inv. destruct r as [account|err]; [|done].
  destruct (marshal_account account) as [object|err] eqn:Hm; [|done].
  apply write_done in Hs as (_ & l1 & -> & (_ & l2 & -> & [= <-])%write_done).
  exists account, object. split_and!; try done. destruct (nonempty _); [done|]. by injection Hr.
Qed.

(** C37: When the command that stores the configuration ends without an error,
    everything is in the store, each part once: the static configuration,
    without the file provider that would read it again, the configuration of its
    files, and the account of ACME, moved from its file. *)
Theorem stored_everything kv tc l : Run kv tc = Ret (None, l) -> exists kv_Prefix, kv = Some kv_Prefix /\ everything kv_Prefix tc l.
Proof.
  unfold Run. destruct kv as [kv_Prefix|]; [|done]. intros (_ & (_ & l' & -> & Hl)%write_done)%or_fail_done. exists kv_Prefix. split; [done|].
  assert (forall l, match gc_ACME (match tc_File tc with Some _ => without_file (tc_Global tc) | None => tc_Global tc end) with
      | Some a => store_acme kv_Prefix a | None => Ret (None, []) end = Ret (None, l) ->
    match gc_ACME (tc_Global tc) with
    | Some a => exists account object, account_to_store a account /\ marshal_account account = Ok object /\
        l = [StoreAccount (ac_Storage a) object; DeleteKey (kv_Prefix +:+ "/acme/storagefile")]
    | None => l = []
    end) as Ha.
  { intros la. replace (gc_ACME (match tc_File tc with Some _ => _ | None => _ end)) with (gc_ACME (tc_Global tc)) by by destruct (tc_File tc).
    destruct (gc_ACME (tc_Global tc)); [apply store_acme_done|by intros [= <-]]. }
  unfold everything. destruct (tc_File tc) as [f|] eqn:Hf.
  - apply or_fail_done in Hl as [_ Hl]. destruct (FileProvider.BuildConfiguration _ _ _) as [config|err]; [|done].
    apply write_done in Hl as (_ & la & -> & Hla). exists [StoreConfiguration config], la. split_and!; [done|by exists config|by apply Ha].
  - exists [], l'. split_and!; [done|done|by apply Ha].
Qed.
End Run.

(** *** Example: an account that is moved, and files to read *)

Section Examples.
#[local] Instance no_stored : StoredJson := {| json_unmarshal _ d := (mkStoredData (Some (mkAccount "me@a.com" None "KEY")) [] ∅, None); json_marshal _ := "" |}.
#[local] Instance no_old : OldJson := {| old_unmarshal _ := Err "not read" |}.
#[local] Instance no_tls : TlsLib := {| X509KeyPair c _ := Ok (mkTls [c] None); ParseCertificate _ := Ok 7%Z |}.
#[local] Instance no_decoder : FileProvider.FileDecoder :=
  {| FileProvider.CreateConfiguration _ := Ok FileProvider.empty_configuration; FileProvider.DecodeConfiguration _ := Err "not read" |}.
#[local] Existing Instance forward_order.

Definition sample_settings : TraefikConfiguration :=
  mkTraefikConfiguration
    (mkGlobal ∅ [] false None 0 None None None None None true
       (Some (mkACME "" [] "traefik/acme/account" "acme.json" false false "" "https" None None "" 0 false)) (set_File (Some "") no_providers) no_settings)
    (Some (FileProvider.mkProvider true "" "" "")) "traefik.toml".

Definition run_sample (answer : stored -> option error) : outcome_of_run :=
  Run (fun l => l) (fun l => l) (fun _ => None) (fun _ => None) (fun a => Ok (ca_Email a)) answer
    (fun path => if bool_decide (path = "traefik.toml") then Some (FileProvider.File (Ok "")) else None)
    (fun path => if bool_decide (path = "acme.json") then Present "{}" false else Missing) (Some "traefik") sample_settings.

(** An error leaves what was written before. *)
Example stops_at_the_first_error :
  match run_sample (fun x => match x with StoreConfiguration _ => Some "unreachable" | _ => None end) with
  | Ret (err, l) => Some (err, length l) | _ => None end = Some (Some "unreachable", 1).
Proof. by vm_compute. Qed.

Definition stored_sample : list stored := match run_sample (fun _ => None) with Ret (_, l) => l | _ => [] end.
Lemma stored_everything_witness : length stored_sample = 4 /\ exists gc config,
  stored_sample = [StoreGlobal gc; StoreConfiguration config; StoreAccount "traefik/acme/account" "me@a.com"; DeleteKey "traefik/acme/storagefile"].
Proof.
  split; [by vm_compute|].
  destruct (stored_everything (fun l => l) (fun l => l) (fun _ => None) (fun _ => None) (fun a => Ok (ca_Email a)) (fun _ => None)
    (fun path => if bool_decide (path = "traefik.toml") then Some (FileProvider.File (Ok "")) else None)
    (fun path => if bool_decide (path = "acme.json") then Present "{}" false else Missing) (Some "traefik") sample_settings stored_sample)
    as (kv_Prefix & [= <-] & file & acme & Hl & (config & _ & Hf) & (account & object & Ha & Hm & Hacme)); [by vm_compute|].
  rewrite Hf, Hacme in Hl. vm_compute in Ha. injection Ha as <-. injection Hm as <-. eexists. exists config. exact Hl.
Defined.
End Examples.
End StoreConfig.
