(* ===== verification/EndToEnd.v ===== *)
(** * From a client to the servers of its cluster

    The pieces put together: the clusters the OSIO provider read become a
    configuration, its defaults are filled in, [loadConfig] builds the router,
    and the server of an entry point runs a request through the OSIO middleware
    and that router. *)
From S2P Require Import Prelude GoStrings GoStringsFacts GoNet GoHttp GoHttpFacts Types OsioClient OsioServices OsioCache OsioAuth OsioAuthFacts.
From S2P Require Import OsioProvider OsioProviderFacts Rules Whitelist Middlewares EntryPoints Redirect Routing.
From S2P Require Import Label ErrorPages Authenticator Certs GlobalConfig Cookie Handlers HealthCheck LoadConfig LoadConfigFacts ServerSetup ServerFacts.
From S2P Require Wiring Balancer Api Reload.
From S2P Require Import OsioRequest.
Open Scope go_scope.

(** ** The configuration of the provider *)

(** The defaults of [defaultConfigurationValues]. *)
Definition with_defaults (eps : list string) (c : Configuration) : Configuration :=
  mkConfiguration (Reload.configureBackends (Backends c)) (Reload.configureFrontends (Frontends c) eps) (TLSConfigs c).

(** Every frontend leads to its own address, or is the default one. *)
Definition cluster_url (resp : clusterResponse) (url : string) : Prop :=
  exists c, c ∈ Clusters resp /\ url <> "" /\ (url = APIURL c \/ url = MetricsURL c).

Definition pairs_of (resp : clusterResponse) (def : string) (config : Configuration) : Prop :=
  forall name f, Frontends config !! name = Some f -> exists url address,
    f = createFrontend url name /\ Backends config !! name = Some (createBackend address) /\
    (cluster_url resp url /\ address = url \/ url = "default" /\ address = def).

Lemma pairs_of_add resp def name url address config :
  (cluster_url resp url /\ address = url \/ url = "default" /\ address = def) ->
  pairs_of resp def config -> pairs_of resp def (add_pair name url address config).
Proof.
  intros H Hp name' f. unfold add_pair. simpl. destruct (decide (name' = name)) as [->|Hn].
  - rewrite !lookup_insert_eq. intros [= <-]. eauto.
  - rewrite !lookup_insert_ne by done. apply Hp.
Qed.

Lemma pairs_of_clusters resp def ind cs config :
  (forall c, c ∈ cs -> c ∈ Clusters resp) -> pairs_of resp def config -> pairs_of resp def (add_pairs (all_pairs ind cs) config).
Proof.
  revert ind config. induction cs as [|c cs IH]; intros ind config Hcs Hp; simpl; [done|].
  unfold add_pairs. rewrite foldl_app. apply IH; [intros; apply Hcs; by right|]. unfold cluster_pairs.
  assert (forall url, (url = APIURL c \/ url = MetricsURL c) -> nonempty url = true -> cluster_url resp url) as Hu.
  { intros url Hurl Hne. exists c. split; [apply Hcs; by left|]. split; [|done]. intros ->. done. }
  destruct (nonempty (APIURL c)) eqn:Ha, (nonempty (MetricsURL c)) eqn:Hm; simpl; try done; repeat apply pairs_of_add; auto 8.
Qed.

Lemma loadRules_pairs resp p :
  pairs_of resp (defaultBackendURL (loadRules resp p).2) (loadRules resp p).1.
Proof.
  unfold loadRules. destruct (Clusters resp) as [|first rest] eqn:E; [done|]. rewrite load_loop_pairs, <-E.
  set (p' := if _ || _ then p else _). simpl.
  assert (pairs_of resp (defaultBackendURL p') (add_pairs (all_pairs 0 (Clusters resp)) (mkConfiguration ∅ ∅ []))) as H.
  { apply pairs_of_clusters; [done|]. intros name f Hf. simpl in Hf. by rewrite lookup_empty in Hf. }
  destruct (nonempty (defaultBackendURL p')); [|done]. apply pairs_of_add; auto.
Qed.

(** A frontend and a backend of it with the defaults. *)
Definition cluster_frontend (eps : list string) (url name : string) : Frontend :=
  set_frontend_entry_points eps (createFrontend url name).
Definition cluster_backend (address : string) : Backend :=
  mkBackend {["server1" := Types.mkServer (OsioProvider.normalizeURL address) 0]} None (Some (mkLoadBalancer "wrr" false None)) None None None.

Lemma with_defaults_frontend resp p eps name f :
  Frontends (with_defaults eps (loadRules resp p).1) !! name = Some f -> exists url address,
    f = cluster_frontend eps url name /\
    Backends (with_defaults eps (loadRules resp p).1) !! name = Some (cluster_backend address) /\
    (cluster_url resp url /\ address = url \/ url = "default" /\ address = defaultBackendURL (loadRules resp p).2).
Proof.
  simpl. unfold Reload.configureFrontends, Reload.configureBackends. rewrite !lookup_fmap.
  intros (f0 & (url & address & -> & Hb & H)%loadRules_pairs & ->)%fmap_Some. exists url, address.
  split; [done|]. split; [by rewrite Hb|done].
Qed.

(** ** The chain and the route of such a frontend *)

Section EndToEnd.
Context {Certificate : Type} `{files : !TLSFiles Certificate} `{leafs : !Leaf Certificate}.
Context `{order : MapOrder} {laws : MapOrderLaws order}.
Context `{urls : UrlLib} `{mux : Mux} `{times : TimeLib} `{oxy : Oxy} `{env : !ServerEnv Certificate}.
Context (DefaultCertificate : result Certificate) (s : server).
Context {S : Type} (a : OSIOAuth S) `{handlers : !ServerHandlers Certificate (CacheState S cacheData)}.
Context `{regexps : RegexpLib} `{prefixes : PrefixRouter}.

(** Its servers are the address alone. *)
Lemma build_balancer_cluster address name m rr :
  build_balancer (cluster_backend address) name = Ok (m, rr) ->
  exists u, url_Parse (OsioProvider.normalizeURL address) = Ok u /\
    Balancer.Servers (LoadBalancer := Balancer.RoundRobin_balancer) rr = [u].
Proof using laws.
  unfold build_balancer, cluster_backend. cbn [be_LoadBalancer Types.Servers]. rewrite range_singleton.
  replace (NewLoadBalancerMethod (Some (mkLoadBalancer "wrr" false None))) with (Wrr, None : option error) by (by vm_compute).
  intros (rr' & Hr & [= <- <-])%result_bind_inv. cbn [configureLBServers Types.URL] in Hr.
  apply result_bind_inv in Hr as (u & Hu & Hr). exists u. split; [done|]. simpl in Hr. by injection Hr as <-.
Qed.

(** Its middlewares pass the request with its header. *)
Lemma cluster_frontend_part name ep eps url b :
  Forall (keeps_source (Certificate := Certificate)) (frontend_part s name ep (cluster_frontend eps url b)).
Proof.
  unfold frontend_part, white_list_part, redirect_part, auth_part. simpl. rewrite !Forall_app.
  split_and!; try done. destruct (metricsEnabled s); [|done]. constructor; [|done]. right. right. by eexists.
Qed.

(** The route of its rule. *)
Lemma cluster_route eps url name sr :
  rule_arg (OsioProvider.normalizeURL url) = true -> made_of (cluster_frontend eps url name) sr ->
  (forall handler, Wiring.wireFrontendBackend sr handler = handler) /\
  forall r, route_matches (sr_Route sr) r = true <-> OsioProvider.normalizeURL url ∈ header_values (ReqHeader r) "Target".
Proof using laws.
  intros Hu (route & prio & Hr & ->). cbn [Routes cluster_frontend set_frontend_entry_points createFrontend frontend_of] in Hr.
  rewrite range_singleton in Hr. cbn [add_routes Rule] in Hr. unfold Wiring.getRoute, bind_ok in Hr.
  pose proof Hu as (_ & _ & _ & Hne & _)%rule_arg_inv.
  unfold mbind, M_bind in Hr. rewrite Parse_target_shape in Hr by done. simpl in Hr. injection Hr as <-. split; [done|].
  intros r. rewrite <-(target_route_matches _ new_server_route) by done. done.
Qed.

(** What the client asked for decides: the OSIO middleware turns an OPTIONS over
    to the default target with the headers it has, and any other request to the
    cluster resolved for its token, with that cluster's token. *)
Definition targeted (r1 : Request) (st1 : CacheState S cacheData) (r2 : Request) (st2 : CacheState S cacheData) (target : string) : Prop :=
  header_values (ReqHeader r2) "Target" = [target] /\
  if bool_decide (Method r1 = "OPTIONS") then
    target = "default" /\ st2 = st1 /\ header_values (ReqHeader r2) "Authorization" = header_values (ReqHeader r1) "Authorization"
  else exists kind data, resolved_request a r1 st1 st2 kind data /\
    target = OsioServices.normalizeURL (getTargetURL (getRequestType r1) (Namespace data)) /\
    header_values (ReqHeader r2) "Authorization" = ["Bearer " +:+ Token data].

Lemma osio_target l r (st : CacheState S cacheData) r' st' :
  OSIOAuth_ServeHTTP a r st = (Ret (CallNext r'), st') -> RequestTenantLocation a = Some l ->
  exists target, targeted r st r' st' target.
Proof.
  intros Ho Hl. unfold targeted. case_bool_decide as Hm.
  - exists "default". unfold OSIOAuth_ServeHTTP in Ho. rewrite Hl, bool_decide_eq_true_2 in Ho by done. injection Ho as <- <-.
    unfold header_set, header_values. simpl. rewrite lookup_insert_eq. split_and!; [done..|]. by rewrite lookup_insert_ne.
  - destruct (forwarded_shape a r st r' st' l Ho Hl Hm) as (kind & data & Hres & _ & Hauth & Htarget & _).
    eexists. split; [exact Htarget|]. by exists kind, data.
Qed.

Lemma OSIORequest_method r r0 : OSIORequest_ServeHTTP r = CallNext r0 -> Method r0 = Method r.
Proof. unfold OSIORequest_ServeHTTP, processAuthParam. intros [= <-]. by repeat case_bool_decide. Qed.

(** What the router makes of a request with one target. *)
Lemma cluster_served `{sort : !RouteSort (Certificate := Certificate)} resp p providerName ep ld e r2 st2 lb r' st' target :
  (forall l, sort_routes l ≡ₚ l) ->
  (forall url, cluster_url resp url -> rule_arg (OsioProvider.normalizeURL url) = true) ->
  loadConfig DefaultCertificate s {[providerName := with_defaults [ep] (loadRules resp p).1]} = Ret ld ->
  ld_entry_points ld !! ep = Some e -> header_values (ReqHeader r2) "Target" = [target] ->
  serve_router (httpRouter e) r2 st2 = (Ret (ServedBackend lb r'), st') ->
  exists address rr u, ReqHeader r' = ReqHeader r2 /\
    balancer_of lb = Some rr /\ Balancer.Servers (LoadBalancer := Balancer.RoundRobin_balancer) rr = [u] /\ url_Parse address = Ok u /\
    (address = target \/ target = "default" /\ address = OsioProvider.normalizeURL (defaultBackendURL (loadRules resp p).2)).
Proof using laws.
  intros Hsort Hargs Hld He Ht Hr.
  destruct (serve_router_inv _ _ _ _ _ _ Hr) as (n & i & c & r3 & Hf & Hc & Hw & Hrun).
  pose proof Hf as (Hi & Hmatch & _)%list_find_Some. apply list_elem_of_lookup_2 in Hi.
  destruct (loaded_route _ _ _ ld ep e i c Hsort Hld He Hi Hc) as (pn & f & pn' & name' & ep' & f' & nn & pages & last & Hfr & Hep & Hmade & Hbuilt).
  destruct Hfr as (config & [<- <-]%lookup_singleton_Some & Hfr).
  destruct (with_defaults_frontend _ _ _ _ _ Hfr) as (url & address & -> & Hback & Haddr).
  destruct Hbuilt as [(config' & [<- <-]%lookup_singleton_Some & Hfr') Hep' Hkey Hchain Hn Hpages Hlast Hbal].
  destruct (with_defaults_frontend _ _ _ _ _ Hfr') as (url' & address' & -> & Hback' & _).
  apply list_elem_of_singleton in Hep' as ->. apply (inj (String.append ep)), (inj (String.append providerName)) in Hkey.
  cbn [fe_Backend cluster_frontend set_frontend_entry_points createFrontend frontend_of] in Hkey. subst name'.
  assert (rule_arg (OsioProvider.normalizeURL url) = true) as Hu by (destruct Haddr as [[? _]|[-> _]]; [by apply Hargs|done]).
  destruct (cluster_route [ep] url (in_name i) (in_route i) Hu Hmade) as [Hpath Hroute].
  rewrite Hpath in Hw. injection Hw as <-. apply Hroute in Hmatch. rewrite Ht in Hmatch. apply list_elem_of_singleton in Hmatch.
  rewrite Hchain, !app_assoc in Hrun. eapply run_to_last in Hrun as (r4 & st4 & Hthrough & Hp); [| |done].
  2: { rewrite !Forall_app. split_and!; [by apply redirects_inner|by apply error_pages_inner|by apply frontend_part_inner]. }
  destruct (pass_last _ _ _ _ _ _ Hlast Hp) as [-> Hlb].
  apply through_source in Hthrough as [Hh _].
  2: { rewrite !Forall_app. split_and!; [|by eapply Forall_impl; [exact Hpages|intros; right; left]|apply cluster_frontend_part].
       eapply Forall_impl; [exact Hn|]. intros; by left. }
  destruct Hbal as (config & backend & m & rr & [_ <-]%lookup_singleton_Some & Hb & Hbb & Hin).
  cbn [fe_Backend cluster_frontend set_frontend_entry_points createFrontend frontend_of] in Hb, Hbb. rewrite Hback in Hb. injection Hb as <-.
  destruct (build_balancer_cluster _ _ _ _ Hbb) as (u & Hurl & Hsrv).
  exists (OsioProvider.normalizeURL address), rr, u. rewrite Hlb. split_and!; try done.
  destruct Haddr as [[_ ->]|[-> ->]]; subst; [by left|by right].
Qed.

(** C1: with the configuration of the OSIO provider in force, whatever reaches
    a backend of the entry point is the client's request, its [access_token]
    moved into the header, let through by the entry point's authenticator and
    white list, and then passed on by the OSIO middleware with one target; it
    goes to the balancer whose only server is that target, or, for the target
    [default], the provider's default address.  Unless the client's request is
    an OPTIONS, the target is the address of the cluster resolved for the token
    of that very request, and what reaches the backend has that cluster's token,
    and nothing else, as its authorization; an OPTIONS goes to the default
    target. *)
Theorem user_reaches_own_cluster `{sort : !RouteSort (Certificate := Certificate)} l resp p providerName ep sv ld e r st lb r' st' :
  (forall r, osio_request r = OSIORequest_ServeHTTP r) ->
  (forall r st, osio_auth r st = OSIOAuth_ServeHTTP a r st) -> RequestTenantLocation a = Some l ->
  (forall l, sort_routes l ≡ₚ l) ->
  (forall url, cluster_url resp url -> rule_arg (OsioProvider.normalizeURL url) = true) ->
  setupServerEntryPoint DefaultCertificate s ep = Ret sv ->
  loadConfig DefaultCertificate s {[providerName := with_defaults [ep] (loadRules resp p).1]} = Ret ld ->
  ld_entry_points ld !! ep = Some e ->
  serve sv (httpRouter e) r st = (Ret (ServedBackend lb r'), st') ->
  exists entryPoint r0 r1 st1 r2 st2 target address rr u,
    gc_EntryPoints (globalConfiguration s) !! ep = Some entryPoint /\
    OSIORequest_ServeHTTP r = CallNext r0 /\ authenticated_by entryPoint r0 st r1 st1 /\ accepted_by entryPoint r1 /\
    OSIOAuth_ServeHTTP a r1 st1 = (Ret (CallNext r2), st2) /\ ReqHeader r' = ReqHeader r2 /\
    header_values (ReqHeader r') "Target" = [target] /\
    balancer_of lb = Some rr /\ Balancer.Servers (LoadBalancer := Balancer.RoundRobin_balancer) rr = [u] /\ url_Parse address = Ok u /\
    (address = target \/ target = "default" /\ address = OsioProvider.normalizeURL (defaultBackendURL (loadRules resp p).2)) /\
    (if bool_decide (Method r = "OPTIONS") then
       target = "default" /\ header_values (ReqHeader r') "Authorization" = header_values (ReqHeader r1) "Authorization"
     else exists kind data, resolved_request a r1 st1 st2 kind data /\
       target = OsioServices.normalizeURL (getTargetURL (getRequestType r1) (Namespace data)) /\
       header_values (ReqHeader r') "Authorization" = ["Bearer " +:+ Token data]).
Proof using laws.
  intros Hreq Hosio Hl Hsort Hargs Hsv Hld He Hs.
  destruct (serve_backend_inv _ _ _ _ _ _ _ _ _ _ Hsv Hs) as (entryPoint & r2 & st2 & Hep & (r0 & r1 & st1 & H0 & H1 & Hacc & Ho) & Hr).
  rewrite Hreq in H0. rewrite Hosio in Ho. destruct (osio_target _ _ _ _ _ Ho Hl) as (target & Ht & Hauth).
  assert (Method r1 = Method r) as Hmethod by (etrans; [by eapply authenticated_method|by apply OSIORequest_method]).
  destruct (cluster_served _ _ _ _ _ _ _ _ _ _ _ _ Hsort Hargs Hld He Ht Hr) as (address & rr & u & Hh & Hb & Hu & Hp & Haddr).
  exists entryPoint, r0, r1, st1, r2, st2, target, address, rr, u. rewrite Hmethod in Hauth. split_and!; try done.
  - by rewrite Hh.
  - rewrite Hh. destruct (bool_decide _); [|exact Hauth]. by destruct Hauth as (? & _ & ?).
Qed.

End EndToEnd.

(** ** Witness *)

#[local] Existing Instances sample_files sample_leaf sample_urls no_regexps no_times sample_oxy sample_sort sample_mux forward_order
  sample_env sample_prefixes.

Definition osio_handlers : ServerHandlers unit (CacheState unit cacheData) := {|
  auth_lib := {| basic_CheckAuth _ _ := ""; digest_CheckAuth _ _ := "" |};
  templates := fun t _ => Ok t;
  Handlers.urls := sample_urls;
  tls_files := sample_files;
  osio_request := OsioRequest.OSIORequest_ServeHTTP;
  osio_auth := OSIOAuth_ServeHTTP sample_auth;
  Do _ _ _ := mret (Err "closed");
  secure_request _ r := CallNext r;
  tripped _ := mret false;
|}.

Definition osio_setup : outcome (running_server (Certificate := unit)) := setupServerEntryPoint (Err "no default") sample_server "http".
Definition osio_load :=
  loadConfig (Err "no default") sample_server {["osio" := with_defaults ["http"] (loadRules sample_clusters sample_provider).1]}.

Lemma sample_cluster_args url : cluster_url sample_clusters url -> rule_arg (OsioProvider.normalizeURL url) = true.
Proof.
  intros (c & Hc & Hne & Hu). apply elem_of_cons in Hc as [->|[->|Hc%elem_of_nil]%elem_of_cons]; [| |done]; destruct Hu as [->| ->];
    first [done|by vm_compute].
Qed.

Lemma user_reaches_own_cluster_witness :
  reaches_backend (H := osio_handlers) osio_setup osio_load che_request empty_state = true /\
  exists (lb : handler unit) r' st1 st2 target rr u kind data, header_values (ReqHeader r') "Target" = [target] /\ balancer_of lb = Some rr /\
    Balancer.Servers (LoadBalancer := Balancer.RoundRobin_balancer) rr = [u] /\
    resolved_request sample_auth che_request st1 st2 kind data /\
    header_values (ReqHeader r') "Authorization" = ["Bearer " +:+ Token data].
Proof.
  assert (reaches_backend (H := osio_handlers) osio_setup osio_load che_request empty_state = true) as Hr by (vm_compute; reflexivity).
  split; [exact Hr|]. apply reaches_backend_inv in Hr as (sv & ld & e & lb & r' & st' & E & El & He & Hs).
  destruct (user_reaches_own_cluster (handlers := osio_handlers) (Err "no default") sample_server sample_auth sample_location
    sample_clusters sample_provider "osio" "http" sv ld e che_request empty_state lb r' st')
    as (entryPoint & r0 & r1 & st1 & r2 & st2 & target & address & rr & u & Hep & H0 & H1 & _ & _ & _ & Ht & Hb & Hu & _ & _ & H).
  - reflexivity.
  - reflexivity.
  - reflexivity.
  - intros l. apply merge_sort_Permutation.
  - exact sample_cluster_args.
  - exact E.
  - exact El.
  - exact He.
  - exact Hs.
  - injection Hep as <-. destruct H1 as [-> ->]. vm_compute in H0. injection H0 as <-. destruct H as (kind & data & Hres & _ & Hauth).
    exists lb, r', empty_state, st2, target, rr, u, kind, data. split; [exact Ht|]. split; [exact Hb|]. split; [exact Hu|].
    split; [exact Hres|exact Hauth].
Defined.
